(* ===== verification/_CoqProject ===== *)
-Q . S2P
Prelude.v
Json.v
Schema.v
Sql.v
MasterTables.v
Instances.v
JobGate.v
Invariant.v
MasterSound.v
AgentGate.v
Text.v
Base64.v
Gateway.v
TokenRefresh.v
GatewayHttp.v
Credentials.v
Shell.v
Providers.v
Sessions.v
Cutovers.v
MasterRecovery.v
MasterRevival.v
ReplyText.v
Jobs.v
Completion.v
Evidence.v
StateMachine.v
Events.v
Perception.v
Agents.v
LogReader.v
LogReaderProofs.v
HealthCheck.v
Recovery.v
Lifecycle.v
Startup.v
Outbox.v
JobsProofs.v
StateMachineProofs.v
LogMonitor.v
PromptCases.v
PromptRunner.v
PromptRunnerProofs.v
PromptStore.v
PromptIntegration.v
PromptIntegrationProofs.v
Tmux.v
AgentIo.v
Orchestrator.v
OrchestratorProofs.v
OrchestratorRecovery.v
ReplyTextProofs.v
AgentsProofs.v
LifecycleProofs.v
MasterProofs.v
EventsProofs.v
HealthCheckProofs.v
PaneDiff.v
StartupProofs.v
SessionWatch.v
SessionHandlers.v
Spawn.v
Tasks.v
InitProbe.v
AckTasks.v
AgentSpawn.v
AgentRequests.v
JobRequests.v
MasterReaper.v
MasterWatch.v
OutboxProofs.v
System.v
MasterWatchProofs.v
RequestProofs.v
SpawnProofs.v
Witnesses.v
MasterWitnesses.v
GatewayWitnesses.v
DispatchWitnesses.v
WatchWitnesses.v
