(* ===== verification/Prelude.v ===== *)
(** * ahd: verification of the orchestration daemon's state core

    ** The program

    [ahd] supervises coding agents that run in terminal panes.  Clients submit
    jobs to an agent; the orchestrator dispatches them; signals from the pane,
    from the provider's hooks and from its transcript say that a turn ended; a
    job may ask for evidence before it counts as done; an agent that crashes or
    is lost is recovered and its interrupted job put back in the queue.  Agents
    belong to a session, which has a master (the process that gives them work)
    and an anchor (a systemd unit): a dead master is revived within a bounded
    window or the session is ended, and a session can be handed to a new master.
    All of it is kept in one SQLite database behind one connection, and every
    decision the daemon takes is a transaction of [src/src/db/] or
    [src/src/master_revival.rs]: these transactions are the core of the program
    and of this development.  Around them it models the outbox
    ([src/src/outbox/mod.rs]) that delivers hook events durably; the parser, the
    reader and the monitor of transcripts ([src/src/completion/]); the handling
    of interactive prompts ([src/src/prompt_handler/]); the tmux driver and the
    typing of a job's prompt ([src/src/tmux/], [src/src/agent_io/]); the
    orchestrator that dispatches jobs and recovers agents
    ([src/src/orchestrator/mod.rs]); the health check; the gateway through which
    agents reach the model's API without its credential
    ([src/src/claude_gateway.rs]); the commands by which agents are spawned; the
    watch of the anchor ([src/src/monitor/session_watch.rs]) and the requests on
    sessions ([src/src/rpc/handlers/]).

    ** Files and what they model

    Foundations.  [Prelude]: results, notations, ordered queries, tactics.
    [Json]: [serde_json::Value]; its printer and parser are third-party code
    and so a class with the round trip as law.  [Schema]: the tables of
    [src/src/db/schema.rs] as records and finite maps, the error type of
    [src/src/error.rs], the broadcasts of [src/src/orchestrator/pubsub.rs] as
    effects, the world (tables, clock, effects, and the provider logs a
    completion consults).  [Sql]: the class [Externals] of what the storage
    engine and the hasher leave open, the state-and-error monad in which every
    function is written, one definition per statement with the constraint
    errors SQLite answers, transactions that commit or roll back, and the
    predicate [respects] through which operations are reasoned about.
    [Instances]: concrete functions that satisfy the laws of the classes.

    Components, each a translation of a source file with its definitions under
    the source's names:
    - [JobGate]: [db/job_state.rs], the only writer of a job's status;
    - [AgentGate]: the compare-and-set on agent states, [db/state_machine.rs];
    - [Text], [ReplyText]: the text operations of [db/jobs.rs] that distil a
      reply from terminal output, over UTF-8 strings kept as bytes;
    - [Jobs]: submission, claim, dispatch, completion, cancellation, failure
      and requeueing, [db/jobs.rs];
    - [Completion]: [completion/parser.rs];
    - [Evidence]: [db/evidence.rs] and [db/state_machine_assert.rs];
    - [StateMachine]: the three completion signals, deferral, stuck and
      unknown agents, the rest of [db/state_machine.rs];
    - [Agents]: [db/agents.rs]; [Lifecycle]: [db/agents_lifecycle.rs];
      [Recovery]: [db/recovery.rs];
    - [Outbox]: [outbox/mod.rs], with the file system as maps from names to
      contents and every call that can fail as an input;
    - [Events], [Perception]: [db/events.rs], [db/events_progress.rs] and
      [db/perception/];
    - [MasterTables], [Sessions], [Cutovers], [MasterRecovery]: the statements
      on projects, sessions, cutovers and recovery windows, [db/sessions.rs],
      [db/master_cutovers.rs] and [db/master_recovery.rs];
    - [MasterRevival]: the statements of [master_revival.rs], by which a dead
      master is classified, claimed, counted against and replaced;
    - [Startup]: [db/system.rs] and [db/system/startup.rs], the end of a
      session's workers and what a restarted daemon does with what it finds;
    - [SessionWatch]: [monitor/session_watch.rs], one turn of the watch;
    - [SessionHandlers]: the session requests of [rpc/handlers/sessions.rs] and
      [rpc/handlers/master_cutover.rs].
    - [Base64], [Gateway], [TokenRefresh], [GatewayHttp], [Credentials]:
      [claude_gateway.rs], with the refresh of the account's token as a
      transition system of callers that interleave;
    - [Shell], [Providers], [Spawn]: quoting, [provider/manifest.rs],
      [provider/init_probe.rs], the command lines of [platform/linux/scope.rs]
      and [sandbox/mod.rs];
    - [InitProbe]: [provider/init_probe_task.rs], the task that waits for a
      started agent, in steps with the other tasks in between, and the matching of
      [db/learned_rules.rs];
    - [AckTasks]: [rpc/handlers/ack.rs], the task that follows a typed command
      until its agent is seen at work;
    - [HealthCheck], [PaneDiff]: [provider/health_check.rs] and
      [pane_diff/mod.rs], one turn of each watcher;
    - [LogReader], [LogMonitor]: [completion/reader.rs], [log_layout.rs],
      [monitor.rs] and [registry.rs]; the directory tree is an input of a poll;
    - [PromptCases], [PromptRunner], [PromptStore], [PromptIntegration]:
      [prompt_handler/] and [db/prompt_experience.rs]: the cases prompts are
      known by, the runner that answers them over a terminal given as a record
      of three operations, the file of cases with its lock and every failure
      point, the report of a prompt nobody answered, the watcher that unparks
      agents, a person's answer;
    - [Tmux], [AgentIo]: [tmux/session.rs] and [agent_io/]: the commands run
      are kept in a trace, and tmux is any function that answers them
      (the class [TmuxExec]);
    - [Orchestrator], [OrchestratorRecovery]: [orchestrator/mod.rs].  A pass
      runs in a monad over the daemon's registries and the world; before each
      of its steps an arbitrary function changes both, which stands for the
      tasks that run meanwhile.  The tasks a pass starts are recorded.
    - [Tasks]: the registries, the host and the monad shared by the tasks and
      handlers below, with the lemmas on their runs: what the commands of a run
      are ([leads]) and what its steps keep ([steady]);
    - [AgentSpawn]: [agent.spawn] of [rpc/handlers/agent.rs] and the spawn of
      [rpc/handlers/realign.rs] that revivals and recoveries use, with what each
      failure undoes ([sandbox/path.rs] included);
    - [AgentRequests]: the other requests of [rpc/handlers/agent.rs] and the
      task that follows an agent's process, [monitor/agent_watch.rs];
    - [JobRequests]: [rpc/handlers/jobs.rs] and [rpc/handlers/evidence.rs];
    - [MasterReaper], [MasterWatch]: [monitor/master_reaper.rs] and
      [monitor/master_watch.rs]: the handling of a master's death from its
      detection to the closing of its recovery window, in the same style.
    What processes, pipes, systemd and tmux answer is an input of the operation
    that asks; what they are told to do is an effect, in order.

    [Invariant] states what a database satisfies ([db_wf], [audit_ok],
    together [consistent]) and how rows may change ([evolves]); [sound] is
    both.  [MasterTables] states the same for the master's tables ([master_ok],
    [master_evolves], which [evolves] includes).  Each component proves that
    its operations respect [sound] ([MasterSound] has the leaves for the
    master's tables), and [System] puts all entry points together as a
    transition system whose steps come in any order, interleaved with the clock
    and the provider logs.

    ** What the theorems show

    - Over every reachable state ([System]): the tables are well formed; the
      audit trail of a job, replayed along the transition table, ends at the
      job's status; completed and cancelled jobs stay so; events and audit rows
      are only appended; an agent's state does not change without its version;
      a session that ended stays ended and its master's generation only grows.
    - The gates ([AgentGate], [JobsProofs]): which transitions are accepted,
      what is written, and that a refusal writes nothing; an acknowledgement
      or a recovery claim made with an outdated version loses.
    - The queue ([JobsProofs]): dispatch takes the oldest job and moves job and
      agent together; a repeated request answers the first job; failing an
      agent's jobs fails exactly those; a dispatch can be undone; a requested
      cancellation is enforced after its timeout; the attempt counter is read
      back as it was written.
    - Completion ([StateMachineProofs], [Completion], [ReplyTextProofs]):
      no signal completes a job that lacks the evidence it asks for; markers of
      other jobs are ignored; a log line completes the job once; the same
      deferred reply is nudged once; a transcript line ends a turn exactly when
      its stop reason says so; replies are cut between characters.
    - The end of an agent ([LifecycleProofs], [AgentsProofs]): a crash fails
      exactly the agent's dispatched jobs and captures an intent from which exactly the
      interrupted job is requeued; recovery backs off and gives up; a lost
      agent is brought back by a reviewed assertion; a killed agent's
      replacement takes over its job and its specification.
    - The outbox ([OutboxProofs]): however records are redelivered, the database
      is the one in which each was applied once, its hook event or the row of its
      declaration included; journalling is all or nothing; a scan loses no file
      whatever calls fail, delivers what was journalled and sets aside what
      cannot be applied.

    - Masters ([Cutovers], [MasterProofs]): the cutover records implement an
      abstract lock per session, with its answers (a refinement); nothing done
      in the name of a replaced master's generation has an effect; revival
      attempts run out after five with doubling delays; a recovery window
      defers the end of a session for a bounded time and is final once it
      expired; what a shutdown ends and leaves.
    - The end of a session ([StartupProofs], [SessionWatch],
      [SessionHandlers]): a cascade, a kill request and a lost anchor end the
      session, exactly the agents in it and exactly the jobs dispatched to
      them; startup crashes exactly the agents at work that it lost and stops exactly the
      scopes of its own that name nothing alive.
    - Events ([EventsProofs]): a client that polls sees each event once; a
      repeated request is refused with the number of the first; an observation
      is read back as reported.

    - The gateway ([Gateway], [TokenRefresh], [GatewayHttp],
      [Credentials]): the account's credential goes upstream only on the channel
      of the worker that asks and no worker's token leaves; however callers
      interleave, refreshes never overlap, use the latest refresh token and
      respect the back-off, and every caller returns; a worker's token is read back
      as its name by any parser that follows the JSON standard, unless the name
      holds a control character that is not escaped (a defect); requests are read
      as they were written; a refreshed credential survives in the file.
    - Spawning and health ([Providers], [Spawn], [HealthCheckProofs]): what a
      provider's environment holds; the scope of an agent is recognised by the
      sweep; a health check of captured panes only raises alerts, and its search
      for the last progress is exact.
    - Transcripts ([LogReaderProofs], [LogMonitor]): tailing growing files
      reports what one reading of the final files does; a finished turn
      completes the job and ends the monitor; a line found half written is lost,
      and a monitor that ends late cancels its successor (both defects).
    - Prompts ([PromptRunnerProofs], [PromptStore], [PromptIntegrationProofs]):
      the runner returns on every terminal and types only what the whitelist
      allows; the file of cases is never torn, though two saves can lose a case;
      a scan parks only agents that rest; an answer is typed only when all of
      it is allowed and the agent waits for one.
    - Dispatch ([AgentIo], [OrchestratorProofs]): whatever the other tasks do, a
      turn pastes nothing or the prompt of the job it dispatched, once and
      whole; nothing is submitted after a failed paste; a prompt that cannot be
      typed fails its job, leaves no agent waiting and stops the job's monitor.
    - The recovery pass ([OrchestratorRecovery]): only agents that are due are
      touched; the jobs still queued for a revived agent are lost (a defect).

    - The supervision of masters ([MasterWatchProofs]): whatever the other tasks
      do, a death leads to at most one replacement, fenced by the generation it
      claimed; the revival never leaves its window open in an active session;
      three lapses (a worker timeout that is not recorded, a signal to a dead
      process id, a patrol that mistakes a full descriptor table for a death).
    - Starting agents ([InitProbe]): whatever the screen shows, and with other
      tasks in between that neither start the agent again nor send it a job, a
      started agent is settled at its deadline at the latest, unless an error of
      the learned rules ends the task before (a defect); a screen that only the
      prompt runner confirms never makes it ready (a defect).
    - Acknowledgement ([AckTasks]): whatever the screen shows and tmux answers,
      and with other tasks in between that send the agent no further command, the
      agent of a typed command waits for five seconds at most; a failed capture has the command typed twice (a defect).
    - Still screens ([PaneDiff]): an alert that a screen stands still is true of
      every turn since the one it counts from, up to collisions of the hash; a turn only alerts; a settled
      screen is reported in time (and one that is not settled never, a defect).
    - Requests ([RequestProofs], [SpawnProofs]): a command is
      typed at most once however often its request is repeated, into an agent
      that was taken for it and after it was recorded; a spawn registers
      everything that follows the agent or leaves nothing of it behind, but a pane
      when its configuration cannot be hashed (a defect); a waiter
      is answered with the end of its job and misses none.

    [Witnesses], [MasterWitnesses], [GatewayWitnesses], [DispatchWitnesses] and
    [WatchWitnesses] run a small daemon from a fresh
    database, apply every theorem that has hypotheses to it, and hold the runs
    that show a defect.

    ** Bounds and termination

    Most loops are structural recursion over the rows, files or characters they
    visit.  The others have fuel, and enough of it:
    - the decimal printer of [Text] stops after twenty digits, as many as a
      [u64] has;
    - [lossy_go] and [scan_lines] of [LogReader] take at least one byte of their
      input per step and get its length (one more for [scan_lines]);
    - [last_marker_loop] of [HealthCheck] moves to a smaller event number at
      each step and gets the number of events, which [last_progress_exact] shows
      to be enough;
    - [chain_loop] of [PromptRunner] gets [max_turns], and
      [prompt_chain_ends_safely] shows that it never runs out;
    - the loops of [InitProbe] and [AckTasks] get the turns that are taken, with
      their times, and their theorems hold once a turn is past the deadline;
    - a revived master and its workers are polled [mx_patience] times, and
    - an agent that is busy without a job is asked [cx_patience] times before
      its turn is given up: the source stops by the clock, so the number is a
      parameter and the theorems hold for each.
    Integers are
    unbounded where the source uses [i64] counters that only grow by one; the
    places where a width matters (the [u32] retry attempt and the [u64]
    hash) have it written out.

    ** What is not modelled

    Two processes on one database: the daemon holds the only connection.
    SQLite itself beyond the constraints and answers of the statements used;
    disk failures of the database.  The order in which SQLite reports two
    violated constraints, the hash function, the vt100 screen, JSON text and
    the serializers of structs, regular expressions, SHA-256, the language model
    and tmux are parameters.  Timers and sleeping loops around a modelled turn,
    the reader of an agent's pipe, the perception stream, the
    files of a provider's home ([provider/home_layout.rs]), the command line,
    the RPC transport and configuration files are outside: the operations they
    call are the entry points of [System].  A request handler of
    [SessionHandlers] is modelled as one run; its calls on the database are the
    steps of [System], where they interleave.  The requests on agents and jobs
    and the supervision of masters are modelled step by step, with the other
    tasks in between.  In [OrchestratorRecovery] the spawn of a worker is a
    parameter, as the registries that pass works on are its own.  Of
    [rpc/handlers/realign.rs] only the spawn is modelled, not the comparison of a
    configuration with the running agents; [master_cutover.rs], which drives a
    planned hand-over through the operations of [Cutovers], the table of learned
    rules (the rules a turn of [InitProbe] finds are its input) and the runtime
    snapshots are not modelled either. *)
From Corelib Require Export ssreflect.
From stdpp Require Export base gmap strings list fin_maps sorting numbers relations.
From Stdlib Require Export ZArith Lia.

#[global] Open Scope Z_scope.

(** ** Results: Rust's [Result<A, E>] *)

Inductive Result (A E : Type) : Type :=
| Ok (a : A)
| Err (e : E).
Arguments Ok {A E} a.
Arguments Err {A E} e.

(** ** Notations

    Boolean tests the way the source writes them: [==], [!=] and [contains]
    on strings, statuses and lists of either. *)

Declare Scope ahd_scope.
Delimit Scope ahd_scope with ahd.
Notation "x == y" := (bool_decide (x = y)) (at level 70, no associativity) : ahd_scope.
Notation "x != y" := (negb (bool_decide (x = y))) (at level 70, no associativity) : ahd_scope.
Notation "x 'is_in' l" := (bool_decide (x ∈ l)) (at level 70, no associativity) : ahd_scope.
#[global] Open Scope ahd_scope.

(** ** Queries: [SELECT ... ORDER BY ... LIMIT 1] over the rows of a table *)

(** The rows of a table keyed by its primary key, in no particular order. *)
Definition table_rows {R : Type} (t : gmap string R) : list R := (map_to_list t).*2.

(** [ORDER BY le], the first row of the answer. *)
Definition order_by {R : Type} (le : relation R) `{!RelDecision le} (rows : list R) : list R :=
  merge_sort le rows.

(** The lexicographic order of [ORDER BY f ASC, g ASC]. *)
Definition lex_le {R : Type} (flt : relation R) (feq : relation R) (gle : relation R) :
  relation R := λ x y, flt x y ∨ (feq x y ∧ gle x y).

(** NULLs sort before every value in an ascending SQLite order. *)
Definition null_first_le (x y : option Z) : Prop :=
  match x, y with
  | None, _ => True
  | Some _, None => False
  | Some a, Some b => a ≤ b
  end.

Definition null_first_lt (x y : option Z) : Prop :=
  match x, y with
  | None, Some _ => True
  | _, None => False
  | Some a, Some b => a < b
  end.

#[global] Instance null_first_lt_dec : RelDecision null_first_lt.
Proof. intros [a|] [b|]; simpl; apply _. Defined.
#[global] Instance null_first_le_dec : RelDecision null_first_le.
Proof. intros [a|] [b|]; simpl; apply _. Defined.

(** ** Automation *)

Create HintDb ahd discriminated.

(** ** Lists *)

Lemma filter_none {A} (P : A → Prop) `{!∀ x, Decision (P x)} (l : list A) :
  (∀ x, x ∈ l → ¬ P x) → filter P l = [].
Proof.
  induction l as [|x l IH]; intros Hnone; [done|].
  rw filter_cons_False; [apply Hnone, list_elem_of_here|].
  apply IH. intros y Hy. by apply Hnone, list_elem_of_further.
Qed.

Lemma filter_all {A} (P : A → Prop) `{!∀ x, Decision (P x)} (l : list A) :
  (∀ x, x ∈ l → P x) → filter P l = l.
Proof.
  intros Hl. induction l as [|x l IH]; [done|].
  rw filter_cons_True; [apply Hl; by left|]. f_equal. apply IH. intros y Hy. apply Hl. by right.
Qed.

Lemma filter_filter_impl {A} (P Q : A → Prop) `{!∀ x, Decision (P x), !∀ x, Decision (Q x)}
    (l : list A) :
  (∀ x, x ∈ l → P x → Q x) → filter P (filter Q l) = filter P l.
Proof.
  induction l as [|x l IH]; intros Himpl; [done|].
  assert (IH' : filter P (filter Q l) = filter P l).
  { apply IH. intros y Hy. by apply Himpl, list_elem_of_further. }
  destruct (decide (P x)) as [HP|HP].
  - rw (filter_cons_True Q); [by apply Himpl; [apply list_elem_of_here|]|].
    by rw !(filter_cons_True P) // IH'.
  - rw (filter_cons_False P _ _ HP). rw filter_cons. case_decide; [|done].
    by rw filter_cons_False.
Qed.

(** The head of [ORDER BY le] is a row no other row precedes. *)
Lemma order_by_head {R} (le : relation R) `{!RelDecision le, !Transitive le, !Total le}
    (rows : list R) r :
  head (order_by le rows) = Some r → r ∈ rows ∧ ∀ r', r' ∈ rows → r' = r ∨ le r r'.
Proof.
  unfold order_by. intros Hh.
  pose proof (StronglySorted_merge_sort le rows) as Hs.
  pose proof (merge_sort_Permutation le rows) as Hp.
  destruct (merge_sort le rows) as [|x l]; simplify_eq/=.
  split; [rw -Hp; apply list_elem_of_here|].
  intros r'. rw -Hp. apply StronglySorted_inv in Hs as [_ Hall].
  intros [->|Hin]%elem_of_cons; [by left|right].
  by eapply Forall_forall.
Qed.

Lemma order_by_elem {R} (le : relation R) `{!RelDecision le} (rows : list R) r :
  r ∈ order_by le rows ↔ r ∈ rows.
Proof. unfold order_by. by rw merge_sort_Permutation. Qed.

Lemma order_by_head_None {R} (le : relation R) `{!RelDecision le} (rows : list R) :
  head (order_by le rows) = None ↔ rows = [].
Proof.
  unfold order_by. pose proof (merge_sort_Permutation le rows) as Hp.
  destruct (merge_sort le rows) as [|x l]; split; intros Hr; simplify_eq/=; [|done|].
  - by apply Permutation_nil.
  - by apply symmetry, Permutation_nil_cons in Hp.
Qed.
