(* ===== verification/Json.v ===== *)
(** * JSON values

    The [serde_json::Value] the source builds with [json!], stores as text in
    [events.payload] and reads back with [get], [as_str], [as_array] and
    [as_i64].  [serde_json] itself is a third-party crate: its printer and its
    parser are the class [SerdeJson], whose only law is that parsing a printed
    value gives the value back. *)
From S2P Require Import Prelude.

#[warnings="-register-all"]
Inductive Value : Type :=
| JNull
| JBool (b : bool)
| JNumber (n : Z)
| JFloat (bits : Z)
| JString (s : string)
| JArray (l : list Value)
| JObject (fields : list (string * Value)).

(** [serde_json::Map] is a [BTreeMap]: the fields are sorted by key and
    inserting a key that is present replaces its value. *)
Fixpoint map_insert (k : string) (v : Value) (m : list (string * Value)) :
  list (string * Value) :=
  match m with
  | [] => [(k, v)]
  | (k', v') :: m' =>
      match String.compare k k' with
      | Lt => (k, v) :: m
      | Eq => (k, v) :: m'
      | Gt => (k', v') :: map_insert k v m'
      end
  end.

Fixpoint map_get (k : string) (m : list (string * Value)) : option Value :=
  match m with
  | [] => None
  | (k', v) :: m' => if k == k' then Some v else map_get k m'
  end.

(** [json!({ "k1": v1, ... })] *)
Definition json_object (fields : list (string * Value)) : Value :=
  JObject (foldl (λ m '(k, v), map_insert k v m) [] fields).

(** [json!(o)] for an [Option]: [None] is [null]. *)
Definition json_opt {A : Type} (f : A → Value) (o : option A) : Value :=
  match o with Some a => f a | None => JNull end.

(** [Value::get(key)] *)
Definition value_get (k : string) (v : Value) : option Value :=
  match v with JObject m => map_get k m | _ => None end.

Definition as_str (v : Value) : option string :=
  match v with JString s => Some s | _ => None end.

Definition as_array (v : Value) : option (list Value) :=
  match v with JArray l => Some l | _ => None end.

Definition i64_min : Z := - 2 ^ 63.
Definition i64_max : Z := 2 ^ 63 - 1.

(** [Value::as_i64]: a [Number] holds an [i64] or a [u64]. *)
Definition as_i64 (v : Value) : option Z :=
  match v with
  | JNumber n => if bool_decide (i64_min ≤ n ≤ i64_max) then Some n else None
  | _ => None
  end.

(** [v.get(k).and_then(Value::as_str)] *)
Definition get_str (k : string) (v : Value) : option string := value_get k v ≫= as_str.

(** ** Well-formed values

    The values the crate can hold and print exactly: sorted keys, integers in
    the range of [i64] or [u64], and no float (a printed float need not parse
    to the same bits). *)

Definition str_lt (a b : string) : Prop := String.compare a b = Lt.

Fixpoint keys_above (k : string) (m : list (string * Value)) : Prop :=
  match m with
  | [] => True
  | (k', _) :: m' => str_lt k k' ∧ keys_above k' m'
  end.

Definition keys_sorted (m : list (string * Value)) : Prop :=
  match m with [] => True | (k, _) :: m' => keys_above k m' end.

Fixpoint value_wf (v : Value) : Prop :=
  match v with
  | JNull | JBool _ | JString _ => True
  | JNumber n => i64_min ≤ n < 2 ^ 64
  | JFloat _ => False
  | JArray l => (fix go l := match l with [] => True | v :: l' => value_wf v ∧ go l' end) l
  | JObject m =>
      keys_sorted m ∧
      (fix go m := match m with [] => True | (_, v) :: m' => value_wf v ∧ go m' end) m
  end.

(** The printer and the parser of [serde_json] ([Value::to_string] and
    [serde_json::from_str::<Value>(..).ok()]), and the text of the error the
    parser answers for an input. *)
Class SerdeJson := {
  json_to_string : Value → string;
  json_from_str : string → option Value;
  json_error_display : string → string;
  json_from_to (v : Value) : value_wf v → json_from_str (json_to_string v) = Some v
}.

(** ** The sorted-map facts the readers of a payload rely on *)

Lemma str_compare_refl s : String.compare s s = Eq.
Proof.
  induction s as [|a s IH]; simpl; [done|].
  unfold Ascii.compare. by rw N.compare_refl.
Qed.

Lemma map_get_insert_eq k v m : map_get k (map_insert k v m) = Some v.
Proof.
  induction m as [|[k' v'] m IH]; simpl; [by rw bool_decide_true|].
  destruct (String.compare k k') eqn:E; simpl; [by rw bool_decide_true..|].
  case_bool_decide; [|done]. subst k'. by rw str_compare_refl in E.
Qed.

Lemma map_get_insert_ne k k' v m :
  k ≠ k' → map_get k (map_insert k' v m) = map_get k m.
Proof.
  intros Hne. induction m as [|[k2 v2] m IH]; simpl; [by rw bool_decide_false|].
  destruct (String.compare k' k2) eqn:E; simpl.
  - apply String.compare_eq_iff in E as ->. by rw !bool_decide_false.
  - by rw bool_decide_false.
  - by rw IH.
Qed.

(** Inserting a well-formed value into a well-formed object keeps it so. *)
Lemma keys_above_insert j k v m :
  keys_above j m → str_lt j k → keys_above j (map_insert k v m).
Proof.
  revert j. induction m as [|[k' v'] m IH]; intros j; simpl; [done|]. intros [Hj Hm] Hk.
  destruct (String.compare k k') eqn:E; simpl; [|done|].
  - apply String.compare_eq_iff in E as ->. done.
  - split; [done|]. apply IH; [done|]. unfold str_lt. by rw String.compare_antisym E.
Qed.

Lemma keys_sorted_insert k v m : keys_sorted m → keys_sorted (map_insert k v m).
Proof.
  destruct m as [|[k' v'] m]; simpl; [done|]. intros Hm.
  destruct (String.compare k k') eqn:E; simpl; [|done|].
  - by apply String.compare_eq_iff in E as ->.
  - apply keys_above_insert; [done|]. unfold str_lt. by rw String.compare_antisym E.
Qed.

Lemma value_wf_object m : value_wf (JObject m) ↔ keys_sorted m ∧ Forall (λ kv, value_wf kv.2) m.
Proof.
  simpl. apply and_iff_compat_l. induction m as [|[k v] m IH]; [by split|].
  rw Forall_cons -IH. done.
Qed.

Lemma value_wf_insert k v m :
  value_wf v → value_wf (JObject m) → value_wf (JObject (map_insert k v m)).
Proof.
  intros Hv. rw !value_wf_object. intros [Hs Hm]. split; [by apply keys_sorted_insert|].
  clear Hs. induction Hm as [|[k' v'] m Hv' Hm IH]; simpl; [by repeat constructor|].
  destruct (String.compare k k'); by repeat constructor.
Qed.

Lemma map_get_wf k v m : value_wf (JObject m) → map_get k m = Some v → value_wf v.
Proof.
  rw value_wf_object. intros [_ Hm]. induction Hm as [|[k' v'] m Hv Hm IH]; simpl; [done|].
  case_bool_decide; [by intros [= <-]|auto].
Qed.
