(* ===== verification/Schema.v ===== *)
(** * Schema: the database and the errors

    The tables of [src/src/db/schema.rs] ([SCHEMA_DDL]) as records, the error
    type of [src/src/error.rs], the notifications the daemon publishes
    ([src/src/orchestrator/pubsub.rs]) and the world an operation runs in.

    A table with a text primary key is a map from the key to the row; the two
    append-only logs ([events], [job_transitions]) are lists in key order.
    0/1 columns the source only reads as [!= 0] are booleans.  A setter
    [set_c v r] is the row [r] with column [c] set to [v]. *)
From S2P Require Import Prelude Json.

(** ** Rows *)

(** A row of [agents]. *)
Record Agent : Type := MkAgent {
  a_id : string;
  a_session_id : string;
  a_provider : string;
  a_state : string;
  a_state_version : Z;
  a_pid : option Z;
  a_exit_code : option Z;
  a_error_code : option string;
  a_created_at : Z;
  a_sub_state : option string;
  a_config_hash : option string;
  a_retry_count : Z;
  a_next_retry_at : option Z;
  a_retry_exhausted : bool;
  a_updated_at : Z
}.

Definition set_a_state (v : string) (r : Agent) : Agent :=
  MkAgent r.(a_id) r.(a_session_id) r.(a_provider) v r.(a_state_version) r.(a_pid)
    r.(a_exit_code) r.(a_error_code) r.(a_created_at) r.(a_sub_state) r.(a_config_hash)
    r.(a_retry_count) r.(a_next_retry_at) r.(a_retry_exhausted) r.(a_updated_at).
Definition set_a_state_version (v : Z) (r : Agent) : Agent :=
  MkAgent r.(a_id) r.(a_session_id) r.(a_provider) r.(a_state) v r.(a_pid) r.(a_exit_code)
    r.(a_error_code) r.(a_created_at) r.(a_sub_state) r.(a_config_hash) r.(a_retry_count)
    r.(a_next_retry_at) r.(a_retry_exhausted) r.(a_updated_at).
Definition set_a_pid (v : option Z) (r : Agent) : Agent :=
  MkAgent r.(a_id) r.(a_session_id) r.(a_provider) r.(a_state) r.(a_state_version) v
    r.(a_exit_code) r.(a_error_code) r.(a_created_at) r.(a_sub_state) r.(a_config_hash)
    r.(a_retry_count) r.(a_next_retry_at) r.(a_retry_exhausted) r.(a_updated_at).
Definition set_a_exit_code (v : option Z) (r : Agent) : Agent :=
  MkAgent r.(a_id) r.(a_session_id) r.(a_provider) r.(a_state) r.(a_state_version) r.(a_pid) v
    r.(a_error_code) r.(a_created_at) r.(a_sub_state) r.(a_config_hash) r.(a_retry_count)
    r.(a_next_retry_at) r.(a_retry_exhausted) r.(a_updated_at).
Definition set_a_error_code (v : option string) (r : Agent) : Agent :=
  MkAgent r.(a_id) r.(a_session_id) r.(a_provider) r.(a_state) r.(a_state_version) r.(a_pid)
    r.(a_exit_code) v r.(a_created_at) r.(a_sub_state) r.(a_config_hash) r.(a_retry_count)
    r.(a_next_retry_at) r.(a_retry_exhausted) r.(a_updated_at).
Definition set_a_sub_state (v : option string) (r : Agent) : Agent :=
  MkAgent r.(a_id) r.(a_session_id) r.(a_provider) r.(a_state) r.(a_state_version) r.(a_pid)
    r.(a_exit_code) r.(a_error_code) r.(a_created_at) v r.(a_config_hash) r.(a_retry_count)
    r.(a_next_retry_at) r.(a_retry_exhausted) r.(a_updated_at).
Definition set_a_config_hash (v : option string) (r : Agent) : Agent :=
  MkAgent r.(a_id) r.(a_session_id) r.(a_provider) r.(a_state) r.(a_state_version) r.(a_pid)
    r.(a_exit_code) r.(a_error_code) r.(a_created_at) r.(a_sub_state) v r.(a_retry_count)
    r.(a_next_retry_at) r.(a_retry_exhausted) r.(a_updated_at).
Definition set_a_retry_count (v : Z) (r : Agent) : Agent :=
  MkAgent r.(a_id) r.(a_session_id) r.(a_provider) r.(a_state) r.(a_state_version) r.(a_pid)
    r.(a_exit_code) r.(a_error_code) r.(a_created_at) r.(a_sub_state) r.(a_config_hash) v
    r.(a_next_retry_at) r.(a_retry_exhausted) r.(a_updated_at).
Definition set_a_next_retry_at (v : option Z) (r : Agent) : Agent :=
  MkAgent r.(a_id) r.(a_session_id) r.(a_provider) r.(a_state) r.(a_state_version) r.(a_pid)
    r.(a_exit_code) r.(a_error_code) r.(a_created_at) r.(a_sub_state) r.(a_config_hash)
    r.(a_retry_count) v r.(a_retry_exhausted) r.(a_updated_at).
Definition set_a_retry_exhausted (v : bool) (r : Agent) : Agent :=
  MkAgent r.(a_id) r.(a_session_id) r.(a_provider) r.(a_state) r.(a_state_version) r.(a_pid)
    r.(a_exit_code) r.(a_error_code) r.(a_created_at) r.(a_sub_state) r.(a_config_hash)
    r.(a_retry_count) r.(a_next_retry_at) v r.(a_updated_at).
Definition set_a_updated_at (v : Z) (r : Agent) : Agent :=
  MkAgent r.(a_id) r.(a_session_id) r.(a_provider) r.(a_state) r.(a_state_version) r.(a_pid)
    r.(a_exit_code) r.(a_error_code) r.(a_created_at) r.(a_sub_state) r.(a_config_hash)
    r.(a_retry_count) r.(a_next_retry_at) r.(a_retry_exhausted) v.

(** A row of [jobs], with the implicit [rowid] its queries order by. *)
Record Job : Type := MkJob {
  j_id : string;
  j_rowid : Z;
  j_agent_id : string;
  j_request_id : option string;
  j_prompt_text : string;
  j_reply_text : option string;
  j_status : string;
  j_error_reason : option string;
  j_created_at : Z;
  j_dispatched_at : option Z;
  j_dispatched_at_seq_id : option Z;
  j_completed_at : option Z;
  j_cancel_requested : bool;
  j_requires_physical_evidence : bool;
  j_requires_test_evidence : bool
}.

Definition set_j_reply_text (v : option string) (r : Job) : Job :=
  MkJob r.(j_id) r.(j_rowid) r.(j_agent_id) r.(j_request_id) r.(j_prompt_text) v r.(j_status)
    r.(j_error_reason) r.(j_created_at) r.(j_dispatched_at) r.(j_dispatched_at_seq_id)
    r.(j_completed_at) r.(j_cancel_requested) r.(j_requires_physical_evidence)
    r.(j_requires_test_evidence).
Definition set_j_status (v : string) (r : Job) : Job :=
  MkJob r.(j_id) r.(j_rowid) r.(j_agent_id) r.(j_request_id) r.(j_prompt_text) r.(j_reply_text)
    v r.(j_error_reason) r.(j_created_at) r.(j_dispatched_at) r.(j_dispatched_at_seq_id)
    r.(j_completed_at) r.(j_cancel_requested) r.(j_requires_physical_evidence)
    r.(j_requires_test_evidence).
Definition set_j_error_reason (v : option string) (r : Job) : Job :=
  MkJob r.(j_id) r.(j_rowid) r.(j_agent_id) r.(j_request_id) r.(j_prompt_text) r.(j_reply_text)
    r.(j_status) v r.(j_created_at) r.(j_dispatched_at) r.(j_dispatched_at_seq_id)
    r.(j_completed_at) r.(j_cancel_requested) r.(j_requires_physical_evidence)
    r.(j_requires_test_evidence).
Definition set_j_dispatched_at (v : option Z) (r : Job) : Job :=
  MkJob r.(j_id) r.(j_rowid) r.(j_agent_id) r.(j_request_id) r.(j_prompt_text) r.(j_reply_text)
    r.(j_status) r.(j_error_reason) r.(j_created_at) v r.(j_dispatched_at_seq_id)
    r.(j_completed_at) r.(j_cancel_requested) r.(j_requires_physical_evidence)
    r.(j_requires_test_evidence).
Definition set_j_dispatched_at_seq_id (v : option Z) (r : Job) : Job :=
  MkJob r.(j_id) r.(j_rowid) r.(j_agent_id) r.(j_request_id) r.(j_prompt_text) r.(j_reply_text)
    r.(j_status) r.(j_error_reason) r.(j_created_at) r.(j_dispatched_at) v r.(j_completed_at)
    r.(j_cancel_requested) r.(j_requires_physical_evidence) r.(j_requires_test_evidence).
Definition set_j_completed_at (v : option Z) (r : Job) : Job :=
  MkJob r.(j_id) r.(j_rowid) r.(j_agent_id) r.(j_request_id) r.(j_prompt_text) r.(j_reply_text)
    r.(j_status) r.(j_error_reason) r.(j_created_at) r.(j_dispatched_at)
    r.(j_dispatched_at_seq_id) v r.(j_cancel_requested) r.(j_requires_physical_evidence)
    r.(j_requires_test_evidence).
Definition set_j_cancel_requested (v : bool) (r : Job) : Job :=
  MkJob r.(j_id) r.(j_rowid) r.(j_agent_id) r.(j_request_id) r.(j_prompt_text) r.(j_reply_text)
    r.(j_status) r.(j_error_reason) r.(j_created_at) r.(j_dispatched_at)
    r.(j_dispatched_at_seq_id) r.(j_completed_at) v r.(j_requires_physical_evidence)
    r.(j_requires_test_evidence).
Definition set_j_requires_physical_evidence (v : bool) (r : Job) : Job :=
  MkJob r.(j_id) r.(j_rowid) r.(j_agent_id) r.(j_request_id) r.(j_prompt_text) r.(j_reply_text)
    r.(j_status) r.(j_error_reason) r.(j_created_at) r.(j_dispatched_at)
    r.(j_dispatched_at_seq_id) r.(j_completed_at) r.(j_cancel_requested) v
    r.(j_requires_test_evidence).
Definition set_j_requires_test_evidence (v : bool) (r : Job) : Job :=
  MkJob r.(j_id) r.(j_rowid) r.(j_agent_id) r.(j_request_id) r.(j_prompt_text) r.(j_reply_text)
    r.(j_status) r.(j_error_reason) r.(j_created_at) r.(j_dispatched_at)
    r.(j_dispatched_at_seq_id) r.(j_completed_at) r.(j_cancel_requested)
    r.(j_requires_physical_evidence) v.

(** A row of [events]. *)
Record Event : Type := MkEvent {
  e_seq_id : Z;
  e_agent_id : string;
  e_request_id : option string;
  e_event_type : string;
  e_payload : string;
  e_created_at : Z
}.


(** A row of [job_transitions], the audit trail of [jobs]. *)
Record JobTransition : Type := MkJobTransition {
  t_job_event_id : Z;
  t_job_id : string;
  t_agent_id : string;
  t_request_id : option string;
  t_kind : string;
  t_old_status : option string;
  t_new_status : option string;
  t_changed_json : string;
  t_reason : string;
  t_job_created_at : option Z;
  t_dispatched_at : option Z;
  t_completed_at : option Z;
  t_cancel_requested : bool;
  t_error_reason : option string;
  t_created_at : Z
}.


(** A row of [evidence]. *)
Record Evidence : Type := MkEvidence {
  v_id : string;
  v_agent_id : string;
  v_event_seq_id : Z;
  v_pane_bytes : list Byte.byte;
  v_failed_rules : string;
  v_status : string;
  v_l3_asserted_state : option string;
  v_job_id : option string;
  v_evidence_type : option string;
  v_subject_path : option string;
  v_payload : option string;
  v_created_at : Z
}.

Definition set_v_status (v : string) (r : Evidence) : Evidence :=
  MkEvidence r.(v_id) r.(v_agent_id) r.(v_event_seq_id) r.(v_pane_bytes) r.(v_failed_rules) v
    r.(v_l3_asserted_state) r.(v_job_id) r.(v_evidence_type) r.(v_subject_path) r.(v_payload)
    r.(v_created_at).
Definition set_v_l3_asserted_state (v : option string) (r : Evidence) : Evidence :=
  MkEvidence r.(v_id) r.(v_agent_id) r.(v_event_seq_id) r.(v_pane_bytes) r.(v_failed_rules)
    r.(v_status) v r.(v_job_id) r.(v_evidence_type) r.(v_subject_path) r.(v_payload)
    r.(v_created_at).

(** A row of [sessions]. *)
Record Session : Type := MkSession {
  s_id : string;
  s_project_id : string;
  s_master_pid : Z;
  s_master_pane_id : option string;
  s_status : string;
  s_config_hash : option string;
  s_master_cmd : option string;
  s_master_retry_count : Z;
  s_master_next_retry_at : Z;
  s_master_generation : Z;
  s_master_last_exit_reason : option string;
  s_master_state : string;
  s_master_pending_tell_request : option string;
  s_created_at : Z
}.

Definition set_s_master_pid (v : Z) (r : Session) : Session :=
  MkSession r.(s_id) r.(s_project_id) v r.(s_master_pane_id) r.(s_status) r.(s_config_hash)
    r.(s_master_cmd) r.(s_master_retry_count) r.(s_master_next_retry_at) r.(s_master_generation)
    r.(s_master_last_exit_reason) r.(s_master_state) r.(s_master_pending_tell_request)
    r.(s_created_at).
Definition set_s_master_pane_id (v : option string) (r : Session) : Session :=
  MkSession r.(s_id) r.(s_project_id) r.(s_master_pid) v r.(s_status) r.(s_config_hash)
    r.(s_master_cmd) r.(s_master_retry_count) r.(s_master_next_retry_at) r.(s_master_generation)
    r.(s_master_last_exit_reason) r.(s_master_state) r.(s_master_pending_tell_request)
    r.(s_created_at).
Definition set_s_status (v : string) (r : Session) : Session :=
  MkSession r.(s_id) r.(s_project_id) r.(s_master_pid) r.(s_master_pane_id) v r.(s_config_hash)
    r.(s_master_cmd) r.(s_master_retry_count) r.(s_master_next_retry_at) r.(s_master_generation)
    r.(s_master_last_exit_reason) r.(s_master_state) r.(s_master_pending_tell_request)
    r.(s_created_at).
Definition set_s_config_hash (v : option string) (r : Session) : Session :=
  MkSession r.(s_id) r.(s_project_id) r.(s_master_pid) r.(s_master_pane_id) r.(s_status) v
    r.(s_master_cmd) r.(s_master_retry_count) r.(s_master_next_retry_at) r.(s_master_generation)
    r.(s_master_last_exit_reason) r.(s_master_state) r.(s_master_pending_tell_request)
    r.(s_created_at).
Definition set_s_master_cmd (v : option string) (r : Session) : Session :=
  MkSession r.(s_id) r.(s_project_id) r.(s_master_pid) r.(s_master_pane_id) r.(s_status)
    r.(s_config_hash) v r.(s_master_retry_count) r.(s_master_next_retry_at)
    r.(s_master_generation) r.(s_master_last_exit_reason) r.(s_master_state)
    r.(s_master_pending_tell_request) r.(s_created_at).
Definition set_s_master_retry_count (v : Z) (r : Session) : Session :=
  MkSession r.(s_id) r.(s_project_id) r.(s_master_pid) r.(s_master_pane_id) r.(s_status)
    r.(s_config_hash) r.(s_master_cmd) v r.(s_master_next_retry_at) r.(s_master_generation)
    r.(s_master_last_exit_reason) r.(s_master_state) r.(s_master_pending_tell_request)
    r.(s_created_at).
Definition set_s_master_next_retry_at (v : Z) (r : Session) : Session :=
  MkSession r.(s_id) r.(s_project_id) r.(s_master_pid) r.(s_master_pane_id) r.(s_status)
    r.(s_config_hash) r.(s_master_cmd) r.(s_master_retry_count) v r.(s_master_generation)
    r.(s_master_last_exit_reason) r.(s_master_state) r.(s_master_pending_tell_request)
    r.(s_created_at).
Definition set_s_master_generation (v : Z) (r : Session) : Session :=
  MkSession r.(s_id) r.(s_project_id) r.(s_master_pid) r.(s_master_pane_id) r.(s_status)
    r.(s_config_hash) r.(s_master_cmd) r.(s_master_retry_count) r.(s_master_next_retry_at) v
    r.(s_master_last_exit_reason) r.(s_master_state) r.(s_master_pending_tell_request)
    r.(s_created_at).
Definition set_s_master_last_exit_reason (v : option string) (r : Session) : Session :=
  MkSession r.(s_id) r.(s_project_id) r.(s_master_pid) r.(s_master_pane_id) r.(s_status)
    r.(s_config_hash) r.(s_master_cmd) r.(s_master_retry_count) r.(s_master_next_retry_at)
    r.(s_master_generation) v r.(s_master_state) r.(s_master_pending_tell_request)
    r.(s_created_at).
Definition set_s_master_state (v : string) (r : Session) : Session :=
  MkSession r.(s_id) r.(s_project_id) r.(s_master_pid) r.(s_master_pane_id) r.(s_status)
    r.(s_config_hash) r.(s_master_cmd) r.(s_master_retry_count) r.(s_master_next_retry_at)
    r.(s_master_generation) r.(s_master_last_exit_reason) v r.(s_master_pending_tell_request)
    r.(s_created_at).
Definition set_s_master_pending_tell_request (v : option string) (r : Session) : Session :=
  MkSession r.(s_id) r.(s_project_id) r.(s_master_pid) r.(s_master_pane_id) r.(s_status)
    r.(s_config_hash) r.(s_master_cmd) r.(s_master_retry_count) r.(s_master_next_retry_at)
    r.(s_master_generation) r.(s_master_last_exit_reason) r.(s_master_state) v r.(s_created_at).

(** A row of [projects]. *)
Record Project : Type := MkProject {
  p_id : string;
  p_absolute_path : string;
  p_created_at : Z
}.

(** A row of [master_cutovers] ([src/src/db/master_cutovers.rs]). *)
Record CutoverRow : Type := MkCutoverRow {
  c_id : string;
  c_session_id : string;
  c_state : string;
  c_old_master_pid : option Z;
  c_new_master_pid : option Z;
  c_new_master_generation : option Z;
  c_new_master_pane_id : option string;
  c_ah_state_dir : string;
  c_ah_socket_path : string;
  c_handoff_path : string;
  c_ack_ready_at : option Z;
  c_readiness_mode : option string;
  c_created_at : Z;
  c_updated_at : Z;
  c_completed_at : option Z
}.

Definition set_c_state (v : string) (r : CutoverRow) : CutoverRow :=
  MkCutoverRow r.(c_id) r.(c_session_id) v r.(c_old_master_pid) r.(c_new_master_pid)
    r.(c_new_master_generation) r.(c_new_master_pane_id) r.(c_ah_state_dir) r.(c_ah_socket_path)
    r.(c_handoff_path) r.(c_ack_ready_at) r.(c_readiness_mode) r.(c_created_at) r.(c_updated_at)
    r.(c_completed_at).
Definition set_c_new_master_pid (v : option Z) (r : CutoverRow) : CutoverRow :=
  MkCutoverRow r.(c_id) r.(c_session_id) r.(c_state) r.(c_old_master_pid) v
    r.(c_new_master_generation) r.(c_new_master_pane_id) r.(c_ah_state_dir) r.(c_ah_socket_path)
    r.(c_handoff_path) r.(c_ack_ready_at) r.(c_readiness_mode) r.(c_created_at) r.(c_updated_at)
    r.(c_completed_at).
Definition set_c_new_master_generation (v : option Z) (r : CutoverRow) : CutoverRow :=
  MkCutoverRow r.(c_id) r.(c_session_id) r.(c_state) r.(c_old_master_pid) r.(c_new_master_pid) v
    r.(c_new_master_pane_id) r.(c_ah_state_dir) r.(c_ah_socket_path) r.(c_handoff_path)
    r.(c_ack_ready_at) r.(c_readiness_mode) r.(c_created_at) r.(c_updated_at) r.(c_completed_at).
Definition set_c_new_master_pane_id (v : option string) (r : CutoverRow) : CutoverRow :=
  MkCutoverRow r.(c_id) r.(c_session_id) r.(c_state) r.(c_old_master_pid) r.(c_new_master_pid)
    r.(c_new_master_generation) v r.(c_ah_state_dir) r.(c_ah_socket_path) r.(c_handoff_path)
    r.(c_ack_ready_at) r.(c_readiness_mode) r.(c_created_at) r.(c_updated_at) r.(c_completed_at).
Definition set_c_ack_ready_at (v : option Z) (r : CutoverRow) : CutoverRow :=
  MkCutoverRow r.(c_id) r.(c_session_id) r.(c_state) r.(c_old_master_pid) r.(c_new_master_pid)
    r.(c_new_master_generation) r.(c_new_master_pane_id) r.(c_ah_state_dir) r.(c_ah_socket_path)
    r.(c_handoff_path) v r.(c_readiness_mode) r.(c_created_at) r.(c_updated_at)
    r.(c_completed_at).
Definition set_c_readiness_mode (v : option string) (r : CutoverRow) : CutoverRow :=
  MkCutoverRow r.(c_id) r.(c_session_id) r.(c_state) r.(c_old_master_pid) r.(c_new_master_pid)
    r.(c_new_master_generation) r.(c_new_master_pane_id) r.(c_ah_state_dir) r.(c_ah_socket_path)
    r.(c_handoff_path) r.(c_ack_ready_at) v r.(c_created_at) r.(c_updated_at) r.(c_completed_at).
Definition set_c_updated_at (v : Z) (r : CutoverRow) : CutoverRow :=
  MkCutoverRow r.(c_id) r.(c_session_id) r.(c_state) r.(c_old_master_pid) r.(c_new_master_pid)
    r.(c_new_master_generation) r.(c_new_master_pane_id) r.(c_ah_state_dir) r.(c_ah_socket_path)
    r.(c_handoff_path) r.(c_ack_ready_at) r.(c_readiness_mode) r.(c_created_at) v
    r.(c_completed_at).
Definition set_c_completed_at (v : option Z) (r : CutoverRow) : CutoverRow :=
  MkCutoverRow r.(c_id) r.(c_session_id) r.(c_state) r.(c_old_master_pid) r.(c_new_master_pid)
    r.(c_new_master_generation) r.(c_new_master_pane_id) r.(c_ah_state_dir) r.(c_ah_socket_path)
    r.(c_handoff_path) r.(c_ack_ready_at) r.(c_readiness_mode) r.(c_created_at) r.(c_updated_at)
    v.

(** A row of [master_recovery_windows] ([src/src/db/master_recovery.rs]). *)
Record WindowRow : Type := MkWindowRow {
  m_session_id : string;
  m_expected_pid : Z;
  m_expected_generation : Z;
  m_claimed_generation : option Z;
  m_phase : string;
  m_active_work : bool;
  m_defer_until : Z;
  m_created_at : Z;
  m_updated_at : Z;
  m_completed_at : option Z;
  m_readiness_mode : option string;
  m_ready_at : option Z;
  m_ready_reason : option string;
  m_readiness_token : option string
}.

Definition set_m_expected_pid (v : Z) (r : WindowRow) : WindowRow :=
  MkWindowRow r.(m_session_id) v r.(m_expected_generation) r.(m_claimed_generation) r.(m_phase)
    r.(m_active_work) r.(m_defer_until) r.(m_created_at) r.(m_updated_at) r.(m_completed_at)
    r.(m_readiness_mode) r.(m_ready_at) r.(m_ready_reason) r.(m_readiness_token).
Definition set_m_phase (v : string) (r : WindowRow) : WindowRow :=
  MkWindowRow r.(m_session_id) r.(m_expected_pid) r.(m_expected_generation)
    r.(m_claimed_generation) v r.(m_active_work) r.(m_defer_until) r.(m_created_at)
    r.(m_updated_at) r.(m_completed_at) r.(m_readiness_mode) r.(m_ready_at) r.(m_ready_reason)
    r.(m_readiness_token).
Definition set_m_active_work (v : bool) (r : WindowRow) : WindowRow :=
  MkWindowRow r.(m_session_id) r.(m_expected_pid) r.(m_expected_generation)
    r.(m_claimed_generation) r.(m_phase) v r.(m_defer_until) r.(m_created_at) r.(m_updated_at)
    r.(m_completed_at) r.(m_readiness_mode) r.(m_ready_at) r.(m_ready_reason)
    r.(m_readiness_token).
Definition set_m_defer_until (v : Z) (r : WindowRow) : WindowRow :=
  MkWindowRow r.(m_session_id) r.(m_expected_pid) r.(m_expected_generation)
    r.(m_claimed_generation) r.(m_phase) r.(m_active_work) v r.(m_created_at) r.(m_updated_at)
    r.(m_completed_at) r.(m_readiness_mode) r.(m_ready_at) r.(m_ready_reason)
    r.(m_readiness_token).
Definition set_m_updated_at (v : Z) (r : WindowRow) : WindowRow :=
  MkWindowRow r.(m_session_id) r.(m_expected_pid) r.(m_expected_generation)
    r.(m_claimed_generation) r.(m_phase) r.(m_active_work) r.(m_defer_until) r.(m_created_at) v
    r.(m_completed_at) r.(m_readiness_mode) r.(m_ready_at) r.(m_ready_reason)
    r.(m_readiness_token).
Definition set_m_completed_at (v : option Z) (r : WindowRow) : WindowRow :=
  MkWindowRow r.(m_session_id) r.(m_expected_pid) r.(m_expected_generation)
    r.(m_claimed_generation) r.(m_phase) r.(m_active_work) r.(m_defer_until) r.(m_created_at)
    r.(m_updated_at) v r.(m_readiness_mode) r.(m_ready_at) r.(m_ready_reason)
    r.(m_readiness_token).
Definition set_m_readiness_mode (v : option string) (r : WindowRow) : WindowRow :=
  MkWindowRow r.(m_session_id) r.(m_expected_pid) r.(m_expected_generation)
    r.(m_claimed_generation) r.(m_phase) r.(m_active_work) r.(m_defer_until) r.(m_created_at)
    r.(m_updated_at) r.(m_completed_at) v r.(m_ready_at) r.(m_ready_reason)
    r.(m_readiness_token).
Definition set_m_ready_at (v : option Z) (r : WindowRow) : WindowRow :=
  MkWindowRow r.(m_session_id) r.(m_expected_pid) r.(m_expected_generation)
    r.(m_claimed_generation) r.(m_phase) r.(m_active_work) r.(m_defer_until) r.(m_created_at)
    r.(m_updated_at) r.(m_completed_at) r.(m_readiness_mode) v r.(m_ready_reason)
    r.(m_readiness_token).
Definition set_m_ready_reason (v : option string) (r : WindowRow) : WindowRow :=
  MkWindowRow r.(m_session_id) r.(m_expected_pid) r.(m_expected_generation)
    r.(m_claimed_generation) r.(m_phase) r.(m_active_work) r.(m_defer_until) r.(m_created_at)
    r.(m_updated_at) r.(m_completed_at) r.(m_readiness_mode) r.(m_ready_at) v
    r.(m_readiness_token).
Definition set_m_readiness_token (v : option string) (r : WindowRow) : WindowRow :=
  MkWindowRow r.(m_session_id) r.(m_expected_pid) r.(m_expected_generation)
    r.(m_claimed_generation) r.(m_phase) r.(m_active_work) r.(m_defer_until) r.(m_created_at)
    r.(m_updated_at) r.(m_completed_at) r.(m_readiness_mode) r.(m_ready_at) r.(m_ready_reason) v.

(** A row of [agent_recovery_intents]. *)
Record RecoveryIntentRow : Type := MkIntentRow {
  i_agent_id : string;
  i_session_id : string;
  i_provider : string;
  i_previous_state : string;
  i_crashed_state_version : Z;
  i_interrupted_job_id : option string;
  i_interrupted_job_status : option string;
  i_interrupted_job_request_id : option string;
  i_interrupted_job_prompt_text : option string;
  i_interrupted_job_cancel_requested : option Z;
  i_interrupted_job_requires_physical_evidence : option Z;
  i_interrupted_job_requires_test_evidence : option Z;
  i_action : string;
  i_reason : string;
  i_consumed_at : option Z;
  i_created_at : Z;
  i_updated_at : Z
}.


(** A row of [agent_spawn_specs]. *)
Record SpawnSpecRow : Type := MkSpawnSpecRow {
  sp_agent_id : string;
  sp_spec_version : Z;
  sp_provider : string;
  sp_config_hash : string;
  sp_spec_json : string;
  sp_updated_at : Z
}.


(** A row of [outbox_job_declaration_stub] (its key is the event id). *)
Record JobDeclaration : Type := MkJobDeclaration {
  d_job_id : string;
  d_kind : string;
  d_attempt_cookie : option string;
  d_reply_text : option string;
  d_reason : option string;
  d_applied_at : Z
}.

(** A row of [outbox_apply_failures] (its key is the event id). *)
Record ApplyFailure : Type := MkApplyFailure {
  f_attempts : Z;
  f_last_error : option string;
  f_updated_at : Z
}.

(** The tables of the database.  [events] and [job_transitions] are the
    rows in ascending key order; [event_seq] and [job_event_seq] are the
    largest keys ever used ([AUTOINCREMENT] never reuses one).
    [learned_rule_sources] lists the events the rows of [learned_rules]
    refer to, the one column of that table a deletion looks at. *)
Record Db : Type := MkDb {
  agents : gmap string Agent;
  jobs : gmap string Job;
  events : list Event;
  event_seq : Z;
  job_transitions : list JobTransition;
  job_event_seq : Z;
  evidence : gmap string Evidence;
  sessions : gmap string Session;
  recovery_intents : gmap string RecoveryIntentRow;
  spawn_specs : gmap string SpawnSpecRow;
  learned_rule_sources : list Z;
  outbox_consumed : gmap string string;
  outbox_job_declarations : gmap string JobDeclaration;
  outbox_apply_failures : gmap string ApplyFailure;
  projects : gmap string Project;
  master_cutovers : gmap string CutoverRow;
  recovery_windows : gmap string WindowRow
}.

Definition set_agents (v : gmap string Agent) (r : Db) : Db :=
  MkDb v r.(jobs) r.(events) r.(event_seq) r.(job_transitions) r.(job_event_seq) r.(evidence)
    r.(sessions) r.(recovery_intents) r.(spawn_specs) r.(learned_rule_sources)
    r.(outbox_consumed) r.(outbox_job_declarations) r.(outbox_apply_failures) r.(projects)
    r.(master_cutovers) r.(recovery_windows).
Definition set_jobs (v : gmap string Job) (r : Db) : Db :=
  MkDb r.(agents) v r.(events) r.(event_seq) r.(job_transitions) r.(job_event_seq) r.(evidence)
    r.(sessions) r.(recovery_intents) r.(spawn_specs) r.(learned_rule_sources)
    r.(outbox_consumed) r.(outbox_job_declarations) r.(outbox_apply_failures) r.(projects)
    r.(master_cutovers) r.(recovery_windows).
Definition set_events (v : list Event) (r : Db) : Db :=
  MkDb r.(agents) r.(jobs) v r.(event_seq) r.(job_transitions) r.(job_event_seq) r.(evidence)
    r.(sessions) r.(recovery_intents) r.(spawn_specs) r.(learned_rule_sources)
    r.(outbox_consumed) r.(outbox_job_declarations) r.(outbox_apply_failures) r.(projects)
    r.(master_cutovers) r.(recovery_windows).
Definition set_event_seq (v : Z) (r : Db) : Db :=
  MkDb r.(agents) r.(jobs) r.(events) v r.(job_transitions) r.(job_event_seq) r.(evidence)
    r.(sessions) r.(recovery_intents) r.(spawn_specs) r.(learned_rule_sources)
    r.(outbox_consumed) r.(outbox_job_declarations) r.(outbox_apply_failures) r.(projects)
    r.(master_cutovers) r.(recovery_windows).
Definition set_job_transitions (v : list JobTransition) (r : Db) : Db :=
  MkDb r.(agents) r.(jobs) r.(events) r.(event_seq) v r.(job_event_seq) r.(evidence) r.(sessions)
    r.(recovery_intents) r.(spawn_specs) r.(learned_rule_sources) r.(outbox_consumed)
    r.(outbox_job_declarations) r.(outbox_apply_failures) r.(projects) r.(master_cutovers)
    r.(recovery_windows).
Definition set_job_event_seq (v : Z) (r : Db) : Db :=
  MkDb r.(agents) r.(jobs) r.(events) r.(event_seq) r.(job_transitions) v r.(evidence)
    r.(sessions) r.(recovery_intents) r.(spawn_specs) r.(learned_rule_sources)
    r.(outbox_consumed) r.(outbox_job_declarations) r.(outbox_apply_failures) r.(projects)
    r.(master_cutovers) r.(recovery_windows).
Definition set_evidence (v : gmap string Evidence) (r : Db) : Db :=
  MkDb r.(agents) r.(jobs) r.(events) r.(event_seq) r.(job_transitions) r.(job_event_seq) v
    r.(sessions) r.(recovery_intents) r.(spawn_specs) r.(learned_rule_sources)
    r.(outbox_consumed) r.(outbox_job_declarations) r.(outbox_apply_failures) r.(projects)
    r.(master_cutovers) r.(recovery_windows).
Definition set_sessions (v : gmap string Session) (r : Db) : Db :=
  MkDb r.(agents) r.(jobs) r.(events) r.(event_seq) r.(job_transitions) r.(job_event_seq)
    r.(evidence) v r.(recovery_intents) r.(spawn_specs) r.(learned_rule_sources)
    r.(outbox_consumed) r.(outbox_job_declarations) r.(outbox_apply_failures) r.(projects)
    r.(master_cutovers) r.(recovery_windows).
Definition set_recovery_intents (v : gmap string RecoveryIntentRow) (r : Db) : Db :=
  MkDb r.(agents) r.(jobs) r.(events) r.(event_seq) r.(job_transitions) r.(job_event_seq)
    r.(evidence) r.(sessions) v r.(spawn_specs) r.(learned_rule_sources) r.(outbox_consumed)
    r.(outbox_job_declarations) r.(outbox_apply_failures) r.(projects) r.(master_cutovers)
    r.(recovery_windows).
Definition set_spawn_specs (v : gmap string SpawnSpecRow) (r : Db) : Db :=
  MkDb r.(agents) r.(jobs) r.(events) r.(event_seq) r.(job_transitions) r.(job_event_seq)
    r.(evidence) r.(sessions) r.(recovery_intents) v r.(learned_rule_sources) r.(outbox_consumed)
    r.(outbox_job_declarations) r.(outbox_apply_failures) r.(projects) r.(master_cutovers)
    r.(recovery_windows).
Definition set_learned_rule_sources (v : list Z) (r : Db) : Db :=
  MkDb r.(agents) r.(jobs) r.(events) r.(event_seq) r.(job_transitions) r.(job_event_seq)
    r.(evidence) r.(sessions) r.(recovery_intents) r.(spawn_specs) v r.(outbox_consumed)
    r.(outbox_job_declarations) r.(outbox_apply_failures) r.(projects) r.(master_cutovers)
    r.(recovery_windows).
Definition set_outbox_consumed (v : gmap string string) (r : Db) : Db :=
  MkDb r.(agents) r.(jobs) r.(events) r.(event_seq) r.(job_transitions) r.(job_event_seq)
    r.(evidence) r.(sessions) r.(recovery_intents) r.(spawn_specs) r.(learned_rule_sources) v
    r.(outbox_job_declarations) r.(outbox_apply_failures) r.(projects) r.(master_cutovers)
    r.(recovery_windows).
Definition set_outbox_job_declarations (v : gmap string JobDeclaration) (r : Db) : Db :=
  MkDb r.(agents) r.(jobs) r.(events) r.(event_seq) r.(job_transitions) r.(job_event_seq)
    r.(evidence) r.(sessions) r.(recovery_intents) r.(spawn_specs) r.(learned_rule_sources)
    r.(outbox_consumed) v r.(outbox_apply_failures) r.(projects) r.(master_cutovers)
    r.(recovery_windows).
Definition set_outbox_apply_failures (v : gmap string ApplyFailure) (r : Db) : Db :=
  MkDb r.(agents) r.(jobs) r.(events) r.(event_seq) r.(job_transitions) r.(job_event_seq)
    r.(evidence) r.(sessions) r.(recovery_intents) r.(spawn_specs) r.(learned_rule_sources)
    r.(outbox_consumed) r.(outbox_job_declarations) v r.(projects) r.(master_cutovers)
    r.(recovery_windows).
Definition set_projects (v : gmap string Project) (r : Db) : Db :=
  MkDb r.(agents) r.(jobs) r.(events) r.(event_seq) r.(job_transitions) r.(job_event_seq)
    r.(evidence) r.(sessions) r.(recovery_intents) r.(spawn_specs) r.(learned_rule_sources)
    r.(outbox_consumed) r.(outbox_job_declarations) r.(outbox_apply_failures) v
    r.(master_cutovers) r.(recovery_windows).
Definition set_master_cutovers (v : gmap string CutoverRow) (r : Db) : Db :=
  MkDb r.(agents) r.(jobs) r.(events) r.(event_seq) r.(job_transitions) r.(job_event_seq)
    r.(evidence) r.(sessions) r.(recovery_intents) r.(spawn_specs) r.(learned_rule_sources)
    r.(outbox_consumed) r.(outbox_job_declarations) r.(outbox_apply_failures) r.(projects) v
    r.(recovery_windows).
Definition set_recovery_windows (v : gmap string WindowRow) (r : Db) : Db :=
  MkDb r.(agents) r.(jobs) r.(events) r.(event_seq) r.(job_transitions) r.(job_event_seq)
    r.(evidence) r.(sessions) r.(recovery_intents) r.(spawn_specs) r.(learned_rule_sources)
    r.(outbox_consumed) r.(outbox_job_declarations) r.(outbox_apply_failures) r.(projects)
    r.(master_cutovers) v.

(** ** Errors *)

(** [CcbdError] of [src/src/error.rs]. *)
Inductive CcbdError : Type :=
| DbConstraintViolation (details : string)
| DbEvidenceNotFound (details : string)
| AgentNotFound (agent_id : string)
| AgentAlreadyExists (agent_id : string)
| PtyOpenFailed (details : string)
| PtyIoError (details : string)
| IpcInvalidRequest (details : string)
| SandboxUserNsDisabled (details : string)
| SandboxMountFailed (details : string)
| EnvironmentNotSupported (details : string)
| AgentUnexpectedExit (details : string)
| AgentWrongState (current_state : string)
| StartupMarkerTimeout (details : string)
| PtyMarkerTimeout (details : string)
| DuplicateRequest (existing_seq_id : Z)
| DatabaseRuntimePanic (details : string)
| TmuxNotFound
| TmuxCommandFailed (cmd stderr : string) (exit : Z).

(** The constraint a statement can violate, by SQLite's extended result code,
    and the error of a query that must answer a row and finds none. *)
Inductive SqlError : Type :=
| UniqueViolation (columns : string)
| PrimaryKeyViolation (columns : string)
| ForeignKeyViolation
| CheckViolation (columns : string)
| QueryReturnedNoRows.

(** [is_constraint_error]: the primary result code [SQLITE_CONSTRAINT], which
    every violation carries. *)
Definition is_constraint_error (err : SqlError) : bool :=
  match err with
  | UniqueViolation _ | PrimaryKeyViolation _ | ForeignKeyViolation | CheckViolation _ => true
  | QueryReturnedNoRows => false
  end.

(** [is_unique_constraint_error]: the extended code [SQLITE_CONSTRAINT_UNIQUE],
    which a primary-key violation does not carry. *)
Definition is_unique_constraint_error (err : SqlError) : bool :=
  match err with UniqueViolation _ => true | _ => false end.

(** ** Notifications *)

Inductive RuntimeSnapshotReason : Type :=
| Initial | InventoryChanged | TmuxChanged | AgentChanged | JobChanged
| Shutdown | DaemonAbsent | DaemonLost.

(** [EventFrame] of [src/src/orchestrator/pubsub.rs]; the frame's wall-clock
    timestamp in microseconds is left out. *)
Record EventFrame : Type := MkEventFrame {
  fr_event_id : Z;
  fr_kind : string;
  fr_agent_id : string;
  fr_job_id : option string;
  fr_state : option string;
  fr_payload : option Value
}.

Inductive RuntimeCleanupPolicy : Type :=
| CleanupDefault
| PreserveRecoverableCrashedHome.

(** What an operation does besides changing the database: broadcasts on the
    pubsub channels, wakes the orchestrator, types a nudge into an agent's
    pane, hands an agent's runtime resources to the cleanup of [agent_io],
    stops a systemd unit, sends SIGKILL through a pidfd, and drops entries of
    the process-wide registries of marker timers, screen parsers, log monitors
    and pidfds, resumes reading an agent that survived a restart, and removes
    an agent's sandbox directory. *)
Inductive Effect : Type :=
| SendJobUpdate (job_id : string)
| SendRuntimeUpdate (reason : RuntimeSnapshotReason)
| SendEventFrame (frame : EventFrame)
| WakeUp
| SpawnSendText (agent_id message : string)
| CleanupRuntime (agent_id : string) (session_id : option string) (policy : RuntimeCleanupPolicy)
| StopUnit (unit_name : string)
| SigKill (agent_id : string)
| DropTimer (agent_id : string)
| DropParser (agent_id : string)
| DropLogMonitor (agent_id : string)
| DropMonitor (key : string)
| ReattachAgent (agent_id : string)
| RemoveSandboxDir (session_id agent_id : string) (preserve_home : bool)
| WatchAnchor (session_id unit_name : string)
| DeregisterGateway (key : string)
| KillPane (pane_id : string) (expected_pid : Z)
| KillTmuxSession (session_name : string) (expected_pid : Z)
| RemoveHandoff (handoff_path : string).

(** ** The world *)

(** [w_now] is what SQLite's [unixepoch()] and the system clock answer while an
    operation runs.  [w_log_monitors] are the keys of the process-wide
    completion-log registry ([completion::registry]).  [w_pending_tasks] is
    what reading an agent's provider logs answers
    ([check_pending_tasks_from_log_root]): file contents, an input. *)
Record World : Type := MkWorld {
  w_db : Db;
  w_now : Z;
  w_out : list Effect;
  w_log_monitors : gset string;
  w_pending_tasks : string → string → string → option bool
}.

Definition set_db (db : Db) (w : World) : World :=
  MkWorld db w.(w_now) w.(w_out) w.(w_log_monitors) w.(w_pending_tasks).
Definition add_effect (e : Effect) (w : World) : World :=
  MkWorld w.(w_db) w.(w_now) (w.(w_out) ++ [e]) w.(w_log_monitors) w.(w_pending_tasks).
