(* ===== verification/Sql.v ===== *)
(** * Statements and transactions

    The connection as a state-and-error monad: a Rust function
    [f(conn, ...) -> Result<A, E>] is a [M E A].  The statements of the source
    are translated one by one: a [SELECT] is a function of the tables, an
    [UPDATE ... WHERE id = ? AND g] is [update_*] with the guard [g], an
    [INSERT] checks the schema's constraints and fails with the one it
    violates.  [transaction] is rusqlite's: what is not committed when the
    guard is dropped, on an error or on an early return, is rolled back.

    The storage engine itself is taken to be reliable (no I/O or lock errors);
    the statements fail only as the schema's constraints make them fail. *)
From S2P Require Import Prelude Json Schema.

(** ** Third-party code

    What the daemon calls in crates, and in the parts of the standard library
    whose algorithm is unspecified: [serde_json], the text rusqlite prints for
    an error, which violation SQLite reports when a row violates the primary
    key and a unique index at once, the screen [vt100] renders, [regex]
    matching and the [DefaultHasher] digest. *)
Class Externals := {
  ext_serde_json :: SerdeJson;
  sql_error_display : SqlError → string;
  sqlite_reports_unique_first : bool;
  vt100_contents : string → string;
  regex_is_match : string → string → bool;
  default_hash : string → Z
}.

(** ** The monad *)

Definition M (E A : Type) : Type := World → Result A E * World.

#[global] Instance M_ret {E} : MRet (M E) := λ A a w, (Ok a, w).
#[global] Instance M_bind {E} : MBind (M E) := λ A B k m w,
  match m w with
  | (Ok a, w') => k a w'
  | (Err e, w') => (Err e, w')
  end.

Definition throw {E A} (e : E) : M E A := λ w, (Err e, w).

(** [.map_err(f)] *)
Definition map_err {E E' A} (f : E → E') (m : M E A) : M E' A := λ w,
  match m w with
  | (Ok a, w') => (Ok a, w')
  | (Err e, w') => (Err (f e), w')
  end.

(** The [Result] itself, for the callers that match on it. *)
Definition try_ {E E' A} (m : M E A) : M E' (Result A E) := λ w,
  let '(r, w') := m w in (Ok r, w').

Definition of_result {E A} (r : Result A E) : M E A := λ w, (r, w).

Definition gets {E A} (f : Db → A) : M E A := λ w, (Ok (f w.(w_db)), w).
Definition modify_db {E} (f : Db → Db) : M E unit := λ w, (Ok tt, set_db (f w.(w_db)) w).
Definition asks {E A} (f : World → A) : M E A := λ w, (Ok (f w), w).
Definition emit {E} (e : Effect) : M E unit := λ w, (Ok tt, add_effect e w).

(** How the body of a transaction ends: [tx.commit()], or the guard dropped
    (or [tx.rollback()]) with a result all the same. *)
Inductive TxEnd (A : Type) : Type :=
| Commit (a : A)
| Rollback (a : A).
Arguments Commit {A} a.
Arguments Rollback {A} a.

Definition transaction {E A} (body : M E (TxEnd A)) : M E A := λ w,
  match body w with
  | (Ok (Commit a), w') => (Ok a, w')
  | (Ok (Rollback a), w') => (Ok a, set_db w.(w_db) w')
  | (Err e, w') => (Err e, set_db w.(w_db) w')
  end.

(** [for x in l { f(x)?; }] *)
Fixpoint for_ {E A} (l : list A) (f : A → M E unit) : M E unit :=
  match l with
  | [] => mret tt
  | x :: l' => f x;; for_ l' f
  end.

(** [if b { m }] *)
Definition when {E} (b : bool) (m : M E unit) : M E unit := if b then m else mret tt.

(** Publishing: [notify_job_update] and [notify_runtime_changed] of
    [orchestrator::pubsub]. *)
Definition notify_job_update {E} (job_id : string) : M E unit :=
  emit (SendJobUpdate job_id);; emit (SendRuntimeUpdate JobChanged).
Definition notify_runtime_changed {E} (reason : RuntimeSnapshotReason) : M E unit :=
  emit (SendRuntimeUpdate reason).
Definition notify_event {E} (frame : EventFrame) : M E unit := emit (SendEventFrame frame).
Definition wake_up {E} : M E unit := emit WakeUp.

Section Statements.
Context {EXT : Externals}.

(** [map_db_error(context, err)] *)
Definition map_db_error (context : string) (err : SqlError) : CcbdError :=
  DbConstraintViolation (context +:+ ": " +:+ sql_error_display err).

(** ** UPDATE by primary key *)

Definition update_row {R : Type} (id : string) (guard : R → bool) (f : R → R)
    (t : gmap string R) : gmap string R * nat :=
  match t !! id with
  | Some r => if guard r then (<[id := f r]> t, 1%nat) else (t, 0%nat)
  | None => (t, 0%nat)
  end.

Definition update_agent {E} (id : string) (guard : Agent → bool) (f : Agent → Agent) :
    M E nat := λ w,
  let '(t, n) := update_row id guard f w.(w_db).(agents) in
  (Ok n, set_db (set_agents t w.(w_db)) w).

Definition update_job {E} (id : string) (guard : Job → bool) (f : Job → Job) : M E nat := λ w,
  let '(t, n) := update_row id guard f w.(w_db).(jobs) in
  (Ok n, set_db (set_jobs t w.(w_db)) w).

Definition update_evidence {E} (id : string) (guard : Evidence → bool) (f : Evidence → Evidence) :
    M E nat := λ w,
  let '(t, n) := update_row id guard f w.(w_db).(evidence) in
  (Ok n, set_db (set_evidence t w.(w_db)) w).

(** [state_version = state_version + 1, updated_at = unixepoch()], which every
    write of [agents.state] but the perception gate's carries. *)
Definition bump_version (now : Z) (a : Agent) : Agent :=
  set_a_updated_at now (set_a_state_version (a.(a_state_version) + 1) a).

(** ** INSERT INTO events *)

Definition event_idempotency_taken (db : Db) (agent_id : string) (request_id : option string) :
    bool :=
  match request_id with
  | None => false
  | Some r =>
      existsb (λ e, (e.(e_agent_id) == agent_id) && (e.(e_request_id) == Some r)) db.(events)
  end.

Definition insert_event_row (agent_id : string) (request_id : option string)
    (event_type payload : string) : M SqlError Z := λ w,
  let db := w.(w_db) in
  if event_idempotency_taken db agent_id request_id then
    (Err (UniqueViolation "events.agent_id, events.request_id"), w)
  else match db.(agents) !! agent_id with
  | None => (Err ForeignKeyViolation, w)
  | Some _ =>
      let seq := db.(event_seq) + 1 in
      let e := MkEvent seq agent_id request_id event_type payload w.(w_now) in
      (Ok seq, set_db (set_event_seq seq (set_events (db.(events) ++ [e]) db)) w)
  end.

(** [INSERT INTO events (agent_id, request_id, event_type, payload) VALUES (?, NULL, ?, ?)],
    with the context its error is reported under; the key is [last_insert_rowid()]. *)
Definition insert_event_null (context agent_id event_type : string) (payload : Value) :
    M CcbdError Z :=
  map_err (map_db_error context)
    (insert_event_row agent_id None event_type (json_to_string payload)).

(** ** INSERT INTO jobs *)

(** The implicit rowid of a new row: one more than the largest in use. *)
Definition next_rowid (t : gmap string Job) : Z :=
  1 + foldr (λ j, Z.max j.(j_rowid)) 0 (table_rows t).

Definition job_idempotency_taken (db : Db) (agent_id : string) (request_id : option string) :
    bool :=
  match request_id with
  | None => false
  | Some r =>
      existsb (λ j, (j.(j_agent_id) == agent_id) && (j.(j_request_id) == Some r))
        (table_rows db.(jobs))
  end.

Definition insert_job_row (row : Z → Job) : M SqlError unit := λ w,
  let db := w.(w_db) in
  let j := row (next_rowid db.(jobs)) in
  let pk_taken := bool_decide (is_Some (db.(jobs) !! j.(j_id))) in
  let rq_taken := job_idempotency_taken db j.(j_agent_id) j.(j_request_id) in
  if rq_taken && (sqlite_reports_unique_first || negb pk_taken) then
    (Err (UniqueViolation "jobs.agent_id, jobs.request_id"), w)
  else if pk_taken then (Err (PrimaryKeyViolation "jobs.id"), w)
  else match db.(agents) !! j.(j_agent_id) with
  | None => (Err ForeignKeyViolation, w)
  | Some _ => (Ok tt, set_db (set_jobs (<[j.(j_id) := j]> db.(jobs)) db) w)
  end.

(** ** INSERT INTO job_transitions *)

Definition insert_job_transition_row (row : Z → JobTransition) : M SqlError unit := λ w,
  let db := w.(w_db) in
  let id := db.(job_event_seq) + 1 in
  let t := row id in
  if negb (t.(t_kind) is_in ["job_transition"; "job_updated"]) then
    (Err (CheckViolation "kind IN ('job_transition', 'job_updated')"), w)
  else match db.(jobs) !! t.(t_job_id), db.(agents) !! t.(t_agent_id) with
  | Some _, Some _ =>
      (Ok tt, set_db (set_job_event_seq id
                       (set_job_transitions (db.(job_transitions) ++ [t]) db)) w)
  | _, _ => (Err ForeignKeyViolation, w)
  end.

(** ** INSERT INTO evidence *)

(** A nullable reference to a row of [jobs]. *)
Definition job_ref_ok (t : gmap string Job) (job_id : option string) : bool :=
  match job_id with None => true | Some j => bool_decide (is_Some (t !! j)) end.

Definition insert_evidence_row (row : Evidence) : M SqlError unit := λ w,
  let db := w.(w_db) in
  match db.(evidence) !! row.(v_id) with
  | Some _ => (Err (PrimaryKeyViolation "evidence.id"), w)
  | None =>
      match db.(agents) !! row.(v_agent_id) with
      | Some _ =>
          if job_ref_ok db.(jobs) row.(v_job_id) &&
             existsb (λ e, e.(e_seq_id) =? row.(v_event_seq_id)) db.(events)
          then (Ok tt, set_db (set_evidence (<[row.(v_id) := row]> db.(evidence)) db) w)
          else (Err ForeignKeyViolation, w)
      | None => (Err ForeignKeyViolation, w)
      end
  end.

(** ** INSERT INTO agents, DELETE FROM agents *)

Definition insert_agent_row (row : Agent) : M SqlError unit := λ w,
  let db := w.(w_db) in
  match db.(agents) !! row.(a_id) with
  | Some _ => (Err (PrimaryKeyViolation "agents.id"), w)
  | None =>
      match db.(sessions) !! row.(a_session_id) with
      | None => (Err ForeignKeyViolation, w)
      | Some _ => (Ok tt, set_db (set_agents (<[row.(a_id) := row]> db.(agents)) db) w)
      end
  end.

(** The rows that survive the deletion of agent [id]: the foreign keys of
    [agent_spawn_specs], [agent_recovery_intents], [events], [evidence],
    [jobs] and [job_transitions] cascade. *)
Definition cascade_agent (id : string) (db : Db) : Db :=
  let jobs' := filter (λ '(_, j), j.(j_agent_id) ≠ id) db.(jobs) in
  set_agents (delete id db.(agents))
  (set_jobs jobs'
  (set_events (filter (λ e, e.(e_agent_id) ≠ id) db.(events))
  (set_job_transitions
     (filter (λ t, t.(t_agent_id) ≠ id ∧ is_Some (jobs' !! t.(t_job_id))) db.(job_transitions))
  (set_evidence
     (filter (λ '(_, v), v.(v_agent_id) ≠ id ∧ job_ref_ok jobs' v.(v_job_id)) db.(evidence))
  (set_recovery_intents (delete id db.(recovery_intents))
  (set_spawn_specs (delete id db.(spawn_specs)) db)))))).

(** [evidence.event_seq_id] and [learned_rules.source_event_seq_id] do not
    cascade: a row left pointing at a deleted event fails the statement. *)
Definition dangling_event_refs (db : Db) : bool :=
  let live (s : Z) := existsb (λ e, e.(e_seq_id) =? s) db.(events) in
  existsb (λ v, negb (live v.(v_event_seq_id))) (table_rows db.(evidence))
  || existsb (λ s, negb (live s)) db.(learned_rule_sources).

Definition delete_agent_row (id : string) : M SqlError nat := λ w,
  match w.(w_db).(agents) !! id with
  | None => (Ok 0%nat, w)
  | Some _ =>
      let db' := cascade_agent id w.(w_db) in
      if dangling_event_refs db' then (Err ForeignKeyViolation, w)
      else (Ok 1%nat, set_db db' w)
  end.

End Statements.

(** ** Reasoning about an operation through what it does to the tables

    [respects R m]: whatever [m] answers, the tables before and after are
    related by [R].  With a reflexive and transitive [R] this composes along
    the monad, and a rollback is the reflexive case.  [preserves I] is the
    instance for an invariant. *)

Definition respects {E A} (R : relation Db) (m : M E A) : Prop :=
  ∀ w, R w.(w_db) (m w).2.(w_db).

Abbreviation preserves I m := (respects (λ db db', I db → I db') m).

#[global] Instance impl_preorder (I : Db → Prop) : PreOrder (λ db db', I db → I db').
Proof. split; [by intros db|by intros x y z Hxy Hyz Hx; apply Hyz, Hxy]. Qed.

Create HintDb respects discriminated.
#[global] Hint Constants Opaque : respects.

Section Respects.
Context (R : relation Db) `{!PreOrder R}.

Lemma respects_ret {E A} (a : A) : respects R (mret a : M E A).
Proof. intros w. reflexivity. Qed.

Lemma respects_throw {E A} (e : E) : respects R (throw e : M E A).
Proof. intros w. reflexivity. Qed.

Lemma respects_gets {E A} (f : Db → A) : respects R (gets f : M E A).
Proof. intros w. reflexivity. Qed.

Lemma respects_asks {E A} (f : World → A) : respects R (asks f : M E A).
Proof. intros w. reflexivity. Qed.

Lemma respects_emit {E} (e : Effect) : respects R (emit e : M E unit).
Proof. intros w. reflexivity. Qed.

Lemma respects_of_result {E A} (r : Result A E) : respects R (of_result r).
Proof. intros w. reflexivity. Qed.

Lemma respects_bind {E A B} (m : M E A) (k : A → M E B) :
  respects R m → (∀ a, respects R (k a)) → respects R (m ≫= k).
Proof.
  intros Hm Hk w. unfold mbind, M_bind. specialize (Hm w).
  destruct (m w) as [[a|e] w']; simpl in *; [|done].
  etrans; [exact Hm|apply Hk].
Qed.

Lemma respects_map_err {E E' A} (f : E → E') (m : M E A) :
  respects R m → respects R (map_err f m).
Proof.
  intros Hm w. unfold map_err. specialize (Hm w).
  by destruct (m w) as [[a|e] w'].
Qed.

Lemma respects_try {E E' A} (m : M E A) : respects R m → respects R (try_ m : M E' _).
Proof. intros Hm w. unfold try_. specialize (Hm w). by destruct (m w). Qed.

Lemma respects_transaction {E A} (body : M E (TxEnd A)) :
  respects R body → respects R (transaction body).
Proof.
  intros Hm w. unfold transaction. specialize (Hm w).
  destruct (body w) as [[[a|a]|e] w']; simpl in *; [done|reflexivity..].
Qed.

Lemma respects_for {E A} (l : list A) (f : A → M E unit) :
  (∀ x, respects R (f x)) → respects R (for_ l f).
Proof.
  intros Hf. induction l as [|x l IH]; simpl; [by apply respects_ret|].
  by apply respects_bind; [apply Hf|].
Qed.

Lemma respects_when {E} b (m : M E unit) : respects R m → respects R (when b m).
Proof. intros Hm. destruct b; [done|by apply respects_ret]. Qed.

Lemma respects_weaken {E A} (S : relation Db) (m : M E A) :
  (∀ x y, S x y → R x y) → respects S m → respects R m.
Proof. intros HSR Hm w. apply HSR, Hm. Qed.

End Respects.

#[export] Hint Resolve respects_ret respects_throw respects_gets respects_asks respects_emit
  respects_of_result : respects.

(** One step of the syntax-directed search, and its iteration: binds and
    branches are split, the leaves are left to the hint database. *)
Ltac respects_step :=
  lazymatch goal with
  | |- respects _ (mbind _ _) => apply respects_bind; [apply _| |intros ?]
  | |- respects _ (transaction _) => apply respects_transaction; [apply _|]
  | |- respects _ (for_ _ _) => apply respects_for; [apply _|intros ?]
  | |- respects _ (when _ _) => apply respects_when; [apply _|]
  | |- respects _ (map_err _ _) => apply respects_map_err
  | |- respects _ (try_ _) => apply respects_try
  | |- respects _ (match ?x with _ => _ end) => destruct x eqn:?
  | |- _ => solve [eauto with respects typeclass_instances]
  end.
Ltac solve_respects := repeat respects_step.

(** Symbolic execution: unfold the monad and the reads, and simplify. *)
Ltac run_m :=
  repeat progress (unfold mbind, M_bind, mret, M_ret, throw, gets, asks, emit, of_result,
    map_err, try_, modify_db in *; simpl in * ).

Lemma set_db_twice db db' w : set_db db (set_db db' w) = set_db db w.
Proof. done. Qed.

(** Executing one step at a time, without unfolding the rest. *)
Lemma bind_ok {E A B} (m : M E A) (k : A → M E B) w a w' :
  m w = (Ok a, w') → (m ≫= k) w = k a w'.
Proof. intros Hm. unfold mbind, M_bind. by rw Hm. Qed.

Lemma bind_err {E A B} (m : M E A) (k : A → M E B) w e w' :
  m w = (Err e, w') → (m ≫= k) w = (Err e, w').
Proof. intros Hm. unfold mbind, M_bind. by rw Hm. Qed.

Lemma bind_gets {E A B} (f : Db → A) (k : A → M E B) w :
  (gets f ≫= k) w = k (f w.(w_db)) w.
Proof. done. Qed.

Lemma bind_asks {E A B} (f : World → A) (k : A → M E B) w : (asks f ≫= k) w = k (f w) w.
Proof. done. Qed.

Lemma bind_ret {E A B} (a : A) (k : A → M E B) w : (mret a ≫= k) w = k a w.
Proof. done. Qed.

Lemma ret_run {E A} (a : A) w : (mret a : M E A) w = (Ok a, w).
Proof. done. Qed.

Lemma transaction_ok {E A} (body : M E (TxEnd A)) w a w' :
  body w = (Ok (Commit a), w') → transaction body w = (Ok a, w').
Proof. intros Hb. unfold transaction. by rw Hb. Qed.

Lemma map_err_ok {E E' A} (f : E → E') (m : M E A) w a w' :
  m w = (Ok a, w') → map_err f m w = (Ok a, w').
Proof. intros Hm. unfold map_err. by rw Hm. Qed.

Ltac step_ok H := rw (bind_ok _ _ _ _ _ H); cbv beta.
Ltac step_pure := rw ?bind_gets ?bind_asks ?bind_ret; cbv beta.

Lemma update_row_hit {R : Type} id guard (f : R → R) t r :
  t !! id = Some r → guard r = true → update_row id guard f t = (<[id := f r]> t, 1%nat).
Proof. intros Ht Hg. unfold update_row. by rw Ht Hg. Qed.

Lemma update_row_miss {R : Type} id guard (f : R → R) t :
  (∀ r, t !! id = Some r → guard r = false) → update_row id guard f t = (t, 0%nat).
Proof.
  intros Hg. unfold update_row. destruct (t !! id) as [r|] eqn:E; [|done].
  by rw (Hg r).
Qed.
