(* ===== verification/MasterTables.v ===== *)
(** * The tables of the master: projects, sessions, cutovers, recovery windows

    A session belongs to a project and has a master, the process that gives its
    agents work.  A cutover hands a session to a new master; a recovery window
    is the time a dead master is given to come back before its workers are
    killed.

    The statements of [src/src/db/sessions.rs], [src/src/db/master_cutovers.rs],
    [src/src/db/master_recovery.rs] and [src/src/master_revival.rs] on these
    tables, with the constraints of the schema; what the tables satisfy
    ([master_ok]) and how their rows may change ([master_evolves]). *)
From S2P Require Import Prelude Json Schema Sql.

(** ** Vocabulary *)

Definition SESSION_STATUSES : list string := ["ACTIVE"; "KILLED"; "FAILED"; "CLOSED"].
Definition MASTER_STATES : list string := ["IDLE"; "BUSY"].
Definition CUTOVER_STATES : list string :=
  ["PREPARING"; "SPAWNING"; "VERIFYING"; "ACTIVE"; "ROLLED_BACK"; "FAILED"; "RELEASED"].
Definition CUTOVER_ACTIVE : list string := ["PREPARING"; "SPAWNING"; "VERIFYING"; "ACTIVE"].
Definition CUTOVER_INFLIGHT : list string := ["PREPARING"; "SPAWNING"; "VERIFYING"].
Definition CUTOVER_TERMINAL : list string := ["ROLLED_BACK"; "FAILED"; "RELEASED"].
Definition WINDOW_PHASES : list string :=
  ["DETECTED"; "WORKERS_REAPED"; "MASTER_SPAWNING"; "MASTER_RUNNING"; "MASTER_VERIFYING";
   "WORKERS_REPROVISIONING"; "COMPLETED"; "FAILED"; "FUSED"].

Definition MASTER_RECOVERY_CASCADE_DEFER_SECS : Z := 90.
Definition MASTER_RECOVERY_WINDOW_MAX_TOTAL_SECS : Z := 300.

(** ** Statements *)

Section Statements.
Context {EXT : Externals}.

Definition update_session {E} (id : string) (guard : Session → bool) (f : Session → Session) :
    M E nat := λ w,
  let '(t, n) := update_row id guard f w.(w_db).(sessions) in
  (Ok n, set_db (set_sessions t w.(w_db)) w).

(** [UPDATE sessions SET master_state = ?] with a state from outside: the
    [CHECK] on [master_state]. *)
Definition update_session_state (id : string) (guard : Session → bool) (f : Session → Session)
    (new_state : string) : M SqlError nat :=
  row ← gets (λ db, db.(sessions) !! id);
  match row with
  | Some r =>
      if guard r && negb (new_state is_in MASTER_STATES) then
        throw (CheckViolation "master_state")
      else update_session id guard (λ r, set_s_master_state new_state (f r))
  | None => mret 0%nat
  end.

(** [INSERT OR IGNORE INTO projects (id, absolute_path)] *)
Definition path_taken (path : string) (db : Db) : bool :=
  existsb (λ p, p.(p_absolute_path) == path) (table_rows db.(projects)).

Definition insert_project_or_ignore {E} (id absolute_path : string) : M E unit := λ w,
  let db := w.(w_db) in
  if bool_decide (is_Some (db.(projects) !! id)) || path_taken absolute_path db then (Ok tt, w)
  else (Ok tt, set_db (set_projects
          (<[id := MkProject id absolute_path w.(w_now)]> db.(projects)) db) w).

(** [INSERT INTO sessions (id, project_id, master_pid)]; the other columns take
    their defaults. *)
Definition new_session (now : Z) (id project_id : string) (master_pid : Z) : Session :=
  MkSession id project_id master_pid None "ACTIVE" None None 0 0 0 None "IDLE" None now.

Definition insert_session_row (row : Session) : M SqlError unit := λ w,
  let db := w.(w_db) in
  match db.(sessions) !! row.(s_id), db.(projects) !! row.(s_project_id) with
  | Some _, _ => (Err (PrimaryKeyViolation "sessions.id"), w)
  | None, None => (Err ForeignKeyViolation, w)
  | None, Some _ => (Ok tt, set_db (set_sessions (<[row.(s_id) := row]> db.(sessions)) db) w)
  end.

(** Another row of [idx_master_cutovers_active]. *)
Definition cutover_active (c : CutoverRow) : bool := c.(c_state) is_in CUTOVER_ACTIVE.
Definition active_elsewhere (c : CutoverRow) (db : Db) : bool :=
  existsb (λ x, (x.(c_id) != c.(c_id)) && (x.(c_session_id) == c.(c_session_id)) &&
                cutover_active x) (table_rows db.(master_cutovers)).

Definition check_cutover (c : CutoverRow) (db : Db) : option SqlError :=
  if negb (c.(c_state) is_in CUTOVER_STATES) then Some (CheckViolation "state")
  else if cutover_active c && active_elsewhere c db then
    Some (UniqueViolation "master_cutovers.session_id")
  else None.

Definition update_cutover (id : string) (guard : CutoverRow → bool) (f : CutoverRow → CutoverRow) :
    M SqlError nat := λ w,
  let db := w.(w_db) in
  match db.(master_cutovers) !! id with
  | Some c =>
      if guard c then
        match check_cutover (f c) db with
        | Some err => (Err err, w)
        | None => (Ok 1%nat, set_db (set_master_cutovers
                                       (<[id := f c]> db.(master_cutovers)) db) w)
        end
      else (Ok 0%nat, w)
  | None => (Ok 0%nat, w)
  end.

Definition insert_cutover_row (c : CutoverRow) : M SqlError unit := λ w,
  let db := w.(w_db) in
  let pk_taken := bool_decide (is_Some (db.(master_cutovers) !! c.(c_id))) in
  match check_cutover c db with
  | Some (UniqueViolation cols) =>
      (Err (if pk_taken && negb sqlite_reports_unique_first
            then PrimaryKeyViolation "master_cutovers.id" else UniqueViolation cols), w)
  | Some err => (Err err, w)
  | None =>
      if pk_taken then (Err (PrimaryKeyViolation "master_cutovers.id"), w)
      else match db.(sessions) !! c.(c_session_id) with
      | None => (Err ForeignKeyViolation, w)
      | Some _ => (Ok tt, set_db (set_master_cutovers
                                    (<[c.(c_id) := c]> db.(master_cutovers)) db) w)
      end
  end.

Definition phase_violation : SqlError := CheckViolation "phase".

Definition update_window (id : string) (guard : WindowRow → bool) (f : WindowRow → WindowRow) :
    M SqlError nat := λ w,
  let db := w.(w_db) in
  match db.(recovery_windows) !! id with
  | Some r =>
      if guard r then
        if (f r).(m_phase) is_in WINDOW_PHASES then
          (Ok 1%nat, set_db (set_recovery_windows (<[id := f r]> db.(recovery_windows)) db) w)
        else (Err phase_violation, w)
      else (Ok 0%nat, w)
  | None => (Ok 0%nat, w)
  end.

Definition insert_window_row (r : WindowRow) : M SqlError unit := λ w,
  let db := w.(w_db) in
  if negb (r.(m_phase) is_in WINDOW_PHASES) then (Err phase_violation, w)
  else match db.(recovery_windows) !! r.(m_session_id), db.(sessions) !! r.(m_session_id) with
  | Some _, _ => (Err (PrimaryKeyViolation "master_recovery_windows.session_id"), w)
  | None, None => (Err ForeignKeyViolation, w)
  | None, Some _ =>
      (Ok tt, set_db (set_recovery_windows (<[r.(m_session_id) := r]> db.(recovery_windows)) db) w)
  end.

End Statements.

(** ** The invariant *)

Record MasterTables : Type := MkMasterTables {
  mt_projects : gmap string Project;
  mt_sessions : gmap string Session;
  mt_cutovers : gmap string CutoverRow;
  mt_windows : gmap string WindowRow
}.

Definition master_of (db : Db) : MasterTables :=
  MkMasterTables db.(projects) db.(sessions) db.(master_cutovers) db.(recovery_windows).

Record session_ok (s : Session) : Prop := {
  so_status : s.(s_status) ∈ SESSION_STATUSES;
  so_master_state : s.(s_master_state) ∈ MASTER_STATES;
  so_generation : 0 ≤ s.(s_master_generation);
  so_retries : 0 ≤ s.(s_master_retry_count)
}.

Record cutover_ok (c : CutoverRow) : Prop := {
  co_state : c.(c_state) ∈ CUTOVER_STATES;
  co_done : c.(c_state) ∈ CUTOVER_TERMINAL → is_Some c.(c_completed_at)
}.

(** A window never stays open longer than the total it is allowed. *)
Record window_ok (r : WindowRow) : Prop := {
  wo_phase : r.(m_phase) ∈ WINDOW_PHASES;
  wo_bound : r.(m_defer_until) ≤ r.(m_created_at) + MASTER_RECOVERY_WINDOW_MAX_TOTAL_SECS
}.

Record master_ok (t : MasterTables) : Prop := {
  mo_project_key id p : t.(mt_projects) !! id = Some p → p.(p_id) = id;
  mo_project_path id1 id2 p1 p2 :
    t.(mt_projects) !! id1 = Some p1 → t.(mt_projects) !! id2 = Some p2 →
    p1.(p_absolute_path) = p2.(p_absolute_path) → id1 = id2;
  mo_session_key id s : t.(mt_sessions) !! id = Some s → s.(s_id) = id;
  mo_session_project id s :
    t.(mt_sessions) !! id = Some s → is_Some (t.(mt_projects) !! s.(s_project_id));
  mo_session id s : t.(mt_sessions) !! id = Some s → session_ok s;
  mo_cutover_key id c : t.(mt_cutovers) !! id = Some c → c.(c_id) = id;
  mo_cutover_session id c :
    t.(mt_cutovers) !! id = Some c → is_Some (t.(mt_sessions) !! c.(c_session_id));
  mo_cutover id c : t.(mt_cutovers) !! id = Some c → cutover_ok c;
  mo_cutover_single id1 id2 c1 c2 :
    t.(mt_cutovers) !! id1 = Some c1 → t.(mt_cutovers) !! id2 = Some c2 →
    cutover_active c1 = true → cutover_active c2 = true →
    c1.(c_session_id) = c2.(c_session_id) → id1 = id2;
  mo_window_key id r : t.(mt_windows) !! id = Some r → r.(m_session_id) = id;
  mo_window_session id r : t.(mt_windows) !! id = Some r → is_Some (t.(mt_sessions) !! id);
  mo_window id r : t.(mt_windows) !! id = Some r → window_ok r
}.

(** ** How rows change *)

(** A session that ended never becomes active again, and its generation only
    grows. *)
Record session_evolves (s s' : Session) : Prop := {
  sev_id : s'.(s_id) = s.(s_id);
  sev_project : s'.(s_project_id) = s.(s_project_id);
  sev_created : s'.(s_created_at) = s.(s_created_at);
  sev_generation : s.(s_master_generation) ≤ s'.(s_master_generation);
  sev_ended : s.(s_status) ≠ "ACTIVE" → s'.(s_status) ≠ "ACTIVE"
}.

Record cutover_evolves (c c' : CutoverRow) : Prop := {
  cev_id : c'.(c_id) = c.(c_id);
  cev_session : c'.(c_session_id) = c.(c_session_id);
  cev_old_pid : c'.(c_old_master_pid) = c.(c_old_master_pid);
  cev_created : c'.(c_created_at) = c.(c_created_at)
}.

(** A window is only ever replaced by one for a later or the same generation. *)
Record window_evolves (r r' : WindowRow) : Prop := {
  wev_session : r'.(m_session_id) = r.(m_session_id);
  wev_generation : r.(m_expected_generation) ≤ r'.(m_expected_generation)
}.

#[global] Instance session_evolves_preorder : PreOrder session_evolves.
Proof.
  split; [intros x; by split|]. intros x y z [] []. split; try congruence; [lia|by auto].
Qed.
#[global] Instance cutover_evolves_preorder : PreOrder cutover_evolves.
Proof. split; [intros x; by split|]. intros x y z [] []. split; congruence. Qed.
#[global] Instance window_evolves_preorder : PreOrder window_evolves.
Proof. split; [intros x; by split|]. intros x y z [] []. split; [congruence|lia]. Qed.

Definition table_evolves {R : Type} (ev : relation R) (t t' : gmap string R) : Prop :=
  ∀ id r, t !! id = Some r → ∃ r', t' !! id = Some r' ∧ ev r r'.

#[global] Instance table_evolves_preorder {R} (ev : relation R) `{!PreOrder ev} :
  PreOrder (table_evolves ev).
Proof.
  split.
  - intros t id r Hr. exists r. split; [done|reflexivity].
  - intros x y z Hxy Hyz id r (r' & Hr' & Hev)%Hxy.
    destruct (Hyz _ _ Hr') as (r'' & Hr'' & Hev'). exists r''. split; [done|by etrans].
Qed.

Lemma table_evolves_insert {R} (ev : relation R) `{!PreOrder ev} (t : gmap string R) id r r' :
  t !! id = Some r → ev r r' → table_evolves ev t (<[id := r']> t).
Proof.
  intros Hr Hev id' r0 Hr0. destruct (decide (id = id')) as [<-|Hne].
  - simplify_eq. exists r'. by rw lookup_insert_eq.
  - exists r0. by rw lookup_insert_ne.
Qed.

Lemma table_evolves_fresh {R} (ev : relation R) `{!PreOrder ev} (t : gmap string R) id r :
  t !! id = None → table_evolves ev t (<[id := r]> t).
Proof.
  intros Hn id' r0 Hr0. exists r0. rw lookup_insert_ne; [congruence|done].
Qed.

Record master_evolves (t t' : MasterTables) : Prop := {
  mev_projects : t.(mt_projects) ⊆ t'.(mt_projects);
  mev_sessions : table_evolves session_evolves t.(mt_sessions) t'.(mt_sessions);
  mev_cutovers : table_evolves cutover_evolves t.(mt_cutovers) t'.(mt_cutovers);
  mev_windows : table_evolves window_evolves t.(mt_windows) t'.(mt_windows);
  mev_ok : master_ok t → master_ok t'
}.

#[global] Instance master_evolves_preorder : PreOrder master_evolves.
Proof.
  split; [intros t; by split; try reflexivity|].
  intros x y z [] []. split; try by etrans. by auto.
Qed.
