(* ===== verification/Instances.v ===== *)
(** * Reference instances of the third-party interfaces

    Concrete functions that satisfy the laws the development assumes of
    [serde_json] and of the other external code, so that every theorem that
    relies on a law can be applied at a concrete input. *)
From S2P Require Import Prelude Json Schema Sql.
From Stdlib Require Import Ascii.

(** ** Values as trees *)

Fixpoint value_tree (v : Value) : gen_tree (bool + Z + string) :=
  match v with
  | JNull => GenNode 0 []
  | JBool b => GenLeaf (inl (inl b))
  | JNumber n => GenLeaf (inl (inr n))
  | JFloat b => GenNode 1 [GenLeaf (inl (inr b))]
  | JString s => GenLeaf (inr s)
  | JArray l => GenNode 2 (map value_tree l)
  | JObject m => GenNode 3 (map (λ '(k, v), GenNode 0 [GenLeaf (inr k); value_tree v]) m)
  end.

Fixpoint tree_value (t : gen_tree (bool + Z + string)) : Value :=
  match t with
  | GenLeaf (inl (inl b)) => JBool b
  | GenLeaf (inl (inr n)) => JNumber n
  | GenLeaf (inr s) => JString s
  | GenNode 1 [GenLeaf (inl (inr b))] => JFloat b
  | GenNode 2 l => JArray (map tree_value l)
  | GenNode 3 l =>
      JObject (map (λ e, match e with
                         | GenNode _ [GenLeaf (inr k); t] => (k, tree_value t)
                         | _ => (""%string, JNull)
                         end) l)
  | GenNode _ _ => JNull
  end.

Fixpoint tree_value_tree (v : Value) : tree_value (value_tree v) = v.
Proof.
  destruct v as [|b|n|b|s|l|m]; simpl; try done.
  - f_equal. induction l as [|x l IH]; simpl; [done|]. by rw (tree_value_tree x) IH.
  - f_equal. induction m as [|[k x] m IH]; simpl; [done|]. by rw (tree_value_tree x) IH.
Qed.

(** ** Positive numbers as text *)

Fixpoint pos_string (p : positive) : string :=
  match p with
  | xH => "1"
  | xO p => String "0"%char (pos_string p)
  | xI p => String "1"%char (pos_string p)
  end.

Fixpoint string_pos (s : string) : option positive :=
  match s with
  | EmptyString => None
  | String c EmptyString => if bool_decide (c = "1"%char) then Some xH else None
  | String c s' =>
      p ← string_pos s';
      if bool_decide (c = "0"%char) then Some (xO p)
      else if bool_decide (c = "1"%char) then Some (xI p) else None
  end.

Lemma pos_string_cons p : ∃ c s, pos_string p = String c s.
Proof. destruct p; simpl; eauto. Qed.

Lemma string_pos_string p : string_pos (pos_string p) = Some p.
Proof.
  induction p as [p IH|p IH|]; simpl; [| |done];
    destruct (pos_string_cons p) as (c & s & Hp); rw Hp in IH; rw Hp IH; done.
Qed.

Definition ref_print (v : Value) : string := pos_string (encode (value_tree v)).
Definition ref_parse (s : string) : option Value :=
  p ← string_pos s; tree_value <$> decode p.

Lemma ref_parse_print v : ref_parse (ref_print v) = Some v.
Proof.
  unfold ref_parse, ref_print. rw string_pos_string /= decode_encode /=.
  by rw tree_value_tree.
Qed.

#[global] Program Instance ref_serde_json : SerdeJson := {|
  json_to_string := ref_print;
  json_from_str := ref_parse;
  json_error_display _ := "expected value"
|}.
Next Obligation. intros v _. apply ref_parse_print. Qed.

Definition ref_error_display (e : SqlError) : string :=
  match e with
  | UniqueViolation c => "UNIQUE constraint failed: " +:+ c
  | PrimaryKeyViolation c => "UNIQUE constraint failed: " +:+ c
  | ForeignKeyViolation => "FOREIGN KEY constraint failed"
  | CheckViolation c => "CHECK constraint failed: " +:+ c
  | QueryReturnedNoRows => "Query returned no rows"
  end.

(** A terminal that shows what it is sent, no regular expression matches, and
    a polynomial hash. *)
Definition ref_hash (s : string) : Z :=
  foldl (λ h b, (h * 257 + Z.of_nat (Ascii.nat_of_ascii b)) mod 2 ^ 64) 7
    (String.list_ascii_of_string s).

#[global] Instance ref_externals : Externals := {|
  ext_serde_json := ref_serde_json;
  sql_error_display := ref_error_display;
  sqlite_reports_unique_first := false;
  vt100_contents s := s;
  regex_is_match _ _ := false;
  default_hash := ref_hash
|}.

(** ** Small worlds *)

Definition empty_db : Db :=
  MkDb ∅ ∅ [] 0 [] 0 ∅ ∅ ∅ ∅ [] ∅ ∅ ∅ ∅ ∅ ∅.

Definition world_at (db : Db) (now : Z) : World := MkWorld db now [] ∅ (λ _ _ _, None).
