(* ===== verification/JobGate.v ===== *)
(** * The job-status gate ([src/src/db/job_state.rs])

    [transit_job_state] is the single writer of [jobs.status]: a
    compare-and-set against the status the caller believes the job has,
    restricted to the edges of a transition table, which appends one audit row
    to [job_transitions] per write.  [force_cancel_pending_dispatched_job_conn_sync]
    and [requeue_job_state_conn_sync] drive it.  Two helpers of
    [src/src/db/jobs.rs] it calls are here too. *)
From S2P Require Import Prelude Json Schema Sql.

(** ** Status vocabulary *)

Inductive JobStatus : Type := Queued | Dispatched | Completed | Cancelled | Failed.

#[global] Instance JobStatus_eq_dec : EqDecision JobStatus.
Proof. solve_decision. Defined.

Definition as_db_str (s : JobStatus) : string :=
  match s with
  | Queued => "QUEUED"
  | Dispatched => "DISPATCHED"
  | Completed => "COMPLETED"
  | Cancelled => "CANCELLED"
  | Failed => "FAILED"
  end.

Definition from_db_str (s : string) : option JobStatus :=
  if s == "QUEUED" then Some Queued
  else if s == "DISPATCHED" then Some Dispatched
  else if s == "COMPLETED" then Some Completed
  else if s == "CANCELLED" then Some Cancelled
  else if s == "FAILED" then Some Failed
  else None.

(** The [{:?}] of a status. *)
Definition debug_str (s : JobStatus) : string :=
  match s with
  | Queued => "Queued"
  | Dispatched => "Dispatched"
  | Completed => "Completed"
  | Cancelled => "Cancelled"
  | Failed => "Failed"
  end.

Section Gate.
Context {EXT : Externals}.

(** ** Helpers of [jobs.rs] *)

Definition query_job_sync (job_id : string) : M CcbdError (option Job) :=
  gets (λ db, db.(jobs) !! job_id).

Definition record_job_transition_conn_sync (job_id : string)
    (old_status new_status : option string) (kind : string) (changed_fields : list string)
    (reason : string) : M CcbdError unit :=
  job ← query_job_sync job_id;
  match job with
  | None => throw (DbConstraintViolation ("job " +:+ job_id +:+ " missing after mutation"))
  | Some job =>
      let changed_json := json_to_string (JArray (JString <$> changed_fields)) in
      now ← asks w_now;
      map_err (map_db_error "record job transition")
        (insert_job_transition_row (λ id,
           MkJobTransition id job.(j_id) job.(j_agent_id) job.(j_request_id) kind
             old_status new_status changed_json reason (Some job.(j_created_at))
             job.(j_dispatched_at) job.(j_completed_at) job.(j_cancel_requested)
             job.(j_error_reason) now))
  end.

(** ** The late-completion guard of [FAILED -> COMPLETED] *)

(** [SELECT payload FROM events WHERE agent_id = ? AND event_type = 'state_change'
    ORDER BY seq_id DESC LIMIT 1] *)
Definition latest_state_change_payload (agent_id : string) (db : Db) : option string :=
  e_payload <$> last (filter (λ e, e.(e_agent_id) = agent_id ∧ e.(e_event_type) = "state_change")
                        db.(events)).

(** What the guard reads in that payload: a health-check stuck of the
    completion kind, for this very job. *)
Definition is_late_completion_payload (payload : string) (dispatched_job_id : string) : bool :=
  let v := default (json_object []) (json_from_str payload) in
  let is_health_completion :=
    (get_str "reason" v == Some "HEALTH_CHECK_STUCK") &&
    match value_get "signal_kinds" v ≫= as_array with
    | Some signals => existsb (λ s, as_str s == Some "health:completion") signals
    | None => false
    end in
  let same_job := get_str "job_id" v == Some dispatched_job_id in
  is_health_completion && same_job.

Definition check_late_completion_evidence (agent_id dispatched_job_id : string) :
    M CcbdError bool :=
  payload ← gets (latest_state_change_payload agent_id);
  match payload with
  | None => mret false
  | Some payload => mret (is_late_completion_payload payload dispatched_job_id)
  end.

(** ** The gate *)

Definition illegal_transition (job_id : string) (from to : JobStatus) : CcbdError :=
  DbConstraintViolation ("illegal state transition for job " +:+ job_id +:+ " from "
                         +:+ debug_str from +:+ " to " +:+ debug_str to).

Definition cas_mismatch (job_id : string) (expected actual : JobStatus) : CcbdError :=
  DbConstraintViolation ("CAS mismatch for job " +:+ job_id +:+ ": expected "
                         +:+ debug_str expected +:+ ", actual " +:+ debug_str actual).

Definition transit_job_state (job_id : string) (expected_from to : JobStatus) (reason : string) :
    M CcbdError unit :=
  job ← query_job_sync job_id;
  match job with
  | None => throw (DbConstraintViolation ("job " +:+ job_id +:+ " not found"))
  | Some job =>
  match from_db_str job.(j_status) with
  | None => throw (DbConstraintViolation ("unrecognized job status in DB: " +:+ job.(j_status)))
  | Some actual_status =>
  if actual_status != expected_from then throw (cas_mismatch job_id expected_from actual_status)
  else
  is_legal ←
    match expected_from, to with
    | Queued, Dispatched | Queued, Cancelled | Queued, Failed => mret true
    | Dispatched, Completed | Dispatched, Failed | Dispatched, Cancelled
    | Dispatched, Queued => mret true
    | Failed, Completed =>
        has_evidence ← check_late_completion_evidence job.(j_agent_id) job_id;
        if (has_evidence : bool) then mret true
        else throw (DbConstraintViolation ("FAILED -> COMPLETED transition refused for job "
                                           +:+ job_id +:+ ": no late evidence"))
    | Failed, Queued => mret true
    | _, _ => mret false
    end;
  if negb is_legal then throw (illegal_transition job_id expected_from to)
  else
  let expected_str := as_db_str expected_from in
  let to_str := as_db_str to in
  now ← asks w_now;
  changes ←
    update_job job_id (λ j, j.(j_status) == expected_str)
      (match to with
       | Dispatched => λ j, set_j_dispatched_at (Some now) (set_j_status to_str j)
       | Completed | Cancelled | Failed =>
           λ j, set_j_completed_at (Some now) (set_j_status to_str j)
       | Queued =>
           λ j, set_j_completed_at None (set_j_dispatched_at_seq_id None
                  (set_j_dispatched_at None (set_j_status to_str j)))
       end);
  if changes == 0%nat then
    throw (DbConstraintViolation ("CAS mismatch for job " +:+ job_id
             +:+ " during UPDATE: expected status " +:+ expected_str))
  else
  let changed_fields :=
    match to with
    | Dispatched => ["status"; "dispatched_at"]
    | Completed | Cancelled | Failed => ["status"; "completed_at"]
    | Queued => ["status"; "dispatched_at"; "dispatched_at_seq_id"; "completed_at"; "error_reason"]
    end in
  record_job_transition_conn_sync job_id (Some (as_db_str expected_from)) (Some (as_db_str to))
    "job_transition" changed_fields reason
  end
  end.

(** ** Drivers of the gate *)

(** [SELECT created_at FROM job_transitions WHERE job_id = ? AND
    reason = 'cancel_requested' ORDER BY job_event_id DESC LIMIT 1] *)
Definition latest_cancel_request_at (job_id : string) (db : Db) : option Z :=
  t_created_at <$> last (filter (λ t, t.(t_job_id) = job_id ∧ t.(t_reason) = "cancel_requested")
                           db.(job_transitions)).

Definition force_cancel_pending_dispatched_job_conn_sync (job_id : string)
    (now_epoch timeout_secs : Z) : M CcbdError bool :=
  job ← query_job_sync job_id;
  match job with
  | None => throw (DbConstraintViolation ("job " +:+ job_id +:+ " not found"))
  | Some job =>
  if (job.(j_status) != "DISPATCHED") || negb job.(j_cancel_requested) then mret false
  else
  requested_at ← gets (latest_cancel_request_at job_id);
  match requested_at with
  | None => mret false
  | Some requested_at =>
      if timeout_secs <=? now_epoch - requested_at then
        transit_job_state job_id Dispatched Cancelled "cancel_timeout_takeover";;
        mret true
      else mret false
  end
  end.

Definition requeue_job_state_conn_sync (job_id : string) (expected_from : JobStatus)
    (error_reason : option string) (reason : string) : M CcbdError unit :=
  job ← query_job_sync job_id;
  match job with
  | None => throw (DbConstraintViolation ("job " +:+ job_id +:+ " not found"))
  | Some job =>
  match from_db_str job.(j_status) with
  | None => throw (DbConstraintViolation ("unrecognized job status in DB: " +:+ job.(j_status)))
  | Some actual_status =>
  if actual_status != expected_from then throw (cas_mismatch job_id expected_from actual_status)
  else
  update_job job_id (λ _, true) (set_j_error_reason error_reason);;
  transit_job_state job_id expected_from Queued reason
  end
  end.

End Gate.

(** ** The contract of the gate *)

(** The transition table of the module documentation. *)
Inductive job_edge : JobStatus → JobStatus → Prop :=
| edge_dispatch : job_edge Queued Dispatched
| edge_cancel_queued : job_edge Queued Cancelled
| edge_fail_queued : job_edge Queued Failed
| edge_complete : job_edge Dispatched Completed
| edge_fail : job_edge Dispatched Failed
| edge_cancel : job_edge Dispatched Cancelled
| edge_requeue : job_edge Dispatched Queued
| edge_late_complete : job_edge Failed Completed
| edge_retry : job_edge Failed Queued.
#[export] Hint Constructors job_edge : ahd.

#[global] Instance job_edge_dec : RelDecision job_edge.
Proof. intros [] []; first [left; by constructor|right; by inversion 1]. Defined.

Section GateContract.
Context {EXT : Externals}.

(** The row the gate writes. *)
Definition gate_row (now : Z) (to : JobStatus) (j : Job) : Job :=
  match to with
  | Dispatched => set_j_dispatched_at (Some now) (set_j_status (as_db_str to) j)
  | Completed | Cancelled | Failed => set_j_completed_at (Some now) (set_j_status (as_db_str to) j)
  | Queued =>
      set_j_completed_at None (set_j_dispatched_at_seq_id None
        (set_j_dispatched_at None (set_j_status (as_db_str to) j)))
  end.

Definition gate_fields (to : JobStatus) : list string :=
  match to with
  | Dispatched => ["status"; "dispatched_at"]
  | Completed | Cancelled | Failed => ["status"; "completed_at"]
  | Queued => ["status"; "dispatched_at"; "dispatched_at_seq_id"; "completed_at"; "error_reason"]
  end.

(** The audit row of a write: the job as it is after the write. *)
Definition audit_row (id now : Z) (j : Job) (old new : option string) (kind : string)
    (fields : list string) (reason : string) : JobTransition :=
  MkJobTransition id j.(j_id) j.(j_agent_id) j.(j_request_id) kind old new
    (json_to_string (JArray (JString <$> fields))) reason (Some j.(j_created_at))
    j.(j_dispatched_at) j.(j_completed_at) j.(j_cancel_requested) j.(j_error_reason) now.

(** The tables after an audit row is appended. *)
Definition append_audit (row : Z → JobTransition) (db : Db) : Db :=
  let id := db.(job_event_seq) + 1 in
  set_job_event_seq id (set_job_transitions (db.(job_transitions) ++ [row id]) db).

(** The tables after an accepted transition. *)
Definition gate_db (now : Z) (job_id : string) (from to : JobStatus) (reason : string) (j : Job)
    (db : Db) : Db :=
  append_audit (λ id, audit_row id now (gate_row now to j) (Some (as_db_str from))
                        (Some (as_db_str to)) "job_transition" (gate_fields to) reason)
    (set_jobs (<[job_id := gate_row now to j]> db.(jobs)) db).

(** Authoritative late-completion evidence for a job of an agent. *)
Definition late_evidence (db : Db) (agent_id job_id : string) : bool :=
  match latest_state_change_payload agent_id db with
  | Some p => is_late_completion_payload p job_id
  | None => false
  end.

(** What the gate asks of the tables before it writes. *)
Definition gate_admits (db : Db) (job_id : string) (from to : JobStatus) (j : Job) : Prop :=
  db.(jobs) !! job_id = Some j ∧ j.(j_status) = as_db_str from ∧ job_edge from to ∧
  (from = Failed → to = Completed → late_evidence db j.(j_agent_id) job_id = true).

Lemma from_db_str_as_db_str s : from_db_str (as_db_str s) = Some s.
Proof. by destruct s. Qed.

Lemma from_db_str_Some x s : from_db_str x = Some s → x = as_db_str s.
Proof. unfold from_db_str. intros H. repeat case_bool_decide; by simplify_eq. Qed.

Lemma as_db_str_inj s1 s2 : as_db_str s1 = as_db_str s2 → s1 = s2.
Proof. by destruct s1, s2. Qed.

Lemma record_job_transition_run w job_id j old new kind fields reason :
  w.(w_db).(jobs) !! job_id = Some j → j.(j_id) = job_id →
  is_Some (w.(w_db).(agents) !! j.(j_agent_id)) →
  kind ∈ ["job_transition"; "job_updated"] →
  record_job_transition_conn_sync job_id old new kind fields reason w =
    (Ok tt, set_db (append_audit (λ id, audit_row id w.(w_now) j old new kind fields reason)
                      w.(w_db)) w).
Proof.
  intros Hj Hid [a Ha] Hk. unfold record_job_transition_conn_sync, query_job_sync. run_m.
  rw Hj. run_m. unfold insert_job_transition_row; simpl.
  rw bool_decide_true //= Hid Hj Ha. by rw /append_audit /audit_row Hid.
Qed.

Lemma check_late_run w agent_id job_id :
  check_late_completion_evidence agent_id job_id w =
    (Ok (late_evidence w.(w_db) agent_id job_id), w).
Proof.
  unfold check_late_completion_evidence, late_evidence. run_m. by destruct (latest_state_change_payload _ _).
Qed.

Lemma update_job_hit {E} w id guard f j :
  w.(w_db).(jobs) !! id = Some j → guard j = true →
  (update_job id guard f : M E nat) w =
    (Ok 1%nat, set_db (set_jobs (<[id := f j]> w.(w_db).(jobs)) w.(w_db)) w).
Proof. intros Hj Hg. unfold update_job. by rw (update_row_hit _ _ _ _ _ Hj Hg). Qed.

(** The accepted case of the gate: the write and the audit row, nothing else. *)
Lemma transit_job_state_commit w job_id j from to reason :
  gate_admits w.(w_db) job_id from to j → j.(j_id) = job_id →
  is_Some (w.(w_db).(agents) !! j.(j_agent_id)) →
  transit_job_state job_id from to reason w =
    (Ok tt, set_db (gate_db w.(w_now) job_id from to reason j w.(w_db)) w).
Proof.
  intros (Hj & Hst & Hedge & Hlate) Hid Hfk.
  assert (Hrec : ∀ w' : World, w' = set_db (set_jobs (<[job_id := gate_row w.(w_now) to j]>
                   w.(w_db).(jobs)) w.(w_db)) w →
    record_job_transition_conn_sync job_id (Some (as_db_str from)) (Some (as_db_str to))
      "job_transition" (gate_fields to) reason w' =
    (Ok tt, set_db (gate_db w.(w_now) job_id from to reason j w.(w_db)) w)).
  { intros w' ->. erewrite (record_job_transition_run _ _ (gate_row w.(w_now) to j)).
    - done.
    - apply lookup_insert_eq.
    - by destruct to.
    - by destruct to.
    - set_solver. }
  unfold transit_job_state, query_job_sync. run_m. rw Hj /= Hst from_db_str_as_db_str.
  rw bool_decide_true //=.
  destruct Hedge; simpl; run_m;
    try (specialize (Hlate eq_refl eq_refl); rw check_late_run Hlate /=);
    (erewrite update_job_hit; [|exact Hj|by rw Hst bool_decide_true]); simpl;
    by apply Hrec.
Qed.

(** The refused case: an error, and the world as it was. *)
Lemma transit_job_state_refuse w job_id from to reason :
  (∀ j, ¬ gate_admits w.(w_db) job_id from to j) →
  ∃ details, transit_job_state job_id from to reason w = (Err (DbConstraintViolation details), w).
Proof.
  intros Hno. unfold transit_job_state, query_job_sync. run_m.
  destruct (w.(w_db).(jobs) !! job_id) as [j|] eqn:Hj; [|by eauto].
  destruct (from_db_str j.(j_status)) as [actual|] eqn:Hfrom; [|by eauto].
  apply from_db_str_Some in Hfrom.
  case_bool_decide as Hcas; simpl; [subst actual|by eexists].
  destruct (decide (job_edge from to)) as [Hedge|Hne]; cycle 1.
  { destruct from, to; simpl; run_m; try (by eexists); by destruct Hne; constructor. }
  destruct (decide (from = Failed ∧ to = Completed)) as [[-> ->]|Hcommon]; cycle 1.
  { destruct (Hno j). repeat split; [done..|]. intros -> ->. by destruct Hcommon. }
  simpl. run_m. rw check_late_run.
  destruct (late_evidence _ _ _) eqn:Hlate; run_m; [|by eexists].
  by destruct (Hno j).
Qed.

Lemma gate_admits_dec db job_id from to :
  (∃ j, gate_admits db job_id from to j) ∨ (∀ j, ¬ gate_admits db job_id from to j).
Proof.
  destruct (db.(jobs) !! job_id) as [j|] eqn:Hj; [|right; by intros j' [? _]; simplify_eq].
  destruct (decide (j.(j_status) = as_db_str from ∧ job_edge from to ∧
    (from = Failed → to = Completed → late_evidence db j.(j_agent_id) job_id = true)))
    as [(?&?&?)|Hn]; [left; by exists j|right].
  intros j' (Hj' & ? & ? & ?). apply Hn. simplify_eq. done.
Qed.

End GateContract.
Section GateDb.
Context {EXT : Externals}.

(** What an accepted transition leaves alone. *)
Lemma gate_db_jobs now id from to reason j db :
  (gate_db now id from to reason j db).(jobs) = <[id := gate_row now to j]> db.(jobs).
Proof. done. Qed.
Lemma gate_db_agents now id from to reason j db :
  (gate_db now id from to reason j db).(agents) = db.(agents).
Proof. done. Qed.
Lemma gate_db_events now id from to reason j db :
  (gate_db now id from to reason j db).(events) = db.(events).
Proof. done. Qed.
Lemma gate_db_event_seq now id from to reason j db :
  (gate_db now id from to reason j db).(event_seq) = db.(event_seq).
Proof. done. Qed.

End GateDb.
#[global] Arguments gate_db : simpl never.
#[global] Arguments append_audit : simpl never.
