(* ===== verification/Invariant.v ===== *)
(** * Invariants of the database and how rows may evolve

    [db_wf]: keys, foreign keys, the unique indexes and the agreement of a
    job's status with its timestamps.  [audit_ok]: replaying the audit rows of
    a job along the transition table ends at the job's status.  [evolves]: the
    relation every operation that deletes nothing respects, statement by
    statement; it says that job statuses only move along edges of the table,
    that an agent whose [state_version] is unchanged has its [state]
    unchanged, and that the two logs only grow.

    One lemma per statement of [Sql], collected in the [respects] hint
    database, carries these through every operation. *)
From S2P Require Import Prelude Json Schema Sql MasterTables JobGate.

(** ** Definitions *)

(** A job's timestamps follow its status. *)
Definition job_wf (j : Job) : Prop :=
  match from_db_str j.(j_status) with
  | Some Queued =>
      j.(j_dispatched_at) = None ∧ j.(j_dispatched_at_seq_id) = None ∧ j.(j_completed_at) = None
  | Some Dispatched => is_Some j.(j_dispatched_at) ∧ j.(j_completed_at) = None
  | Some Completed => is_Some j.(j_completed_at)
  | Some Cancelled | Some Failed => is_Some j.(j_completed_at)
  | None => False
  end.

Record db_wf (db : Db) : Prop := {
  wf_agent_key id a : db.(agents) !! id = Some a → a.(a_id) = id;
  wf_job_key id j : db.(jobs) !! id = Some j → j.(j_id) = id;
  wf_evidence_key id v : db.(evidence) !! id = Some v → v.(v_id) = id;
  wf_agent_session id a :
    db.(agents) !! id = Some a → is_Some (db.(sessions) !! a.(a_session_id));
  wf_job_agent id j : db.(jobs) !! id = Some j → is_Some (db.(agents) !! j.(j_agent_id));
  wf_event_agent e : e ∈ db.(events) → is_Some (db.(agents) !! e.(e_agent_id));
  wf_audit t :
    t ∈ db.(job_transitions) →
    ∃ j, db.(jobs) !! t.(t_job_id) = Some j ∧ j.(j_agent_id) = t.(t_agent_id);
  wf_evidence id v :
    db.(evidence) !! id = Some v →
    is_Some (db.(agents) !! v.(v_agent_id)) ∧ job_ref_ok db.(jobs) v.(v_job_id) ∧
    v.(v_event_seq_id) ∈ e_seq_id <$> db.(events);
  wf_intent id : is_Some (db.(recovery_intents) !! id) → is_Some (db.(agents) !! id);
  wf_spec id : is_Some (db.(spawn_specs) !! id) → is_Some (db.(agents) !! id);
  wf_job_request id1 id2 j1 j2 :
    db.(jobs) !! id1 = Some j1 → db.(jobs) !! id2 = Some j2 →
    j1.(j_agent_id) = j2.(j_agent_id) → j1.(j_request_id) = j2.(j_request_id) →
    is_Some j1.(j_request_id) → id1 = id2;
  wf_job_rowid id1 id2 j1 j2 :
    db.(jobs) !! id1 = Some j1 → db.(jobs) !! id2 = Some j2 → j1.(j_rowid) = j2.(j_rowid) →
    id1 = id2;
  wf_job id j : db.(jobs) !! id = Some j → job_wf j;
  wf_event_seq : StronglySorted Z.lt (e_seq_id <$> db.(events));
  wf_event_bound e : e ∈ db.(events) → e.(e_seq_id) ≤ db.(event_seq)
}.

(** Replaying audit rows: [old] must be the status reached so far, and
    [old -> new] an edge of the table (or the creation of a queued job). *)
Definition edge_okb (old new : option string) : bool :=
  match old, new with
  | None, Some n => n == "QUEUED"
  | Some o, Some n =>
      match from_db_str o, from_db_str n with
      | Some a, Some b => bool_decide (job_edge a b)
      | _, _ => false
      end
  | _, None => false
  end.

Fixpoint replay (cur : option string) (log : list JobTransition) : option (option string) :=
  match log with
  | [] => Some cur
  | t :: log' =>
      if (t.(t_old_status) == cur) && edge_okb cur t.(t_new_status)
      then replay t.(t_new_status) log' else None
  end.

Definition status_log (job_id : string) (db : Db) : list JobTransition :=
  filter (λ t, t.(t_job_id) = job_id ∧ t.(t_kind) = "job_transition") db.(job_transitions).

Definition audit_ok (db : Db) : Prop :=
  ∀ id j, db.(jobs) !! id = Some j → replay None (status_log id db) = Some (Some j.(j_status)).

Definition consistent (db : Db) : Prop := db_wf db ∧ audit_ok db.

(** Status strings related by an edge. *)
Definition status_edge (s s' : string) : Prop :=
  ∃ a b, s = as_db_str a ∧ s' = as_db_str b ∧ job_edge a b.

(** A job row before and after: same identity, status along the table. *)
Record job_evolves (j j' : Job) : Prop := {
  jev_id : j'.(j_id) = j.(j_id);
  jev_rowid : j'.(j_rowid) = j.(j_rowid);
  jev_agent : j'.(j_agent_id) = j.(j_agent_id);
  jev_request : j'.(j_request_id) = j.(j_request_id);
  jev_prompt : j'.(j_prompt_text) = j.(j_prompt_text);
  jev_created : j'.(j_created_at) = j.(j_created_at);
  jev_status : rtc status_edge j.(j_status) j'.(j_status)
}.

(** An agent row before and after: [state_version] counts the state changes. *)
Record agent_evolves (a a' : Agent) : Prop := {
  aev_id : a'.(a_id) = a.(a_id);
  aev_session : a'.(a_session_id) = a.(a_session_id);
  aev_provider : a'.(a_provider) = a.(a_provider);
  aev_version : a.(a_state_version) ≤ a'.(a_state_version);
  aev_state : a'.(a_state_version) = a.(a_state_version) → a'.(a_state) = a.(a_state)
}.

Record evidence_evolves (v v' : Evidence) : Prop := {
  vev_id : v'.(v_id) = v.(v_id);
  vev_agent : v'.(v_agent_id) = v.(v_agent_id);
  vev_seq : v'.(v_event_seq_id) = v.(v_event_seq_id);
  vev_job : v'.(v_job_id) = v.(v_job_id);
  vev_type : v'.(v_evidence_type) = v.(v_evidence_type)
}.

Record evolves (db db' : Db) : Prop := {
  ev_agents : table_evolves agent_evolves db.(agents) db'.(agents);
  ev_jobs : table_evolves job_evolves db.(jobs) db'.(jobs);
  ev_evidence : table_evolves evidence_evolves db.(evidence) db'.(evidence);
  ev_events : db.(events) `prefix_of` db'.(events);
  ev_audit : db.(job_transitions) `prefix_of` db'.(job_transitions);
  ev_seq : db.(event_seq) ≤ db'.(event_seq);
  ev_master : master_evolves (master_of db) (master_of db')
}.

(** ** The relations are preorders *)

#[global] Instance job_evolves_preorder : PreOrder job_evolves.
Proof.
  split; [intros x; by split|]. intros x y z [] []. split; try congruence. by etrans.
Qed.

#[global] Instance agent_evolves_preorder : PreOrder agent_evolves.
Proof.
  split; [intros x; by split|].
  intros x y z [?? ? Hv1 Hs1] [?? ? Hv2 Hs2]. split; try congruence; [lia|].
  intros Heq. rw Hs2; [lia|]. apply Hs1. lia.
Qed.

#[global] Instance evidence_evolves_preorder : PreOrder evidence_evolves.
Proof. split; [intros x; by split|]. intros x y z [] []. split; congruence. Qed.

#[global] Instance evolves_preorder : PreOrder evolves.
Proof.
  split; [intros db; split; try reflexivity|].
  intros x y z [] []. split; by etrans.
Qed.

(** ** Statements respect [evolves] *)

Section Evolves.
Context {EXT : Externals}.

Lemma evolves_update_agent {E} id guard f :
  (∀ a, guard a = true → agent_evolves a (f a)) →
  respects evolves (update_agent id guard f : M E nat).
Proof.
  intros Hf w. unfold update_agent, update_row.
  destruct (agents _ !! id) as [a|] eqn:Ha; [|destruct w as [[]]; split; simpl; reflexivity].
  destruct (guard a) eqn:Hg; simpl; split; simpl; try reflexivity.
  by eapply table_evolves_insert; [apply _| |apply Hf].
Qed.

Lemma evolves_update_job {E} id guard f :
  (∀ j, guard j = true → job_evolves j (f j)) →
  respects evolves (update_job id guard f : M E nat).
Proof.
  intros Hf w. unfold update_job, update_row.
  destruct (jobs _ !! id) as [j|] eqn:Hj; [|split; simpl; reflexivity].
  destruct (guard j) eqn:Hg; simpl; split; simpl; try reflexivity.
  by eapply table_evolves_insert; [apply _| |apply Hf].
Qed.

Lemma evolves_update_evidence {E} id guard f :
  (∀ v, guard v = true → evidence_evolves v (f v)) →
  respects evolves (update_evidence id guard f : M E nat).
Proof.
  intros Hf w. unfold update_evidence, update_row.
  destruct (evidence _ !! id) as [v|] eqn:Hv; [|split; simpl; reflexivity].
  destruct (guard v) eqn:Hg; simpl; split; simpl; try reflexivity.
  by eapply table_evolves_insert; [apply _| |apply Hf].
Qed.

Lemma evolves_insert_event agent_id request_id ty payload :
  respects evolves (insert_event_row agent_id request_id ty payload).
Proof.
  intros w. unfold insert_event_row.
  destruct (event_idempotency_taken _ _ _); [reflexivity|].
  destruct (agents _ !! agent_id); [|reflexivity].
  split; simpl; try reflexivity; [by eexists|lia].
Qed.

Lemma evolves_insert_job row : respects evolves (insert_job_row row).
Proof.
  intros w. unfold insert_job_row.
  destruct (_ && _); [reflexivity|].
  case_bool_decide as Hpk; [reflexivity|].
  destruct (agents _ !! _); [|reflexivity].
  split; simpl; try reflexivity.
  apply table_evolves_fresh; [apply _|]. by apply eq_None_not_Some.
Qed.

Lemma evolves_insert_job_transition row : respects evolves (insert_job_transition_row row).
Proof.
  intros w. unfold insert_job_transition_row.
  repeat case_match; try reflexivity.
  split; simpl; try reflexivity. by eexists.
Qed.

Lemma evolves_insert_evidence row : respects evolves (insert_evidence_row row).
Proof.
  intros w. unfold insert_evidence_row.
  destruct (evidence _ !! _) eqn:Hv; [reflexivity|].
  destruct (agents _ !! _); [|reflexivity].
  destruct (_ && _); [|reflexivity].
  split; simpl; try reflexivity.
  by apply table_evolves_fresh; [apply _|].
Qed.

Lemma evolves_insert_agent row : respects evolves (insert_agent_row row).
Proof.
  intros w. unfold insert_agent_row.
  destruct (agents _ !! _) eqn:Ha; [reflexivity|].
  destruct (sessions _ !! _); [|reflexivity].
  split; simpl; try reflexivity.
  by apply table_evolves_fresh; [apply _|].
Qed.

Lemma evolves_insert_event_null ctx agent_id ty payload :
  respects evolves (insert_event_null ctx agent_id ty payload).
Proof. apply respects_map_err, evolves_insert_event. Qed.

End Evolves.

#[export] Hint Resolve evolves_insert_event evolves_insert_job evolves_insert_job_transition
  evolves_insert_evidence evolves_insert_agent evolves_insert_event_null : respects.

Ltac solve_row_evolves := intros; split; simpl; try done; try lia.

#[export] Hint Extern 1 (respects evolves (update_agent _ _ _)) =>
  apply evolves_update_agent; solve_row_evolves : respects.
#[export] Hint Extern 1 (respects evolves (update_job _ _ _)) =>
  apply evolves_update_job; solve_row_evolves : respects.
#[export] Hint Extern 1 (respects evolves (update_evidence _ _ _)) =>
  apply evolves_update_evidence; solve_row_evolves : respects.

Section GateEvolves.
Context {EXT : Externals}.

Lemma evolves_record job_id old new kind fields reason :
  respects evolves (record_job_transition_conn_sync job_id old new kind fields reason).
Proof. unfold record_job_transition_conn_sync, query_job_sync. solve_respects. Qed.
#[local] Hint Resolve evolves_record : respects.

Lemma evolves_check_late agent_id job_id :
  respects evolves (check_late_completion_evidence agent_id job_id).
Proof. unfold check_late_completion_evidence. solve_respects. Qed.
#[local] Hint Resolve evolves_check_late : respects.

Lemma evolves_transit_job_state job_id from to reason :
  respects evolves (transit_job_state job_id from to reason).
Proof.
  destruct (decide (job_edge from to)) as [Hedge|Hne]; cycle 1.
  { intros w. destruct (transit_job_state_refuse w job_id from to reason) as [d ->]; [|done].
    by intros j (_ & _ & Hedge & _). }
  unfold transit_job_state, query_job_sync. solve_respects.
  apply evolves_update_job; intros jj Hst%bool_decide_eq_true.
  assert (Hse : status_edge jj.(j_status) (as_db_str to)) by (by exists from, to).
  destruct to; split; try done; by apply rtc_once.
Qed.

End GateEvolves.
#[export] Hint Resolve evolves_record evolves_check_late evolves_transit_job_state : respects.

(** ** Statements preserve [consistent] *)

Lemma elem_of_table_rows {R} (t : gmap string R) r :
  r ∈ table_rows t ↔ ∃ id, t !! id = Some r.
Proof.
  unfold table_rows. rw list_elem_of_fmap. split.
  - intros ([id r'] & -> & Hin). exists id. by apply elem_of_map_to_list.
  - intros [id Hid]. exists (id, r). by rw elem_of_map_to_list.
Qed.

Lemma next_rowid_above t id j : t !! id = Some j → j.(j_rowid) < next_rowid t.
Proof.
  intros Hj. assert (Hin : j ∈ table_rows t) by (rw elem_of_table_rows; eauto).
  unfold next_rowid. induction (table_rows t) as [|x l IH]; [by apply not_elem_of_nil in Hin|].
  apply elem_of_cons in Hin as [->|Hin]; simpl; [lia|]. specialize (IH Hin). lia.
Qed.

Lemma job_idempotency_free db agent_id r id j :
  job_idempotency_taken db agent_id (Some r) = false → db.(jobs) !! id = Some j →
  j.(j_agent_id) = agent_id → j.(j_request_id) ≠ Some r.
Proof.
  intros Hfree Hj <- Hr. simpl in Hfree.
  apply not_true_iff_false in Hfree. apply Hfree, existsb_exists.
  exists j. rw !bool_decide_true //. split; [|done].
  apply list_elem_of_In, elem_of_table_rows. eauto.
Qed.

(** Row updates that keep keys and references, and leave the status alone. *)
Record agent_frame (a a' : Agent) : Prop := {
  afr_id : a'.(a_id) = a.(a_id);
  afr_session : a'.(a_session_id) = a.(a_session_id)
}.

Record job_frame (j j' : Job) : Prop := {
  jfr_id : j'.(j_id) = j.(j_id);
  jfr_rowid : j'.(j_rowid) = j.(j_rowid);
  jfr_agent : j'.(j_agent_id) = j.(j_agent_id);
  jfr_request : j'.(j_request_id) = j.(j_request_id)
}.

Lemma wf_set_agent db id a a' :
  db_wf db → db.(agents) !! id = Some a → agent_frame a a' →
  db_wf (set_agents (<[id := a']> db.(agents)) db).
Proof.
  intros Hwf Ha [Hid Hs].
  assert (Hdom : ∀ k, is_Some (db.(agents) !! k) → is_Some (<[id := a']> db.(agents) !! k)).
  { intros k. rw lookup_insert_is_Some'. eauto. }
  destruct Hwf. split; simpl; eauto.
  - intros k b. rw lookup_insert. case_decide; [|eauto]. intros [= <-]. subst k. rw Hid. eauto.
  - intros k b. rw lookup_insert. case_decide; [|eauto]. intros [= <-]. rw Hs. eauto.
  - intros k v (? & ? & ?)%wf_evidence0. eauto.
Qed.

Lemma wf_set_job db id j j' :
  db_wf db → db.(jobs) !! id = Some j → job_frame j j' → (job_wf j → job_wf j') →
  db_wf (set_jobs (<[id := j']> db.(jobs)) db).
Proof.
  intros Hwf Hj [Hid Hrow Hag Hrq] Hjwf.
  assert (Hlk : ∀ k b, <[id := j']> db.(jobs) !! k = Some b →
    ∃ b0, db.(jobs) !! k = Some b0 ∧ job_frame b0 b ∧ (job_wf b0 → job_wf b)).
  { intros k b. rw lookup_insert. case_decide; [|intros; exists b; by repeat split].
    intros [= <-]. subst k. exists j. by repeat split. }
  destruct Hwf. split; simpl; eauto.
  - intros k b (b0 & ? & [] & ?)%Hlk. rw jfr_id0. eauto.
  - intros k b (b0 & ? & [] & ?)%Hlk. rw jfr_agent0. eauto.
  - intros t (b & Hb & Heq)%wf_audit0. rw lookup_insert. case_decide; [|eauto].
    subst id. simplify_eq. exists j'. by rw Hag.
  - intros k v (? & Href & ?)%wf_evidence0. repeat split; eauto.
    destruct (v_job_id v) as [k'|]; [|done]. simpl in *.
    apply bool_decide_unpack in Href. apply bool_decide_pack, lookup_insert_is_Some'. eauto.
  - intros k1 k2 b1 b2 (c1 & ? & [] & ?)%Hlk (c2 & ? & [] & ?)%Hlk ???.
    eapply wf_job_request0; eauto; congruence.
  - intros k1 k2 b1 b2 (c1 & ? & [] & ?)%Hlk (c2 & ? & [] & ?)%Hlk ?.
    eapply wf_job_rowid0; eauto; congruence.
  - intros k b (b0 & ? & [] & ?)%Hlk. eauto.
Qed.

Lemma audit_set_job db id j j' :
  audit_ok db → db.(jobs) !! id = Some j → j'.(j_status) = j.(j_status) →
  audit_ok (set_jobs (<[id := j']> db.(jobs)) db).
Proof.
  intros Hok Hj Hst k b. simpl. rw lookup_insert. case_decide as Hk; [|apply Hok].
  intros [= <-]. subst k. rw Hst. by apply (Hok id).
Qed.

Lemma wf_add_event db e :
  db_wf db → e.(e_seq_id) = db.(event_seq) + 1 → is_Some (db.(agents) !! e.(e_agent_id)) →
  db_wf (set_event_seq (db.(event_seq) + 1) (set_events (db.(events) ++ [e]) db)).
Proof.
  intros Hwf Hseq Hag. destruct Hwf. split; simpl; eauto.
  - intros x [Hx| ->%list_elem_of_singleton]%elem_of_app; eauto.
  - intros k v (? & ? & ?)%wf_evidence0. repeat split; [done..|].
    rw fmap_app elem_of_app. by left.
  - rw fmap_app. apply StronglySorted_app_2; [|done|by repeat constructor].
    intros x y (b & -> & Hb)%list_elem_of_fmap ->%list_elem_of_singleton.
    specialize (wf_event_bound0 _ Hb). lia.
  - intros x [Hx| ->%list_elem_of_singleton]%elem_of_app; [|lia].
    specialize (wf_event_bound0 _ Hx). lia.
Qed.

Lemma wf_add_evidence db v :
  db_wf db → is_Some (db.(agents) !! v.(v_agent_id)) → job_ref_ok db.(jobs) v.(v_job_id) →
  v.(v_event_seq_id) ∈ e_seq_id <$> db.(events) →
  db_wf (set_evidence (<[v.(v_id) := v]> db.(evidence)) db).
Proof.
  intros Hwf ???. destruct Hwf. split; simpl; eauto.
  - intros k b. rw lookup_insert. case_decide; [|eauto]. by intros [= <-].
  - intros k b. rw lookup_insert. case_decide; [|eauto]. by intros [= <-].
Qed.

Lemma wf_add_agent db a :
  db_wf db → db.(agents) !! a.(a_id) = None → is_Some (db.(sessions) !! a.(a_session_id)) →
  db_wf (set_agents (<[a.(a_id) := a]> db.(agents)) db).
Proof.
  intros Hwf Hn Hs.
  assert (Hdom : ∀ k, is_Some (db.(agents) !! k) → is_Some (<[a.(a_id) := a]> db.(agents) !! k)).
  { intros k. rw lookup_insert_is_Some'. eauto. }
  destruct Hwf. split; simpl; eauto.
  - intros k b. rw lookup_insert. case_decide; [|eauto]. by intros [= <-].
  - intros k b. rw lookup_insert. case_decide; [|eauto]. by intros [= <-].
  - intros k v (? & ? & ?)%wf_evidence0. eauto.
Qed.

(** A new queued job with its creation row. *)
Lemma wf_add_job db j :
  db_wf db → db.(jobs) !! j.(j_id) = None → is_Some (db.(agents) !! j.(j_agent_id)) →
  j.(j_rowid) = next_rowid db.(jobs) → job_wf j →
  job_idempotency_taken db j.(j_agent_id) j.(j_request_id) = false →
  db_wf (set_jobs (<[j.(j_id) := j]> db.(jobs)) db).
Proof.
  intros Hwf Hn Hag Hrow Hjwf Hrq.
  assert (Hfresh : ∀ k b, db.(jobs) !! k = Some b → j.(j_id) ≠ k) by (intros k b Hk <-; congruence).
  assert (Hrq' : ∀ k b, db.(jobs) !! k = Some b → b.(j_agent_id) = j.(j_agent_id) →
    b.(j_request_id) = j.(j_request_id) → is_Some j.(j_request_id) → False).
  { intros k b Hk Ha Hr [r Hr']. rw Hr' in Hr; rw Hr' in Hrq.
    by eapply job_idempotency_free. }
  destruct Hwf. split; simpl; eauto.
  - intros k b. rw lookup_insert. case_decide; [|eauto]. by intros [= <-].
  - intros k b. rw lookup_insert. case_decide; [|eauto]. by intros [= <-].
  - intros t (b & Hb & Heq)%wf_audit0. exists b. rw lookup_insert_ne; eauto.
  - intros k v (? & Href & ?)%wf_evidence0. repeat split; [done| |done].
    destruct (v_job_id v) as [k'|]; [|done]. simpl in *.
    apply bool_decide_unpack in Href. apply bool_decide_pack, lookup_insert_is_Some'. eauto.
  - intros k1 k2 b1 b2. rw !lookup_insert. repeat case_decide; intros; simplify_eq; eauto.
    all: exfalso; eapply Hrq'; eauto; congruence.
  - intros k1 k2 b1 b2. rw !lookup_insert. repeat case_decide; intros; simplify_eq; eauto.
    + pose proof (next_rowid_above _ _ _ ltac:(eassumption)). lia.
    + pose proof (next_rowid_above _ _ _ ltac:(eassumption)). lia.
  - intros k b. rw lookup_insert. case_decide; [|eauto]. by intros [= <-].
Qed.

Lemma wf_append_audit db row :
  db_wf db →
  (∃ j, db.(jobs) !! (row (db.(job_event_seq) + 1)).(t_job_id) = Some j ∧
        j.(j_agent_id) = (row (db.(job_event_seq) + 1)).(t_agent_id)) →
  db_wf (append_audit row db).
Proof.
  intros Hwf Hrow. destruct Hwf. split; simpl; eauto.
  intros t [Ht| ->%list_elem_of_singleton]%elem_of_app; eauto.
Qed.

(** ** The audit trail *)

Lemma replay_app cur log t s :
  replay cur log = Some s → t.(t_old_status) = s → edge_okb s t.(t_new_status) = true →
  replay cur (log ++ [t]) = Some t.(t_new_status).
Proof.
  revert cur. induction log as [|x log IH]; intros cur; simpl.
  - intros [= ->] -> ->. by rw bool_decide_true.
  - destruct (_ && _); [apply IH|done].
Qed.

Lemma status_log_append id row db :
  status_log id (append_audit row db) =
    status_log id db ++
    filter (λ t, t.(t_job_id) = id ∧ t.(t_kind) = "job_transition") [row (db.(job_event_seq) + 1)].
Proof. unfold status_log. simpl. by rw filter_app. Qed.

Lemma status_log_no_job db id : db_wf db → db.(jobs) !! id = None → status_log id db = [].
Proof.
  intros Hwf Hn. unfold status_log. apply filter_none. intros t Ht [Hid _].
  destruct (wf_audit _ Hwf _ Ht) as (j & Hj & _). congruence.
Qed.

Lemma edge_okb_edge a b : job_edge a b → edge_okb (Some (as_db_str a)) (Some (as_db_str b)) = true.
Proof. intros He. unfold edge_okb. rw !from_db_str_as_db_str. by apply bool_decide_true. Qed.

Section Consistent.
Context {EXT : Externals}.

Lemma gate_row_frame now to j : job_frame j (gate_row now to j).
Proof. by destruct to. Qed.

Lemma gate_row_wf now from to j :
  job_edge from to → j.(j_status) = as_db_str from → job_wf j → job_wf (gate_row now to j).
Proof.
  intros Hedge Hst. unfold job_wf. rw Hst from_db_str_as_db_str.
  destruct Hedge; simpl; intuition eauto.
Qed.

Lemma gate_row_status now to j : (gate_row now to j).(j_status) = as_db_str to.
Proof. by destruct to. Qed.

Lemma consistent_gate_db now job_id from to reason j db :
  consistent db → gate_admits db job_id from to j →
  consistent (gate_db now job_id from to reason j db).
Proof.
  intros [Hwf Haud] (Hj & Hst & Hedge & _).
  assert (Hkey : j.(j_id) = job_id) by (by eapply wf_job_key).
  assert (Hjid : (gate_row now to j).(j_id) = job_id) by (by destruct to).
  split.
  - apply wf_append_audit.
    + eapply wf_set_job; [done..|apply gate_row_frame|]. by eapply gate_row_wf.
    + exists (gate_row now to j). simpl. rw Hjid lookup_insert_eq. done.
  - intros id b Hb. unfold gate_db in *. rw status_log_append. simpl in Hb.
    change (status_log id (set_jobs ?t db)) with (status_log id db).
    rw lookup_insert in Hb. case_decide as Heq.
    + simplify_eq. rw filter_cons_True /=; [done|]. rw filter_nil.
      rw (replay_app _ _ _ (Some (as_db_str from))) /=.
      * rw -Hst. by apply Haud.
      * done.
      * by apply edge_okb_edge.
      * by rw gate_row_status.
    + rw filter_cons_False /=; [by rw Hjid; intros [? _]|]. rw filter_nil app_nil_r.
      by apply Haud.
Qed.

Lemma consistent_transit_job_state job_id from to reason :
  preserves consistent (transit_job_state job_id from to reason).
Proof.
  intros w Hc.
  destruct (gate_admits_dec w.(w_db) job_id from to) as [[j Hadm]|Hno].
  - rw (transit_job_state_commit w job_id j); [done| | |].
    + by eapply wf_job_key; [apply Hc|apply Hadm].
    + by eapply wf_job_agent; [apply Hc|apply Hadm].
    + simpl. by apply consistent_gate_db.
  - by destruct (transit_job_state_refuse w job_id from to reason Hno) as [d ->].
Qed.

(** Audit consistency only looks at [jobs] and [job_transitions]. *)
Lemma audit_ok_proper db db' :
  db'.(jobs) = db.(jobs) → db'.(job_transitions) = db.(job_transitions) →
  audit_ok db → audit_ok db'.
Proof. unfold audit_ok, status_log. by intros -> ->. Qed.

Lemma consistent_update_agent {E} id guard f :
  (∀ a, guard a = true → agent_frame a (f a)) →
  preserves consistent (update_agent id guard f : M E nat).
Proof.
  intros Hf w [Hwf Haud]. unfold update_agent, update_row.
  destruct (agents _ !! id) as [a|] eqn:Ha; [destruct (guard a) eqn:Hg|]; simpl.
  - split; [by eapply wf_set_agent; eauto|by eapply audit_ok_proper].
  - by destruct w as [[]].
  - by destruct w as [[]].
Qed.

Lemma consistent_update_job {E} id guard f :
  (∀ j, guard j = true → job_frame j (f j) ∧ (f j).(j_status) = j.(j_status) ∧
                         (job_wf j → job_wf (f j))) →
  preserves consistent (update_job id guard f : M E nat).
Proof.
  intros Hf w [Hwf Haud]. unfold update_job, update_row.
  destruct (jobs _ !! id) as [j|] eqn:Hj; [destruct (guard j) eqn:Hg|]; simpl.
  - destruct (Hf _ Hg) as (? & ? & ?).
    split; [by eapply wf_set_job; eauto|by eapply audit_set_job].
  - by destruct w as [[]].
  - by destruct w as [[]].
Qed.

Lemma consistent_update_evidence {E} id guard f :
  (∀ v, guard v = true → evidence_evolves v (f v)) →
  preserves consistent (update_evidence id guard f : M E nat).
Proof.
  intros Hf w [Hwf Haud]. unfold update_evidence, update_row.
  destruct (evidence _ !! id) as [v|] eqn:Hv; [destruct (guard v) eqn:Hg|]; simpl.
  - split; [|by eapply audit_ok_proper]. destruct (Hf _ Hg) as [Hid Hag Hs Hjob _].
    destruct Hwf. split; simpl; eauto.
    + intros k b. rw lookup_insert. case_decide; [|eauto]. intros [= <-]. subst. rw Hid. eauto.
    + intros k b. rw lookup_insert. case_decide; [|eauto]. intros [= <-]. rw Hag Hjob Hs. eauto.
  - by destruct w as [[]].
  - by destruct w as [[]].
Qed.

Lemma consistent_insert_event agent_id request_id ty payload :
  preserves consistent (insert_event_row agent_id request_id ty payload).
Proof.
  intros w [Hwf Haud]. unfold insert_event_row.
  destruct (event_idempotency_taken _ _ _); [done|].
  destruct (agents _ !! agent_id) eqn:Ha; [|done]. simpl.
  split; [|by eapply audit_ok_proper]. by apply wf_add_event; [| |simpl; rw Ha].
Qed.

Lemma consistent_insert_event_null ctx agent_id ty payload :
  preserves consistent (insert_event_null ctx agent_id ty payload).
Proof. apply respects_map_err, consistent_insert_event. Qed.

Lemma consistent_insert_evidence row : preserves consistent (insert_evidence_row row).
Proof.
  intros w [Hwf Haud]. unfold insert_evidence_row.
  destruct (evidence _ !! _) eqn:Hv; [done|].
  destruct (agents _ !! _) eqn:Ha; [|done].
  destruct (_ && _) eqn:Hfk; [|done]. apply andb_true_iff in Hfk as [Hjob Hev]. simpl.
  split; [|by eapply audit_ok_proper]. apply wf_add_evidence; [done|by rw Ha|by rw Hjob|].
  apply existsb_exists in Hev as (e & He & Heq). apply list_elem_of_fmap.
  exists e. split; [lia|by apply list_elem_of_In].
Qed.

Lemma consistent_insert_agent row : preserves consistent (insert_agent_row row).
Proof.
  intros w [Hwf Haud]. unfold insert_agent_row.
  destruct (agents _ !! _) eqn:Ha; [done|].
  destruct (sessions _ !! _) eqn:Hs; [|done]. simpl.
  split; [|by eapply audit_ok_proper]. by apply wf_add_agent; [| |rw Hs].
Qed.

(** An audit row that is not a status change. *)
Lemma consistent_record_updated job_id old new fields reason :
  preserves consistent
    (record_job_transition_conn_sync job_id old new "job_updated" fields reason).
Proof.
  intros w [Hwf Haud].
  destruct (w.(w_db).(jobs) !! job_id) as [j|] eqn:Hj; cycle 1.
  { unfold record_job_transition_conn_sync, query_job_sync. run_m. by rw Hj. }
  assert (Hkey : j.(j_id) = job_id) by (by eapply wf_job_key).
  rw (record_job_transition_run w job_id j) //; [by eapply wf_job_agent|set_solver|]. simpl.
  split.
  - apply wf_append_audit; [done|]. exists j. simpl. by rw Hkey.
  - intros id b Hb. rw status_log_append filter_cons_False; [by intros [_ ?]|].
    rw filter_nil app_nil_r. by apply Haud.
Qed.

(** A new row of [jobs] together with its creation row. *)
Lemma consistent_new_job now db j fields reason :
  consistent db → db.(jobs) !! j.(j_id) = None → is_Some (db.(agents) !! j.(j_agent_id)) →
  j.(j_rowid) = next_rowid db.(jobs) → job_wf j → j.(j_status) = "QUEUED" →
  job_idempotency_taken db j.(j_agent_id) j.(j_request_id) = false →
  consistent (append_audit (λ id, audit_row id now j None (Some "QUEUED") "job_transition"
                                    fields reason)
                (set_jobs (<[j.(j_id) := j]> db.(jobs)) db)).
Proof.
  intros [Hwf Haud] Hn Hag Hrow Hjwf Hst Hrq. split.
  - apply wf_append_audit; [by apply wf_add_job|]. exists j. simpl. by rw lookup_insert_eq.
  - intros id b Hb. rw status_log_append. simpl in Hb.
    change (status_log id (set_jobs ?t db)) with (status_log id db).
    rw lookup_insert in Hb. case_decide as Heq.
    + simplify_eq. rw filter_cons_True; [done|]. rw filter_nil status_log_no_job //= Hst //.
    + rw filter_cons_False; [by intros [? _]|]. rw filter_nil app_nil_r. by apply Haud.
Qed.

End Consistent.

#[export] Hint Resolve consistent_transit_job_state consistent_insert_event
  consistent_insert_event_null consistent_insert_evidence consistent_insert_agent
  consistent_record_updated : respects.

(** Side conditions of row updates: the frame by computation, the agreement of
    status and timestamps from the guard. *)
Ltac solve_job_update :=
  let j := fresh "j" in let Hg := fresh "Hg" in
  intros j Hg; split; [by split|split; [done|]];
  repeat match goal with
    | H : _ && _ = true |- _ => apply andb_true_iff in H as [? ?]
    | H : bool_decide _ = true |- _ => apply bool_decide_eq_true in H
    end;
  unfold job_wf; simpl; try done;
  match goal with H : j_status j = _ |- _ => rw H; simpl; intuition eauto | _ => idtac end.

#[export] Hint Extern 1 (respects _ (update_agent _ _ _)) =>
  apply consistent_update_agent; intros; by split : respects.
#[export] Hint Extern 1 (respects _ (update_job _ _ _)) =>
  apply consistent_update_job; solve_job_update : respects.
#[export] Hint Extern 1 (respects _ (update_evidence _ _ _)) =>
  apply consistent_update_evidence; intros; by split : respects.

(** ** Both at once

    [sound]: what every operation that deletes nothing guarantees. *)

Definition sound (db db' : Db) : Prop := evolves db db' ∧ (consistent db → consistent db').

#[global] Instance sound_preorder : PreOrder sound.
Proof.
  split; [intros db; by split|].
  intros x y z [Hxy Cxy] [Hyz Cyz]. split; [by etrans|by eauto].
Qed.

Lemma respects_sound {E A} (m : M E A) :
  respects evolves m → preserves consistent m → respects sound m.
Proof. intros He Hc w. split; [apply He|apply Hc]. Qed.

Lemma sound_evolves {E A} (m : M E A) : respects sound m → respects evolves m.
Proof. intros Hm w. apply Hm. Qed.

Lemma sound_consistent {E A} (m : M E A) : respects sound m → preserves consistent m.
Proof. intros Hm w. apply Hm. Qed.

Ltac sound_leaf := apply respects_sound; solve [eauto with respects].

#[export] Hint Extern 2 (respects sound (update_agent _ _ _)) => sound_leaf : respects.
#[export] Hint Extern 2 (respects sound (update_job _ _ _)) => sound_leaf : respects.
#[export] Hint Extern 2 (respects sound (update_evidence _ _ _)) => sound_leaf : respects.
#[export] Hint Extern 2 (respects sound (insert_event_row _ _ _ _)) => sound_leaf : respects.
#[export] Hint Extern 2 (respects sound (insert_event_null _ _ _ _)) => sound_leaf : respects.
#[export] Hint Extern 2 (respects sound (insert_evidence_row _)) => sound_leaf : respects.
#[export] Hint Extern 2 (respects sound (insert_agent_row _)) => sound_leaf : respects.
#[export] Hint Extern 2 (respects sound (transit_job_state _ _ _ _)) => sound_leaf : respects.
#[export] Hint Extern 2 (respects sound (record_job_transition_conn_sync _ _ _ "job_updated" _ _)) =>
  sound_leaf : respects.
