(* ===== verification/MasterSound.v ===== *)
(** * Statements on the master's tables are sound

    One lemma per statement of [MasterTables], in the [respects] hint database,
    with the side conditions on the row that is written. *)
From S2P Require Import Prelude Json Schema Sql MasterTables JobGate Invariant.

(** Changing only the master's tables, along [master_evolves], is sound. *)
Lemma sound_master_tables db p s c m :
  let db' := set_recovery_windows m (set_master_cutovers c (set_projects p (set_sessions s db))) in
  master_evolves (master_of db) (master_of db') → sound db db'.
Proof.
  intros db' Hev. split; [split; try reflexivity; exact Hev|].
  intros [Hwf Haud]. split; [|by eapply audit_ok_proper].
  destruct Hwf. split; try done.
  intros id a [s0 Hs]%wf_agent_session.
  destruct (mev_sessions _ _ Hev _ _ Hs) as (s' & Hs' & _). by exists s'.
Qed.

Ltac mt_simpl :=
  cbn [mt_projects mt_sessions mt_cutovers mt_windows master_of projects sessions master_cutovers
       recovery_windows set_projects set_sessions set_master_cutovers set_recovery_windows] in *.

(** ** One row at a time *)

Section Rows.
Implicit Types t : MasterTables.

(** References to sessions survive what keeps the sessions. *)
Lemma sessions_live ss ss' id :
  table_evolves session_evolves ss ss' → is_Some (ss !! id) → is_Some (ss' !! id).
Proof. intros Ht [x Hx]. destruct (Ht _ _ Hx) as (x' & Hx' & _). by exists x'. Qed.

Lemma master_ok_sessions p ss ss' c m :
  table_evolves session_evolves ss ss' →
  (∀ id s, ss' !! id = Some s →
     s.(s_id) = id ∧ is_Some (p !! s.(s_project_id)) ∧ session_ok s) →
  master_ok (MkMasterTables p ss c m) → master_ok (MkMasterTables p ss' c m).
Proof.
  intros Ht Hrows []. split; mt_simpl; eauto using sessions_live; by intros id s (? & ? & ?)%Hrows.
Qed.

Lemma master_ok_set_session p ss c m id s s' :
  ss !! id = Some s → session_evolves s s' → session_ok s' →
  master_ok (MkMasterTables p ss c m) → master_ok (MkMasterTables p (<[id := s']> ss) c m).
Proof.
  intros Hs Hev Hok Hm. pose proof Hm as []. mt_simpl.
  eapply master_ok_sessions; [by eapply table_evolves_insert; [apply _| |]| |done].
  intros k x. rw lookup_insert_Some. intros [[<- <-]|[_ Hx]]; [|by split_and!; eauto].
  rw (sev_id _ _ Hev) (sev_project _ _ Hev). by split_and!; eauto.
Qed.

Lemma master_ok_add_session p ss c m s :
  ss !! s.(s_id) = None → is_Some (p !! s.(s_project_id)) → session_ok s →
  master_ok (MkMasterTables p ss c m) → master_ok (MkMasterTables p (<[s.(s_id) := s]> ss) c m).
Proof.
  intros Hs Hp Hok Hm. pose proof Hm as []. mt_simpl.
  eapply master_ok_sessions; [by eapply table_evolves_fresh; [apply _|]| |done].
  intros k x. rw lookup_insert_Some. intros [[<- <-]|[_ Hx]]; by split_and!; eauto.
Qed.

Lemma master_ok_add_project p ss c m x :
  p !! x.(p_id) = None → (∀ k y, p !! k = Some y → y.(p_absolute_path) ≠ x.(p_absolute_path)) →
  master_ok (MkMasterTables p ss c m) → master_ok (MkMasterTables (<[x.(p_id) := x]> p) ss c m).
Proof.
  intros Hn Hpath []. split; mt_simpl; eauto.
  - intros k y. rw lookup_insert_Some. intros [[<- <-]|[_ Hy]]; by eauto.
  - intros k1 k2 y1 y2. rw !lookup_insert_Some.
    intros [[<- <-]|[_ H1]] [[<- <-]|[_ H2]] Heq; eauto; exfalso; by eapply Hpath.
  - intros k s [y Hy]%mo_session_project. rw lookup_insert_is_Some. destruct (decide (x.(p_id) =
      s.(s_project_id))); [by left|right]. by split; [|exists y].
Qed.

(** A cutover written, new or changed. *)
Lemma master_ok_put_cutover p ss c m x :
  is_Some (ss !! x.(c_session_id)) → cutover_ok x →
  (∀ k y, c !! k = Some y → k ≠ x.(c_id) → cutover_active x = true → cutover_active y = true →
          y.(c_session_id) ≠ x.(c_session_id)) →
  master_ok (MkMasterTables p ss c m) → master_ok (MkMasterTables p ss (<[x.(c_id) := x]> c) m).
Proof.
  intros Hs Hok Hun []. split; mt_simpl; eauto.
  1-3: intros k y; rw lookup_insert_Some; intros [[<- <-]|[_ Hy]]; by eauto.
  intros k1 k2 y1 y2. rw !lookup_insert_Some.
  intros [[<- <-]|[Hn1 H1]] [[<- <-]|[Hn2 H2]] A1 A2 Heq; eauto; exfalso.
  - by eapply Hun; eauto.
  - by eapply Hun; eauto.
Qed.

Lemma master_ok_put_window p ss c m r :
  is_Some (ss !! r.(m_session_id)) → window_ok r →
  master_ok (MkMasterTables p ss c m) →
  master_ok (MkMasterTables p ss c (<[r.(m_session_id) := r]> m)).
Proof.
  intros Hs Hok []. split; mt_simpl; eauto.
  all: intros k y; rw lookup_insert_Some; intros [[<- <-]|[_ Hy]]; by eauto.
Qed.

End Rows.

(** ** Statements *)

(** A step that is sound where it starts, followed by one that always is. *)
Lemma sound_bind_at {E A B} (m : M E A) (k : A → M E B) w :
  sound w.(w_db) (m w).2.(w_db) → (∀ a, respects sound (k a)) →
  sound w.(w_db) ((m ≫= k) w).2.(w_db).
Proof.
  intros Hm Hk. unfold mbind, M_bind. destruct (m w) as [[a|e] w']; simpl in *; [|done].
  etrans; [exact Hm|apply Hk].
Qed.

Lemma sound_map_err_at {E E' A} (f : E → E') (m : M E A) w :
  sound w.(w_db) (m w).2.(w_db) → sound w.(w_db) (map_err f m w).2.(w_db).
Proof. intros Hm. unfold map_err. by destruct (m w) as [[a|e] w']. Qed.

Section Statements.
Context {EXT : Externals}.

Lemma sound_set_sessions w ss :
  master_evolves (master_of w.(w_db)) (master_of (set_sessions ss w.(w_db))) →
  sound w.(w_db) (set_sessions ss w.(w_db)).
Proof.
  apply (sound_master_tables w.(w_db) w.(w_db).(projects) ss w.(w_db).(master_cutovers)
    w.(w_db).(recovery_windows)).
Qed.

Lemma sound_set_cutovers w cs :
  master_evolves (master_of w.(w_db)) (master_of (set_master_cutovers cs w.(w_db))) →
  sound w.(w_db) (set_master_cutovers cs w.(w_db)).
Proof.
  apply (sound_master_tables w.(w_db) w.(w_db).(projects) w.(w_db).(sessions) cs
    w.(w_db).(recovery_windows)).
Qed.

Lemma sound_set_windows w ws :
  master_evolves (master_of w.(w_db)) (master_of (set_recovery_windows ws w.(w_db))) →
  sound w.(w_db) (set_recovery_windows ws w.(w_db)).
Proof.
  apply (sound_master_tables w.(w_db) w.(w_db).(projects) w.(w_db).(sessions)
    w.(w_db).(master_cutovers) ws).
Qed.

Lemma set_same_sessions db : set_sessions db.(sessions) db = db.
Proof. by destruct db. Qed.

(** The row the statement finds, for callers that computed the new values from
    what they read of it. *)
Lemma sound_update_session_at {E} w id guard f :
  (∀ s, w.(w_db).(sessions) !! id = Some s → guard s = true →
        session_evolves s (f s) ∧ (session_ok s → session_ok (f s))) →
  sound w.(w_db) ((update_session id guard f : M E nat) w).2.(w_db).
Proof.
  intros Hf. unfold update_session, update_row.
  destruct (w.(w_db).(sessions) !! id) as [s|] eqn:Hs; cycle 1.
  { cbn. by rw set_same_sessions. }
  destruct (guard s) eqn:Hg; [|cbn; by rw set_same_sessions].
  destruct (Hf s eq_refl Hg) as [Hev Hok]. apply sound_set_sessions.
  split; try reflexivity; [by eapply table_evolves_insert; [apply _| |]|].
  intros Hm. by apply (master_ok_set_session _ _ _ _ _ s); [| |apply Hok, (mo_session _ Hm id)|].
Qed.

Lemma sound_update_session {E} id guard f :
  (∀ s, guard s = true → session_evolves s (f s) ∧ (session_ok s → session_ok (f s))) →
  respects sound (update_session id guard f : M E nat).
Proof. intros Hf w. apply sound_update_session_at. intros s _. apply Hf. Qed.

Lemma sound_insert_project {E} id path :
  respects sound (insert_project_or_ignore id path : M E unit).
Proof.
  intros w. unfold insert_project_or_ignore. destruct (_ || _) eqn:Ht; [reflexivity|].
  apply orb_false_iff in Ht as [Hid%bool_decide_eq_false Hpath].
  apply eq_None_not_Some in Hid.
  set (ps := <[_ := _]> _).
  apply (sound_master_tables w.(w_db) ps w.(w_db).(sessions) w.(w_db).(master_cutovers)
    w.(w_db).(recovery_windows)).
  split; try reflexivity; [by apply insert_subseteq|].
  apply (master_ok_add_project _ _ _ _ (MkProject id path w.(w_now))); [done|].
  intros k y Hy Heq. simpl in Heq. apply not_true_iff_false in Hpath. apply Hpath, existsb_exists.
  exists y. split; [|by rw bool_decide_true]. by apply list_elem_of_In, elem_of_table_rows; exists k.
Qed.

Lemma sound_insert_session row : session_ok row → respects sound (insert_session_row row).
Proof.
  intros Hok w. unfold insert_session_row.
  destruct (sessions _ !! _) eqn:Hs; [reflexivity|].
  destruct (projects _ !! _) eqn:Hp; [|reflexivity]. apply sound_set_sessions.
  split; try reflexivity; [by eapply table_evolves_fresh; [apply _|]|].
  intros Hm. apply master_ok_add_session; by eauto.
Qed.

(** What [check_cutover] lets through. *)
Lemma check_cutover_ok x db :
  master_ok (master_of db) → check_cutover x db = None →
  x.(c_state) ∈ CUTOVER_STATES ∧
  ∀ k y, db.(master_cutovers) !! k = Some y → k ≠ x.(c_id) → cutover_active x = true →
    cutover_active y = true → y.(c_session_id) ≠ x.(c_session_id).
Proof.
  unfold check_cutover. intros Hm.
  destruct (x.(c_state) is_in CUTOVER_STATES) eqn:Hin; [|done]. simpl.
  destruct (cutover_active x && active_elsewhere x db) eqn:Hel; [done|]. intros _.
  split; [by apply bool_decide_eq_true in Hin|]. intros k y Hy Hne Hax Hay Heq. rw Hax /= in Hel.
  apply not_true_iff_false in Hel. apply Hel, existsb_exists. exists y.
  split; [by apply list_elem_of_In, elem_of_table_rows; exists k|].
  rw (mo_cutover_key _ Hm _ _ Hy) Hay (bool_decide_true (y.(c_session_id) = _)) //
    bool_decide_false //.
Qed.

Lemma sound_update_cutover id guard f :
  (∀ c, guard c = true → cutover_evolves c (f c) ∧
        ((f c).(c_state) ∈ CUTOVER_STATES → cutover_ok c → cutover_ok (f c))) →
  respects sound (update_cutover id guard f).
Proof.
  intros Hf w. unfold update_cutover.
  destruct (w.(w_db).(master_cutovers) !! id) as [c|] eqn:Hc; [|reflexivity].
  destruct (guard c) eqn:Hg; [|reflexivity]. destruct (Hf c Hg) as [Hev Hok].
  destruct (check_cutover (f c) w.(w_db)) eqn:Hch; [reflexivity|]. apply sound_set_cutovers.
  split; try reflexivity; [by eapply table_evolves_insert; [apply _| |]|]. intros Hm.
  destruct (check_cutover_ok _ _ Hm Hch) as [Hst Hun].
  assert (Hid : (f c).(c_id) = id) by (rw (cev_id _ _ Hev); by apply (mo_cutover_key _ Hm)).
  rw -{1}Hid. apply master_ok_put_cutover; [|by apply Hok, (mo_cutover _ Hm id)|exact Hun|done].
  rw (cev_session _ _ Hev). by apply (mo_cutover_session _ Hm id).
Qed.

Lemma sound_insert_cutover x :
  cutover_ok x → respects sound (insert_cutover_row x).
Proof.
  intros Hok w. unfold insert_cutover_row.
  destruct (check_cutover x w.(w_db)) as [[]|] eqn:Hch; try reflexivity.
  case_bool_decide as Hpk; [reflexivity|]. apply eq_None_not_Some in Hpk.
  destruct (sessions _ !! _) eqn:Hs; [|reflexivity]. apply sound_set_cutovers.
  split; try reflexivity; [by eapply table_evolves_fresh; [apply _|]|]. intros Hm.
  destruct (check_cutover_ok _ _ Hm Hch) as [_ Hun]. apply master_ok_put_cutover; by eauto.
Qed.

(** The row the statement finds, for callers that computed the new values from
    what they read of it. *)
Lemma sound_update_window_at w id guard f :
  (∀ r, w.(w_db).(recovery_windows) !! id = Some r → guard r = true →
        window_evolves r (f r) ∧
        ((f r).(m_phase) ∈ WINDOW_PHASES → window_ok r → window_ok (f r))) →
  sound w.(w_db) (update_window id guard f w).2.(w_db).
Proof.
  intros Hf. unfold update_window.
  destruct (w.(w_db).(recovery_windows) !! id) as [r|] eqn:Hr; [|reflexivity].
  destruct (guard r) eqn:Hg; [|reflexivity]. destruct (Hf r eq_refl Hg) as [Hev Hok].
  case_bool_decide as Hph; [|reflexivity]. apply sound_set_windows.
  split; try reflexivity; [by eapply table_evolves_insert; [apply _| |]|]. intros Hm.
  assert (Hid : (f r).(m_session_id) = id) by (rw (wev_session _ _ Hev); by apply (mo_window_key _ Hm)).
  rw -{1}Hid. apply master_ok_put_window; [|by apply Hok, (mo_window _ Hm id)|done].
  rw Hid. by apply (mo_window_session _ Hm id r).
Qed.

Lemma sound_update_window id guard f :
  (∀ r, guard r = true → window_evolves r (f r) ∧
        ((f r).(m_phase) ∈ WINDOW_PHASES → window_ok r → window_ok (f r))) →
  respects sound (update_window id guard f).
Proof. intros Hf w. apply sound_update_window_at. intros r _. apply Hf. Qed.

Lemma sound_insert_window r :
  (r.(m_phase) ∈ WINDOW_PHASES → window_ok r) → respects sound (insert_window_row r).
Proof.
  intros Hok w. unfold insert_window_row.
  destruct (r.(m_phase) is_in WINDOW_PHASES) eqn:Hph; [|reflexivity].
  apply bool_decide_eq_true in Hph. simpl.
  destruct (recovery_windows _ !! _) eqn:Hr; [reflexivity|].
  destruct (sessions _ !! _) eqn:Hs; [|reflexivity]. apply sound_set_windows.
  split; try reflexivity; [by eapply table_evolves_fresh; [apply _|]|]. intros Hm.
  apply master_ok_put_window; by eauto.
Qed.

End Statements.

(** ** Automation

    The side conditions of the writes: identities by computation, bounds by
    [lia], memberships of constants by evaluation, memberships that a guard
    gives by assumption. *)

Ltac solve_const_in :=
  lazymatch goal with
  | |- ?x ∈ ?l => apply (bool_decide_unpack (x ∈ l)); vm_compute; exact I
  | |- ?x ∈ ?l → False => apply (bool_decide_unpack (x ∉ l)); vm_compute; exact I
  end.

Ltac solve_master_row :=
  let r := fresh "r" in let Hg := fresh "Hg" in let Hok := fresh "Hok" in
  intros r Hg; split;
  [split; simpl; try done; try lia
  |intros; repeat match goal with
     | H : session_ok _ |- _ => destruct H
     | H : cutover_ok _ |- _ => destruct H
     | H : window_ok _ |- _ => destruct H end;
   split; simpl in *; try done; try lia; try solve_const_in].

#[export] Hint Extern 2 (respects sound (update_session _ _ _)) =>
  apply sound_update_session; solve_master_row : respects.
#[export] Hint Extern 2 (respects sound (update_cutover _ _ _)) =>
  apply sound_update_cutover; solve_master_row : respects.
#[export] Hint Extern 2 (respects sound (update_window _ _ _)) =>
  apply sound_update_window; solve_master_row : respects.
#[export] Hint Resolve sound_insert_project : respects.
