(* ===== verification/AgentGate.v ===== *)
(** * Agent states and their compare-and-set ([src/src/db/state_machine.rs], first part)

    [agents.state] is written under a compare-and-set on [state_version]: the
    version is read, the state checked against the states the caller allows,
    and the row updated only if the version is still the one read.  Each write
    bumps the version and appends one [state_change] event. *)
From S2P Require Import Prelude Json Schema Sql MasterTables JobGate Invariant.

(** ** State vocabulary *)

Definition STATE_SPAWNING : string := "SPAWNING".
Definition STATE_SPAWNING_INTERVENTION : string := "SPAWNING_INTERVENTION".
Definition STATE_IDLE : string := "IDLE".
Definition STATE_WAITING_FOR_ACK : string := "WAITING_FOR_ACK".
Definition STATE_BUSY : string := "BUSY".
Definition STATE_PROMPT_PENDING : string := "PROMPT_PENDING".
Definition STATE_STUCK : string := "STUCK".
Definition STATE_FAILED : string := "FAILED".
Definition STATE_CRASHED : string := "CRASHED".
Definition STATE_KILLED : string := "KILLED".
Definition STATE_UNKNOWN : string := "UNKNOWN".

Definition is_active_state (state : string) : bool :=
  state is_in [STATE_SPAWNING; STATE_WAITING_FOR_ACK; STATE_BUSY].

Definition is_waiting_for_ack (state : string) : bool := state == STATE_WAITING_FOR_ACK.

Section AgentGate.
Context {EXT : Externals}.

(** [SELECT ... FROM agents WHERE id = ?] *)
Definition query_agent_row {E} (agent_id : string) : M E (option Agent) :=
  gets (λ db, db.(agents) !! agent_id).

Definition notify_runtime_agent_changed {E} : M E unit := notify_runtime_changed AgentChanged.

(** ** The gate *)

Definition transit_agent_state_conn_inner (agent_id : string) (from_state_list : list string)
    (to_state : string) (reason : option string) (expected_version : option Z) (strict : bool) :
    M CcbdError bool :=
  current ← query_agent_row agent_id;
  match current with
  | None => if strict then throw (AgentNotFound agent_id) else mret false
  | Some current =>
  let previous_state := current.(a_state) in
  let state_version := current.(a_state_version) in
  let version_matches :=
    match expected_version with None => true | Some expected => expected =? state_version end in
  let from_matches :=
    (from_state_list == []) || (previous_state is_in from_state_list) in
  if negb version_matches || negb from_matches then
    if strict then throw (AgentWrongState previous_state) else mret false
  else
  now ← asks w_now;
  changes ← update_agent agent_id (λ a, a.(a_state_version) =? state_version)
              (λ a, bump_version now (set_a_state to_state a));
  if changes != 1%nat then
    if strict then throw (AgentWrongState previous_state) else mret false
  else
  insert_event_null "insert transit state_change" agent_id "state_change"
    (json_object [("from", JString previous_state); ("to", JString to_state);
                  ("reason", json_opt JString reason)]);;
  mret true
  end.

Definition transit_agent_state_sync (agent_id : string) (from_state_list : list string)
    (to_state : string) (reason : option string) : M CcbdError unit :=
  transaction (
    transit_agent_state_conn_inner agent_id from_state_list to_state reason None true;;
    mret (Commit tt)).

Definition transit_agent_state_conn_sync (agent_id : string) (from_state_list : list string)
    (to_state : string) (reason : option string) : M CcbdError unit :=
  transit_agent_state_conn_inner agent_id from_state_list to_state reason None true;;
  mret tt.

Definition mark_agent_waiting_for_ack_sync (agent_id : string) (expected_version : Z) :
    M CcbdError bool :=
  transaction (
    changed ← transit_agent_state_conn_inner agent_id [STATE_IDLE] STATE_WAITING_FOR_ACK
                (Some "ack_pending") (Some expected_version) false;
    mret (Commit changed)).

Definition mark_agent_prompt_pending_sync (agent_id reason : string) : M CcbdError nat :=
  transaction (
    current ← query_agent_row agent_id;
    match current with
    | None => throw (AgentNotFound agent_id)
    | Some current =>
    let previous_state := current.(a_state) in
    let state_version := current.(a_state_version) in
    let allowed := [STATE_IDLE; STATE_SPAWNING] in
    if negb (previous_state is_in allowed) then throw (AgentWrongState previous_state)
    else
    now ← asks w_now;
    changes ← update_agent agent_id
                (λ a, (a.(a_state) is_in ["IDLE"; "SPAWNING"]) &&
                      (a.(a_state_version) =? state_version))
                (λ a, bump_version now (set_a_state "PROMPT_PENDING" a));
    if changes == 1%nat then
      insert_event_null "insert prompt pending state_change" agent_id "state_change"
        (json_object [("from", JString previous_state); ("to", JString STATE_PROMPT_PENDING);
                      ("reason", JString reason)]);;
      mret (Commit changes)
    else mret (Rollback 0%nat)
    end).

Definition mark_agent_failed_from_intervention_sync (agent_id reason : string) :
    M CcbdError nat :=
  transaction (
    current ← query_agent_row agent_id;
    match current with
    | None => mret (Rollback 0%nat)
    | Some current =>
    let previous_state := current.(a_state) in
    let state_version := current.(a_state_version) in
    if previous_state != STATE_SPAWNING_INTERVENTION then mret (Rollback 0%nat)
    else
    now ← asks w_now;
    changes ← update_agent agent_id
                (λ a, (a.(a_state) == STATE_SPAWNING_INTERVENTION) &&
                      (a.(a_state_version) =? state_version))
                (λ a, bump_version now (set_a_error_code (Some reason) (set_a_state STATE_FAILED a)));
    when (changes == 1%nat) (
      insert_event_null "insert failed state_change" agent_id "state_change"
        (json_object [("from", JString previous_state); ("to", JString STATE_FAILED);
                      ("reason", JString reason)]);;
      mret tt);;
    mret (Commit changes)
    end).

(** ** Asynchronous entry points: the same, then a notification *)

Definition mark_agent_failed_from_intervention (agent_id reason : string) : M CcbdError nat :=
  changes ← mark_agent_failed_from_intervention_sync agent_id reason;
  when (bool_decide (0 < changes)%nat) notify_runtime_agent_changed;;
  mret changes.

Definition mark_agent_waiting_for_ack (agent_id : string) (expected_version : Z) :
    M CcbdError bool :=
  result ← mark_agent_waiting_for_ack_sync agent_id expected_version;
  when result notify_runtime_agent_changed;;
  mret result.

Definition mark_agent_prompt_pending (agent_id reason : string) : M CcbdError nat :=
  changes ← mark_agent_prompt_pending_sync agent_id reason;
  when (bool_decide (0 < changes)%nat) notify_runtime_agent_changed;;
  mret changes.

Definition transit_agent_state (agent_id : string) (from_state_list : list string)
    (to_state : string) (reason : option string) : M CcbdError unit :=
  transit_agent_state_sync agent_id from_state_list to_state reason;;
  notify_runtime_agent_changed.

End AgentGate.

(** ** The contract *)

Section AgentContract.
Context {EXT : Externals}.

(** The tables after an event is appended. *)
Definition post_event (now : Z) (agent_id event_type : string) (payload : Value) (db : Db) : Db :=
  let seq := db.(event_seq) + 1 in
  set_event_seq seq
    (set_events (db.(events) ++ [MkEvent seq agent_id None event_type (json_to_string payload) now])
       db).

(** The tables after a state write: the row [f] makes, and its event. *)
Definition moved_db (now : Z) (agent_id : string) (a' : Agent) (payload : Value) (db : Db) : Db :=
  post_event now agent_id "state_change" payload (set_agents (<[agent_id := a']> db.(agents)) db).

(** The states the gate lets the caller leave, under the version it expects. *)
Definition transit_allowed (a : Agent) (from_state_list : list string)
    (expected_version : option Z) : bool :=
  match expected_version with None => true | Some v => v =? a.(a_state_version) end &&
  ((from_state_list == []) || (a.(a_state) is_in from_state_list)).

Lemma insert_event_null_run w ctx agent_id ty payload :
  is_Some (w.(w_db).(agents) !! agent_id) →
  insert_event_null ctx agent_id ty payload w =
    (Ok (w.(w_db).(event_seq) + 1), set_db (post_event w.(w_now) agent_id ty payload w.(w_db)) w).
Proof.
  intros [a Ha]. unfold insert_event_null, insert_event_row, map_err. simpl. by rw Ha.
Qed.

Lemma update_agent_hit {E} w id guard f a :
  w.(w_db).(agents) !! id = Some a → guard a = true →
  (update_agent id guard f : M E nat) w =
    (Ok 1%nat, set_db (set_agents (<[id := f a]> w.(w_db).(agents)) w.(w_db)) w).
Proof. intros Ha Hg. unfold update_agent. by rw (update_row_hit _ _ _ _ _ Ha Hg). Qed.

Lemma update_agent_miss {E} w id guard f a :
  w.(w_db).(agents) !! id = Some a → guard a = false →
  (update_agent id guard f : M E nat) w = (Ok 0%nat, w).
Proof.
  intros Ha Hg. unfold update_agent. rw (update_row_miss id guard f).
  - intros r Hr. by simplify_eq.
  - by destruct w as [[]].
Qed.

(** The gate in every case: refused with the world as it was, or the row and
    the event written together. *)
Lemma transit_agent_run agent_id from to reason ver strict w :
  transit_agent_state_conn_inner agent_id from to reason ver strict w =
  match w.(w_db).(agents) !! agent_id with
  | None => (if strict then Err (AgentNotFound agent_id) else Ok false, w)
  | Some a =>
      if transit_allowed a from ver then
        (Ok true,
         set_db (moved_db w.(w_now) agent_id (bump_version w.(w_now) (set_a_state to a))
                   (json_object [("from", JString a.(a_state)); ("to", JString to);
                                 ("reason", json_opt JString reason)]) w.(w_db)) w)
      else (if strict then Err (AgentWrongState a.(a_state)) else Ok false, w)
  end.
Proof.
  unfold transit_agent_state_conn_inner, query_agent_row. run_m.
  destruct (agents (w_db w) !! agent_id) as [a|] eqn:Ha; [|by destruct strict].
  rw -negb_andb. fold (transit_allowed a from ver).
  destruct (transit_allowed a from ver); simpl; [|by destruct strict].
  rw (update_agent_hit _ _ _ _ _ Ha) /=; [by rw Z.eqb_refl|].
  rw insert_event_null_run /=; [by rw lookup_insert_eq|done].
Qed.

End AgentContract.

Section MovedDb.
Context {EXT : Externals}.

Lemma moved_db_agents now id a' payload db :
  (moved_db now id a' payload db).(agents) = <[id := a']> db.(agents).
Proof. done. Qed.
Lemma moved_db_jobs now id a' payload db : (moved_db now id a' payload db).(jobs) = db.(jobs).
Proof. done. Qed.
Lemma moved_db_event_seq now id a' payload db :
  (moved_db now id a' payload db).(event_seq) = db.(event_seq) + 1.
Proof. done. Qed.
Lemma post_event_agents now id ty payload db :
  (post_event now id ty payload db).(agents) = db.(agents).
Proof. done. Qed.
Lemma post_event_jobs now id ty payload db : (post_event now id ty payload db).(jobs) = db.(jobs).
Proof. done. Qed.
Lemma post_event_seq now id ty payload db :
  (post_event now id ty payload db).(event_seq) = db.(event_seq) + 1.
Proof. done. Qed.

End MovedDb.
#[global] Arguments moved_db : simpl never.
#[global] Arguments post_event : simpl never.

(** ** Preservation *)

Section AgentGateSound.
Context {EXT : Externals}.

Lemma sound_transit_agent agent_id from to reason ver strict :
  respects sound (transit_agent_state_conn_inner agent_id from to reason ver strict).
Proof. unfold transit_agent_state_conn_inner, query_agent_row. solve_respects. Qed.
#[local] Hint Resolve sound_transit_agent : respects.

Lemma sound_notify_agent {E} : respects sound (notify_runtime_agent_changed : M E unit).
Proof. unfold notify_runtime_agent_changed, notify_runtime_changed. solve_respects. Qed.
#[local] Hint Resolve sound_notify_agent : respects.

Lemma sound_transit_agent_conn agent_id from to reason :
  respects sound (transit_agent_state_conn_sync agent_id from to reason).
Proof. unfold transit_agent_state_conn_sync. solve_respects. Qed.

Lemma sound_transit_agent_state agent_id from to reason :
  respects sound (transit_agent_state agent_id from to reason).
Proof. unfold transit_agent_state, transit_agent_state_sync. solve_respects. Qed.

Lemma sound_waiting_for_ack agent_id ver :
  respects sound (mark_agent_waiting_for_ack agent_id ver).
Proof. unfold mark_agent_waiting_for_ack, mark_agent_waiting_for_ack_sync. solve_respects. Qed.

Lemma sound_prompt_pending agent_id reason :
  respects sound (mark_agent_prompt_pending agent_id reason).
Proof.
  unfold mark_agent_prompt_pending, mark_agent_prompt_pending_sync, query_agent_row.
  solve_respects.
Qed.

Lemma sound_failed_from_intervention agent_id reason :
  respects sound (mark_agent_failed_from_intervention agent_id reason).
Proof.
  unfold mark_agent_failed_from_intervention, mark_agent_failed_from_intervention_sync,
    query_agent_row. solve_respects.
Qed.

End AgentGateSound.
#[export] Hint Resolve sound_transit_agent sound_notify_agent sound_transit_agent_conn
  sound_transit_agent_state sound_waiting_for_ack sound_prompt_pending
  sound_failed_from_intervention : respects.

(** ** The properties *)

Section AgentGateProperties.
Context {EXT : Externals}.

(** The state transition entry point in every case: an unknown agent and an
    agent outside the allowed states are refused with their own errors and
    nothing changes; otherwise the new state, the bumped version, exactly one
    state_change event naming both states, and one notification. *)
Theorem transit_agent_state_functional agent_id from to reason w :
  transit_agent_state agent_id from to reason w =
  match w.(w_db).(agents) !! agent_id with
  | None => (Err (AgentNotFound agent_id), w)
  | Some a =>
      if (from == []) || (a.(a_state) is_in from) then
        (Ok tt, add_effect (SendRuntimeUpdate AgentChanged)
          (set_db (moved_db w.(w_now) agent_id (bump_version w.(w_now) (set_a_state to a))
                     (json_object [("from", JString a.(a_state)); ("to", JString to);
                                   ("reason", json_opt JString reason)]) w.(w_db)) w))
      else (Err (AgentWrongState a.(a_state)), w)
  end.
Proof.
  unfold transit_agent_state, transit_agent_state_sync, transaction, mbind, M_bind.
  rw transit_agent_run. destruct (agents (w_db w) !! agent_id) as [a|]; [|by destruct w].
  unfold transit_allowed. simpl. by destruct (_ || _); [|destruct w].
Qed.

Lemma ack_refused w agent_id version a :
  w.(w_db).(agents) !! agent_id = Some a → a.(a_state_version) ≠ version →
  mark_agent_waiting_for_ack_sync agent_id version w = (Ok false, w).
Proof.
  intros Ha Hne. unfold mark_agent_waiting_for_ack_sync, transaction, mbind, M_bind.
  rw transit_agent_run Ha. unfold transit_allowed. rw (proj2 (Z.eqb_neq _ _)); [lia|].
  by destruct w.
Qed.

(** An acknowledgement under a version that was already used loses.  When one
    caller moved the agent from IDLE to WAITING_FOR_ACK at a version, every
    later call with that version is refused and writes nothing, whatever was
    done to the tables in between (even if the agent is idle again). *)
Theorem stale_ack_version_loses agent_id version w w1 w2 :
  mark_agent_waiting_for_ack_sync agent_id version w = (Ok true, w1) →
  evolves w1.(w_db) w2.(w_db) →
  mark_agent_waiting_for_ack_sync agent_id version w2 = (Ok false, w2).
Proof.
  unfold mark_agent_waiting_for_ack_sync at 1, transaction, mbind, M_bind.
  rw transit_agent_run. intros Hrun Hev.
  destruct (agents (w_db w) !! agent_id) as [a|] eqn:Ha; [|by destruct w].
  destruct (transit_allowed a _ _) eqn:Hall; [|by destruct w].
  injection Hrun as <-. apply andb_true_iff in Hall as [Hv%Z.eqb_eq _].
  destruct (ev_agents _ _ Hev agent_id (bump_version w.(w_now) (set_a_state STATE_WAITING_FOR_ACK a)))
    as (a2 & Ha2 & Hevo); [apply lookup_insert_eq|].
  pose proof (aev_version _ _ Hevo) as Hle. simpl in Hle. apply (ack_refused _ _ _ _ Ha2). lia.
Qed.

(** Only an idle or a spawning agent can be put to wait for a prompt; any other
    state is refused with the state named, an unknown agent with its own error,
    and a refused call writes nothing. *)
Theorem prompt_pending_functional agent_id reason w :
  mark_agent_prompt_pending_sync agent_id reason w =
  match w.(w_db).(agents) !! agent_id with
  | None => (Err (AgentNotFound agent_id), w)
  | Some a =>
      if a.(a_state) is_in [STATE_IDLE; STATE_SPAWNING] then
        (Ok 1%nat,
         set_db (moved_db w.(w_now) agent_id
                   (bump_version w.(w_now) (set_a_state STATE_PROMPT_PENDING a))
                   (json_object [("from", JString a.(a_state)); ("to", JString STATE_PROMPT_PENDING);
                                 ("reason", JString reason)]) w.(w_db)) w)
      else (Err (AgentWrongState a.(a_state)), w)
  end.
Proof.
  unfold mark_agent_prompt_pending_sync, query_agent_row.
  destruct (agents (w_db w) !! agent_id) as [a|] eqn:Ha; cycle 1.
  { unfold transaction. run_m. rw Ha. by destruct w. }
  destruct (a.(a_state) is_in [STATE_IDLE; STATE_SPAWNING]) eqn:Hs; cycle 1.
  { unfold transaction. run_m. rw Ha Hs. by destruct w. }
  apply transaction_ok. step_pure. rw Ha Hs /=. step_pure.
  erewrite bind_ok; [cbv beta|apply (update_agent_hit _ _ _ _ a); [done|]].
  2:{ by rw Hs Z.eqb_refl. }
  simpl. erewrite bind_ok; [cbv beta|apply insert_event_null_run; by rw /= lookup_insert_eq].
  by rw set_db_twice ret_run.
Qed.

End AgentGateProperties.
