(* ===== verification/Text.v ===== *)
(** * Text: the [str] operations the source uses

    Rust strings are UTF-8.  A string is its bytes; [chars] cuts it into
    characters, each the substring of its one to four bytes, so that
    [len_utf8] is a length and [String::from_iter] is concatenation. *)
From S2P Require Import Prelude.
From Stdlib Require Import Ascii.

Definition byte_str (n : nat) : string := String (ascii_of_nat n) EmptyString.
Definition bytes_str (l : list nat) : string := foldr (λ n s, String (ascii_of_nat n) s) "" l.

(** The number of continuation bytes a lead byte announces. *)
Definition utf8_extra (b : ascii) : nat :=
  let n := nat_of_ascii b in
  if bool_decide (n < 192)%nat then 0%nat
  else if bool_decide (n < 224)%nat then 1%nat
  else if bool_decide (n < 240)%nat then 2%nat
  else 3%nat.

(** [acc] holds the bytes of the current character, [need] how many are missing. *)
Fixpoint chars_go (need : nat) (acc : string) (s : string) : list string :=
  match s with
  | EmptyString => match acc with EmptyString => [] | _ => [acc] end
  | String b s' =>
      match need with
      | O =>
          match utf8_extra b with
          | O => String b "" :: chars_go 0 "" s'
          | S n => chars_go (S n) (String b "") s'
          end
      | S O => (acc +:+ String b "") :: chars_go 0 "" s'
      | S (S n) => chars_go (S n) (acc +:+ String b "") s'
      end
  end.

(** [s.chars()] *)
Definition chars (s : string) : list string := chars_go 0 "" s.

(** [chars.collect::<String>()] *)
Definition concat_str (l : list string) : string := foldr String.app "" l.

(** [char::is_whitespace] (Unicode [White_Space]). *)
Definition whitespace_chars : list string :=
  map byte_str [9; 10; 11; 12; 13; 32]%nat ++
  [bytes_str [194; 133]; bytes_str [194; 160]; bytes_str [225; 154; 128]]%nat ++
  map (λ b, bytes_str [226; 128; b]%nat)
    [128; 129; 130; 131; 132; 133; 134; 135; 136; 137; 138; 168; 169; 175]%nat ++
  [bytes_str [226; 129; 159]; bytes_str [227; 128; 128]]%nat.

Definition is_whitespace (c : string) : bool := c is_in whitespace_chars.

Fixpoint drop_ws (l : list string) : list string :=
  match l with
  | [] => []
  | c :: l' => if is_whitespace c then drop_ws l' else l
  end.

(** [s.trim()] *)
Definition trim (s : string) : string :=
  concat_str (reverse (drop_ws (reverse (drop_ws (chars s))))).

(** [s.find(pat)], a byte offset. *)
Definition find (s pat : string) : option nat := String.index 0 pat s.
Definition contains (s pat : string) : bool := bool_decide (is_Some (find s pat)).
Definition starts_with (s pat : string) : bool := String.prefix pat s.

(** [&s[n..]] and [&s[..n]] *)
Definition str_drop (n : nat) (s : string) : string := String.substring n (String.length s - n) s.
Definition str_take (n : nat) (s : string) : string := String.substring 0 n s.

Definition strip_prefix (s pat : string) : option string :=
  if starts_with s pat then Some (str_drop (String.length pat) s) else None.

(** [s.lines()]: split at ["\n"], drop one trailing ["\r"] of each line, and no
    last line for an input that ends in a newline. *)
Definition strip_cr (line : list string) : list string :=
  match reverse line with
  | c :: l => if c == byte_str 13 then reverse l else line
  | [] => line
  end.

Fixpoint lines_go (cur : list string) (l : list string) : list string :=
  match l with
  | [] => match cur with [] => [] | _ => [concat_str (reverse cur)] end
  | c :: l' =>
      if c == byte_str 10 then concat_str (strip_cr (reverse cur)) :: lines_go [] l'
      else lines_go (c :: cur) l'
  end.

Definition lines (s : string) : list string := lines_go [] (chars s).

(** [lines.join(sep)] *)
Fixpoint join (sep : string) (l : list string) : string :=
  match l with
  | [] => ""
  | [x] => x
  | x :: l' => x +:+ sep +:+ join sep l'
  end.

Definition ascii_lower (b : ascii) : ascii :=
  let n := nat_of_ascii b in
  if bool_decide (65 ≤ n ∧ n ≤ 90)%nat then ascii_of_nat (n + 32) else b.
Fixpoint to_ascii_lowercase (s : string) : string :=
  match s with EmptyString => "" | String b s' => String (ascii_lower b) (to_ascii_lowercase s') end.

Definition eq_ignore_ascii_case (a b : string) : bool :=
  to_ascii_lowercase a == to_ascii_lowercase b.

(** [s.to_lowercase()].  The source only searches the result for phrases of
    ASCII characters and signs without case.  Besides ["A"-"Z"], two characters have an ASCII letter in their
    lower case, the Kelvin sign and the dotted capital I; the others are left
    as they are. *)
Definition char_to_lowercase (c : string) : string :=
  if c == bytes_str [226; 132; 170]%nat then "k"
  else if c == bytes_str [196; 176]%nat then bytes_str [105; 204; 135]%nat
  else to_ascii_lowercase c.
Definition to_lowercase (s : string) : string := concat_str (char_to_lowercase <$> chars s).

(** Decimal digits, for [format!("{n}")] of an unsigned integer. *)
Definition digit_char (d : Z) : string := byte_str (48 + Z.to_nat d)%nat.
Fixpoint decimal_go (fuel : nat) (n : Z) (acc : string) : string :=
  match fuel with
  | O => acc
  | S fuel' =>
      let acc' := digit_char (n mod 10) +:+ acc in
      if n <? 10 then acc' else decimal_go fuel' (n / 10) acc'
  end.
(** Twenty digits cover every [u64]. *)
Definition decimal (n : Z) : string := decimal_go 20 n "".

Definition digit_of (b : ascii) : option Z :=
  let n := Z.of_nat (nat_of_ascii b) in
  if bool_decide (48 ≤ n ≤ 57) then Some (n - 48) else None.
Fixpoint parse_digits (acc : Z) (s : string) : option Z :=
  match s with
  | EmptyString => Some acc
  | String b s' => match digit_of b with Some d => parse_digits (acc * 10 + d) s' | None => None end
  end.

(** [s.parse()] at an unsigned type of [bits] bits: an optional ["+"], at least
    one digit, no overflow. *)
Definition parse_unsigned (bits : Z) (s : string) : option Z :=
  let body := match s with String "+" s' => s' | _ => s end in
  match body with
  | EmptyString => None
  | _ => match parse_digits 0 body with
         | Some n => if n <? 2 ^ bits then Some n else None
         | None => None
         end
  end.
Definition parse_u16 : string → option Z := parse_unsigned 16.
Definition parse_u32 : string → option Z := parse_unsigned 32.
Definition parse_usize : string → option Z := parse_unsigned 64.

(** [s.trim_start()], [s.trim_end()] and [s.ends_with(pat)] *)
Definition trim_start (s : string) : string := concat_str (drop_ws (chars s)).
Definition trim_end (s : string) : string := concat_str (reverse (drop_ws (reverse (chars s)))).
Definition ends_with (s pat : string) : bool :=
  bool_decide (String.length pat ≤ String.length s)%nat &&
  (str_drop (String.length s - String.length pat) s == pat).

(** [s.split(c)], [s.split_once(c)] and [s.rsplit_once(c)] for an ASCII [c] *)
Fixpoint split_on (c : ascii) (s : string) : list string :=
  match s with
  | EmptyString => [""]
  | String a s' =>
      if bool_decide (a = c) then "" :: split_on c s'
      else match split_on c s' with
           | p :: ps => String a p :: ps
           | [] => [String a ""]
           end
  end.
Fixpoint split_once (c : ascii) (s : string) : option (string * string) :=
  match s with
  | EmptyString => None
  | String a s' =>
      if bool_decide (a = c) then Some ("", s')
      else '(l, r) ← split_once c s'; Some (String a l, r)
  end.
Fixpoint rsplit_once (c : ascii) (s : string) : option (string * string) :=
  match s with
  | EmptyString => None
  | String a s' =>
      match rsplit_once c s' with
      | Some (l, r) => Some (String a l, r)
      | None => if bool_decide (a = c) then Some ("", s') else None
      end
  end.

(** [s.split_whitespace()] *)
Fixpoint words_go (cur : list string) (l : list string) : list string :=
  match l with
  | [] => match cur with [] => [] | _ => [concat_str (reverse cur)] end
  | c :: l' =>
      if is_whitespace c then
        match cur with [] => words_go [] l' | _ => concat_str (reverse cur) :: words_go [] l' end
      else words_go (c :: cur) l'
  end.
Definition split_whitespace (s : string) : list string := words_go [] (chars s).

(** SQL [s LIKE pattern]: ["%"] is any text, ["_"] any one character, and ASCII
    letters match in either case. *)
Fixpoint like_chars (pattern s : list string) {struct pattern} : bool :=
  match pattern with
  | [] => s == []
  | c :: p =>
      if c == "%" then
        (fix any (s : list string) : bool :=
           like_chars p s || match s with [] => false | _ :: s' => any s' end) s
      else match s with
      | [] => false
      | d :: s' => ((c == "_") || eq_ignore_ascii_case c d) && like_chars p s'
      end
  end.
Definition like (s pattern : string) : bool := like_chars (chars pattern) (chars s).

(** ** Facts *)

Lemma string_app_assoc (a b c : string) : (a +:+ b) +:+ c = a +:+ (b +:+ c).
Proof. induction a; [done|]. unfold String.app in *. simpl. by f_equal. Qed.

Lemma string_app_nil_r (a : string) : a +:+ "" = a.
Proof. induction a; [done|]. unfold String.app in *. simpl. by f_equal. Qed.

Lemma str_length_app (a b : string) :
  String.length (a +:+ b) = (String.length a + String.length b)%nat.
Proof. induction a as [|c a IH]; simpl; [done|]. by rw IH. Qed.

Lemma concat_str_app a b : concat_str (a ++ b) = concat_str a +:+ concat_str b.
Proof. induction a as [|x a IH]; [done|]. simpl. by rw IH string_app_assoc. Qed.

Lemma concat_chars_go need acc s :
  (need = 0%nat → acc = "") → concat_str (chars_go need acc s) = acc +:+ s.
Proof.
  revert need acc. induction s as [|b s IH]; intros need acc Hacc; simpl.
  - destruct acc; simpl; by rw string_app_nil_r.
  - destruct need as [|[|n]]; simpl.
    + rw Hacc //. destruct (utf8_extra b); simpl; by rw IH.
    + rw IH //. by rw string_app_assoc.
    + rw IH //. by rw string_app_assoc.
Qed.

(** Cutting into characters loses nothing. *)
Lemma concat_chars s : concat_str (chars s) = s.
Proof. by apply concat_chars_go. Qed.

(** ** Decimal round trip *)

Lemma digit_of_char d : 0 ≤ d < 10 → digit_of (ascii_of_nat (48 + Z.to_nat d)) = Some d.
Proof.
  intros Hd. unfold digit_of. rw nat_ascii_embedding; [lia|].
  rw bool_decide_true; [lia|]. f_equal. lia.
Qed.

Lemma parse_digit_char a d s :
  0 ≤ d < 10 → parse_digits a (digit_char d +:+ s) = parse_digits (a * 10 + d) s.
Proof.
  intros Hd. change (digit_char d +:+ s) with (String (ascii_of_nat (48 + Z.to_nat d)) s).
  cbn [parse_digits]. by rw digit_of_char.
Qed.

(** The digits of [n], then [acc]: read back from [a] they leave
    [a * 10 ^ k + n] before [acc]. *)
Lemma parse_decimal_go fuel n acc :
  0 ≤ n < 10 ^ Z.of_nat fuel → (0 < fuel)%nat →
  ∃ b s k, decimal_go fuel n acc = String b s ∧ digit_of b ≠ None ∧
    ∀ a, parse_digits a (decimal_go fuel n acc) = parse_digits (a * 10 ^ k + n) acc ∧ 0 ≤ k.
Proof.
  revert n acc. induction fuel as [|fuel IH]; intros n acc Hn Hf; [lia|].
  assert (Hmod : 0 ≤ n mod 10 < 10) by (apply Z.mod_pos_bound; lia).
  cbn [decimal_go]. destruct (n <? 10) eqn:Hlt.
  - eexists _, _, 1. split; [reflexivity|].
    rw digit_of_char //. split; [done|]. intros a. rw parse_digit_char //.
    split; [|lia]. f_equal. rw Z.mod_small; lia.
  - assert (Hq : 0 ≤ n / 10 < 10 ^ Z.of_nat fuel).
    { split; [apply Z.div_pos; lia|]. apply Z.div_lt_upper_bound; [lia|].
      replace (Z.of_nat (S fuel)) with (Z.of_nat fuel + 1) in Hn by lia.
      rw Z.pow_add_r in Hn; lia. }
    assert (Hf' : (0 < fuel)%nat).
    { destruct fuel; [|lia]. simpl in Hq. pose proof (Z.div_mod n 10). lia. }
    destruct (IH (n / 10) (digit_char (n mod 10) +:+ acc) Hq Hf') as (b & s & k & Hbs & Hd & Hp).
    exists b, s, (k + 1). split; [done|split; [done|]]. intros a.
    destruct (Hp a) as [-> Hk]. split; [|lia]. rw parse_digit_char //.
    f_equal. rw Z.pow_add_r; [lia..|]. pose proof (Z.div_mod n 10). lia.
Qed.

Lemma parse_u32_decimal n : 0 ≤ n < 2 ^ 32 → parse_u32 (decimal n) = Some n.
Proof.
  intros Hn. unfold decimal.
  destruct (parse_decimal_go 20 n "") as (b & s & k & Hbs & Hd & Hp);
    [change (10 ^ Z.of_nat 20) with 100000000000000000000; lia|lia|].
  specialize (Hp 0) as [Hp _]. unfold parse_u32, parse_unsigned.
  assert (Hbody : match decimal_go 20 n "" with String "+" s' => s' | _ => decimal_go 20 n "" end
                  = decimal_go 20 n "").
  { rw Hbs. destruct b as [[] [] [] [] [] [] [] []]; try done. }
  rw Hbody Hbs. rw -Hbs Hp. cbn [parse_digits]. rw Z.mul_0_l Z.add_0_l.
  by rw (proj2 (Z.ltb_lt n (2 ^ 32))); [apply Hn|].
Qed.

(** ** Prefixes *)

Lemma substring_full (s : string) : String.substring 0 (String.length s) s = s.
Proof. induction s as [|c s IH]; simpl; [done|]. by rw IH. Qed.

Lemma str_drop_app (a b : string) : str_drop (String.length a) (a +:+ b) = b.
Proof.
  unfold str_drop. induction a as [|c a IH].
  - simpl. rw Nat.sub_0_r. apply substring_full.
  - exact IH.
Qed.

Lemma starts_with_app (a b : string) : starts_with (a +:+ b) a = true.
Proof.
  unfold starts_with. induction a as [|c a IH]; [by destruct b|].
  change (String c a +:+ b) with (String c (a +:+ b)). simpl.
  destruct (Ascii.ascii_dec c c); [done|congruence].
Qed.

Lemma strip_prefix_app (a b : string) : strip_prefix (a +:+ b) a = Some b.
Proof. unfold strip_prefix. by rw starts_with_app str_drop_app. Qed.

Lemma starts_with_inv (s pat : string) : starts_with s pat = true → ∃ t, s = pat +:+ t.
Proof.
  unfold starts_with. revert s. induction pat as [|c pat IH]; intros s; [by exists s|].
  destruct s as [|a s]; simpl; [done|]. destruct (ascii_dec c a) as [->|]; [|done].
  intros [t ->]%IH. by exists t.
Qed.

Lemma strip_prefix_inv (s pat r : string) : strip_prefix s pat = Some r → s = pat +:+ r.
Proof.
  unfold strip_prefix. destruct (starts_with s pat) eqn:Hs; [|done].
  apply starts_with_inv in Hs as [t ->]. rw str_drop_app. by intros [= ->].
Qed.

Lemma rsplit_once_inv c (s l r : string) : rsplit_once c s = Some (l, r) → s = l +:+ String c r.
Proof.
  revert l r. induction s as [|a s IH]; intros l r; simpl; [done|].
  destruct (rsplit_once c s) as [[l' r']|].
  - intros [= <- <-]. by rw {1}(IH l' r' eq_refl).
  - case_bool_decide as Ha; [|done]. intros [= <- <-]. by subst a.
Qed.

(** ** Substrings *)

Lemma index_app_mid (a b c : string) : is_Some (String.index 0 b (a +:+ b +:+ c)).
Proof.
  induction a as [|x a IH].
  - change ("" +:+ b +:+ c) with (b +:+ c).
    pose proof (starts_with_app b c) as Hp. unfold starts_with in Hp.
    destruct (b +:+ c) as [|y t] eqn:Hbc; cbn [String.index].
    + by destruct b.
    + rw Hp. eauto.
  - change (String x a +:+ b +:+ c) with (String x (a +:+ b +:+ c)). cbn [String.index].
    destruct (String.prefix b (String x (a +:+ b +:+ c))); [eauto|].
    destruct IH as [n ->]. eauto.
Qed.

Lemma contains_mid (a b c : string) : contains (a +:+ b +:+ c) b = true.
Proof. unfold contains, find. apply bool_decide_eq_true, index_app_mid. Qed.

Lemma contains_suffix (a b : string) : contains (a +:+ b) b = true.
Proof. rw -{1}(string_app_nil_r b). apply contains_mid. Qed.
