(* ===== verification/Base64.v ===== *)
(** * Bytes, UTF-8 and base64url ([src/src/claude_gateway.rs])

    The gateway writes its own unpadded base64url: an encoder over chunks of
    three bytes and a decoder that shifts six bits at a time through a [u32].
    A byte string is the list of its bytes, each a [u8] as a [Z]. *)
From S2P Require Import Prelude Schema.
From Stdlib Require Import Ascii.

Abbreviation Bytes := (list Z).

Definition is_u8 (b : Z) : Prop := 0 ≤ b < 256.

(** [s.as_bytes()] and the string of some bytes *)
Definition byte_of (a : ascii) : Z := Z.of_nat (nat_of_ascii a).
Definition ascii_byte (b : Z) : ascii := ascii_of_nat (Z.to_nat b).
Fixpoint as_bytes (s : string) : Bytes :=
  match s with EmptyString => [] | String a s' => byte_of a :: as_bytes s' end.
Fixpoint of_bytes (l : Bytes) : string :=
  match l with [] => "" | b :: l' => String (ascii_byte b) (of_bytes l') end.

(** [std::str::from_utf8]: the well-formed byte sequences of the Unicode
    standard (no overlong forms, no surrogates, nothing above U+10FFFF). *)
Definition between (lo hi b : Z) : bool := (lo <=? b) && (b <=? hi).
Definition continuation : Z → bool := between 128 191.
Fixpoint valid_utf8 (l : Bytes) : bool :=
  match l with
  | [] => true
  | b0 :: l0 =>
      if between 0 127 b0 then valid_utf8 l0
      else match l0 with
      | [] => false
      | b1 :: l1 =>
          if between 194 223 b0 then continuation b1 && valid_utf8 l1
          else match l1 with
          | [] => false
          | b2 :: l2 =>
              if between 224 239 b0 then
                between (if b0 =? 224 then 160 else 128) (if b0 =? 237 then 159 else 191) b1 &&
                continuation b2 && valid_utf8 l2
              else match l2 with
              | [] => false
              | b3 :: l3 =>
                  between 240 244 b0 &&
                  between (if b0 =? 240 then 144 else 128) (if b0 =? 244 then 143 else 191) b1 &&
                  continuation b2 && continuation b3 && valid_utf8 l3
              end
          end
      end
  end.

(** [x << k] on [u32]: the bits shifted out are lost. *)
Definition shl32 (x k : Z) : Z := Z.shiftl x k mod 2 ^ 32.

(** ** Encoding *)

Definition TABLE : Bytes :=
  as_bytes "ABCDEFGHIJKLMNOPQRSTUVWXYZabcdefghijklmnopqrstuvwxyz0123456789-_".

(** [TABLE\[i as usize\]]; the callers' indices are below 64. *)
Definition table (i : Z) : Z := default 0 (TABLE !! Z.to_nat i).

Definition encode_chunk (chunk : Bytes) : Bytes :=
  let b0 := default 0 (chunk !! 0%nat) in
  let b1 := default 0 (chunk !! 1%nat) in
  let b2 := default 0 (chunk !! 2%nat) in
  let n := Z.lor (Z.lor (shl32 b0 16) (shl32 b1 8)) b2 in
  [table (Z.land (Z.shiftr n 18) 63); table (Z.land (Z.shiftr n 12) 63)] ++
  (if bool_decide (1 < length chunk)%nat then [table (Z.land (Z.shiftr n 6) 63)] else []) ++
  (if bool_decide (2 < length chunk)%nat then [table (Z.land n 63)] else []).

(** [input.chunks(3)] *)
Fixpoint chunks3 (input : Bytes) : list Bytes :=
  match input with
  | [] => []
  | [b0] => [[b0]]
  | [b0; b1] => [[b0; b1]]
  | b0 :: b1 :: b2 :: rest => [b0; b1; b2] :: chunks3 rest
  end.

Definition base64url_encode (input : Bytes) : string :=
  of_bytes (concat (encode_chunk <$> chunks3 input)).

(** ** Decoding *)

Definition sextet (byte : Z) : option Z :=
  if bool_decide (65 ≤ byte ≤ 90) then Some (byte - 65)
  else if bool_decide (97 ≤ byte ≤ 122) then Some (byte - 97 + 26)
  else if bool_decide (48 ≤ byte ≤ 57) then Some (byte - 48 + 52)
  else if byte =? 45 then Some 62
  else if byte =? 95 then Some 63
  else None.

Definition low_bits_mask (bit_count : Z) : Z :=
  if bit_count =? 0 then 0 else shl32 1 bit_count - 1.

(** The loop, with its two accumulators; [Err byte] is
    ["invalid base64url byte {byte}"]. *)
Fixpoint decode_loop (bits bit_count : Z) (input : Bytes) : Result Bytes Z :=
  match input with
  | [] => Ok []
  | byte :: input' =>
      match sextet byte with
      | None => Err byte
      | Some value =>
          let bits := Z.lor (shl32 bits 6) value in
          let bit_count := bit_count + 6 in
          if 8 <=? bit_count then
            let bit_count := bit_count - 8 in
            let out := Z.land (Z.shiftr bits bit_count) 255 in
            match decode_loop (Z.land bits (low_bits_mask bit_count)) bit_count input' with
            | Ok rest => Ok (out :: rest)
            | Err e => Err e
            end
          else decode_loop bits bit_count input'
      end
  end.

Definition base64url_decode (input : string) : Result Bytes Z := decode_loop 0 0 (as_bytes input).

(** ** Bytes and strings *)

Lemma byte_of_u8 a : is_u8 (byte_of a).
Proof. unfold is_u8, byte_of. pose proof (nat_ascii_bounded a). lia. Qed.

Lemma as_bytes_u8 s : Forall is_u8 (as_bytes s).
Proof. induction s; simpl; constructor; [apply byte_of_u8|done]. Qed.

Lemma of_as_bytes s : of_bytes (as_bytes s) = s.
Proof.
  induction s as [|a s IH]; simpl; [done|]. rw IH. f_equal. unfold ascii_byte, byte_of.
  rw Nat2Z.id. apply ascii_nat_embedding.
Qed.

Lemma as_of_bytes l : Forall is_u8 l → as_bytes (of_bytes l) = l.
Proof.
  induction 1 as [|b l Hb Hl IH]; simpl; [done|]. rw IH. f_equal. unfold ascii_byte, byte_of.
  unfold is_u8 in Hb. rw nat_ascii_embedding; lia.
Qed.

Lemma as_bytes_app s t : as_bytes (s +:+ t) = as_bytes s ++ as_bytes t.
Proof. induction s as [|a s IH]; [done|]. simpl. by rw -IH. Qed.

(** ** Bits *)

Lemma lor_disjoint x v k : 0 ≤ k → 0 ≤ v < 2 ^ k → Z.lor (x * 2 ^ k) v = x * 2 ^ k + v.
Proof.
  intros Hk Hv. enough (H : Z.land (x * 2 ^ k) v = 0).
  { pose proof (Z.add_lor_land (x * 2 ^ k) v). lia. }
  apply Z.bits_inj'. intros i Hi. rw Z.land_spec Z.bits_0.
  destruct (Z.lt_ge_cases i k); [by rw Z.mul_pow2_bits_low|].
  rw -(Z.mod_small v (2 ^ k)) // Z.mod_pow2_bits_high; [lia|]. apply andb_false_r.
Qed.

Lemma land_mask x k : 0 ≤ k → Z.land x (2 ^ k - 1) = x mod 2 ^ k.
Proof. intros Hk. rw -Z.land_ones // Z.ones_equiv Z.sub_1_r //. Qed.

Lemma shl32_small x k : 0 ≤ k → 0 ≤ x * 2 ^ k < 2 ^ 32 → shl32 x k = x * 2 ^ k.
Proof. intros Hk Hx. unfold shl32. rw Z.shiftl_mul_pow2 //. by apply Z.mod_small. Qed.

Lemma low_bits_mask_pow k : 0 ≤ k < 32 → low_bits_mask k = 2 ^ k - 1.
Proof.
  intros Hk. unfold low_bits_mask. destruct (Z.eqb_spec k 0) as [->|]; [done|].
  rw shl32_small; [lia|..|lia]. rw Z.mul_1_l. split; [apply Z.pow_nonneg; lia|].
  apply Z.pow_lt_mono_r; lia.
Qed.

(** ** Round trip *)

Lemma sextet_table v : 0 ≤ v < 64 → sextet (table v) = Some v.
Proof.
  intros Hv. rw -(Z2Nat.id v); [lia|]. assert (Hn : (Z.to_nat v < 64)%nat) by lia. clear Hv.
  revert Hn. generalize (Z.to_nat v) as n. intros n Hn.
  do 64 (destruct n as [|n]; [reflexivity|]). lia.
Qed.

(** One turn of the loop on an encoded sextet, in arithmetic.  The accumulator
    holds fewer than eight bits, so nothing is ever shifted out of the [u32]. *)
Lemma decode_first v rest :
  0 ≤ v < 64 → decode_loop 0 0 (table v :: rest) = decode_loop v 6 rest.
Proof. intros Hv. cbn [decode_loop]. rw sextet_table //. Qed.

Lemma decode_next bits c v rest :
  0 ≤ v < 64 → 2 ≤ c ≤ 6 → 0 ≤ bits < 2 ^ c →
  decode_loop bits c (table v :: rest) =
    let n := bits * 64 + v in
    match decode_loop (n mod 2 ^ (c - 2)) (c - 2) rest with
    | Ok out => Ok ((n / 2 ^ (c - 2)) mod 256 :: out)
    | Err e => Err e
    end.
Proof.
  intros Hv Hc Hb. assert (bits < 64).
  { apply Z.lt_le_trans with (2 ^ c); [lia|]. apply (Z.pow_le_mono_r 2 c 6); lia. }
  cbn [decode_loop]. rw sextet_table //. cbv zeta.
  rw (proj2 (Z.leb_le 8 (c + 6))); [lia|]. replace (c + 6 - 8) with (c - 2) by lia.
  rw shl32_small; [lia|lia|]. change (2 ^ 6) with 64. rw (lor_disjoint bits v 6) //.
  rw low_bits_mask_pow; [lia|]. rw land_mask; [lia|].
  rw (land_mask _ 8) // Z.shiftr_div_pow2 //. lia.
Qed.

(** The sextets of a chunk, in arithmetic. *)
Lemma chunk_word b0 b1 b2 :
  is_u8 b0 → is_u8 b1 → is_u8 b2 →
  Z.lor (Z.lor (shl32 b0 16) (shl32 b1 8)) b2 = b0 * 65536 + b1 * 256 + b2.
Proof.
  unfold is_u8. intros H0 H1 H2. rw !shl32_small; [lia..|].
  change (2 ^ 16) with 65536. change (2 ^ 8) with 256.
  rw (lor_disjoint b0 (b1 * 256) 16); [lia..|]. change (2 ^ 16) with 65536.
  replace (b0 * 65536 + b1 * 256) with ((b0 * 256 + b1) * 2 ^ 8) by lia.
  rw lor_disjoint; lia.
Qed.

Lemma sextet_at n k : 0 ≤ k → Z.land (Z.shiftr n k) 63 = (n / 2 ^ k) mod 64.
Proof. intros Hk. rw Z.shiftr_div_pow2 //. by rw (land_mask _ 6). Qed.

Ltac sextets := Z.to_euclidean_division_equations; lia.

(** Four sextets make the word, and the decoder cuts it back into bytes. *)
Lemma word_sextets n :
  0 ≤ n < 2 ^ 24 → ∃ s0 s1 s2 s3,
    (n / 2 ^ 18) mod 64 = s0 ∧ (n / 2 ^ 12) mod 64 = s1 ∧ (n / 2 ^ 6) mod 64 = s2 ∧ n mod 64 = s3 ∧
    n = s0 * 262144 + s1 * 4096 + s2 * 64 + s3 ∧
    0 ≤ s0 < 64 ∧ 0 ≤ s1 < 64 ∧ 0 ≤ s2 < 64 ∧ 0 ≤ s3 < 64.
Proof. intros Hn. do 4 eexists. do 4 (split; [reflexivity|]). repeat split; sextets. Qed.

Lemma decode_chunk3 b0 b1 b2 rest :
  is_u8 b0 → is_u8 b1 → is_u8 b2 →
  decode_loop 0 0 (encode_chunk [b0; b1; b2] ++ rest) =
    match decode_loop 0 0 rest with Ok out => Ok (b0 :: b1 :: b2 :: out) | Err e => Err e end.
Proof.
  intros H0 H1 H2. unfold encode_chunk.
  cbn [lookup list_lookup from_option id length]. rw chunk_word // !bool_decide_true; [simpl; lia..|].
  cbn [app]. rw !sextet_at //. rw (land_mask _ 6) //. unfold is_u8 in *.
  destruct (word_sextets (b0 * 65536 + b1 * 256 + b2)) as
    (s0 & s1 & s2 & s3 & -> & -> & -> & Hs3 & Hn & ?); [lia|]. change (2 ^ 6) with 64. rw Hs3.
  rw decode_first; [lia|].
  rw decode_next; [lia..|]. cbv zeta. change (2 ^ (6 - 2)) with 16.
  rw decode_next; [lia|lia|apply Z.mod_pos_bound; lia|]. cbv zeta.
  change (2 ^ (6 - 2 - 2)) with 4.
  rw decode_next; [lia|lia|apply Z.mod_pos_bound; lia|]. cbv zeta.
  change (2 ^ (6 - 2 - 2 - 2)) with 1. rw Z.mod_1_r. change (6 - 2 - 2 - 2) with 0.
  destruct (decode_loop 0 0 rest); [|done]. repeat f_equal; sextets.
Qed.

(** The last chunk, of one or two bytes: the missing bytes are zero and the
    bits left over are dropped. *)
Lemma decode_chunk1 b0 : is_u8 b0 → decode_loop 0 0 (encode_chunk [b0]) = Ok [b0].
Proof.
  intros H0. unfold encode_chunk. cbn [lookup list_lookup from_option id length].
  rw chunk_word // !bool_decide_false; [simpl; lia..|].
  cbn [app]. rw !sextet_at //. unfold is_u8 in *.
  destruct (word_sextets (b0 * 65536 + 0 * 256 + 0)) as
    (s0 & s1 & s2 & s3 & -> & -> & _ & _ & Hn & ?); [lia|].
  rw decode_first; [lia|]. rw decode_next; [lia..|]. simpl. do 2 f_equal. sextets.
Qed.

Lemma decode_chunk2 b0 b1 :
  is_u8 b0 → is_u8 b1 → decode_loop 0 0 (encode_chunk [b0; b1]) = Ok [b0; b1].
Proof.
  intros H0 H1. unfold encode_chunk. cbn [lookup list_lookup from_option id length].
  rw chunk_word // bool_decide_true; [simpl; lia|]. rw bool_decide_false; [simpl; lia|].
  cbn [app]. rw !sextet_at //. unfold is_u8 in *.
  destruct (word_sextets (b0 * 65536 + b1 * 256 + 0)) as
    (s0 & s1 & s2 & s3 & -> & -> & -> & _ & Hn & ?); [lia|].
  rw decode_first; [lia|]. rw decode_next; [lia..|]. cbv zeta. change (2 ^ (6 - 2)) with 16.
  rw decode_next; [lia|lia|apply Z.mod_pos_bound; lia|]. cbv zeta.
  change (2 ^ (6 - 2 - 2)) with 4. cbn [decode_loop]. repeat f_equal; sextets.
Qed.

Lemma decode_loop_encoded input :
  Forall is_u8 input → decode_loop 0 0 (concat (encode_chunk <$> chunks3 input)) = Ok input.
Proof.
  induction input as [input IH] using (induction_ltof1 _ (@length Z)). intros Hu8.
  destruct input as [|b0 [|b1 [|b2 rest]]]; [done|..];
    rw !Forall_cons in Hu8; destruct_and? Hu8; cbn [chunks3].
  - cbn [fmap list_fmap concat]. rw app_nil_r. by apply decode_chunk1.
  - cbn [fmap list_fmap concat]. rw app_nil_r. by apply decode_chunk2.
  - rw fmap_cons. cbn [concat]. rw decode_chunk3 // IH //. unfold ltof. simpl. lia.
Qed.

Lemma table_u8 i : is_u8 (table i).
Proof.
  unfold table. destruct (TABLE !! Z.to_nat i) as [b|] eqn:Hb; [|by cbv].
  eapply Forall_lookup_1 in Hb; [exact Hb|apply as_bytes_u8].
Qed.

Lemma encode_chunk_u8 chunk : Forall is_u8 (encode_chunk chunk).
Proof.
  unfold encode_chunk. cbv zeta.
  repeat case_bool_decide; repeat constructor; apply table_u8.
Qed.

(** Decoding an encoding gives the bytes back. *)
Lemma decode_encode input :
  Forall is_u8 input → base64url_decode (base64url_encode input) = Ok input.
Proof.
  intros Hu8. unfold base64url_decode, base64url_encode. rw as_of_bytes.
  - apply Forall_concat, Forall_fmap, Forall_true. intros c. apply encode_chunk_u8.
  - by apply decode_loop_encoded.
Qed.

(** An encoding has no ["."] in it, so it is one segment of a token. *)
Lemma table_not_dot i : table i ≠ 46.
Proof.
  unfold table. destruct (TABLE !! Z.to_nat i) as [b|] eqn:Hb; [|done].
  assert (Hall : Forall (λ b, b ≠ 46) TABLE) by (by apply (bool_decide_unpack _); vm_compute).
  by eapply Forall_lookup_1 in Hb; [|exact Hall].
Qed.

Lemma encode_chunk_no_dot chunk : Forall (λ b, b ≠ 46) (encode_chunk chunk).
Proof.
  unfold encode_chunk. cbv zeta.
  repeat case_bool_decide; repeat constructor; apply table_not_dot.
Qed.

Lemma encode_no_dot input : Forall (λ b, b ≠ 46) (as_bytes (base64url_encode input)).
Proof.
  unfold base64url_encode. rw as_of_bytes; apply Forall_concat, Forall_fmap, Forall_true; intros c;
    [apply encode_chunk_u8|apply encode_chunk_no_dot].
Qed.

(** ** UTF-8 by characters *)

(** How many bytes the character that starts with [b0] has, and whether they
    are well formed. *)
Definition utf8_len (b0 : Z) : nat :=
  if between 0 127 b0 then 1%nat else if between 194 223 b0 then 2%nat
  else if between 224 239 b0 then 3%nat else 4%nat.
Definition utf8_char_ok (c : Bytes) : bool :=
  match c with
  | [b0] => between 0 127 b0
  | [b0; b1] => between 194 223 b0 && continuation b1
  | [b0; b1; b2] =>
      between 224 239 b0 &&
      between (if b0 =? 224 then 160 else 128) (if b0 =? 237 then 159 else 191) b1 && continuation b2
  | [b0; b1; b2; b3] =>
      between 240 244 b0 &&
      between (if b0 =? 240 then 144 else 128) (if b0 =? 244 then 143 else 191) b1 &&
      continuation b2 && continuation b3
  | _ => false
  end.

Lemma valid_utf8_char b0 l :
  valid_utf8 (b0 :: l) =
    utf8_char_ok (take (utf8_len b0) (b0 :: l)) && valid_utf8 (drop (utf8_len b0) (b0 :: l)).
Proof.
  unfold utf8_len. destruct (between 0 127 b0) eqn:H1; [by cbn; rw H1|].
  destruct (between 194 223 b0) eqn:H2.
  { destruct l as [|b1 l]; cbn; rw ?H1 ?H2 //. }
  destruct (between 224 239 b0) eqn:H3.
  { destruct l as [|b1 [|b2 l]]; cbn; rw ?H1 ?H2 ?H3 //. }
  destruct l as [|b1 [|b2 [|b3 l]]]; cbn; rw ?H1 ?H2 ?H3 //.
Qed.

Lemma utf8_char_len b0 c : utf8_char_ok (b0 :: c) = true → length (b0 :: c) = utf8_len b0.
Proof.
  assert (Hb : ∀ lo hi, between lo hi b0 = true ↔ lo ≤ b0 ≤ hi).
  { intros. unfold between. rw andb_true_iff !Z.leb_le //. }
  assert (Hn : ∀ lo hi, between lo hi b0 = false ↔ ¬ lo ≤ b0 ≤ hi).
  { intros. rw -Hb. by destruct (between lo hi b0). }
  destruct c as [|b1 [|b2 [|b3 [|]]]]; cbn [utf8_char_ok length]; rw ?andb_true_iff ?Hb; [..|done];
    intros Hc; destruct_and?; unfold utf8_len.
  - rw (proj2 (Hb 0 127)); [lia|done].
  - rw (proj2 (Hn 0 127)); [lia|]. rw (proj2 (Hb 194 223)); [lia|done].
  - rw (proj2 (Hn 0 127)); [lia|]. rw (proj2 (Hn 194 223)); [lia|]. rw (proj2 (Hb 224 239)); [lia|done].
  - rw (proj2 (Hn 0 127)); [lia|]. rw (proj2 (Hn 194 223)); [lia|].
    rw (proj2 (Hn 224 239)); [lia|done].
Qed.

Lemma valid_utf8_app a b : valid_utf8 a = true → valid_utf8 b = true → valid_utf8 (a ++ b) = true.
Proof.
  intros Ha Hb. revert Ha. induction a as [a IH] using (induction_ltof1 _ (@length Z)).
  destruct a as [|b0 a]; [done|]. cbn [app]. rw !valid_utf8_char !andb_true_iff. intros [Hc Ha].
  assert (Hlen : (utf8_len b0 ≤ length (b0 :: a))%nat).
  { destruct (take (utf8_len b0) (b0 :: a)) as [|x c] eqn:Htk; [done|].
    assert (x = b0) as -> by (unfold utf8_len in Htk; repeat case_match; by injection Htk).
    rw -(utf8_char_len b0 c Hc) -Htk length_take. lia. }
  rw (app_comm_cons a b b0) take_app_le // drop_app_le //. split; [done|].
  apply IH; [|done]. unfold ltof. rw length_drop. unfold utf8_len. simpl. repeat case_match; lia.
Qed.

Lemma valid_utf8_ascii s : Forall (λ b, b < 128) (as_bytes s) → valid_utf8 (as_bytes s) = true.
Proof.
  induction s as [|a s IH]; simpl; [done|]. rw Forall_cons. intros [Ha Hs].
  pose proof (byte_of_u8 a) as Hu. unfold is_u8 in Hu. unfold between.
  rw (proj2 (Z.leb_le 0 (byte_of a))) ?(proj2 (Z.leb_le (byte_of a) 127)); [lia..|]. auto.
Qed.
