(* ===== verification/Gateway.v ===== *)
(** * The Claude gateway: worker identity and the shared credential
      ([src/src/claude_gateway.rs])

    A Claude worker never holds the account's credential.  It is given a token
    of the daemon's own making that names the worker, and talks to a socket the
    daemon opened for that worker alone.  The gateway checks that the token and
    the socket agree, replaces the authorization by the real access token,
    which it refreshes when it is about to expire, and forwards the request. *)
From S2P Require Import Prelude Json Schema Text Base64.
From Stdlib Require Import Ascii.

Definition INVALID_GRANT_ERROR_CODE : string := "AH_CLAUDE_GATEWAY_REFRESH_INVALID_GRANT".
Definition REFRESH_FAILED_ERROR_CODE : string := "AH_CLAUDE_GATEWAY_REFRESH_FAILED".
Definition WORKER_ID_MISMATCH_ERROR_CODE : string := "AH_CLAUDE_GATEWAY_WORKER_ID_MISMATCH".
Definition AUTH_INVALID_ERROR_CODE : string := "AH_CLAUDE_GATEWAY_AUTH_INVALID".
Definition SANDBOX_UDS_PATH : string := "/var/run/ah-gateway.sock".

(** Times and durations in nanoseconds, a [SystemTime] since the epoch. *)
Definition secs (n : Z) : Z := n * 1000000000.
Definition millis (n : Z) : Z := n * 1000000.
Definition FAILURE_CACHE_TTL : Z := secs 30.
Definition TOKEN_EXPIRY_SAFETY_WINDOW : Z := secs (5 * 60).

(** ** Third-party code

    [serde_json::from_slice(..).ok()] and the text of its error,
    [serde_json::to_vec_pretty], and what tokio says when a stream ends before
    [read_exact] has its bytes. *)
Class GatewayExternals := {
  json_from_slice : Bytes → option Value;
  json_slice_error : Bytes → string;
  json_to_vec_pretty : Value → string;
  early_eof : string
}.

(** ** Data *)

Record TokenSet : Type := MkTokenSet {
  access_token : string;
  refresh_token : string;
  expires_at : Z
}.

Record GatewayRequest : Type := MkGatewayRequest {
  gr_worker_id : string;
  gr_method : string;
  gr_path : string;
  gr_headers : list (string * string);
  gr_body : Bytes
}.

Record GatewayResponse : Type := MkGatewayResponse {
  gs_status : Z;
  gs_headers : list (string * string);
  gs_body : Bytes
}.

Record GatewayError : Type := MkGatewayError {
  ge_status : Z;
  ge_error_code : string;
  ge_body : string
}.

Inductive UpstreamError : Type :=
| InvalidGrant (body : string)
| Http (status : Z) (body : string).

Definition UpstreamResult (A : Type) : Type := Result A UpstreamError.

Inductive CredentialEvent : Type :=
| RefreshFailed (error_code upstream_error : string).

Record CachedRefreshFailure : Type := MkCachedRefreshFailure {
  cf_error : GatewayError;
  cf_failed_at : Z
}.

(** What the locks of [GatewayCore] protect.  [refresh_lock] itself protects no
    data; it is the business of the concurrent model. *)
Record GatewayCore : Type := MkGatewayCore {
  gc_token : TokenSet;
  gc_refresh_failure : option CachedRefreshFailure;
  gc_events : list CredentialEvent
}.

Definition new_core (seed : TokenSet) : GatewayCore := MkGatewayCore seed None [].

Definition is_valid_for_forwarding (now : Z) (t : TokenSet) : bool :=
  (now <=? t.(expires_at)) && (TOKEN_EXPIRY_SAFETY_WINDOW <? t.(expires_at) - now).

Section Gateway.
Context {GX : GatewayExternals}.

(** ** The worker's token *)

Definition json_escape_char (ch : string) : string :=
  if ch == byte_str 34 then byte_str 92 +:+ byte_str 34
  else if ch == byte_str 92 then byte_str 92 +:+ byte_str 92
  else if ch == byte_str 10 then byte_str 92 +:+ "n"
  else if ch == byte_str 13 then byte_str 92 +:+ "r"
  else if ch == byte_str 9 then byte_str 92 +:+ "t"
  else ch.
Definition json_escape (input : string) : string := concat_str (json_escape_char <$> chars input).

(** A JSON string literal around text that needs no escape. *)
Definition quoted (s : string) : string := byte_str 34 +:+ s +:+ byte_str 34.

Definition jwt_header : string :=
  "{" +:+ quoted "alg" +:+ ":" +:+ quoted "none" +:+ "," +:+
          quoted "typ" +:+ ":" +:+ quoted "JWT" +:+ "}".
Definition jwt_payload (worker_id : string) : string :=
  "{" +:+ quoted "exp" +:+ ":32503680000," +:+
          quoted "sub" +:+ ":" +:+ quoted "ah-worker-session" +:+ "," +:+
          quoted "worker_id" +:+ ":" +:+ quoted (json_escape worker_id) +:+ "}".

Definition fake_worker_jwt (worker_id : string) : string :=
  base64url_encode (as_bytes jwt_header) +:+ "." +:+
  base64url_encode (as_bytes (jwt_payload worker_id)) +:+ ".".

Definition decode_json_segment (segment : string) : Result Value string :=
  match base64url_decode segment with
  | Err byte => Err ("invalid base64url byte " +:+ decimal byte)
  | Ok bytes =>
      match json_from_slice bytes with
      | Some v => Ok v
      | None => Err ("invalid fake gateway JWT JSON: " +:+ json_slice_error bytes)
      end
  end.

Definition fake_jwt_worker_id (token : string) : Result string string :=
  match split_on "." token with
  | [p0; p1; p2] =>
      if p2 == "" then
        match decode_json_segment p0 with
        | Err e => Err e
        | Ok header =>
            if (get_str "alg" header != Some "none") || (get_str "typ" header != Some "JWT") then
              Err "fake gateway JWT header is not alg:none JWT"
            else
            match decode_json_segment p1 with
            | Err e => Err e
            | Ok payload =>
                if (value_get "exp" payload ≫= as_i64) != Some 32503680000 then
                  Err "fake gateway JWT exp does not match design contract"
                else if get_str "sub" payload != Some "ah-worker-session" then
                  Err "fake gateway JWT subject does not match design contract"
                else match get_str "worker_id" payload with
                | Some worker_id =>
                    if worker_id == "" then Err "fake gateway JWT missing worker_id"
                    else Ok worker_id
                | None => Err "fake gateway JWT missing worker_id"
                end
            end
        end
      else Err "fake gateway JWT must be alg:none three-segment token"
  | _ => Err "fake gateway JWT must be alg:none three-segment token"
  end.

(** ** Who is asking *)

Definition is_authorization (name : string) : bool := eq_ignore_ascii_case name "authorization".

Definition bearer_token (request : GatewayRequest) : option string :=
  '(_, value) ← head (filter (λ h, is_authorization h.1 = true) request.(gr_headers));
  strip_prefix value "Bearer ".

Definition validate_worker_identity (request : GatewayRequest) : Result string GatewayError :=
  match bearer_token request with
  | None => Err (MkGatewayError 401 AUTH_INVALID_ERROR_CODE "missing bearer token")
  | Some token =>
      match fake_jwt_worker_id token with
      | Err e => Err (MkGatewayError 401 AUTH_INVALID_ERROR_CODE e)
      | Ok jwt_worker_id =>
          if jwt_worker_id != request.(gr_worker_id) then
            Err (MkGatewayError 403 WORKER_ID_MISMATCH_ERROR_CODE
                   ("worker identity mismatch: channel=" +:+ request.(gr_worker_id) +:+
                    " token=" +:+ jwt_worker_id))
          else Ok token
      end
  end.

Definition rewrite_authorization (request : GatewayRequest) (access_token fake_token : string) :
    GatewayRequest :=
  MkGatewayRequest request.(gr_worker_id) request.(gr_method) request.(gr_path)
    (filter (λ h, negb (is_authorization h.1) && negb (contains h.2 fake_token) = true)
       request.(gr_headers) ++ [("authorization", "Bearer " +:+ access_token)])
    request.(gr_body).

(** ** The access token *)

Definition map_refresh_error (err : UpstreamError) : GatewayError :=
  match err with
  | InvalidGrant body => MkGatewayError 401 INVALID_GRANT_ERROR_CODE body
  | Http status body => MkGatewayError status REFRESH_FAILED_ERROR_CODE body
  end.

Definition map_upstream_error (err : UpstreamError) : GatewayError :=
  match err with
  | InvalidGrant body => MkGatewayError 401 INVALID_GRANT_ERROR_CODE body
  | Http status body => MkGatewayError status "AH_CLAUDE_GATEWAY_UPSTREAM_HTTP" body
  end.

Definition refresh_event_name (error : GatewayError) : string :=
  if error.(ge_error_code) == INVALID_GRANT_ERROR_CODE then "invalid_grant"
  else error.(ge_error_code).

Definition is_invalid_grant (err : UpstreamError) : bool :=
  match err with InvalidGrant _ => true | Http _ _ => false end.

(** [instant] is [Instant::now()], a monotonic clock. *)
Definition cached_failure_inside_refresh_lock (instant : Z) (core : GatewayCore) :
    option GatewayError :=
  failure ← core.(gc_refresh_failure);
  if instant - failure.(cf_failed_at) <? FAILURE_CACHE_TTL then Some failure.(cf_error) else None.

Definition store_token (t : TokenSet) (core : GatewayCore) : GatewayCore :=
  MkGatewayCore t core.(gc_refresh_failure) core.(gc_events).
Definition set_failure (f : option CachedRefreshFailure) (core : GatewayCore) : GatewayCore :=
  MkGatewayCore core.(gc_token) f core.(gc_events).
Definition record_event (e : CredentialEvent) (core : GatewayCore) : GatewayCore :=
  MkGatewayCore core.(gc_token) core.(gc_refresh_failure) (core.(gc_events) ++ [e]).

(** The two calls of the [ClaudeUpstream] trait, as a caller sees them made. *)
Inductive UpstreamCall : Type :=
| CallRefresh (refresh_token : string)
| CallMessages (request : GatewayRequest).

Record ClaudeUpstream : Type := MkClaudeUpstream {
  up_refresh : string → UpstreamResult TokenSet;
  up_messages : GatewayRequest → UpstreamResult GatewayResponse
}.

(** What follows the answer of [upstream.refresh], inside the refresh lock. *)
Definition finish_refresh (answer : UpstreamResult TokenSet) (instant : Z) (core : GatewayCore) :
    Result string GatewayError * GatewayCore :=
  match answer with
  | Ok refreshed => (Ok refreshed.(access_token), set_failure None (store_token refreshed core))
  | Err err =>
      let gateway_error := map_refresh_error err in
      let core := if is_invalid_grant err
                  then set_failure (Some (MkCachedRefreshFailure gateway_error instant)) core
                  else core in
      (Err gateway_error,
       record_event (RefreshFailed gateway_error.(ge_error_code) (refresh_event_name gateway_error))
         core)
  end.

(** A call that no other interrupts; [now] and [instant] are what the two
    clocks answer while it runs. *)
Definition valid_access_token (upstream : ClaudeUpstream) (now instant : Z) (core : GatewayCore) :
    Result string GatewayError * GatewayCore * list UpstreamCall :=
  if is_valid_for_forwarding now core.(gc_token) then
    (Ok core.(gc_token).(access_token), core, [])
  else match cached_failure_inside_refresh_lock instant core with
  | Some cached => (Err cached, core, [])
  | None =>
      let rt := core.(gc_token).(refresh_token) in
      (finish_refresh (upstream.(up_refresh) rt) instant core, [CallRefresh rt])
  end.

Definition forward_messages (upstream : ClaudeUpstream) (now instant : Z) (core : GatewayCore)
    (request : GatewayRequest) :
    Result GatewayResponse GatewayError * GatewayCore * list UpstreamCall :=
  match validate_worker_identity request with
  | Err e => (Err e, core, [])
  | Ok fake_token =>
      match valid_access_token upstream now instant core with
      | (Err e, core', calls) => (Err e, core', calls)
      | (Ok access_token, core', calls) =>
          let request := rewrite_authorization request access_token fake_token in
          (match upstream.(up_messages) request with
           | Ok response => Ok response
           | Err e => Err (map_upstream_error e)
           end, core', calls ++ [CallMessages request])
      end
  end.

(** ** The token names its worker *)

Lemma split_on_none c s :
  Forall (λ b, b ≠ byte_of c) (as_bytes s) → split_on c s = [s].
Proof.
  induction s as [|a s IH]; simpl; [done|]. rw Forall_cons. intros [Ha Hs].
  rw IH // bool_decide_false //. intros ->. done.
Qed.

Lemma split_on_sep c s t :
  Forall (λ b, b ≠ byte_of c) (as_bytes s) → split_on c (s +:+ String c t) = s :: split_on c t.
Proof.
  induction s as [|a s IH]; simpl.
  - intros _. by rw bool_decide_true.
  - rw Forall_cons. intros [Ha Hs]. rw IH // bool_decide_false //. intros ->. done.
Qed.

(** The claims of a token, as [serde_json] reads them. *)
Definition header_claims : Value :=
  json_object [("alg", JString "none"); ("typ", JString "JWT")].
Definition payload_claims (worker_id : string) : Value :=
  json_object [("exp", JNumber 32503680000); ("sub", JString "ah-worker-session");
               ("worker_id", JString worker_id)].

Lemma decode_segment_encoded s v :
  json_from_slice (as_bytes s) = Some v →
  decode_json_segment (base64url_encode (as_bytes s)) = Ok v.
Proof.
  intros Hv. unfold decode_json_segment. rw decode_encode; [apply as_bytes_u8|]. by rw Hv.
Qed.

(** *** JSON texts

    What RFC 8259 makes of the texts the token holds: an object whose members are
    string literals and natural numbers. *)

(** The character a one-letter escape stands for; [\u] is not used. *)
Definition unescape (e : ascii) : option ascii :=
  let n := nat_of_ascii e in
  if (n =? 34)%nat || (n =? 92)%nat || (n =? 47)%nat then Some e
  else if (n =? 98)%nat then Some (ascii_of_nat 8) else if (n =? 102)%nat then Some (ascii_of_nat 12)
  else if (n =? 110)%nat then Some (ascii_of_nat 10) else if (n =? 114)%nat then Some (ascii_of_nat 13)
  else if (n =? 116)%nat then Some (ascii_of_nat 9) else None.

(** A literal from behind its opening quote: its value and what follows it. *)
Fixpoint read_string (s : string) : option (string * string) :=
  match s with
  | EmptyString => None
  | String c s' =>
      if (nat_of_ascii c =? 34)%nat then Some (EmptyString, s')
      else if (nat_of_ascii c =? 92)%nat then
        match s' with
        | EmptyString => None
        | String e s'' =>
            match unescape e, read_string s'' with
            | Some d, Some (v, rest) => Some (String d v, rest)
            | _, _ => None
            end
        end
      else if (nat_of_ascii c <? 32)%nat then None
      else match read_string s' with Some (v, rest) => Some (String c v, rest) | None => None end
  end.

Definition reads_literal (body v : string) : Prop := read_string (body +:+ byte_str 34) = Some (v, EmptyString).
Definition reads_value (text : string) (v : Value) : Prop :=
  (∃ body x, text = quoted body ∧ reads_literal body x ∧ v = JString x) ∨
  (∃ n, 0 ≤ n < 2 ^ 64 ∧ text = decimal n ∧ v = JNumber n).
Definition reads_member (m : string * string) (f : string * Value) : Prop :=
  reads_literal m.1 f.1 ∧ reads_value m.2 f.2.
Definition member_text (m : string * string) : string := quoted m.1 +:+ ":" +:+ m.2.
Definition object_text (ms : list (string * string)) : string := "{" +:+ join "," (member_text <$> ms) +:+ "}".

(** [serde_json] reads such a text, in UTF-8 and with no name twice, as what it
    says. *)
Definition reads_objects : Prop := ∀ ms fields,
  ms ≠ [] → Forall2 reads_member ms fields → NoDup fields.*1 → valid_utf8 (as_bytes (object_text ms)) = true →
  json_from_slice (as_bytes (object_text ms)) = Some (json_object fields).

(** The names that survive the escaping: of the control characters only the three
    that are escaped. *)
Definition plain_json_byte (b : ascii) : Prop :=
  (32 ≤ nat_of_ascii b)%nat ∧ nat_of_ascii b ≠ 34%nat ∧ nat_of_ascii b ≠ 92%nat.
Definition json_char (ch : string) : Prop :=
  ch ∈ [byte_str 34; byte_str 92; byte_str 10; byte_str 13; byte_str 9] ∨
  (Forall plain_json_byte (String.list_ascii_of_string ch) ∧ valid_utf8 (as_bytes ch) = true).
Definition json_clean (s : string) : Prop := Forall json_char (chars s).

Lemma read_string_cons c s' : read_string (String c s') =
  if (nat_of_ascii c =? 34)%nat then Some (EmptyString, s')
  else if (nat_of_ascii c =? 92)%nat then
    match s' with
    | EmptyString => None
    | String e s'' =>
        match unescape e, read_string s'' with Some d, Some (v, rest) => Some (String d v, rest) | _, _ => None end
    end
  else if (nat_of_ascii c <? 32)%nat then None
  else match read_string s' with Some (v, rest) => Some (String c v, rest) | None => None end.
Proof. reflexivity. Qed.

Lemma read_plain ch s v rest :
  Forall plain_json_byte (String.list_ascii_of_string ch) → read_string s = Some (v, rest) →
  read_string (ch +:+ s) = Some (ch +:+ v, rest).
Proof.
  intros Hch Hs. induction ch as [|b ch IH]; [exact Hs|]. cbn in Hch. apply Forall_cons in Hch as [(H1 & H2 & H3) Hch].
  apply Nat.eqb_neq in H2, H3. apply Nat.ltb_ge in H1.
  change (String b ch +:+ s) with (String b (ch +:+ s)). rw read_string_cons H2 H3 H1 IH //.
Qed.
Lemma read_escaped ch s v rest :
  json_char ch → read_string s = Some (v, rest) → read_string (json_escape_char ch +:+ s) = Some (ch +:+ v, rest).
Proof.
  intros [Hin|[Hp _]] Hs.
  - repeat (apply elem_of_cons in Hin as [->|Hin]; [simpl; by rw Hs|]). by apply elem_of_nil in Hin.
  - assert (∀ n, (n < 32 ∨ n = 34 ∨ n = 92)%nat → ch ≠ byte_str n) as Hne.
    { intros n Hn ->. apply Forall_cons in Hp as [(Hlo & Hq & Hb) _].
      rw Ascii.nat_ascii_embedding in Hlo Hq Hb; lia. }
    unfold json_escape_char. rw !(bool_decide_false (ch = _)); [apply Hne; lia..|]. by apply read_plain.
Qed.
Lemma read_json_escape s rest :
  json_clean s → read_string (json_escape s +:+ byte_str 34 +:+ rest) = Some (s, rest).
Proof.
  intros Hc. assert (∀ cs, Forall json_char cs →
    read_string (concat_str (json_escape_char <$> cs) +:+ byte_str 34 +:+ rest) = Some (concat_str cs, rest)) as H.
  { induction cs as [|c cs IH]; intros Hcs; [done|]. apply Forall_cons in Hcs as [Hch Hcs].
    cbn [fmap list_fmap concat_str foldr]. rw string_app_assoc. apply read_escaped; [done|]. by apply IH. }
  unfold json_escape. by rw (H _ Hc) concat_chars.
Qed.

Lemma escape_utf8 s : json_clean s → valid_utf8 (as_bytes (json_escape s)) = true.
Proof.
  intros Hc. unfold json_escape. induction Hc as [|ch cs Hch _ IH]; [done|].
  cbn [fmap list_fmap concat_str foldr]. rw as_bytes_app. apply valid_utf8_app; [|exact IH].
  destruct Hch as [Hin|[_ Hu]].
  - repeat (apply elem_of_cons in Hin as [->|Hin]; [done|]). by apply elem_of_nil in Hin.
  - unfold json_escape_char. repeat case_bool_decide; done.
Qed.
Lemma payload_utf8 s : json_clean s → valid_utf8 (as_bytes (jwt_payload s)) = true.
Proof.
  intros Hc. unfold jwt_payload, quoted. rw !as_bytes_app.
  repeat first [by apply escape_utf8|
    lazymatch goal with |- context [json_escape] => apply valid_utf8_app | _ => by vm_compute end].
Qed.

Lemma claims_read worker_id :
  reads_objects → json_clean worker_id →
  json_from_slice (as_bytes (jwt_payload worker_id)) = Some (payload_claims worker_id).
Proof.
  intros Hj Hc. unfold payload_claims.
  rw -(Hj [("exp", "32503680000"); ("sub", quoted "ah-worker-session"); ("worker_id", quoted (json_escape worker_id))]).
  - done.
  - apply Forall2_cons. split; [split; [reflexivity|]|apply Forall2_cons; split; [split; [reflexivity|]|
      apply Forall2_cons; split; [split; [reflexivity|]|done]]].
    + right. exists 32503680000. split; [lia|]. by split_and!.
    + left. exists "ah-worker-session", "ah-worker-session". by split_and!.
    + left. exists (json_escape worker_id), worker_id. split_and!; [done| |done].
      unfold reads_literal. pose proof (read_json_escape worker_id "" Hc) as Hr. by rw string_app_nil_r in Hr.
  - cbn. repeat constructor; set_solver.
  - by apply payload_utf8.
  - done.
Qed.
Lemma header_read : reads_objects → json_from_slice (as_bytes jwt_header) = Some header_claims.
Proof.
  intros Hj. unfold header_claims. rw -(Hj [("alg", quoted "none"); ("typ", quoted "JWT")]).
  - done.
  - apply Forall2_cons. split; [split; [reflexivity|]|apply Forall2_cons; split; [split; [reflexivity|]|done]].
    + left. exists "none", "none". by split_and!.
    + left. exists "JWT", "JWT". by split_and!.
  - cbn. repeat constructor; set_solver.
  - done.
  - done.
Qed.

Lemma jwt_worker_id_roundtrip worker_id :
  worker_id ≠ "" →
  json_from_slice (as_bytes jwt_header) = Some header_claims →
  json_from_slice (as_bytes (jwt_payload worker_id)) = Some (payload_claims worker_id) →
  fake_jwt_worker_id (fake_worker_jwt worker_id) = Ok worker_id.
Proof.
  intros Hne Hh Hp. unfold fake_jwt_worker_id, fake_worker_jwt.
  rw (split_on_sep "."); [apply encode_no_dot|].
  rw (split_on_sep "."); [apply encode_no_dot|]. cbn [split_on].
  rw bool_decide_true // !(decode_segment_encoded _ _ Hh) (decode_segment_encoded _ _ Hp).
  simpl. by rw bool_decide_false.
Qed.

(** ** What reaches the upstream *)

Definition authorizations (r : GatewayRequest) : list (string * string) :=
  filter (λ h, is_authorization h.1 = true) r.(gr_headers).

(** The rewritten request carries the access token as its one authorization,
    and the worker's token nowhere in its headers. *)
Lemma rewrite_authorization_spec request at_ fake :
  let r := rewrite_authorization request at_ fake in
  authorizations r = [("authorization", "Bearer " +:+ at_)] ∧
  (∀ n v, (n, v) ∈ r.(gr_headers) → is_authorization n = false → contains v fake = false) ∧
  (∀ n v, (n, v) ∈ request.(gr_headers) → is_authorization n = false → contains v fake = false →
          (n, v) ∈ r.(gr_headers)).
Proof.
  simpl. split_and!.
  - unfold authorizations. simpl. rw filter_app list_filter_filter filter_none //.
    intros [n v] _ [Ha Hg]. simpl in *. by rw Ha in Hg.
  - intros n v [[Hg _]%list_elem_of_filter|[= -> ->]%list_elem_of_singleton]%elem_of_app Hn.
    + apply andb_true_iff in Hg as [_ Hg]. by apply negb_true_iff in Hg.
    + done.
  - intros n v Hin Hn Hv. apply elem_of_app. left. apply list_elem_of_filter. split; [|done].
    simpl in *. by rw Hn Hv.
Qed.

Lemma validate_ok request token :
  validate_worker_identity request = Ok token →
  bearer_token request = Some token ∧ fake_jwt_worker_id token = Ok request.(gr_worker_id).
Proof.
  unfold validate_worker_identity. destruct (bearer_token request) as [t|]; [|done].
  destruct (fake_jwt_worker_id t) as [id|] eqn:Hid; [|done].
  case_bool_decide as Heq; simpl; [|done]. intros [= ->]. by rw -Heq.
Qed.

(** At most the refresh is called, and the token answered is the one the core
    holds afterwards. *)
Lemma valid_access_token_spec upstream now instant core :
  let '(res, core', calls) := valid_access_token upstream now instant core in
  (∀ c, c ∈ calls → c = CallRefresh core.(gc_token).(refresh_token) ∧
                    is_valid_for_forwarding now core.(gc_token) = false) ∧
  match res with Ok at_ => at_ = core'.(gc_token).(access_token) | Err _ => True end.
Proof.
  unfold valid_access_token.
  destruct (is_valid_for_forwarding now (gc_token core)) eqn:Hv; [set_solver|].
  destruct (cached_failure_inside_refresh_lock instant core); [set_solver|].
  unfold finish_refresh. destruct (up_refresh upstream _); set_solver.
Qed.

(** C24: the account's credential goes upstream only for a worker that proves
    who it is, and the worker's token does not go upstream.  When the token is
    missing, malformed or another worker's, nothing is called and nothing
    changes.  A forwarded request has one authorization header, the access
    token the core then holds; no other header mentions the worker's token; its
    method, path and body are the worker's, and so are all other headers.  The
    credential is refreshed only when it is not valid for five more minutes,
    with the refresh token the core holds. *)
Theorem forward_isolates_credential upstream now instant core request :
  let '(res, core', calls) := forward_messages upstream now instant core request in
  match validate_worker_identity request with
  | Err e => res = Err e ∧ core' = core ∧ calls = []
  | Ok token =>
      bearer_token request = Some token ∧ fake_jwt_worker_id token = Ok request.(gr_worker_id)
  end ∧
  (∀ rt, CallRefresh rt ∈ calls →
     rt = core.(gc_token).(refresh_token) ∧ is_valid_for_forwarding now core.(gc_token) = false) ∧
  (∀ r, CallMessages r ∈ calls → ∃ token, validate_worker_identity request = Ok token ∧
     authorizations r = [("authorization", "Bearer " +:+ core'.(gc_token).(access_token))] ∧
     (∀ n v, (n, v) ∈ r.(gr_headers) → is_authorization n = false → contains v token = false) ∧
     (∀ n v, (n, v) ∈ request.(gr_headers) → is_authorization n = false →
             contains v token = false → (n, v) ∈ r.(gr_headers)) ∧
     r.(gr_method) = request.(gr_method) ∧ r.(gr_path) = request.(gr_path) ∧
     r.(gr_body) = request.(gr_body)).
Proof.
  unfold forward_messages.
  destruct (validate_worker_identity request) as [token|e] eqn:Hv; [|set_solver].
  pose proof (valid_access_token_spec upstream now instant core) as Hat.
  destruct (valid_access_token upstream now instant core) as [[[at_|e] core'] calls];
    destruct Hat as [Hcalls Hat].
  - split; [by apply validate_ok|]. split.
    + intros rt [Hin|Hin%list_elem_of_singleton]%elem_of_app; [|done].
      by destruct (Hcalls _ Hin) as [[= ->] ?].
    + intros r [Hin|[= ->]%list_elem_of_singleton]%elem_of_app;
        [by destruct (Hcalls _ Hin)|].
      exists token. split; [done|]. rw -Hat.
      destruct (rewrite_authorization_spec request at_ token) as (? & ? & ?). by split_and!.
  - split; [by apply validate_ok|].
    split; intros x Hin; [by destruct (Hcalls _ Hin) as [[= ->] ?]|by destruct (Hcalls _ Hin)].
Qed.

(** C29: a worker's token opens its own channel and no other.  The token made
    for a worker whose name is not empty and holds no control characters other
    than line feed, carriage return and tab is read back as that name, through
    base64url and the JSON of its claims with its escapes, by any parser that
    reads flat JSON objects as the standard says.  So a request that carries it is
    accepted on the socket of that worker and refused with 403 on any other, and
    no two such workers are given the same token. *)
Theorem worker_token_opens_own_channel request owner :
  reads_objects → owner ≠ "" → json_clean owner →
  bearer_token request = Some (fake_worker_jwt owner) →
  validate_worker_identity request =
    (if owner == request.(gr_worker_id) then Ok (fake_worker_jwt owner)
     else Err (MkGatewayError 403 WORKER_ID_MISMATCH_ERROR_CODE
                 ("worker identity mismatch: channel=" +:+ request.(gr_worker_id) +:+
                  " token=" +:+ owner))) ∧
  ∀ other, other ≠ "" → json_clean other → fake_worker_jwt other = fake_worker_jwt owner → other = owner.
Proof.
  intros Hj Hne Hc Hb. pose proof (header_read Hj) as Hh.
  pose proof (jwt_worker_id_roundtrip owner Hne Hh (claims_read owner Hj Hc)) as Hid. split.
  - unfold validate_worker_identity. rw Hb Hid //. by case_bool_decide.
  - intros other Hne' Hc' Heq. pose proof (jwt_worker_id_roundtrip other Hne' Hh (claims_read other Hj Hc')) as Ho.
    rw Heq Hid in Ho. by injection Ho.
Qed.

End Gateway.
