(* ===== verification/TokenRefresh.v ===== *)
(** * Concurrent callers of [GatewayCore::valid_access_token]
      ([src/src/claude_gateway.rs])

    Every connection of every worker runs [valid_access_token] on its own
    thread over one shared core.  The credential is read under a read-write
    lock, checked again under [refresh_lock], and refreshed by at most one
    caller.  [Phase] is where a caller is in the body of the function; one step
    is one access to the shared state, so steps of different callers interleave
    anywhere the source lets them.  The log of refresh calls and answers is what
    the credential's owner sees. *)
From S2P Require Import Prelude Json Schema Text Base64 Gateway.

Inductive Phase : Type :=
| FastCheck
| AwaitLock
| Recheck
| CheckFailure
| ReadRefresh
| StartCall (rt : string)
| InCall
| Answered (answer : UpstreamResult TokenSet)
| ClearFailure (at_ : string)
| RecordFailure (e : GatewayError)
| Returned (r : Result string GatewayError).

Inductive CallLog : Type :=
| CallStarted (instant : Z) (rt : string)
| CallAnswered (instant : Z) (answer : UpstreamResult TokenSet).

(** [sh_lock] is the caller that holds [refresh_lock]. *)
Record Shared : Type := MkShared {
  sh_core : GatewayCore;
  sh_lock : option nat;
  sh_now : Z;
  sh_instant : Z;
  sh_log : list CallLog
}.

Definition set_core (c : GatewayCore) (s : Shared) : Shared :=
  MkShared c s.(sh_lock) s.(sh_now) s.(sh_instant) s.(sh_log).
Definition set_lock (l : option nat) (s : Shared) : Shared :=
  MkShared s.(sh_core) l s.(sh_now) s.(sh_instant) s.(sh_log).
Definition set_clocks (now instant : Z) (s : Shared) : Shared :=
  MkShared s.(sh_core) s.(sh_lock) now instant s.(sh_log).
Definition add_log (e : CallLog) (s : Shared) : Shared :=
  MkShared s.(sh_core) s.(sh_lock) s.(sh_now) s.(sh_instant) (s.(sh_log) ++ [e]).

Definition sh_token (s : Shared) : TokenSet := s.(sh_core).(gc_token).

(** One step of caller [i]; [answer] is what the upstream answers if the step
    is the one that receives an answer.  [None]: the caller has returned, or
    waits for the lock. *)
Definition thread_step (i : nat) (answer : UpstreamResult TokenSet) (ph : Phase) (s : Shared) :
    option (Phase * Shared) :=
  match ph with
  | FastCheck =>
      if is_valid_for_forwarding s.(sh_now) (sh_token s)
      then Some (Returned (Ok (sh_token s).(access_token)), s) else Some (AwaitLock, s)
  | AwaitLock =>
      match s.(sh_lock) with None => Some (Recheck, set_lock (Some i) s) | Some _ => None end
  | Recheck =>
      if is_valid_for_forwarding s.(sh_now) (sh_token s)
      then Some (Returned (Ok (sh_token s).(access_token)), set_lock None s)
      else Some (CheckFailure, s)
  | CheckFailure =>
      match cached_failure_inside_refresh_lock s.(sh_instant) s.(sh_core) with
      | Some cached => Some (Returned (Err cached), set_lock None s)
      | None => Some (ReadRefresh, s)
      end
  | ReadRefresh => Some (StartCall (sh_token s).(refresh_token), s)
  | StartCall rt => Some (InCall, add_log (CallStarted s.(sh_instant) rt) s)
  | InCall => Some (Answered answer, add_log (CallAnswered s.(sh_instant) answer) s)
  | Answered (Ok refreshed) =>
      Some (ClearFailure refreshed.(access_token),
            set_core (store_token refreshed s.(sh_core)) s)
  | Answered (Err err) =>
      let gateway_error := map_refresh_error err in
      Some (RecordFailure gateway_error,
            if is_invalid_grant err
            then set_core (set_failure
                   (Some (MkCachedRefreshFailure gateway_error s.(sh_instant))) s.(sh_core)) s
            else s)
  | ClearFailure at_ =>
      Some (Returned (Ok at_), set_lock None (set_core (set_failure None s.(sh_core)) s))
  | RecordFailure e =>
      Some (Returned (Err e),
            set_lock None (set_core (record_event
              (RefreshFailed e.(ge_error_code) (refresh_event_name e)) s.(sh_core)) s))
  | Returned _ => None
  end.

Definition Net : Type := Shared * gmap nat Phase.

(** Any caller may step next, a new one may arrive, and time passes: the
    monotonic clock forward, the wall clock anywhere. *)
Inductive net_step : Net → Net → Prop :=
| run_caller i answer ph ph' s s' ts :
    ts !! i = Some ph → thread_step i answer ph s = Some (ph', s') →
    net_step (s, ts) (s', <[i := ph']> ts)
| new_caller i s ts : ts !! i = None → net_step (s, ts) (s, <[i := FastCheck]> ts)
| clocks now instant s ts :
    s.(sh_instant) ≤ instant → net_step (s, ts) (set_clocks now instant s, ts).

Definition net_initial (seed : TokenSet) (n : Net) : Prop :=
  ∃ now instant, n = (MkShared (new_core seed) None now instant [], ∅).

Definition net_reachable (seed : TokenSet) (n : Net) : Prop :=
  ∃ n0, net_initial seed n0 ∧ rtc net_step n0 n.

(** ** What the owner of the credential can rely on *)

(** The credential after a log: the last one answered, or the seed. *)
Fixpoint current (seed : TokenSet) (log : list CallLog) : TokenSet :=
  match log with
  | [] => seed
  | CallAnswered _ (Ok t) :: log' => current t log'
  | _ :: log' => current seed log'
  end.

(** Every call sends the refresh token of the credential then current. *)
Definition log_chained (seed : TokenSet) (log : list CallLog) : Prop :=
  ∀ pre t rt post, log = pre ++ CallStarted t rt :: post → rt = (current seed pre).(refresh_token).

(** No call starts while another is in flight. *)
Definition log_serial (log : list CallLog) : Prop :=
  ∀ pre t rt e post, log = pre ++ CallStarted t rt :: e :: post → ∃ t' a, e = CallAnswered t' a.

(** After [invalid_grant], the next call is at least [FAILURE_CACHE_TTL] later. *)
Definition log_backs_off (log : list CallLog) : Prop :=
  ∀ pre t1 b t2 rt post,
    log = pre ++ CallAnswered t1 (Err (InvalidGrant b)) :: CallStarted t2 rt :: post →
    t1 + FAILURE_CACHE_TTL ≤ t2.

(** An access token the upstream has issued. *)
Definition issued (seed : TokenSet) (log : list CallLog) (at_ : string) : Prop :=
  at_ = seed.(access_token) ∨ ∃ t ts, CallAnswered t (Ok ts) ∈ log ∧ at_ = ts.(access_token).

(** ** The invariant *)

Definition holds_lock (ph : Phase) : bool :=
  match ph with FastCheck | AwaitLock | Returned _ => false | _ => true end.

Definition lock_ok (n : Net) : Prop :=
  ∀ i, n.1.(sh_lock) = Some i ↔ ∃ ph, n.2 !! i = Some ph ∧ holds_lock ph = true.

Definition holder (n : Net) : option Phase := n.1.(sh_lock) ≫= λ i, n.2 !! i.

(** The core agrees with the log. *)
Definition settled (seed : TokenSet) (s : Shared) : Prop :=
  sh_token s = current seed s.(sh_log) ∧
  match last s.(sh_log) with
  | Some (CallStarted _ _) => False
  | Some (CallAnswered t1 (Err (InvalidGrant _))) =>
      ∃ f, s.(sh_core).(gc_refresh_failure) = Some f ∧ t1 ≤ f.(cf_failed_at)
  | _ => True
  end.

(** The last [invalid_grant] is old enough. *)
Definition may_call (s : Shared) : Prop :=
  match last s.(sh_log) with
  | Some (CallAnswered t1 (Err (InvalidGrant _))) => t1 + FAILURE_CACHE_TTL ≤ s.(sh_instant)
  | _ => True
  end.

Definition holder_ok (seed : TokenSet) (s : Shared) (h : option Phase) : Prop :=
  match h with
  | None | Some Recheck | Some CheckFailure | Some (RecordFailure _) => settled seed s
  | Some ReadRefresh => settled seed s ∧ may_call s
  | Some (StartCall rt) =>
      settled seed s ∧ may_call s ∧ rt = (sh_token s).(refresh_token)
  | Some InCall =>
      sh_token s = current seed s.(sh_log) ∧ ∃ t rt, last s.(sh_log) = Some (CallStarted t rt)
  | Some (Answered a) =>
      ∃ pre t, s.(sh_log) = pre ++ [CallAnswered t a] ∧ t ≤ s.(sh_instant) ∧
        sh_token s = current seed pre
  | Some (ClearFailure at_) =>
      sh_token s = current seed s.(sh_log) ∧ issued seed s.(sh_log) at_ ∧
      ∃ t ts, last s.(sh_log) = Some (CallAnswered t (Ok ts))
  | _ => False
  end.

Record net_inv (seed : TokenSet) (n : Net) : Prop := {
  ni_lock : lock_ok n;
  ni_holder : holder_ok seed n.1 (holder n);
  ni_chained : log_chained seed n.1.(sh_log);
  ni_serial : log_serial n.1.(sh_log);
  ni_backs_off : log_backs_off n.1.(sh_log);
  ni_issued i at_ : n.2 !! i = Some (Returned (Ok at_)) → issued seed n.1.(sh_log) at_
}.

(** ** Logs *)

Lemma current_app seed l k : current seed (l ++ k) = current (current seed l) k.
Proof. revert seed. induction l as [|[t rt|t [ts|e]] l IH]; intros seed; simpl; auto. Qed.

Lemma snoc_split {A} (l pre post : list A) x e :
  l ++ [x] = pre ++ e :: post →
  (post = [] ∧ e = x ∧ pre = l) ∨ ∃ post', post = post' ++ [x] ∧ l = pre ++ e :: post'.
Proof.
  intros Heq. destruct post as [|y post _] using rev_ind.
  - left. apply app_inj_tail in Heq as [-> ->]. done.
  - right. exists post. rw app_comm_cons app_assoc in Heq.
    by apply app_inj_tail in Heq as [-> ->].
Qed.

Lemma chained_snoc seed l x :
  log_chained seed l →
  match x with CallStarted _ rt => rt = (current seed l).(refresh_token) | _ => True end →
  log_chained seed (l ++ [x]).
Proof.
  intros Hl Hx pre t rt post [(-> & <- & ->)|(post' & -> & ->)]%snoc_split; [done|].
  by eapply Hl.
Qed.

Lemma serial_snoc l x :
  log_serial l →
  match last l with Some (CallStarted _ _) => ∃ t a, x = CallAnswered t a | _ => True end →
  log_serial (l ++ [x]).
Proof.
  intros Hl Hx pre t rt e post [(? & ? & ?)|(post' & Hp & ->)]%snoc_split; [done|].
  destruct post' as [|y post']; simplify_eq/=.
  - by rw last_snoc in Hx.
  - by eapply Hl.
Qed.

Lemma backs_off_snoc l x :
  log_backs_off l →
  match last l, x with
  | Some (CallAnswered t1 (Err (InvalidGrant _))), CallStarted t2 _ => t1 + FAILURE_CACHE_TTL ≤ t2
  | _, _ => True
  end →
  log_backs_off (l ++ [x]).
Proof.
  intros Hl Hx pre t1 b t2 rt post [(? & ? & ?)|(post' & Hp & ->)]%snoc_split; [done|].
  destruct post' as [|y post']; simplify_eq/=.
  - by rw last_snoc in Hx.
  - by eapply Hl.
Qed.

Lemma issued_app seed l k at_ : issued seed l at_ → issued seed (l ++ k) at_.
Proof. intros [?|(t & ts & ? & ?)]; [by left|right]. exists t, ts. set_solver. Qed.

Lemma issued_current seed l : issued seed l (current seed l).(access_token).
Proof.
  induction l as [|[t rt|t [ts|e]] l IH] using rev_ind; [by left|..];
    rw current_app /=; [by apply issued_app| |by apply issued_app].
  right. exists t, ts. set_solver.
Qed.

(** ** The holder's steps *)

Definition log_ok (seed : TokenSet) (log : list CallLog) : Prop :=
  log_chained seed log ∧ log_serial log ∧ log_backs_off log.

(** Past the check of the cached failure, the last [invalid_grant] is old. *)
Lemma may_call_checked seed s :
  settled seed s → cached_failure_inside_refresh_lock s.(sh_instant) s.(sh_core) = None → may_call s.
Proof.
  intros [_ Hl] Hc. unfold may_call. repeat case_match; try done.
  destruct Hl as (f & Hf & Hle). unfold cached_failure_inside_refresh_lock in Hc.
  rw Hf /= in Hc. destruct (Z.ltb_spec (sh_instant s - cf_failed_at f) FAILURE_CACHE_TTL); [done|lia].
Qed.

(** Between two steps the log only grows, by what keeps it well formed. *)
Lemma log_grows seed s x :
  log_ok seed s.(sh_log) → sh_token s = current seed s.(sh_log) →
  match x, last s.(sh_log) with
  | CallStarted _ rt, Some (CallStarted _ _) => False
  | CallStarted t2 rt, Some (CallAnswered t1 (Err (InvalidGrant _))) =>
      t1 + FAILURE_CACHE_TTL ≤ t2 ∧ rt = (sh_token s).(refresh_token)
  | CallStarted _ rt, _ => rt = (sh_token s).(refresh_token)
  | _, _ => True
  end →
  log_ok seed (s.(sh_log) ++ [x]).
Proof.
  intros (Hc & Hs & Hb) Ht Hx. rw Ht in Hx. split_and!.
  - apply chained_snoc; [done|]. destruct x; [|done]. by repeat case_match; destruct_and?.
  - apply serial_snoc; [done|]. repeat case_match; naive_solver.
  - apply backs_off_snoc; [done|]. repeat case_match; naive_solver.
Qed.

Lemma holder_step seed i answer ph s ph' s' :
  holds_lock ph = true → holder_ok seed s (Some ph) → log_ok seed s.(sh_log) →
  thread_step i answer ph s = Some (ph', s') →
  holder_ok seed s' (if holds_lock ph' then Some ph' else None) ∧ log_ok seed s'.(sh_log) ∧
  s'.(sh_lock) = (if holds_lock ph' then s.(sh_lock) else None) ∧
  (∃ k, s'.(sh_log) = s.(sh_log) ++ k) ∧
  (∀ at_, ph' = Returned (Ok at_) → issued seed s'.(sh_log) at_).
Proof.
  intros Hh Hok Hlog Hstep.
  assert (Hsame : ∃ k, s.(sh_log) = s.(sh_log) ++ k) by (exists []; by rw app_nil_r).
  destruct ph as [| | | | |rt| |[t|e]|at_|e|r]; try done; simpl in Hstep, Hok.
  - destruct (is_valid_for_forwarding _ _); simplify_eq; simpl; split_and!; try done.
    intros at_ [= <-]. rw (proj1 Hok). apply issued_current.
  - destruct (cached_failure_inside_refresh_lock _ _) eqn:Hcache; simplify_eq; simpl; split_and!; try done.
    by apply (may_call_checked seed).
  - simplify_eq. by destruct Hok.
  - simplify_eq. destruct Hok as ([Ht Hl] & Hmay & ->). simpl; split_and!; try done.
    + by rw current_app /=.
    + rw last_snoc. eauto.
    + apply log_grows; [done..|]. unfold may_call in Hmay. by repeat case_match.
    + eauto.
  - simplify_eq. destruct Hok as (Ht & t & rt & Hl). simpl; split_and!; try done.
    + exists s.(sh_log), s.(sh_instant). by split_and!.
    + by apply log_grows.
    + eauto.
  - simplify_eq. destruct Hok as (pre & t0 & Hl & Hle & Ht). simpl; split_and!; try done.
    + by rw Hl current_app.
    + rw Hl. right. exists t0, t. set_solver.
    + rw Hl last_snoc. eauto.
  - simplify_eq. destruct Hok as (pre & t0 & Hl & Hle & Ht). simpl.
    destruct e as [b|st b]; simpl; unfold settled; simpl; rw Hl last_snoc current_app /= -Hl;
      split_and!; try done. eauto.
  - simplify_eq. destruct Hok as (Ht & Hi & t & ts & Hl). simpl. unfold settled. simpl. rw Hl.
    split_and!; try done. by intros ? [= <-].
  - simplify_eq. by split_and!.
Qed.

(** ** The network *)

Lemma lock_ok_update s s' ts i ph ph' :
  lock_ok (s, ts) → ts !! i = Some ph → holds_lock ph = true →
  s'.(sh_lock) = (if holds_lock ph' then s.(sh_lock) else None) →
  lock_ok (s', <[i := ph']> ts).
Proof.
  intros Hlk Hi Hh Hl j. simpl. rw Hl.
  assert (Hli : s.(sh_lock) = Some i) by (apply Hlk; eauto).
  destruct (decide (j = i)) as [->|Hne].
  - rw lookup_insert_eq Hli. destruct (holds_lock ph') eqn:Hh'; split; try done; [by eauto|].
    intros (q & [= <-] & Hq). by rw Hh' in Hq.
  - rw lookup_insert_ne //. split.
    + destruct (holds_lock ph'); [|done]. rw Hli. by intros [= ->].
    + intros Hj. apply Hlk in Hj. rw /= Hli in Hj. by injection Hj.
Qed.

(** A step of a caller without the lock, to a phase without it. *)
Lemma lock_ok_outside s ts i ph' :
  lock_ok (s, ts) → s.(sh_lock) ≠ Some i → holds_lock ph' = false →
  lock_ok (s, <[i := ph']> ts) ∧ holder (s, <[i := ph']> ts) = holder (s, ts).
Proof.
  intros Hlk Hi Hh. split.
  - intros j. destruct (decide (j = i)) as [->|Hne]; simpl.
    + rw lookup_insert_eq. split; [done|]. intros (q & [= <-] & Hq). by rw Hh in Hq.
    + by rw lookup_insert_ne.
  - unfold holder. simpl. destruct (sh_lock s) as [j|]; [|done]. simpl.
    rw lookup_insert_ne //. congruence.
Qed.

Lemma holder_of s ts i ph :
  lock_ok (s, ts) → ts !! i = Some ph → holds_lock ph = true → holder (s, ts) = Some ph.
Proof.
  intros Hlk Hi Hh. unfold holder. assert (Hl : s.(sh_lock) = Some i) by (apply Hlk; eauto).
  simpl. by rw Hl /=.
Qed.

Lemma not_holder s ts i ph :
  lock_ok (s, ts) → ts !! i = Some ph → holds_lock ph = false → s.(sh_lock) ≠ Some i.
Proof. intros Hlk Hi Hh Hl. apply Hlk in Hl as (q & Hq & Hhq). simplify_eq/=. congruence. Qed.

Lemma inv_outside seed s ts i ph' :
  net_inv seed (s, ts) → s.(sh_lock) ≠ Some i → holds_lock ph' = false →
  (∀ at_, ph' = Returned (Ok at_) → issued seed s.(sh_log) at_) →
  net_inv seed (s, <[i := ph']> ts).
Proof.
  intros [Hlk Hho Hc Hs Hb Hi] Hl Hh Hat.
  destruct (lock_ok_outside s ts i ph' Hlk Hl Hh) as [Hlk' Hho']. split; try done.
  - by rw Hho'.
  - intros j at_. simpl. destruct (decide (j = i)) as [->|Hne].
    + rw lookup_insert_eq. intros [= Heq]. by apply Hat.
    + rw lookup_insert_ne //. apply Hi.
Qed.

(** A caller that takes the free lock finds the core settled. *)
Lemma inv_acquire seed s ts i :
  net_inv seed (s, ts) → ts !! i = Some AwaitLock → s.(sh_lock) = None →
  net_inv seed (set_lock (Some i) s, <[i := Recheck]> ts).
Proof.
  intros [Hlk Hho Hc Hs Hb Hi] Hti Hl. simpl in *. split; try done; simpl.
  - intros j. simpl. destruct (decide (j = i)) as [->|Hne]; [rw lookup_insert_eq; naive_solver|].
    rw lookup_insert_ne //. split; [by intros [= ->]|]. intros Hj. apply Hlk in Hj.
    by rw /= Hl in Hj.
  - unfold holder in *. simpl in *. rw lookup_insert_eq. by rw Hl in Hho.
  - intros j at_. destruct (decide (j = i)) as [->|Hne]; [by rw lookup_insert_eq|].
    rw lookup_insert_ne //. apply Hi.
Qed.

Lemma inv_holder seed s s' ts i answer ph ph' :
  net_inv seed (s, ts) → ts !! i = Some ph → holds_lock ph = true →
  thread_step i answer ph s = Some (ph', s') → net_inv seed (s', <[i := ph']> ts).
Proof.
  intros [Hlk Hho Hc Hs Hb Hi] Hti Hh Hstep. simpl in *.
  rw (holder_of _ _ _ _ Hlk Hti Hh) in Hho.
  destruct (holder_step seed i answer ph s ph' s') as (Hho' & (Hc' & Hs' & Hb') & Hl' & [k Hk] & Hat);
    [done|done|by split_and!|done|].
  assert (Hlk' : lock_ok (s', <[i := ph']> ts)) by (by eapply lock_ok_update).
  split; try done; simpl.
  - destruct (holds_lock ph') eqn:Hh'.
    + by rw (holder_of _ _ i ph' Hlk') ?lookup_insert_eq.
    + unfold holder. by rw /= Hl'.
  - intros j at_. destruct (decide (j = i)) as [->|Hne].
    + rw lookup_insert_eq. intros [= Heq]. by apply Hat.
    + rw lookup_insert_ne // Hk. intros Hj. by eapply issued_app, Hi.
Qed.

Lemma settled_clocks seed now instant s : settled seed s → settled seed (set_clocks now instant s).
Proof. done. Qed.

Lemma holder_ok_clocks seed now instant s h :
  s.(sh_instant) ≤ instant → holder_ok seed s h → holder_ok seed (set_clocks now instant s) h.
Proof.
  intros Hle. assert (Hmay : may_call s → may_call (set_clocks now instant s)).
  { unfold may_call. simpl. repeat case_match; try done. lia. }
  destruct h as [[| | | | |rt| |a|at_|e|r]|]; simpl; try done.
  - intros [? ?]. by split; [|apply Hmay].
  - intros (? & ? & ?). by split_and!; [|apply Hmay|].
  - intros (pre & t & ? & ? & ?). exists pre, t. split_and!; [done|lia|done].
Qed.

(** Whatever the holder is doing, the token in the core was issued. *)
Lemma token_issued seed s h : holder_ok seed s h → issued seed s.(sh_log) (sh_token s).(access_token).
Proof.
  assert (Hcur : sh_token s = current seed s.(sh_log) →
                 issued seed s.(sh_log) (sh_token s).(access_token)).
  { intros ->. apply issued_current. }
  destruct h as [[| | | | |rt| |a|at_|e|r]|]; simpl; unfold settled; try naive_solver.
  intros (pre & t & -> & _ & ->). apply issued_app, issued_current.
Qed.

Lemma net_inv_step seed n n' : net_inv seed n → net_step n n' → net_inv seed n'.
Proof.
  intros Hinv Hstep. destruct Hstep as [i answer ph ph' s s' ts Hi Hth|i s ts Hi|now inst s ts Hle].
  - destruct (holds_lock ph) eqn:Hh; [by eapply inv_holder|].
    pose proof (not_holder s ts i ph (ni_lock _ _ Hinv) Hi Hh) as Hl.
    destruct ph; try done; simpl in Hth.
    + destruct (is_valid_for_forwarding _ _); simplify_eq; apply inv_outside; try done.
      intros at_ [= <-]. eapply token_issued, Hinv.
    + destruct (sh_lock s) eqn:Hlock; simplify_eq. by apply inv_acquire.
  - apply inv_outside; try done. intros Hl. apply (ni_lock _ _ Hinv) in Hl as (q & Hq & _).
    by rw /= Hi in Hq.
  - destruct Hinv as [Hlk Hho Hc Hs Hb Hi]. split; try done. by apply holder_ok_clocks.
Qed.

Lemma net_reachable_inv seed n : net_reachable seed n → net_inv seed n.
Proof.
  intros (n0 & (now & inst & ->) & Hrtc).
  assert (H0 : net_inv seed (MkShared (new_core seed) None now inst [], ∅)).
  { split; simpl; try done; [intros i|intros pre ????|intros pre ????|intros pre ?????]; simpl.
    - split; [done|]. intros (ph & Hph & _). by rw lookup_empty in Hph.
    - by destruct pre.
    - by destruct pre.
    - by destruct pre. }
  induction Hrtc as [|n1 n2 n3 Hs _ IH]; [done|]. by eapply IH, net_inv_step.
Qed.

(** C7: the account's refresh token is used by one caller at a time and never
    after it was exchanged.  However the callers interleave, and whatever the
    clocks do, no refresh starts while another is in flight; every refresh
    sends the refresh token of the credential last answered (or of the seed);
    after the upstream answers [invalid_grant] nobody asks again for thirty
    seconds; at most one caller is inside the critical section; and a caller
    that is answered an access token gets one the upstream has issued. *)
Theorem refresh_is_single_flight seed s ts :
  net_reachable seed (s, ts) →
  log_serial s.(sh_log) ∧ log_chained seed s.(sh_log) ∧ log_backs_off s.(sh_log) ∧
  (∀ i j ph ph', ts !! i = Some ph → ts !! j = Some ph' →
     holds_lock ph = true → holds_lock ph' = true → i = j) ∧
  ∀ i at_, ts !! i = Some (Returned (Ok at_)) → issued seed s.(sh_log) at_.
Proof.
  intros [Hlk Hho Hc Hs Hb Hi]%net_reachable_inv. split_and!; try done.
  intros i j ph ph' Hti Htj Hpi Hpj.
  assert (Hl : s.(sh_lock) = Some i) by (apply Hlk; eauto).
  assert (Hl' : s.(sh_lock) = Some j) by (apply Hlk; eauto). congruence.
Qed.

(** ** Every caller returns *)

(** A step of caller [i] when the upstream would answer [answer]. *)
Definition caller_step (answer : UpstreamResult TokenSet) (i : nat) (n n' : Net) : Prop :=
  ∃ ph ph' s', n.2 !! i = Some ph ∧ thread_step i answer ph n.1 = Some (ph', s') ∧
    n' = (s', <[i := ph']> n.2).

Definition any_caller_step (answer : UpstreamResult TokenSet) (n n' : Net) : Prop :=
  ∃ i, caller_step answer i n n'.

(** How many of its own steps a caller has left, at most. *)
Definition steps_left (ph : Phase) : nat :=
  match ph with
  | FastCheck => 9 | AwaitLock => 8 | Recheck => 7 | CheckFailure => 6 | ReadRefresh => 5
  | StartCall _ => 4 | InCall => 3 | Answered _ => 2 | ClearFailure _ | RecordFailure _ => 1
  | Returned _ => 0
  end%nat.

Lemma steps_left_decrease i answer ph s ph' s' :
  thread_step i answer ph s = Some (ph', s') → (steps_left ph' < steps_left ph)%nat.
Proof.
  destruct ph as [| | | | |rt| |[t|e]|at_|e|r]; simpl; intros Hs; repeat case_match; simplify_eq/=;
    lia.
Qed.

(** The caller in the critical section is never blocked, and leaves it. *)
Lemma holder_can_step i answer ph s :
  holds_lock ph = true → ∃ ph' s', thread_step i answer ph s = Some (ph', s') ∧
    (holds_lock ph' = true ∨ ∃ r, ph' = Returned r ∧ s'.(sh_lock) = None).
Proof.
  intros Hh. destruct ph as [| | | | |rt| |[t|e]|at_|e|r]; simpl; try done; repeat case_match; eauto 8.
Qed.

Lemma holder_returns answer i s ts ph :
  ts !! i = Some ph → holds_lock ph = true →
  ∃ s' r, rtc (caller_step answer i) (s, ts) (s', <[i := Returned r]> ts) ∧ s'.(sh_lock) = None.
Proof.
  remember (steps_left ph) as n eqn:Hn. revert s ts ph Hn.
  induction n as [n IH] using lt_wf_ind. intros s ts ph -> Hi Hh.
  destruct (holder_can_step i answer ph s Hh) as (ph' & s' & Hstep & Hph').
  assert (Hcs : caller_step answer i (s, ts) (s', <[i := ph']> ts)) by (by exists ph, ph', s').
  destruct Hph' as [Hh'|(r & -> & Hl)].
  - destruct (IH (steps_left ph') (steps_left_decrease _ _ _ _ _ _ Hstep) s' (<[i := ph']> ts) ph'
                eq_refl (lookup_insert_eq _ _ _) Hh') as (s2 & r & Hrtc & Hl).
    exists s2, r. split; [|done]. rw insert_insert_eq in Hrtc. by eapply rtc_l.
  - exists s', r. split; [by apply rtc_once|done].
Qed.

Lemma caller_any answer i n n' : rtc (caller_step answer i) n n' → rtc (any_caller_step answer) n n'.
Proof. apply rtc_subrel. by exists i. Qed.

Lemma free_lock_returns answer s ts i :
  ts !! i = Some AwaitLock → s.(sh_lock) = None →
  ∃ s' r, rtc (any_caller_step answer) (s, ts) (s', <[i := Returned r]> ts).
Proof.
  intros Hi Hl.
  destruct (holder_returns answer i (set_lock (Some i) s) (<[i := Recheck]> ts) Recheck)
    as (s' & r & Hrtc & _); [apply lookup_insert_eq|done|]. rw insert_insert_eq in Hrtc.
  exists s', r. apply (caller_any _ i). eapply rtc_l; [|exact Hrtc].
  exists AwaitLock, Recheck, (set_lock (Some i) s). split_and!; [done| |done]. by rw /= Hl.
Qed.

Lemma waiter_returns seed answer s ts i :
  net_reachable seed (s, ts) → ts !! i = Some AwaitLock →
  ∃ s' ts' r, rtc (any_caller_step answer) (s, ts) (s', ts') ∧ ts' !! i = Some (Returned r).
Proof.
  intros [Hlk _ _ _ _ _]%net_reachable_inv Hi. destruct (sh_lock s) as [j|] eqn:Hl.
  - pose proof Hl as (ph & Hj & Hh)%Hlk. simpl in Hj.
    destruct (holder_returns answer j s ts ph Hj Hh) as (s1 & r1 & Hrtc & Hl1).
    assert (Hne : i ≠ j) by (intros ->; by simplify_eq).
    destruct (free_lock_returns answer s1 (<[j := Returned r1]> ts) i) as (s2 & r & Hrtc2);
      [by rw lookup_insert_ne|done|].
    exists s2, (<[i := Returned r]> (<[j := Returned r1]> ts)), r.
    split; [|apply lookup_insert_eq]. by etrans; [apply (caller_any _ j)|].
  - destruct (free_lock_returns answer s ts i Hi Hl) as (s' & r & Hrtc).
    exists s', (<[i := Returned r]> ts), r. split; [done|apply lookup_insert_eq].
Qed.

(** C37: every caller of [valid_access_token] returns.  A caller takes at most
    nine steps of its own (each step leaves it fewer), so the callers together
    never run forever; and no deadlock: in every reachable state, whatever the
    upstream answers, the callers can be run so that any given one returns. *)
Theorem callers_return seed s ts i ph :
  net_reachable seed (s, ts) → ts !! i = Some ph →
  (∀ j answer q s1 q' s2, thread_step j answer q s1 = Some (q', s2) →
     (steps_left q' < steps_left q ≤ 9)%nat) ∧
  ∀ answer, ∃ s' ts' r, rtc (any_caller_step answer) (s, ts) (s', ts') ∧ ts' !! i = Some (Returned r).
Proof.
  intros Hreach Hi. split.
  { intros j a q s1 q' s2 Hs. split; [by eapply steps_left_decrease|]. destruct q; simpl; lia. }
  intros answer. destruct (holds_lock ph) eqn:Hh.
  { destruct (holder_returns answer i s ts ph Hi Hh) as (s' & r & Hrtc & _).
    exists s', (<[i := Returned r]> ts), r. split; [by eapply caller_any|apply lookup_insert_eq]. }
  destruct ph; try done; [|by eapply waiter_returns|by eexists _, _, _].
  destruct (is_valid_for_forwarding s.(sh_now) (sh_token s)) eqn:Hv.
  - eexists s, _, _. split; [|apply lookup_insert_eq]. apply rtc_once. exists i, FastCheck.
    eexists _, s. split_and!; [done|by rw /= Hv|done].
  - assert (Hstep : thread_step i answer FastCheck s = Some (AwaitLock, s)) by (by rw /= Hv).
    destruct (waiter_returns seed answer s (<[i := AwaitLock]> ts) i) as (s' & ts' & r & Hrtc & Hr).
    + destruct Hreach as (n0 & H0 & Hrtc). exists n0. split; [done|]. eapply rtc_r; [done|].
      by eapply run_caller.
    + apply lookup_insert_eq.
    + exists s', ts', r. split; [|done]. eapply rtc_l; [|exact Hrtc].
      by exists i, FastCheck, AwaitLock, s.
Qed.

(** ** One caller alone *)

Definition log_of (instant : Z) (answer : UpstreamResult TokenSet) (c : UpstreamCall) : list CallLog :=
  match c with
  | CallRefresh rt => [CallStarted instant rt; CallAnswered instant answer]
  | CallMessages _ => []
  end.

(** [k] steps of a caller alone. *)
Fixpoint solo (k : nat) (answer : UpstreamResult TokenSet) (ph : Phase) (s : Shared) :
    Phase * Shared :=
  match k with
  | O => (ph, s)
  | S k => match thread_step 0 answer ph s with
           | Some (ph', s') => solo k answer ph' s'
           | None => (ph, s)
           end
  end.

(** A caller that nobody interrupts does what [valid_access_token] says: the
    interleaved steps and the function [forward_messages] uses are one and the
    same program. *)
Theorem solo_is_valid_access_token upstream s :
  s.(sh_lock) = None →
  let '(res, core', calls) :=
    valid_access_token upstream s.(sh_now) s.(sh_instant) s.(sh_core) in
  let answer := upstream.(up_refresh) (sh_token s).(refresh_token) in
  solo 9 answer FastCheck s =
    (Returned res, MkShared core' None s.(sh_now) s.(sh_instant)
                     (s.(sh_log) ++ concat (log_of s.(sh_instant) answer <$> calls))).
Proof.
  intros Hl. destruct s as [core lock now inst log]. simpl in Hl. subst lock.
  unfold valid_access_token. cbn [sh_core sh_now sh_instant sh_log sh_token].
  destruct (is_valid_for_forwarding now (gc_token core)) eqn:Hv.
  - cbn. unfold sh_token. cbn. rw Hv app_nil_r //.
  - destruct (cached_failure_inside_refresh_lock inst core) as [e|] eqn:Hc.
    + cbn. unfold sh_token. cbn. rw Hv. cbn. rw Hv. cbn. rw Hc app_nil_r //.
    + set (rt := refresh_token (gc_token core)).
      assert (Hs : ∀ answer, solo 9 answer FastCheck (MkShared core None now inst log) =
        solo 3 answer InCall (MkShared core (Some 0%nat) now inst (log ++ [CallStarted inst rt]))).
      { intros answer. cbn -[app]. unfold sh_token. cbn -[app]. rw Hv. cbn -[app]. rw Hv.
        cbn -[app]. rw Hc //. }
      rw Hs. unfold finish_refresh. unfold sh_token. cbn -[app]. fold rt.
      destruct (up_refresh upstream rt) as [t|[b|st b]]; cbn -[app];
        unfold set_lock, set_core, add_log; cbn -[app]; by rw -app_assoc.
Qed.
