(* ===== verification/GatewayHttp.v ===== *)
(** * The gateway's HTTP ([src/src/claude_gateway.rs])

    The connection of a worker carries one request and one response.  The
    reader takes the head a byte at a time up to a limit, so that it never
    reads past the blank line, then exactly the announced body.  Its bounds and
    its completeness follow the definitions. *)
From S2P Require Import Prelude Json Schema Text Base64 Gateway.
From Stdlib Require Import Ascii.

Definition HEADER_LIMIT : Z := 8 * 1024.
Definition BODY_LIMIT : Z := 10 * 1024 * 1024.

(** What the peer sends, and whether reading past it finds the stream closed
    ([None]) or fails. *)
Record Stream : Type := MkStream {
  st_bytes : Bytes;
  st_end : option string
}.

Definition bad_request (body : string) : GatewayError :=
  MkGatewayError 400 "AH_CLAUDE_GATEWAY_BAD_REQUEST" body.

Definition CRLF : string := bytes_str [13; 10]%nat.
Definition BLANK_LINE : Bytes := [13; 10; 13; 10].

(** [buf.ends_with(b"\r\n\r\n")] *)
Definition at_blank_line (buf : Bytes) : bool := drop (length buf - 4) buf == BLANK_LINE.

(** [while buf.len() < HEADER_LIMIT * 2 && !buf.ends_with(..)]; a read that
    fails, ends or takes too long stops it.  Answers what is left unread. *)
Fixpoint drain_oversized_headers (buf : Bytes) (input : Bytes) : Bytes :=
  if (Z.of_nat (length buf) <? HEADER_LIMIT * 2) && negb (at_blank_line buf) then
    match input with
    | [] => []
    | b :: input' => drain_oversized_headers (buf ++ [b]) input'
    end
  else input.

(** The loop that reads the head, and what it leaves unread. *)
Fixpoint read_head (buf : Bytes) (ending : option string) (input : Bytes) :
    Result Bytes GatewayError * Bytes :=
  match input with
  | [] => (Err (bad_request (match ending with
                             | None => "connection closed before headers"
                             | Some err => err
                             end)), [])
  | b :: input' =>
      let buf := buf ++ [b] in
      if HEADER_LIMIT <? Z.of_nat (length buf) then
        (Err (bad_request "gateway request headers exceed 8KB"),
         drain_oversized_headers buf input')
      else if at_blank_line buf then (Ok buf, input')
      else read_head buf ending input'
  end.

(** [headers_raw.split("\r\n")] *)
Fixpoint split_crlf (s : string) : list string :=
  match s with
  | EmptyString => [""]
  | String a s' =>
      let continue := match split_crlf s' with
                      | p :: ps => String a p :: ps
                      | [] => [String a ""]
                      end in
      match s' with
      | String b s'' =>
          if bool_decide (a = ascii_byte 13) && bool_decide (b = ascii_byte 10)
          then "" :: split_crlf s'' else continue
      | EmptyString => continue
      end
  end.

Definition is_content_length (name : string) : bool := eq_ignore_ascii_case name "content-length".

(** The loop over the header lines; the last [content-length] counts. *)
Fixpoint parse_headers (headers : list (string * string)) (content_length : Z)
    (lines : list string) : Result (list (string * string) * Z) GatewayError :=
  match lines with
  | [] => Ok (headers, content_length)
  | line :: lines' =>
      match split_once ":" line with
      | None => Err (bad_request "malformed header")
      | Some (name, value) =>
          let value := trim value in
          if is_content_length name then
            match parse_usize value with
            | None => Err (bad_request "invalid content-length")
            | Some n =>
                if BODY_LIMIT <? n then Err (bad_request "gateway request body exceeds 10MB")
                else parse_headers (headers ++ [(trim name, value)]) n lines'
            end
          else parse_headers (headers ++ [(trim name, value)]) content_length lines'
      end
  end.

Section Http.
Context {GX : GatewayExternals}.

Definition read_http_request (stream : Stream) (worker_id : string) :
    Result GatewayRequest GatewayError * Bytes :=
  match read_head [] stream.(st_end) stream.(st_bytes) with
  | (Err e, rest) => (Err e, rest)
  | (Ok buf, rest) =>
      if negb (valid_utf8 buf) then (Err (bad_request "headers are not valid UTF-8"), rest)
      else match split_crlf (of_bytes buf) with
      | [] => (Err (bad_request "missing request line"), rest)
      | request_line :: lines =>
          match split_whitespace request_line with
          | [] => (Err (bad_request "missing method"), rest)
          | [method] => (Err (bad_request "missing path"), rest)
          | method :: path :: _ =>
              match parse_headers [] 0 (filter (λ l, l ≠ "") lines) with
              | Err e => (Err e, rest)
              | Ok (headers, content_length) =>
                  let n := Z.to_nat content_length in
                  if bool_decide (n ≤ length rest)%nat then
                    (Ok (MkGatewayRequest worker_id method path headers (take n rest)), drop n rest)
                  else (Err (bad_request (default early_eof stream.(st_end))), [])
              end
          end
      end
  end.

(** ** Responses *)

Definition reason_phrase (status : Z) : string :=
  if status =? 200 then "OK" else if status =? 400 then "Bad Request"
  else if status =? 401 then "Unauthorized" else if status =? 403 then "Forbidden"
  else if status =? 500 then "Internal Server Error" else "Gateway Response".

Definition simple_response (status : Z) (body : string) : GatewayResponse :=
  MkGatewayResponse status [("content-type", "text/plain")] (as_bytes body).

Definition header_line (h : string * string) : string := h.1 +:+ ": " +:+ h.2 +:+ CRLF.

Definition write_http_response (response : GatewayResponse) : Bytes :=
  let has_content_length := existsb (λ h, is_content_length h.1) response.(gs_headers) in
  as_bytes (
    "HTTP/1.1 " +:+ decimal response.(gs_status) +:+ " " +:+
      reason_phrase response.(gs_status) +:+ CRLF +:+
    concat_str (header_line <$> response.(gs_headers)) +:+
    (if has_content_length then ""
     else "content-length: " +:+ decimal (Z.of_nat (length response.(gs_body))) +:+ CRLF) +:+
    CRLF) ++ response.(gs_body).

(** A connection from the accepted stream to the bytes written back.  A peer
    that sends too slowly ([timed_out]) is dropped without an answer. *)
Definition handle_gateway_connection (upstream : ClaudeUpstream) (now instant : Z)
    (core : GatewayCore) (worker_id : string) (timed_out : bool) (stream : Stream) :
    GatewayCore * list UpstreamCall * Bytes :=
  if timed_out then (core, [], [])
  else match (read_http_request stream worker_id).1 with
  | Err err => (core, [], write_http_response (simple_response err.(ge_status) err.(ge_body)))
  | Ok request =>
      let '(result, core', calls) := forward_messages upstream now instant core request in
      let response := match result with
                      | Ok response => response
                      | Err err => simple_response err.(ge_status) err.(ge_body)
                      end in
      (core', calls, write_http_response response)
  end.

End Http.

(** ** Bounds and completeness *)

(** ** The head *)

Lemma read_head_ok buf ending input head rest :
  read_head buf ending input = (Ok head, rest) →
  ∃ h, head = buf ++ h ∧ input = h ++ rest ∧ Z.of_nat (length head) ≤ HEADER_LIMIT ∧
    at_blank_line head = true ∧
    ∀ p q, h = p ++ q → p ≠ [] → q ≠ [] → at_blank_line (buf ++ p) = false.
Proof.
  revert buf. induction input as [|b input IH]; intros buf; cbn [read_head]; [done|].
  destruct (Z.ltb_spec HEADER_LIMIT (Z.of_nat (length (buf ++ [b])))) as [|Hlen]; [done|].
  destruct (at_blank_line (buf ++ [b])) eqn:Hb.
  - intros [= <- <-]. exists [b]. split_and!; try done. intros [|x p] q Hp ?? ; [done|].
    destruct p, q; simplify_list_eq.
  - intros (h & -> & -> & Hl & Hbl & Hmin)%IH. exists (b :: h).
    rw -app_assoc in Hl Hbl. rw -app_assoc. split_and!; try done.
    intros [|x p] q Hp ? Hq; simplify_list_eq. destruct p as [|y p]; [done|].
    rw (cons_middle x) app_assoc. by eapply Hmin.
Qed.

Lemma read_head_err buf ending input e rest :
  read_head buf ending input = (Err e, rest) → e.(ge_status) = 400.
Proof.
  revert buf. induction input as [|b input IH]; intros buf; cbn [read_head]; [by intros [= <- _]|].
  destruct (HEADER_LIMIT <? _); [by intros [= <- _]|]. destruct (at_blank_line _); [done|]. apply IH.
Qed.

Lemma parse_headers_bound headers n lines headers' n' :
  n ≤ BODY_LIMIT → parse_headers headers n lines = Ok (headers', n') → n' ≤ BODY_LIMIT.
Proof.
  revert headers n. induction lines as [|line lines IH]; intros headers n Hn; cbn [parse_headers].
  { by intros [= _ <-]. }
  destruct (split_once ":" line) as [[name value]|]; [|done].
  destruct (is_content_length name); [|by apply IH].
  destruct (parse_usize (trim value)) as [m|]; [|done].
  destruct (Z.ltb_spec BODY_LIMIT m); [done|]. by apply IH.
Qed.

Lemma parse_headers_err headers n lines e :
  parse_headers headers n lines = Err e → e.(ge_status) = 400.
Proof.
  revert headers n. induction lines as [|line lines IH]; intros headers n; cbn [parse_headers]; [done|].
  destruct (split_once ":" line) as [[name value]|]; [|by intros [= <-]].
  destruct (is_content_length name); [|by apply IH].
  destruct (parse_usize (trim value)) as [m|]; [|by intros [= <-]].
  destruct (BODY_LIMIT <? m); [by intros [= <-]|]. by apply IH.
Qed.

(** ** ASCII text *)

Definition graphic (b : Z) : Prop := 33 ≤ b ≤ 126.

(** Each byte as a character. *)
Fixpoint letters (s : string) : list string :=
  match s with EmptyString => [] | String a s' => String a "" :: letters s' end.

Lemma concat_letters s : concat_str (letters s) = s.
Proof. induction s as [|a s IH]; simpl; [done|]. by rw IH. Qed.

Lemma utf8_extra_ascii a : byte_of a < 128 → utf8_extra a = 0%nat.
Proof. unfold byte_of, utf8_extra. intros Ha. rw bool_decide_true //. lia. Qed.

Lemma chars_ascii_app s t :
  Forall (λ b, b < 128) (as_bytes s) → chars (s +:+ t) = letters s ++ chars t.
Proof.
  induction s as [|a s IH]; [done|]. simpl as_bytes. rw Forall_cons. intros [Ha Hs].
  change (String a s +:+ t) with (String a (s +:+ t)). unfold chars in *. cbn [chars_go].
  rw utf8_extra_ascii //. by rw IH.
Qed.

Lemma chars_ascii s : Forall (λ b, b < 128) (as_bytes s) → chars s = letters s.
Proof.
  intros Hs. rw -{1}(string_app_nil_r s) chars_ascii_app //. apply app_nil_r.
Qed.

Lemma graphic_not_ws a : graphic (byte_of a) → is_whitespace (String a "") = false.
Proof.
  unfold graphic. intros Ha. destruct a as [[] [] [] [] [] [] [] []]; try reflexivity;
    vm_compute in Ha; by destruct Ha.
Qed.

Lemma graphic_ascii s : Forall graphic (as_bytes s) → Forall (λ b, b < 128) (as_bytes s).
Proof. intros Hs. apply (Forall_impl _ _ _ Hs). unfold graphic. lia. Qed.

Lemma letters_not_ws s :
  Forall graphic (as_bytes s) → Forall (λ c, is_whitespace c = false) (letters s).
Proof.
  induction s as [|a s IH]; simpl; [done|]. rw !Forall_cons. intros [Ha Hs].
  split; [by apply graphic_not_ws|auto].
Qed.

Lemma drop_ws_none l : Forall (λ c, is_whitespace c = false) l → drop_ws l = l.
Proof. destruct 1 as [|c l Hc _]; simpl; [done|]. by rw Hc. Qed.

Lemma trim_graphic s : Forall graphic (as_bytes s) → trim s = s.
Proof.
  intros Hs. unfold trim. pose proof (letters_not_ws s Hs) as Hl.
  rw chars_ascii; [by apply graphic_ascii|]. rw (drop_ws_none (letters s)) //.
  rw drop_ws_none; [by apply Forall_reverse|]. rw reverse_involutive. apply concat_letters.
Qed.

Lemma trim_space v : trim v = v → trim (" " +:+ v) = v.
Proof.
  intros Hv. transitivity (trim v); [|done]. unfold trim.
  rw (chars_ascii_app " "); [by repeat constructor|]. done.
Qed.

Lemma words_go_letters cur s l :
  Forall graphic (as_bytes s) → words_go cur (letters s ++ l) = words_go (reverse (letters s) ++ cur) l.
Proof.
  revert cur. induction s as [|a s IH]; intros cur; simpl; [done|].
  rw Forall_cons. intros [Ha Hs]. rw graphic_not_ws // IH // reverse_cons -app_assoc //.
Qed.

(** A word, then a space, then the rest. *)
Lemma split_whitespace_word s t :
  s ≠ "" → Forall graphic (as_bytes s) →
  split_whitespace (s +:+ " " +:+ t) = s :: split_whitespace t.
Proof.
  intros Hne Hs. unfold split_whitespace. rw chars_ascii_app; [by apply graphic_ascii|].
  rw (chars_ascii_app " "); [by repeat constructor|]. rw words_go_letters // app_nil_r. cbn [letters app words_go].
  change (is_whitespace " ") with true. cbv iota.
  destruct s as [|a s]; [done|]. destruct (reverse (letters (String a s))) as [|c l] eqn:Hr.
  { apply (f_equal reverse) in Hr. by rw reverse_involutive in Hr. }
  by rw -Hr reverse_involutive concat_letters.
Qed.

(** ** Lines *)

Definition no_cr (s : string) : Prop := Forall (λ b, b ≠ 13) (as_bytes s).

Definition crlf_lines (ls : list string) : string := concat_str ((λ l, l +:+ CRLF) <$> ls).

Lemma split_crlf_line l t : no_cr l → split_crlf (l +:+ CRLF +:+ t) = l :: split_crlf t.
Proof.
  unfold no_cr. induction l as [|a l IH]; simpl as_bytes; [done|].
  rw Forall_cons. intros [Ha Hl].
  change (String a l +:+ CRLF +:+ t) with (String a (l +:+ CRLF +:+ t)). cbn [split_crlf].
  rw IH //. rw (bool_decide_false (a = ascii_byte 13)); [by intros ->|]. cbn [andb].
  by destruct (l +:+ CRLF +:+ t).
Qed.

Lemma split_crlf_lines ls : Forall no_cr ls → split_crlf (crlf_lines ls +:+ CRLF) = ls ++ [""; ""].
Proof.
  induction 1 as [|l ls Hl Hls IH]; [done|]. unfold crlf_lines in *. rw fmap_cons. cbn [concat_str foldr].
  rw !string_app_assoc split_crlf_line //. by rw IH.
Qed.

(** Bytes of the head: the only blank line is its end. *)
Lemma crlf_lines_cons l ls :
  as_bytes (crlf_lines (l :: ls) +:+ CRLF) = as_bytes l ++ 13 :: 10 :: as_bytes (crlf_lines ls +:+ CRLF).
Proof.
  unfold crlf_lines. rw fmap_cons. cbn [concat_str foldr].
  rw !string_app_assoc !as_bytes_app. done.
Qed.

Lemma blank_line_last ls q t :
  Forall (λ l, no_cr l ∧ l ≠ "") ls →
  as_bytes (crlf_lines ls +:+ CRLF) = q ++ BLANK_LINE ++ t → t = [].
Proof.
  intros Hls. revert q t. induction Hls as [|l ls [Hl Hne] Hls IH]; intros q t Heq.
  { apply (f_equal length) in Heq. rw !length_app /= in Heq. lia. }
  rw crlf_lines_cons in Heq. unfold BLANK_LINE in *. unfold no_cr in Hl.
  assert (∃ q', q = as_bytes l ++ q') as [q' ->].
  { clear IH Hls Hne. revert q Heq Hl. induction (as_bytes l) as [|b bs IHb]; intros q Heq Hl.
    { by exists q. }
    rw Forall_cons in Hl. destruct Hl as [Hb Hbs]. destruct q as [|b' q]; simplify_list_eq.
    destruct (IHb q) as [q' ->]; [done..|]. by exists q'. }
  rw -app_assoc in Heq. apply app_inv_head in Heq.
  destruct q' as [|x [|y q']]; simplify_list_eq; [|by eapply (IH q')].
  destruct Hls as [|l' ls [Hl' Hne'] Hls]; [by simplify_list_eq|].
  rw crlf_lines_cons in Heq. destruct l' as [|a l']; [done|]. unfold no_cr in Hl'. simpl in Hl'.
  rw Forall_cons in Hl'. destruct Hl' as [Ha _]. simpl in Heq. by injection Heq.
Qed.

Lemma crlf_lines_blank ls :
  ls ≠ [] → ∃ q, as_bytes (crlf_lines ls +:+ CRLF) = q ++ BLANK_LINE.
Proof.
  induction ls as [|l ls IH]; [done|]. intros _. rw crlf_lines_cons. destruct ls as [|l' ls].
  - by exists (as_bytes l).
  - destruct IH as [q ->]; [done|]. exists (as_bytes l ++ 13 :: 10 :: q). by rw -app_assoc.
Qed.

Lemma at_blank_line_true p : at_blank_line p = true → ∃ q, p = q ++ BLANK_LINE.
Proof.
  unfold at_blank_line. intros Hp%bool_decide_eq_true. exists (take (length p - 4) p).
  by rw -{1}(take_drop (length p - 4) p) Hp.
Qed.

Lemma at_blank_line_app q : at_blank_line (q ++ BLANK_LINE) = true.
Proof.
  unfold at_blank_line. rw length_app. replace (length q + length BLANK_LINE - 4)%nat with (length q).
  - by rw drop_app_length bool_decide_true.
  - simpl. lia.
Qed.

Lemma read_head_complete buf ending h rest :
  h ≠ [] → at_blank_line (buf ++ h) = true → Z.of_nat (length (buf ++ h)) ≤ HEADER_LIMIT →
  (∀ p q, h = p ++ q → p ≠ [] → q ≠ [] → at_blank_line (buf ++ p) = false) →
  read_head buf ending (h ++ rest) = (Ok (buf ++ h), rest).
Proof.
  revert buf. induction h as [|b h IH]; intros buf Hne Hb Hlen Hmin; [done|].
  cbn [app read_head]. rw (proj2 (Z.ltb_ge HEADER_LIMIT _)).
  { rw !length_app /= in Hlen *. lia. }
  destruct h as [|c h]; [by rw Hb|].
  rw (Hmin [b] (c :: h)) //. rw (cons_middle b buf) app_assoc in Hb Hlen *.
  apply IH; [done..|]. intros p q Heq Hp Hq. rw -app_assoc.
  by apply (Hmin (b :: p) q); [rw Heq|..].
Qed.

(** ** Well-formed requests, written out *)

Definition header_text (h : string * string) : string := h.1 +:+ ":" +:+ " " +:+ h.2.

Definition request_line (r : GatewayRequest) : string :=
  r.(gr_method) +:+ " " +:+ r.(gr_path) +:+ " " +:+ "HTTP/1.1".

Definition head_lines (r : GatewayRequest) : list string :=
  request_line r :: (header_text <$> r.(gr_headers)).

Definition render_head (r : GatewayRequest) : Bytes := as_bytes (crlf_lines (head_lines r) +:+ CRLF).
Definition render_request (r : GatewayRequest) : Bytes := render_head r ++ r.(gr_body).

Definition header_wf (h : string * string) : Prop :=
  Forall (λ b, graphic b ∧ b ≠ 58) (as_bytes h.1) ∧ trim h.2 = h.2 ∧ no_cr h.2 ∧
  valid_utf8 (as_bytes h.2) = true.

(** A method and a path without spaces, headers a client may send, and a
    [content-length] that is the body's. *)
Record request_wf (r : GatewayRequest) : Prop := {
  rq_method : r.(gr_method) ≠ "" ∧ Forall graphic (as_bytes r.(gr_method));
  rq_path : r.(gr_path) ≠ "" ∧ Forall graphic (as_bytes r.(gr_path));
  rq_headers : Forall header_wf r.(gr_headers);
  rq_length : Forall (λ h, is_content_length h.1 = true →
                           parse_usize h.2 = Some (Z.of_nat (length r.(gr_body)))) r.(gr_headers);
  rq_announced : r.(gr_body) = [] ∨ existsb (λ h, is_content_length h.1) r.(gr_headers) = true;
  rq_head_limit : Z.of_nat (length (render_head r)) ≤ HEADER_LIMIT;
  rq_body_limit : Z.of_nat (length r.(gr_body)) ≤ BODY_LIMIT
}.

Lemma split_once_sep c s t :
  Forall (λ b, b ≠ byte_of c) (as_bytes s) → split_once c (s +:+ String c t) = Some (s, t).
Proof.
  induction s as [|a s IH]; simpl.
  - intros _. by rw bool_decide_true.
  - rw Forall_cons. intros [Ha Hs]. rw bool_decide_false; [by intros ->|]. by rw IH.
Qed.

Lemma header_name_graphic h : header_wf h → Forall graphic (as_bytes h.1).
Proof. intros [Hn _]. apply (Forall_impl _ _ _ Hn). by intros b []. Qed.

Lemma parse_headers_complete len acc n hs :
  len ≤ BODY_LIMIT → Forall header_wf hs →
  Forall (λ h, is_content_length h.1 = true → parse_usize h.2 = Some len) hs →
  parse_headers acc n (header_text <$> hs) =
    Ok (acc ++ hs, if existsb (λ h, is_content_length h.1) hs then len else n).
Proof.
  intros Hlen Hwf. revert acc n. induction Hwf as [|[name v] hs Hh Hhs IH]; intros acc n Hcl.
  { by rw app_nil_r. }
  rw Forall_cons in Hcl. destruct Hcl as [Hv Hcl]. rw fmap_cons. cbn [parse_headers existsb].
  pose proof (header_name_graphic _ Hh) as Hg. destruct Hh as (Hn & Ht & Hcr & Hu). simpl in *.
  unfold header_text at 1. cbn [fst snd]. rw (split_once_sep ":").
  { apply (Forall_impl _ _ _ Hn). by intros b []. }
  rw trim_space // trim_graphic //. destruct (is_content_length name); cbn [orb].
  - rw Hv // (proj2 (Z.ltb_ge BODY_LIMIT len)) //. rw IH // -app_assoc. by destruct (existsb _ hs).
  - rw IH // -app_assoc //.
Qed.

Lemma graphic_no_cr s : Forall graphic (as_bytes s) → no_cr s.
Proof. intros Hs. apply (Forall_impl _ _ _ Hs). unfold graphic. lia. Qed.

Lemma no_cr_app s t : no_cr s → no_cr t → no_cr (s +:+ t).
Proof. unfold no_cr. rw as_bytes_app Forall_app //. Qed.

Lemma head_lines_ok r : request_wf r → Forall (λ l, no_cr l ∧ l ≠ "") (head_lines r).
Proof.
  intros [[Hm Hmg] [Hp Hpg] Hh _ _ _ _]. apply Forall_cons. split.
  - unfold request_line. split; [|by destruct (gr_method r)].
    repeat apply no_cr_app; try by apply graphic_no_cr. all: by repeat constructor.
  - apply Forall_fmap. apply (Forall_impl _ _ _ Hh). intros [n v] Hw.
    pose proof (header_name_graphic _ Hw) as Hg. destruct Hw as (_ & _ & Hcr & _).
    unfold header_text. simpl in *. split; [|by destruct n].
    repeat apply no_cr_app; try done; [by apply graphic_no_cr|by repeat constructor..].
Qed.

Lemma render_head_utf8 r : request_wf r → valid_utf8 (render_head r) = true.
Proof.
  intros [[Hm Hmg] [Hp Hpg] Hh _ _ _ _]. unfold render_head, head_lines.
  rw crlf_lines_cons. apply valid_utf8_app.
  - apply valid_utf8_ascii. unfold request_line. rw !as_bytes_app !Forall_app.
    split_and!; try by apply graphic_ascii. all: by repeat constructor.
  - cbn [valid_utf8]. change (between 0 127 13) with true. change (between 0 127 10) with true. cbv iota.
    induction Hh as [|[n v] hs Hw Hhs IH]; [done|]. rw fmap_cons crlf_lines_cons.
    pose proof (header_name_graphic _ Hw) as Hg. destruct Hw as (_ & _ & _ & Hu). simpl in *.
    apply valid_utf8_app; [|done]. unfold header_text. simpl. rw !as_bytes_app.
    apply valid_utf8_app; [by apply valid_utf8_ascii, graphic_ascii|done].
Qed.

Section HttpProofs.
Context {GX : GatewayExternals}.

(** The reader takes what the request is and no more.  When it answers a
    request, the stream was a head of at most 8KB that ends at its first blank
    line, then the body, of at most 10MB, then what is left unread; the
    request is the channel's worker's.  When it answers an error, that is a
    400. *)
Theorem reader_bounded stream worker_id :
  match read_http_request stream worker_id with
  | (Ok r, rest) =>
      ∃ head, stream.(st_bytes) = head ++ r.(gr_body) ++ rest ∧
        Z.of_nat (length head) ≤ HEADER_LIMIT ∧ at_blank_line head = true ∧
        (∀ p q, head = p ++ q → p ≠ [] → q ≠ [] → at_blank_line p = false) ∧
        Z.of_nat (length r.(gr_body)) ≤ BODY_LIMIT ∧ r.(gr_worker_id) = worker_id
  | (Err e, _) => e.(ge_status) = 400
  end.
Proof.
  unfold read_http_request.
  destruct (read_head [] (st_end stream) (st_bytes stream)) as [[head|e] rest] eqn:Hh;
    [|by eapply read_head_err].
  apply read_head_ok in Hh as (h & -> & -> & Hlen & Hb & Hmin). simpl app in *.
  destruct (valid_utf8 h); [|done]. cbn [negb].
  destruct (split_crlf (of_bytes h)) as [|request_line lines]; [done|].
  destruct (split_whitespace request_line) as [|method [|path ws]]; [done..|].
  destruct (parse_headers [] 0 _) as [[headers n]|e] eqn:Hp; [|by eapply parse_headers_err].
  apply parse_headers_bound in Hp; [|done]. case_bool_decide as Hn; [|done].
  exists h. cbn [gr_body gr_worker_id]. rw take_drop length_take. split_and!; try done.
  change BODY_LIMIT with 10485760 in *. lia.
Qed.

(** C38: every well-formed request is read back as it was written: the reader,
    given the bytes of a request and whatever follows, answers that request
    (method, path, headers in order, body) and leaves the rest unread. *)
Theorem reader_complete r rest ending :
  request_wf r →
  read_http_request (MkStream (render_request r ++ rest) ending) r.(gr_worker_id) = (Ok r, rest).
Proof.
  intros Hwf. pose proof (head_lines_ok r Hwf) as Hl. pose proof (render_head_utf8 r Hwf) as Hu.
  destruct Hwf as [[Hm Hmg] [Hp Hpg] Hh Hcl Hann Hlim Hbody].
  unfold read_http_request, render_request. cbn [st_bytes st_end]. rw -app_assoc read_head_complete //.
  - unfold render_head, head_lines. rw crlf_lines_cons. by destruct (as_bytes (request_line r)).
  - destruct (crlf_lines_blank (head_lines r)) as [q Hq]; [done|].
    unfold render_head. rw Hq. apply at_blank_line_app.
  - intros p q Heq Hpn Hqn. destruct (at_blank_line ([] ++ p)) eqn:Hb; [|done].
    apply at_blank_line_true in Hb as [q0 Hq0]. simpl in Hq0. subst p. rw -app_assoc in Heq.
    by apply (blank_line_last (head_lines r)) in Heq.
  - cbn [app]. rw Hu. cbn [negb]. unfold render_head. rw of_as_bytes split_crlf_lines.
    { apply (Forall_impl _ _ _ Hl). by intros l []. }
    cbn [head_lines app]. unfold request_line.
    rw split_whitespace_word // split_whitespace_word //.
    change (split_whitespace "HTTP/1.1") with ["HTTP/1.1"]. cbv iota.
    rw filter_app (filter_all (λ l, l ≠ "")).
    { intros l Hin. apply Forall_cons in Hl as [_ Hl]. rw Forall_forall in Hl. by apply Hl. }
    change (filter _ [""; ""]) with (@nil string). rw app_nil_r.
    rw (parse_headers_complete (Z.of_nat (length (gr_body r)))) //. cbn [app].
    assert (Hn : (if existsb (λ h, is_content_length h.1) (gr_headers r)
                  then Z.of_nat (length (gr_body r)) else 0) = Z.of_nat (length (gr_body r))).
    { destruct Hann as [-> | ->]; [by destruct (existsb _ _)|done]. }
    rw Hn Nat2Z.id bool_decide_true; [rw length_app; lia|].
    rw take_app_length drop_app_length. by destruct r.
Qed.

End HttpProofs.
