(* ===== verification/Credentials.v ===== *)
(** * The stored credential ([src/src/claude_gateway.rs])

    The gateway starts from the credential file the user's login left, and
    writes every refreshed credential back to it, so that a restarted daemon
    does not present a refresh token that was already exchanged. *)
From S2P Require Import Prelude Json Schema Text Base64 Gateway.

(** What the file system and the HTTP client answer.  [canonical] is
    [path.canonicalize().ok()], [link] the resolved target when [path] is a
    symbolic link, [content] the file, [tmp] the temporary file beside it (none
    when [path] has no parent); the last three are the errors of writing the
    temporary file, of its mode, and of the rename. *)
Record HostFs : Type := MkHostFs {
  fs_canonical : option string;
  fs_link : option string;
  fs_content : Result string string;
  fs_tmp : option string;
  fs_write_err : option string;
  fs_chmod_err : option string;
  fs_rename_err : option string
}.

Inductive UreqAnswer : Type :=
| UreqResponse (body : Result string string)
| UreqStatus (status : Z) (body : string)
| UreqTransport (err : string).

Definition validate_credential_path_not_wsl_windows_mount (path : string) : Result unit string :=
  if (path == "/mnt/c") || starts_with path "/mnt/c/"
  then Err "credential path resolves under /mnt/c" else Ok tt.

Definition under_mnt_c (path : string) : bool :=
  match validate_credential_path_not_wsl_windows_mount path with Ok _ => false | Err _ => true end.

(** [symlink_target_is_wsl_windows_mount(path)] *)
Definition symlink_target_is_wsl_windows_mount (fs : HostFs) : bool :=
  match fs.(fs_link) with Some resolved => under_mnt_c resolved | None => false end.

Definition string_field (value : Value) (key : string) : option string :=
  s ← get_str key value; if s == "" then None else Some s.

(** [a.or_else(|| b)] *)
Definition or_else {A : Type} (a b : option A) : option A :=
  match a with Some _ => a | None => b end.

(** [value.get("claudeAiOauth")] when it is an object *)
Definition oauth_object (value : Value) : option Value :=
  v ← value_get "claudeAiOauth" value;
  match v with JObject _ => Some v | _ => None end.

(** [target\[key\] = v] ([IndexMut]): [null] becomes an object, and anything
    else that is not one panics. *)
Definition value_set (key : string) (v : Value) (target : Value) : option Value :=
  match target with
  | JObject m => Some (JObject (map_insert key v m))
  | JNull => Some (JObject [(key, v)])
  | _ => None
  end.

Section Credentials.
Context {SJ : SerdeJson} {GX : GatewayExternals}.

Definition response_body_is_invalid_grant (body : string) : bool :=
  (json_from_str body ≫= get_str "error") == Some "invalid_grant".

Definition read_seed_credentials (path : string) (content : Result string string) :
    Result TokenSet string :=
  match content with
  | Err err => Err ("Claude seed credentials not found on host at " +:+ path +:+ ": " +:+ err +:+
                    "; run /login")
  | Ok content =>
      match json_from_str content with
      | None => Err ("Claude seed credentials JSON is invalid at " +:+ path +:+ ": " +:+
                     json_error_display content)
      | Some value =>
          let oauth := default value (oauth_object value) in
          match or_else (string_field oauth "refreshToken") (string_field oauth "refresh_token") with
          | None => Err "Claude seed credentials missing refreshToken; run /login"
          | Some refresh_token =>
              let access_token := default "" (or_else (string_field oauth "accessToken")
                                                (string_field oauth "access_token")) in
              let expires_at_ms := default 0
                (or_else (value_get "expiresAt" oauth) (value_get "expires_at" oauth) ≫= as_i64) in
              Ok (MkTokenSet access_token refresh_token
                    (if expires_at_ms <=? 0 then 0 else millis expires_at_ms))
          end
      end
  end.

(** [.duration_since(UNIX_EPOCH).unwrap_or_default().as_millis() as u64] *)
Definition expires_at_millis (t : TokenSet) : Z :=
  (if t.(expires_at) <? 0 then 0 else t.(expires_at) / 1000000) mod 2 ^ 64.

(** The three assignments. *)
Definition put_token (token : TokenSet) (target : Value) : option Value :=
  v ← value_set "accessToken" (JString token.(access_token)) target;
  v ← value_set "refreshToken" (JString token.(refresh_token)) v;
  value_set "expiresAt" (JNumber (expires_at_millis token)) v.

Definition put_credentials (token : TokenSet) (value : Value) : option Value :=
  match oauth_object value with
  | Some target => target' ← put_token token target; value_set "claudeAiOauth" target' value
  | None => put_token token value
  end.

(** How writing back ends: what is answered, and the new content of the file if
    it was replaced.  [WbPanicked]: the stored JSON is not an object. *)
Inductive Writeback : Type :=
| WbDone (r : Result unit string) (content : option string)
| WbPanicked.

Definition write_seed_credentials_guarded (path : string) (fs : HostFs) (token : TokenSet) :
    Writeback :=
  let write canonical :=
    if under_mnt_c canonical then WbDone (Ok tt) None
    else match fs.(fs_content) with
    | Err err =>
        WbDone (Err ("read existing Claude seed credentials before writeback: " +:+ err)) None
    | Ok content =>
    match json_from_str content with
    | None => WbDone (Err ("parse existing Claude seed credentials before writeback: " +:+
                           json_error_display content)) None
    | Some value =>
    match put_credentials token value with
    | None => WbPanicked
    | Some value' =>
    match fs.(fs_tmp) with
    | None => WbDone (Err ("credential path has no parent: " +:+ path)) None
    | Some tmp =>
    match fs.(fs_write_err), fs.(fs_chmod_err), fs.(fs_rename_err) with
    | Some err, _, _ =>
        WbDone (Err ("write temporary Claude seed credentials " +:+ tmp +:+ ": " +:+ err)) None
    | None, Some err, _ =>
        WbDone (Err ("chmod temporary Claude seed credentials: " +:+ err)) None
    | None, None, Some err =>
        WbDone (Err ("rename refreshed Claude seed credentials into place: " +:+ err)) None
    | None, None, None => WbDone (Ok tt) (Some (json_to_vec_pretty value'))
    end
    end
    end
    end
    end in
  match fs.(fs_canonical) with
  | Some canonical => write canonical
  | None => if symlink_target_is_wsl_windows_mount fs then WbDone (Ok tt) None else write path
  end.

(** [ProductionUpstream::refresh]: the token set of a complete answer, stored
    before it is handed out.  [None] is the panic of the write-back. *)
Definition refreshed_token (now : Z) (body : string) : UpstreamResult TokenSet :=
  match json_from_str body with
  | None => Err (Http 502 ("parse refresh response failed: " +:+ json_error_display body))
  | Some json =>
      match string_field json "access_token" with
      | None => Err (Http 502 "refresh response missing access_token")
      | Some at_ =>
          match string_field json "refresh_token" with
          | None => Err (Http 502 "refresh response missing refresh_token")
          | Some rt =>
              match value_get "expires_in" json with
              | Some (JNumber n) =>
                  if 0 <=? n then Ok (MkTokenSet at_ rt (now + secs n))
                  else Err (Http 502 "refresh response missing expires_in")
              | _ => Err (Http 502 "refresh response missing expires_in")
              end
          end
      end
  end.

Definition refresh (path : string) (fs : HostFs) (now : Z) (answer : UreqAnswer) :
    option (UpstreamResult TokenSet * option string) :=
  match answer with
  | UreqStatus status body =>
      if (status =? 400) && response_body_is_invalid_grant body
      then Some (Err (InvalidGrant body), None) else Some (Err (Http status body), None)
  | UreqTransport err => Some (Err (Http 502 ("refresh request failed: " +:+ err)), None)
  | UreqResponse (Err err) => Some (Err (Http 502 ("read refresh response failed: " +:+ err)), None)
  | UreqResponse (Ok body) =>
      match refreshed_token now body with
      | Err e => Some (Err e, None)
      | Ok token =>
          match write_seed_credentials_guarded path fs token with
          | WbPanicked => None
          | WbDone (Err err) content =>
              Some (Err (Http 502 ("write refreshed credentials failed: " +:+ err)), content)
          | WbDone (Ok _) content => Some (Ok token, content)
          end
      end
  end.

(** ** Round trip through the file *)

(** [serde_json] reads back what it pretty-prints. *)
Class PrettyJson : Prop :=
  json_from_pretty v : value_wf v → json_from_str (json_to_vec_pretty v) = Some v.

Definition oauth_of (value : Value) : Value := default value (oauth_object value).

Definition token_fields : list string := ["accessToken"; "refreshToken"; "expiresAt"].

Lemma value_set_get k k' v target target' :
  value_set k v target = Some target' →
  value_get k' target' = if k' == k then Some v else value_get k' target.
Proof.
  destruct target; simpl; intros [= <-]; simpl; case_bool_decide; subst;
    rw ?bool_decide_true ?bool_decide_false ?map_get_insert_eq ?map_get_insert_ne //.
Qed.

Lemma value_set_wf k v target target' :
  value_set k v target = Some target' → value_wf v → value_wf target → value_wf target'.
Proof.
  destruct target; simpl; intros [= <-] Hv Ht; [by repeat split|].
  by apply value_wf_insert.
Qed.

Lemma value_set_object k v target target' :
  value_set k v target = Some target' → ∃ m, target' = JObject m.
Proof. destruct target; simpl; intros [= <-]; eauto. Qed.

Lemma put_token_spec token target target' :
  put_token token target = Some target' →
  value_get "accessToken" target' = Some (JString token.(access_token)) ∧
  value_get "refreshToken" target' = Some (JString token.(refresh_token)) ∧
  value_get "expiresAt" target' = Some (JNumber (expires_at_millis token)) ∧
  (∀ k, k ∉ token_fields → value_get k target' = value_get k target) ∧
  (value_wf target → value_wf target') ∧ ∃ m, target' = JObject m.
Proof.
  unfold put_token. destruct (value_set "accessToken" _ _) as [v1|] eqn:H1; simpl; [|done].
  destruct (value_set "refreshToken" _ _) as [v2|] eqn:H2; simpl; [|done]. intros H3.
  split_and!.
  - by rw (value_set_get _ _ _ _ _ H3) (value_set_get _ _ _ _ _ H2) (value_set_get _ _ _ _ _ H1).
  - by rw (value_set_get _ _ _ _ _ H3) (value_set_get _ _ _ _ _ H2).
  - by rw (value_set_get _ _ _ _ _ H3).
  - intros k Hk. unfold token_fields in Hk.
    rw (value_set_get _ _ _ _ _ H3) (value_set_get _ _ _ _ _ H2) (value_set_get _ _ _ _ _ H1).
    rw !bool_decide_false //; set_solver.
  - intros Ht. eapply value_set_wf; [exact H3| |].
    { simpl. unfold expires_at_millis, i64_min. pose proof (Z.mod_pos_bound
        (if expires_at token <? 0 then 0 else expires_at token / 1000000) (2 ^ 64)). lia. }
    do 2 (eapply value_set_wf; [eassumption|done|]). done.
  - by eapply value_set_object.
Qed.

Lemma put_credentials_spec token value value' :
  value_wf value → put_credentials token value = Some value' →
  value_wf value' ∧ put_token token (oauth_of value) = Some (oauth_of value').
Proof.
  intros Hwf. unfold put_credentials, oauth_of. destruct (oauth_object value) as [target|] eqn:Ho; simpl.
  - destruct (put_token token target) as [target'|] eqn:Hp; simpl; [|done]. intros Hs.
    destruct (put_token_spec _ _ _ Hp) as (_ & _ & _ & _ & Htw & m & ->).
    assert (Ht : value_wf target).
    { unfold oauth_object in Ho. destruct (value_get "claudeAiOauth" value) as [v|] eqn:Hg; [|done].
      destruct value as [| | | | | |fs]; try done. destruct v; try done. injection Ho as <-.
      exact (map_get_wf _ _ _ Hwf Hg). }
    split; [eapply value_set_wf; eauto|].
    unfold oauth_object. by rw (value_set_get _ _ _ _ _ Hs) bool_decide_true.
  - intros Hp. destruct (put_token_spec _ _ _ Hp) as (_ & _ & _ & Hk & Hw & _).
    split; [auto|]. assert (Ho' : oauth_object value' = None); [|by rw Ho'].
    unfold oauth_object. rw Hk; [unfold token_fields; set_solver|]. exact Ho.
Qed.

(** What the file keeps of a token: its expiry to the millisecond. *)
Definition stored (t : TokenSet) : TokenSet :=
  MkTokenSet t.(access_token) t.(refresh_token) (millis (t.(expires_at) / 1000000)).

Definition storable (t : TokenSet) : Prop :=
  t.(access_token) ≠ "" ∧ t.(refresh_token) ≠ "" ∧ 0 ≤ t.(expires_at) < millis (2 ^ 63).

Lemma expires_at_millis_range t :
  storable t → expires_at_millis t = t.(expires_at) / 1000000 ∧ 0 ≤ t.(expires_at) / 1000000 ≤ i64_max.
Proof.
  intros (_ & _ & Hr). unfold expires_at_millis, millis, i64_max in *.
  assert (0 ≤ t.(expires_at) / 1000000 < 2 ^ 63).
  { split; [apply Z.div_pos; lia|]. apply Z.div_lt_upper_bound; lia. }
  destruct (Z.ltb_spec (expires_at t) 0); [lia|]. split; [|lia]. apply Z.mod_small. lia.
Qed.

Lemma read_put `{!PrettyJson} path token value value' :
  storable token → value_wf value → put_credentials token value = Some value' →
  read_seed_credentials path (Ok (json_to_vec_pretty value')) = Ok (stored token) ∧
  ∀ k, k ∉ token_fields → value_get k (oauth_of value') = value_get k (oauth_of value).
Proof.
  intros Hst Hwf Hput. destruct (put_credentials_spec _ _ _ Hwf Hput) as [Hwf' Hp].
  destruct (put_token_spec _ _ _ Hp) as (Ha & Hr & He & Hk & _). split; [|done].
  destruct (expires_at_millis_range token Hst) as [Hms Hrange]. destruct Hst as (Hat & Hrt & _).
  unfold read_seed_credentials. rw json_from_pretty // -/(oauth_of value').
  unfold string_field, get_str. rw Ha Hr He. cbn [mbind option_bind as_str or_else as_i64].
  rw Hms (bool_decide_true (i64_min ≤ _ ≤ i64_max)); [unfold i64_min; lia|].
  rw !bool_decide_false //. cbn [or_else default from_option id].
  unfold stored. do 2 f_equal. destruct (Z.leb_spec (token.(expires_at) / 1000000) 0); [|done].
  by replace (token.(expires_at) / 1000000) with 0 by lia.
Qed.

Lemma write_done path fs token content :
  write_seed_credentials_guarded path fs token = WbDone (Ok tt) content →
  match content with
  | None => match fs.(fs_canonical) with
            | Some c => under_mnt_c c = true
            | None => under_mnt_c path = true ∨ symlink_target_is_wsl_windows_mount fs = true
            end
  | Some c => ∃ old value value', fs.(fs_content) = Ok old ∧ json_from_str old = Some value ∧
      put_credentials token value = Some value' ∧ c = json_to_vec_pretty value'
  end.
Proof.
  unfold write_seed_credentials_guarded.
  destruct (fs_canonical fs) as [c|]; [|destruct (symlink_target_is_wsl_windows_mount fs) eqn:Hl;
    [by intros [= <-]; right|]].
  all: match goal with |- context [under_mnt_c ?p] => destruct (under_mnt_c p) eqn:Hu end;
       [intros [= <-]; auto|].
  all: destruct (fs_content fs) as [old|]; [|done]; destruct (json_from_str old) as [v|] eqn:Hv; [|done];
       destruct (put_credentials token v) as [v'|] eqn:Hp; [|done];
       destruct (fs_tmp fs); [|done];
       destruct (fs_write_err fs), (fs_chmod_err fs), (fs_rename_err fs); try done;
       intros [= <-]; eauto 10.
Qed.

Lemma refreshed_token_nonempty now body t :
  refreshed_token now body = Ok t → t.(access_token) ≠ "" ∧ t.(refresh_token) ≠ "".
Proof.
  assert (Hsf : ∀ v k s, string_field v k = Some s → s ≠ "").
  { intros v k s. unfold string_field. destruct (get_str k v) as [x|]; simpl; [|done].
    case_bool_decide; [done|]. by intros [= <-]. }
  unfold refreshed_token. destruct (json_from_str body) as [v|]; [|done].
  destruct (string_field v "access_token") eqn:Ha; [|done].
  destruct (string_field v "refresh_token") eqn:Hr; [|done].
  destruct (value_get "expires_in" v) as [[]|]; try done. destruct (0 <=? n); [|done].
  intros [= <-]. simpl. eauto.
Qed.

(** a refreshed credential survives a restart.  When a refresh answers a
    token set, either the credential file lies on the Windows mount and is left
    alone, or it was replaced by content that reads back as that token set (the
    expiry to the millisecond), with every other field of the stored credential
    as it was. *)
Theorem refreshed_credential_survives `{!PrettyJson} path fs now answer token content :
  refresh path fs now answer = Some (Ok token, content) →
  0 ≤ token.(expires_at) < millis (2 ^ 63) →
  (∀ old value, fs.(fs_content) = Ok old → json_from_str old = Some value → value_wf value) →
  match content with
  | None => under_mnt_c (default path fs.(fs_canonical)) = true ∨
            symlink_target_is_wsl_windows_mount fs = true
  | Some c =>
      read_seed_credentials path (Ok c) = Ok (stored token) ∧
      ∀ old value, fs.(fs_content) = Ok old → json_from_str old = Some value →
        ∃ value', json_from_str c = Some value' ∧
          ∀ k, k ∉ token_fields → value_get k (oauth_of value') = value_get k (oauth_of value)
  end.
Proof.
  unfold refresh. intros Href Hexp Hwf. destruct answer as [[body|]|st b|e]; try done.
  2:{ destruct ((st =? 400) && response_body_is_invalid_grant b); done. }
  destruct (refreshed_token now body) as [t|] eqn:Ht; [|done].
  destruct (write_seed_credentials_guarded path fs t) as [[[]|] c|] eqn:Hw; simplify_eq.
  destruct (refreshed_token_nonempty _ _ _ Ht) as [Ha Hr]. apply write_done in Hw.
  destruct content as [c|]; [|destruct (fs_canonical fs); simpl; naive_solver].
  destruct Hw as (old & value & value' & Hc & Hv & Hput & ->).
  destruct (read_put path token value value') as [Hread Hk]; [by repeat split; auto; lia|by eapply Hwf|done|].
  split; [done|]. intros old' v0 Hc' Hv0.
  rw Hc in Hc'. injection Hc' as <-. rw Hv in Hv0. injection Hv0 as <-.
  exists value'. split; [|done].
  apply json_from_pretty. by eapply put_credentials_spec; [eapply Hwf|].
Qed.

(** A credential the upstream has issued is thrown away when it cannot be
    written back: the refresh answers an error, and the core goes on with the
    refresh token that was just exchanged. *)
Theorem failed_writeback_discards_token path fs now body token err content core instant :
  refreshed_token now body = Ok token →
  write_seed_credentials_guarded path fs token = WbDone (Err err) content →
  ∃ e, refresh path fs now (UreqResponse (Ok body)) = Some (Err e, content) ∧
    (finish_refresh (Err e) instant core).2.(gc_token) = core.(gc_token).
Proof.
  intros Ht Hw. unfold refresh. rw Ht Hw. eexists. by split.
Qed.

End Credentials.
