(* ===== verification/Shell.v ===== *)
(** * Shell words ([shell_quote] of [src/src/claude_gateway.rs] and
      [src/src/platform/linux/scope.rs])

    The daemon hands command lines to [sh -lc].  [shell_quote] is what it uses
    to make one word of arbitrary text; [sh_words] says how a POSIX shell cuts a
    line into words when nothing in it asks for an expansion, a redirection or
    another command. *)
From S2P Require Import Prelude Text.
From Stdlib Require Import Ascii.

Definition SQUOTE : ascii := ascii_of_nat 39.
Definition BACKSLASH : ascii := ascii_of_nat 92.

(** [input.replace('\'', "'\\''")] *)
Fixpoint escape_squotes (s : string) : string :=
  match s with
  | EmptyString => ""
  | String c s' =>
      if bool_decide (c = SQUOTE)
      then String SQUOTE (String BACKSLASH (String SQUOTE (String SQUOTE (escape_squotes s'))))
      else String c (escape_squotes s')
  end.

Definition shell_quote (input : string) : string :=
  String SQUOTE (escape_squotes input +:+ String SQUOTE EmptyString).

(** ** Reading words *)

(** Characters that end a word or mean something to the shell when they are not
    quoted: controls, the exclamation mark, the double quote, the hash, the
    dollar, the ampersand, parentheses, brackets and braces, the star, the
    semicolon, angle brackets, the question mark, the backquote, the bar and the
    tilde. *)
Definition sh_special (c : ascii) : bool :=
  let n := nat_of_ascii c in
  bool_decide (n < 32)%nat ||
  (n is_in [33; 34; 35; 36; 38; 40; 41; 42; 59; 60; 62; 63; 91; 93; 96; 123; 124; 125; 126; 127]%nat).

Definition SPACE : ascii := ascii_of_nat 32.

Definition push_word (cur : option string) (ws : list string) : list string :=
  match cur with None => ws | Some w => w :: ws end.

(** [cur] is the word begun, if any; [quoted] inside single quotes.  [None]: the
    line is not a plain list of words. *)
Fixpoint sh_words_go (quoted : bool) (cur : option string) (s : string) : option (list string) :=
  match s with
  | EmptyString => if quoted then None else Some (push_word cur [])
  | String c s' =>
      let literal := Some (default "" cur +:+ String c EmptyString) in
      if quoted then
        if bool_decide (c = SQUOTE) then sh_words_go false (Some (default "" cur)) s'
        else sh_words_go true literal s'
      else if bool_decide (c = SQUOTE) then sh_words_go true (Some (default "" cur)) s'
      else if bool_decide (c = BACKSLASH) then
        match s' with
        | EmptyString => None
        | String c2 s'' => sh_words_go false (Some (default "" cur +:+ String c2 EmptyString)) s''
        end
      else if bool_decide (c = SPACE) then push_word cur <$> sh_words_go false None s'
      else if sh_special c then None
      else sh_words_go false literal s'
  end.

Definition sh_words (line : string) : option (list string) := sh_words_go false None line.

(** Text that is one word as it stands. *)
Definition plain_char (c : ascii) : bool :=
  negb (sh_special c || bool_decide (c = SQUOTE) || bool_decide (c = BACKSLASH) ||
        bool_decide (c = SPACE)).
Fixpoint plain_text (s : string) : bool :=
  match s with EmptyString => true | String c s' => plain_char c && plain_text s' end.
Definition plain_word (s : string) : bool := (s != "") && plain_text s.

(** ** Facts *)

Lemma str_cons_app w c s : (w +:+ String c EmptyString) +:+ s = w +:+ String c s.
Proof. by rw string_app_assoc. Qed.

Lemma sh_words_space cur s :
  sh_words_go false cur (String SPACE s) = push_word cur <$> sh_words_go false None s.
Proof. reflexivity. Qed.

(** Inside the quotes, escaped text stands for itself. *)
Lemma sh_words_escaped w s rest :
  sh_words_go true (Some w) (escape_squotes s +:+ rest) = sh_words_go true (Some (w +:+ s)) rest.
Proof.
  revert w. induction s as [|c s IH]; intros w; [by rw string_app_nil_r|].
  cbn [escape_squotes]. case_bool_decide as Hc.
  - subst c. transitivity (sh_words_go true (Some (w +:+ String SQUOTE "")) (escape_squotes s +:+ rest));
      [reflexivity|]. by rw IH str_cons_app.
  - change (String c (escape_squotes s) +:+ rest) with (String c (escape_squotes s +:+ rest)).
    cbn [sh_words_go]. rw bool_decide_false // IH. cbn [default from_option id].
    by rw str_cons_app.
Qed.

Lemma sh_words_quoted cur s rest :
  sh_words_go false cur (shell_quote s +:+ rest) =
    sh_words_go false (Some (default "" cur +:+ s)) rest.
Proof.
  unfold shell_quote. change (String SQUOTE (escape_squotes s +:+ String SQUOTE "") +:+ rest)
    with (String SQUOTE ((escape_squotes s +:+ String SQUOTE "") +:+ rest)).
  rw string_app_assoc. cbn [sh_words_go]. rw bool_decide_true // sh_words_escaped //.
Qed.

Lemma plain_char_step c : plain_char c = true →
  c ≠ SQUOTE ∧ c ≠ BACKSLASH ∧ c ≠ SPACE ∧ sh_special c = false.
Proof.
  unfold plain_char. rw negb_true_iff !orb_false_iff !bool_decide_eq_false. tauto.
Qed.

Lemma sh_words_plain w s rest :
  plain_text s = true →
  sh_words_go false (Some w) (s +:+ rest) = sh_words_go false (Some (w +:+ s)) rest.
Proof.
  revert w. induction s as [|c s IH]; intros w; [by rw string_app_nil_r|].
  cbn [plain_text]. rw andb_true_iff. intros [Hc Hs].
  destruct (plain_char_step c Hc) as (Hq & Hb & Hsp & Hx).
  change (String c s +:+ rest) with (String c (s +:+ rest)). cbn [sh_words_go].
  rw !bool_decide_false // Hx IH // str_cons_app //.
Qed.

Lemma sh_words_plain_start s rest :
  plain_word s = true → sh_words_go false None (s +:+ rest) = sh_words_go false (Some s) rest.
Proof.
  unfold plain_word. rw andb_true_iff. intros [Hne Hs]. destruct s as [|c s]; [done|].
  cbn [plain_text] in Hs. apply andb_true_iff in Hs as [Hc Hs].
  destruct (plain_char_step c Hc) as (Hq & Hb & Hsp & Hx).
  change (String c s +:+ rest) with (String c (s +:+ rest)). cbn [sh_words_go].
  rw !bool_decide_false // Hx sh_words_plain //.
Qed.

(** A line of plain words is read as those words. *)
Lemma sh_words_join ws : Forall (λ w, plain_word w = true) ws → sh_words (join " " ws) = Some ws.
Proof.
  unfold sh_words. induction 1 as [|w ws Hw Hws IH]; [done|]. destruct ws as [|w' ws].
  - cbn [join]. rw -{1}(string_app_nil_r w) sh_words_plain_start //.
  - change (join " " (w :: w' :: ws)) with (w +:+ " " +:+ join " " (w' :: ws)).
    rw sh_words_plain_start //.
    change (" " +:+ join " " (w' :: ws)) with (String SPACE (join " " (w' :: ws))).
    by rw sh_words_space IH.
Qed.

(** Quoting round trip.  Whatever text is quoted, quotes and backslashes
    included, a shell reads the quoted text as exactly one word, that text;
    quoted words separated by spaces are read back as they are. *)
Theorem shell_quote_roundtrip ws :
  sh_words (join " " (shell_quote <$> ws)) = Some ws.
Proof.
  unfold sh_words. induction ws as [|w ws IH]; [done|]. destruct ws as [|w' ws].
  - cbn [fmap list_fmap join]. rw -{1}(string_app_nil_r (shell_quote w)) sh_words_quoted //.
  - rw !fmap_cons in IH *.
    change (join " " (shell_quote w :: shell_quote w' :: (shell_quote <$> ws)))
      with (shell_quote w +:+ String SPACE (join " " (shell_quote w' :: (shell_quote <$> ws)))).
    by rw sh_words_quoted sh_words_space IH.
Qed.
