(* ===== verification/Providers.v ===== *)
(** * Providers ([src/src/provider/manifest.rs], [src/src/provider/init_probe.rs])

    What the daemon knows of each agent program: how to start it, which
    environment it may see, and how to tell from its screen that it is ready. *)
From S2P Require Import Prelude Json Schema Text Base64 Gateway.
From Stdlib Require Import Ascii.

(** ** Names *)

Definition VALID_PROVIDER_NAMES : list string := ["bash"; "codex"; "claude"; "antigravity"].

Definition canonicalize_provider_name (raw : string) : string :=
  if raw == "gemini" then "antigravity" else raw.

Definition is_recovery_eligible_provider (provider : string) : bool :=
  canonicalize_provider_name provider is_in ["codex"; "claude"; "antigravity"].

(** ** Manifests *)

Inductive CompletionSignalKind : Type := LogOnly.
Inductive IdleDetectionMode : Type := LineEndRegex | ObservedStability.
Inductive InitProbeKind : Type :=
| ProbeBash | ProbeCodex | ProbeClaude | ProbeAntigravity | ProbeOpenCode | ProbeUnknown.

Record ProviderManifest : Type := MkManifest {
  provider_name : string;
  auth_mount_paths : list string;
  command : list string;
  resume_args : list string;
  env_passthrough : list string;
  injected_env_vars : list (string * string);
  readiness_timeout_s : Z;
  requires_home_materialization : bool;
  init_probe : InitProbeKind;
  idle_detection_mode : IdleDetectionMode;
  stability_ms : Z;
  idle_anti_pattern : string;
  completion_signal : CompletionSignalKind
}.

Definition ENV_PASSTHROUGH : list string :=
  ["ANTHROPIC_API_KEY"; "ANTHROPIC_AUTH_TOKEN"; "ANTHROPIC_BASE_URL"; "CCB_BACKEND_ENV";
    "CCB_CCBD_MIN_POLL_INTERVAL_S"; "CCB_CLAUDE_READY_TIMEOUT_S"; "CCB_DEBUG";
    "CCB_GEMINI_READY_TIMEOUT_S"; "CCB_KEEPER_PID"; "CCB_KEEPER_PING_TIMEOUT_S"; "CCB_LANG";
    "CCB_MASTER_CLAUDE_PID"; "CCB_PER_AGENT_SUBCGROUP"; "CCB_NO_ATTACH"; "CCB_REPLY_LANG";
    "CCB_JOB_ID"; "CCB_SOCKET"; "CCB_STDIN_ENCODING"; "CCB_TMUX_ENTER_DELAY";
    "CCB_TMUX_SECOND_ENTER_DELAY"; "CCB_TMUX_SOCKET"; "CCB_TMUX_SOCKET_PATH";
    "CCB_VERIFY_DELIVERY"; "CCB_VERIFY_POST_DELAY_MS"; "CCB_VERIFY_RETRY_KEYCODES"; "CCB_VERSION";
    "CLAUDE_CODE_OAUTH_TOKEN"; "GEMINI_API_KEY"; "GOOGLE_API_BASE"; "GOOGLE_API_KEY";
    "GOOGLE_GENAI_USE_VERTEXAI"; "HOME"; "LANG"; "LC_ALL"; "LC_MESSAGES"; "LOCALAPPDATA";
    "OPENAI_API_BASE"; "OPENAI_API_KEY"; "OPENAI_BASE_URL"; "OPENAI_ORG_ID";
    "OPENAI_ORGANIZATION"; "PATH"; "PYTHONPATH"; "PYTHONUNBUFFERED"; "SHELL"; "SYSTEMROOT";
    "TERM"; "TMP"; "TEMP"; "TMPDIR"; "USER"; "USERPROFILE"; "XDG_CACHE_HOME"; "XDG_CONFIG_HOME";
    "XDG_DATA_HOME"; "XDG_RUNTIME_DIR"].

Definition CLAUDE_INJECTED_ENV : list (string * string) :=
  [("CCB_CLAUDE_SKILLS", "true"); ("CCB_CLAUDE_READY_TIMEOUT_S", "60.0");
   ("CCB_CLAUDE_MD_MODE", "route"); ("CCB_REPLY_LANG", "zh"); ("CCB_LANG", "zh");
   ("CCB_CTX_TRANSFER_LAST_N", "20"); ("CCB_CTX_TRANSFER_ENABLED", "true")].
Definition CODEX_INJECTED_ENV : list (string * string) :=
  [("CCB_TMUX_ENTER_DELAY", "0.5"); ("CCB_TMUX_SECOND_ENTER_DELAY", "0.0")].
Definition ANTIGRAVITY_INJECTED_ENV : list (string * string) :=
  [("CCB_GEMINI_READY_TIMEOUT_S", "60.0")].
Definition BASH_INJECTED_ENV : list (string * string) := [("PS1", "$ ")].

Definition bash_manifest : ProviderManifest :=
  MkManifest "bash" [] ["bash"; "--noprofile"; "--norc"; "-i"] [] ENV_PASSTHROUGH BASH_INJECTED_ENV
    10 false ProbeBash LineEndRegex 0 "" LogOnly.
Definition codex_manifest : ProviderManifest :=
  MkManifest "codex" [".codex"; ".config/gcloud"]
    ["codex"; "--dangerously-bypass-approvals-and-sandbox"; "--dangerously-bypass-hook-trust";
     "-c"; "disable_paste_burst=true"; "-c"; "trust_level=" +:+ quoted "trusted";
     "-c"; "approval_policy=" +:+ quoted "never"; "-c"; "sandbox_mode=" +:+ quoted "danger-full-access"]
    [] ENV_PASSTHROUGH CODEX_INJECTED_ENV 60 true ProbeCodex ObservedStability 300
    "(?im)\besc to interrupt\b|Hooks need review|Trust all and continue|Continue without trusting"
    LogOnly.
Definition claude_manifest : ProviderManifest :=
  MkManifest "claude" [".anthropic"; ".claude"] ["claude"; "--dangerously-skip-permissions"]
    ["--continue"] ENV_PASSTHROUGH CLAUDE_INJECTED_ENV 60 true ProbeClaude ObservedStability 300
    "(?im)\b(?:esc to interrupt|Architecting|Reading\s+\d+\s+files?|ctrl\+o to expand|paste again to expand)\b"
    LogOnly.
Definition antigravity_manifest : ProviderManifest :=
  MkManifest "antigravity" [".gemini/antigravity-cli"] ["agy"; "--dangerously-skip-permissions"] []
    ENV_PASSTHROUGH ANTIGRAVITY_INJECTED_ENV 60 true ProbeAntigravity LineEndRegex 300
    "(?m)^\s*esc to cancel\b" LogOnly.

Definition MANIFESTS (name : string) : option ProviderManifest :=
  if name == "bash" then Some bash_manifest
  else if name == "codex" then Some codex_manifest
  else if name == "claude" then Some claude_manifest
  else if name == "antigravity" then Some antigravity_manifest
  else None.

(** [try_get_manifest(provider).ok()]; [None] is the unknown-provider error,
    on which [get_manifest] panics. *)
Definition try_get_manifest (provider : string) : option ProviderManifest :=
  MANIFESTS (canonicalize_provider_name provider).

Definition is_valid_provider (provider : string) : bool :=
  bool_decide (is_Some (MANIFESTS (canonicalize_provider_name provider))).

Definition cancel_keysyms_for_provider (provider : string) : list string :=
  if canonicalize_provider_name provider == "antigravity" then ["Escape"] else ["C-c"].

(** ** Readiness probes *)

Definition non_empty_lines (capture : string) : list string :=
  filter (λ line, trim line ≠ "") (lines capture).

(** [for phrase in phrases { if capture_lower.contains(..) { return false } } true] *)
Definition phrases_gone (phrases : list string) (capture : string) : bool :=
  negb (existsb (λ p, contains (to_lowercase capture) (to_lowercase p)) phrases).

Definition CLAUDE_INIT_BANNERS : list string :=
  ["Welcome to Claude Code"; "Setup Wizard"; "Choose the text style"; "Choose your preferred theme";
   "Let's get started"; "Trust the files in this folder"; "Press Enter to continue"].
Definition CLAUDE_PROMPT_PREFIXES : list string := ["❯ "; "❯"].
Definition CLAUDE_STEADY_MARKERS : list string := ["Sonnet"; "Haiku"; "Opus"].

Definition claude_prompt_present (capture : string) : bool :=
  existsb (λ line, existsb (starts_with (trim_start line)) CLAUDE_PROMPT_PREFIXES)
    (take 8 (reverse (non_empty_lines capture))).

Definition claude_detect (capture : string) : bool :=
  phrases_gone CLAUDE_INIT_BANNERS capture && claude_prompt_present capture &&
  existsb (contains capture) CLAUDE_STEADY_MARKERS.

Definition ANTIGRAVITY_ONBOARDING_MARKERS : list string :=
  ["Yes, I trust this folder"; "Terms of Service"; "[Next]"; "[Done]"].

Definition antigravity_detect (capture : string) : bool :=
  phrases_gone ANTIGRAVITY_ONBOARDING_MARKERS capture &&
  existsb (λ line, starts_with (trim_start line) "? for shortcuts") (lines capture).

Definition CODEX_INIT_BANNERS : list string :=
  ["Sign in with ChatGPT"; "Trust this workspace"; "Choose a model"; "✦ Welcome to"].

Definition codex_detect (capture : string) : bool :=
  phrases_gone CODEX_INIT_BANNERS capture &&
  existsb (λ line, starts_with (trim_start line) "›") (take 6 (reverse (non_empty_lines capture))).

Definition bash_detect (capture : string) : bool :=
  match last (non_empty_lines capture) with
  | None => false
  | Some line =>
      let trimmed := trim_end line in
      ends_with trimmed "$" || ends_with trimmed "#" || ends_with trimmed "$ " ||
      ends_with trimmed "# "
  end.

(** [probe.build().detect(capture)] *)
Definition detect (kind : InitProbeKind) (capture : string) : bool :=
  match kind with
  | ProbeBash | ProbeOpenCode | ProbeUnknown => bash_detect capture
  | ProbeCodex => codex_detect capture
  | ProbeClaude => claude_detect capture
  | ProbeAntigravity => antigravity_detect capture
  end.

(** ** The environment of a spawned agent *)

Section SpawnEnv.
Context {GX : GatewayExternals}.

Definition is_claude_gateway_blocked_host_env (key : string) : bool :=
  key is_in ["ANTHROPIC_API_KEY"; "ANTHROPIC_AUTH_TOKEN"; "ANTHROPIC_BASE_URL"].

Definition is_localhost_gateway_base_url (value : string) : bool :=
  match strip_prefix value "http://" with
  | None => false
  | Some rest =>
      match rsplit_once ":" rest with
      | None => false
      | Some (host, port) =>
          (host is_in ["localhost"; "127.0.0.1"]) && bool_decide (is_Some (parse_u16 port))
      end
  end.

Definition is_claude_gateway_allowed_extra_env (key value : string) : bool :=
  if key == "ANTHROPIC_API_KEY" then false
  else if key == "ANTHROPIC_AUTH_TOKEN" then
    match fake_jwt_worker_id value with Ok _ => true | Err _ => false end
  else if key == "ANTHROPIC_BASE_URL" then is_localhost_gateway_base_url value
  else true.

(** The three loops; [host] is [std::env::var(key).ok()]. *)
Definition passthrough_env (manifest : ProviderManifest) (host : string → option string) :
    gmap string string :=
  foldl (λ env key,
    if (manifest.(provider_name) == "claude") && is_claude_gateway_blocked_host_env key then env
    else match host key with Some value => <[key := value]> env | None => env end)
    ∅ manifest.(env_passthrough).

Definition inject_env (vars : list (string * string)) (env : gmap string string) :
    gmap string string :=
  foldl (λ env kv, <[kv.1 := kv.2]> env) env vars.

Definition allowed_extra (manifest : ProviderManifest) (extra : gmap string string) :
    gmap string string :=
  filter (λ kv, negb (manifest.(provider_name) == "claude") ||
                is_claude_gateway_allowed_extra_env kv.1 kv.2 = true) extra.

Definition spawn_env (manifest : ProviderManifest) (host : string → option string)
    (extra : gmap string string) : gmap string string :=
  allowed_extra manifest extra ∪ inject_env manifest.(injected_env_vars) (passthrough_env manifest host).

(** [sort_by(|(left, _), (right, _)| left.cmp(right))] *)
Definition key_le : relation (string * string) := λ a b, String.leb a.1 b.1 = true.
#[global] Instance key_le_dec : RelDecision key_le.
Proof. unfold key_le. intros a b. apply _. Defined.

Definition collect_spawn_env (manifest : ProviderManifest) (host : string → option string)
    (extra : gmap string string) : list (string * string) :=
  order_by key_le (map_to_list (spawn_env manifest host extra)).

(** ** What the agent sees *)

Lemma inject_env_lookup vars env k :
  inject_env vars env !! k =
    match (list_to_map (reverse vars) : gmap string string) !! k with
    | Some v => Some v
    | None => env !! k
    end.
Proof.
  revert env. induction vars as [|[k' v] vars IH] using rev_ind; intros env.
  { by rw reverse_nil list_to_map_nil lookup_empty. }
  unfold inject_env in *. rw foldl_app reverse_snoc. cbn [foldl fst snd]. rw list_to_map_cons.
  destruct (decide (k = k')) as [->|Hne]; [by rw !lookup_insert_eq|]. by rw !lookup_insert_ne // IH.
Qed.

(** The host variables a manifest lets through. *)
Definition passes (manifest : ProviderManifest) (key : string) : bool :=
  (key is_in manifest.(env_passthrough)) &&
  negb ((manifest.(provider_name) == "claude") && is_claude_gateway_blocked_host_env key).

Lemma is_in_snoc (k key : string) (keys : list string) :
  k ≠ key → (k is_in keys ++ [key]) = (k is_in keys).
Proof. intros Hne. apply bool_decide_ext. set_solver. Qed.

Lemma passthrough_lookup manifest host k :
  passthrough_env manifest host !! k = if passes manifest k then host k else None.
Proof.
  unfold passthrough_env, passes.
  induction (env_passthrough manifest) as [|key keys IH] using rev_ind; [by rw lookup_empty|].
  rw foldl_app /=.
  destruct ((manifest.(provider_name) == "claude") && is_claude_gateway_blocked_host_env key) eqn:Hb.
  - rw IH. destruct (decide (k = key)) as [->|Hne].
    + by rw Hb !andb_false_r.
    + by rw (is_in_snoc k key keys).
  - destruct (decide (k = key)) as [->|Hne].
    + rw (bool_decide_true (key ∈ keys ++ [key])) ?Hb; [set_solver|]. cbn [negb andb].
      destruct (host key) as [v|] eqn:Hv; [by rw lookup_insert_eq|].
      rw IH Hb. by destruct (key is_in keys).
    + transitivity (foldl (λ (env : gmap string string) (key : string),
        if (manifest.(provider_name) == "claude") && is_claude_gateway_blocked_host_env key then env
        else match host key with Some value => <[key := value]> env | None => env end) ∅ keys !! k).
      { destruct (host key); [by rw lookup_insert_ne|done]. }
      by rw IH (is_in_snoc k key keys).
Qed.

(** The value of a variable: the caller's if it is allowed, or the manifest's,
    or the host's if it passes. *)
Definition env_value (manifest : ProviderManifest) (host : string → option string)
    (extra : gmap string string) (k : string) : option string :=
  match (v ← extra !! k; if negb (manifest.(provider_name) == "claude") ||
                             is_claude_gateway_allowed_extra_env k v then Some v else None) with
  | Some v => Some v
  | None =>
      match (list_to_map (reverse manifest.(injected_env_vars)) : gmap string string) !! k with
      | Some v => Some v
      | None => if passes manifest k then host k else None
      end
  end.

Lemma spawn_env_lookup manifest host extra k :
  spawn_env manifest host extra !! k = env_value manifest host extra k.
Proof.
  unfold spawn_env, env_value, allowed_extra. rw lookup_union map_lookup_filter.
  rw inject_env_lookup passthrough_lookup.
  assert (Hu : ∀ a b : option string, a ∪ b = match a with Some v => Some v | None => b end)
    by (by intros [] []). rw Hu.
  destruct (extra !! k) as [v|]; simpl; [|done]. by destruct (negb _ || _).
Qed.

Lemma collect_spawn_env_elem manifest host extra k v :
  (k, v) ∈ collect_spawn_env manifest host extra ↔ env_value manifest host extra k = Some v.
Proof.
  unfold collect_spawn_env, order_by. rw merge_sort_Permutation elem_of_map_to_list.
  by rw spawn_env_lookup.
Qed.

Lemma collect_spawn_env_sorted manifest host extra :
  let env := collect_spawn_env manifest host extra in NoDup env.*1 ∧ Sorted key_le env.
Proof.
  simpl. unfold collect_spawn_env, order_by. split.
  - rw merge_sort_Permutation. apply NoDup_fst_map_to_list.
  - apply Sorted_merge_sort. intros a b. unfold key_le. apply String.leb_total.
Qed.

(** A base URL that is accepted is [http://localhost:port] or
    [http://127.0.0.1:port], with nothing else in it. *)
Lemma localhost_url u :
  is_localhost_gateway_base_url u = true →
  ∃ host port n, u = "http://" +:+ host +:+ ":" +:+ port ∧
    (host = "localhost" ∨ host = "127.0.0.1") ∧ parse_u16 port = Some n.
Proof.
  unfold is_localhost_gateway_base_url.
  destruct (strip_prefix u "http://") as [rest|] eqn:Hp; [|done]. apply strip_prefix_inv in Hp as ->.
  destruct (rsplit_once ":" rest) as [[host port]|] eqn:Hr; [|done]. apply rsplit_once_inv in Hr as ->.
  rw andb_true_iff !bool_decide_eq_true. intros [Hh [n Hn]]. exists host, port, n.
  split_and!; [done|set_solver|done].
Qed.

Lemma claude_extra k v :
  is_claude_gateway_blocked_host_env k = true →
  ∀ host extra, env_value claude_manifest host extra k = Some v →
    extra !! k = Some v ∧ is_claude_gateway_allowed_extra_env k v = true.
Proof.
  intros Hk host extra. unfold env_value, passes. rw Hk andb_false_r. cbn [negb orb].
  assert (Hi : (list_to_map (reverse (injected_env_vars claude_manifest)) : gmap string string) !! k = None).
  { unfold is_claude_gateway_blocked_host_env in Hk. apply bool_decide_eq_true in Hk.
    set_unfold in Hk. by destruct_or? Hk; subst k; vm_compute. }
  rw Hi. destruct (extra !! k) as [x|]; simpl; [|done].
  destruct (is_claude_gateway_allowed_extra_env k x) eqn:Ha; [|done]. by intros [= <-].
Qed.

(** a Claude agent's API settings are the gateway's.  Whatever the daemon's
    own environment holds and whatever the caller asks for, its environment has
    no [ANTHROPIC_API_KEY]; an [ANTHROPIC_AUTH_TOKEN] in it is the caller's and
    is a gateway token that names a worker; an [ANTHROPIC_BASE_URL] is the
    caller's and is a port of this machine.  Every other variable (the
    [CLAUDE_CODE_OAUTH_TOKEN] of the list among them) has the caller's value, or
    else the manifest's, or else the daemon's own if the list passes it through;
    and no variable is set twice. *)
Theorem claude_env_through_gateway host extra :
  let env := collect_spawn_env claude_manifest host extra in
  (∀ v, ("ANTHROPIC_API_KEY", v) ∉ env) ∧
  (∀ t, ("ANTHROPIC_AUTH_TOKEN", t) ∈ env →
     extra !! "ANTHROPIC_AUTH_TOKEN" = Some t ∧ ∃ worker, fake_jwt_worker_id t = Ok worker) ∧
  (∀ u, ("ANTHROPIC_BASE_URL", u) ∈ env →
     extra !! "ANTHROPIC_BASE_URL" = Some u ∧
     ∃ h port n, u = "http://" +:+ h +:+ ":" +:+ port ∧
       (h = "localhost" ∨ h = "127.0.0.1") ∧ parse_u16 port = Some n) ∧
  (∀ k v, (k, v) ∈ env ↔ env_value claude_manifest host extra k = Some v) ∧
  NoDup env.*1 ∧ Sorted key_le env.
Proof.
  simpl. split_and!.
  - intros v Hin%collect_spawn_env_elem. by apply (claude_extra "ANTHROPIC_API_KEY") in Hin as [_ ?].
  - intros t Hin%collect_spawn_env_elem.
    apply (claude_extra "ANTHROPIC_AUTH_TOKEN") in Hin as [He Ha]; [|done]. split; [done|].
    unfold is_claude_gateway_allowed_extra_env in Ha. simpl in Ha.
    destruct (fake_jwt_worker_id t) as [w|]; [by exists w|done].
  - intros u Hin%collect_spawn_env_elem.
    apply (claude_extra "ANTHROPIC_BASE_URL") in Hin as [He Ha]; [|done]. split; [done|].
    by apply localhost_url.
  - intros k v. apply collect_spawn_env_elem.
  - apply collect_spawn_env_sorted.
  - apply collect_spawn_env_sorted.
Qed.

End SpawnEnv.
