(* ===== verification/Sessions.v ===== *)
(** * Sessions ([src/src/db/sessions.rs])

    A session is created under a project and runs until it is closed, killed
    or failed; its master is told things ([master_tell_*]) and reports its own
    state ([apply_master_notify_event]), fenced by the generation of the master
    that reports. *)
From S2P Require Import Prelude Json Schema Sql MasterTables JobGate Invariant MasterSound AgentGate.

(** The struct [Session] of [src/src/db/schema.rs]: the columns of [sessions]
    that leave the database layer, with the path of the project. *)
Record SessionView : Type := MkSessionView {
  sv_id : string;
  sv_project_id : string;
  sv_master_pane_id : option string;
  sv_status : string;
  sv_config_hash : option string;
  sv_master_state : string;
  sv_created_at : Z;
  sv_absolute_path : string
}.

Record SessionSummary : Type := MkSessionSummary {
  ssu_id : string;
  ssu_project_id : string;
  ssu_absolute_path : string;
  ssu_status : string;
  ssu_master_state : string;
  ssu_master_pane_id : option string;
  ssu_db_tracked_agents : Z;
  ssu_active_agents : Z;
  ssu_created_at : Z
}.

Record MasterNotifyTransition : Type := MkMasterNotifyTransition {
  mn_previous_state : string;
  mn_new_state : string;
  mn_transitioned : bool;
  mn_request_id : option string;
  mn_current_generation : Z
}.

Section Sessions.
Context {EXT : Externals}.

Definition notify_runtime_inventory_changed {E} : M E unit :=
  notify_runtime_changed InventoryChanged.
Definition notify_runtime_tmux_changed {E} : M E unit := notify_runtime_changed TmuxChanged.

(** ** Creation *)

Definition insert_session_sync (session_id project_id absolute_path : string) : M CcbdError unit :=
  insert_project_or_ignore project_id absolute_path;;
  now ← asks w_now;
  map_err (map_db_error "insert session")
    (insert_session_row (new_session now session_id project_id 0));;
  notify_runtime_inventory_changed.

Definition create_session_sync (session_id project_id absolute_path : string) : M CcbdError unit :=
  transaction (
    insert_project_or_ignore project_id absolute_path;;
    now ← asks w_now;
    map_err (map_db_error "insert session")
      (insert_session_row (new_session now session_id project_id 0));;
    mret (Commit tt));;
  notify_runtime_inventory_changed.

(** ** Queries *)

Definition session_exists_sync (session_id : string) : M CcbdError bool :=
  gets (λ db, bool_decide (is_Some (db.(sessions) !! session_id))).

(** A row of [sessions JOIN projects ON projects.id = sessions.project_id]. *)
Definition session_view (db : Db) (s : Session) : option SessionView :=
  (λ p, MkSessionView s.(s_id) s.(s_project_id) s.(s_master_pane_id) s.(s_status) s.(s_config_hash)
          s.(s_master_state) s.(s_created_at) p.(p_absolute_path))
  <$> db.(projects) !! s.(s_project_id).

Definition query_session_by_id_sync (session_id : string) : M CcbdError (option SessionView) :=
  gets (λ db, s ← db.(sessions) !! session_id; session_view db s).

(** [agents.state NOT IN ('CRASHED', 'KILLED')] *)
Definition tracked (a : Agent) : bool := negb (a.(a_state) is_in ["CRASHED"; "KILLED"]).

Definition session_agents (session_id : string) (db : Db) : list Agent :=
  filter (λ a, a.(a_session_id) = session_id) (table_rows db.(agents)).

(** [ORDER BY sessions.created_at ASC, sessions.id ASC] *)
Definition session_created_le : relation Session :=
  lex_le (λ s t, s.(s_created_at) < t.(s_created_at)) (λ s t, s.(s_created_at) = t.(s_created_at))
    (λ s t, String.le s.(s_id) t.(s_id)).
#[global] Instance session_created_le_dec : RelDecision session_created_le.
Proof. unfold session_created_le, lex_le. intros s t. apply _. Defined.

Definition query_active_sessions_sync : M CcbdError (list SessionView) :=
  gets (λ db, omap (session_view db) (order_by session_created_le
    (filter (λ s, s.(s_status) = "ACTIVE" ∧ existsb tracked (session_agents s.(s_id) db) = true)
       (table_rows db.(sessions))))).

(** [ORDER BY sessions.created_at DESC LIMIT 1]; which of several equally
    recent sessions is answered is left to the engine, here the first of the
    table. *)
Definition created_desc : relation Session := λ s t, t.(s_created_at) ≤ s.(s_created_at).
#[global] Instance created_desc_dec : RelDecision created_desc.
Proof. unfold created_desc. intros s t. apply _. Defined.

Definition query_session_by_cwd_sync (absolute_path : string) : M CcbdError (option SessionView) :=
  gets (λ db, head (omap (session_view db) (order_by created_desc
    (filter (λ s, p_absolute_path <$> db.(projects) !! s.(s_project_id) = Some absolute_path)
       (table_rows db.(sessions)))))).

Definition session_summary (db : Db) (s : Session) : option SessionSummary :=
  (λ p, let n := Z.of_nat (length (filter (λ a, tracked a = true) (session_agents s.(s_id) db))) in
        MkSessionSummary s.(s_id) s.(s_project_id) p.(p_absolute_path) s.(s_status)
          s.(s_master_state) s.(s_master_pane_id) n n s.(s_created_at))
  <$> db.(projects) !! s.(s_project_id).

Definition list_session_summaries_sync : M CcbdError (list SessionSummary) :=
  gets (λ db, omap (session_summary db) (order_by session_created_le (table_rows db.(sessions)))).

(** ** Updates *)

Definition set_session_master_pane_id_sync (session_id pane_id : string) : M CcbdError unit :=
  update_session session_id (λ _, true) (set_s_master_pane_id (Some pane_id));;
  notify_runtime_tmux_changed.

Definition apply_master_notify_event_sync (session_id : string) (event_generation : Z)
    (new_state : string) (clear_pending_request : bool) :
    M CcbdError (option MasterNotifyTransition) :=
  row ← gets (λ db, db.(sessions) !! session_id);
  match row with
  | Some s =>
      if s.(s_status) != "ACTIVE" then mret None
      else
      let previous_state := s.(s_master_state) in
      let request_id := s.(s_master_pending_tell_request) in
      let current_generation := s.(s_master_generation) in
      if negb (current_generation =? event_generation) then
        mret (Some (MkMasterNotifyTransition previous_state previous_state false request_id
                      current_generation))
      else
      map_err (map_db_error "apply master notify event")
        (update_session_state session_id (λ _, true)
           (if clear_pending_request then set_s_master_pending_tell_request None else id)
           new_state);;
      when (previous_state != new_state) notify_runtime_inventory_changed;;
      mret (Some (MkMasterNotifyTransition previous_state new_state (previous_state != new_state)
                    request_id current_generation))
  | None => mret None
  end.

Definition master_tell_begin_sync (session_id request_id : string) : M CcbdError nat :=
  update_session session_id (λ s, s.(s_status) == "ACTIVE")
    (set_s_master_pending_tell_request (Some request_id)).

Definition master_tell_failed_sync (session_id request_id : string) : M CcbdError nat :=
  update_session session_id (λ s, s.(s_master_pending_tell_request) == Some request_id)
    (set_s_master_pending_tell_request None).

Definition update_session_config_hash_sync (session_id config_hash : string) : M CcbdError unit :=
  update_session session_id (λ _, true) (set_s_config_hash (Some config_hash));; mret tt.

Definition update_session_master_cmd_sync (session_id master_cmd : string) : M CcbdError unit :=
  update_session session_id (λ _, true) (set_s_master_cmd (Some master_cmd));; mret tt.

End Sessions.

(** ** Soundness *)

Section SessionsSound.
Context {EXT : Externals}.

Lemma sound_new_session now id project_id :
  respects sound (insert_session_row (new_session now id project_id 0)).
Proof. apply sound_insert_session. by split; cbn -[elem_of]; try solve_const_in. Qed.
Lemma sound_notify_inventory {E} : respects sound (notify_runtime_inventory_changed : M E unit).
Proof. unfold notify_runtime_inventory_changed, notify_runtime_changed. solve_respects. Qed.
Lemma sound_notify_tmux {E} : respects sound (notify_runtime_tmux_changed : M E unit).
Proof. unfold notify_runtime_tmux_changed, notify_runtime_changed. solve_respects. Qed.
#[local] Hint Resolve sound_new_session sound_notify_inventory sound_notify_tmux : respects.

Lemma sound_insert_session_sync session_id project_id path :
  respects sound (insert_session_sync session_id project_id path).
Proof. unfold insert_session_sync. solve_respects. Qed.

Lemma sound_create_session session_id project_id path :
  respects sound (create_session_sync session_id project_id path).
Proof. unfold create_session_sync. solve_respects. Qed.

Lemma sound_master_pane session_id pane :
  respects sound (set_session_master_pane_id_sync session_id pane).
Proof. unfold set_session_master_pane_id_sync. solve_respects. Qed.

(** The [CHECK] keeps the master's state in its vocabulary. *)
Lemma sound_update_session_state id guard f st :
  (∀ s, guard s = true → session_evolves s (f s) ∧ (session_ok s → session_ok (f s))) →
  respects sound (update_session_state id guard f st).
Proof.
  intros Hf. unfold update_session_state. intros w. rw bind_gets. cbv beta.
  destruct (w.(w_db).(sessions) !! id) as [s|] eqn:Hs; [|reflexivity].
  destruct (guard s && negb (st is_in MASTER_STATES)) eqn:Hst; [reflexivity|].
  destruct (st is_in MASTER_STATES) eqn:Hin.
  - apply bool_decide_eq_true in Hin. apply (sound_update_session (E:=SqlError)).
    intros s' Hg. destruct (Hf s' Hg) as [[] Hok]. split; [by split|].
    intros []%Hok. by split.
  - rw andb_true_r in Hst. unfold update_session, update_row. rw Hs Hst. cbn.
    by rw set_same_sessions.
Qed.

Lemma sound_master_notify session_id gen st clear :
  respects sound (apply_master_notify_event_sync session_id gen st clear).
Proof.
  unfold apply_master_notify_event_sync. solve_respects.
  all: apply sound_update_session_state; destruct clear; solve_master_row.
Qed.

Lemma sound_tell_begin session_id request_id :
  respects sound (master_tell_begin_sync session_id request_id).
Proof. unfold master_tell_begin_sync. solve_respects. Qed.

Lemma sound_tell_failed session_id request_id :
  respects sound (master_tell_failed_sync session_id request_id).
Proof. unfold master_tell_failed_sync. solve_respects. Qed.

Lemma sound_session_config session_id hash :
  respects sound (update_session_config_hash_sync session_id hash).
Proof. unfold update_session_config_hash_sync. solve_respects. Qed.

Lemma sound_session_cmd session_id cmd :
  respects sound (update_session_master_cmd_sync session_id cmd).
Proof. unfold update_session_master_cmd_sync. solve_respects. Qed.

End SessionsSound.

#[export] Hint Resolve sound_notify_inventory sound_notify_tmux sound_insert_session_sync sound_create_session sound_master_pane
  sound_master_notify sound_tell_begin sound_tell_failed sound_session_config sound_session_cmd :
  respects.
