(* ===== verification/Cutovers.v ===== *)
(** * Master cutovers ([src/src/db/master_cutovers.rs])

    A cutover hands a session from its master to a new one.  The record of a
    cutover is also the lock that keeps two cutovers of one session apart: a
    claim succeeds only when the session has no cutover in an active state, and
    a cutover ends by moving to a terminal one.  [lock_step] is that lock by
    itself, and the operations on the records are shown to implement it. *)
From S2P Require Import Prelude Json Schema Sql MasterTables JobGate Invariant MasterSound.

Inductive MasterCutoverClaim : Type := CutoverClaimed | AlreadyActive.
Inductive MasterCutoverUpdate : Type := Updated | CutoverStale.

(** The columns of [master_cutovers] that the queries answer. *)
Record MasterCutover : Type := MkMasterCutover {
  mc_id : string;
  mc_session_id : string;
  mc_state : string;
  mc_old_master_pid : option Z;
  mc_new_master_pid : option Z;
  mc_new_master_generation : option Z;
  mc_new_master_pane_id : option string;
  mc_ah_state_dir : string;
  mc_ah_socket_path : string;
  mc_handoff_path : string;
  mc_ack_ready_at : option Z;
  mc_readiness_mode : option string
}.

Definition cutover_view (c : CutoverRow) : MasterCutover :=
  MkMasterCutover c.(c_id) c.(c_session_id) c.(c_state) c.(c_old_master_pid) c.(c_new_master_pid)
    c.(c_new_master_generation) c.(c_new_master_pane_id) c.(c_ah_state_dir) c.(c_ah_socket_path)
    c.(c_handoff_path) c.(c_ack_ready_at) c.(c_readiness_mode).

Section Cutovers.
Context {EXT : Externals}.

(** [SELECT 1 FROM master_cutovers WHERE session_id = ? AND state IN (states) LIMIT 1] *)
Definition cutover_in (states : list string) (session_id : string) (db : Db) : bool :=
  existsb (λ c, (c.(c_session_id) == session_id) && (c.(c_state) is_in states))
    (table_rows db.(master_cutovers)).

Definition new_cutover (now : Z) (id session_id : string) (old_master_pid : option Z)
    (ah_state_dir ah_socket_path handoff_path : string) : CutoverRow :=
  MkCutoverRow id session_id "PREPARING" old_master_pid None None None ah_state_dir ah_socket_path
    handoff_path None None now now None.

Definition claim_master_cutover (id session_id : string) (old_master_pid : option Z)
    (ah_state_dir ah_socket_path handoff_path : string) : M CcbdError MasterCutoverClaim :=
  transaction (
    active_exists ← gets (cutover_in CUTOVER_ACTIVE session_id);
    if (active_exists : bool) then mret (Commit AlreadyActive)
    else
    now ← asks w_now;
    map_err (map_db_error "insert master cutover")
      (insert_cutover_row (new_cutover now id session_id old_master_pid ah_state_dir
                             ah_socket_path handoff_path));;
    mret (Commit CutoverClaimed)).

(** [completed_at = CASE WHEN ? IN ('ROLLED_BACK', 'FAILED', 'RELEASED') THEN
    unixepoch() ELSE completed_at END], with the new state and [updated_at]. *)
Definition enter_state (now : Z) (next_state : string) (c : CutoverRow) : CutoverRow :=
  set_c_completed_at
    (if next_state is_in CUTOVER_TERMINAL then Some now else c.(c_completed_at))
    (set_c_updated_at now (set_c_state next_state c)).

Definition cutover_changes (changes : nat) : MasterCutoverUpdate :=
  if changes == 1%nat then Updated else CutoverStale.

Definition update_master_cutover_state (id expected_state next_state : string) :
    M CcbdError MasterCutoverUpdate :=
  now ← asks w_now;
  changes ← map_err (map_db_error "update master cutover state")
    (update_cutover id (λ c, c.(c_state) == expected_state) (enter_state now next_state));
  mret (cutover_changes changes).

Definition update_master_cutover_spawn_metadata (id expected_state next_state : string)
    (new_master_pid new_master_generation : Z) (new_master_pane_id : string) :
    M CcbdError MasterCutoverUpdate :=
  now ← asks w_now;
  changes ← map_err (map_db_error "update master cutover spawn metadata")
    (update_cutover id (λ c, c.(c_state) == expected_state)
       (λ c, enter_state now next_state
               (set_c_new_master_pane_id (Some new_master_pane_id)
               (set_c_new_master_generation (Some new_master_generation)
               (set_c_new_master_pid (Some new_master_pid) c)))));
  mret (cutover_changes changes).

Definition mark_master_cutover_ack_ready (id readiness_mode : string) :
    M CcbdError MasterCutoverUpdate :=
  now ← asks w_now;
  changes ← map_err (map_db_error "mark master cutover ack ready")
    (update_cutover id (λ c, c.(c_state) == "VERIFYING")
       (λ c, set_c_updated_at now
               (set_c_readiness_mode (Some readiness_mode) (set_c_ack_ready_at (Some now) c))));
  mret (cutover_changes changes).

Definition release_master_cutover (id expected_state : string) :
    M CcbdError MasterCutoverUpdate :=
  update_master_cutover_state id expected_state "RELEASED".

(** [ORDER BY created_at DESC, id DESC] *)
Definition cutover_newest_le : relation CutoverRow :=
  lex_le (λ c d, d.(c_created_at) < c.(c_created_at)) (λ c d, c.(c_created_at) = d.(c_created_at))
    (λ c d, String.le d.(c_id) c.(c_id)).
#[global] Instance cutover_newest_le_dec : RelDecision cutover_newest_le.
Proof. unfold cutover_newest_le, lex_le. intros c d. apply _. Defined.

Definition active_cutovers (session_id : string) (db : Db) : list CutoverRow :=
  filter (λ c, c.(c_session_id) = session_id ∧ cutover_active c = true)
    (table_rows db.(master_cutovers)).

Definition get_active_master_cutover (session_id : string) : M CcbdError (option MasterCutover) :=
  gets (λ db, cutover_view <$> head (order_by cutover_newest_le (active_cutovers session_id db))).

Definition get_master_cutover (id : string) : M CcbdError (option MasterCutover) :=
  gets (λ db, cutover_view <$> db.(master_cutovers) !! id).

Definition master_cutover_has_inflight_state (session_id : string) : M CcbdError bool :=
  gets (cutover_in CUTOVER_INFLIGHT session_id).

(** ** Soundness *)

Lemma enter_state_ok now next c :
  next ∈ CUTOVER_STATES → cutover_ok c → cutover_ok (enter_state now next c).
Proof.
  intros Hin []. split; simpl; [done|]. intros Ht. by rw bool_decide_true.
Qed.

Lemma enter_state_evolves now next c : cutover_evolves c (enter_state now next c).
Proof. by split. Qed.

Lemma sound_claim_cutover id session_id pid dir sock handoff :
  respects sound (claim_master_cutover id session_id pid dir sock handoff).
Proof.
  unfold claim_master_cutover. solve_respects. apply sound_insert_cutover.
  split; simpl; [solve_const_in|]. intros Hin. exfalso. revert Hin. solve_const_in.
Qed.

Lemma sound_cutover_state id expected next :
  respects sound (update_master_cutover_state id expected next).
Proof.
  unfold update_master_cutover_state. solve_respects. apply sound_update_cutover.
  intros c _. split; [apply enter_state_evolves|apply enter_state_ok].
Qed.

Lemma sound_cutover_spawn id expected next pid gen pane :
  respects sound (update_master_cutover_spawn_metadata id expected next pid gen pane).
Proof.
  unfold update_master_cutover_spawn_metadata. solve_respects. apply sound_update_cutover.
  intros c _. split; [by split|]. intros Hin []. by apply enter_state_ok.
Qed.

Lemma sound_cutover_ack id mode : respects sound (mark_master_cutover_ack_ready id mode).
Proof. unfold mark_master_cutover_ack_ready. solve_respects. Qed.

Lemma sound_cutover_release id expected : respects sound (release_master_cutover id expected).
Proof. apply sound_cutover_state. Qed.

End Cutovers.

#[export] Hint Resolve sound_claim_cutover sound_cutover_state sound_cutover_spawn
  sound_cutover_ack sound_cutover_release : respects.

(** ** The lock the records implement *)

(** Who holds the cutover lock of each session. *)
Definition Lock : Type := gmap string string.

Definition lock_of (db : Db) : Lock :=
  list_to_map ((λ c, (c.(c_session_id), c.(c_id))) <$>
    filter (λ c, cutover_active c = true) (table_rows db.(master_cutovers))).

Inductive CutoverOp : Type :=
| OpClaim (id session_id : string) (old_master_pid : option Z) (dir sock handoff : string)
| OpState (id expected_state next_state : string)
| OpSpawn (id expected_state next_state : string) (pid gen : Z) (pane : string)
| OpAck (id readiness_mode : string).

Inductive CutoverReply : Type :=
| ReplyClaim (c : MasterCutoverClaim)
| ReplyUpdate (u : MasterCutoverUpdate).

Definition run_cutover `{!Externals} (op : CutoverOp) : M CcbdError CutoverReply :=
  match op with
  | OpClaim id sid pid dir sock handoff =>
      r ← claim_master_cutover id sid pid dir sock handoff; mret (ReplyClaim r)
  | OpState id expected next =>
      r ← update_master_cutover_state id expected next; mret (ReplyUpdate r)
  | OpSpawn id expected next pid gen pane =>
      r ← update_master_cutover_spawn_metadata id expected next pid gen pane;
      mret (ReplyUpdate r)
  | OpAck id mode => r ← mark_master_cutover_ack_ready id mode; mret (ReplyUpdate r)
  end.

(** The cutover an operation acts for, and the state it moves it to. *)
Definition op_subject (op : CutoverOp) : string :=
  match op with
  | OpClaim id _ _ _ _ _ | OpState id _ _ | OpSpawn id _ _ _ _ _ | OpAck id _ => id
  end.
Definition op_target (op : CutoverOp) : option string :=
  match op with
  | OpState _ _ next | OpSpawn _ _ next _ _ _ => Some next
  | _ => None
  end.

(** The abstract lock.  A claim takes a free lock and is turned away from a
    taken one; a move to an active state leaves its cutover holding the lock, a
    move to a terminal one leaves it not holding it; everything else, refusals
    and errors included, changes nobody's hold. *)
Inductive lock_step (l : Lock) : CutoverOp → Result CutoverReply CcbdError → Lock → Prop :=
| lock_taken id sid pid dir sock handoff :
    l !! sid = None →
    lock_step l (OpClaim id sid pid dir sock handoff) (Ok (ReplyClaim CutoverClaimed))
      (<[sid := id]> l)
| lock_busy id sid holder pid dir sock handoff :
    l !! sid = Some holder →
    lock_step l (OpClaim id sid pid dir sock handoff) (Ok (ReplyClaim AlreadyActive)) l
| lock_error op e : lock_step l op (Err e) l
| lock_stale op : lock_step l op (Ok (ReplyUpdate CutoverStale)) l
| lock_entered op sid next :
    op_target op = Some next → next ∈ CUTOVER_ACTIVE →
    l !! sid = None ∨ l !! sid = Some (op_subject op) →
    lock_step l op (Ok (ReplyUpdate Updated)) (<[sid := op_subject op]> l)
| lock_left op sid next :
    op_target op = Some next → next ∈ CUTOVER_TERMINAL → l !! sid = Some (op_subject op) →
    lock_step l op (Ok (ReplyUpdate Updated)) (delete sid l)
| lock_not_held op next :
    op_target op = Some next → next ∈ CUTOVER_TERMINAL →
    (∀ sid, l !! sid ≠ Some (op_subject op)) →
    lock_step l op (Ok (ReplyUpdate Updated)) l
| lock_noted op : op_target op = None → lock_step l op (Ok (ReplyUpdate Updated)) l.

Inductive lock_run : Lock → list (CutoverOp * Result CutoverReply CcbdError) → Lock → Prop :=
| lock_done l : lock_run l [] l
| lock_next l op r l1 trace l2 :
    lock_step l op r l1 → lock_run l1 trace l2 → lock_run l ((op, r) :: trace) l2.

(** ** The records implement the lock *)

Lemma lock_row db sid id :
  master_ok (master_of db) →
  (sid, id) ∈ (λ c, (c.(c_session_id), c.(c_id))) <$>
    filter (λ c, cutover_active c = true) (table_rows db.(master_cutovers)) ↔
  ∃ c, db.(master_cutovers) !! id = Some c ∧ c.(c_session_id) = sid ∧ cutover_active c = true.
Proof.
  intros Hm. rw list_elem_of_fmap. split.
  - intros (c & [= -> ->] & [Ha (k & Hk)%elem_of_table_rows]%list_elem_of_filter).
    rw (mo_cutover_key _ Hm _ _ Hk). by exists c.
  - intros (c & Hc & <- & Ha). exists c. rw (mo_cutover_key _ Hm _ _ Hc). split; [done|].
    apply list_elem_of_filter. split; [done|]. apply elem_of_table_rows. by exists id.
Qed.

Lemma lock_of_lookup db sid id :
  master_ok (master_of db) →
  lock_of db !! sid = Some id ↔
  ∃ c, db.(master_cutovers) !! id = Some c ∧ c.(c_session_id) = sid ∧ cutover_active c = true.
Proof.
  intros Hm. rw -lock_row //. unfold lock_of. split; [apply elem_of_list_to_map_2|].
  intros Hin. apply elem_of_list_to_map_1'; [|done]. intros id'. rw !lock_row // in Hin |- *.
  destruct Hin as (c & Hc & Hs & Ha). intros (c' & Hc' & Hs' & Ha').
  apply (mo_cutover_single _ Hm id id' c c'); [done..|congruence].
Qed.

(** The lock after a record was written. *)
Lemma lock_of_put db x :
  let db' := set_master_cutovers (<[x.(c_id) := x]> db.(master_cutovers)) db in
  master_ok (master_of db) → master_ok (master_of db') →
  (∀ c, db.(master_cutovers) !! x.(c_id) = Some c → c.(c_session_id) = x.(c_session_id)) →
  (cutover_active x = true → lock_of db' = <[x.(c_session_id) := x.(c_id)]> (lock_of db)) ∧
  (cutover_active x = false → lock_of db !! x.(c_session_id) = Some x.(c_id) →
   lock_of db' = delete x.(c_session_id) (lock_of db)) ∧
  (cutover_active x = false → (∀ sid, lock_of db !! sid ≠ Some x.(c_id)) →
   lock_of db' = lock_of db).
Proof.
  intros db' Hm Hm' Hsame.
  assert (Hl : ∀ sid id, lock_of db' !! sid = Some id ↔
    (id = x.(c_id) ∧ x.(c_session_id) = sid ∧ cutover_active x = true) ∨
    (id ≠ x.(c_id) ∧ lock_of db !! sid = Some id)).
  { intros sid id. rw !lock_of_lookup //. unfold db'.
    cbn [master_cutovers set_master_cutovers].
    destruct (decide (x.(c_id) = id)) as [<-|Hne];
      [rw lookup_insert_eq|rw lookup_insert_ne //]; naive_solver. }
  assert (Hold : ∀ sid, lock_of db !! sid = Some x.(c_id) → x.(c_session_id) = sid).
  { intros sid (c & Hc & <- & _)%lock_of_lookup; [|done]. by rw (Hsame c Hc). }
  split_and!.
  - intros Ha. apply map_eq. intros sid. apply option_eq. intros id.
    rw Hl lookup_insert_Some.
    assert (Hx : lock_of db' !! x.(c_session_id) = Some x.(c_id)) by (apply Hl; auto).
    split; cycle 1.
    { intros [[<- <-]|[Hne Hid]]; [by left|right]. split; [|done]. intros ->. by apply Hne, Hold. }
    intros [(-> & <- & _)|[Hne Hid]]; [by left|]. right. split; [|done]. intros <-.
    assert (lock_of db' !! x.(c_session_id) = Some id) by (apply Hl; auto). congruence.
  - intros Ha Hx. apply map_eq. intros sid. apply option_eq. intros id.
    rw Hl lookup_delete_Some. split; cycle 1.
    { intros [Hne Hid]. right. split; [|done]. intros ->. by apply Hne, Hold. }
    intros [(_ & _ & ?)|[Hne Hid]]; [congruence|]. split; [|done]. intros <-. congruence.
  - intros Ha Hx. apply map_eq. intros sid. apply option_eq. intros id. rw Hl. split.
    + intros [(_ & _ & ?)|[Hne Hid]]; [congruence|done].
    + intros Hid. right. split; [|done]. intros ->. by eapply Hx.
Qed.

Section Refinement.
Context {EXT : Externals}.

Lemma sound_master_ok {E A} (m : M E A) w :
  respects sound m → master_ok (master_of w.(w_db)) → master_ok (master_of (m w).2.(w_db)).
Proof. intros Hs. apply (mev_ok _ _ (ev_master _ _ (proj1 (Hs w)))). Qed.

Lemma cutover_in_active sid db :
  master_ok (master_of db) →
  cutover_in CUTOVER_ACTIVE sid db = true ↔ is_Some (lock_of db !! sid).
Proof.
  intros Hm. unfold cutover_in. rw existsb_exists. split.
  - intros (c & [k Hk]%list_elem_of_In%elem_of_table_rows & [Hs Ha]%andb_true_iff).
    apply bool_decide_eq_true in Hs. exists k. apply lock_of_lookup; [done|]. by exists c.
  - intros [id (c & Hc & Hs & Ha)%lock_of_lookup]; [|done]. exists c.
    unfold cutover_active in Ha. rw bool_decide_true // Ha. split; [|done].
    apply list_elem_of_In, elem_of_table_rows. by exists id.
Qed.

Lemma cutover_ended c :
  c.(c_state) ∈ CUTOVER_STATES → cutover_active c = false → c.(c_state) ∈ CUTOVER_TERMINAL.
Proof.
  unfold cutover_active. intros Hin Ha%bool_decide_eq_false. revert Hin Ha.
  unfold CUTOVER_STATES, CUTOVER_ACTIVE, CUTOVER_TERMINAL. set_solver.
Qed.

(** What an [UPDATE] of one record does to the lock. *)
Lemma update_lock w op (id : string) (guard : CutoverRow → bool) f :
  master_ok (master_of w.(w_db)) → respects sound (update_cutover id guard f) →
  (∀ c, guard c = true → cutover_evolves c (f c)) →
  op_subject op = id →
  (∀ c next, op_target op = Some next → (f c).(c_state) = next) →
  (∀ c, op_target op = None → guard c = true →
        cutover_active c = true ∧ cutover_active (f c) = true) →
  let '(r, w') := update_cutover id guard f w in
  match r with
  | Ok n => lock_step (lock_of w.(w_db)) op (Ok (ReplyUpdate (cutover_changes n)))
              (lock_of w'.(w_db))
  | Err _ => w' = w
  end.
Proof.
  intros Hm Hs Hev Hid Hnext Hnone. pose proof (sound_master_ok _ w Hs Hm) as Hm'.
  unfold update_cutover in *.
  destruct (w.(w_db).(master_cutovers) !! id) as [c|] eqn:Hc; [|by apply lock_stale].
  destruct (guard c) eqn:Hg; [|by apply lock_stale].
  destruct (check_cutover (f c) w.(w_db)) as [e|] eqn:Hch; [done|].
  destruct (Hev c Hg) as [Hfid Hfs _ _]. rw (mo_cutover_key _ Hm _ _ Hc) in Hfid.
  set (x := f c) in *. cbn [w_db set_db snd] in *. rw -Hfid in Hm' |- *.
  destruct (lock_of_put w.(w_db) x Hm Hm') as (Hin & Hout & Hno); [by rw Hfid Hc; intros ? [= <-]|].
  destruct (check_cutover_ok _ _ Hm Hch) as [Hst Hun].
  assert (Hfree : cutover_active x = true → lock_of w.(w_db) !! x.(c_session_id) = None ∨
                  lock_of w.(w_db) !! x.(c_session_id) = Some (op_subject op)).
  { intros Ha. destruct (lock_of _ !! _) as [k|] eqn:Hk; [right|by left].
    apply lock_of_lookup in Hk as (y & Hy & Hys & Hya); [|done].
    destruct (decide (k = x.(c_id))) as [->|Hne]; [by rw Hid Hfid|]. by destruct (Hun k y). }
  destruct (op_target op) as [next|] eqn:Ht.
  - specialize (Hnext c next eq_refl). fold x in Hnext.
    destruct (cutover_active x) eqn:Ha.
    + rw Hin // Hfid -Hid. apply (lock_entered _ _ _ next); [done| |by apply Hfree].
      unfold cutover_active in Ha. by rw Hnext in Ha; apply bool_decide_eq_true in Ha.
    + assert (next ∈ CUTOVER_TERMINAL) by (rw -Hnext; by apply cutover_ended).
      destruct (decide (lock_of w.(w_db) !! x.(c_session_id) = Some x.(c_id))) as [Hh|Hh].
      * rw Hout //. apply (lock_left _ _ _ next); [done..|]. by rw Hid -Hfid.
      * assert (∀ sid, lock_of w.(w_db) !! sid ≠ Some x.(c_id)) as Hn.
        { intros sid Hsid. apply Hh. pose proof Hsid as (y & Hy & <- & _)%lock_of_lookup; [|done].
          rw Hfid Hc in Hy. simplify_eq. by rw Hfs. }
        rw Hno //. apply (lock_not_held _ _ next); [done..|]. by rw Hid -Hfid.
  - destruct (Hnone c eq_refl Hg) as [Ha Hx]. fold x in Hx. rw Hin // insert_id.
    + apply lock_of_lookup; [done|]. exists c. by rw Hfid Hfs.
    + by apply lock_noted.
Qed.

Lemma claim_lock w id sid pid dir sock handoff :
  master_ok (master_of w.(w_db)) →
  let '(r, w') := run_cutover (OpClaim id sid pid dir sock handoff) w in
  lock_step (lock_of w.(w_db)) (OpClaim id sid pid dir sock handoff) r (lock_of w'.(w_db)).
Proof.
  intros Hm. pose proof (sound_master_ok _ w (sound_claim_cutover id sid pid dir sock handoff) Hm).
  cbn [run_cutover]. unfold claim_master_cutover, transaction in *.
  unfold mbind, M_bind, gets, asks, map_err, mret, M_ret, insert_cutover_row in *.
  pose proof (cutover_in_active sid w.(w_db) Hm) as Hact.
  destruct (cutover_in CUTOVER_ACTIVE sid w.(w_db)) eqn:Hin.
  { destruct (proj1 Hact) as [k Hk]; [done|]. by eapply lock_busy. }
  assert (Hfree : lock_of w.(w_db) !! sid = None).
  { apply eq_None_not_Some. intros Hs. by apply Hact in Hs. }
  set (x := new_cutover _ _ _ _ _ _ _) in *.
  destruct (check_cutover x w.(w_db)) as [[]|] eqn:Hch; try apply lock_error.
  case_bool_decide as Hpk; [apply lock_error|].
  destruct (sessions _ !! _) eqn:Hs; [|apply lock_error]. cbn [snd w_db set_db] in *.
  destruct (lock_of_put w.(w_db) x Hm H) as (Hput & _ & _).
  { intros c Hc. by rw Hc in Hpk; destruct Hpk. }
  rw Hput; [by vm_compute|]. by apply lock_taken.
Qed.

Lemma sound_run_cutover op : respects sound (run_cutover op).
Proof. destruct op; cbn [run_cutover]; solve_respects. Qed.

(** An [UPDATE] of one record, its error given a context and its count answered. *)
Lemma move_lock w op id guard f (ctx : SqlError → CcbdError) :
  master_ok (master_of w.(w_db)) →
  (∀ c, guard c = true → cutover_evolves c (f c)) →
  (∀ c, guard c = true → (f c).(c_state) ∈ CUTOVER_STATES → cutover_ok c → cutover_ok (f c)) →
  op_subject op = id →
  (∀ c next, op_target op = Some next → (f c).(c_state) = next) →
  (∀ c, op_target op = None → guard c = true →
        cutover_active c = true ∧ cutover_active (f c) = true) →
  run_cutover op w = ((r ← map_err ctx (update_cutover id guard f); mret (cutover_changes r)) ≫=
                      λ r, mret (ReplyUpdate r)) w →
  let '(r, w') := run_cutover op w in lock_step (lock_of w.(w_db)) op r (lock_of w'.(w_db)).
Proof.
  intros Hm Hev Hok Hid Hnext Hnone ->.
  pose proof (update_lock w op id guard f Hm) as Hu. unfold mbind, M_bind, map_err.
  destruct (update_cutover id guard f w) as [[n|e] w']; [apply Hu|rw Hu]; try done.
  all: try (apply sound_update_cutover; by split; [apply Hev|apply Hok]). by apply lock_error.
Qed.

(** One operation is one step of the lock. *)
Lemma cutover_lock_step w op :
  master_ok (master_of w.(w_db)) →
  let '(r, w') := run_cutover op w in
  lock_step (lock_of w.(w_db)) op r (lock_of w'.(w_db)) ∧ master_ok (master_of w'.(w_db)).
Proof.
  intros Hm. enough (let '(r, w') := run_cutover op w in
    lock_step (lock_of w.(w_db)) op r (lock_of w'.(w_db))) as Hstep.
  { pose proof (sound_master_ok _ w (sound_run_cutover op) Hm). by destruct (run_cutover op w). }
  destruct op as [id sid pid dir sock handoff|id expected next
    |id expected next pid gen pane|id mode].
  - by apply claim_lock.
  - apply (move_lock _ _ id (λ c, c.(c_state) == expected) (enter_state w.(w_now) next)
      (map_db_error "update master cutover state")); try done.
    + intros c _. apply enter_state_ok.
    + by intros c ? [= <-].
  - eapply (move_lock _ _ id (λ c, c.(c_state) == expected) (λ c, enter_state w.(w_now) next
               (set_c_new_master_pane_id (Some pane)
               (set_c_new_master_generation (Some gen) (set_c_new_master_pid (Some pid) c))))
      (map_db_error "update master cutover spawn metadata")); try done.
    + intros c _ Hin []. by apply enter_state_ok.
    + by intros c ? [= <-].
  - eapply (move_lock _ _ id (λ c, c.(c_state) == "VERIFYING") (λ c, set_c_updated_at w.(w_now)
               (set_c_readiness_mode (Some mode) (set_c_ack_ready_at (Some w.(w_now)) c)))
      (map_db_error "mark master cutover ack ready")); try done.
    + by intros c _ Hin [].
    + intros c _ Hv%bool_decide_eq_true. unfold cutover_active. by rw /= Hv.
Qed.

(** Asking for the active cutover of a session answers the record of the
    lock's holder: the newest of the session's active records is the only one,
    and no session without a holder gets an answer. *)
Theorem get_active_cutover_is_holder w session_id :
  master_ok (master_of w.(w_db)) →
  get_active_master_cutover session_id w =
  (Ok (holder ← lock_of w.(w_db) !! session_id;
       cutover_view <$> w.(w_db).(master_cutovers) !! holder), w).
Proof.
  intros Hm. unfold get_active_master_cutover, gets. do 2 f_equal.
  assert (Hrows : ∀ c, c ∈ active_cutovers session_id w.(w_db) ↔
    ∃ id, lock_of w.(w_db) !! session_id = Some id ∧ w.(w_db).(master_cutovers) !! id = Some c).
  { intros c. unfold active_cutovers. rw list_elem_of_filter elem_of_table_rows. split.
    - intros ([Hs Ha] & id & Hid). exists id. split; [|done]. apply lock_of_lookup; [done|].
      by exists c.
    - intros (id & (c' & Hc' & Hs & Ha)%lock_of_lookup & Hid); [|done]. simplify_eq. eauto. }
  destruct (head _) as [c|] eqn:Hh.
  - apply head_Some_elem_of in Hh. rw order_by_elem in Hh.
    apply Hrows in Hh as (id & -> & Hid). by rw /= Hid.
  - apply order_by_head_None in Hh. destruct (lock_of _ !! _) as [id|] eqn:Hl; [|done].
    pose proof Hl as (c & Hc & _)%lock_of_lookup; [|done].
    destruct (proj1 (elem_of_nil c)). rw -Hh. apply Hrows. by exists id.
Qed.

(** A sequence of operations: the answers, and the world they leave. *)
Fixpoint run_cutovers (ops : list CutoverOp) (w : World) :
    list (CutoverOp * Result CutoverReply CcbdError) * World :=
  match ops with
  | [] => ([], w)
  | op :: ops =>
      let '(r, w1) := run_cutover op w in
      let '(rs, w2) := run_cutovers ops w1 in ((op, r) :: rs, w2)
  end.

(** Only the holder's own operations end its hold. *)
Lemma lock_step_keeps l op r l' sid id :
  lock_step l op r l' → l !! sid = Some id → op_subject op ≠ id → l' !! sid = Some id.
Proof.
  intros Hstep Hl Hne. destruct Hstep as [|? sid' |? |? |? sid' ? ? ? [Hn|Hh]|? sid' ? ? ? Hh|? |?];
    try done.
  all: try (rw lookup_insert_ne; [|done]; congruence).
  rw lookup_delete_ne; [|done]; congruence.
Qed.

Lemma lock_kept ops w sid id :
  master_ok (master_of w.(w_db)) → lock_of w.(w_db) !! sid = Some id →
  Forall (λ op, op_subject op ≠ id) ops →
  let w' := (run_cutovers ops w).2 in
  master_ok (master_of w'.(w_db)) ∧ lock_of w'.(w_db) !! sid = Some id.
Proof.
  intros Hm Hl Hops. induction Hops as [|op ops Hne Hops IH] in w, Hm, Hl |- *; [done|].
  cbn [run_cutovers]. pose proof (cutover_lock_step w op Hm) as Hr.
  destruct (run_cutover op w) as [r w1]. destruct Hr as [Hstep Hm1].
  pose proof (lock_step_keeps _ _ _ _ _ _ Hstep Hl Hne) as Hl1. specialize (IH w1 Hm1 Hl1).
  by destruct (run_cutovers ops w1).
Qed.


(** Two cutovers of one session never overlap.  After a claim succeeded, no
    sequence of other cutovers' operations lets anybody else claim the session:
    every further claim is answered AlreadyActive and writes nothing. *)
Theorem cutover_exclusive w w1 id sid pid dir sock handoff ops id' pid' dir' sock' handoff' :
  master_ok (master_of w.(w_db)) →
  claim_master_cutover id sid pid dir sock handoff w = (Ok CutoverClaimed, w1) →
  Forall (λ op, op_subject op ≠ id) ops →
  let w2 := (run_cutovers ops w1).2 in
  claim_master_cutover id' sid pid' dir' sock' handoff' w2 = (Ok AlreadyActive, w2).
Proof.
  intros Hm Hc Hops w2.
  pose proof (cutover_lock_step w (OpClaim id sid pid dir sock handoff) Hm) as Hr.
  cbn [run_cutover] in Hr. rw (bind_ok _ _ _ _ _ Hc) in Hr. destruct Hr as [Hstep Hm1].
  assert (Hl1 : lock_of w1.(w_db) !! sid = Some id).
  { inversion Hstep as [? ? ? ? ? ? ? Heq| | | | | | |]. by rw lookup_insert_eq. }
  destruct (lock_kept ops w1 sid id Hm1 Hl1 Hops) as [Hm2 Hl2].
  unfold claim_master_cutover. apply transaction_ok. step_pure.
  by rw (proj2 (cutover_in_active sid (run_cutovers ops w1).2.(w_db) Hm2)); [rw Hl2|].
Qed.

End Refinement.
