(* ===== verification/MasterRecovery.v ===== *)
(** * Recovery windows of a dead master ([src/src/db/master_recovery.rs])

    When a master dies with work in progress its workers are not killed at
    once: a window is opened in which the master may be revived.  The anchor of
    the session asks whether to cascade the death to the workers
    ([decide_anchor_cascade_sync]); while the window is open and holds active
    work the answer is to defer, at most until [defer_until], which no
    operation moves past [created_at + MASTER_RECOVERY_WINDOW_MAX_TOTAL_SECS].

    [env] arguments are the values read from the environment
    ([std::env::var(..).ok().and_then(parse)]). *)
From S2P Require Import Prelude Json Schema Sql MasterTables JobGate Invariant MasterSound AgentGate Sessions Cutovers.

Definition MASTER_REVIVE_READINESS_TIMEOUT_SECS : Z := 30.
Definition MASTER_REVIVE_READINESS_CLEANUP_MARGIN_SECS : Z := 5.

(** [i64::clamp] *)
Definition clamp (v lo hi : Z) : Z := Z.max lo (Z.min v hi).

Inductive AnchorCascadeDecision : Type :=
| Defer (until : Z) (phase : string)
| CascadeNow (reason : string).

Record MasterRecoveryWindow : Type := MkMasterRecoveryWindow {
  mw_session_id : string;
  mw_expected_pid : Z;
  mw_expected_generation : Z;
  mw_claimed_generation : option Z;
  mw_phase : string;
  mw_active_work : bool;
  mw_defer_until : Z;
  mw_created_at : Z;
  mw_updated_at : Z;
  mw_completed_at : option Z
}.

Definition window_view (r : WindowRow) : MasterRecoveryWindow :=
  MkMasterRecoveryWindow r.(m_session_id) r.(m_expected_pid) r.(m_expected_generation)
    r.(m_claimed_generation) r.(m_phase) r.(m_active_work) r.(m_defer_until) r.(m_created_at)
    r.(m_updated_at) r.(m_completed_at).

Definition resolve_master_recovery_cascade_defer_secs (env : option Z) : Z :=
  clamp (default MASTER_RECOVERY_CASCADE_DEFER_SECS env) 10 MASTER_RECOVERY_WINDOW_MAX_TOTAL_SECS.

Definition resolve_master_revive_readiness_timeout_secs (env : option Z) : Z :=
  clamp (default MASTER_REVIVE_READINESS_TIMEOUT_SECS env) 10 60.

Definition effective_readiness_timeout (now defer_until created_at configured_secs
    cleanup_margin : Z) : Z :=
  let hard_deadline := Z.min defer_until (created_at + MASTER_RECOVERY_WINDOW_MAX_TOTAL_SECS) in
  let remaining := hard_deadline - now in
  let timeout := clamp configured_secs 10 60 in
  Z.min timeout (remaining - cleanup_margin).

Definition capped_defer_until (now defer_secs created_at : Z) : Z :=
  let defer_secs := clamp defer_secs 10 MASTER_RECOVERY_WINDOW_MAX_TOTAL_SECS in
  Z.min (now + defer_secs) (created_at + MASTER_RECOVERY_WINDOW_MAX_TOTAL_SECS).

Definition is_terminal_phase (phase : string) : bool := phase is_in ["COMPLETED"; "FAILED"; "FUSED"].

Section MasterRecovery.
Context {EXT : Externals}.

Definition map_master_recovery_error (context : string) (err : SqlError) : CcbdError :=
  DbConstraintViolation (context +:+ ": " +:+ sql_error_display err).

Definition query_window_in_tx (session_id : string) : M CcbdError (option MasterRecoveryWindow) :=
  gets (λ db, window_view <$> db.(recovery_windows) !! session_id).

(** [status, master_pid, master_generation] of the session *)
Definition query_session_runtime (session_id : string) : M CcbdError (option Session) :=
  gets (λ db, db.(sessions) !! session_id).

(** ** Opening a window *)

Definition fresh_window (session_id : string) (expected_pid expected_generation : Z)
    (active_work : bool) (defer_until now : Z) : WindowRow :=
  MkWindowRow session_id expected_pid expected_generation None "DETECTED" active_work defer_until
    now now None None None None None.

Definition begin_master_recovery_window_sync (session_id : string)
    (expected_pid expected_generation : Z) (active_work : bool) (now defer_secs : Z) :
    M CcbdError MasterRecoveryWindow :=
  transaction (
    let defer_until := capped_defer_until now defer_secs now in
    existing ← query_window_in_tx session_id;
    match existing with
    | None =>
        map_err (map_master_recovery_error "insert master recovery window")
          (insert_window_row (fresh_window session_id expected_pid expected_generation active_work
                                defer_until now))
    | Some existing =>
        if expected_generation <? existing.(mw_expected_generation) then mret tt
        else if (existing.(mw_expected_generation) <? expected_generation) ||
                is_terminal_phase existing.(mw_phase) then
          map_err (map_master_recovery_error "replace master recovery window")
            (update_window session_id (λ _, true)
               (λ r, fresh_window r.(m_session_id) expected_pid expected_generation active_work
                       defer_until now));;
          mret tt
        else
          let active_work := existing.(mw_active_work) || active_work in
          let defer_until := Z.max existing.(mw_defer_until)
            (capped_defer_until now defer_secs existing.(mw_created_at)) in
          map_err (map_master_recovery_error "upsert master recovery window")
            (update_window session_id (λ r, r.(m_expected_generation) =? expected_generation)
               (λ r, set_m_updated_at now (set_m_defer_until defer_until
                       (set_m_active_work active_work (set_m_expected_pid expected_pid r)))));;
          mret tt
    end;;
    window ← query_window_in_tx session_id;
    match window with
    | Some window => mret (Commit window)
    | None => throw (DbConstraintViolation
                       ("master recovery window missing after begin for " +:+ session_id))
    end).

(** ** Moving a window *)

Definition update_master_recovery_phase_sync (env : option Z) (session_id : string)
    (expected_generation : Z) (new_phase : string) (now : Z) : M CcbdError bool :=
  transaction (
    existing ← query_window_in_tx session_id;
    match existing with
    | None => mret (Commit false)
    | Some existing =>
        if negb (existing.(mw_expected_generation) =? expected_generation) then
          mret (Commit false)
        else
        let defer_until := Z.max existing.(mw_defer_until)
          (capped_defer_until now (resolve_master_recovery_cascade_defer_secs env)
             existing.(mw_created_at)) in
        changes ← map_err (map_master_recovery_error "update master recovery phase")
          (update_window session_id (λ r, r.(m_expected_generation) =? expected_generation)
             (λ r, set_m_updated_at now (set_m_defer_until defer_until (set_m_phase new_phase r))));
        mret (Commit (changes == 1%nat))
    end).

Definition complete_master_recovery_window_sync (session_id : string) (expected_generation now : Z) :
    M CcbdError bool :=
  changes ← map_err (map_master_recovery_error "complete master recovery window")
    (update_window session_id (λ r, r.(m_expected_generation) =? expected_generation)
       (λ r, set_m_updated_at now (set_m_completed_at (Some now) (set_m_phase "COMPLETED" r))));
  mret (changes == 1%nat).

Definition begin_master_recovery_readiness_wait_sync (session_id : string)
    (expected_generation : Z) (readiness_mode readiness_token : string) (now : Z) :
    M CcbdError bool :=
  changes ← map_err (map_master_recovery_error "begin master recovery readiness wait")
    (update_window session_id
       (λ r, (r.(m_expected_generation) =? expected_generation) &&
             negb (r.(m_phase) is_in ["COMPLETED"; "FAILED"; "FUSED"]))
       (λ r, set_m_updated_at now (set_m_ready_reason None (set_m_ready_at None
               (set_m_readiness_token (Some readiness_token)
               (set_m_readiness_mode (Some readiness_mode)
               (set_m_phase "MASTER_VERIFYING" r)))))));
  mret (changes == 1%nat).

Definition mark_master_recovery_ready_sync (session_id : string) (expected_generation : Z)
    (ready_reason : string) (now : Z) : M CcbdError bool :=
  changes ← map_err (map_master_recovery_error "mark master recovery ready")
    (update_window session_id
       (λ r, (r.(m_expected_generation) =? expected_generation) &&
             (r.(m_phase) == "MASTER_VERIFYING"))
       (λ r, set_m_updated_at now (set_m_ready_reason (Some ready_reason)
               (set_m_ready_at (Some now) r))));
  mret (changes == 1%nat).

Definition fail_master_recovery_readiness_sync (session_id : string) (expected_generation : Z)
    (reason : string) (now : Z) : M CcbdError bool :=
  changes ← map_err (map_master_recovery_error "fail master recovery readiness")
    (update_window session_id
       (λ r, (r.(m_expected_generation) =? expected_generation) &&
             (r.(m_phase) == "MASTER_VERIFYING"))
       (λ r, set_m_updated_at now (set_m_ready_reason (Some reason) (set_m_phase "FAILED" r))));
  mret (changes == 1%nat).

Definition expire_master_recovery_window_in_tx (session_id : string) (now : Z) :
    M CcbdError bool :=
  window ← query_window_in_tx session_id;
  match window with
  | None => mret false
  | Some window =>
      if is_terminal_phase window.(mw_phase) || (now <=? window.(mw_defer_until)) then mret false
      else
      changes ← map_err (map_master_recovery_error "expire master recovery window")
        (update_window session_id
           (λ r, negb (r.(m_phase) is_in ["COMPLETED"; "FAILED"; "FUSED"]) &&
                 (r.(m_defer_until) <? now))
           (λ r, set_m_updated_at now (set_m_phase "FAILED" r)));
      when (changes == 1%nat) (
        update_session session_id (λ _, true)
          (λ s, set_s_master_last_exit_reason (Some "MASTER_REVIVE_WINDOW_EXPIRED")
                  (set_s_status "FAILED" s));;
        notify_runtime_changed InventoryChanged);;
      mret (changes == 1%nat)
  end.

Definition expire_master_recovery_window_sync (session_id : string) (now : Z) :
    M CcbdError bool :=
  transaction (
    expired ← expire_master_recovery_window_in_tx session_id now;
    mret (Commit expired)).

(** ** The decision *)

(** [state IN ('SPAWNING', 'WAITING_FOR_ACK', 'BUSY', 'PROMPT_PENDING')] *)
Definition working_state (state : string) : bool :=
  state is_in ["SPAWNING"; "WAITING_FOR_ACK"; "BUSY"; "PROMPT_PENDING"].

Definition session_has_open_job (session_id : string) (db : Db) : bool :=
  existsb (λ j, (a_session_id <$> db.(agents) !! j.(j_agent_id) == Some session_id) &&
                (j.(j_status) is_in ["QUEUED"; "DISPATCHED"])) (table_rows db.(jobs)).

Definition session_has_active_work (session_id : string) : M CcbdError bool :=
  gets (λ db, existsb (λ a, working_state a.(a_state)) (session_agents session_id db)
              || session_has_open_job session_id db).

Definition master_cutover_inflight_in_tx (session_id : string) : M CcbdError bool :=
  gets (cutover_in ["PREPARING"; "SPAWNING"; "VERIFYING"] session_id).

Definition begin_master_recovery_window_in_tx (session_id : string)
    (expected_pid expected_generation : Z) (active_work : bool) (now defer_secs : Z) :
    M CcbdError MasterRecoveryWindow :=
  let defer_until := capped_defer_until now defer_secs now in
  map_err (map_master_recovery_error "insert detected master recovery window")
    (insert_window_row (fresh_window session_id expected_pid expected_generation active_work
                          defer_until now));;
  window ← query_window_in_tx session_id;
  match window with
  | Some window => mret window
  | None => throw (DbConstraintViolation
                     ("master recovery window missing after detected insert for " +:+ session_id))
  end.

Definition decision_for_existing_window (window : MasterRecoveryWindow) (now : Z) :
    M CcbdError AnchorCascadeDecision :=
  if window.(mw_phase) == "COMPLETED" then mret (CascadeNow "MASTER_RECOVERY_COMPLETED")
  else if window.(mw_phase) is_in ["FAILED"; "FUSED"] then
    mret (CascadeNow "MASTER_RECOVERY_TERMINAL")
  else if window.(mw_defer_until) <? now then
    expire_master_recovery_window_in_tx window.(mw_session_id) now;;
    mret (CascadeNow "MASTER_REVIVE_WINDOW_EXPIRED")
  else if window.(mw_active_work) then
    mret (Defer window.(mw_defer_until) window.(mw_phase))
  else mret (CascadeNow "NO_ACTIVE_WORK_WINDOW").

Definition decide_anchor_cascade_in_tx (env : option Z) (session_id : string) (now : Z) :
    M CcbdError AnchorCascadeDecision :=
  session ← query_session_runtime session_id;
  match session with
  | None => mret (CascadeNow "SESSION_NOT_ACTIVE")
  | Some session =>
      if session.(s_status) != "ACTIVE" then mret (CascadeNow "SESSION_NOT_ACTIVE")
      else
      window ← query_window_in_tx session_id;
      match window with
      | Some window => decision_for_existing_window window now
      | None =>
          inflight ← master_cutover_inflight_in_tx session_id;
          if (inflight : bool) then mret (CascadeNow "MASTER_CUTOVER_IN_FLIGHT")
          else
          active ← session_has_active_work session_id;
          if (active : bool) then
            window ← begin_master_recovery_window_in_tx session_id session.(s_master_pid)
                       session.(s_master_generation) true now
                       (resolve_master_recovery_cascade_defer_secs env);
            mret (Defer window.(mw_defer_until) window.(mw_phase))
          else mret (CascadeNow "NO_MASTER_RECOVERY_WINDOW")
      end
  end.

Definition decide_anchor_cascade_sync (env : option Z) (session_id : string) (now : Z) :
    M CcbdError AnchorCascadeDecision :=
  transaction (
    decision ← decide_anchor_cascade_in_tx env session_id now;
    mret (Commit decision)).

(** ** Soundness *)

Lemma capped_defer_bound now secs created :
  capped_defer_until now secs created ≤ created + MASTER_RECOVERY_WINDOW_MAX_TOTAL_SECS.
Proof. unfold capped_defer_until. lia. Qed.

Lemma fresh_window_ok sid pid gen work secs now :
  window_ok (fresh_window sid pid gen work (capped_defer_until now secs now) now).
Proof. split; simpl; [solve_const_in|apply capped_defer_bound]. Qed.

Lemma sound_query_window sid : respects sound (query_window_in_tx sid).
Proof. unfold query_window_in_tx. solve_respects. Qed.
#[local] Hint Resolve sound_query_window : respects.

(** Writing a later deadline into the window that was read. *)
Lemma extended_ok w sid r now secs g f :
  w.(w_db).(recovery_windows) !! sid = Some r →
  (∀ r0 d, window_evolves r0 (f d r0)) →
  (∀ r0 d, (f d r0).(m_defer_until) = d ∧ (f d r0).(m_created_at) = r0.(m_created_at)) →
  let d := Z.max r.(m_defer_until) (capped_defer_until now secs r.(m_created_at)) in
  sound w.(w_db) (update_window sid g (f d) w).2.(w_db).
Proof.
  intros Hr Hev Hf d. apply sound_update_window_at. rw Hr. intros ? [= <-] _.
  split; [apply Hev|]. intros Hph []. destruct (Hf r d) as [Hd Hc].
  split; [done|]. rw Hd Hc. pose proof (capped_defer_bound now secs r.(m_created_at)). lia.
Qed.

Lemma sound_begin_window sid pid gen work now secs :
  respects sound (begin_master_recovery_window_sync sid pid gen work now secs).
Proof.
  unfold begin_master_recovery_window_sync. apply respects_transaction; [apply _|].
  intros w. cbv zeta. unfold query_window_in_tx at 1. rw bind_gets. cbv beta.
  apply sound_bind_at; [|intros ?; solve_respects].
  destruct (w.(w_db).(recovery_windows) !! sid) as [r|] eqn:Hr; simpl; cycle 1.
  { apply sound_map_err_at, sound_insert_window. intros _. apply fresh_window_ok. }
  destruct (gen <? r.(m_expected_generation)) eqn:Hlt; [reflexivity|]. apply Z.ltb_ge in Hlt.
  destruct (_ || _); (apply sound_bind_at; [apply sound_map_err_at|intros ?; solve_respects]).
  - apply sound_update_window_at. rw Hr. intros ? [= <-] _. split; [by split|].
    intros _ _. apply fresh_window_ok.
  - by apply (extended_ok w sid r now secs _ (λ d r0, set_m_updated_at now (set_m_defer_until d
      (set_m_active_work (r.(m_active_work) || work) (set_m_expected_pid pid r0))))).
Qed.

Lemma sound_recovery_phase env sid gen phase now :
  respects sound (update_master_recovery_phase_sync env sid gen phase now).
Proof.
  unfold update_master_recovery_phase_sync. apply respects_transaction; [apply _|].
  intros w. unfold query_window_in_tx. rw bind_gets. cbv beta.
  destruct (w.(w_db).(recovery_windows) !! sid) as [r|] eqn:Hr; simpl; [|reflexivity].
  destruct (negb _); [reflexivity|].
  apply sound_bind_at; [apply sound_map_err_at|intros ?; solve_respects].
  by apply (extended_ok w sid r now _ _ (λ d r0, set_m_updated_at now (set_m_defer_until d
    (set_m_phase phase r0)))).
Qed.

Lemma sound_complete_window sid gen now :
  respects sound (complete_master_recovery_window_sync sid gen now).
Proof. unfold complete_master_recovery_window_sync. solve_respects. Qed.

Lemma sound_readiness_wait sid gen mode token now :
  respects sound (begin_master_recovery_readiness_wait_sync sid gen mode token now).
Proof. unfold begin_master_recovery_readiness_wait_sync. solve_respects. Qed.

Lemma sound_recovery_ready sid gen reason now :
  respects sound (mark_master_recovery_ready_sync sid gen reason now).
Proof. unfold mark_master_recovery_ready_sync. solve_respects. Qed.

Lemma sound_fail_readiness sid gen reason now :
  respects sound (fail_master_recovery_readiness_sync sid gen reason now).
Proof. unfold fail_master_recovery_readiness_sync. solve_respects. Qed.

Lemma sound_notify_runtime {E} r : respects sound (notify_runtime_changed r : M E unit).
Proof. unfold notify_runtime_changed. solve_respects. Qed.
#[local] Hint Resolve sound_notify_runtime : respects.

Lemma sound_expire_in_tx sid now :
  respects sound (expire_master_recovery_window_in_tx sid now).
Proof. unfold expire_master_recovery_window_in_tx. solve_respects. Qed.
#[local] Hint Resolve sound_expire_in_tx : respects.

Lemma sound_expire_window sid now : respects sound (expire_master_recovery_window_sync sid now).
Proof. unfold expire_master_recovery_window_sync. solve_respects. Qed.

Lemma sound_begin_in_tx sid pid gen work now secs :
  respects sound (begin_master_recovery_window_in_tx sid pid gen work now secs).
Proof.
  unfold begin_master_recovery_window_in_tx. solve_respects.
  apply sound_insert_window. intros _. apply fresh_window_ok.
Qed.
#[local] Hint Resolve sound_begin_in_tx : respects.

Lemma sound_decide_cascade env sid now :
  respects sound (decide_anchor_cascade_sync env sid now).
Proof.
  unfold decide_anchor_cascade_sync, decide_anchor_cascade_in_tx, decision_for_existing_window,
    query_session_runtime, master_cutover_inflight_in_tx, session_has_active_work.
  solve_respects.
Qed.

End MasterRecovery.

#[export] Hint Resolve sound_begin_window sound_recovery_phase sound_complete_window
  sound_readiness_wait sound_recovery_ready sound_fail_readiness sound_notify_runtime
  sound_expire_window sound_decide_cascade : respects.
