(* ===== verification/MasterRevival.v ===== *)
(** * Reviving a master ([src/src/master_revival.rs])

    A session names its master by process and generation.  Whoever wants to
    replace it claims the transition: a compare-and-set on both, which bumps the
    generation, so that of several watchers of the same dead master one wins and
    whatever the others do later is stale.  Failed revivals are counted, backed
    off exponentially, and after [MASTER_REVIVE_FUSE_THRESHOLD] of them the
    session is failed for good. *)
From S2P Require Import Prelude Json Schema Sql MasterTables JobGate Invariant MasterSound AgentGate Text Sessions Cutovers MasterRecovery.

Definition MASTER_REVIVE_FUSE_THRESHOLD : Z := 5.

Inductive MasterDeathDecision : Type := ReviveMaster | IntentionalExit | DeathStale.
Inductive MasterTransitionOutcome : Type := Claimed | TransitionStale | NoChange.
Inductive MasterReviveAttemptDecision : Type :=
| Spawn (retry_count next_retry_at : Z)
| Fused
| AttemptStale.

Record ReviveSessionMasterRequest : Type := MkReviveRequest {
  rr_session_id : string;
  rr_expected_pid : Z;
  rr_expected_generation : Z;
  rr_new_pid : Z;
  rr_new_pane_id : string
}.
Record ReviveSessionMasterOutcome : Type := MkReviveOutcome {
  ro_generation : Z;
  ro_monitor_key : string
}.
Record MasterRuntime : Type := MkMasterRuntime { rt_pid : Z; rt_generation : Z }.
Record MasterRecoveryWindowTiming : Type := MkTiming { wt_defer_until : Z; wt_created_at : Z }.
Inductive MasterDeathSessionActivity : Type := ActiveWork | IdleNoWork.

(** [unit_name_for_session] of [src/src/monitor/session_watch.rs] *)
Definition unit_name_for_session (session_id : string) : string :=
  "ahd-session-" +:+ session_id +:+ ".service".

(** [format!("{n}")] of an [i64] *)
Definition i64_to_string (n : Z) : string :=
  if n <? 0 then "-" +:+ decimal (- n) else decimal n.

Definition master_monitor_key (session_id : string) (generation : Z) : string :=
  "master:" +:+ session_id +:+ ":" +:+ i64_to_string generation.

Section MasterRevival.
Context {EXT : Externals}.

(** ** Queries *)

(** [id = ? AND status = 'ACTIVE' AND master_pid = ? AND master_generation = ?] *)
Definition master_is (pid generation : Z) (s : Session) : bool :=
  (s.(s_status) == "ACTIVE") && (s.(s_master_pid) =? pid) &&
  (s.(s_master_generation) =? generation).

(** The session's row if the statement's guard accepts it. *)
Definition session_where (guard : Session → bool) (session_id : string) (db : Db) :
    option Session :=
  s ← db.(sessions) !! session_id; if guard s then Some s else None.

Definition classify_master_death (session_id : string) (expected_pid expected_generation : Z) :
    M CcbdError MasterDeathDecision :=
  row ← gets (λ db, db.(sessions) !! session_id);
  match row with
  | None => mret DeathStale
  | Some s =>
      if s.(s_status) != "ACTIVE" then mret IntentionalExit
      else
      inflight ← master_cutover_has_inflight_state session_id;
      if (inflight : bool) then mret IntentionalExit
      else if (s.(s_master_pid) =? expected_pid) &&
              (s.(s_master_generation) =? expected_generation) then mret ReviveMaster
      else mret DeathStale
  end.

Definition query_master_runtime (session_id : string) : M CcbdError (option MasterRuntime) :=
  gets (λ db, (λ s, MkMasterRuntime s.(s_master_pid) s.(s_master_generation)) <$>
              session_where (λ s, s.(s_status) == "ACTIVE") session_id db).

Definition master_runtime_matches (session_id : string) (expected_pid expected_generation : Z) :
    M CcbdError bool :=
  gets (λ db, bool_decide (is_Some
          (session_where (master_is expected_pid expected_generation) session_id db))).

Definition master_runtime_generation_matches (session_id : string) (master_pid generation : Z) :
    M CcbdError bool :=
  gets (λ db, bool_decide (is_Some (session_where
          (λ s, (s.(s_master_pid) =? master_pid) && (s.(s_master_generation) =? generation))
          session_id db))).

Definition master_recovery_window_timing (session_id : string) :
    M CcbdError (option MasterRecoveryWindowTiming) :=
  gets (λ db, (λ r, MkTiming r.(m_defer_until) r.(m_created_at)) <$>
              db.(recovery_windows) !! session_id).

Definition master_recovery_verifying_window_expected_generation (session_id : string) :
    M CcbdError (option Z) :=
  gets (λ db, r ← db.(recovery_windows) !! session_id;
              if r.(m_phase) == "MASTER_VERIFYING" then Some r.(m_expected_generation) else None).

Definition master_recovery_effective_readiness_timeout (session_id : string)
    (now configured_timeout_secs : Z) : M CcbdError (option Z) :=
  timing ← master_recovery_window_timing session_id;
  match timing with
  | None => mret None
  | Some timing =>
      mret (Some (effective_readiness_timeout now timing.(wt_defer_until) timing.(wt_created_at)
                    configured_timeout_secs MASTER_REVIVE_READINESS_CLEANUP_MARGIN_SECS))
  end.

Fixpoint recovered_workers_ready_sync (agent_ids : list string) : M CcbdError bool :=
  match agent_ids with
  | [] => mret true
  | agent_id :: rest =>
      state ← gets (λ db, a_state <$> db.(agents) !! agent_id);
      match state with
      | Some st =>
          if negb (st is_in ["IDLE"; "WAITING_FOR_ACK"; "BUSY"; "PROMPT_PENDING"]) then mret false
          else recovered_workers_ready_sync rest
      | None => mret false
      end
  end.

Definition query_master_revive_next_retry_at (session_id : string)
    (expected_pid expected_generation : Z) : M CcbdError (option Z) :=
  gets (λ db, s_master_next_retry_at <$>
              session_where (master_is expected_pid expected_generation) session_id db).

(** ** The recovery window, as the master's watcher drives it *)

Definition begin_master_recovery_window_for_snapshot (env : option Z) (session_id : string)
    (expected_pid expected_generation : Z) (classification : MasterDeathSessionActivity)
    (now : Z) : M CcbdError unit :=
  begin_master_recovery_window_sync session_id expected_pid expected_generation
    (match classification with ActiveWork => true | IdleNoWork => false end) now
    (resolve_master_recovery_cascade_defer_secs env);;
  mret tt.

Definition mark_master_recovery_phase (env : option Z) (session_id : string)
    (expected_generation : Z) (phase : string) (now : Z) : M CcbdError bool :=
  update_master_recovery_phase_sync env session_id expected_generation phase now.

Definition mark_master_recovery_non_revive_terminal (env : option Z) (session_id : string)
    (expected_generation now : Z) : M CcbdError bool :=
  mark_master_recovery_phase env session_id expected_generation "FAILED" now.

(** ** Claiming and completing a transition *)

Definition transition_outcome (changes : nat) : MasterTransitionOutcome :=
  if changes == 1%nat then Claimed else TransitionStale.

(** [master_state = 'IDLE', master_pending_tell_request = NULL] *)
Definition quiesce (s : Session) : Session :=
  set_s_master_pending_tell_request None (set_s_master_state "IDLE" s).

Definition try_claim_master_transition (session_id : string)
    (expected_pid expected_generation : Z) : M CcbdError MasterTransitionOutcome :=
  changes ← update_session session_id (master_is expected_pid expected_generation)
    (λ s, quiesce (set_s_master_generation (s.(s_master_generation) + 1) s));
  mret (transition_outcome changes).

Definition complete_claimed_master_transition (session_id : string)
    (claimed_generation new_pid : Z) (new_pane_id : string) :
    M CcbdError (option ReviveSessionMasterOutcome) :=
  changes ← update_session session_id
    (λ s, (s.(s_status) == "ACTIVE") && (s.(s_master_generation) =? claimed_generation))
    (λ s, set_s_master_last_exit_reason (Some "OOM_OR_CRASH")
            (quiesce (set_s_master_pane_id (Some new_pane_id) (set_s_master_pid new_pid s))));
  if changes != 1%nat then mret None
  else mret (Some (MkReviveOutcome claimed_generation
                     (master_monitor_key session_id claimed_generation))).

Definition revive_session_master (request : ReviveSessionMasterRequest) :
    M CcbdError ReviveSessionMasterOutcome :=
  outcome ← try_claim_master_transition request.(rr_session_id) request.(rr_expected_pid)
              request.(rr_expected_generation);
  match outcome with
  | Claimed =>
      let generation := request.(rr_expected_generation) + 1 in
      r ← complete_claimed_master_transition request.(rr_session_id) generation
            request.(rr_new_pid) request.(rr_new_pane_id);
      match r with
      | Some o => mret o
      | None => throw (IpcInvalidRequest "claimed master transition went stale")
      end
  | _ => mret (MkReviveOutcome request.(rr_expected_generation)
           (master_monitor_key request.(rr_session_id) request.(rr_expected_generation)))
  end.

Definition record_spawned_master_runtime (session_id pane_id : string) (pid : Z) :
    M CcbdError Z :=
  update_session session_id (λ _, true)
    (λ s, quiesce (set_s_master_generation (s.(s_master_generation) + 1)
            (set_s_master_pane_id (Some pane_id) (set_s_master_pid pid s))));;
  generation ← gets (λ db, s_master_generation <$> db.(sessions) !! session_id);
  match generation with
  | Some generation => notify_runtime_tmux_changed;; mret generation
  | None => throw (map_db_error "query spawned master generation" QueryReturnedNoRows)
  end.

Definition record_spawned_master_runtime_after_claim (session_id pane_id : string)
    (pid claimed_generation : Z) : M CcbdError (option Z) :=
  changes ← update_session session_id
    (λ s, (s.(s_status) == "ACTIVE") && (s.(s_master_generation) =? claimed_generation))
    (λ s, quiesce (set_s_master_pane_id (Some pane_id) (set_s_master_pid pid s)));
  if changes == 1%nat then notify_runtime_tmux_changed;; mret (Some claimed_generation)
  else mret None.

Definition persist_revived_master_cmd (session_id master_cmd : string) : M CcbdError unit :=
  update_session session_id (λ _, true) (set_s_master_cmd (Some master_cmd));; mret tt.

(** ** Ending a session *)

(** [stop_session_anchor_for_session_sync] of [src/src/db/system.rs]: the
    systemd anchor unit of the session is stopped; failures are only logged. *)
Definition stop_session_anchor_for_session_sync {E} (session_id : string) : M E unit :=
  emit (StopUnit (unit_name_for_session session_id)).

Definition end_session (status reason : string) (s : Session) : Session :=
  set_s_master_last_exit_reason (Some reason) (quiesce (set_s_status status s)).

Definition mark_session_closed_after_idle_master_death (session_id : string) :
    M CcbdError unit :=
  changes ← update_session session_id (λ s, s.(s_status) == "ACTIVE")
              (end_session "CLOSED" "IDLE_MASTER_EXIT");
  when (bool_decide (0 < changes)%nat) notify_runtime_inventory_changed.

Definition mark_session_intentional_killed (session_id : string) : M CcbdError nat :=
  changes ← update_session session_id (λ s, s.(s_status) == "ACTIVE")
              (end_session "KILLED" "INTENTIONAL_KILL");
  when (bool_decide (0 < changes)%nat) notify_runtime_inventory_changed;;
  mret changes.

Definition fuse_session_after_master_revive_exhausted (session_id : string) : M CcbdError nat :=
  changes ← update_session session_id (λ _, true) (end_session "FAILED" "FUSED");
  when (bool_decide (0 < changes)%nat) notify_runtime_inventory_changed;;
  stop_session_anchor_for_session_sync session_id;;
  mret 0%nat.

(** [1_i64 << (new_count.saturating_sub(1).min(4) as u32)] *)
Definition revive_backoff (new_count : Z) : Z := Z.shiftl 1 (Z.min (new_count - 1) 4).

Definition record_master_revive_attempt (session_id : string)
    (current_pid claimed_generation now : Z) : M CcbdError MasterReviveAttemptDecision :=
  retry_count ← gets (λ db, s_master_retry_count <$>
                   session_where (master_is current_pid claimed_generation) session_id db);
  match retry_count with
  | None => mret AttemptStale
  | Some retry_count =>
      let new_count := retry_count + 1 in
      let next_retry_at := now + revive_backoff new_count in
      update_session session_id (master_is current_pid claimed_generation)
        (λ s, set_s_master_last_exit_reason (Some "REVIVE_FAILED")
                (set_s_master_next_retry_at next_retry_at (set_s_master_retry_count new_count s)));;
      if MASTER_REVIVE_FUSE_THRESHOLD <=? new_count then
        fuse_session_after_master_revive_exhausted session_id;;
        mret Fused
      else mret (Spawn new_count next_retry_at)
  end.

Definition confirm_master_stable (session_id : string) (expected_pid expected_generation : Z) :
    M CcbdError MasterTransitionOutcome :=
  changes ← update_session session_id (master_is expected_pid expected_generation)
    (λ s, set_s_master_next_retry_at 0 (set_s_master_retry_count 0 s));
  mret (transition_outcome changes).

(** [UPDATE sessions SET ... WHERE status = 'ACTIVE'], row by row, counting. *)
Fixpoint end_sessions (ids : list string) (n : nat) : M CcbdError nat :=
  match ids with
  | [] => mret n
  | id :: ids =>
      changes ← update_session id (λ s, s.(s_status) == "ACTIVE")
                  (end_session "KILLED" "INTENTIONAL_KILL");
      end_sessions ids (n + changes)
  end.

Definition active_session_ids (db : Db) : list string :=
  (filter (λ '(_, s), s.(s_status) = "ACTIVE") (map_to_list db.(sessions))).*1.

(** [UPDATE agents SET state = 'KILLED', ... WHERE session_id = ? AND state NOT
    IN ('CRASHED', 'KILLED')] *)
Definition kill_session_agents (session_id : string) : M CcbdError unit :=
  now ← asks w_now;
  ids ← gets (λ db, a_id <$> session_agents session_id db);
  for_ ids (λ id, update_agent id tracked (λ a, bump_version now (set_a_state "KILLED" a));; mret tt).

Definition mark_all_sessions_intentional_shutdown : M CcbdError nat :=
  sessions ← transaction (
    active ← gets active_session_ids;
    sessions ← end_sessions active 0%nat;
    for_ active kill_session_agents;;
    mret (Commit sessions));
  when (bool_decide (0 < sessions)%nat)
    (notify_runtime_inventory_changed;; notify_runtime_agent_changed);;
  mret sessions.

(** ** Soundness *)

Lemma sound_death session_id pid gen : respects sound (classify_master_death session_id pid gen).
Proof. unfold classify_master_death, master_cutover_has_inflight_state. solve_respects. Qed.

Lemma sound_window_snapshot env session_id pid gen c now :
  respects sound (begin_master_recovery_window_for_snapshot env session_id pid gen c now).
Proof. unfold begin_master_recovery_window_for_snapshot. solve_respects. Qed.

Lemma sound_non_revive env session_id gen now :
  respects sound (mark_master_recovery_non_revive_terminal env session_id gen now).
Proof. unfold mark_master_recovery_non_revive_terminal, mark_master_recovery_phase. solve_respects. Qed.

Lemma sound_claim_transition session_id pid gen :
  respects sound (try_claim_master_transition session_id pid gen).
Proof. unfold try_claim_master_transition. solve_respects. Qed.
#[local] Hint Resolve sound_claim_transition : respects.

Lemma sound_complete_transition session_id gen pid pane :
  respects sound (complete_claimed_master_transition session_id gen pid pane).
Proof. unfold complete_claimed_master_transition. solve_respects. Qed.
#[local] Hint Resolve sound_complete_transition : respects.

Lemma sound_revive request : respects sound (revive_session_master request).
Proof. unfold revive_session_master. solve_respects. Qed.

Lemma sound_spawned_master session_id pane pid :
  respects sound (record_spawned_master_runtime session_id pane pid).
Proof. unfold record_spawned_master_runtime. solve_respects. Qed.

Lemma sound_spawned_after_claim session_id pane pid gen :
  respects sound (record_spawned_master_runtime_after_claim session_id pane pid gen).
Proof. unfold record_spawned_master_runtime_after_claim. solve_respects. Qed.

Lemma sound_persist_cmd session_id cmd : respects sound (persist_revived_master_cmd session_id cmd).
Proof. unfold persist_revived_master_cmd. solve_respects. Qed.

Lemma sound_end_session {E} session_id guard status reason :
  status ∈ SESSION_STATUSES → status ≠ "ACTIVE" →
  respects sound (update_session session_id guard (end_session status reason) : M E nat).
Proof.
  intros Hin Hne. apply sound_update_session. intros s _. split; [by split; simpl; [..|lia|]|].
  intros []. by split; simpl; try solve_const_in.
Qed.
#[local] Hint Extern 1 (respects sound (update_session _ _ (end_session _ _))) =>
  apply sound_end_session; [solve_const_in|done] : respects.

Lemma sound_closed_idle session_id :
  respects sound (mark_session_closed_after_idle_master_death session_id).
Proof. unfold mark_session_closed_after_idle_master_death. solve_respects. Qed.

Lemma sound_intentional_killed session_id :
  respects sound (mark_session_intentional_killed session_id).
Proof. unfold mark_session_intentional_killed. solve_respects. Qed.

Lemma sound_fuse session_id :
  respects sound (fuse_session_after_master_revive_exhausted session_id).
Proof.
  unfold fuse_session_after_master_revive_exhausted, stop_session_anchor_for_session_sync.
  solve_respects.
Qed.
#[local] Hint Resolve sound_fuse : respects.

Lemma sound_revive_attempt session_id pid gen now :
  respects sound (record_master_revive_attempt session_id pid gen now).
Proof.
  intros w. unfold record_master_revive_attempt, session_where. rw bind_gets. cbv beta.
  destruct (w.(w_db).(sessions) !! session_id) as [s|] eqn:Hs; simpl; [|reflexivity].
  destruct (master_is pid gen s) eqn:Hg; simpl; [|reflexivity].
  apply sound_bind_at; [|intros ?; solve_respects].
  apply sound_update_session_at. rw Hs. intros ? [= <-] _. split; [by split; simpl; [..|lia|]|].
  intros []. by split; simpl; [..|lia].
Qed.

Lemma sound_confirm_stable session_id pid gen :
  respects sound (confirm_master_stable session_id pid gen).
Proof. unfold confirm_master_stable. solve_respects. Qed.

Lemma sound_end_sessions ids n : respects sound (end_sessions ids n).
Proof. induction ids in n |- *; simpl; solve_respects. Qed.
#[local] Hint Resolve sound_end_sessions : respects.

Lemma sound_kill_session_agents session_id : respects sound (kill_session_agents session_id).
Proof. unfold kill_session_agents. solve_respects. Qed.
#[local] Hint Resolve sound_kill_session_agents : respects.

Lemma sound_shutdown : respects sound mark_all_sessions_intentional_shutdown.
Proof. unfold mark_all_sessions_intentional_shutdown. solve_respects. Qed.

End MasterRevival.

#[export] Hint Resolve sound_death sound_window_snapshot sound_non_revive sound_claim_transition
  sound_complete_transition sound_revive sound_spawned_master sound_spawned_after_claim
  sound_persist_cmd sound_closed_idle sound_intentional_killed sound_fuse sound_revive_attempt
  sound_confirm_stable sound_shutdown : respects.
