(* ===== verification/ReplyText.v ===== *)
(** * Reply text ([src/src/db/jobs.rs], second half)

    How the reply of a job is distilled from what the agent's terminal shows:
    ANSI escape sequences are dropped, everything up to the echoed prompt is
    cut off, and chrome lines are filtered out. *)
From S2P Require Import Prelude Text.
From Stdlib Require Import Ascii.

(** ** ANSI escapes *)

Definition ESC : string := byte_str 27.
Definition BEL : string := byte_str 7.

(** [('@'..='~').contains(&c)] *)
Definition is_csi_final (c : string) : bool :=
  match c with
  | String b EmptyString => bool_decide (64 ≤ nat_of_ascii b ∧ nat_of_ascii b ≤ 126)%nat
  | _ => false
  end.

(** Where the scanner is: plain text; just after [ESC]; inside [ESC [];
    inside [ESC ]] (a BEL or [ESC \] ends it); inside [ESC P], [ESC _],
    [ESC ^] or [ESC X] ([ESC \] ends it); and in the last two just after an
    [ESC]. *)
Inductive AnsiMode : Type := InText | AfterEsc | InCsi | InOsc | OscEsc | InString | StringEsc.

Definition after_esc (next : string) : AnsiMode :=
  if next == "[" then InCsi
  else if next == "]" then InOsc
  else if next is_in ["P"; "_"; "^"; "X"] then InString
  else InText.

Definition osc_step (c : string) : AnsiMode :=
  if c == BEL then InText else if c == ESC then OscEsc else InOsc.

Definition string_step (c : string) : AnsiMode := if c == ESC then StringEsc else InString.

Fixpoint strip_ansi_chars (mode : AnsiMode) (l : list string) : list string :=
  match l with
  | [] => []
  | c :: l' =>
      match mode with
      | InText =>
          if c != ESC then c :: strip_ansi_chars InText l' else strip_ansi_chars AfterEsc l'
      | AfterEsc => strip_ansi_chars (after_esc c) l'
      | InCsi => strip_ansi_chars (if is_csi_final c then InText else InCsi) l'
      | InOsc => strip_ansi_chars (osc_step c) l'
      | OscEsc => strip_ansi_chars (if c == "\" then InText else osc_step c) l'
      | InString => strip_ansi_chars (string_step c) l'
      | StringEsc => strip_ansi_chars (if c == "\" then InText else string_step c) l'
      end
  end.

Definition strip_ansi_escapes (input : string) : string :=
  concat_str (strip_ansi_chars InText (chars input)).

(** ** Finding the echoed prompt *)

(** Runs of whitespace become one space; each kept character comes with the
    byte offset of its end in the input. *)
Fixpoint normalize_go (idx : nat) (in_ws : bool) (acc : list (string * nat)) (l : list string) :
    list (string * nat) :=
  match l with
  | [] => acc
  | c :: l' =>
      let e := (idx + String.length c)%nat in
      if is_whitespace c then
        match acc with
        | [] => normalize_go e in_ws acc l'
        | _ => if in_ws then normalize_go e in_ws acc l'
               else normalize_go e true (acc ++ [(" ", e)]) l'
        end
      else normalize_go e false (acc ++ [(c, e)]) l'
  end.

Definition normalize_whitespace_with_end_offsets (input : string) : string * list nat :=
  let acc := normalize_go 0 false [] (chars input) in
  let acc := match reverse acc with (c, _) :: r => if c == " " then reverse r else acc | [] => acc end in
  (concat_str acc.*1, acc.*2).

Definition prompt_match_end_byte (raw_without_ansi prompt_text : string) : option nat :=
  let '(normalized_raw, raw_end_offsets) := normalize_whitespace_with_end_offsets raw_without_ansi in
  let '(normalized_prompt, _) := normalize_whitespace_with_end_offsets prompt_text in
  match normalized_prompt with
  | EmptyString => None
  | _ =>
      start ← find normalized_raw normalized_prompt;
      let e := (start + String.length normalized_prompt)%nat in
      let end_chars := length (chars (str_take e normalized_raw)) in
      match end_chars with
      | O => None
      | S n => raw_end_offsets !! n
      end
  end.

(** ** Chrome and echo lines *)

Definition strip_prompt_marker (line : string) : option string :=
  foldr (λ marker rest, match strip_prefix line marker with Some r => Some r | None => rest end)
    None ["> "; "❯ "; "✦ "; "› "; "* "].

Definition is_prompt_echo_line (trimmed prompt_text : string) : bool :=
  if (prompt_text == "") || (trimmed == "") then false
  else if trimmed == prompt_text then true
  else match strip_prompt_marker trimmed with
  | None => false
  | Some without_marker =>
      let without_marker := trim without_marker in
      (without_marker != "") &&
      ((without_marker == prompt_text) || starts_with prompt_text without_marker)
  end.

(** U+2500 to U+257F: bytes E2 94 80 to E2 95 BF. *)
Definition is_box_drawing_char (c : string) : bool :=
  match c with
  | String b0 (String b1 (String _ EmptyString)) =>
      (nat_of_ascii b0 == 226%nat) && (nat_of_ascii b1 is_in [148; 149]%nat)
  | _ => false
  end.

Definition is_box_drawing_line (trimmed : string) : bool :=
  forallb is_box_drawing_char (chars trimmed).

Definition is_reply_chrome_line (trimmed : string) : bool :=
  if trimmed == "" then false
  else if is_box_drawing_line trimmed then true
  else if trimmed is_in [">"; "❯"; "✦"; "›"] then true
  else if starts_with trimmed "▸ Thought" || starts_with trimmed "▸ Thinking" then true
  else starts_with trimmed "? for shortcuts"
       || contains trimmed "esc to cancel"
       || (starts_with trimmed "gpt-" && contains trimmed "·").

Definition is_skipped_line (prompt_text line : string) : bool :=
  let trimmed := trim line in
  is_prompt_echo_line trimmed prompt_text ||
  (eq_ignore_ascii_case trimmed "thinking..."
   || starts_with trimmed "Thinking..."
   || starts_with trimmed "Working("
   || starts_with trimmed "• Working("
   || is_reply_chrome_line trimmed).

(** ** The reply *)

Definition distill_reply (raw prompt_text : string) : string :=
  let without_ansi := strip_ansi_escapes raw in
  let current_turn :=
    match prompt_match_end_byte without_ansi prompt_text with
    | Some e => str_drop e without_ansi
    | None => without_ansi
    end in
  let kept := filter (λ line, is_skipped_line prompt_text line = false) (lines current_turn) in
  let text := join (byte_str 10) kept in
  let text :=
    if prompt_text == "" then text
    else match find text prompt_text with
    | Some start =>
        str_take start text +:+ str_drop (start + String.length prompt_text) text
    | None => text
    end in
  trim text.

Definition contains_prompt_text (raw prompt_text : string) : bool :=
  if trim prompt_text == "" then false
  else bool_decide (is_Some (prompt_match_end_byte (strip_ansi_escapes raw) prompt_text)).
