(* ===== verification/Jobs.v ===== *)
(** * The job queue ([src/src/db/jobs.rs], database half)

    Submission, dispatch, cancellation, completion, failure and requeueing of
    jobs, every status write through the gate of [JobGate], and the
    asynchronous entry points with what they publish.  [query_job_sync] and
    [record_job_transition_conn_sync] are in [JobGate]. *)
From S2P Require Import Prelude Json Schema Sql MasterTables JobGate Invariant AgentGate Text ReplyText.

(** ** Recovery markers in [error_reason] *)

Definition RECOVERY_REQUEUED_ERROR_REASON_PREFIX : string := "RECOVERY_REQUEUED:".
Definition RECOVERY_REQUEUED_MAX_STALE_PANE_RETRIES : Z := 1.

Definition recovery_requeued_error_reason (attempt : Z) : string :=
  RECOVERY_REQUEUED_ERROR_REASON_PREFIX +:+ decimal attempt.

Definition recovery_requeued_attempt (error_reason : option string) : option Z :=
  error_reason ← error_reason;
  body ← strip_prefix error_reason RECOVERY_REQUEUED_ERROR_REASON_PREFIX;
  parse_u32 body.

(** ** Orders of the queries *)

(** [ORDER BY created_at ASC, rowid ASC] *)
Definition queue_le : relation Job :=
  lex_le (λ j k, j.(j_created_at) < k.(j_created_at)) (λ j k, j.(j_created_at) = k.(j_created_at))
    (λ j k, j.(j_rowid) ≤ k.(j_rowid)).
#[global] Instance queue_le_dec : RelDecision queue_le.
Proof. unfold queue_le, lex_le. intros j k. apply _. Defined.

(** [ORDER BY dispatched_at ASC, id ASC] *)
Definition dispatched_le : relation Job :=
  lex_le (λ j k, null_first_lt j.(j_dispatched_at) k.(j_dispatched_at))
    (λ j k, j.(j_dispatched_at) = k.(j_dispatched_at)) (λ j k, String.le j.(j_id) k.(j_id)).
#[global] Instance dispatched_le_dec : RelDecision dispatched_le.
Proof. unfold dispatched_le, lex_le. intros j k. apply _. Defined.

(** [SELECT * FROM jobs WHERE agent_id = ? AND status = ?] *)
Definition agent_jobs (agent_id status : string) (db : Db) : list Job :=
  filter (λ j, j.(j_agent_id) = agent_id ∧ j.(j_status) = status) (table_rows db.(jobs)).

Record DispatchedJob : Type := MkDispatchedJob {
  dj_job : Job;
  dj_seq_id : Z;
  dj_job_payload : Value
}.

(** [map.entry(k).or_insert_with(v)] *)
Definition entry_or_insert (k : string) (v : Value) (m : list (string * Value)) :
    list (string * Value) :=
  match map_get k m with Some _ => m | None => map_insert k v m end.

Definition dispatch_event_payload (base : Value) (job : Job) : Value :=
  let payload := match base with JObject map => map | _ => [] end in
  let payload := entry_or_insert "cmd" (JString job.(j_prompt_text)) payload in
  let payload := entry_or_insert "job_id" (JString job.(j_id)) payload in
  let payload := entry_or_insert "status" (JString "SENT") payload in
  let payload := entry_or_insert "env" (JObject []) payload in
  let payload :=
    match map_get "env" payload with
    | Some (JObject env) =>
        map_insert "env" (JObject (entry_or_insert "CCB_JOB_ID" (JString job.(j_id)) env)) payload
    | _ => payload
    end in
  JObject payload.

Section Jobs.
Context {EXT : Externals}.

Definition notify_runtime_job_changed {E} : M E unit := notify_runtime_changed JobChanged.

(** ** Queries *)

Definition query_job_by_request_id_sync (agent_id request_id : string) :
    M CcbdError (option Job) :=
  gets (λ db, head (filter (λ j, j.(j_agent_id) = agent_id ∧ j.(j_request_id) = Some request_id)
                      (table_rows db.(jobs)))).

Definition has_queued_job_sync (agent_id : string) : M CcbdError bool :=
  gets (λ db, bool_decide (is_Some (head (order_by queue_le (agent_jobs agent_id "QUEUED" db))))).

Definition query_dispatched_job_ids_for_agent_sync (agent_id : string) :
    M CcbdError (list string) :=
  gets (λ db, j_id <$> order_by dispatched_le (agent_jobs agent_id "DISPATCHED" db)).

Definition query_dispatched_job_for_agent_sync (agent_id : string) : M CcbdError (option Job) :=
  gets (λ db, head (order_by dispatched_le (agent_jobs agent_id "DISPATCHED" db))).

(** [ORDER BY created_at ASC] leaves the order of equal rows open; they come
    in the order of the scan. *)
Definition created_le : relation Job := λ j k, j.(j_created_at) ≤ k.(j_created_at).
#[global] Instance created_le_dec : RelDecision created_le.
Proof. unfold created_le. intros j k. apply _. Defined.

(** [JOIN agents a ON j.agent_id = a.id ... a.state != 'IDLE'] *)
Definition agent_not_idle (db : Db) (agent_id : string) : bool :=
  match db.(agents) !! agent_id with Some a => a.(a_state) != "IDLE" | None => false end.

Definition query_starved_queued_jobs_sync (starvation_threshold_secs : Z) :
    M CcbdError (list Job) :=
  now ← asks w_now;
  let cutoff := now - starvation_threshold_secs in
  gets (λ db, order_by created_le
    (filter (λ j, j.(j_status) = "QUEUED" ∧ j.(j_created_at) < cutoff ∧
                  agent_not_idle db j.(j_agent_id) = true) (table_rows db.(jobs)))).

(** The row a statement that must find one reads ([query_row] without
    [.optional()]). *)
Definition query_job_row (context job_id : string) : M CcbdError Job :=
  job ← query_job_sync job_id;
  match job with
  | Some job => mret job
  | None => throw (map_db_error context QueryReturnedNoRows)
  end.

(** ** Submission *)

Definition insert_job_sync (id agent_id : string) (request_id : option string)
    (prompt_text : string) : M CcbdError string :=
  now ← asks w_now;
  result ← try_ (insert_job_row (λ rowid,
    MkJob id rowid agent_id request_id prompt_text None "QUEUED" None now None None None
      false false false));
  match result, request_id with
  | Ok _, _ =>
      record_job_transition_conn_sync id None (Some "QUEUED") "job_transition"
        ["status"; "created_at"] "submit";;
      mret id
  | Err err, Some rq =>
      if is_unique_constraint_error err then
        existing ← query_job_by_request_id_sync agent_id rq;
        match existing with
        | Some existing => mret existing.(j_id)
        | None => throw (map_db_error "query duplicate job by request_id" err)
        end
      else throw (map_db_error "insert job" err)
  | Err err, None => throw (map_db_error "insert job" err)
  end.

Definition insert_recovered_queued_job_sync (id agent_id : string) (request_id : option string)
    (prompt_text : string)
    (cancel_requested requires_physical_evidence requires_test_evidence : bool)
    (error_reason : string) : M CcbdError string :=
  now ← asks w_now;
  result ← try_ (insert_job_row (λ rowid,
    MkJob id rowid agent_id request_id prompt_text None "QUEUED" (Some error_reason) now
      None None None cancel_requested requires_physical_evidence requires_test_evidence));
  match result, request_id with
  | Ok _, _ =>
      record_job_transition_conn_sync id None (Some "QUEUED") "job_transition"
        ["status"; "created_at"; "error_reason"] "recovery_recovered_create";;
      mret id
  | Err err, Some rq =>
      if is_unique_constraint_error err then
        existing ← query_job_by_request_id_sync agent_id rq;
        match existing with
        | Some existing => mret existing.(j_id)
        | None => throw (map_db_error "query duplicate recovered job by request_id" err)
        end
      else throw (map_db_error "insert recovered queued job" err)
  | Err err, None => throw (map_db_error "insert recovered queued job" err)
  end.

(** ** Dispatch *)

(** [cancel_requested] jobs still in the queue are cancelled first; an agent
    that is not idle claims nothing, and the queue behind a running job is
    reported.  [occupant]: some dispatched job ([LIMIT 1] without an order). *)
Definition claim_next_job_sync (agent_id : string) : M CcbdError (option Job) :=
  transaction (
    cancelled_ids ← gets (λ db,
      j_id <$> filter (λ j, j.(j_cancel_requested) = true) (agent_jobs agent_id "QUEUED" db));
    for_ cancelled_ids (λ job_id, transit_job_state job_id Queued Cancelled "cancel_queued");;
    agent_state ← gets (λ db, from_option a_state "" (db.(agents) !! agent_id));
    if agent_state != STATE_IDLE then
      occupant_job_id ← gets (λ db, j_id <$> head (agent_jobs agent_id "DISPATCHED" db));
      match occupant_job_id with
      | Some occ_id =>
          has_queued ← gets (λ db, bool_decide (0 < length (agent_jobs agent_id "QUEUED" db))%nat);
          when has_queued (
            insert_event_null "insert dispatch_deferred event" agent_id "dispatch_deferred"
              (json_object [("occupant_job_id", JString occ_id)]);;
            mret tt)
      | None => mret tt
      end;;
      mret (Commit None)
    else
    candidate_id ← gets (λ db, j_id <$> head (order_by queue_le
      (filter (λ j, j.(j_cancel_requested) = false) (agent_jobs agent_id "QUEUED" db))));
    match candidate_id with
    | None => mret (Commit None)
    | Some job_id =>
        transit_job_state job_id Queued Dispatched "claim_next_job";;
        job ← query_job_row "query claimed job" job_id;
        mret (Commit (Some job))
    end).

Definition dispatch_job_to_agent_sync (agent_id : string) (expected_from_state : list string)
    (new_state event_kind : string) (event_payload : Value) :
    M CcbdError (option DispatchedJob) :=
  transaction (
    current_state ← gets (λ db, a_state <$> db.(agents) !! agent_id);
    match current_state with
    | None => throw (AgentNotFound agent_id)
    | Some current_state =>
    if (expected_from_state != []) && negb (current_state is_in expected_from_state) then
      throw (AgentWrongState current_state)
    else
    candidate_id ← gets (λ db, j_id <$> head (order_by queue_le (agent_jobs agent_id "QUEUED" db)));
    match candidate_id with
    | None => mret (Commit None)
    | Some job_id =>
    transit_job_state job_id Queued Dispatched "dispatch_job_to_agent";;
    transit_agent_state_conn_sync agent_id expected_from_state new_state (Some "dispatched");;
    job ← query_job_row "query dispatched job" job_id;
    let job_payload := dispatch_event_payload event_payload job in
    seq_id ← insert_event_null "insert dispatch event" agent_id event_kind job_payload;
    update_job job.(j_id) (λ j, j.(j_status) == "DISPATCHED")
      (set_j_dispatched_at_seq_id (Some seq_id));;
    job ← query_job_row "query dispatched job with seq_id" job.(j_id);
    mret (Commit (Some (MkDispatchedJob job seq_id job_payload)))
    end
    end).

Definition update_dispatched_seq_id_sync (job_id : string) (seq_id : Z) : M CcbdError nat :=
  update_job job_id (λ j, j.(j_status) == "DISPATCHED") (set_j_dispatched_at_seq_id (Some seq_id)).

(** ** Completion, cancellation, failure *)

Definition mark_job_completed_conn_sync (job_id reply_text : string) : M CcbdError nat :=
  changes ← update_job job_id (λ j, j.(j_status) == "DISPATCHED")
              (set_j_reply_text (Some reply_text));
  when (bool_decide (0 < changes)%nat)
    (transit_job_state job_id Dispatched Completed "completed");;
  mret changes.

Definition mark_job_completed_sync (job_id reply_text : string) : M CcbdError nat :=
  transaction (changes ← mark_job_completed_conn_sync job_id reply_text; mret (Commit changes)).

Definition mark_queued_job_cancelled_conn_sync (job_id : string) : M CcbdError nat :=
  job ← query_job_sync job_id;
  match job with
  | None => mret 0%nat
  | Some job =>
      if job.(j_status) == "QUEUED" then
        transit_job_state job_id Queued Cancelled "cancel_queued";;
        mret 1%nat
      else mret 0%nat
  end.

Definition mark_queued_job_cancelled_sync (job_id : string) : M CcbdError nat :=
  transaction (changes ← mark_queued_job_cancelled_conn_sync job_id; mret (Commit changes)).

Definition request_dispatched_job_cancel_sync (job_id : string) : M CcbdError nat :=
  transaction (
    changes ← update_job job_id
                (λ j, (j.(j_status) == "DISPATCHED") && negb j.(j_cancel_requested))
                (set_j_cancel_requested true);
    when (bool_decide (0 < changes)%nat)
      (record_job_transition_conn_sync job_id (Some "DISPATCHED") (Some "DISPATCHED")
         "job_updated" ["cancel_requested"] "cancel_requested");;
    mret (Commit changes)).

Definition set_job_evidence_requirements_sync (job_id : string)
    (requires_physical_evidence requires_test_evidence : bool) : M CcbdError nat :=
  update_job job_id (λ _, true)
    (λ j, set_j_requires_test_evidence requires_test_evidence
            (set_j_requires_physical_evidence requires_physical_evidence j)).

Definition mark_dispatched_job_cancelled_if_agent_idle_sync (job_id : string) :
    M CcbdError nat :=
  transaction (
    job ← query_job_sync job_id;
    match job with
    | None => mret (Commit 0%nat)
    | Some job =>
        if (job.(j_status) == "DISPATCHED") && job.(j_cancel_requested) then
          agent_state ← gets (λ db, a_state <$> db.(agents) !! job.(j_agent_id));
          let agent_idle :=
            match agent_state with Some st => st is_in ["IDLE"; "UNKNOWN"] | None => false end in
          if agent_idle then
            transit_job_state job_id Dispatched Cancelled "cancel_settled";;
            mret (Commit 1%nat)
          else mret (Commit 0%nat)
        else mret (Commit 0%nat)
    end).

Definition mark_job_cancelled_conn_sync (job_id reply_text : string) : M CcbdError nat :=
  changes ← update_job job_id (λ j, j.(j_status) == "DISPATCHED")
              (set_j_reply_text (Some reply_text));
  when (bool_decide (0 < changes)%nat)
    (transit_job_state job_id Dispatched Cancelled "cancelled");;
  mret changes.

Definition mark_job_failed_conn_sync (job_id error_reason : string) : M CcbdError nat :=
  old_status_str ← gets (λ db,
    j ← db.(jobs) !! job_id;
    if j.(j_status) is_in ["QUEUED"; "DISPATCHED"] then Some j.(j_status) else None);
  match old_status_str with
  | None => mret 0%nat
  | Some old_status_str =>
  match from_db_str old_status_str with
  | None => throw (DbConstraintViolation ("unrecognized job status: " +:+ old_status_str))
  | Some expected_from =>
  changes ← update_job job_id (λ j, j.(j_status) is_in ["QUEUED"; "DISPATCHED"])
              (set_j_error_reason (Some error_reason));
  when (bool_decide (0 < changes)%nat)
    (transit_job_state job_id expected_from Failed error_reason);;
  mret changes
  end
  end.

Definition mark_job_failed_sync (job_id error_reason : string) : M CcbdError nat :=
  transaction (changes ← mark_job_failed_conn_sync job_id error_reason; mret (Commit changes)).

(** The loop of the next function over the job ids; the number of jobs failed. *)
Fixpoint fail_dispatched (reason : string) (ids : list string) (changes : nat) :
    M CcbdError nat :=
  match ids with
  | [] => mret changes
  | job_id :: ids' =>
      update_changes ← update_job job_id (λ j, j.(j_status) == "DISPATCHED")
                         (set_j_error_reason (Some reason));
      if bool_decide (0 < update_changes)%nat then
        transit_job_state job_id Dispatched Failed reason;;
        fail_dispatched reason ids' (S changes)
      else fail_dispatched reason ids' changes
  end.

Definition mark_dispatched_jobs_failed_for_agent_conn_collect_sync (agent_id reason : string) :
    M CcbdError (nat * list string) :=
  affected ← query_dispatched_job_ids_for_agent_sync agent_id;
  changes ← fail_dispatched reason affected 0;
  mret (changes, take changes affected).

Definition mark_dispatched_jobs_failed_for_agent_conn_sync (agent_id reason : string) :
    M CcbdError nat :=
  r ← mark_dispatched_jobs_failed_for_agent_conn_collect_sync agent_id reason;
  mret r.1.

Definition mark_dispatched_jobs_failed_for_agent_collect_sync (agent_id reason : string) :
    M CcbdError (nat * list string) :=
  transaction (
    result ← mark_dispatched_jobs_failed_for_agent_conn_collect_sync agent_id reason;
    mret (Commit result)).

Definition mark_dispatched_jobs_failed_for_agent_sync (agent_id reason : string) :
    M CcbdError nat :=
  r ← mark_dispatched_jobs_failed_for_agent_collect_sync agent_id reason;
  mret r.1.

(** ** Requeueing *)

Definition requeue_recovered_dispatch_io_failure_sync (job_id agent_id : string)
    (next_attempt : Z) (reason : string) : M CcbdError nat :=
  transaction (
    job ← query_job_sync job_id;
    match job with
    | None => mret (Commit 0%nat)
    | Some job =>
    if (job.(j_status) == "DISPATCHED") && (job.(j_agent_id) == agent_id) &&
       match job.(j_error_reason) with
       | Some r => starts_with r RECOVERY_REQUEUED_ERROR_REASON_PREFIX
       | None => false
       end
    then
      let err_reason := recovery_requeued_error_reason next_attempt in
      requeue_job_state_conn_sync job_id Dispatched (Some err_reason) reason;;
      now ← asks w_now;
      update_agent agent_id (λ a, a.(a_state) is_in ["WAITING_FOR_ACK"; "STUCK"])
        (λ a, bump_version now (set_a_state "IDLE" a));;
      insert_event_null "insert recovered dispatch requeue event" agent_id "dispatch_requeued"
        (json_object [("job_id", JString job_id); ("reason", JString reason);
                      ("attempt", JNumber next_attempt);
                      ("source", JString "recovered_stale_pane")]);;
      mret (Commit 1%nat)
    else mret (Commit 0%nat)
    end).

Definition requeue_dispatched_job_before_send_sync (job_id agent_id reason : string) :
    M CcbdError nat :=
  transaction (
    job ← query_job_sync job_id;
    match job with
    | None => mret (Commit 0%nat)
    | Some job =>
    if (job.(j_status) == "DISPATCHED") && (job.(j_agent_id) == agent_id) then
      requeue_job_state_conn_sync job_id Dispatched None reason;;
      now ← asks w_now;
      update_agent agent_id (λ a, a.(a_state) == "WAITING_FOR_ACK")
        (λ a, bump_version now (set_a_state "IDLE" a));;
      insert_event_null "insert pre-send dispatch requeue event" agent_id "dispatch_requeued"
        (json_object [("job_id", JString job_id); ("reason", JString reason);
                      ("source", JString "pre_send_readiness_recheck")]);;
      mret (Commit 1%nat)
    else mret (Commit 0%nat)
    end).

Definition clear_recovered_dispatch_marker_sync (job_id : string) : M CcbdError nat :=
  update_job job_id
    (λ j, (j.(j_status) is_in ["DISPATCHED"; "COMPLETED"]) &&
          match j.(j_error_reason) with
          | Some r => like r "RECOVERY_REQUEUED:%"
          | None => false
          end)
    (set_j_error_reason None).

(** ** Replies *)

(** [SELECT payload FROM events WHERE agent_id = ? AND event_type = 'output_chunk'
    AND seq_id > ? ORDER BY seq_id ASC] *)
Definition output_chunks (agent_id : string) (since : Z) (db : Db) : list string :=
  e_payload <$> filter (λ e, e.(e_agent_id) = agent_id ∧ e.(e_event_type) = "output_chunk" ∧
                             since < e.(e_seq_id)) db.(events).

(** The texts of the chunks, in order; a payload that does not parse is an error. *)
Fixpoint chunk_texts (payloads : list string) : Result (list string) CcbdError :=
  match payloads with
  | [] => Ok []
  | payload :: rest =>
      match json_from_str payload with
      | None => Err (DbConstraintViolation
                       ("parse output_chunk payload: " +:+ json_error_display payload))
      | Some value =>
          match chunk_texts rest with
          | Ok texts => Ok (match get_str "text" value with
                            | Some text => text :: texts
                            | None => texts
                            end)
          | Err e => Err e
          end
      end
  end.

Definition collect_reply_for_dispatched_job_sync (agent_id : string)
    (dispatched_at_seq_id : option Z) (prompt_text : string) : M CcbdError string :=
  match dispatched_at_seq_id with
  | None => mret ""
  | Some dispatched_at_seq_id =>
      payloads ← gets (output_chunks agent_id dispatched_at_seq_id);
      texts ← of_result (chunk_texts payloads);
      let raw_concat := concat_str texts in
      let raw_bytes_total := String.length raw_concat in
      let screen_text := vt100_contents raw_concat in
      let reply := distill_reply screen_text prompt_text in
      mret (if (reply == "") && bool_decide (0 < raw_bytes_total)%nat
            then distill_reply (strip_ansi_escapes raw_concat) prompt_text
            else reply)
  end.

(** ** Asynchronous entry points *)

Definition insert_job (id agent_id : string) (request_id : option string) (prompt_text : string) :
    M CcbdError string :=
  inserted ← transaction (inserted ← insert_job_sync id agent_id request_id prompt_text;
                          mret (Commit inserted));
  notify_runtime_job_changed;;
  mret inserted.

Definition claim_next_job (agent_id : string) : M CcbdError (option Job) :=
  job ← claim_next_job_sync agent_id;
  when (bool_decide (is_Some job)) notify_runtime_job_changed;;
  mret job.

Definition dispatch_job_to_agent (agent_id : string) (expected_from_state : list string)
    (new_state event_kind : string) (event_payload : Value) :
    M CcbdError (option DispatchedJob) :=
  job ← dispatch_job_to_agent_sync agent_id expected_from_state new_state event_kind event_payload;
  match job with
  | Some dispatched => notify_job_update dispatched.(dj_job).(j_id)
  | None => mret tt
  end;;
  mret job.

(** [changes > 0] publishes the job, and [wake] the orchestrator too. *)
Definition publish_changes (wake : bool) (job_id : string) (changes : nat) : M CcbdError nat :=
  when (bool_decide (0 < changes)%nat) (notify_job_update job_id;; when wake wake_up);;
  mret changes.

Definition mark_job_completed (job_id reply_text : string) : M CcbdError nat :=
  changes ← mark_job_completed_sync job_id reply_text;
  publish_changes false job_id changes.

Definition mark_queued_job_cancelled (job_id : string) : M CcbdError nat :=
  changes ← mark_queued_job_cancelled_sync job_id;
  publish_changes true job_id changes.

Definition request_dispatched_job_cancel (job_id : string) : M CcbdError nat :=
  changes ← request_dispatched_job_cancel_sync job_id;
  publish_changes true job_id changes.

Definition mark_dispatched_job_cancelled_if_agent_idle (job_id : string) : M CcbdError nat :=
  changes ← mark_dispatched_job_cancelled_if_agent_idle_sync job_id;
  publish_changes true job_id changes.

Definition mark_job_failed (job_id error_reason : string) : M CcbdError nat :=
  changes ← mark_job_failed_sync job_id error_reason;
  publish_changes false job_id changes.

Definition requeue_recovered_dispatch_io_failure (job_id agent_id : string) (next_attempt : Z)
    (reason : string) : M CcbdError nat :=
  changes ← requeue_recovered_dispatch_io_failure_sync job_id agent_id next_attempt reason;
  publish_changes true job_id changes.

Definition requeue_dispatched_job_before_send (job_id agent_id reason : string) :
    M CcbdError nat :=
  changes ← requeue_dispatched_job_before_send_sync job_id agent_id reason;
  publish_changes true job_id changes.

Definition clear_recovered_dispatch_marker (job_id : string) : M CcbdError nat :=
  clear_recovered_dispatch_marker_sync job_id.

Definition mark_dispatched_jobs_failed_for_agent (agent_id reason : string) : M CcbdError nat :=
  r ← mark_dispatched_jobs_failed_for_agent_collect_sync agent_id reason;
  when (bool_decide (0 < r.1)%nat) (
    for_ r.2 notify_job_update;;
    notify_runtime_job_changed);;
  mret r.1.

Definition set_job_evidence_requirements (job_id : string)
    (requires_physical_evidence requires_test_evidence : bool) : M CcbdError nat :=
  set_job_evidence_requirements_sync job_id requires_physical_evidence requires_test_evidence.

Definition update_dispatched_seq_id (job_id : string) (seq_id : Z) : M CcbdError nat :=
  update_dispatched_seq_id_sync job_id seq_id.

End Jobs.

(** ** Soundness of every operation *)

Section JobsSound.
Context {EXT : Externals}.

(** What the insertion of a job answers: an error and the world as it was, or
    the row under the next rowid. *)
Lemma insert_job_row_run row w :
  let db := w.(w_db) in
  let j := row (next_rowid db.(jobs)) in
  (∃ e, insert_job_row row w = (Err e, w) ∧
        (is_unique_constraint_error e = true →
         job_idempotency_taken db j.(j_agent_id) j.(j_request_id) = true)) ∨
  (insert_job_row row w = (Ok tt, set_db (set_jobs (<[j.(j_id) := j]> db.(jobs)) db) w) ∧
   db.(jobs) !! j.(j_id) = None ∧ is_Some (db.(agents) !! j.(j_agent_id)) ∧
   job_idempotency_taken db j.(j_agent_id) j.(j_request_id) = false).
Proof.
  intros db j. unfold insert_job_row. fold db j.
  destruct (job_idempotency_taken db _ _) eqn:Hrq; case_bool_decide as Hpk; simpl.
  - left. destruct (_ || _); eauto.
  - left. rw orb_true_r. eauto.
  - left. eauto.
  - destruct (agents db !! j_agent_id j) eqn:Ha; [right|left; eauto].
    repeat split; [by apply eq_None_not_Some|by eauto].
Qed.

(** The tables after a submission: the row and its creation row. *)
Definition submit_db (now : Z) (j : Job) (fields : list string) (reason : string) (db : Db) : Db :=
  append_audit (λ t, audit_row t now j None (Some "QUEUED") "job_transition" fields reason)
    (set_jobs (<[j.(j_id) := j]> db.(jobs)) db).

Lemma record_created_run w j fields reason :
  is_Some (w.(w_db).(agents) !! j.(j_agent_id)) →
  record_job_transition_conn_sync j.(j_id) None (Some "QUEUED") "job_transition" fields reason
    (set_db (set_jobs (<[j.(j_id) := j]> w.(w_db).(jobs)) w.(w_db)) w) =
  (Ok tt, set_db (submit_db w.(w_now) j fields reason w.(w_db)) w).
Proof.
  intros Hag. rw (record_job_transition_run _ _ j) //=; [by rw lookup_insert_eq|set_solver].
Qed.

(** The row [insert_job_sync] makes. *)
Definition new_job (id : string) (rowid : Z) (agent_id : string) (request_id : option string)
    (prompt_text : string) (now : Z) : Job :=
  MkJob id rowid agent_id request_id prompt_text None "QUEUED" None now None None None
    false false false.

(** [insert_job_sync] in every case: the new row, the row that took the
    request, or an error. *)
Lemma insert_job_run id agent_id request_id prompt_text w :
  let db := w.(w_db) in
  let j := new_job id (next_rowid db.(jobs)) agent_id request_id prompt_text w.(w_now) in
  (insert_job_sync id agent_id request_id prompt_text w =
     (Ok id, set_db (submit_db w.(w_now) j ["status"; "created_at"] "submit" db) w) ∧
   db.(jobs) !! id = None ∧ is_Some (db.(agents) !! agent_id) ∧
   job_idempotency_taken db agent_id request_id = false) ∨
  (∃ k, insert_job_sync id agent_id request_id prompt_text w = (Ok k.(j_id), w) ∧
        k ∈ table_rows db.(jobs) ∧ k.(j_agent_id) = agent_id ∧ k.(j_request_id) = request_id ∧
        is_Some request_id) ∨
  (∃ e, insert_job_sync id agent_id request_id prompt_text w = (Err e, w)).
Proof.
  intros db j. unfold insert_job_sync, query_job_by_request_id_sync. run_m.
  destruct (insert_job_row_run (λ rowid, new_job id rowid agent_id request_id prompt_text w.(w_now))
              w) as [(e & Hrun & _)|(Hrun & Hn & Hag & Hrq)]; unfold new_job in Hrun; rw Hrun;
    [right|left; by rw (record_created_run w j)].
  destruct request_id as [rq|]; [|right; by eexists].
  destruct (is_unique_constraint_error e); simpl; [|right; by eexists].
  destruct (head _) as [k|] eqn:Hh; [left; exists k|right; by eexists].
  assert (Hin : k ∈ filter (λ j, j.(j_agent_id) = agent_id ∧ j.(j_request_id) = Some rq)
                      (table_rows db.(jobs))).
  { fold db in Hh. destruct (filter _ _); simplify_eq/=. apply list_elem_of_here. }
  apply list_elem_of_filter in Hin as [[? ?] ?]. by repeat split.
Qed.

Lemma consistent_insert_job id agent_id request_id prompt_text :
  preserves consistent (insert_job_sync id agent_id request_id prompt_text).
Proof.
  intros w Hc. destruct (insert_job_run id agent_id request_id prompt_text w)
    as [(-> & ? & ? & ?)|[(k & -> & _)|[e ->]]]; [|done..]. by apply consistent_new_job.
Qed.

Lemma consistent_insert_recovered id agent_id request_id prompt_text c p t error_reason :
  preserves consistent
    (insert_recovered_queued_job_sync id agent_id request_id prompt_text c p t error_reason).
Proof.
  intros w Hc. unfold insert_recovered_queued_job_sync, query_job_by_request_id_sync. run_m.
  set (row := λ rowid, MkJob id rowid agent_id request_id prompt_text _ _ _ _ _ _ _ _ _ _).
  destruct (insert_job_row_run row w) as [(e & -> & _)|(-> & Hn & Hag & Hrq)].
  - repeat case_match; by simplify_eq/=.
  - rw (record_created_run w (row _)) //. by apply consistent_new_job.
Qed.

Lemma sound_insert_job_sync id agent_id request_id prompt_text :
  respects sound (insert_job_sync id agent_id request_id prompt_text).
Proof.
  apply respects_sound; [|apply consistent_insert_job].
  unfold insert_job_sync, query_job_by_request_id_sync. solve_respects.
Qed.

Lemma sound_insert_recovered id agent_id request_id prompt_text c p t error_reason :
  respects sound
    (insert_recovered_queued_job_sync id agent_id request_id prompt_text c p t error_reason).
Proof.
  apply respects_sound; [|apply consistent_insert_recovered].
  unfold insert_recovered_queued_job_sync, query_job_by_request_id_sync. solve_respects.
Qed.
#[local] Hint Resolve sound_insert_job_sync sound_insert_recovered : respects.

Lemma sound_notify_job {E} : respects sound (notify_runtime_job_changed : M E unit).
Proof. unfold notify_runtime_job_changed, notify_runtime_changed. solve_respects. Qed.

Lemma sound_notify_job_update {E} job_id : respects sound (notify_job_update job_id : M E unit).
Proof. unfold notify_job_update. solve_respects. Qed.
#[local] Hint Resolve sound_notify_job sound_notify_job_update : respects.

Lemma sound_publish wake job_id changes : respects sound (publish_changes wake job_id changes).
Proof. unfold publish_changes, wake_up. solve_respects. Qed.

Lemma sound_query_job_row ctx job_id : respects sound (query_job_row ctx job_id).
Proof. unfold query_job_row, query_job_sync. solve_respects. Qed.

Lemma sound_requeue_job_state job_id from err reason :
  respects sound (requeue_job_state_conn_sync job_id from err reason).
Proof. unfold requeue_job_state_conn_sync, query_job_sync. solve_respects. Qed.
#[local] Hint Resolve sound_publish sound_query_job_row sound_requeue_job_state : respects.

Lemma sound_insert_job id agent_id request_id prompt_text :
  respects sound (insert_job id agent_id request_id prompt_text).
Proof. unfold insert_job. solve_respects. Qed.

Lemma sound_claim agent_id : respects sound (claim_next_job agent_id).
Proof. unfold claim_next_job, claim_next_job_sync. solve_respects. Qed.

Lemma sound_dispatch agent_id from new_state kind payload :
  respects sound (dispatch_job_to_agent agent_id from new_state kind payload).
Proof. unfold dispatch_job_to_agent, dispatch_job_to_agent_sync. solve_respects. Qed.

Lemma sound_completed_conn job_id reply :
  respects sound (mark_job_completed_conn_sync job_id reply).
Proof. unfold mark_job_completed_conn_sync. solve_respects. Qed.

Lemma sound_cancelled_conn job_id reply :
  respects sound (mark_job_cancelled_conn_sync job_id reply).
Proof. unfold mark_job_cancelled_conn_sync. solve_respects. Qed.
#[local] Hint Resolve sound_completed_conn sound_cancelled_conn : respects.

Lemma sound_completed job_id reply : respects sound (mark_job_completed job_id reply).
Proof. unfold mark_job_completed, mark_job_completed_sync. solve_respects. Qed.

Lemma sound_queued_cancelled job_id : respects sound (mark_queued_job_cancelled job_id).
Proof.
  unfold mark_queued_job_cancelled, mark_queued_job_cancelled_sync,
    mark_queued_job_cancelled_conn_sync, query_job_sync. solve_respects.
Qed.

Lemma sound_request_cancel job_id : respects sound (request_dispatched_job_cancel job_id).
Proof.
  unfold request_dispatched_job_cancel, request_dispatched_job_cancel_sync. solve_respects.
Qed.

Lemma sound_force_cancel job_id now timeout :
  respects sound (force_cancel_pending_dispatched_job_conn_sync job_id now timeout).
Proof. unfold force_cancel_pending_dispatched_job_conn_sync, query_job_sync. solve_respects. Qed.

Lemma sound_cancel_if_idle job_id :
  respects sound (mark_dispatched_job_cancelled_if_agent_idle job_id).
Proof.
  unfold mark_dispatched_job_cancelled_if_agent_idle,
    mark_dispatched_job_cancelled_if_agent_idle_sync, query_job_sync. solve_respects.
Qed.

Lemma sound_failed_conn job_id reason : respects sound (mark_job_failed_conn_sync job_id reason).
Proof. unfold mark_job_failed_conn_sync. solve_respects. Qed.
#[local] Hint Resolve sound_failed_conn : respects.

Lemma sound_failed job_id reason : respects sound (mark_job_failed job_id reason).
Proof. unfold mark_job_failed, mark_job_failed_sync. solve_respects. Qed.

Lemma sound_fail_dispatched reason ids n : respects sound (fail_dispatched reason ids n).
Proof. revert n. induction ids as [|id ids IH]; intros n; simpl; solve_respects; apply IH. Qed.
#[local] Hint Resolve sound_fail_dispatched : respects.

Lemma sound_fail_agent_conn_collect agent_id reason :
  respects sound (mark_dispatched_jobs_failed_for_agent_conn_collect_sync agent_id reason).
Proof.
  unfold mark_dispatched_jobs_failed_for_agent_conn_collect_sync,
    query_dispatched_job_ids_for_agent_sync. solve_respects.
Qed.
#[local] Hint Resolve sound_fail_agent_conn_collect : respects.

Lemma sound_fail_agent_conn agent_id reason :
  respects sound (mark_dispatched_jobs_failed_for_agent_conn_sync agent_id reason).
Proof. unfold mark_dispatched_jobs_failed_for_agent_conn_sync. solve_respects. Qed.

Lemma sound_fail_agent agent_id reason :
  respects sound (mark_dispatched_jobs_failed_for_agent agent_id reason).
Proof.
  unfold mark_dispatched_jobs_failed_for_agent,
    mark_dispatched_jobs_failed_for_agent_collect_sync. solve_respects.
Qed.

Lemma sound_requeue_recovered job_id agent_id attempt reason :
  respects sound (requeue_recovered_dispatch_io_failure job_id agent_id attempt reason).
Proof.
  unfold requeue_recovered_dispatch_io_failure, requeue_recovered_dispatch_io_failure_sync,
    query_job_sync. solve_respects.
Qed.

Lemma sound_requeue_before_send job_id agent_id reason :
  respects sound (requeue_dispatched_job_before_send job_id agent_id reason).
Proof.
  unfold requeue_dispatched_job_before_send, requeue_dispatched_job_before_send_sync,
    query_job_sync. solve_respects.
Qed.

Lemma sound_clear_marker job_id : respects sound (clear_recovered_dispatch_marker job_id).
Proof.
  unfold clear_recovered_dispatch_marker, clear_recovered_dispatch_marker_sync. solve_respects.
Qed.

Lemma sound_evidence_requirements job_id p t :
  respects sound (set_job_evidence_requirements job_id p t).
Proof.
  unfold set_job_evidence_requirements, set_job_evidence_requirements_sync. solve_respects.
Qed.

Lemma sound_update_seq_id job_id seq : respects sound (update_dispatched_seq_id job_id seq).
Proof. unfold update_dispatched_seq_id, update_dispatched_seq_id_sync. solve_respects. Qed.

Lemma sound_collect_reply agent_id seq prompt :
  respects sound (collect_reply_for_dispatched_job_sync agent_id seq prompt).
Proof. unfold collect_reply_for_dispatched_job_sync. solve_respects. Qed.

Lemma sound_query_dispatched agent_id :
  respects sound (query_dispatched_job_for_agent_sync agent_id).
Proof. unfold query_dispatched_job_for_agent_sync. solve_respects. Qed.

End JobsSound.
#[export] Hint Resolve sound_insert_job_sync sound_insert_recovered sound_notify_job
  sound_notify_job_update sound_publish sound_query_job_row sound_requeue_job_state
  sound_insert_job sound_claim sound_dispatch sound_completed_conn sound_cancelled_conn
  sound_completed sound_queued_cancelled sound_request_cancel sound_force_cancel
  sound_cancel_if_idle sound_failed_conn sound_failed sound_fail_dispatched
  sound_fail_agent_conn_collect sound_fail_agent_conn sound_fail_agent sound_requeue_recovered
  sound_requeue_before_send sound_clear_marker sound_evidence_requirements sound_update_seq_id
  sound_collect_reply sound_query_dispatched : respects.
