(* ===== verification/Completion.v ===== *)
(** * Completion signals in provider logs ([src/src/completion/parser.rs])

    Which line of a provider's transcript ends a turn, with which reply, and
    whether a candidate reply announces background work that is still running.
    [check_pending_tasks_from_log_root] reads files; what it answers is the
    [w_pending_tasks] of the world. *)
From S2P Require Import Prelude Json Schema Sql Text.

Inductive CompletionTerminality : Type :=
| Terminal
| DeferredBackgroundWork (reason : string).

Definition deferred_work : CompletionTerminality :=
  DeferredBackgroundWork "ANTIGRAVITY_DEFERRED_BACKGROUND_WORK".

Definition english_phrases : list string :=
  ["waiting for"; "still running"; "running in the background"; "background cargo"; "i'll wait";
   "will report"; "i'll update"; "once it finishes"].
Definition chinese_phrases : list string :=
  ["等待"; "等后台"; "还在跑"; "仍在运行"; "跑完后"; "稍后回报"].

Section Classify.
Context {EXT : Externals}.

Definition classify_terminality (provider candidate_reply : string)
    (pane_snapshot prompt_text : option string) (has_pending_tasks : option bool) :
    CompletionTerminality :=
  if provider == "antigravity" then
    match has_pending_tasks with
    | Some pending => if pending then deferred_work else Terminal
    | None =>
        let reply_lower := to_lowercase candidate_reply in
        if existsb (contains reply_lower) english_phrases then deferred_work
        else if existsb (contains candidate_reply) chinese_phrases then deferred_work
        else if regex_is_match "后台.*跑" candidate_reply then deferred_work
        else if regex_is_match "完成后.*报告" candidate_reply then deferred_work
        else Terminal
    end
  else Terminal.

End Classify.

(** ** Transcript lines *)

Inductive LogParseResult : Type :=
| TurnComplete (turn_id reply : option string)
| UserMessage (turn_id : option string)
| NotTerminal
| UnknownDegrade (reason : string).

Definition parse_codex_log_value (value : Value) : LogParseResult :=
  if get_str "type" value != Some "event_msg" then NotTerminal
  else match value_get "payload" value with
  | None => NotTerminal
  | Some payload =>
      if get_str "type" payload != Some "task_complete" then NotTerminal
      else TurnComplete (get_str "turn_id" payload) (get_str "last_agent_message" payload)
  end.

Definition is_claude_user_entry (value : Value) : bool :=
  if get_str "type" value == Some "user" then true
  else (value_get "message" value ≫= get_str "role") == Some "user".

Definition claude_text_reply (message : Value) : option string :=
  content ← value_get "content" message ≫= as_array;
  let text_parts :=
    omap (λ item, if get_str "type" item == Some "text" then get_str "text" item else None)
      content in
  match text_parts with
  | [] => None
  | _ => Some (concat_str text_parts)
  end.

Definition is_assistant_message (message : Value) : bool :=
  (get_str "type" message == Some "message") && (get_str "role" message == Some "assistant").

Definition parse_claude_log_value (value : Value) : LogParseResult :=
  if is_claude_user_entry value then UserMessage (get_str "promptId" value)
  else if get_str "type" value != Some "assistant" then NotTerminal
  else match value_get "message" value with
  | None => NotTerminal
  | Some message =>
      if negb (is_assistant_message message) then NotTerminal
      else match get_str "stop_reason" message with
      | Some stop_reason =>
          if stop_reason is_in ["end_turn"; "stop_sequence"; "max_tokens"] then
            match claude_text_reply message with
            | None => NotTerminal
            | Some reply => TurnComplete None (Some reply)
            end
          else if stop_reason == "tool_use" then NotTerminal
          else UnknownDegrade "claude_unknown_stop_reason"
      | None => UnknownDegrade "claude_missing_stop_reason"
      end
  end.

Definition claude_log_value_has_assistant_progress (value : Value) : bool :=
  if get_str "type" value != Some "assistant" then false
  else match value_get "message" value with
  | None => false
  | Some message =>
      if negb (is_assistant_message message) then false
      else match value_get "content" message ≫= as_array with
      | None => false
      | Some content =>
          existsb (λ item, get_str "type" item is_in [Some "text"; Some "tool_use"; Some "thinking"])
            content
      end
  end.

Definition parse_antigravity_log_value (value : Value) : LogParseResult :=
  if (get_str "source" value == Some "USER_EXPLICIT") &&
     (get_str "type" value == Some "USER_INPUT") then UserMessage None
  else if (get_str "source" value != Some "MODEL")
          || (get_str "type" value != Some "PLANNER_RESPONSE")
          || (get_str "status" value != Some "DONE") then NotTerminal
  else if match value_get "tool_calls" value ≫= as_array with
          | Some [] => false
          | Some (_ :: _) => true
          | None => false
          end then NotTerminal
  else TurnComplete None (get_str "content" value).

Section ParseLine.
Context {EXT : Externals}.

Definition parse_provider_log_line (provider line : string) : LogParseResult :=
  match json_from_str line with
  | None => NotTerminal
  | Some value =>
      if provider == "codex" then parse_codex_log_value value
      else if provider == "claude" then parse_claude_log_value value
      else if provider == "antigravity" then parse_antigravity_log_value value
      else NotTerminal
  end.

Definition provider_log_line_has_assistant_progress (provider line : string) : bool :=
  match json_from_str line with
  | None => false
  | Some value =>
      if provider == "claude" then claude_log_value_has_assistant_progress value else false
  end.

End ParseLine.

(** ** When a turn ends

    The lines the providers write, printed and parsed back. *)

Section ClaudeLines.
Context {EXT : Externals}.

(** A content item of an assistant message: text, or something else (thinking,
    a tool call) named by its type. *)
Inductive ContentItem : Type :=
| TextItem (text : string)
| OtherItem (ty payload : string).

Definition item_value (i : ContentItem) : Value :=
  match i with
  | TextItem t => json_object [("type", JString "text"); ("text", JString t)]
  | OtherItem ty p => json_object [("type", JString ty); ("text", JString p)]
  end.

Definition item_text (i : ContentItem) : option string :=
  match i with
  | TextItem t => Some t
  | OtherItem ty p => if ty == "text" then Some p else None
  end.

(** An assistant line of a Claude transcript. *)
Definition claude_line (stop_reason : option string) (items : list ContentItem) : Value :=
  json_object [("type", JString "assistant");
    ("message", json_object [("type", JString "message"); ("role", JString "assistant");
       ("stop_reason", json_opt JString stop_reason); ("content", JArray (item_value <$> items))])].

Lemma claude_line_wf stop_reason items : value_wf (claude_line stop_reason items).
Proof.
  assert (Hitems : value_wf (JArray (item_value <$> items))).
  { induction items as [|i items IH]; [done|]. split; [by destruct i|exact IH]. }
  by destruct stop_reason; repeat split.
Qed.

Lemma claude_text_reply_items m items :
  value_get "content" m = Some (JArray (item_value <$> items)) →
  claude_text_reply m =
    match omap item_text items with [] => None | ts => Some (concat_str ts) end.
Proof.
  intros Hc. unfold claude_text_reply. rw Hc. cbn [mbind option_bind as_array].
  set (g := λ item : Value, if get_str "type" item == Some "text" then get_str "text" item else None).
  assert (Hg : ∀ i, g (item_value i) = item_text i).
  { intros [t|ty p]; [done|].
    change (g (item_value (OtherItem ty p))) with (if Some ty == Some "text" then Some p else None).
    simpl. repeat case_bool_decide; congruence. }
  assert (Hp : omap g (item_value <$> items) = omap item_text items).
  { clear Hc. induction items as [|i items IH]; [done|].
    change (omap g (item_value <$> (i :: items))) with
      (match g (item_value i) with
       | Some y => y :: omap g (item_value <$> items)
       | None => omap g (item_value <$> items)
       end). by rw Hg IH. }
  rw Hp. by destruct (omap item_text items).
Qed.

(** A Claude turn ends with its text.  A printed assistant line parses as the
    end of the turn exactly when its stop reason is one that ends a turn and it
    carries text; the reply is the text items in order, without thinking and
    tool calls.  A tool call never ends a turn, and a stop reason that is
    missing or unknown is reported as such. *)
Theorem claude_turn_end stop_reason items :
  parse_provider_log_line "claude" (json_to_string (claude_line stop_reason items)) =
  match stop_reason with
  | None => UnknownDegrade "claude_missing_stop_reason"
  | Some r =>
      if r is_in ["end_turn"; "stop_sequence"; "max_tokens"] then
        match omap item_text items with
        | [] => NotTerminal
        | texts => TurnComplete None (Some (concat_str texts))
        end
      else if r == "tool_use" then NotTerminal
      else UnknownDegrade "claude_unknown_stop_reason"
  end.
Proof.
  unfold parse_provider_log_line. rw json_from_to; [apply claude_line_wf|].
  change ("claude" == "codex") with false. change ("claude" == "claude") with true. cbv iota.
  unfold parse_claude_log_value.
  destruct stop_reason as [r|]; [|done].
  set (m := json_object [("type", JString "message"); ("role", JString "assistant");
    ("stop_reason", JString r); ("content", JArray (item_value <$> items))]).
  set (v := claude_line (Some r) items).
  assert (H1 : is_claude_user_entry v = false) by reflexivity.
  assert (H2 : get_str "type" v = Some "assistant") by reflexivity.
  assert (H3 : value_get "message" v = Some m) by reflexivity.
  assert (H4 : is_assistant_message m = true) by reflexivity.
  assert (H5 : get_str "stop_reason" m = Some r) by reflexivity.
  rw H1 H2 H3 H4 H5 (claude_text_reply_items m items) // bool_decide_true //. cbn [negb].
  destruct (r is_in _); [|done]. by destruct (omap item_text items).
Qed.

End ClaudeLines.
