(* ===== verification/Evidence.v ===== *)
(** * Evidence of work done ([src/src/db/evidence.rs], [src/src/db/state_machine_assert.rs])

    Rows that show an agent did what a job asked for (a diff, a passed test),
    recorded by the daemon's probes, and the screens kept when an agent's state
    was lost, which a reviewer turns into an assertion that the agent is idle. *)
From S2P Require Import Prelude Json Schema Sql MasterTables JobGate Invariant AgentGate.

Section EvidenceOps.
Context {EXT : Externals}.

Definition query_evidence_by_id_sync (evidence_id : string) : M CcbdError (option Evidence) :=
  gets (λ db, db.(evidence) !! evidence_id).

(** [evidence_id] is the fresh [evi_<uuid>] the function draws. *)
Definition insert_evidence_record_sync (evidence_id agent_id : string) (job_id : option string)
    (evidence_type : string) (subject_path : option string) (payload : Value) :
    M CcbdError string :=
  event_seq_id ← insert_event_null "insert evidence record event" agent_id "evidence_recorded"
                   payload;
  now ← asks w_now;
  map_err (map_db_error "insert evidence record")
    (insert_evidence_row
       (MkEvidence evidence_id agent_id event_seq_id [] "[]" "PENDING" None job_id
          (Some evidence_type) subject_path (Some (json_to_string payload)) now));;
  mret evidence_id.

(** [SELECT EXISTS(SELECT 1 FROM evidence WHERE agent_id = ? AND job_id = ? AND evidence_type = ?)] *)
Definition evidence_exists (agent_id job_id evidence_type : string) (db : Db) : bool :=
  existsb (λ v, (v.(v_agent_id) == agent_id) && (v.(v_job_id) == Some job_id) &&
                (v.(v_evidence_type) == Some evidence_type)) (table_rows db.(evidence)).

Fixpoint has_job_evidence_sync (agent_id job_id : string) (evidence_types : list string) :
    M CcbdError bool :=
  match evidence_types with
  | [] => mret false
  | evidence_type :: rest =>
      found ← gets (evidence_exists agent_id job_id evidence_type);
      if (found : bool) then mret true else has_job_evidence_sync agent_id job_id rest
  end.

Definition has_job_evidence_for_path_sync (job_id evidence_type subject_path : string) :
    M CcbdError bool :=
  gets (λ db, existsb (λ v, (v.(v_job_id) == Some job_id) &&
                            (v.(v_evidence_type) == Some evidence_type) &&
                            (v.(v_subject_path) == Some subject_path)) (table_rows db.(evidence))).

Definition update_evidence_status_sync (evidence_id status : string)
    (l3_asserted_state : option string) : M CcbdError nat :=
  update_evidence evidence_id (λ _, true)
    (λ v, set_v_l3_asserted_state l3_asserted_state (set_v_status status v)).

Definition discard_evidence_sync (evidence_id : string) : M CcbdError unit :=
  row ← query_evidence_by_id_sync evidence_id;
  match row with
  | None => throw (DbEvidenceNotFound ("evidence_id=" +:+ evidence_id))
  | Some _ => update_evidence_status_sync evidence_id "DISCARDED" None;; mret tt
  end.

(** ** The reviewer's assertion *)

Record AssertStateOutcome : Type := MkAssertStateOutcome { state_change_seq_id : Z }.

Definition assert_state_to_idle_sync (agent_id evidence_id : string) :
    M CcbdError AssertStateOutcome :=
  transaction (
    row ← query_evidence_by_id_sync evidence_id;
    match row with
    | None => throw (DbEvidenceNotFound ("evidence_id=" +:+ evidence_id))
    | Some row =>
    if row.(v_agent_id) != agent_id then throw (DbEvidenceNotFound "agent_id mismatch")
    else
    current ← query_agent_row agent_id;
    match current with
    | None => throw (AgentNotFound agent_id)
    | Some current =>
    let current_state := current.(a_state) in
    let state_version := current.(a_state_version) in
    if (current_state != STATE_UNKNOWN) && (current_state != STATE_WAITING_FOR_ACK) then
      throw (AgentWrongState current_state)
    else
    now ← asks w_now;
    changes ← update_agent agent_id
                (λ a, (a.(a_state) is_in ["UNKNOWN"; "WAITING_FOR_ACK"]) &&
                      (a.(a_state_version) =? state_version))
                (λ a, bump_version now (set_a_sub_state (Some "Asserted") (set_a_state "IDLE" a)));
    if changes == 0%nat then
      again ← query_agent_row agent_id;
      throw (AgentWrongState (from_option a_state "MISSING" again))
    else
    update_evidence evidence_id (λ _, true)
      (λ v, set_v_l3_asserted_state (Some "IDLE") (set_v_status "REVIEWED" v));;
    seq ← insert_event_null "insert assert state_change" agent_id "state_change"
            (json_object [("from", JString current_state); ("to", JString "IDLE");
                          ("sub_state", JString "Asserted"); ("reason", JString "L3_ASSERTED");
                          ("evidence_id", JString evidence_id)]);
    mret (Commit (MkAssertStateOutcome seq))
    end
    end).

Definition assert_state_to_idle (agent_id evidence_id : string) : M CcbdError AssertStateOutcome :=
  result ← assert_state_to_idle_sync agent_id evidence_id;
  wake_up;;
  mret result.

(** ** Facts *)

Lemma has_job_evidence_run agent_id job_id types w :
  has_job_evidence_sync agent_id job_id types w =
    (Ok (existsb (λ ty, evidence_exists agent_id job_id ty w.(w_db)) types), w).
Proof.
  induction types as [|ty types IH]; [done|]. simpl. run_m.
  by destruct (evidence_exists agent_id job_id ty w.(w_db)).
Qed.

Lemma sound_query_evidence evidence_id : respects sound (query_evidence_by_id_sync evidence_id).
Proof. unfold query_evidence_by_id_sync. solve_respects. Qed.
#[local] Hint Resolve sound_query_evidence : respects.

Lemma sound_insert_evidence_record evidence_id agent_id job_id ty path payload :
  respects sound (insert_evidence_record_sync evidence_id agent_id job_id ty path payload).
Proof. unfold insert_evidence_record_sync. solve_respects. Qed.

Lemma sound_has_job_evidence agent_id job_id types :
  respects sound (has_job_evidence_sync agent_id job_id types).
Proof. intros w. by rw has_job_evidence_run. Qed.

Lemma sound_update_evidence_status evidence_id status l3 :
  respects sound (update_evidence_status_sync evidence_id status l3).
Proof. unfold update_evidence_status_sync. solve_respects. Qed.
#[local] Hint Resolve sound_update_evidence_status : respects.

Lemma sound_discard_evidence evidence_id : respects sound (discard_evidence_sync evidence_id).
Proof. unfold discard_evidence_sync. solve_respects. Qed.

Lemma sound_assert_state agent_id evidence_id :
  respects sound (assert_state_to_idle agent_id evidence_id).
Proof.
  unfold assert_state_to_idle, assert_state_to_idle_sync, query_agent_row, wake_up.
  solve_respects.
Qed.

End EvidenceOps.
#[export] Hint Resolve sound_insert_evidence_record sound_has_job_evidence
  sound_update_evidence_status sound_discard_evidence sound_assert_state : respects.
