(* ===== verification/StateMachine.v ===== *)
(** * Agent state machine ([src/src/db/state_machine.rs], second part)

    The transitions that a signal from outside causes: the idle marker on the
    screen, a completion line in the provider's log, a completion hook, a
    stuck or lost screen.  Each runs in one transaction that moves the agent
    under its compare-and-set and resolves the job it was working on. *)
From S2P Require Import Prelude Json Schema Sql MasterTables JobGate Invariant AgentGate Text ReplyText Jobs.
From S2P Require Import Completion Evidence.

Definition EVIDENCE_DENY_MESSAGE : string :=
  "SYSTEM DENY: Missing physical evidence. You must output a git diff or test result before finishing.".
Definition LOG_EVENT_TASK_COMPLETE_REASON : string := "LOG_EVENT_TASK_COMPLETE".
Definition LOG_EVENT_SUB_STATE : string := "LogEvent".
Definition HOOK_EVENT_SUB_STATE : string := "HookEvent".
Definition DEFERRED_NUDGE : string :=
  "The job is still open. Wait for the background command to finish, then report the final test result. Do not stop at 'waiting for cargo test'.".

Record MarkerMatchedOutcome : Type := MkMarkerMatchedOutcome {
  mo_changes : nat;
  mo_affected_job : option string;
  mo_denial_message : option string;
  mo_deferred_nudge : option string
}.

Record StuckOutcome : Type := MkStuckOutcome {
  so_changes : nat;
  so_agent_id : string;
  so_job_id : option string;
  so_from_state : option string;
  so_event_seq_id : option Z;
  so_job_resolution : string
}.

Record MarkerMatchedSyncOutcome : Type := MkMarkerMatchedSyncOutcome {
  ms_changes : nat;
  ms_denial_message : option string;
  ms_deferred_nudge : option string
}.

(** ** The idle marker *)

Definition AH_IDLE_MARKER : string := "<<ah-idle:job-id=".

Definition extract_ah_idle_marker_job_id (text : string) : option string :=
  start ← find text AH_IDLE_MARKER;
  let rest := str_drop (start + String.length AH_IDLE_MARKER) text in
  e ← find rest ">>";
  let job_id := trim (str_take e rest) in
  if job_id == "" then None else Some job_id.

Definition is_prompt_only_reply (reply_text : string) : bool :=
  let text := trim (strip_ansi_escapes reply_text) in
  if text == "" then true
  else bool_decide (String.length text ≤ 4)%nat &&
       (text is_in ["$"; "#"; ">"; "✦"; "❯"; "›"; "▌"; "%"]).

(** [format!("{:016x}", n)] of a [u64]. *)
Definition hex_digit (d : Z) : string :=
  if d <? 10 then byte_str (48 + Z.to_nat d)%nat else byte_str (87 + Z.to_nat d)%nat.
Definition hex16 (n : Z) : string :=
  concat_str ((λ k : nat, hex_digit (Z.land (Z.shiftr n (60 - 4 * Z.of_nat k)) 15)) <$> seq 0 16).

Section StateMachine.
Context {EXT : Externals}.

Definition recapture_content_hash (content : string) : string := hex16 (default_hash content).

Definition late_health_completion_stuck_allows_terminal (agent_id dispatched_job_id : string) :
    M CcbdError bool :=
  payload ← gets (latest_state_change_payload agent_id);
  match payload with
  | None => mret false
  | Some payload => mret (is_late_completion_payload payload dispatched_job_id)
  end.

(** The text of a chunk, or the payload itself when it has none. *)
Definition chunk_text (payload : string) : string :=
  default payload (json_from_str payload ≫= get_str "text").

Definition latest_ah_idle_marker_job_id (agent_id : string) (dispatched_at_seq_id : option Z) :
    M CcbdError (option string) :=
  let since_seq_id := default 0 dispatched_at_seq_id in
  payloads ← gets (output_chunks agent_id since_seq_id);
  mret (foldl (λ marker payload,
                 match extract_ah_idle_marker_job_id (chunk_text payload) with
                 | Some job_id => Some job_id
                 | None => marker
                 end) None payloads).

(** ** The evidence a job may require *)

Definition evidence_denial_for_job (agent_id : string) (job : Job) : M CcbdError (option string) :=
  physical_missing ←
    (if job.(j_requires_physical_evidence) then
       found ← has_job_evidence_sync agent_id job.(j_id) ["mtime_changed"; "diff_generated"];
       mret (negb found)
     else mret false);
  if (physical_missing : bool) then mret (Some EVIDENCE_DENY_MESSAGE)
  else
  test_missing ←
    (if job.(j_requires_test_evidence) then
       found ← has_job_evidence_sync agent_id job.(j_id) ["test_passed"];
       mret (negb found)
     else mret false);
  if (test_missing : bool) then
    mret (Some (EVIDENCE_DENY_MESSAGE +:+ " Missing required evidence_type=test_passed."))
  else mret None.

Definition insert_evidence_denied_event (agent_id job_id message : string) : M CcbdError unit :=
  insert_event_null "insert evidence denied event" agent_id "evidence_denied"
    (json_object [("job_id", JString job_id); ("reason", JString "missing_physical_evidence");
                  ("message", JString message)]);;
  mret tt.

(** ** Deferral of a completion that announces background work *)

Definition is_completion_deferred_payload (job_id candidate_hash payload_str : string) : bool :=
  match json_from_str payload_str with
  | Some payload =>
      (get_str "job_id" payload == Some job_id) &&
      (get_str "candidate_hash" payload == Some candidate_hash)
  | None => false
  end.

Definition has_completion_deferred_event (agent_id job_id candidate_hash : string) :
    M CcbdError bool :=
  gets (λ db, existsb (is_completion_deferred_payload job_id candidate_hash)
    (e_payload <$> filter (λ e, e.(e_agent_id) = agent_id ∧
                                e.(e_event_type) = "completion_deferred") db.(events))).

Definition insert_completion_deferred_event (agent_id job_id reason candidate_hash : string) :
    M CcbdError unit :=
  insert_event_null "insert completion deferred event" agent_id "completion_deferred"
    (json_object [("job_id", JString job_id); ("reason", JString reason);
                  ("candidate_hash", JString candidate_hash)]);;
  mret tt.

Definition handle_completion_deferral_sync (agent_id job_id candidate_reply previous_state : string)
    (state_version : Z) : M CcbdError (option string) :=
  let hash := recapture_content_hash candidate_reply in
  already_nudged ← has_completion_deferred_event agent_id job_id hash;
  insert_completion_deferred_event agent_id job_id "ANTIGRAVITY_DEFERRED_BACKGROUND_WORK" hash;;
  now ← asks w_now;
  changes ← update_agent agent_id
              (λ a, (a.(a_state) is_in ["WAITING_FOR_ACK"; "BUSY"; "STUCK"]) &&
                    (a.(a_state_version) =? state_version))
              (λ a, bump_version now (set_a_sub_state (Some "Deferred") (set_a_state "BUSY" a)));
  when (changes == 1%nat) (
    insert_event_null "insert deferral state_change" agent_id "state_change"
      (json_object [("from", JString previous_state); ("to", JString "BUSY");
                    ("sub_state", JString "Deferred");
                    ("reason", JString "ANTIGRAVITY_DEFERRED_BACKGROUND_WORK");
                    ("job_id", JString job_id); ("schema_version", JNumber 1)]);;
    mret tt);;
  mret (if (already_nudged : bool) then None else Some DEFERRED_NUDGE).

(** ** Marker on the screen *)

(** [cancel_requested] turns the completion of the job into its cancellation. *)
Definition resolve_job (job_id reply_text : string) (cancel_requested : bool) : M CcbdError unit :=
  (if cancel_requested then mark_job_cancelled_conn_sync job_id reply_text
   else mark_job_completed_conn_sync job_id reply_text);;
  mret tt.

Definition mark_agent_idle_matched_conn_inner (agent_id : string) (state_version : Z)
    (previous_state : string) (dispatched_job_reply : option (string * string * bool))
    (reason : string) (allow_from_stuck : bool) : M CcbdError nat :=
  now ← asks w_now;
  changes ← update_agent agent_id
    (λ a, (if allow_from_stuck
           then a.(a_state) is_in ["SPAWNING"; "WAITING_FOR_ACK"; "BUSY"; "STUCK"]
           else a.(a_state) is_in ["SPAWNING"; "WAITING_FOR_ACK"; "BUSY"]) &&
          (a.(a_state_version) =? state_version))
    (λ a, bump_version now (set_a_sub_state (Some "Matched") (set_a_state "IDLE" a)));
  when (changes == 1%nat) (
    match dispatched_job_reply with
    | Some (job_id, reply_text, cancel_requested) =>
        resolve_job job_id reply_text cancel_requested
    | None => mret tt
    end;;
    insert_event_null "insert marker matched state_change" agent_id "state_change"
      (json_object [("from", JString previous_state); ("to", JString "IDLE");
                    ("sub_state", JString "Matched"); ("reason", JString reason)]);;
    mret tt);;
  mret changes.

Definition nothing_changed : MarkerMatchedSyncOutcome := MkMarkerMatchedSyncOutcome 0 None None.

Definition mark_agent_idle_matched_outcome_sync_inner (agent_id reason : string) :
    M CcbdError MarkerMatchedSyncOutcome :=
  transaction (
    current ← query_agent_row agent_id;
    match current with
    | None => mret (Rollback nothing_changed)
    | Some current =>
    let previous_state := current.(a_state) in
    let state_version := current.(a_state_version) in
    let provider := current.(a_provider) in
    let session_id := current.(a_session_id) in
    if negb (is_active_state previous_state) then mret (Rollback nothing_changed)
    else
    let finish (dispatched_job_reply : option (string * string * bool)) :=
      changes ← mark_agent_idle_matched_conn_inner agent_id state_version previous_state
                  dispatched_job_reply reason false;
      mret (Commit (MkMarkerMatchedSyncOutcome changes None None)) in
    dispatched ← query_dispatched_job_for_agent_sync agent_id;
    match dispatched with
    | None => finish None
    | Some job =>
    monitored ← asks (λ w, agent_id is_in elements w.(w_log_monitors));
    if (monitored : bool) then mret (Commit nothing_changed)
    else
    denial ← evidence_denial_for_job agent_id job;
    match denial with
    | Some denial_message =>
        insert_evidence_denied_event agent_id job.(j_id) denial_message;;
        mret (Commit (MkMarkerMatchedSyncOutcome 0 (Some denial_message) None))
    | None =>
    marker_job_id ← latest_ah_idle_marker_job_id agent_id job.(j_dispatched_at_seq_id);
    if match marker_job_id with Some m => m != job.(j_id) | None => false end then
      mret (Rollback nothing_changed)
    else
    reply_text ← collect_reply_for_dispatched_job_sync agent_id job.(j_dispatched_at_seq_id)
                   job.(j_prompt_text);
    if (previous_state == "BUSY") && negb job.(j_cancel_requested) &&
       is_prompt_only_reply reply_text then mret (Rollback nothing_changed)
    else
    has_pending ← asks (λ w, w.(w_pending_tasks) session_id agent_id provider);
    match classify_terminality provider reply_text None (Some job.(j_prompt_text)) has_pending with
    | DeferredBackgroundWork _ =>
        deferred_nudge ← handle_completion_deferral_sync agent_id job.(j_id) reply_text
                           previous_state state_version;
        mret (Commit (MkMarkerMatchedSyncOutcome 0 None deferred_nudge))
    | Terminal => finish (Some (job.(j_id), reply_text, job.(j_cancel_requested)))
    end
    end
    end
    end).

Definition mark_agent_idle_matched_outcome_sync (agent_id : string) :
    M CcbdError MarkerMatchedSyncOutcome :=
  mark_agent_idle_matched_outcome_sync_inner agent_id "MARKER_MATCHED".

(** ** Completion hook *)

(** A stuck agent whose last state change says that its dispatched job was
    stuck in completion may still complete it. *)
Definition late_stuck_job (agent_id previous_state : string) : M CcbdError (option string) :=
  if previous_state == STATE_STUCK then
    dispatched ← query_dispatched_job_for_agent_sync agent_id;
    match dispatched with
    | Some job =>
        allowed ← late_health_completion_stuck_allows_terminal agent_id job.(j_id);
        mret (if (allowed : bool) then Some job.(j_id) else None)
    | None => mret None
    end
  else mret None.

(** The reply that came with the signal, or else what the screen shows. *)
Definition signalled_reply (source agent_id : string) (job : Job) (reply : option string) :
    M CcbdError (string * string) :=
  match reply with
  | Some reply => mret (reply, source)
  | None =>
      screen ← collect_reply_for_dispatched_job_sync agent_id job.(j_dispatched_at_seq_id)
                 job.(j_prompt_text);
      mret (screen, "screen")
  end.

Definition mark_agent_idle_hook_event_outcome_sync (agent_id provider hook_event : string)
    (event_id reply : option string) (expected_state_version : option Z) :
    M CcbdError MarkerMatchedSyncOutcome :=
  transaction (
    current ← query_agent_row agent_id;
    match current with
    | None => mret (Rollback nothing_changed)
    | Some current =>
    let previous_state := current.(a_state) in
    let state_version := current.(a_state_version) in
    let session_id := current.(a_session_id) in
    late_health_completion_stuck_job ← late_stuck_job agent_id previous_state;
    if (previous_state != STATE_WAITING_FOR_ACK) && (previous_state != STATE_BUSY) &&
       (late_health_completion_stuck_job == None) then mret (Rollback nothing_changed)
    else
    let cas_version := default state_version expected_state_version in
    let finish (dispatched_job_reply : option (string * string * string * bool)) :=
      let reply_source :=
        match dispatched_job_reply with
        | Some (_, _, reply_source, _) => reply_source
        | None => if bool_decide (is_Some reply) then "hook" else "screen"
        end in
      now ← asks w_now;
      changes ← update_agent agent_id
        (λ a, (a.(a_state) is_in ["WAITING_FOR_ACK"; "BUSY"; "STUCK"]) &&
              (a.(a_state_version) =? cas_version))
        (λ a, bump_version now (set_a_sub_state (Some "HookEvent") (set_a_state "IDLE" a)));
      when (changes == 1%nat) (
        match dispatched_job_reply with
        | Some (job_id, reply_text, _, cancel_requested) =>
            resolve_job job_id reply_text cancel_requested
        | None => mret tt
        end;;
        insert_event_null "insert hook event state_change" agent_id "state_change"
          (json_object [("from", JString previous_state); ("to", JString STATE_IDLE);
                        ("sub_state", JString HOOK_EVENT_SUB_STATE); ("source", JString "hook");
                        ("hook_event", JString hook_event); ("provider", JString provider);
                        ("event_id", json_opt JString event_id); ("schema_version", JNumber 1);
                        ("reply_source", JString reply_source)]);;
        mret tt);;
      mret (Commit (MkMarkerMatchedSyncOutcome changes None None)) in
    dispatched ← query_dispatched_job_for_agent_sync agent_id;
    match dispatched with
    | None => finish None
    | Some job =>
    denial ← evidence_denial_for_job agent_id job;
    match denial with
    | Some denial_message =>
        insert_evidence_denied_event agent_id job.(j_id) denial_message;;
        mret (Commit (MkMarkerMatchedSyncOutcome 0 (Some denial_message) None))
    | None =>
    r ← signalled_reply "hook" agent_id job reply;
    let '(reply_text, reply_source) := r in
    has_pending ← asks (λ w, w.(w_pending_tasks) session_id agent_id provider);
    match classify_terminality provider reply_text None (Some job.(j_prompt_text)) has_pending with
    | DeferredBackgroundWork _ =>
        deferred_nudge ← handle_completion_deferral_sync agent_id job.(j_id) reply_text
                           previous_state cas_version;
        mret (Commit (MkMarkerMatchedSyncOutcome 0 None deferred_nudge))
    | Terminal => finish (Some (job.(j_id), reply_text, reply_source, job.(j_cancel_requested)))
    end
    end
    end
    end).

Definition mark_agent_idle_hook_event_sync (agent_id provider hook_event : string)
    (event_id reply : option string) : M CcbdError nat :=
  outcome ← mark_agent_idle_hook_event_outcome_sync agent_id provider hook_event event_id reply None;
  mret outcome.(ms_changes).

(** ** Completion line in the provider's log *)

Definition mark_agent_idle_log_event_outcome_sync (agent_id provider : string)
    (reply : option string) (raw_path : string) (raw_offset : Z)
    (provider_turn_id : option string) : M CcbdError MarkerMatchedSyncOutcome :=
  transaction (
    current ← query_agent_row agent_id;
    match current with
    | None => mret (Rollback nothing_changed)
    | Some current =>
    let previous_state := current.(a_state) in
    let state_version := current.(a_state_version) in
    let session_id := current.(a_session_id) in
    late_health_completion_stuck_job ← late_stuck_job agent_id previous_state;
    if (previous_state != STATE_WAITING_FOR_ACK) && (previous_state != STATE_BUSY) &&
       (late_health_completion_stuck_job == None) then mret (Rollback nothing_changed)
    else
    let finish (dispatched_job_reply : option (string * string * string * bool)) :=
      let reply_source :=
        match dispatched_job_reply with
        | Some (_, _, reply_source, _) => reply_source
        | None => if bool_decide (is_Some reply) then "log" else "screen"
        end in
      now ← asks w_now;
      changes ← update_agent agent_id
        (λ a, (a.(a_state) is_in ["WAITING_FOR_ACK"; "BUSY"; "STUCK"]) &&
              (a.(a_state_version) =? state_version))
        (λ a, bump_version now (set_a_sub_state (Some "LogEvent") (set_a_state "IDLE" a)));
      when (changes == 1%nat) (
        match dispatched_job_reply with
        | Some (job_id, reply_text, _, cancel_requested) =>
            resolve_job job_id reply_text cancel_requested
        | None => mret tt
        end;;
        insert_event_null "insert log event state_change" agent_id "state_change"
          (json_object [("from", JString previous_state); ("to", JString STATE_IDLE);
                        ("sub_state", JString LOG_EVENT_SUB_STATE);
                        ("reason", JString LOG_EVENT_TASK_COMPLETE_REASON);
                        ("provider", JString provider); ("raw_path", JString raw_path);
                        ("raw_offset", JNumber raw_offset);
                        ("provider_turn_id", json_opt JString provider_turn_id);
                        ("schema_version", JNumber 1); ("reply_source", JString reply_source)]);;
        mret tt);;
      mret (Commit (MkMarkerMatchedSyncOutcome changes None None)) in
    dispatched ← query_dispatched_job_for_agent_sync agent_id;
    match dispatched with
    | None => finish None
    | Some job =>
    denial ← evidence_denial_for_job agent_id job;
    match denial with
    | Some denial_message =>
        insert_evidence_denied_event agent_id job.(j_id) denial_message;;
        mret (Commit (MkMarkerMatchedSyncOutcome 0 (Some denial_message) None))
    | None =>
    r ← signalled_reply "log" agent_id job reply;
    let '(reply_text, reply_source) := r in
    has_pending ← asks (λ w, w.(w_pending_tasks) session_id agent_id provider);
    match classify_terminality provider reply_text None (Some job.(j_prompt_text)) has_pending with
    | DeferredBackgroundWork _ =>
        deferred_nudge ← handle_completion_deferral_sync agent_id job.(j_id) reply_text
                           previous_state state_version;
        mret (Commit (MkMarkerMatchedSyncOutcome 0 None deferred_nudge))
    | Terminal => finish (Some (job.(j_id), reply_text, reply_source, job.(j_cancel_requested)))
    end
    end
    end
    end).

(** ** Stuck and lost agents *)

Definition mark_agent_stuck_outcome_sync (agent_id reason : string) : M CcbdError StuckOutcome :=
  transaction (
    current ← query_agent_row agent_id;
    match current with
    | None => mret (Rollback (MkStuckOutcome 0 agent_id None None None "NONE"))
    | Some current =>
    let previous_state := current.(a_state) in
    let state_version := current.(a_state_version) in
    if (previous_state != STATE_BUSY) && (previous_state != STATE_WAITING_FOR_ACK) then
      mret (Rollback (MkStuckOutcome 0 agent_id None (Some previous_state) None "NONE"))
    else
    dispatched ← query_dispatched_job_for_agent_sync agent_id;
    let affected_job := j_id <$> dispatched in
    now ← asks w_now;
    changes ← update_agent agent_id
                (λ a, (a.(a_state) is_in ["BUSY"; "WAITING_FOR_ACK"]) &&
                      (a.(a_state_version) =? state_version))
                (λ a, bump_version now (set_a_state "STUCK" a));
    if changes == 1%nat then
      job_resolution ←
        match affected_job with
        | Some job_id =>
            update_job job_id (λ j, (j.(j_agent_id) == agent_id) && (j.(j_status) == "DISPATCHED"))
              (set_j_error_reason (Some reason));;
            transit_job_state job_id Dispatched Failed reason;;
            insert_event_null "insert stuck job_resolution" agent_id "job_resolution"
              (json_object [("job_id", JString job_id); ("job_resolution", JString "FAILED");
                            ("reason", JString reason); ("source", JString "mark_agent_stuck")]);;
            mret "FAILED"
        | None => mret "NONE"
        end;
      event_seq_id ← insert_event_null "insert stuck state_change" agent_id "state_change"
        (json_object [("from", JString previous_state); ("to", JString "STUCK");
                      ("reason", JString reason); ("job_id", json_opt JString affected_job);
                      ("job_resolution", JString job_resolution);
                      ("signal_kinds", JArray [JString "state_machine"]);
                      ("elapsed_secs", JNumber 0)]);
      mret (Commit (MkStuckOutcome changes agent_id affected_job (Some previous_state)
                      (Some event_seq_id) job_resolution))
    else
      mret (Rollback (MkStuckOutcome 0 agent_id affected_job (Some previous_state) None "NONE"))
    end).

(** [UPDATE evidence SET status = 'SEALED' WHERE agent_id = ? AND status = 'PENDING'] *)
Definition seal_evidence (agent_id : string) (v : Evidence) : Evidence :=
  if (v.(v_agent_id) == agent_id) && (v.(v_status) == "PENDING") then set_v_status "SEALED" v
  else v.
Definition seal_pending_evidence {E} (agent_id : string) : M E unit :=
  modify_db (λ db, set_evidence (seal_evidence agent_id <$> db.(evidence)) db).

(** [evidence_id] is the fresh [evi_<uuid>] the function draws. *)
Definition mark_agent_unknown_sync (evidence_id agent_id reason : string)
    (pane_bytes : list Byte.byte) (failed_rules : Value) : M CcbdError nat :=
  transaction (
    current ← query_agent_row agent_id;
    match current with
    | None => mret (Rollback 0%nat)
    | Some current =>
    let previous_state := current.(a_state) in
    let state_version := current.(a_state_version) in
    if negb (is_active_state previous_state) then mret (Rollback 0%nat)
    else
    now ← asks w_now;
    changes ← update_agent agent_id
                (λ a, (a.(a_state) is_in ["SPAWNING"; "WAITING_FOR_ACK"; "BUSY"]) &&
                      (a.(a_state_version) =? state_version))
                (λ a, bump_version now (set_a_error_code (Some reason) (set_a_state "UNKNOWN" a)));
    if changes == 1%nat then
      seal_pending_evidence agent_id;;
      event_seq_id ← insert_event_null "insert unknown state_change" agent_id "state_change"
        (json_object [("from", JString previous_state); ("to", JString "UNKNOWN");
                      ("reason", JString reason)]);
      map_err (map_db_error "insert evidence")
        (insert_evidence_row (MkEvidence evidence_id agent_id event_seq_id pane_bytes
           (json_to_string failed_rules) "PENDING" None None None None None now));;
      dispatched ← query_dispatched_job_for_agent_sync agent_id;
      match dispatched with
      | Some job =>
          (if job.(j_cancel_requested) then mark_job_cancelled_conn_sync job.(j_id) ""
           else mark_dispatched_jobs_failed_for_agent_conn_sync agent_id reason);;
          mret tt
      | None => mret tt
      end;;
      mret (Commit changes)
    else mret (Rollback 0%nat)
    end).

(** ** Asynchronous entry points

    The job an outcome reports is read before the transaction, on its own. *)

Definition affected_job_id (agent_id : string) : M CcbdError (option string) :=
  job ← query_dispatched_job_for_agent_sync agent_id;
  mret (j_id <$> job).

Definition mark_agent_unknown (evidence_id agent_id reason : string)
    (pane_bytes : list Byte.byte) (failed_rules : Value) : M CcbdError (nat * option string) :=
  affected_job ← affected_job_id agent_id;
  changes ← mark_agent_unknown_sync evidence_id agent_id reason pane_bytes failed_rules;
  when (bool_decide (0 < changes)%nat) notify_runtime_agent_changed;;
  let affected_job := if bool_decide (0 < changes)%nat then affected_job else None in
  match affected_job with Some job_id => notify_job_update job_id | None => mret tt end;;
  mret (changes, affected_job).

Definition mark_agent_stuck (agent_id reason : string) : M CcbdError nat :=
  outcome ← mark_agent_stuck_outcome_sync agent_id reason;
  when (bool_decide (0 < outcome.(so_changes))%nat) (
    notify_runtime_agent_changed;;
    match outcome.(so_job_id) with Some job_id => notify_job_update job_id | None => mret tt end;;
    notify_event (MkEventFrame (default 0 outcome.(so_event_seq_id)) "stuck"
      outcome.(so_agent_id) outcome.(so_job_id) (Some STATE_STUCK)
      (Some (json_object [("job_id", json_opt JString outcome.(so_job_id));
                          ("job_resolution", JString outcome.(so_job_resolution));
                          ("signal_kinds", JArray [JString "state_machine"]);
                          ("elapsed_secs", JNumber 0)]))));;
  mret outcome.(so_changes).

(** What the three completion entry points do with the outcome: publish the
    agent and the job, and type the denial or the nudge into the pane. *)
Definition publish_outcome (agent_id : string) (affected_job : option string)
    (outcome : MarkerMatchedSyncOutcome) : M CcbdError MarkerMatchedOutcome :=
  when (bool_decide (0 < outcome.(ms_changes))%nat) notify_runtime_agent_changed;;
  match outcome.(ms_denial_message) with
  | Some message => emit (SpawnSendText agent_id message)
  | None => mret tt
  end;;
  match outcome.(ms_deferred_nudge) with
  | Some nudge => emit (SpawnSendText agent_id nudge)
  | None => mret tt
  end;;
  let affected_job := if bool_decide (0 < outcome.(ms_changes))%nat then affected_job else None in
  match affected_job with Some job_id => notify_job_update job_id | None => mret tt end;;
  mret (MkMarkerMatchedOutcome outcome.(ms_changes) affected_job outcome.(ms_denial_message)
          outcome.(ms_deferred_nudge)).

Definition mark_agent_idle_matched_outcome (agent_id : string) :
    M CcbdError MarkerMatchedOutcome :=
  affected_job ← affected_job_id agent_id;
  outcome ← mark_agent_idle_matched_outcome_sync agent_id;
  publish_outcome agent_id affected_job outcome.

Definition mark_agent_idle_matched (agent_id : string) : M CcbdError (nat * option string) :=
  outcome ← mark_agent_idle_matched_outcome agent_id;
  mret (outcome.(mo_changes), outcome.(mo_affected_job)).

Definition mark_agent_idle_log_event_outcome (agent_id provider : string) (reply : option string)
    (raw_path : string) (raw_offset : Z) (provider_turn_id : option string) :
    M CcbdError MarkerMatchedOutcome :=
  affected_job ← affected_job_id agent_id;
  outcome ← mark_agent_idle_log_event_outcome_sync agent_id provider reply raw_path raw_offset
              provider_turn_id;
  publish_outcome agent_id affected_job outcome.

Definition mark_agent_idle_log_event (agent_id provider : string) (reply : option string)
    (raw_path : string) (raw_offset : Z) (provider_turn_id : option string) :
    M CcbdError (nat * option string) :=
  outcome ← mark_agent_idle_log_event_outcome agent_id provider reply raw_path raw_offset
              provider_turn_id;
  mret (outcome.(mo_changes), outcome.(mo_affected_job)).

Definition mark_agent_idle_hook_event (agent_id provider hook_event : string)
    (event_id reply : option string) : M CcbdError (nat * option string) :=
  affected_job ← affected_job_id agent_id;
  outcome ← mark_agent_idle_hook_event_outcome_sync agent_id provider hook_event event_id reply None;
  outcome ← publish_outcome agent_id affected_job outcome;
  mret (outcome.(mo_changes), outcome.(mo_affected_job)).

End StateMachine.

(** ** Soundness of every transition *)

Section StateMachineSound.
Context {EXT : Externals}.

Lemma sound_seal {E} agent_id : respects sound (seal_pending_evidence agent_id : M E unit).
Proof.
  assert (Hs : ∀ v, evidence_evolves v (seal_evidence agent_id v)).
  { intros v. unfold seal_evidence. by destruct (_ && _). }
  intros w. unfold seal_pending_evidence, modify_db. simpl. split.
  - split; simpl; try reflexivity. intros id v Hv. exists (seal_evidence agent_id v).
    by rw lookup_fmap Hv.
  - intros [Hwf Haud]. split; [|by eapply audit_ok_proper]. destruct Hwf. split; simpl; eauto.
    + intros id v. rw lookup_fmap fmap_Some. intros (v0 & Hv & ->).
      by rw (vev_id _ _ (Hs v0)); eauto.
    + intros id v. rw lookup_fmap fmap_Some. intros (v0 & Hv & ->).
      destruct (Hs v0) as [_ -> -> -> _]. eauto.
Qed.
#[local] Hint Resolve sound_seal : respects.

Lemma sound_late_allows agent_id job_id :
  respects sound (late_health_completion_stuck_allows_terminal agent_id job_id).
Proof. unfold late_health_completion_stuck_allows_terminal. solve_respects. Qed.

Lemma sound_latest_marker agent_id seq : respects sound (latest_ah_idle_marker_job_id agent_id seq).
Proof. unfold latest_ah_idle_marker_job_id. solve_respects. Qed.

Lemma sound_denial agent_id job : respects sound (evidence_denial_for_job agent_id job).
Proof. unfold evidence_denial_for_job. solve_respects. Qed.

Lemma sound_denied_event agent_id job_id message :
  respects sound (insert_evidence_denied_event agent_id job_id message).
Proof. unfold insert_evidence_denied_event. solve_respects. Qed.

Lemma sound_deferral agent_id job_id reply prev ver :
  respects sound (handle_completion_deferral_sync agent_id job_id reply prev ver).
Proof.
  unfold handle_completion_deferral_sync, has_completion_deferred_event,
    insert_completion_deferred_event. solve_respects.
Qed.

Lemma sound_resolve_job job_id reply cancel : respects sound (resolve_job job_id reply cancel).
Proof. unfold resolve_job. solve_respects. Qed.
#[local] Hint Resolve sound_late_allows sound_latest_marker sound_denial sound_denied_event
  sound_deferral sound_resolve_job : respects.

Lemma sound_late_stuck_job agent_id prev : respects sound (late_stuck_job agent_id prev).
Proof. unfold late_stuck_job. solve_respects. Qed.

Lemma sound_signalled_reply source agent_id job reply :
  respects sound (signalled_reply source agent_id job reply).
Proof. unfold signalled_reply. solve_respects. Qed.

Lemma sound_affected_job agent_id : respects sound (affected_job_id agent_id).
Proof. unfold affected_job_id. solve_respects. Qed.

Lemma sound_publish_outcome agent_id job outcome :
  respects sound (publish_outcome agent_id job outcome).
Proof. unfold publish_outcome. solve_respects. Qed.

Lemma sound_idle_matched_inner agent_id ver prev djr reason stuck :
  respects sound (mark_agent_idle_matched_conn_inner agent_id ver prev djr reason stuck).
Proof. unfold mark_agent_idle_matched_conn_inner. solve_respects. Qed.
#[local] Hint Resolve sound_late_stuck_job sound_signalled_reply sound_affected_job
  sound_publish_outcome sound_idle_matched_inner : respects.

Lemma sound_marker_sync agent_id :
  respects sound (mark_agent_idle_matched_outcome_sync agent_id).
Proof.
  unfold mark_agent_idle_matched_outcome_sync, mark_agent_idle_matched_outcome_sync_inner,
    query_agent_row. cbv beta zeta. solve_respects.
Qed.

Lemma sound_hook_sync agent_id provider ev eid reply ver :
  respects sound (mark_agent_idle_hook_event_outcome_sync agent_id provider ev eid reply ver).
Proof.
  unfold mark_agent_idle_hook_event_outcome_sync, query_agent_row. cbv beta zeta. solve_respects.
Qed.

Lemma sound_log_sync agent_id provider reply path off turn :
  respects sound (mark_agent_idle_log_event_outcome_sync agent_id provider reply path off turn).
Proof.
  unfold mark_agent_idle_log_event_outcome_sync, query_agent_row. cbv beta zeta. solve_respects.
Qed.
#[local] Hint Resolve sound_marker_sync sound_hook_sync sound_log_sync : respects.

Lemma sound_idle_matched agent_id : respects sound (mark_agent_idle_matched agent_id).
Proof. unfold mark_agent_idle_matched, mark_agent_idle_matched_outcome. solve_respects. Qed.

Lemma sound_idle_log_event agent_id provider reply path off turn :
  respects sound (mark_agent_idle_log_event agent_id provider reply path off turn).
Proof. unfold mark_agent_idle_log_event, mark_agent_idle_log_event_outcome. solve_respects. Qed.

Lemma sound_idle_hook_event agent_id provider ev eid reply :
  respects sound (mark_agent_idle_hook_event agent_id provider ev eid reply).
Proof. unfold mark_agent_idle_hook_event. solve_respects. Qed.

Lemma sound_stuck agent_id reason : respects sound (mark_agent_stuck agent_id reason).
Proof.
  unfold mark_agent_stuck, mark_agent_stuck_outcome_sync, query_agent_row, notify_event.
  cbv beta zeta. solve_respects.
Qed.

Lemma sound_unknown evidence_id agent_id reason pane rules :
  respects sound (mark_agent_unknown evidence_id agent_id reason pane rules).
Proof.
  unfold mark_agent_unknown, mark_agent_unknown_sync, query_agent_row. cbv beta zeta. solve_respects.
Qed.

End StateMachineSound.
#[export] Hint Resolve sound_idle_matched sound_idle_log_event sound_idle_hook_event sound_stuck
  sound_unknown sound_marker_sync sound_hook_sync sound_log_sync : respects.
