(* ===== verification/Events.v ===== *)
(** * The event log ([src/src/db/events.rs], [src/src/db/events_progress.rs])

    Events are numbered in the order they are inserted, and a client follows an
    agent by asking for the events after the last number it has seen.  A request
    id makes an insertion idempotent: the second one is answered with the number
    of the first.  The one writer that changes a stored event is
    [record_send_progress_sync], which replaces the payload of the event a send
    was recorded under. *)
From S2P Require Import Prelude Json Schema Sql MasterTables JobGate Invariant AgentGate Text ReplyText Jobs.
From S2P Require Import Completion Evidence StateMachine.

Definition UNKNOWN_PATTERN_STABLE : string := "UNKNOWN_PATTERN_STABLE".

Section Events.
Context {EXT : Externals}.

(** ** Queries *)

(** [?x IS NULL OR p(?x)] *)
Definition when_given {A : Type} (o : option A) (p : A → bool) : bool :=
  match o with None => true | Some a => p a end.

Definition event_of (agent_id : string) (db : Db) : list Event :=
  filter (λ e, e.(e_agent_id) = agent_id) db.(events).

(** [ORDER BY seq_id ASC] *)
Definition seq_le : relation Event := λ e f, e.(e_seq_id) ≤ f.(e_seq_id).
#[global] Instance seq_le_dec : RelDecision seq_le.
Proof. unfold seq_le. intros e f. apply _. Defined.
(** [ORDER BY seq_id DESC] *)
Definition seq_ge : relation Event := λ e f, f.(e_seq_id) ≤ e.(e_seq_id).
#[global] Instance seq_ge_dec : RelDecision seq_ge.
Proof. unfold seq_ge. intros e f. apply _. Defined.

Definition event_by_request (agent_id request_id : string) (db : Db) : option Event :=
  head (filter (λ e, e.(e_request_id) = Some request_id) (event_of agent_id db)).

Definition query_event_by_request_id_sync (agent_id request_id : string) :
    M CcbdError (option Event) :=
  gets (event_by_request agent_id request_id).

Definition query_events_since_sync (agent_id : string) (since_seq_id : Z) :
    M CcbdError (list Event) :=
  gets (λ db, order_by seq_le (filter (λ e, since_seq_id < e.(e_seq_id)) (event_of agent_id db))).

Definition query_last_event_of_type_sync (agent_id event_type : string) :
    M CcbdError (option Event) :=
  gets (λ db, head (order_by seq_ge
          (filter (λ e, e.(e_event_type) = event_type) (event_of agent_id db)))).

Definition query_last_event_of_type_matching_payload_sync (agent_id event_type payload_like : string)
    (before_seq_id : option Z) : M CcbdError (option Event) :=
  gets (λ db, head (order_by seq_ge
          (filter (λ e, e.(e_event_type) = event_type ∧ like e.(e_payload) payload_like = true ∧
                        when_given before_seq_id (λ b, e.(e_seq_id) <? b) = true)
             (event_of agent_id db)))).

(** [SELECT COUNT( * ) > 0] of the agent's state changes whose payload matches
    both patterns *)
Definition state_change_like (agent_id reason_like payload_like : string) (db : Db) : bool :=
  existsb (λ e, (e.(e_event_type) == "state_change") && like e.(e_payload) reason_like &&
                like e.(e_payload) payload_like) (event_of agent_id db).

Definition quote : string := byte_str 34.

(** [format!("%\"key\":\"{value}\"%")] *)
Definition field_pattern (key value : string) : string :=
  "%" +:+ quote +:+ key +:+ quote +:+ ":" +:+ quote +:+ value +:+ quote +:+ "%".

Definition has_queued_starvation_alerted (agent_id job_id : string) : M CcbdError bool :=
  gets (state_change_like agent_id (field_pattern "reason" "QUEUED_STARVATION_ALERT")
          (field_pattern "job_id" job_id)).

Definition has_prompt_pending_suppression_escalated (agent_id hash : string) : M CcbdError bool :=
  gets (state_change_like agent_id
          (field_pattern "reason" "PROMPT_PENDING_SUPPRESSION_ESCALATED")
          (field_pattern "hash" hash)).

(** ** Frames *)

Definition event_type_to_frame_kind (event_type : string) (payload : option Value) : string :=
  if event_type == UNKNOWN_PATTERN_STABLE then "unknown_pattern"
  else if event_type == "UNKNOWN_PROMPT_DETECTED" then "unknown_prompt"
  else if (event_type == "state_change") && ((payload ≫= get_str "to") == Some "STUCK") then "stuck"
  else event_type.

Definition event_frame_from_parts (seq_id : Z) (event_type agent_id : string)
    (state : option string) (payload : string) : EventFrame :=
  let payload_value := json_from_str payload in
  let job_id := payload_value ≫= get_str "job_id" in
  let state' := v ← payload_value;
                (match value_get "to" v with Some x => Some x | None => value_get "state" v end)
                  ≫= as_str in
  MkEventFrame seq_id (event_type_to_frame_kind event_type payload_value) agent_id job_id
    (match state' with Some s => Some s | None => state end) payload_value.

(** A row of [events e JOIN agents a ON a.id = e.agent_id] *)
Definition event_frame (db : Db) (e : Event) : option EventFrame :=
  (λ a, event_frame_from_parts e.(e_seq_id) e.(e_event_type) e.(e_agent_id) (Some a.(a_state))
          e.(e_payload)) <$> db.(agents) !! e.(e_agent_id).

Definition query_events_backfill_sync (since_seq_id : Z) (agent_id : option string)
    (kinds : option (list string)) : M CcbdError (list EventFrame) :=
  gets (λ db,
    filter (λ f, when_given kinds (λ kinds, f.(fr_kind) is_in kinds) = true)
      (omap (event_frame db) (order_by seq_le
         (filter (λ e, since_seq_id < e.(e_seq_id) ∧
                       when_given agent_id (λ a, e.(e_agent_id) == a) = true)
            db.(events))))).

(** ** Insertion *)

Definition insert_event_sync (agent_id : string) (request_id : option string)
    (event_type payload : string) : M CcbdError Z :=
  result ← try_ (insert_event_row agent_id request_id event_type payload);
  match result with
  | Ok seq => mret seq
  | Err err =>
      match is_unique_constraint_error err, request_id with
      | true, Some request_id =>
          existing ← gets (event_by_request agent_id request_id);
          match existing with
          | Some e => throw (DuplicateRequest e.(e_seq_id))
          | None => throw (map_db_error "query duplicate event by request_id" QueryReturnedNoRows)
          end
      | _, _ => throw (map_db_error "insert event" err)
      end
  end.

Definition insert_event (agent_id : string) (request_id : option string)
    (event_type payload : string) : M CcbdError Z :=
  let should_try_idle_marker := (event_type == "output_chunk") &&
    bool_decide (is_Some (extract_ah_idle_marker_job_id (chunk_text payload))) in
  seq_id ← insert_event_sync agent_id request_id event_type payload;
  when should_try_idle_marker (
    r ← try_ (mark_agent_idle_matched agent_id);
    match r with
    | Ok (changes, affected_job) =>
        when (bool_decide (0 < changes)%nat) (
          match affected_job with Some job_id => notify_job_update job_id | None => mret tt end;;
          wake_up)
    | Err _ => mret tt
    end);;
  mret seq_id.

Definition insert_event_and_notify (agent_id : string) (request_id : option string)
    (event_type payload : string) : M CcbdError EventFrame :=
  seq_id ← insert_event_sync agent_id request_id event_type payload;
  state ← gets (λ db, a_state <$> db.(agents) !! agent_id);
  let frame := event_frame_from_parts seq_id event_type agent_id state payload in
  notify_event frame;;
  mret frame.

(** ** Progress of a send *)

(** [UPDATE events SET payload = ? WHERE seq_id = ?] *)
Definition set_event_payload (seq_id : Z) (payload : string) (e : Event) : Event :=
  if e.(e_seq_id) =? seq_id then
    MkEvent e.(e_seq_id) e.(e_agent_id) e.(e_request_id) e.(e_event_type) payload e.(e_created_at)
  else e.

Definition record_send_progress_sync (seq_id : Z) (final_payload : Value) (agent_id : string)
    (write_succeeded : bool) : M CcbdError unit :=
  transaction (
    modify_db (λ db, set_events
      (set_event_payload seq_id (json_to_string final_payload) <$> db.(events)) db);;
    mret (Commit tt)).

(** ** Soundness *)

Lemma sound_insert_event_sync agent_id request_id ty payload :
  respects sound (insert_event_sync agent_id request_id ty payload).
Proof. unfold insert_event_sync. solve_respects. Qed.
#[local] Hint Resolve sound_insert_event_sync : respects.

Lemma sound_insert_event agent_id request_id ty payload :
  respects sound (insert_event agent_id request_id ty payload).
Proof. unfold insert_event, wake_up. solve_respects. Qed.

Lemma sound_insert_event_notify agent_id request_id ty payload :
  respects sound (insert_event_and_notify agent_id request_id ty payload).
Proof. unfold insert_event_and_notify, notify_event. solve_respects. Qed.

End Events.

#[export] Hint Resolve sound_insert_event sound_insert_event_notify : respects.
