(* ===== verification/Perception.v ===== *)
(** * The perception gate and channel ([src/src/db/perception/])

    [gate.rs]: a compare-and-set on an agent's state and version for the
    perception arbiter.  [events.rs]: observations of an agent as typed events
    of the common event log; [types.rs]: their types. *)
From S2P Require Import Prelude Json Schema Sql MasterTables JobGate Invariant AgentGate Events.

Inductive PerceptionLayer : Type := LayerOs | LayerLog | LayerHook.
Inductive Verdict : Type := VTrue | VFalse | VUnknown.

Record PerceptionEvent : Type := MkPerceptionEvent {
  pe_agent_id : string;
  pe_layer : PerceptionLayer;
  pe_verdict : Verdict;
  pe_epoch : Z;
  pe_observed_at : Z;
  pe_detail : Value
}.

Definition layer_str (layer : PerceptionLayer) : string :=
  match layer with LayerOs => "Os" | LayerLog => "Log" | LayerHook => "Hook" end.
Definition verdict_str (verdict : Verdict) : string :=
  match verdict with VTrue => "True" | VFalse => "False" | VUnknown => "Unknown" end.

Definition parse_layer (s : string) : Result PerceptionLayer CcbdError :=
  if s is_in ["Os"; "os"] then Ok LayerOs
  else if s is_in ["Log"; "log"] then Ok LayerLog
  else if s is_in ["Hook"; "hook"] then Ok LayerHook
  else Err (DbConstraintViolation ("unknown layer: " +:+ s)).
Definition parse_verdict (s : string) : Result Verdict CcbdError :=
  if s is_in ["True"; "true"] then Ok VTrue
  else if s is_in ["False"; "false"] then Ok VFalse
  else if s is_in ["Unknown"; "unknown"] then Ok VUnknown
  else Err (DbConstraintViolation ("unknown verdict: " +:+ s)).

Section Perception.
Context {EXT : Externals}.

Definition transit_agent_perception_state_sync (agent_id : string) (from_states : list string)
    (to_state reason : string) (expected_version : Z) : M CcbdError bool :=
  current ← query_agent_row agent_id;
  match current with
  | None => mret false
  | Some current =>
      if negb (current.(a_state_version) =? expected_version) then mret false
      else if negb (current.(a_state) is_in from_states) then mret false
      else
      rows_affected ← update_agent agent_id (λ a, a.(a_state_version) =? expected_version)
        (λ a, set_a_state_version (expected_version + 1) (set_a_state to_state a));
      if rows_affected == 0%nat then mret false
      else
      insert_event_null "insert state_change event in perception gate" agent_id "state_change"
        (json_object [("from", JString current.(a_state)); ("to", JString to_state);
                      ("reason", JString reason)]);;
      mret true
  end.

Definition perception_payload (layer : PerceptionLayer) (verdict : Verdict) (epoch observed_at : Z)
    (detail : Value) : Value :=
  json_object [("layer", JString (layer_str layer)); ("verdict", JString (verdict_str verdict));
               ("epoch", JNumber epoch); ("observed_at", JNumber observed_at); ("detail", detail)].

Definition emit_perception_event_sync (agent_id : string) (layer : PerceptionLayer)
    (verdict : Verdict) (epoch observed_at : Z) (detail : Value) : M CcbdError Z :=
  insert_event_null "insert perception event" agent_id "perception"
    (perception_payload layer verdict epoch observed_at detail).

(** [value[key]]: [null] when there is no such key. *)
Definition value_index (key : string) (v : Value) : Value := default JNull (value_get key v).

Definition ok_or {A : Type} (o : option A) (details : string) : Result A CcbdError :=
  match o with Some a => Ok a | None => Err (DbConstraintViolation details) end.

(** [?] on a [Result] *)
Definition and_then {A B E : Type} (r : Result A E) (k : A → Result B E) : Result B E :=
  match r with Ok a => k a | Err e => Err e end.

Definition decode_perception_event (agent_id payload : string) :
    Result PerceptionEvent CcbdError :=
  and_then (ok_or (json_from_str payload)
    ("invalid json in perception event payload: " +:+ json_error_display payload)) (λ value,
  and_then (ok_or (as_str (value_index "layer" value)) "missing layer field") (λ layer,
  and_then (parse_layer layer) (λ layer,
  and_then (ok_or (as_str (value_index "verdict" value)) "missing verdict field") (λ verdict,
  and_then (parse_verdict verdict) (λ verdict,
  and_then (ok_or (as_i64 (value_index "epoch" value)) "missing or invalid epoch field") (λ epoch,
  and_then (ok_or (as_i64 (value_index "observed_at" value))
    "missing or invalid observed_at field") (λ observed_at,
  Ok (MkPerceptionEvent agent_id layer verdict epoch observed_at
        (value_index "detail" value))))))))).

Fixpoint decode_perception_events (agent_id : string) (payloads : list string) :
    Result (list PerceptionEvent) CcbdError :=
  match payloads with
  | [] => Ok []
  | payload :: payloads =>
      and_then (decode_perception_event agent_id payload) (λ e,
      and_then (decode_perception_events agent_id payloads) (λ es, Ok (e :: es)))
  end.

Definition perception_payloads (agent_id : string) (db : Db) : list string :=
  e_payload <$> order_by seq_le
    (filter (λ e, e.(e_event_type) = "perception") (event_of agent_id db)).

Definition query_perception_events_sync (agent_id : string) : M CcbdError (list PerceptionEvent) :=
  payloads ← gets (perception_payloads agent_id);
  of_result (decode_perception_events agent_id payloads).

(** ** Soundness *)

Lemma sound_perception_gate agent_id from to reason version :
  respects sound (transit_agent_perception_state_sync agent_id from to reason version).
Proof. unfold transit_agent_perception_state_sync, query_agent_row. solve_respects. Qed.

Lemma sound_emit_perception agent_id layer verdict epoch observed detail :
  respects sound (emit_perception_event_sync agent_id layer verdict epoch observed detail).
Proof. unfold emit_perception_event_sync. solve_respects. Qed.

End Perception.

#[export] Hint Resolve sound_perception_gate sound_emit_perception : respects.
