(* ===== verification/Agents.v ===== *)
(** * Agents: insertion, lookup, deletion ([src/src/db/agents.rs])

    An agent is inserted by its spawn and may take the id of a killed one: the
    old row is deleted, with everything that refers to it, and a new one
    inserted.  Deletion cascades to the agent's jobs, events, evidence, intents
    and specs. *)
From S2P Require Import Prelude Json Schema Sql MasterTables JobGate Invariant AgentGate Text.

Section Agents.
Context {EXT : Externals}.

(** The row of [INSERT INTO agents (id, session_id, provider, state, pid)]. *)
Definition new_agent (now : Z) (agent_id session_id provider state : string) (pid : option Z) :
    Agent :=
  MkAgent agent_id session_id provider state 1 pid None None now None None 0 None false now.

Definition insert_agent_sync (agent_id session_id provider state : string) (pid : option Z) :
    M CcbdError unit :=
  if starts_with agent_id "master:" then
    throw (IpcInvalidRequest "agent_id prefix 'master:' is reserved for master hook sentinels")
  else
  now ← asks w_now;
  let row := new_agent now agent_id session_id provider state pid in
  result ← try_ (insert_agent_row row);
  match result with
  | Ok _ => mret tt
  | Err err =>
      if is_constraint_error err then
        existing ← query_agent_row agent_id;
        if (a_state <$> existing) != Some "KILLED" then throw (AgentAlreadyExists agent_id)
        else
        map_err (map_db_error "delete killed agent before insert") (delete_agent_row agent_id);;
        map_err (λ err, if is_constraint_error err then AgentAlreadyExists agent_id
                        else map_db_error "insert recycled agent" err)
          (insert_agent_row row)
      else throw (map_db_error "insert agent" err)
  end;;
  notify_runtime_agent_changed.

Definition update_agent_state_sync (agent_id new_state : string) : M CcbdError unit :=
  now ← asks w_now;
  changes ← update_agent agent_id (λ a, a.(a_state) != "CRASHED")
              (λ a, bump_version now (set_a_state new_state a));
  when (bool_decide (0 < changes)%nat) notify_runtime_agent_changed.

Definition update_agent_config_hash_sync (agent_id config_hash : string) : M CcbdError unit :=
  now ← asks w_now;
  update_agent agent_id (λ _, true)
    (λ a, set_a_updated_at now (set_a_config_hash (Some config_hash) a));;
  mret tt.

Definition query_agent_sync (agent_id : string) : M CcbdError (option Agent) :=
  query_agent_row agent_id.

(** [ORDER BY updated_at ASC, id ASC] *)
Definition updated_le : relation Agent :=
  lex_le (λ a b, a.(a_updated_at) < b.(a_updated_at)) (λ a b, a.(a_updated_at) = b.(a_updated_at))
    (λ a b, String.le a.(a_id) b.(a_id)).
#[global] Instance updated_le_dec : RelDecision updated_le.
Proof. unfold updated_le, lex_le. intros a b. apply _. Defined.

Definition query_agents_by_state_sync (state : string) : M CcbdError (list Agent) :=
  gets (λ db, order_by updated_le (filter (λ a, a.(a_state) = state) (table_rows db.(agents)))).

Definition agent_exists_sync (agent_id : string) : M CcbdError bool :=
  gets (λ db, bool_decide (is_Some (db.(agents) !! agent_id))).

Definition query_agent_state_sync (agent_id : string) : M CcbdError (option (string * Z)) :=
  gets (λ db, (λ a, (a.(a_state), a.(a_state_version))) <$> db.(agents) !! agent_id).

Definition delete_agent_sync (agent_id : string) : M CcbdError unit :=
  changes ← map_err (map_db_error "delete agent") (delete_agent_row agent_id);
  when (bool_decide (0 < changes)%nat) notify_runtime_agent_changed.

End Agents.

(** ** Deletion keeps the tables consistent *)

Section AgentsSound.
Context {EXT : Externals}.

Lemma existsb_false {A} (f : A → bool) l x : existsb f l = false → x ∈ l → f x = false.
Proof.
  intros Hl Hx. apply not_true_iff_false. intros Hf. apply not_true_iff_false in Hl.
  apply Hl, existsb_exists. exists x. by rw -list_elem_of_In.
Qed.

(** The surviving jobs of a cascade, and where they come from. *)
Lemma lookup_cascade_jobs id db k j :
  (cascade_agent id db).(jobs) !! k = Some j ↔ db.(jobs) !! k = Some j ∧ j.(j_agent_id) ≠ id.
Proof. simpl. by rw map_lookup_filter_Some. Qed.

Lemma lookup_cascade_agents id db k a :
  (cascade_agent id db).(agents) !! k = Some a ↔ k ≠ id ∧ db.(agents) !! k = Some a.
Proof. simpl. rw lookup_delete_Some. split; intros [? ?]; auto. Qed.

Lemma cascade_agent_live id db k :
  k ≠ id → is_Some (db.(agents) !! k) → is_Some ((cascade_agent id db).(agents) !! k).
Proof. intros Hne [a Ha]. exists a. by apply lookup_cascade_agents. Qed.

Lemma status_log_cascade id db k j :
  db_wf db → db.(jobs) !! k = Some j → j.(j_agent_id) ≠ id →
  status_log k (cascade_agent id db) = status_log k db.
Proof.
  intros Hwf Hj Hne. unfold status_log. simpl.
  apply filter_filter_impl. intros t Ht [Hk _].
  destruct (wf_audit _ Hwf _ Ht) as (j' & Hj' & Hag). assert (j' = j) as -> by congruence.
  split; [congruence|]. exists j. rw Hk. by apply map_lookup_filter_Some.
Qed.

Lemma wf_cascade id db :
  db_wf db → dangling_event_refs (cascade_agent id db) = false → db_wf (cascade_agent id db).
Proof.
  intros Hwf [Hdang _]%orb_false_iff.
  assert (Hev : ∀ k v, (cascade_agent id db).(evidence) !! k = Some v →
    v.(v_event_seq_id) ∈ e_seq_id <$> (cascade_agent id db).(events)).
  { intros k v Hv. assert (Hin : v ∈ table_rows (cascade_agent id db).(evidence)).
    { apply elem_of_table_rows. eauto. }
    pose proof (existsb_false _ _ _ Hdang Hin) as Hx. apply negb_false_iff, existsb_exists in Hx.
    destruct Hx as (e & He & Heq). apply list_elem_of_fmap. exists e.
    split; [lia|by apply list_elem_of_In]. }
  pose proof (cascade_agent_live id db) as Hlive.
  destruct Hwf as [Hak Hjk Hvk Has Hja Hea Hau Hve Hin Hsp Hrq Hro Hjw Hso Hbo]. split.
  - intros k a [_ Ha]%lookup_cascade_agents. eauto.
  - intros k j [Hj _]%lookup_cascade_jobs. eauto.
  - intros k v Hv. simpl in Hv. apply map_lookup_filter_Some in Hv as [Hv _]. eauto.
  - intros k a [_ Ha]%lookup_cascade_agents. simpl. eauto.
  - intros k j [Hj Hne]%lookup_cascade_jobs. eauto.
  - intros e He. simpl in He. apply list_elem_of_filter in He as [Hne He]. eauto.
  - intros t Ht. simpl in Ht. apply list_elem_of_filter in Ht as [[Hne [j Hj]] Ht].
    destruct (Hau _ Ht) as (j' & Hj' & Hag).
    exists j'. rw lookup_cascade_jobs. split; [split; congruence|done].
  - intros k v Hv. specialize (Hev k v Hv). simpl in Hv.
    apply map_lookup_filter_Some in Hv as [Hv [Hne Href]].
    destruct (Hve _ _ Hv) as (? & ? & ?). repeat split; eauto.
  - intros k. simpl. rw lookup_delete_is_Some. intros [Hne Hi]. by apply Hlive; [|eauto].
  - intros k. simpl. rw lookup_delete_is_Some. intros [Hne Hi]. by apply Hlive; [|eauto].
  - intros k1 k2 j1 j2 [? _]%lookup_cascade_jobs [? _]%lookup_cascade_jobs. eauto.
  - intros k1 k2 j1 j2 [? _]%lookup_cascade_jobs [? _]%lookup_cascade_jobs. eauto.
  - intros k j [Hj _]%lookup_cascade_jobs. eauto.
  - simpl. clear -Hso. induction (events db) as [|e l IH]; [done|].
    apply StronglySorted_inv in Hso as [Hs Hall].
    rw filter_cons. case_decide; [|eauto]. simpl. constructor; [eauto|].
    rw Forall_forall in Hall. apply Forall_forall. intros x (e' & -> & Hin)%list_elem_of_fmap.
    apply list_elem_of_filter in Hin as [_ Hin]. apply Hall, list_elem_of_fmap. eauto.
  - intros e He. simpl in He. apply list_elem_of_filter in He as [_ He]. eauto.
Qed.

Lemma consistent_delete_agent id : preserves consistent (delete_agent_row id).
Proof.
  intros w [Hwf Haud]. unfold delete_agent_row.
  destruct (agents _ !! id); [|done].
  destruct (dangling_event_refs _) eqn:Hd; [done|]. simpl. split; [by apply wf_cascade|].
  intros k j [Hj Hne]%lookup_cascade_jobs. rw (status_log_cascade _ _ _ j) //. by apply Haud.
Qed.
#[local] Hint Resolve consistent_delete_agent : respects.

Lemma consistent_notify_agent {E} : preserves consistent (notify_runtime_agent_changed : M E unit).
Proof. apply sound_consistent, sound_notify_agent. Qed.
#[local] Hint Resolve consistent_notify_agent : respects.

Lemma consistent_insert_agent_sync agent_id session_id provider state pid :
  preserves consistent (insert_agent_sync agent_id session_id provider state pid).
Proof. unfold insert_agent_sync, query_agent_row. solve_respects. Qed.

Lemma consistent_delete_agent_sync agent_id : preserves consistent (delete_agent_sync agent_id).
Proof. unfold delete_agent_sync. solve_respects. Qed.

Lemma sound_update_agent_state agent_id state :
  respects sound (update_agent_state_sync agent_id state).
Proof. unfold update_agent_state_sync. solve_respects. Qed.

Lemma sound_update_config_hash agent_id hash :
  respects sound (update_agent_config_hash_sync agent_id hash).
Proof. unfold update_agent_config_hash_sync. solve_respects. Qed.

End AgentsSound.
#[export] Hint Resolve consistent_delete_agent consistent_insert_agent_sync
  consistent_delete_agent_sync sound_update_agent_state sound_update_config_hash
  consistent_notify_agent : respects.
