(* ===== verification/LogReader.v ===== *)
(** * Tailing the provider's transcripts

    [src/src/completion/reader.rs], [log_layout.rs], [registry.rs] and
    [monitor.rs]: which files of a provider are transcripts, the offsets up to
    which they were read, the lines that complete a turn, and the monitor that
    polls them.  The directory tree is an input of each poll; the two regular
    expressions that find task names are a parameter. *)
From S2P Require Import Prelude Json Schema Sql Text Base64 Completion StateMachine Agents.
From Stdlib Require Import Ascii.

(** [Regex::captures_iter]: the groups of each match, the whole match first. *)
Class RegexCaptures := { regex_captures : string → string → list (list string) }.

(** ** The bytes of a line as text: [String::from_utf8_lossy] *)

(** The bytes of the first character, or of the longest ill-formed prefix that
    one U+FFFD stands for. *)
Definition utf8_first (l : Bytes) : bool * nat :=
  match l with
  | [] => (true, 0%nat)
  | b0 :: l0 =>
      let second ok := match l0 with b1 :: _ => ok b1 | [] => false end in
      let at_ i := match l0 !! i with Some b => continuation b | None => false end in
      if between 0 127 b0 then (true, 1%nat)
      else if between 194 223 b0 then if second continuation then (true, 2%nat) else (false, 1%nat)
      else if between 224 239 b0 then
        if second (between (if b0 =? 224 then 160 else 128) (if b0 =? 237 then 159 else 191)) then
          if at_ 1%nat then (true, 3%nat) else (false, 2%nat)
        else (false, 1%nat)
      else if between 240 244 b0 then
        if second (between (if b0 =? 240 then 144 else 128) (if b0 =? 244 then 143 else 191)) then
          if at_ 1%nat then if at_ 2%nat then (true, 4%nat) else (false, 3%nat) else (false, 2%nat)
        else (false, 1%nat)
      else (false, 1%nat)
  end.

Fixpoint lossy_go (fuel : nat) (l : Bytes) : Bytes :=
  match fuel, l with
  | S fuel', _ :: _ =>
      let '(ok, n) := utf8_first l in
      (if (ok : bool) then take n l else [239; 191; 189]) ++ lossy_go fuel' (drop n l)
  | _, _ => []
  end.
Definition from_utf8_lossy (l : Bytes) : string := of_bytes (lossy_go (length l) l).

(** ** Files *)

(** An absolute path by its components, ["/"] first. *)
Definition Path : Type := list string.

Definition path_display (p : Path) : string :=
  match p with
  | [] => ""
  | root :: rest => root +:+ join "/" rest
  end.

(** [PathBuf]'s order: component by component. *)
Fixpoint path_compare (p q : Path) : comparison :=
  match p, q with
  | [], [] => Eq
  | [], _ :: _ => Lt
  | _ :: _, [] => Gt
  | a :: p', b :: q' => match String.compare a b with Eq => path_compare p' q' | c => c end
  end.

(** What the file system answers: the length and the content of a regular file,
    the entries of a directory; a symbolic link or a device is [FsOther].  [Err]:
    the call fails. *)
Inductive FsNode : Type :=
| FsFile (len : Result nat string) (content : Result Bytes string)
| FsDir (entries : Result (list (string * FsNode)) string)
| FsOther.

Record LogFile : Type := MkLogFile {
  lf_path : Path;
  lf_len : Result nat string;
  lf_content : Result Bytes string
}.

Definition file_le : relation LogFile := λ a b, path_compare a.(lf_path) b.(lf_path) ≠ Gt.
#[global] Instance file_le_dec : RelDecision file_le.
Proof. unfold file_le. intros a b. apply _. Defined.

(** [Path::extension] *)
Definition extension (name : string) : option string :=
  match rsplit_once "."%char name with
  | Some (stem, ext) => if stem == "" then None else Some ext
  | None => None
  end.

Definition antigravity_transcript_path_matches (components : Path) : bool :=
  let len := length components in
  bool_decide (5 ≤ len)%nat &&
  bool_decide (components !! (len - 5)%nat = Some "brain") &&
  bool_decide (components !! (len - 3)%nat = Some ".system_generated") &&
  bool_decide (components !! (len - 2)%nat = Some "logs") &&
  bool_decide (components !! (len - 1)%nat = Some "transcript.jsonl").

Definition provider_log_file_matches (provider : string) (path : Path) : bool :=
  let name := default "" (last path) in
  if provider == "codex" then starts_with name "rollout-" && ends_with name ".jsonl"
  else if provider == "claude" then extension name == Some "jsonl"
  else if provider == "antigravity" then antigravity_transcript_path_matches path
  else false.

Definition provider_requires_user_entry (provider : string) : bool :=
  provider is_in ["claude"; "antigravity"].

(** The recursive walk; the caller has seen that the directory exists. *)
Fixpoint collect_dir (provider : string) (path : Path) (node : FsNode) :
    Result (list LogFile) string :=
  match node with
  | FsDir (Err e) => Err e
  | FsDir (Ok entries) =>
      (fix go (entries : list (string * FsNode)) : Result (list LogFile) string :=
         match entries with
         | [] => Ok []
         | (name, child) :: entries' =>
             let p := path ++ [name] in
             match (match child with
                    | FsDir _ => collect_dir provider p child
                    | FsFile len content =>
                        Ok (if provider_log_file_matches provider p
                            then [MkLogFile p len content] else [])
                    | FsOther => Ok []
                    end) with
             | Err e => Err e
             | Ok here =>
                 match go entries' with Err e => Err e | Ok more => Ok (here ++ more) end
             end
         end) entries
  | _ => Err "Not a directory (os error 20)"
  end.

(** [root] is [None] when it does not exist. *)
Definition collect_provider_log_files (provider : string) (root_path : Path)
    (root : option FsNode) : Result (list LogFile) string :=
  match root with
  | None => Ok []
  | Some node => collect_dir provider root_path node
  end.

(** [collect_provider_log_files], then [files.sort()]. *)
Definition log_files (provider : string) (root_path : Path) (root : option FsNode) :
    Result (list LogFile) string :=
  match collect_provider_log_files provider root_path root with
  | Err e => Err e
  | Ok files => Ok (order_by file_le files)
  end.

(** ** Cursors *)

Definition LogCursorMap : Type := gmap Path nat.

Record LogReadState : Type := MkLogReadState {
  cursors : LogCursorMap;
  user_entry_seen_paths : gset Path
}.
Definition from_cursors (c : LogCursorMap) : LogReadState := MkLogReadState c ∅.

Record LogCompletion : Type := MkLogCompletion {
  lc_parsed : LogParseResult;
  lc_raw_path : Path;
  lc_raw_offset : nat
}.

Fixpoint baseline (c : LogCursorMap) (files : list LogFile) : Result LogCursorMap string :=
  match files with
  | [] => Ok c
  | f :: files' =>
      match f.(lf_len) with
      | Err e => Err e
      | Ok len => baseline (<[f.(lf_path) := len]> c) files'
      end
  end.

Definition collect_provider_log_cursors (provider : string) (root_path : Path)
    (root : option FsNode) : Result LogCursorMap string :=
  match log_files provider root_path root with
  | Err e => Err e
  | Ok files => baseline ∅ files
  end.

(** ** Lines *)

Definition NEWLINE : Z := 10.
Definition newline_at (l : Bytes) : option nat := fst <$> list_find (λ b, b = NEWLINE) l.

Definition parse_start_offset (bytes : Bytes) (consumed_offset : nat) : nat :=
  let start := Nat.min consumed_offset (length bytes) in
  if bool_decide (0 < start < length bytes)%nat &&
     bool_decide (bytes !! (start - 1)%nat ≠ Some NEWLINE) then
    match newline_at (drop start bytes) with
    | Some position => (start + position + 1)%nat
    | None => length bytes
    end
  else start.

Definition line_end (bytes : Bytes) (line_start : nat) : nat :=
  (line_start + default (length bytes - line_start) (newline_at (drop line_start bytes)))%nat.
Definition next_line_start (bytes : Bytes) (line_end : nat) : nat :=
  if bool_decide (bytes !! line_end = Some NEWLINE) then S line_end else line_end.
Definition slice (bytes : Bytes) (a b : nat) : Bytes := take (b - a) (drop a bytes).

Section Reader.
Context {EXT : Externals} {RX : RegexCaptures}.

(** ** Tasks that are still running *)

Definition RE_TASK_ID : string := "[a-zA-Z0-9\-]+/task-\d+".
Definition RE_TASK_FINISHED : string :=
  "Task id " +:+ byte_str 34 +:+ "([^" +:+ byte_str 34 +:+ "]+)" +:+ byte_str 34 +:+
  " (?:was )?(?:finished|cancell?ed)".

Definition captured (group : nat) (pattern text : string) : gset string :=
  list_to_set (omap (λ caps, caps !! group) (regex_captures pattern text)).

(** [serde_json::from_slice]: the bytes must be UTF-8. *)
Definition json_of_bytes (bytes : Bytes) : option Value :=
  if valid_utf8 bytes then json_from_str (of_bytes bytes) else None.

Definition task_line (line : Bytes) (tasks : gset string * gset string) :
    gset string * gset string :=
  match json_of_bytes line ≫= get_str "content" with
  | None => tasks
  | Some content =>
      let started :=
        if contains content "Status: RUNNING" || contains content "running as a background task"
        then captured 0 RE_TASK_ID content else ∅ in
      (tasks.1 ∪ started, tasks.2 ∪ captured 1 RE_TASK_FINISHED content)
  end.

Fixpoint task_lines (fuel : nat) (bytes : Bytes) (offset : nat) (tasks : gset string * gset string) :
    gset string * gset string :=
  match fuel with
  | O => tasks
  | S fuel' =>
      if bool_decide (offset < length bytes)%nat then
        let e := line_end bytes offset in
        let line := slice bytes offset e in
        task_lines fuel' bytes (S e) (if line == [] then tasks else task_line line tasks)
      else tasks
  end.

Definition has_pending_tasks_in_transcript (bytes : Bytes) : bool :=
  let '(started, finished) := task_lines (S (length bytes)) bytes 0 (∅, ∅) in
  negb (bool_decide (started ∖ finished = ∅)).

(** ** The lines of one file *)

Record ScanState : Type := MkScanState {
  ss_seen_user_entry : bool;
  ss_seen_paths : gset Path;
  ss_completions : list LogCompletion
}.

Definition scan_line (provider : string) (path : Path) (bytes : Bytes) (line_start : nat)
    (st : ScanState) : ScanState :=
  let e := line_end bytes line_start in
  let requires_user_entry := provider_requires_user_entry provider in
  let line := slice bytes line_start e in
  if line == [] then st
  else
  let parsed := parse_provider_log_line provider (from_utf8_lossy line) in
  match parsed with
  | UserMessage _ =>
      if requires_user_entry
      then MkScanState true ({[path]} ∪ st.(ss_seen_paths)) st.(ss_completions) else st
  | TurnComplete _ _ =>
      if negb requires_user_entry || st.(ss_seen_user_entry) then
        if (provider == "antigravity") && has_pending_tasks_in_transcript (take e bytes) then st
        else
        let done := st.(ss_completions) ++ [MkLogCompletion parsed path (next_line_start bytes e)] in
        if requires_user_entry then MkScanState false (st.(ss_seen_paths) ∖ {[path]}) done
        else MkScanState st.(ss_seen_user_entry) st.(ss_seen_paths) done
      else st
  | _ => st
  end.

Fixpoint scan_lines (fuel : nat) (provider : string) (path : Path) (bytes : Bytes)
    (line_start : nat) (st : ScanState) : ScanState :=
  match fuel with
  | O => st
  | S fuel' =>
      if bool_decide (line_start < length bytes)%nat then
        let next := next_line_start bytes (line_end bytes line_start) in
        let st' := scan_line provider path bytes line_start st in
        if bool_decide (next = line_start) then st'
        else scan_lines fuel' provider path bytes next st'
      else st
  end.

(** One turn of the loop over the files; a line takes at least one byte. *)
Definition read_file (provider : string) (initial : LogReadState) (path : Path) (bytes : Bytes)
    (acc : list LogCompletion * LogReadState) : list LogCompletion * LogReadState :=
  let '(completions, updated) := acc in
  let consumed_offset := default 0%nat (initial.(cursors) !! path) in
  let start := parse_start_offset bytes consumed_offset in
  let requires_user_entry := provider_requires_user_entry provider in
  let seen_paths :=
    if requires_user_entry && bool_decide (length bytes < consumed_offset)%nat
    then updated.(user_entry_seen_paths) ∖ {[path]} else updated.(user_entry_seen_paths) in
  let seen := requires_user_entry && bool_decide (path ∈ seen_paths) in
  let st := scan_lines (S (length bytes)) provider path bytes start
              (MkScanState seen seen_paths completions) in
  (st.(ss_completions),
   MkLogReadState (<[path := length bytes]> updated.(cursors)) st.(ss_seen_paths)).

Fixpoint read_files (provider : string) (initial : LogReadState) (files : list LogFile)
    (acc : list LogCompletion * LogReadState) :
    Result (list LogCompletion * LogReadState) string :=
  match files with
  | [] => Ok acc
  | f :: files' =>
      match f.(lf_content) with
      | Err e => Err e
      | Ok bytes => read_files provider initial files' (read_file provider initial f.(lf_path) bytes acc)
      end
  end.

Definition read_provider_log_tail_with_state (provider : string) (root_path : Path)
    (root : option FsNode) (state : LogReadState) :
    Result (list LogCompletion * LogReadState) string :=
  match log_files provider root_path root with
  | Err e => Err e
  | Ok files => read_files provider state files ([], state)
  end.

Definition read_provider_log_tail (provider : string) (root_path : Path) (root : option FsNode)
    (c : LogCursorMap) : Result (list LogCompletion * LogReadState) string :=
  read_provider_log_tail_with_state provider root_path root (from_cursors c).

(** ** Signs of progress *)

Fixpoint progress_lines (fuel : nat) (provider : string) (bytes : Bytes) (line_start : nat) : bool :=
  match fuel with
  | O => false
  | S fuel' =>
      if bool_decide (line_start < length bytes)%nat then
        let e := line_end bytes line_start in
        let next := next_line_start bytes e in
        let line := slice bytes line_start e in
        if negb (line == []) &&
           provider_log_line_has_assistant_progress provider (from_utf8_lossy line) then true
        else if bool_decide (next = line_start) then false
        else progress_lines fuel' provider bytes next
      else false
  end.

Fixpoint progress_files (provider : string) (c : LogCursorMap) (files : list LogFile) :
    Result bool string :=
  match files with
  | [] => Ok false
  | f :: files' =>
      match f.(lf_content) with
      | Err e => Err e
      | Ok bytes =>
          let start := parse_start_offset bytes (default 0%nat (c !! f.(lf_path))) in
          if progress_lines (S (length bytes)) provider bytes start then Ok true
          else progress_files provider c files'
      end
  end.

Definition read_provider_assistant_progress_after_cursors (provider : string) (root_path : Path)
    (root : option FsNode) (c : LogCursorMap) : Result bool string :=
  match log_files provider root_path root with
  | Err e => Err e
  | Ok files => progress_files provider c files
  end.

Fixpoint pending_in_files (checked_any : bool) (files : list LogFile) : option bool :=
  match files with
  | [] => if checked_any then Some false else None
  | f :: files' =>
      match f.(lf_content) with
      | Err _ => pending_in_files checked_any files'
      | Ok bytes =>
          if has_pending_tasks_in_transcript bytes then Some true else pending_in_files true files'
      end
  end.

(** ** Where the transcripts are *)

Inductive LogRootResolution : Type :=
| Available (root : Path)
| Unavailable (reason : string).

Inductive ReadDir : Type := ReadDirOk | ReadDirNotFound | ReadDirFailed.

(** [home_root]: what [sandbox_home_for_sandbox_dir] answers for the agent's
    sandbox, as components; [read_dir]: what listing a directory answers. *)
Definition resolve_agent_log_root (home_root : option Path) (read_dir : Path → ReadDir)
    (provider : string) (unsafe_no_sandbox : bool) : LogRootResolution :=
  if unsafe_no_sandbox then Unavailable "unsafe_no_sandbox_shared_home"
  else match home_root with
  | None => Unavailable "sandbox_home_unavailable"
  | Some home =>
      let found (sub : Path) :=
        match read_dir (home ++ sub) with
        | ReadDirOk => Available (home ++ sub)
        | ReadDirNotFound => Unavailable "log_root_missing"
        | ReadDirFailed => Unavailable "log_root_unreadable"
        end in
      if provider == "codex" then found [".codex"; "sessions"]
      else if provider == "claude" then found [".claude"; "projects"]
      else if provider == "antigravity" then found [".gemini"; "antigravity-cli"]
      else Unavailable "unsupported_provider"
  end.

(** [tree]: what is found under a root. *)
Definition check_pending_tasks_from_log_root (home_root : option Path) (read_dir : Path → ReadDir)
    (tree : Path → option FsNode) (provider : string) : option bool :=
  match resolve_agent_log_root home_root read_dir provider false with
  | Unavailable _ => None
  | Available root =>
      match log_files provider root (tree root) with
      | Err _ => None
      | Ok files =>
          match baseline ∅ files with
          | Err _ => None
          | Ok _ => pending_in_files false files
          end
      end
  end.

End Reader.
