(* ===== verification/LogReaderProofs.v ===== *)
(** * The tail of a transcript: what polling reads

    A transcript that grows while it is polled is read as if it had been read
    once, provided every poll finds whole lines; a line that a poll finds
    unfinished is lost. *)
From S2P Require Import Prelude Json Schema Sql Text Base64 Completion LogReader.

(** ** Lines of a prefix *)

Definition line_complete (c : Bytes) : Prop := c = [] ∨ last c = Some NEWLINE.

Lemma newline_at_app l1 l2 i : newline_at l1 = Some i → newline_at (l1 ++ l2) = Some i.
Proof.
  unfold newline_at. destruct (list_find (λ b, b = NEWLINE) l1) as [[j b]|] eqn:Hf; [|done].
  simpl. intros [= ->]. by rw (list_find_app_l _ _ _ _ _ Hf).
Qed.

Lemma newline_at_spec l i :
  newline_at l = Some i → l !! i = Some NEWLINE ∧ (i < length l)%nat.
Proof.
  unfold newline_at. destruct (list_find _ l) as [[j b]|] eqn:Hf; [|done]. simpl. intros [= ->].
  apply list_find_Some in Hf as (Hl & -> & _). split; [done|by eapply lookup_lt_Some].
Qed.

Lemma newline_in_tail c a :
  last c = Some NEWLINE → (a < length c)%nat → ∃ i, newline_at (drop a c) = Some i.
Proof.
  intros Hlast Ha. unfold newline_at.
  destruct (list_find (λ b, b = NEWLINE) (drop a c)) as [[i b]|] eqn:Hf; [by exists i|].
  apply list_find_None in Hf. rw last_lookup in Hlast. exfalso.
  rewrite Forall_lookup in Hf. apply (Hf (pred (length c) - a)%nat NEWLINE); [|done].
  rw lookup_drop. by replace (a + (pred (length c) - a))%nat with (pred (length c)) by lia.
Qed.

Section Prefix.
Context (c x : Bytes).
Hypothesis whole : line_complete c.

Lemma prefix_line_end a :
  (a < length c)%nat →
  line_end (c ++ x) a = line_end c a ∧ (a ≤ line_end c a < length c)%nat ∧
  c !! line_end c a = Some NEWLINE.
Proof.
  intros Ha. destruct whole as [->|Hlast]; [simpl in Ha; lia|].
  destruct (newline_in_tail c a Hlast Ha) as [i Hi]. unfold line_end. rw Hi.
  rw drop_app_le; [lia|]. rw (newline_at_app _ x _ Hi). simpl.
  apply newline_at_spec in Hi as [Hl Hlt]. rw length_drop in Hlt. rw lookup_drop in Hl.
  split_and!; [done|lia|lia|done].
Qed.

Lemma prefix_next a :
  (a < length c)%nat →
  next_line_start (c ++ x) (line_end (c ++ x) a) = S (line_end c a) ∧
  next_line_start c (line_end c a) = S (line_end c a).
Proof.
  intros Ha. destruct (prefix_line_end a Ha) as (He & Hlt & Hn). rw He. unfold next_line_start.
  rw (lookup_app_l c x); [lia|]. by rw bool_decide_true.
Qed.

Lemma prefix_start k :
  (k ≤ length c)%nat →
  parse_start_offset (c ++ x) k = parse_start_offset c k ∧ (parse_start_offset c k ≤ length c)%nat.
Proof.
  intros Hk. unfold parse_start_offset. rw length_app !Nat.min_l; [lia|lia|].
  destruct (decide (k = 0%nat)) as [->|Hk0]; [simpl; split; [done|lia]|].
  destruct whole as [->|Hlast]; [simpl in Hk; lia|].
  destruct (decide (k = length c)) as [->|Hlt].
  - rw (bool_decide_false (0 < length c < length c)%nat); [lia|]. cbn [andb].
    rw (bool_decide_false ((c ++ x) !! _ ≠ _)); [|by rw andb_false_r].
    intros Hne. apply Hne. rw lookup_app_l; [lia|]. rw last_lookup in Hlast.
    by replace (length c - 1)%nat with (pred (length c)) by lia.
  - rw (bool_decide_true (0 < k < length c)%nat); [lia|].
    rw (bool_decide_true (0 < k < length c + length x)%nat); [lia|]. cbn [andb].
    rw (lookup_app_l c x); [lia|]. rw drop_app_le; [lia|].
    destruct (newline_in_tail c k Hlast) as [i Hi]; [lia|]. rw Hi (newline_at_app _ x _ Hi).
    apply newline_at_spec in Hi as [_ Hi]. rw length_drop in Hi.
    case_bool_decide; split; done || lia.
Qed.

Lemma prefix_resumes : parse_start_offset (c ++ x) (length c) = length c.
Proof.
  destruct (prefix_start (length c)) as [-> _]; [lia|]. unfold parse_start_offset.
  rw Nat.min_id (bool_decide_false (0 < length c < length c)%nat); [lia|]. done.
Qed.

End Prefix.

Section Scan.
Context {EXT : Externals} {RX : RegexCaptures}.
Context (provider : string) (path : Path).

(** ** Fuel *)

Lemma next_after bytes a :
  (a < length bytes)%nat →
  (a ≤ next_line_start bytes (line_end bytes a))%nat ∧
  (next_line_start bytes (line_end bytes a) = a → False).
Proof.
  intros Ha. unfold next_line_start, line_end.
  destruct (newline_at (drop a bytes)) as [i|] eqn:Hi; simpl.
  - apply newline_at_spec in Hi as [Hl _]. rw lookup_drop in Hl.
    rw bool_decide_true; [done|]. lia.
  - case_bool_decide; lia.
Qed.

Lemma scan_fuel bytes n1 : ∀ n2 a st,
  (length bytes - a < n1)%nat → (length bytes - a < n2)%nat →
  scan_lines n1 provider path bytes a st = scan_lines n2 provider path bytes a st.
Proof.
  induction n1 as [|n1 IH]; intros [|n2] a st H1 H2; try lia. cbn [scan_lines]. cbv zeta.
  case_bool_decide as Ha; [|done]. destruct (next_after bytes a Ha) as [Hle Hne].
  case_bool_decide as He; [done|]. apply IH; lia.
Qed.

(** ** A whole prefix and what follows *)

Lemma scan_line_prefix c x a st :
  line_complete c → (a < length c)%nat →
  scan_line provider path (c ++ x) a st = scan_line provider path c a st.
Proof.
  intros Hc Ha. destruct (prefix_line_end c x Hc a Ha) as (He & Hlt & _).
  destruct (prefix_next c x Hc a Ha) as [Hn Hn']. unfold scan_line. cbv zeta.
  rw Hn Hn' He. unfold slice. rw drop_app_le; [lia|]. rw (take_app_le (drop a c)); [rw length_drop; lia|].
  by rw (take_app_le c); [lia|].
Qed.

Lemma scan_split c x n : ∀ a st,
  line_complete c → (a ≤ length c)%nat → (length (c ++ x) - a < n)%nat →
  scan_lines n provider path (c ++ x) a st =
    scan_lines n provider path (c ++ x) (length c) (scan_lines n provider path c a st).
Proof.
  induction n as [|n IH]; intros a st Hc Ha Hn; [lia|].
  destruct (decide (a = length c)) as [->|Hlt].
  { f_equal. cbn [scan_lines]. by rw bool_decide_false; [lia|]. }
  rw length_app in Hn.
  transitivity (scan_lines n provider path (c ++ x) (S (line_end c a))
                  (scan_line provider path c a st)).
  { cbn [scan_lines]. cbv zeta. rw bool_decide_true; [rw length_app; lia|].
    destruct (prefix_next c x Hc a) as [-> _]; [lia|]. rw scan_line_prefix; [done|lia|].
    destruct (prefix_line_end c x Hc a) as (_ & ? & _); [lia|].
    by rw bool_decide_false; [lia|]. }
  destruct (prefix_line_end c x Hc a) as (_ & He & _); [lia|].
  rw IH; [done|lia|rw length_app; lia|].
  rw (scan_fuel (c ++ x) n (S n)); [rw length_app; lia|rw length_app; lia|]. f_equal.
  symmetry. cbn [scan_lines]. cbv zeta. rw bool_decide_true; [lia|].
  destruct (prefix_next c x Hc a) as [_ ->]; [lia|]. by rw bool_decide_false; [lia|].
Qed.

(** ** The sets and the list a scan starts with *)

Definition mark (seen : bool) (paths : gset Path) : gset Path :=
  if provider_requires_user_entry provider then
    if seen then {[path]} ∪ paths else paths ∖ {[path]}
  else paths.
Definition embed (paths : gset Path) (done : list LogCompletion) (st : ScanState) : ScanState :=
  MkScanState st.(ss_seen_user_entry) (mark st.(ss_seen_user_entry) paths)
    (done ++ st.(ss_completions)).

Lemma scan_line_embed bytes a P D st :
  scan_line provider path bytes a (embed P D st) = embed P D (scan_line provider path bytes a st).
Proof.
  unfold scan_line, embed, mark. cbv zeta. cbn [ss_seen_user_entry ss_seen_paths ss_completions].
  destruct (slice _ _ _ == []); [done|].
  destruct (parse_provider_log_line provider _); try done;
    destruct (provider_requires_user_entry provider); cbn [negb orb]; try done.
  - destruct (ss_seen_user_entry st) eqn:Hs; [|by rw Hs].
    destruct (_ && _); cbn [ss_seen_user_entry ss_completions]; [by rw Hs|]. f_equal; [set_solver|].
    by rw app_assoc.
  - destruct (_ && _); cbn [ss_seen_user_entry ss_completions]; [done|]. by rw app_assoc.
  - cbn [ss_seen_user_entry ss_completions]. f_equal. destruct (ss_seen_user_entry st); [set_solver|].
    apply leibniz_equiv. intros q. destruct (decide (q = path)); set_solver.
Qed.

Lemma scan_lines_embed bytes P D n : ∀ a st,
  scan_lines n provider path bytes a (embed P D st) =
    embed P D (scan_lines n provider path bytes a st).
Proof.
  induction n as [|n IH]; intros a st; [done|]. cbn [scan_lines]. cbv zeta.
  case_bool_decide; [|done]. rw scan_line_embed. by case_bool_decide.
Qed.

Lemma mark_seen (P : gset Path) :
  mark (provider_requires_user_entry provider && bool_decide (path ∈ P)) P = P.
Proof.
  unfold mark. destruct (provider_requires_user_entry provider); [|done]. cbn [andb].
  case_bool_decide; set_solver.
Qed.

Lemma mark_elem (b : bool) (P : gset Path) (q : Path) :
  q ∈ mark b P ↔ if provider_requires_user_entry provider && bool_decide (q = path) then b = true
                 else q ∈ P.
Proof.
  unfold mark. destruct (provider_requires_user_entry provider); cbn [andb]; [|done].
  case_bool_decide; destruct b; set_solver.
Qed.

Lemma mark_mark (b b' : bool) P : mark b (mark b' P) = mark b P.
Proof.
  unfold mark. destruct (provider_requires_user_entry provider); [|done].
  apply set_eq. intros q. destruct (decide (q = path)), b, b'; set_solver.
Qed.

(** Only the file's own path is reported. *)
Lemma scan_line_path bytes a st :
  Forall (λ lc, lc.(lc_raw_path) = path) st.(ss_completions) →
  Forall (λ lc, lc.(lc_raw_path) = path) (scan_line provider path bytes a st).(ss_completions).
Proof.
  intros Hst. unfold scan_line. cbv zeta. destruct (slice _ _ _ == []); [done|].
  destruct (parse_provider_log_line provider _); try done.
  - destruct (_ || _); [|done]. destruct (_ && _); [done|].
    destruct (provider_requires_user_entry provider); apply Forall_app; split; try done;
      by constructor.
  - by destruct (provider_requires_user_entry provider).
Qed.

Lemma scan_lines_path bytes n : ∀ a st,
  Forall (λ lc, lc.(lc_raw_path) = path) st.(ss_completions) →
  Forall (λ lc, lc.(lc_raw_path) = path)
    (scan_lines n provider path bytes a st).(ss_completions).
Proof.
  induction n as [|n IH]; intros a st Hst; [done|]. cbn [scan_lines]. cbv zeta.
  case_bool_decide; [|done]. pose proof (scan_line_path bytes a st Hst).
  case_bool_decide; [done|]. by apply IH.
Qed.

End Scan.

(** ** A poll *)

Section Polls.
Context {EXT : Externals} {RX : RegexCaptures}.
Context (provider : string) (root : Path).

Notation reading := (list LogCompletion * LogReadState)%type.

Definition cursor (s : LogReadState) (p : Path) : nat := default 0%nat (s.(cursors) !! p).
Definition awaiting_reply (s : LogReadState) (p : Path) : bool :=
  provider_requires_user_entry provider && bool_decide (p ∈ s.(user_entry_seen_paths)).

(** The scan of one file from a state, by itself. *)
Definition tail_of (s : LogReadState) (p : Path) (bytes : Bytes) : ScanState :=
  scan_lines (S (length bytes)) provider p bytes (parse_start_offset bytes (cursor s p))
    (MkScanState (awaiting_reply s p) ∅ []).

Lemma tail_of_path s p bytes :
  Forall (λ lc, lc.(lc_raw_path) = p) (tail_of s p bytes).(ss_completions).
Proof. unfold tail_of. by apply scan_lines_path. Qed.

(** [initial] and [updated] agree on the file. *)
Lemma read_file_tail initial updated done p bytes :
  (cursor initial p ≤ length bytes)%nat →
  (p ∈ initial.(user_entry_seen_paths) ↔ p ∈ updated.(user_entry_seen_paths)) →
  let t := tail_of initial p bytes in
  read_file provider initial p bytes (done, updated) =
    (done ++ t.(ss_completions),
     MkLogReadState (<[p := length bytes]> updated.(cursors))
       (mark provider p t.(ss_seen_user_entry) updated.(user_entry_seen_paths))).
Proof.
  intros Hc Hp. cbv zeta. unfold read_file. fold (cursor initial p).
  rw (bool_decide_false (length bytes < cursor initial p)%nat); [lia|]. rw andb_false_r.
  set (P := user_entry_seen_paths updated) in *.
  replace (MkScanState _ P done) with
    (embed provider p P done (MkScanState (awaiting_reply initial p) ∅ [])).
  { rw scan_lines_embed. done. }
  unfold embed. cbn [ss_seen_user_entry ss_completions]. rw app_nil_r. unfold awaiting_reply.
  rw (bool_decide_ext _ _ Hp). f_equal. apply mark_seen.
Qed.

(** *** Snapshots of the tree *)

Definition snapshot (tree : option FsNode) (l : list (Path * Bytes)) : Prop :=
  NoDup l.*1 ∧
  ∃ files, log_files provider root tree = Ok files ∧
    Forall2 (λ f pb, f.(lf_path) = pb.1 ∧ f.(lf_content) = Ok pb.2) files l.

(** What the poll that began in [s] notes of one file. *)
Definition note (s s' : LogReadState) (pb : Path * Bytes) : LogReadState :=
  MkLogReadState (<[pb.1 := length pb.2]> s'.(cursors))
    (mark provider pb.1 (tail_of s pb.1 pb.2).(ss_seen_user_entry) s'.(user_entry_seen_paths)).
Definition after (s : LogReadState) (l : list (Path * Bytes)) : LogReadState :=
  foldl (note s) s l.

Definition found (s : LogReadState) (l : list (Path * Bytes)) : list LogCompletion :=
  l ≫= λ pb, (tail_of s pb.1 pb.2).(ss_completions).

Definition not_truncated (s : LogReadState) (l : list (Path * Bytes)) : Prop :=
  ∀ p b, (p, b) ∈ l → (cursor s p ≤ length b)%nat.

Lemma after_other s l : ∀ s' p,
  p ∉ l.*1 →
  let s2 := foldl (note s) s' l in
  s2.(cursors) !! p = s'.(cursors) !! p ∧
  (p ∈ s2.(user_entry_seen_paths) ↔ p ∈ s'.(user_entry_seen_paths)).
Proof.
  induction l as [|[q b] l IH]; intros s' p Hp; [done|]. cbv zeta. cbn [foldl fmap list_fmap] in *.
  apply not_elem_of_cons in Hp as [Hne Hp]. destruct (IH (note s s' (q, b)) p Hp) as [Hc Hs]. cbn [note fst snd cursors
    user_entry_seen_paths] in *. split.
  - rw Hc. by rw lookup_insert_ne.
  - rw Hs. rw mark_elem. rw (bool_decide_false (p = q)); [done|]. by rw andb_false_r.
Qed.

Lemma read_files_ok s files l : ∀ done s',
  Forall2 (λ f pb, f.(lf_path) = pb.1 ∧ f.(lf_content) = Ok pb.2) files l →
  NoDup l.*1 → not_truncated s l →
  (∀ p, p ∈ l.*1 → p ∈ s.(user_entry_seen_paths) ↔ p ∈ s'.(user_entry_seen_paths)) →
  read_files provider s files (done, s') =
    Ok (done ++ found s l,
        foldl (note s) s' l).
Proof.
  intros done s' Hl. revert done s'. induction Hl as [|f [p b] files l [Hp Hb] Hl IH];
    intros done s' Hnd Ht Hs; [by rw app_nil_r|].
  cbn [fst snd fmap list_fmap] in *. apply NoDup_cons in Hnd as [Hnot Hnd].
  cbn [read_files foldl found]. rw Hb Hp read_file_tail.
  { apply Ht. left. } { apply Hs. left. }
  rw IH; [done|intros q c Hq; apply Ht; by right| |].
  - intros q Hq. rw Hs; [by right|]. cbn [user_entry_seen_paths]. rw mark_elem.
    rw (bool_decide_false (q = p)); [by intros ->|]. by rw andb_false_r.
  - cbn [mbind list_bind]. by rw app_assoc.
Qed.

Lemma poll_ok s tree l :
  snapshot tree l → not_truncated s l →
  read_provider_log_tail_with_state provider root tree s = Ok (found s l, after s l).
Proof.
  intros (Hnd & files & Hf & Hl) Ht. unfold read_provider_log_tail_with_state. rw Hf.
  by rw (read_files_ok s files l).
Qed.

Lemma after_at s l : ∀ s' p b,
  NoDup l.*1 → (p, b) ∈ l →
  let s2 := foldl (note s) s' l in
  s2.(cursors) !! p = Some (length b) ∧
  (p ∈ s2.(user_entry_seen_paths) ↔
     if provider_requires_user_entry provider then (tail_of s p b).(ss_seen_user_entry) = true
     else p ∈ s'.(user_entry_seen_paths)).
Proof.
  induction l as [|[q c] l IH]; intros s' p b Hnd Hin; [set_solver|]. cbv zeta.
  cbn [foldl fmap list_fmap fst snd] in *. apply NoDup_cons in Hnd as [Hnot Hnd].
  apply elem_of_cons in Hin as [[= <- <-]|Hin].
  - destruct (after_other s l (note s s' (p, b)) p Hnot) as [Hc Hs]. rw Hc Hs.
    cbn [note fst snd cursors user_entry_seen_paths].
    rw lookup_insert_eq mark_elem. rw (bool_decide_true (p = p)); [done|]. by rw andb_true_r.
  - destruct (IH (note s s' (q, c)) p b Hnd Hin) as [Hc Hs]. split; [exact Hc|]. rw Hs.
    cbn [note fst snd user_entry_seen_paths].
    destruct (provider_requires_user_entry provider) eqn:Hr; [done|]. unfold mark. by rw Hr.
Qed.

(** Without a required user entry a scan does not look at the flag. *)
Lemma tail_not_awaiting s p b :
  provider_requires_user_entry provider = false → (tail_of s p b).(ss_seen_user_entry) = false.
Proof.
  intros Hr. unfold tail_of, awaiting_reply. rw Hr. cbn [andb].
  generalize (S (length b)), (parse_start_offset b (cursor s p)). intros n a.
  assert (H : ∀ st, ss_seen_user_entry st = false →
    ss_seen_user_entry (scan_lines n provider p b a st) = false); [|by apply H].
  revert a. induction n as [|n IH]; intros a st Hst; [done|]. cbn [scan_lines]. cbv zeta.
  case_bool_decide; [|done].
  assert (Hl : ss_seen_user_entry (scan_line provider p b a st) = false).
  { unfold scan_line. cbv zeta. rw Hr. destruct (slice _ _ _ == []); [done|].
    destruct (parse_provider_log_line provider _); try done. cbn [negb orb]. by destruct (_ && _). }
  case_bool_decide; [done|]. by apply IH.
Qed.

Lemma awaiting_after s l p b :
  NoDup l.*1 → (p, b) ∈ l →
  awaiting_reply (after s l) p = (tail_of s p b).(ss_seen_user_entry).
Proof.
  intros Hnd Hin. destruct (after_at s l s p b Hnd Hin) as [_ Hs]. unfold awaiting_reply.
  destruct (provider_requires_user_entry provider) eqn:Hr; cbn [andb].
  - change (foldl _ _ _) with (after s l) in Hs. rw (bool_decide_ext _ _ Hs).
    by destruct (ss_seen_user_entry _).
  - by rw tail_not_awaiting.
Qed.

(** Reading a file that grew is reading its beginning and then the rest. *)
Lemma tail_split s s1 p c x :
  line_complete c → (cursor s p ≤ length c)%nat →
  cursor s1 p = length c → awaiting_reply s1 p = (tail_of s p c).(ss_seen_user_entry) →
  let whole := tail_of s p (c ++ x) in
  let rest := tail_of s1 p (c ++ x) in
  whole.(ss_completions) = (tail_of s p c).(ss_completions) ++ rest.(ss_completions) ∧
  whole.(ss_seen_user_entry) = rest.(ss_seen_user_entry).
Proof.
  intros Hc Hs Hs1 Ha. cbv zeta. set (t1 := tail_of s p c) in *.
  destruct (prefix_start c x Hc _ Hs) as [Hst Hle].
  assert (Hw : tail_of s p (c ++ x) =
    scan_lines (S (length (c ++ x))) provider p (c ++ x) (length c) t1).
  { unfold t1, tail_of. rw Hst. rw scan_split; [done|done|rw length_app; lia|]. f_equal.
    apply scan_fuel; rw ?length_app; lia. }
  assert (He : embed provider p ∅ [] (tail_of s p (c ++ x)) =
    embed provider p ∅ t1.(ss_completions) (tail_of s1 p (c ++ x))).
  { rw Hw. rw -scan_lines_embed.
    unfold tail_of. rw Hs1 Ha. rw (prefix_resumes c x Hc). rw -scan_lines_embed. f_equal.
    unfold embed. cbn [ss_seen_user_entry ss_completions]. by rw app_nil_r. }
  unfold embed in He. by injection He.
Qed.

(** *** A sequence of polls *)

(** Between polls the files grow, and a file a poll finds ends in a line break. *)
Definition grows (l1 l2 : list (Path * Bytes)) : Prop :=
  ∀ p c, (p, c) ∈ l1 → line_complete c ∧ ∃ x, (p, c ++ x) ∈ l2.

Definition at_path (p : Path) (l : list LogCompletion) : list LogCompletion :=
  filter (λ lc, lc.(lc_raw_path) = p) l.

Lemma at_path_app p l1 l2 : at_path p (l1 ++ l2) = at_path p l1 ++ at_path p l2.
Proof. apply filter_app. Qed.

Lemma at_path_tail s p q b :
  at_path p (tail_of s q b).(ss_completions) =
    if bool_decide (q = p) then (tail_of s q b).(ss_completions) else [].
Proof.
  pose proof (tail_of_path s q b) as Hq. unfold at_path. case_bool_decide as He.
  - subst q. apply filter_all. rewrite Forall_forall in Hq. exact Hq.
  - induction Hq as [|lc l Hlc _ IH]; [done|]. by rw filter_cons_False; [congruence|].
Qed.

Lemma at_path_found s l p b :
  NoDup l.*1 → (p, b) ∈ l → at_path p (found s l) = (tail_of s p b).(ss_completions).
Proof.
  induction l as [|[q c] l IH]; intros Hnd Hin; [set_solver|]. cbn [fmap list_fmap fst] in Hnd.
  apply NoDup_cons in Hnd as [Hnot Hnd]. unfold found. cbn [mbind list_bind fst snd].
  rw at_path_app at_path_tail. apply elem_of_cons in Hin as [[= <- <-]|Hin].
  - rw bool_decide_true; [done|]. fold (found s l). rewrite -[RHS]app_nil_r. f_equal.
    clear IH Hnd. induction l as [|[r d] l IH]; [done|]. unfold found. cbn [mbind list_bind fst snd].
    cbn [fmap list_fmap fst] in Hnot. apply not_elem_of_cons in Hnot as [Hne Hnot].
    rw at_path_app at_path_tail. rw bool_decide_false; [done|]. by apply IH.
  - rw bool_decide_false; [|by apply IH]. intros ->. apply Hnot. apply list_elem_of_fmap.
    by exists (p, b).
Qed.

Lemma at_path_none s l p : p ∉ l.*1 → at_path p (found s l) = [].
Proof.
  induction l as [|[q c] l IH]; intros Hp; [done|]. cbn [fmap list_fmap fst] in Hp.
  apply not_elem_of_cons in Hp as [Hne Hp]. unfold found. cbn [mbind list_bind fst snd].
  rw at_path_app at_path_tail. rw bool_decide_false; [done|]. by apply IH.
Qed.

Lemma NoDup_fst_inj (l : list (Path * Bytes)) p b b' :
  NoDup l.*1 → (p, b) ∈ l → (p, b') ∈ l → b = b'.
Proof.
  intros Hnd Hb Hb'. apply elem_of_list_to_map_1 in Hb; [|done].
  apply elem_of_list_to_map_1 in Hb'; [|done]. rw Hb in Hb'. by injection Hb'.
Qed.

Lemma state_ext (s s' : LogReadState) :
  (∀ p, s.(cursors) !! p = s'.(cursors) !! p ∧
        (p ∈ s.(user_entry_seen_paths) ↔ p ∈ s'.(user_entry_seen_paths))) → s = s'.
Proof.
  destruct s, s'. simpl. intros H. f_equal; [apply map_eq|apply set_eq]; intros p; apply H.
Qed.

Lemma after_ext s s' l :
  NoDup l.*1 → 
  (∀ p b, (p, b) ∈ l → (tail_of s' p b).(ss_seen_user_entry) = (tail_of s p b).(ss_seen_user_entry)) →
  (∀ p, (p ∉ l.*1 ∨ provider_requires_user_entry provider = false) →
     (p ∉ l.*1 → s'.(cursors) !! p = s.(cursors) !! p) ∧
     (p ∈ s'.(user_entry_seen_paths) ↔ p ∈ s.(user_entry_seen_paths))) →
  after s' l = after s l.
Proof.
  intros Hnd Hseen Hrest. apply state_ext. intros p. destruct (decide (p ∈ l.*1)) as [Hp|Hp].
  - apply list_elem_of_fmap in Hp as [[q b] [-> Hin]]. cbn [fst].
    destruct (after_at s' l s' q b Hnd Hin) as [Hc' Hs'].
    destruct (after_at s l s q b Hnd Hin) as [Hc Hs]. unfold after. rw Hc Hc' Hs Hs'.
    split; [done|]. rw Hseen; [done|]. destruct (provider_requires_user_entry provider) eqn:Hr; [done|].
    apply Hrest. by right.
  - destruct (after_other s' l s' p Hp) as [Hc' Hs'].
    destruct (after_other s l s p Hp) as [Hc Hs]. unfold after. rw Hc Hc' Hs Hs'.
    destruct (Hrest p) as [H1 H2]; [by left|]. split; [by apply H1|done].
Qed.

(** Two polls: what the second adds, and the state it leaves. *)
Lemma two_polls s l1 l2 :
  NoDup l1.*1 → NoDup l2.*1 → not_truncated s l1 → grows l1 l2 →
  (∀ p, at_path p (found s l2) = at_path p (found s l1) ++ at_path p (found (after s l1) l2)) ∧
  after (after s l1) l2 = after s l2.
Proof.
  intros Hnd1 Hnd2 Ht Hg.
  assert (Hkey : ∀ p b2, (p, b2) ∈ l2 →
    (tail_of s p b2).(ss_completions) =
      at_path p (found s l1) ++ (tail_of (after s l1) p b2).(ss_completions) ∧
    (tail_of s p b2).(ss_seen_user_entry) = (tail_of (after s l1) p b2).(ss_seen_user_entry)).
  { intros p b2 Hin2. destruct (decide (p ∈ l1.*1)) as [Hp|Hp].
    - apply list_elem_of_fmap in Hp as [[q c] [-> Hin1]]. cbn [fst] in *.
      destruct (Hg q c Hin1) as [Hc [x Hx]].
      assert (b2 = c ++ x) as -> by (eapply NoDup_fst_inj; [exact Hnd2|done|done]).
      rw (at_path_found s l1 q c); [done|done|]. apply tail_split; [done|by apply Ht| |].
      + unfold cursor, after. by destruct (after_at s l1 s q c Hnd1 Hin1) as [-> _].
      + by apply awaiting_after.
    - rw at_path_none; [done|]. destruct (after_other s l1 s p Hp) as [Hc Hs].
      assert (He : tail_of (after s l1) p b2 = tail_of s p b2); [|by rw He].
      unfold tail_of, cursor, awaiting_reply, after. rw Hc. by rw (bool_decide_ext _ _ Hs). }
  split.
  - intros p. destruct (decide (p ∈ l2.*1)) as [Hp|Hp].
    + apply list_elem_of_fmap in Hp as [[q b2] [-> Hin2]]. cbn [fst].
      rw !(at_path_found _ l2 q b2); [done|done|done|done|]. by apply Hkey.
    + rw !(at_path_none _ l2); [done|done|]. rw at_path_none; [|done]. intros Hp1. apply Hp.
      apply list_elem_of_fmap in Hp1 as [[q c] [-> Hin1]]. destruct (Hg q c Hin1) as [_ [x Hx]].
      apply list_elem_of_fmap. by exists (q, c ++ x).
  - apply after_ext; [done| |].
    + intros p b Hin. by destruct (Hkey p b Hin) as [_ ->].
    + intros p Hp. destruct (decide (p ∈ l1.*1)) as [Hp1|Hp1].
      * apply list_elem_of_fmap in Hp1 as [[q c] [-> Hin1]]. cbn [fst] in *.
        destruct (after_at s l1 s q c Hnd1 Hin1) as [_ Hs]. destruct (Hg q c Hin1) as [_ [x Hx]].
        assert (q ∈ l2.*1) by (apply list_elem_of_fmap; by exists (q, c ++ x)).
        destruct Hp as [Hp|Hr]; [done|]. by rw Hr in Hs.
      * by destruct (after_other s l1 s p Hp1).
Qed.

(** Polls of successive trees, each from the state the one before left. *)
Fixpoint polls (s : LogReadState) (trees : list (option FsNode)) : Result reading string :=
  match trees with
  | [] => Ok ([], s)
  | tree :: trees' =>
      match read_provider_log_tail_with_state provider root tree s with
      | Err e => Err e
      | Ok (done, s1) =>
          match polls s1 trees' with
          | Err e => Err e
          | Ok (more, s2) => Ok (done ++ more, s2)
          end
      end
  end.

Lemma grows_not_truncated s l1 l :
  NoDup l1.*1 → NoDup l.*1 → grows l1 l → not_truncated s l → not_truncated (after s l1) l.
Proof.
  intros Hnd1 Hnd Hg Ht p b Hin. unfold cursor, after.
  destruct (decide (p ∈ l1.*1)) as [Hp|Hp].
  - apply list_elem_of_fmap in Hp as [[q c] [-> Hin1]]. cbn [fst] in *.
    destruct (after_at s l1 s q c Hnd1 Hin1) as [-> _]. destruct (Hg q c Hin1) as [_ [x Hx]].
    assert (b = c ++ x) as -> by (by eapply NoDup_fst_inj). simpl. rw length_app. lia.
  - destruct (after_other s l1 s p Hp) as [-> _]. by apply Ht.
Qed.

Lemma polls_read_once snaps : ∀ s trees tree l,
  Forall2 snapshot (trees ++ [tree]) (snaps ++ [l]) → length trees = length snaps →
  StronglySorted grows (snaps ++ [l]) → Forall (not_truncated s) (snaps ++ [l]) →
  ∃ many, polls s (trees ++ [tree]) = Ok (many, after s l) ∧
    ∀ p, at_path p many = at_path p (found s l).
Proof.
  induction snaps as [|l1 snaps IH]; intros s [|tree1 trees] tree l Hsnap Hlen Hg Ht; try done.
  - cbn [app] in *. inversion_clear Hsnap. inversion_clear Ht. exists (found s l).
    cbn [polls]. rw (poll_ok s tree l); [done|done|]. by rw app_nil_r.
  - cbn [app] in *. inversion_clear Hsnap as [|? ? ? ? H1 Hrest].
    inversion_clear Ht as [|? ? Ht1 Htr]. inversion_clear Hg as [|? ? Hgr Hg1].
    assert (Hl : l ∈ snaps ++ [l]) by (apply elem_of_app; right; by left).
    pose proof (proj1 (Forall_forall _ _) Hg1 l Hl) as Hgl.
    assert (Hnd : ∀ l2, l2 ∈ snaps ++ [l] → NoDup l2.*1).
    { intros l2 Hl2. apply list_elem_of_lookup in Hl2 as [k Hk].
      destruct (Forall2_lookup_r _ _ _ k l2 Hrest Hk) as (t2 & _ & [? _]). done. }
    destruct (IH (after s l1) trees tree l) as (many & Hp & Hm); [done|by injection Hlen|done| |].
    { apply Forall_forall. intros l2 Hl2. apply grows_not_truncated; [apply H1|by apply Hnd| |].
      - by apply (proj1 (Forall_forall _ _) Hg1).
      - by apply (proj1 (Forall_forall _ _) Htr). }
    destruct (two_polls s l1 l) as [Htwo Hs]; [apply H1|by apply Hnd|done|done|].
    exists (found s l1 ++ many). cbn [polls]. rw (poll_ok s tree1 l1); [done|done|]. rw Hp Hs.
    split; [done|]. intros p. by rw at_path_app Hm Htwo.
Qed.

(** C26: tailing a transcript misses nothing and repeats nothing.  However often
    the files are polled while they grow, if every poll but the last finds them
    ending in a line break, the completions the polls report of each file are,
    in order, those one reading of the final files reports, and the state they
    leave is the same. *)
Theorem tailing_is_reading_once s trees snaps tree l :
  Forall2 snapshot (trees ++ [tree]) (snaps ++ [l]) → length trees = length snaps →
  StronglySorted grows (snaps ++ [l]) → Forall (not_truncated s) (snaps ++ [l]) →
  ∃ many once s', polls s (trees ++ [tree]) = Ok (many, s') ∧
    read_provider_log_tail_with_state provider root tree s = Ok (once, s') ∧
    ∀ p, at_path p many = at_path p once.
Proof.
  intros Hsnap Hlen Hg Ht. destruct (polls_read_once snaps s trees tree l) as (many & Hp & Hm);
    [done..|]. exists many, (found s l), (after s l). split_and!; [done| |done].
  apply poll_ok.
  - by apply Forall2_app_inv in Hsnap as [_ Hlast]; [inversion_clear Hlast|].
  - apply Forall_app in Ht as [_ Ht]. by inversion_clear Ht.
Qed.

(** A line that a poll finds unfinished is never read whole: the poll that finds
    its end reports nothing, whatever the line says. *)
Lemma unfinished_line_is_lost s tree p c part rest :
  line_complete c → part ≠ [] → NEWLINE ∉ part → NEWLINE ∉ rest →
  cursor s p = length (c ++ part) →
  snapshot tree [(p, c ++ part ++ rest ++ [NEWLINE])] → rest ≠ [] →
  ∃ s', read_provider_log_tail_with_state provider root tree s = Ok ([], s').
Proof.
  intros Hc Hpart Hn Hnr Hs Hsnap Hrest. set (bytes := c ++ part ++ rest ++ [NEWLINE]) in *.
  assert (Hb : bytes = (c ++ part) ++ rest ++ [NEWLINE]) by (unfold bytes; by rw app_assoc).
  exists (after s [(p, bytes)]). rw (poll_ok s tree [(p, bytes)]); [done| |].
  { intros q b Hq. apply list_elem_of_singleton in Hq as [= -> ->]. rw Hs Hb. rw (length_app (c ++ part)). lia. }
  do 2 f_equal. unfold found. cbn [mbind list_bind fst snd]. rw app_nil_r.
  assert (Hstart : parse_start_offset bytes (cursor s p) = length bytes).
  { unfold parse_start_offset. rw Hs Nat.min_l; [rw Hb (length_app (c ++ part)); lia|].
    assert (Hlast : bytes !! (length (c ++ part) - 1)%nat = last part).
    { rw Hb lookup_app_l; [rw length_app; destruct part; [done|simpl; lia]|].
      rw lookup_app_r; [rw length_app; destruct part; [done|simpl; lia]|]. rw last_lookup. f_equal.
      rw length_app. destruct part; [done|simpl; lia]. }
    rw (bool_decide_true (0 < _ < _)%nat).
    { rw Hb !length_app. destruct part; [done|]. simpl. lia. }
    rw Hlast bool_decide_true.
    { destruct part as [|x part _] using rev_ind; [done|]. rw last_snoc. intros [= ->]. set_solver. }
    cbn [andb]. rw Hb drop_app_length. unfold newline_at.
    rw list_find_app_r; [by apply list_find_None, Forall_forall; intros ? ? ->|].
    simpl. rw !length_app. simpl. lia. }
  unfold tail_of. rw Hstart. cbn [scan_lines]. by rw bool_decide_false; [lia|].
Qed.

End Polls.
