(* ===== verification/HealthCheck.v ===== *)
(** * The health check ([src/src/provider/health_check.rs])

    A periodic tick looks at every agent that is starting or working: can its
    pane be captured, does the screen look ready, has there been output since
    the task was dispatched.  It marks an agent STUCK, or only raises an alert,
    and alerts once for a job that waits in the queue too long. *)
From S2P Require Import Prelude Json Schema Sql MasterTables JobGate Invariant MasterSound AgentGate Text.
From S2P Require Import Providers Jobs Completion Evidence StateMachine Events Agents.

Definition QUEUED_STARVATION_THRESHOLD_SECS : Z := 300.

Record HealthCheckResult : Type := MkHealthCheckResult {
  hr_alive : bool;
  hr_dead_layers : list string;
  hr_last_progress_ts : Z
}.

Record HealthCheckObservation : Type := MkObservation {
  ho_agent_id : string;
  ho_provider : string;
  ho_state : string;
  ho_pane_capture : string;
  ho_pane_capture_ok : bool;
  ho_last_output_ts : option Z;
  ho_last_marker_ts : option Z;
  ho_dispatched_at : option Z;
  ho_now_ts : Z
}.

(** How a tick stops short: an error, the panic of [get_manifest] on an unknown
    provider, or a loop that does not end. *)
Inductive HealthStop : Type :=
| Raised (e : CcbdError)
| UnknownProviderPanic (provider : string)
| Diverges.

(** [i64::saturating_sub] *)
Definition saturating_sub (a b : Z) : Z := Z.max i64_min (Z.min i64_max (a - b)).

Definition is_working_state (state : string) : bool :=
  state is_in [STATE_WAITING_FOR_ACK; STATE_BUSY].

Definition last_progress_ts (o : HealthCheckObservation) : Z :=
  Z.max (Z.max (default 0 o.(ho_last_marker_ts)) (default 0 o.(ho_last_output_ts)))
    (default 0 o.(ho_dispatched_at)).

(** [None]: [get_manifest] panics. *)
Definition health_check_observe (o : HealthCheckObservation) (stuck_threshold_secs : Z) :
    option HealthCheckResult :=
  let progress := last_progress_ts o in
  let tmux := if o.(ho_pane_capture_ok) then [] else ["tmux"] in
  predicate ←
    (if o.(ho_state) == STATE_SPAWNING then
       manifest ← try_get_manifest o.(ho_provider);
       Some (if detect manifest.(init_probe) o.(ho_pane_capture) then [] else ["predicate"])
     else Some []);
  let completion :=
    if is_working_state o.(ho_state) && (0 <? progress) &&
       (stuck_threshold_secs <? saturating_sub o.(ho_now_ts) progress)
    then ["completion"] else [] in
  let dead_layers := tmux ++ predicate ++ completion in
  Some (MkHealthCheckResult (dead_layers == []) dead_layers progress).

Section HealthCheck.
Context {EXT : Externals}.

Definition or_raise {A : Type} (m : M CcbdError A) : M HealthStop A := map_err Raised m.

Definition elapsed_secs (o : HealthCheckObservation) : Z :=
  saturating_sub o.(ho_now_ts) (last_progress_ts o).

(** The alert of a LogOnly provider whose pane is alive. *)
Definition raise_stopped_alert (o : HealthCheckObservation) : M HealthStop nat :=
  job ← or_raise (query_dispatched_job_for_agent_sync o.(ho_agent_id));
  let job_id := j_id <$> job in
  or_raise (insert_event o.(ho_agent_id) None "state_change" (json_to_string (json_object
    [("from", JString o.(ho_state)); ("to", JString o.(ho_state));
     ("reason", JString "STOPPED_UNDECLARED_ALERT"); ("job_id", json_opt JString job_id);
     ("elapsed_secs", JNumber (elapsed_secs o))])));;
  notify_event (MkEventFrame 0 "alert" o.(ho_agent_id) job_id (Some o.(ho_state))
    (Some (json_object [("job_id", json_opt JString job_id);
                        ("elapsed_secs", JNumber (elapsed_secs o))])));;
  mret 0%nat.

Definition mark_health_stuck (o : HealthCheckObservation) (dead_layers : list string) :
    M HealthStop nat :=
  changes ← or_raise (mark_agent_stuck o.(ho_agent_id) "HEALTH_CHECK_STUCK");
  if changes == 0%nat then mret 0%nat
  else
  job ← or_raise (query_dispatched_job_for_agent_sync o.(ho_agent_id));
  let job_id := j_id <$> job in
  let signal_kinds := JArray ((λ layer, JString ("health:" +:+ layer)) <$> dead_layers) in
  or_raise (insert_event o.(ho_agent_id) None "state_change" (json_to_string (json_object
    [("from", JString o.(ho_state)); ("to", JString "STUCK");
     ("reason", JString "HEALTH_CHECK_STUCK"); ("job_id", json_opt JString job_id);
     ("signal_kinds", signal_kinds); ("elapsed_secs", JNumber (elapsed_secs o))])));;
  notify_event (MkEventFrame 0 "stuck" o.(ho_agent_id) job_id (Some "STUCK")
    (Some (json_object [("job_id", json_opt JString job_id); ("signal_kinds", signal_kinds);
                        ("elapsed_secs", JNumber (elapsed_secs o))])));;
  mret changes.

Definition escalate_health_stuck (o : HealthCheckObservation) (stuck_threshold_secs : Z) :
    M HealthStop nat :=
  match health_check_observe o stuck_threshold_secs with
  | None => throw (UnknownProviderPanic o.(ho_provider))
  | Some result =>
      if result.(hr_alive) || negb (is_active_state o.(ho_state)) then mret 0%nat
      else if ("completion" is_in result.(hr_dead_layers)) && o.(ho_pane_capture_ok) then
        match try_get_manifest o.(ho_provider) with
        | None => throw (UnknownProviderPanic o.(ho_provider))
        | Some manifest =>
            match manifest.(completion_signal) with
            | LogOnly => raise_stopped_alert o
            end
        end
      else mark_health_stuck o result.(hr_dead_layers)
  end.

(** ** Progress *)

Definition marker_like : string := "%" +:+ AH_IDLE_MARKER +:+ "%".

(** Does the event's text, once decoded, contain the marker? *)
Definition carries_marker (e : Event) : bool :=
  match json_from_str e.(e_payload) ≫= get_str "text" with
  | Some text => contains text AH_IDLE_MARKER
  | None => false
  end.

(** The loop: the newest matching event before [before_seq_id], until one whose
    text carries the marker. *)
Fixpoint last_marker_loop (fuel : nat) (agent_id : string) (before_seq_id : option Z) :
    M HealthStop (option Z) :=
  match fuel with
  | O => throw Diverges
  | S fuel' =>
      found ← or_raise (query_last_event_of_type_matching_payload_sync agent_id "output_chunk"
                          marker_like before_seq_id);
      match found with
      | None => mret None
      | Some event =>
          if carries_marker event then mret (Some event.(e_created_at))
          else last_marker_loop fuel' agent_id (Some event.(e_seq_id))
      end
  end.

(** One turn per event and the one that finds nothing. *)
Definition query_last_progress (agent_id : string) : M HealthStop (option Z * option Z) :=
  last_output ← or_raise (query_last_event_of_type_sync agent_id "output_chunk");
  fuel ← gets (λ db, S (length db.(events)));
  last_marker ← last_marker_loop fuel agent_id None;
  mret (e_created_at <$> last_output, last_marker).

(** ** The tick *)

(** [capture]: what capturing the agent's pane answers; [None] when it has no
    pane or tmux fails. *)
Definition check_agent (capture : string → option string) (stuck_threshold_secs : Z) (a : Agent) :
    M HealthStop unit :=
  progress ← query_last_progress a.(a_id);
  job ← or_raise (query_dispatched_job_for_agent_sync a.(a_id));
  now ← asks w_now;
  escalate_health_stuck
    (MkObservation a.(a_id) a.(a_provider) a.(a_state) (default "" (capture a.(a_id)))
       (bool_decide (is_Some (capture a.(a_id)))) progress.1 progress.2
       (job ≫= j_dispatched_at) now) stuck_threshold_secs;;
  mret tt.

Definition alert_starved (job : Job) : M HealthStop unit :=
  alerted ← or_raise (has_queued_starvation_alerted job.(j_agent_id) job.(j_id));
  when (negb alerted) (
    now ← asks w_now;
    let elapsed := saturating_sub now job.(j_created_at) in
    or_raise (insert_event job.(j_agent_id) None "state_change" (json_to_string (json_object
      [("from", JString "QUEUED"); ("to", JString "QUEUED");
       ("reason", JString "QUEUED_STARVATION_ALERT"); ("job_id", JString job.(j_id));
       ("elapsed_secs", JNumber elapsed)])));;
    notify_event (MkEventFrame 0 "alert" job.(j_agent_id) (Some job.(j_id)) (Some "QUEUED")
      (Some (json_object [("job_id", JString job.(j_id)); ("elapsed_secs", JNumber elapsed)])))).

Definition health_check_watcher_tick (capture : string → option string) (stuck_threshold_secs : Z) :
    M HealthStop unit :=
  for_ [STATE_SPAWNING; STATE_WAITING_FOR_ACK; STATE_BUSY] (λ state,
    agents ← or_raise (query_agents_by_state_sync state);
    for_ agents (check_agent capture stuck_threshold_secs));;
  starved ← or_raise (query_starved_queued_jobs_sync QUEUED_STARVATION_THRESHOLD_SECS);
  for_ starved alert_starved.

(** ** Soundness *)

Lemma sound_last_marker_loop fuel agent_id before :
  respects sound (last_marker_loop fuel agent_id before).
Proof.
  revert before. induction fuel as [|fuel IH]; intros before; cbn [last_marker_loop];
    unfold or_raise, query_last_event_of_type_matching_payload_sync; solve_respects.
Qed.
#[local] Hint Resolve sound_last_marker_loop : respects.

Lemma sound_health_tick capture secs : respects sound (health_check_watcher_tick capture secs).
Proof.
  unfold health_check_watcher_tick, check_agent, alert_starved, escalate_health_stuck,
    mark_health_stuck, raise_stopped_alert, query_last_progress, or_raise, notify_event,
    query_agents_by_state_sync, query_starved_queued_jobs_sync, has_queued_starvation_alerted,
    query_last_event_of_type_sync. solve_respects.
Qed.

End HealthCheck.
#[export] Hint Resolve sound_health_tick : respects.
