(* ===== verification/Recovery.v ===== *)
(** * Recovery of crashed agents ([src/src/db/recovery.rs])

    What a crash leaves behind: the intent (what to do with the agent and the
    job it was working on), the spawn spec to start it again with, the retry
    backoff, and the atomic replacement of a killed agent by its revival. *)
From S2P Require Import Prelude Json Schema Sql MasterTables JobGate Invariant AgentGate Text Jobs Agents.

(** ** Intents *)

Inductive RecoveryIntentAction : Type := Revive | ReviveIdle | ReapOnly.
#[global] Instance RecoveryIntentAction_eq_dec : EqDecision RecoveryIntentAction.
Proof. solve_decision. Defined.

Definition action_as_db_str (a : RecoveryIntentAction) : string :=
  match a with
  | Revive => "REVIVE"
  | ReviveIdle => "REVIVE_IDLE"
  | ReapOnly => "REAP_ONLY"
  end.

Definition action_from_db_str (value : string) : Result RecoveryIntentAction CcbdError :=
  if value == "REVIVE" then Ok Revive
  else if value == "REVIVE_IDLE" then Ok ReviveIdle
  else if value == "REAP_ONLY" then Ok ReapOnly
  else Err (DbConstraintViolation ("unknown recovery intent action: " +:+ value)).

Record CapturedInterruptedJob : Type := MkCapturedJob {
  cj_id : string;
  cj_request_id : option string;
  cj_prompt_text : string;
  cj_cancel_requested : bool;
  cj_requires_physical_evidence : bool;
  cj_requires_test_evidence : bool
}.

Record AgentRecoveryIntent : Type := MkIntent {
  in_agent_id : string;
  in_session_id : string;
  in_provider : string;
  in_previous_state : string;
  in_crashed_state_version : Z;
  in_interrupted_job_id : option string;
  in_interrupted_job_status : option string;
  in_interrupted_job : option CapturedInterruptedJob;
  in_action : RecoveryIntentAction;
  in_reason : string
}.

(** [i64::from(bool)] *)
Definition i64_of_bool (b : bool) : Z := if b then 1 else 0.

(** The row [INSERT ... ON CONFLICT(agent_id) DO UPDATE] writes: the creation
    time of a row that was there is kept. *)
Definition intent_row (now : Z) (old : option RecoveryIntentRow) (intent : AgentRecoveryIntent) :
    RecoveryIntentRow :=
  MkIntentRow intent.(in_agent_id) intent.(in_session_id) intent.(in_provider)
    intent.(in_previous_state) intent.(in_crashed_state_version) intent.(in_interrupted_job_id)
    intent.(in_interrupted_job_status)
    (intent.(in_interrupted_job) ≫= cj_request_id)
    (cj_prompt_text <$> intent.(in_interrupted_job))
    ((λ j, i64_of_bool j.(cj_cancel_requested)) <$> intent.(in_interrupted_job))
    ((λ j, i64_of_bool j.(cj_requires_physical_evidence)) <$> intent.(in_interrupted_job))
    ((λ j, i64_of_bool j.(cj_requires_test_evidence)) <$> intent.(in_interrupted_job))
    (action_as_db_str intent.(in_action)) intent.(in_reason) None
    (from_option i_created_at now old) now.

(** ** Spawn specs

    Serializing a spec is code that the [serde] macros generate: a parameter,
    with the round trip as its law.  The three fields of nested struct type are
    kept as the JSON they are serialized to; [spec_valid] says that they are
    such images, and that [settings] is a JSON map. *)

Record AgentSpawnSpec : Type := MkSpawnSpec {
  ss_agent_id : string;
  ss_provider : string;
  ss_env : gmap string string;
  ss_hooks : Value;
  ss_plugins : list string;
  ss_skills : list string;
  ss_bundle : list string;
  ss_settings : list (string * Value);
  ss_bundle_digest : option Value;
  ss_sandbox_overrides : Value;
  ss_hook_push_enabled : bool
}.

Class SpawnSpecSerde := {
  spec_to_string : AgentSpawnSpec → string;
  spec_from_str : string → Result AgentSpawnSpec string;
  spec_valid : AgentSpawnSpec → Prop;
  spec_from_to spec : spec_valid spec → spec_from_str (spec_to_string spec) = Ok spec
}.

Record StoredAgentSpawnSpec : Type := MkStoredSpec {
  st_spec : AgentSpawnSpec;
  st_config_hash : string;
  st_spec_version : Z;
  st_updated_at : Z
}.

Record RecoveryBackoff : Type := MkBackoff {
  rb_retry_count : Z;
  rb_next_retry_at : option Z;
  rb_retry_exhausted : bool
}.

Section Recovery.
Context {EXT : Externals} {SPEC : SpawnSpecSerde}.

Definition upsert_intent_row (intent : AgentRecoveryIntent) : M SqlError unit := λ w,
  let db := w.(w_db) in
  let id := intent.(in_agent_id) in
  let old := db.(recovery_intents) !! id in
  match old, db.(agents) !! id with
  | None, None => (Err ForeignKeyViolation, w)
  | _, _ =>
      (Ok tt, set_db (set_recovery_intents
                        (<[id := intent_row w.(w_now) old intent]> db.(recovery_intents)) db) w)
  end.

Definition persist_agent_recovery_intent_sync (intent : AgentRecoveryIntent) : M CcbdError unit :=
  map_err (map_db_error "persist agent recovery intent") (upsert_intent_row intent).

(** [interrupted_job_x.unwrap_or(0) != 0] *)
Definition flag_of (x : option Z) : bool := default 0 x != 0.

Definition intent_of_row (r : RecoveryIntentRow) : Result AgentRecoveryIntent CcbdError :=
  let interrupted_job :=
    match r.(i_interrupted_job_id), r.(i_interrupted_job_prompt_text) with
    | Some job_id, Some prompt_text =>
        Some (MkCapturedJob job_id r.(i_interrupted_job_request_id) prompt_text
                (flag_of r.(i_interrupted_job_cancel_requested))
                (flag_of r.(i_interrupted_job_requires_physical_evidence))
                (flag_of r.(i_interrupted_job_requires_test_evidence)))
    | _, _ => None
    end in
  match action_from_db_str r.(i_action) with
  | Ok action =>
      Ok (MkIntent r.(i_agent_id) r.(i_session_id) r.(i_provider) r.(i_previous_state)
            r.(i_crashed_state_version) r.(i_interrupted_job_id) r.(i_interrupted_job_status)
            interrupted_job action r.(i_reason))
  | Err e => Err e
  end.

Definition query_agent_recovery_intent_sync (agent_id : string) :
    M CcbdError (option AgentRecoveryIntent) :=
  row ← gets (λ db, db.(recovery_intents) !! agent_id);
  match row with
  | Some r =>
      if r.(i_consumed_at) == None then
        intent ← of_result (intent_of_row r);
        mret (Some intent)
      else mret None
  | None => mret None
  end.

(** ** Requeueing the interrupted job *)

Definition requeue_interrupted_job_from_captured_intent_sync (intent : AgentRecoveryIntent) :
    M CcbdError nat :=
  if intent.(in_action) != Revive then mret 0%nat
  else
  match intent.(in_interrupted_job_id) with
  | None => mret 0%nat
  | Some job_id =>
  job ← query_job_sync job_id;
  changed ←
    match job with
    | Some job =>
        if (job.(j_status) == "FAILED") && (job.(j_agent_id) == intent.(in_agent_id)) then
          let err_reason := recovery_requeued_error_reason 0 in
          requeue_job_state_conn_sync job_id Failed (Some err_reason) "recovery_requeue";;
          mret 1%nat
        else mret 0%nat
    | None => mret 0%nat
    end;
  if changed == 1%nat then mret 1%nat
  else
  match intent.(in_interrupted_job) with
  | None => mret 0%nat
  | Some captured_job =>
      let marker := recovery_requeued_error_reason 0 in
      inserted_id ← insert_recovered_queued_job_sync captured_job.(cj_id) intent.(in_agent_id)
        captured_job.(cj_request_id) captured_job.(cj_prompt_text)
        captured_job.(cj_cancel_requested) captured_job.(cj_requires_physical_evidence)
        captured_job.(cj_requires_test_evidence) marker;
      if inserted_id != captured_job.(cj_id) then
        throw (DbConstraintViolation
                 ("captured interrupted job restored as unexpected id: expected "
                  +:+ captured_job.(cj_id) +:+ ", got " +:+ inserted_id))
      else mret 1%nat
  end
  end.

Definition requeue_interrupted_job_from_captured_intent_standalone_sync
    (intent : AgentRecoveryIntent) : M CcbdError nat :=
  transaction (
    requeued ← requeue_interrupted_job_from_captured_intent_sync intent;
    mret (Commit requeued)).

(** ** Spawn specs and backoff *)

Definition upsert_spec_row (agent_id provider config_hash spec_json : string) :
    M SqlError unit := λ w,
  let db := w.(w_db) in
  match db.(spawn_specs) !! agent_id, db.(agents) !! agent_id with
  | None, None => (Err ForeignKeyViolation, w)
  | old, _ =>
      let version := from_option (λ r, r.(sp_spec_version) + 1) 1 old in
      (Ok tt, set_db (set_spawn_specs
        (<[agent_id := MkSpawnSpecRow agent_id version provider config_hash spec_json w.(w_now)]>
           db.(spawn_specs)) db) w)
  end.

Definition persist_agent_spawn_spec_sync (spec : AgentSpawnSpec) (config_hash : string) :
    M CcbdError unit :=
  let spec_json := spec_to_string spec in
  map_err (map_db_error "persist agent spawn spec")
    (upsert_spec_row spec.(ss_agent_id) spec.(ss_provider) config_hash spec_json).

Definition stored_spec (context : string) (r : SpawnSpecRow) :
    Result StoredAgentSpawnSpec CcbdError :=
  match spec_from_str r.(sp_spec_json) with
  | Ok spec => Ok (MkStoredSpec spec r.(sp_config_hash) r.(sp_spec_version) r.(sp_updated_at))
  | Err err => Err (DbConstraintViolation (context +:+ ": " +:+ err))
  end.

Definition query_agent_spawn_spec_sync (agent_id : string) :
    M CcbdError (option StoredAgentSpawnSpec) :=
  row ← gets (λ db, db.(spawn_specs) !! agent_id);
  match row with
  | Some r => spec ← of_result (stored_spec "deserialize agent spawn spec" r); mret (Some spec)
  | None => mret None
  end.

(** [ORDER BY a.created_at ASC, a.id ASC] *)
Definition agent_created_le : relation Agent :=
  lex_le (λ a b, a.(a_created_at) < b.(a_created_at)) (λ a b, a.(a_created_at) = b.(a_created_at))
    (λ a b, String.le a.(a_id) b.(a_id)).
#[global] Instance agent_created_le_dec : RelDecision agent_created_le.
Proof. unfold agent_created_le, lex_le. intros a b. apply _. Defined.

(** [rows.map(...).collect()]: the first error wins. *)
Fixpoint collect_specs (rows : list SpawnSpecRow) : Result (list StoredAgentSpawnSpec) CcbdError :=
  match rows with
  | [] => Ok []
  | r :: rest =>
      match stored_spec "deserialize session agent spawn spec" r with
      | Ok spec => match collect_specs rest with Ok specs => Ok (spec :: specs) | Err e => Err e end
      | Err e => Err e
      end
  end.

Definition query_agent_spawn_specs_for_session_sync (session_id : string) :
    M CcbdError (list StoredAgentSpawnSpec) :=
  rows ← gets (λ db,
    omap (λ a, db.(spawn_specs) !! a.(a_id))
      (order_by agent_created_le
         (filter (λ a, a.(a_session_id) = session_id) (table_rows db.(agents)))));
  of_result (collect_specs rows).

(** The claim of a crashed agent by the recovery tick. *)
Definition try_claim_agent_recovery_sync (agent_id : string) (expected_state_version now : Z) :
    M CcbdError bool :=
  clock ← asks w_now;
  changed ← update_agent agent_id
    (λ a, (a.(a_state) == "CRASHED") && (a.(a_state_version) =? expected_state_version) &&
          negb a.(a_retry_exhausted) &&
          match a.(a_next_retry_at) with None => true | Some t => t <=? now end)
    (bump_version clock);
  mret (changed == 1%nat).

Definition record_recovery_failure_backoff_sync (agent_id : string) (now : Z) :
    M CcbdError RecoveryBackoff :=
  current ← query_agent_row agent_id;
  match current with
  | None => throw (AgentNotFound agent_id)
  | Some current =>
      let retry_count := Z.min (current.(a_retry_count) + 1) 5 in
      let retry_exhausted := 5 <=? retry_count in
      let next_retry_at :=
        if retry_exhausted then None
        else Some (now + (if retry_count =? 1 then 1 else if retry_count =? 2 then 2 else 4)) in
      clock ← asks w_now;
      update_agent agent_id (λ _, true)
        (λ a, set_a_updated_at clock (set_a_retry_exhausted retry_exhausted
                (set_a_next_retry_at next_retry_at (set_a_retry_count retry_count a))));;
      mret (MkBackoff retry_count next_retry_at retry_exhausted)
  end.

Definition clear_recovery_backoff_sync (agent_id : string) : M CcbdError unit :=
  clock ← asks w_now;
  update_agent agent_id (λ _, true)
    (λ a, set_a_updated_at clock (set_a_retry_exhausted false
            (set_a_next_retry_at None (set_a_retry_count 0 a))));;
  mret tt.

Definition confirm_agent_stable_sync (agent_id : string) : M CcbdError unit :=
  clear_recovery_backoff_sync agent_id.

(** ** Replacement of a killed agent *)

Definition replace_killed_agent_and_requeue_job_sync (session_id : string) (spec : AgentSpawnSpec)
    (config_hash : string) (pid : Z) (captured_intent : option AgentRecoveryIntent) :
    M CcbdError nat :=
  requeued ← transaction (
    current ← query_agent_row spec.(ss_agent_id);
    if (a_state <$> current) != Some "KILLED" then
      throw (DbConstraintViolation
               ("agent " +:+ spec.(ss_agent_id) +:+ " is not KILLED before atomic replacement"))
    else
    map_err (map_db_error "delete killed agent") (delete_agent_row spec.(ss_agent_id));;
    insert_agent_sync spec.(ss_agent_id) session_id spec.(ss_provider) "SPAWNING" (Some pid);;
    update_agent_config_hash_sync spec.(ss_agent_id) config_hash;;
    persist_agent_spawn_spec_sync spec config_hash;;
    clear_recovery_backoff_sync spec.(ss_agent_id);;
    requeued ←
      match captured_intent with
      | Some intent => requeue_interrupted_job_from_captured_intent_sync intent
      | None => mret 0%nat
      end;
    mret (Commit requeued));
  when (bool_decide (0 < requeued)%nat) notify_runtime_job_changed;;
  mret requeued.

End Recovery.

(** ** Soundness *)

Section RecoverySound.
Context {EXT : Externals} {SPEC : SpawnSpecSerde}.

(** [consistent] does not look at intents and specs but for their agent. *)
Lemma consistent_set_intents db id r :
  consistent db → is_Some (db.(recovery_intents) !! id) ∨ is_Some (db.(agents) !! id) →
  consistent (set_recovery_intents (<[id := r]> db.(recovery_intents)) db).
Proof.
  intros [Hwf Haud] Hid. split; [|by eapply audit_ok_proper].
  pose proof (wf_intent _ Hwf). destruct Hwf. split; simpl; eauto.
  intros k. rw lookup_insert_is_Some'. intros [<-|Hk]; [destruct Hid|]; eauto.
Qed.

Lemma consistent_set_specs db id r :
  consistent db → is_Some (db.(spawn_specs) !! id) ∨ is_Some (db.(agents) !! id) →
  consistent (set_spawn_specs (<[id := r]> db.(spawn_specs)) db).
Proof.
  intros [Hwf Haud] Hid. split; [|by eapply audit_ok_proper].
  pose proof (wf_spec _ Hwf). destruct Hwf. split; simpl; eauto.
  intros k. rw lookup_insert_is_Some'. intros [<-|Hk]; [destruct Hid|]; eauto.
Qed.

Lemma sound_persist_intent intent : respects sound (persist_agent_recovery_intent_sync intent).
Proof.
  unfold persist_agent_recovery_intent_sync. apply respects_map_err. intros w.
  unfold upsert_intent_row.
  destruct (recovery_intents _ !! _) eqn:Hi; [|destruct (agents _ !! _) eqn:Ha; [|done]].
  all: split; [by split; simpl|intros Hc; apply consistent_set_intents; [done|]].
  - left. by rw Hi.
  - right. by rw Ha.
Qed.

Lemma sound_persist_spec spec hash : respects sound (persist_agent_spawn_spec_sync spec hash).
Proof.
  unfold persist_agent_spawn_spec_sync. apply respects_map_err. intros w.
  unfold upsert_spec_row.
  destruct (spawn_specs _ !! _) eqn:Hi; [|destruct (agents _ !! _) eqn:Ha; [|done]].
  all: split; [by split; simpl|intros Hc; apply consistent_set_specs; [done|]].
  - left. by rw Hi.
  - right. by rw Ha.
Qed.

Lemma sound_requeue_captured intent :
  respects sound (requeue_interrupted_job_from_captured_intent_sync intent).
Proof.
  unfold requeue_interrupted_job_from_captured_intent_sync, query_job_sync. solve_respects.
Qed.
#[local] Hint Resolve sound_requeue_captured sound_persist_spec : respects.

Lemma sound_requeue_standalone intent :
  respects sound (requeue_interrupted_job_from_captured_intent_standalone_sync intent).
Proof.
  unfold requeue_interrupted_job_from_captured_intent_standalone_sync. solve_respects.
Qed.

Lemma sound_claim_recovery agent_id ver now :
  respects sound (try_claim_agent_recovery_sync agent_id ver now).
Proof. unfold try_claim_agent_recovery_sync. solve_respects. Qed.

Lemma sound_failure_backoff agent_id now :
  respects sound (record_recovery_failure_backoff_sync agent_id now).
Proof. unfold record_recovery_failure_backoff_sync, query_agent_row. solve_respects. Qed.

Lemma sound_clear_backoff agent_id : respects sound (clear_recovery_backoff_sync agent_id).
Proof. unfold clear_recovery_backoff_sync. solve_respects. Qed.

Lemma consistent_replace_killed session_id spec hash pid intent :
  preserves consistent (replace_killed_agent_and_requeue_job_sync session_id spec hash pid intent).
Proof.
  unfold replace_killed_agent_and_requeue_job_sync, query_agent_row.
  solve_respects; apply sound_consistent; eauto using sound_clear_backoff with respects.
Qed.

End RecoverySound.
#[export] Hint Resolve sound_persist_intent sound_persist_spec sound_requeue_captured
  sound_requeue_standalone sound_claim_recovery sound_failure_backoff sound_clear_backoff
  consistent_replace_killed : respects.
