(* ===== verification/Lifecycle.v ===== *)
(** * Agents that end: killed and crashed ([src/src/db/agents_lifecycle.rs])

    Both end an agent under a guard on its state, fail its dispatched jobs,
    append the event and hand the agent's runtime resources to cleanup.  A
    crash, and a kill because the master died, first capture a recovery
    intent. *)
From S2P Require Import Prelude Json Schema Sql MasterTables JobGate Invariant AgentGate Text Jobs Agents.
From S2P Require Import Recovery StateMachine Providers.

Definition crashed_cleanup_policy (provider : string) : RuntimeCleanupPolicy :=
  if is_recovery_eligible_provider provider then PreserveRecoverableCrashedHome
  else CleanupDefault.

(** What recovery should do, from the state the agent was in. *)
Definition recovery_action (previous_state reason : string) (interrupted : bool) :
    RecoveryIntentAction :=
  let is_unexpected_exit_reason :=
    reason is_in ["AGENT_UNEXPECTED_EXIT"; "EXIT_CODE_UNAVAILABLE_NON_CHILD"] in
  if (previous_state is_in [STATE_WAITING_FOR_ACK; STATE_BUSY]) || interrupted then Revive
  else if (previous_state == STATE_IDLE) && is_unexpected_exit_reason then ReviveIdle
  else if previous_state is_in [STATE_IDLE; STATE_SPAWNING] then ReapOnly
  else ReapOnly.

Section Lifecycle.
Context {EXT : Externals} {SPEC : SpawnSpecSerde}.

Definition capture_recovery_intent_for_crash (agent_id : string) (previous_state : option string)
    (reason : string) : M CcbdError unit :=
  row ← query_agent_row agent_id;
  match row with
  | None => mret tt
  | Some a =>
  interrupted ← gets (λ db, head (order_by dispatched_le (agent_jobs agent_id "DISPATCHED" db)));
  let previous_state := default "UNKNOWN" previous_state in
  let action := recovery_action previous_state reason (bool_decide (is_Some interrupted)) in
  let captured (j : Job) :=
    MkCapturedJob j.(j_id) j.(j_request_id) j.(j_prompt_text) j.(j_cancel_requested)
      j.(j_requires_physical_evidence) j.(j_requires_test_evidence) in
  persist_agent_recovery_intent_sync
    (MkIntent agent_id a.(a_session_id) a.(a_provider) previous_state a.(a_state_version)
       (j_id <$> interrupted) (j_status <$> interrupted) (captured <$> interrupted) action reason)
  end.

Definition cleanup_agent_runtime {E} (agent_id : string) (session_id : option string)
    (policy : RuntimeCleanupPolicy) : M E unit :=
  emit (CleanupRuntime agent_id session_id policy).

(** The policy for the agent's provider, read again inside the transaction. *)
Definition query_cleanup_policy (agent_id : string) : M CcbdError RuntimeCleanupPolicy :=
  row ← query_agent_row agent_id;
  mret (from_option (λ a, crashed_cleanup_policy a.(a_provider)) CleanupDefault row).

Definition mark_agent_killed_sync_inner (agent_id reason : string)
    (capture_revive_intent : bool) : M CcbdError nat :=
  r ← transaction (
    row ← query_agent_row agent_id;
    let previous_state := a_state <$> row in
    let cleanup_session_id := a_session_id <$> row in
    when (capture_revive_intent &&
          match previous_state with
          | Some state => (state != "CRASHED") && (state != "KILLED")
          | None => false
          end)
      (capture_recovery_intent_for_crash agent_id previous_state reason);;
    now ← asks w_now;
    changes ← update_agent agent_id (λ a, negb (a.(a_state) is_in ["CRASHED"; "KILLED"]))
                (λ a, bump_version now (set_a_state "KILLED" a));
    when (changes == 1%nat) (
      mark_dispatched_jobs_failed_for_agent_conn_sync agent_id reason;;
      insert_event_null "insert killed state_change" agent_id "state_change"
        (json_object [("from", JString (default "UNKNOWN" previous_state));
                      ("to", JString "KILLED"); ("reason", JString reason)]);;
      mret tt);;
    cleanup_policy ←
      (if bool_decide (0 < changes)%nat && capture_revive_intent then query_cleanup_policy agent_id
       else mret CleanupDefault);
    when (bool_decide (0 < changes)%nat && capture_revive_intent)
      (cleanup_agent_runtime agent_id cleanup_session_id cleanup_policy);;
    mret (Commit (changes, cleanup_session_id, cleanup_policy)));
  let '(changes, cleanup_session_id, cleanup_policy) := r in
  when (bool_decide (0 < changes)%nat && negb capture_revive_intent)
    (cleanup_agent_runtime agent_id cleanup_session_id cleanup_policy);;
  when (bool_decide (0 < changes)%nat) notify_runtime_agent_changed;;
  mret changes.

Definition mark_agent_killed_sync (agent_id reason : string) : M CcbdError nat :=
  mark_agent_killed_sync_inner agent_id reason false.

Definition mark_agent_killed_for_master_death_sync (agent_id reason : string) : M CcbdError nat :=
  mark_agent_killed_sync_inner agent_id reason true.

Definition mark_agent_crashed_sync (agent_id : string) (exit_code : option Z) (error_code : string) :
    M CcbdError nat :=
  r ← transaction (
    row ← query_agent_row agent_id;
    let previous_state := a_state <$> row in
    let cleanup_session_id := a_session_id <$> row in
    now ← asks w_now;
    changes ← update_agent agent_id
      (λ a, negb (a.(a_state) is_in ["CRASHED"; "KILLED"; "PROMPT_PENDING"]))
      (λ a, bump_version now (set_a_error_code (Some error_code)
              (set_a_exit_code exit_code (set_a_state "CRASHED" a))));
    when (changes == 1%nat) (
      let reason := if (error_code == "AGENT_UNEXPECTED_EXIT") && (exit_code == None)
                    then "EXIT_CODE_UNAVAILABLE_NON_CHILD" else error_code in
      capture_recovery_intent_for_crash agent_id previous_state reason;;
      mark_dispatched_jobs_failed_for_agent_conn_sync agent_id reason;;
      insert_event_null "insert crashed state_change" agent_id "state_change"
        (json_object [("from", JString (default "UNKNOWN" previous_state));
                      ("to", JString "CRASHED"); ("reason", JString reason);
                      ("exit_code", json_opt JNumber exit_code)]);;
      mret tt);;
    cleanup_policy ←
      (if bool_decide (0 < changes)%nat then query_cleanup_policy agent_id
       else mret CleanupDefault);
    mret (Commit (changes, cleanup_session_id, cleanup_policy)));
  let '(changes, cleanup_session_id, cleanup_policy) := r in
  when (bool_decide (0 < changes)%nat) (
    cleanup_agent_runtime agent_id cleanup_session_id cleanup_policy;;
    notify_runtime_agent_changed);;
  mret changes.

Definition mark_agent_crashed_with_exit_sync (agent_id : string) (exit_code : option Z) :
    M CcbdError nat :=
  mark_agent_crashed_sync agent_id exit_code "AGENT_UNEXPECTED_EXIT".

(** ** Asynchronous entry points *)

Definition publish_end (affected_job : option string) (changes : nat) : M CcbdError nat :=
  when (bool_decide (0 < changes)%nat) (
    match affected_job with Some job_id => notify_job_update job_id | None => mret tt end;;
    wake_up);;
  mret changes.

Definition mark_agent_killed (agent_id reason : string) : M CcbdError nat :=
  affected_job ← affected_job_id agent_id;
  changes ← mark_agent_killed_sync agent_id reason;
  publish_end affected_job changes.

Definition mark_agent_crashed_with_exit (agent_id : string) (exit_code : option Z) :
    M CcbdError nat :=
  affected_job ← affected_job_id agent_id;
  changes ← mark_agent_crashed_with_exit_sync agent_id exit_code;
  publish_end affected_job changes.

Definition mark_agent_crashed_with_reason (agent_id : string) (exit_code : option Z)
    (reason : string) : M CcbdError nat :=
  affected_job ← affected_job_id agent_id;
  changes ← mark_agent_crashed_sync agent_id exit_code reason;
  publish_end affected_job changes.

(** ** Soundness *)

Lemma sound_capture_intent agent_id prev reason :
  respects sound (capture_recovery_intent_for_crash agent_id prev reason).
Proof. unfold capture_recovery_intent_for_crash, query_agent_row. cbv beta zeta. solve_respects. Qed.

Lemma sound_cleanup_policy agent_id : respects sound (query_cleanup_policy agent_id).
Proof. unfold query_cleanup_policy, query_agent_row. solve_respects. Qed.

Lemma sound_cleanup_runtime {E} agent_id session policy :
  respects sound (cleanup_agent_runtime agent_id session policy : M E unit).
Proof. unfold cleanup_agent_runtime. solve_respects. Qed.
#[local] Hint Resolve sound_capture_intent sound_cleanup_policy sound_cleanup_runtime : respects.

Lemma sound_killed_inner agent_id reason capture :
  respects sound (mark_agent_killed_sync_inner agent_id reason capture).
Proof. unfold mark_agent_killed_sync_inner, query_agent_row. cbv beta zeta. solve_respects. Qed.

Lemma sound_crashed_sync agent_id exit_code error_code :
  respects sound (mark_agent_crashed_sync agent_id exit_code error_code).
Proof. unfold mark_agent_crashed_sync, query_agent_row. cbv beta zeta. solve_respects. Qed.

Lemma sound_publish_end job changes : respects sound (publish_end job changes).
Proof. unfold publish_end, wake_up. solve_respects. Qed.
#[local] Hint Resolve sound_killed_inner sound_crashed_sync sound_publish_end sound_affected_job :
  respects.

Lemma sound_killed agent_id reason : respects sound (mark_agent_killed agent_id reason).
Proof. unfold mark_agent_killed, mark_agent_killed_sync. solve_respects. Qed.

Lemma sound_killed_for_master agent_id reason :
  respects sound (mark_agent_killed_for_master_death_sync agent_id reason).
Proof. unfold mark_agent_killed_for_master_death_sync. solve_respects. Qed.

Lemma sound_crashed_with_exit agent_id exit_code :
  respects sound (mark_agent_crashed_with_exit agent_id exit_code).
Proof.
  unfold mark_agent_crashed_with_exit, mark_agent_crashed_with_exit_sync. solve_respects.
Qed.

Lemma sound_crashed_with_reason agent_id exit_code reason :
  respects sound (mark_agent_crashed_with_reason agent_id exit_code reason).
Proof. unfold mark_agent_crashed_with_reason. solve_respects. Qed.

End Lifecycle.
#[export] Hint Resolve sound_killed sound_killed_for_master sound_crashed_with_exit
  sound_crashed_with_reason : respects.
