(* ===== verification/Startup.v ===== *)
(** * Cascades and startup ([src/src/db/system.rs], [src/src/db/system/startup.rs])

    Ending a session's workers when its master or its anchor is gone, and what a
    restarted daemon does with what it finds: agents whose process or pipe is
    gone are crashed, recovery windows past their deadline are expired and their
    sessions ended, and the systemd scopes of nothing that lives are stopped.

    What the host answers is an input: the systemd units and whether stopping
    one works ([SystemctlRunner]), and processes, pipes and registries
    ([Host]).  Stops, kills and cleanups are effects. *)
From S2P Require Import Prelude Json Schema Sql MasterTables JobGate Invariant MasterSound AgentGate Text Sessions.
From S2P Require Import Cutovers MasterRecovery MasterRevival ReplyText Jobs StateMachine Agents Recovery Lifecycle Providers.

(** ** The host *)

(** [io::Error], by the kind the callers tell apart. *)
Inductive IoError : Type := IoNotFound | IoOther (message : string).

Record ScopeUnit : Type := MkScopeUnit { su_unit : string; su_description : string }.

(** [trait SystemctlRunner] *)
Record SystemctlRunner : Type := MkRunner {
  list_scope_units : Result (list ScopeUnit) IoError;
  stop_unit : string → Result unit IoError
}.

Inductive ProcessLiveness : Type := Alive | Dead | LivenessUnknown.

(** [host_liveness]: [kill_zero_check]; [host_fifo_opens]: the agent's pipe
    exists and opens; [host_pidfd_open]: opening and cloning a pidfd for a
    process; [host_sigkill]: what sending SIGKILL through the pidfd registered
    for a key answers, [None] when none is registered; [host_sweep]: sweeping
    stale tmux sockets. *)
Record Host : Type := MkHost {
  host_liveness : Z → ProcessLiveness;
  host_fifo_opens : string → bool;
  host_pidfd_open : Z → Result unit CcbdError;
  host_sigkill : string → option bool;
  host_sweep : Result nat CcbdError
}.

(** Contents of the process-wide registries: [agent_io], marker timers, screen
    parsers, completion-log monitors. *)
Record Registries : Type := MkRegistries {
  g_agent_io : gset string;
  g_timers : gset string;
  g_parsers : gset string;
  g_logs : gset string
}.

(** ** Daemon marker *)

Inductive DaemonMarkerProvenance : Type := MarkerExplicit | MarkerAmbient.
Record DaemonMarker : Type := MkDaemonMarker {
  dm_value : string;
  dm_provenance : DaemonMarkerProvenance
}.
Definition may_stop_scopes (m : DaemonMarker) : bool :=
  match m.(dm_provenance) with MarkerExplicit => true | MarkerAmbient => false end.

(** [src/src/platform/linux/scope.rs] *)
Definition is_own_ccbd_scope (scope : ScopeUnit) (daemon_marker : string) : bool :=
  contains scope.(su_description) ("@" +:+ daemon_marker).
Definition is_orphan_scope (scope : ScopeUnit) (live_refs : list string) : bool :=
  let searchable := scope.(su_unit) +:+ " " +:+ scope.(su_description) in
  negb (existsb (λ reference, contains searchable reference) live_refs).

(** ** Master death *)

Record MasterDeathSessionSnapshot : Type := MkSnapshot {
  sn_classification : MasterDeathSessionActivity;
  sn_worker_ids_to_reap : list string
}.

Record WorkerRuntimeCleanupOutcome : Type := MkCleanupOutcome {
  co_db_killed_count : nat;
  co_scope_stop_failures : nat;
  co_pidfd_kill_failures : nat;
  co_registry_cleanup_count : nat
}.

Definition is_err {A E : Type} (r : Result A E) : bool :=
  match r with Ok _ => false | Err _ => true end.

Definition agent_scope_needle (daemon_marker agent_id : string) : string :=
  "ccbd-agent-" +:+ agent_id +:+ "@" +:+ daemon_marker.

(** The agent a scope belongs to: the first whose needle its description holds. *)
Definition scope_agent (daemon_marker : string) (agent_ids : list string) (scope : ScopeUnit) :
    option string :=
  List.find (λ agent_id, contains scope.(su_description) (agent_scope_needle daemon_marker agent_id))
    agent_ids.

Section Startup.
Context {EXT : Externals} {SPEC : SpawnSpecSerde}.

(** [SELECT id, state FROM agents WHERE session_id = ? ORDER BY created_at ASC, id ASC] *)
Definition session_workers (session_id : string) (db : Db) : list Agent :=
  order_by agent_created_le (session_agents session_id db).

Definition snapshot_master_death_session_activity (session_id : string) :
    M CcbdError MasterDeathSessionSnapshot :=
  transaction (
    worker_rows ← gets (session_workers session_id);
    let has_active_worker := existsb (λ a,
      a.(a_state) is_in [STATE_SPAWNING; STATE_WAITING_FOR_ACK; STATE_BUSY; STATE_PROMPT_PENDING])
      worker_rows in
    has_queued_or_dispatched_job ← gets (session_has_open_job session_id);
    mret (Commit (MkSnapshot
      (if has_active_worker || has_queued_or_dispatched_job then ActiveWork else IdleNoWork)
      (a_id <$> worker_rows)))).

(** Cancelling what is registered for the workers, counting what was. *)
Fixpoint drop_registered (reg : Registries) (worker_ids : list string) (count : nat) :
    M CcbdError nat :=
  match worker_ids with
  | [] => mret count
  | id :: rest =>
      let io := id is_in elements reg.(g_agent_io) in
      let timer := id is_in elements reg.(g_timers) in
      let parser := id is_in elements reg.(g_parsers) in
      let log := id is_in elements reg.(g_logs) in
      when timer (emit (DropTimer id));;
      when parser (emit (DropParser id));;
      when log (emit (DropLogMonitor id));;
      drop_registered
        (MkRegistries reg.(g_agent_io) (reg.(g_timers) ∖ {[id]}) (reg.(g_parsers) ∖ {[id]})
           (reg.(g_logs) ∖ {[id]}))
        rest (count + Nat.b2n io + Nat.b2n timer + Nat.b2n parser + Nat.b2n log)
  end.

(** Stopping the scopes of the given agents, counting failures; a missing unit
    counts as one here. *)
Fixpoint stop_worker_scopes (runner : SystemctlRunner) (daemon_marker : string)
    (worker_ids : list string) (scopes : list ScopeUnit) (failures : nat) : M CcbdError nat :=
  match scopes with
  | [] => mret failures
  | scope :: rest =>
      match scope_agent daemon_marker worker_ids scope with
      | None => stop_worker_scopes runner daemon_marker worker_ids rest failures
      | Some _ =>
          emit (StopUnit scope.(su_unit));;
          stop_worker_scopes runner daemon_marker worker_ids rest
            (failures + Nat.b2n (is_err (runner.(stop_unit) scope.(su_unit))))
      end
  end.

(** SIGKILL and the database's record of the death, worker by worker.  The ids
    are those of one [SELECT], so each worker is visited once. *)
Fixpoint kill_workers (host : Host) (reason : string) (worker_ids : list string)
    (killed pidfd_failures : nat) : M CcbdError (nat * nat) :=
  match worker_ids with
  | [] => mret (killed, pidfd_failures)
  | id :: rest =>
      when (bool_decide (is_Some (host.(host_sigkill) id))) (emit (SigKill id));;
      changes ← mark_agent_killed_for_master_death_sync id reason;
      kill_workers host reason rest (killed + changes)
        (pidfd_failures + Nat.b2n (host.(host_sigkill) id != Some true))
  end.

Definition clean_worker_runtime_resources_with_runner_sync (host : Host) (reg : Registries)
    (session_id : string) (worker_ids : list string) (reason : string)
    (daemon_marker : option string) (preserve_session_anchor : bool) (runner : SystemctlRunner) :
    M CcbdError WorkerRuntimeCleanupOutcome :=
  registry_cleanup_count ← drop_registered reg worker_ids 0%nat;
  scope_stop_failures ←
    match daemon_marker with
    | None => mret 0%nat
    | Some marker =>
        let scopes := match runner.(list_scope_units) with Ok scopes => scopes | Err _ => [] end in
        failures ← stop_worker_scopes runner marker worker_ids scopes 0%nat;
        when (negb preserve_session_anchor) (emit (StopUnit (unit_name_for_session session_id)));;
        mret failures
    end;
  r ← kill_workers host reason worker_ids 0%nat 0%nat;
  for_ worker_ids (λ id, emit (DropParser id);; emit (DropLogMonitor id);; emit (DropMonitor id));;
  mret (MkCleanupOutcome r.1 scope_stop_failures r.2 registry_cleanup_count).

(** ** Ending a session's agents *)

Definition stop_agent_scopes_with_runner (agent_ids : list string) (daemon_marker : string)
    (runner : SystemctlRunner) : M CcbdError unit :=
  match runner.(list_scope_units) with
  | Err _ => mret tt
  | Ok scopes =>
      for_ scopes (λ scope,
        match scope_agent daemon_marker agent_ids scope with
        | None => mret tt
        | Some _ => emit (StopUnit scope.(su_unit))
        end)
  end.

Definition stop_session_anchor_with_runner (session_id : string) : M CcbdError unit :=
  emit (StopUnit (unit_name_for_session session_id)).

Fixpoint cascade_kill (host : Host) (reason : string) (agent_ids : list string) (changed : nat) :
    M CcbdError nat :=
  match agent_ids with
  | [] => mret changed
  | id :: rest =>
      when (bool_decide (is_Some (host.(host_sigkill) id))) (emit (SigKill id));;
      changes ← mark_agent_killed_sync id reason;
      emit (DropTimer id);;
      emit (DropParser id);;
      cascade_kill host reason rest (changed + changes)
  end.

(** [SELECT id FROM agents WHERE session_id = ? AND state NOT IN ('CRASHED',
    'KILLED')], which names no order: the rows' own. *)
Definition live_agent_ids (session_id : string) (db : Db) : list string :=
  a_id <$> filter (λ a, tracked a = true) (session_agents session_id db).

Definition cascade_kill_session_agents_with_runner_sync (host : Host) (session_id reason : string)
    (daemon_marker : option string) (runner : SystemctlRunner) : M CcbdError nat :=
  status_changed ← update_session session_id (λ s, s.(s_status) == "ACTIVE") (set_s_status "KILLED");
  when (bool_decide (0 < status_changed)%nat) (notify_runtime_changed InventoryChanged);;
  status ← gets (λ db, s_status <$> db.(sessions) !! session_id);
  if (status_changed == 0%nat) &&
     match status with Some st => negb (st is_in ["KILLED"; "FAILED"; "CLOSED"]) | None => true end
  then mret 0%nat
  else
  agent_ids ← gets (live_agent_ids session_id);
  match daemon_marker with
  | Some marker =>
      stop_agent_scopes_with_runner agent_ids marker runner;;
      stop_session_anchor_with_runner session_id
  | None => mret tt
  end;;
  cascade_kill host reason agent_ids 0%nat.

Definition session_agent_ids_sync (session_id : string) : M CcbdError (list string) :=
  gets (λ db, a_id <$> session_workers session_id db).

(** ** Startup: agents *)

Record StartupCrashCandidate : Type := MkCrashCandidate {
  sc_agent : Agent;
  sc_reason : string
}.

(** [recovery_eligible_orphan_scope_should_be_preserved] *)
Definition recovery_eligible_orphan_scope_should_be_preserved (provider agent_state : string) :
    bool :=
  (agent_state == "CRASHED") && is_recovery_eligible_provider provider.

(** [state IN ('SPAWNING', 'WAITING_FOR_ACK', 'BUSY', 'IDLE')] *)
Definition startup_state (state : string) : bool :=
  state is_in ["SPAWNING"; "WAITING_FOR_ACK"; "BUSY"; "IDLE"].

Definition startup_reconcile_phase_a_select_candidates : M CcbdError (list Agent) :=
  transaction (
    candidates ← gets (λ db, filter (λ a, startup_state a.(a_state) = true) (table_rows db.(agents)));
    mret (Commit candidates)).

(** [probe_pid_alive]: a process of unknown liveness is an error, which the
    caller takes for dead.  [pid as i32] keeps the low 32 bits. *)
Definition as_i32 (n : Z) : Z :=
  let m := n mod 2 ^ 32 in if m <? 2 ^ 31 then m else m - 2 ^ 32.
Definition probe_alive (host : Host) (pid : option Z) : bool :=
  match pid with
  | None => false
  | Some pid => match host.(host_liveness) (as_i32 pid) with Alive => true | _ => false end
  end.

Definition startup_reconcile_phase_b_probe_pids (host : Host) (candidates : list Agent) :
    list StartupCrashCandidate * list Agent :=
  ((λ a, MkCrashCandidate a "STARTUP_RECONCILE_DEAD_PID") <$>
     filter (λ a, probe_alive host a.(a_pid) = false) candidates,
   filter (λ a, probe_alive host a.(a_pid) = true) candidates).

Definition startup_reconcile_phase_b2_prepare_alive_io (host : Host) (state_dir : option string)
    (alive : list Agent) : list StartupCrashCandidate * list Agent :=
  match state_dir with
  | None => ([], [])
  | Some _ =>
      ((λ a, MkCrashCandidate a "STARTUP_RECONCILE_FIFO_REATTACH_FAILED") <$>
         filter (λ a, host.(host_fifo_opens) a.(a_id) = false) alive,
       filter (λ a, host.(host_fifo_opens) a.(a_id) = true) alive)
  end.

Fixpoint crash_dead (dead : list StartupCrashCandidate) (changed : nat) : M CcbdError nat :=
  match dead with
  | [] => mret changed
  | crash :: rest =>
      let candidate := crash.(sc_agent) in
      now ← asks w_now;
      changes ← update_agent candidate.(a_id) (λ a, startup_state a.(a_state))
        (λ a, bump_version now (set_a_error_code (Some crash.(sc_reason)) (set_a_state "CRASHED" a)));
      if changes == 1%nat then
        insert_event_null "insert startup reconcile dead-pid state_change" candidate.(a_id)
          "state_change"
          (json_object [("from", JString candidate.(a_state)); ("to", JString "CRASHED");
                        ("reason", JString crash.(sc_reason))]);;
        mark_dispatched_jobs_failed_for_agent_conn_sync candidate.(a_id) crash.(sc_reason);;
        crash_dead rest (S changed)
      else crash_dead rest changed
  end.

Definition startup_reconcile_phase_c_crash_dead (dead : list StartupCrashCandidate) :
    M CcbdError nat :=
  match dead with
  | [] => mret 0%nat
  | _ =>
      changed ← transaction (changed ← crash_dead dead 0%nat; mret (Commit changed));
      for_ dead (λ crash,
        let a := crash.(sc_agent) in
        emit (CleanupRuntime a.(a_id) (Some a.(a_session_id))
          (if recovery_eligible_orphan_scope_should_be_preserved a.(a_provider) "CRASHED"
           then PreserveRecoverableCrashedHome else CleanupDefault)));;
      mret changed
  end.

Fixpoint startup_reconcile_phase_d_reregister_alive (host : Host) (alive : list Agent) :
    M CcbdError unit :=
  match alive with
  | [] => mret tt
  | a :: rest =>
      match a.(a_pid) with
      | None => startup_reconcile_phase_d_reregister_alive host rest
      | Some pid =>
          match host.(host_pidfd_open) (as_i32 pid) with
          | Ok _ =>
              emit (ReattachAgent a.(a_id));;
              startup_reconcile_phase_d_reregister_alive host rest
          | Err (AgentUnexpectedExit _) => startup_reconcile_phase_d_reregister_alive host rest
          | Err err => throw err
          end
      end
  end.

(** The phase that only logs which agents keep a pending prompt writes nothing
    and is left out. *)
Definition reconcile_active_agents_to_crashed_sync (host : Host) (state_dir : option string) :
    M CcbdError nat :=
  candidates ← startup_reconcile_phase_a_select_candidates;
  let '(dead, alive) := startup_reconcile_phase_b_probe_pids host candidates in
  let '(reattach_dead, reattachable_alive) :=
    startup_reconcile_phase_b2_prepare_alive_io host state_dir alive in
  let dead := dead ++ reattach_dead in
  changed ← startup_reconcile_phase_c_crash_dead dead;
  when (bool_decide (is_Some state_dir)) (
    for_ dead (λ crash,
      let a := crash.(sc_agent) in
      emit (RemoveSandboxDir a.(a_session_id) a.(a_id)
              (is_recovery_eligible_provider a.(a_provider)))));;
  startup_reconcile_phase_d_reregister_alive host reattachable_alive;;
  mret changed.

(** ** Startup: recovery windows *)

(** [ORDER BY created_at ASC, session_id ASC] *)
Definition window_le : relation WindowRow :=
  lex_le (λ r q, r.(m_created_at) < q.(m_created_at)) (λ r q, r.(m_created_at) = q.(m_created_at))
    (λ r q, String.le r.(m_session_id) q.(m_session_id)).
#[global] Instance window_le_dec : RelDecision window_le.
Proof. unfold window_le, lex_le. intros r q. apply _. Defined.

Fixpoint reconcile_windows (host : Host) (now : Z) (daemon_marker : DaemonMarker)
    (runner : SystemctlRunner) (windows : list WindowRow) (count : nat) : M CcbdError nat :=
  match windows with
  | [] => mret count
  | window :: rest =>
      if window.(m_phase) is_in ["COMPLETED"; "FAILED"; "FUSED"] then
        reconcile_windows host now daemon_marker runner rest count
      else if now <=? window.(m_defer_until) then
        reconcile_windows host now daemon_marker runner rest count
      else
      expired ← expire_master_recovery_window_sync window.(m_session_id) now;
      if (expired : bool) then
        cascade_kill_session_agents_with_runner_sync host window.(m_session_id)
          "MASTER_REVIVE_WINDOW_EXPIRED"
          (if may_stop_scopes daemon_marker then Some daemon_marker.(dm_value) else None) runner;;
        reconcile_windows host now daemon_marker runner rest (S count)
      else reconcile_windows host now daemon_marker runner rest count
  end.

Definition reconcile_master_recovery_windows_with_marker_sync (host : Host) (now : Z)
    (daemon_marker : DaemonMarker) (runner : SystemctlRunner) : M CcbdError nat :=
  windows ← gets (λ db, order_by window_le (table_rows db.(recovery_windows)));
  reconcile_windows host now daemon_marker runner windows 0%nat.

(** ** Startup: scopes *)

(** [agents.state NOT IN ('CRASHED', 'KILLED') OR (agents.state = 'CRASHED' AND
    agents.provider IN ('codex', 'claude', 'antigravity'))] *)
Definition scope_worthy (a : Agent) : bool :=
  tracked a ||
  ((a.(a_state) == "CRASHED") && (a.(a_provider) is_in ["codex"; "claude"; "antigravity"])).

Definition session_active (session_id : string) (db : Db) : bool :=
  (s_status <$> db.(sessions) !! session_id) == Some "ACTIVE".

(** The ids that keep a scope alive: the agents worth a scope in an active
    session, and those sessions.  The set has no order. *)
Definition active_session_and_agent_refs (db : Db) : list string :=
  let live := filter (λ a, scope_worthy a && session_active a.(a_session_id) db = true)
                (table_rows db.(agents)) in
  (a_session_id <$> live) ++ (a_id <$> live).

Fixpoint stop_orphans (runner : SystemctlRunner) (marker : string) (live_refs : list string)
    (dry_run : bool) (scopes : list ScopeUnit) (stopped : nat) : M CcbdError nat :=
  match scopes with
  | [] => mret stopped
  | scope :: rest =>
      if negb (is_own_ccbd_scope scope marker) || negb (is_orphan_scope scope live_refs) then
        stop_orphans runner marker live_refs dry_run rest stopped
      else if dry_run then stop_orphans runner marker live_refs dry_run rest (S stopped)
      else
      emit (StopUnit scope.(su_unit));;
      stop_orphans runner marker live_refs dry_run rest
        (stopped + Nat.b2n (negb (is_err (runner.(stop_unit) scope.(su_unit)))))
  end.

Definition reconcile_orphan_scopes_with_marker_sync (runner : SystemctlRunner)
    (daemon_marker : DaemonMarker) (dry_run : bool) : M CcbdError nat :=
  if negb (may_stop_scopes daemon_marker) then mret 0%nat
  else
  live_refs ← gets active_session_and_agent_refs;
  match runner.(list_scope_units) with
  | Err _ => mret 0%nat
  | Ok scopes => stop_orphans runner daemon_marker.(dm_value) live_refs dry_run scopes 0%nat
  end.

(** ** Startup *)

Definition reconcile_startup_with_tmux_socket_sync_and_runner (host : Host) (state_dir : string)
    (daemon_marker : DaemonMarker) (runner : SystemctlRunner) (now : Z) (orphan_dry_run : bool) :
    M CcbdError nat :=
  agents_count ← reconcile_active_agents_to_crashed_sync host (Some state_dir);
  recovery_count ← reconcile_master_recovery_windows_with_marker_sync host now daemon_marker runner;
  scopes_count ← reconcile_orphan_scopes_with_marker_sync runner daemon_marker orphan_dry_run;
  of_result host.(host_sweep);;
  mret (agents_count + recovery_count + scopes_count)%nat.

(** [select_startup_claude_gateway_seats_sync]: the workers, by agent and
    session, and the sessions whose gateway is restored. *)
Definition select_startup_claude_gateway_seats_sync :
    M CcbdError (list (string * string) * list string) :=
  workers ← gets (λ db, order_by agent_created_le (filter (λ a, a.(a_provider) = "claude" ∧
      (a.(a_state) is_in ["SPAWNING"; "WAITING_FOR_ACK"; "BUSY"; "IDLE"; "PROMPT_PENDING"]) = true)
      (table_rows db.(agents))));
  seats ← gets (λ db, order_by session_created_le
             (filter (λ s, s.(s_status) = "ACTIVE") (table_rows db.(sessions))));
  mret ((λ a, (a.(a_id), a.(a_session_id))) <$> workers, s_id <$> seats).

(** ** Soundness *)

#[local] Hint Resolve sound_killed_for_master sound_killed_inner : respects.

Lemma sound_killed_sync agent_id reason : respects sound (mark_agent_killed_sync agent_id reason).
Proof. unfold mark_agent_killed_sync. solve_respects. Qed.
#[local] Hint Resolve sound_killed_sync : respects.

Lemma sound_drop_registered reg ids n : respects sound (drop_registered reg ids n).
Proof. induction ids in reg, n |- *; simpl; solve_respects. Qed.
Lemma sound_stop_worker_scopes runner marker ids scopes n :
  respects sound (stop_worker_scopes runner marker ids scopes n).
Proof. induction scopes in n |- *; simpl; solve_respects. Qed.
Lemma sound_kill_workers host reason ids n m : respects sound (kill_workers host reason ids n m).
Proof. induction ids in n, m |- *; simpl; solve_respects. Qed.
#[local] Hint Resolve sound_drop_registered sound_stop_worker_scopes sound_kill_workers : respects.

Lemma sound_snapshot session_id :
  respects sound (snapshot_master_death_session_activity session_id).
Proof. unfold snapshot_master_death_session_activity. cbv zeta. solve_respects. Qed.

Lemma sound_clean_workers host reg sid ids reason marker keep runner :
  respects sound (clean_worker_runtime_resources_with_runner_sync host reg sid ids reason marker
                    keep runner).
Proof. unfold clean_worker_runtime_resources_with_runner_sync. cbv zeta. solve_respects. Qed.

Lemma sound_cascade_kill host reason ids n : respects sound (cascade_kill host reason ids n).
Proof. induction ids in n |- *; simpl; solve_respects. Qed.
#[local] Hint Resolve sound_cascade_kill : respects.

Lemma sound_set_killed {E} sid :
  respects sound (update_session sid (λ s, s.(s_status) == "ACTIVE") (set_s_status "KILLED") :
                    M E nat).
Proof. apply sound_update_session. solve_master_row. Qed.
#[local] Hint Resolve sound_set_killed : respects.

Lemma sound_cascade host sid reason marker runner :
  respects sound (cascade_kill_session_agents_with_runner_sync host sid reason marker runner).
Proof.
  unfold cascade_kill_session_agents_with_runner_sync, stop_agent_scopes_with_runner,
    stop_session_anchor_with_runner. solve_respects.
Qed.
#[local] Hint Resolve sound_cascade : respects.

Lemma sound_crash_dead dead n : respects sound (crash_dead dead n).
Proof. induction dead in n |- *; cbn [crash_dead]; cbv zeta; solve_respects. Qed.
#[local] Hint Resolve sound_crash_dead : respects.

Lemma sound_reregister host alive :
  respects sound (startup_reconcile_phase_d_reregister_alive host alive).
Proof. induction alive; cbn [startup_reconcile_phase_d_reregister_alive]; solve_respects. Qed.
#[local] Hint Resolve sound_reregister : respects.

Lemma sound_reconcile_agents host dir :
  respects sound (reconcile_active_agents_to_crashed_sync host dir).
Proof.
  unfold reconcile_active_agents_to_crashed_sync, startup_reconcile_phase_a_select_candidates,
    startup_reconcile_phase_c_crash_dead. cbv zeta. solve_respects.
Qed.

Lemma sound_reconcile_windows host now marker runner ws n :
  respects sound (reconcile_windows host now marker runner ws n).
Proof. induction ws in n |- *; cbn [reconcile_windows]; solve_respects. Qed.
#[local] Hint Resolve sound_reconcile_agents sound_reconcile_windows : respects.

Lemma sound_stop_orphans runner marker refs dry scopes n :
  respects sound (stop_orphans runner marker refs dry scopes n).
Proof. induction scopes in n |- *; cbn [stop_orphans]; solve_respects. Qed.
#[local] Hint Resolve sound_stop_orphans : respects.

Lemma sound_startup host dir marker runner now dry :
  respects sound (reconcile_startup_with_tmux_socket_sync_and_runner host dir marker runner now dry).
Proof.
  unfold reconcile_startup_with_tmux_socket_sync_and_runner,
    reconcile_master_recovery_windows_with_marker_sync, reconcile_orphan_scopes_with_marker_sync.
  solve_respects.
Qed.

End Startup.

#[export] Hint Resolve sound_snapshot sound_clean_workers sound_cascade sound_startup : respects.
