(* ===== verification/Outbox.v ===== *)
(** * The outbox transport ([src/src/outbox/mod.rs])

    An agent's hook writes a record durably into a directory before it calls
    the daemon; the daemon consumes each record through a ledger keyed by the
    record's [event_id], in the transaction that applies its effect, and
    removes the file after the commit.  At start the directories are scanned
    and every record left there is replayed.

    A directory is the map of its files, by name, and of the files of its
    [dead/] subdirectory.  Which system calls fail is an input. *)
From S2P Require Import Prelude Json Schema Sql MasterTables JobGate Invariant AgentGate Text.
From Stdlib Require Import Ascii.

Definition SELFCHECK_PREFIX : string := "selfcheck:".
Definition MAX_APPLY_ATTEMPTS : Z := 3.

Inductive OutboxKind : Type := HookEvent | JobDone | JobFail | Selfcheck.
#[global] Instance OutboxKind_eq_dec : EqDecision OutboxKind.
Proof. solve_decision. Defined.

Definition kind_as_str (k : OutboxKind) : string :=
  match k with
  | HookEvent => "hook_event"
  | JobDone => "job_done"
  | JobFail => "job_fail"
  | Selfcheck => "selfcheck"
  end.

Record OutboxRecord : Type := MkOutboxRecord {
  or_event_id : string;
  or_kind : OutboxKind;
  or_agent_id : string;
  or_provider : option string;
  or_event : option string;
  or_attempt_cookie : option string;
  or_job_id : option string;
  or_reply_text : option string;
  or_reason : option string;
  or_hook_fired_at : option Z;
  or_payload : option Value
}.

(** What a record serializes without loss: a timestamp of 64 bits, a payload
    that is a JSON value and is not [null] (an absent field is read as [None]). *)
Definition record_wf (r : OutboxRecord) : Prop :=
  match r.(or_hook_fired_at) with None => True | Some t => i64_min ≤ t ≤ i64_max end ∧
  match r.(or_payload) with None => True | Some v => v ≠ JNull ∧ value_wf v end.

(** Serializing a record is code the [serde] macros generate: a parameter,
    with the round trip as its law. *)
Class OutboxSerde := {
  record_to_string : OutboxRecord → string;
  record_from_str : string → option OutboxRecord;
  record_from_to r : record_wf r → record_from_str (record_to_string r) = Some r
}.

Definition is_reserved_selfcheck_id (event_id : string) : bool :=
  starts_with event_id SELFCHECK_PREFIX.
Definition is_reserved_selfcheck (r : OutboxRecord) : bool :=
  is_reserved_selfcheck_id r.(or_event_id).

(** ** File names *)

(** [char::is_control]: U+0000 to U+001F and U+007F to U+009F. *)
Definition is_control (c : string) : bool :=
  match c with
  | String b EmptyString =>
      bool_decide (nat_of_ascii b < 32)%nat || (nat_of_ascii b == 127%nat)
  | String b0 (String b1 EmptyString) =>
      (nat_of_ascii b0 == 194%nat) && bool_decide (nat_of_ascii b1 < 160)%nat
  | _ => false
  end.

Definition sanitize_char (c : string) : string :=
  if (c == "/") || (c == "\") || (c == byte_str 0) || is_control c then "_" else c.
Definition sanitize_path_component (raw : string) : string :=
  concat_str (sanitize_char <$> chars raw).

Definition record_json_filename (event_id : string) : string :=
  sanitize_path_component event_id +:+ ".json".
Definition record_tmp_filename (event_id : string) : string :=
  sanitize_path_component event_id +:+ ".tmp".

Definition ends_with (s suffix : string) : bool :=
  bool_decide (String.length suffix ≤ String.length s)%nat &&
  (str_drop (String.length s - String.length suffix) s == suffix).

(** A regular file whose extension is [json]; [".json"] itself has none. *)
Definition is_scannable_json (name : string) : bool :=
  ends_with name ".json" && bool_decide (5 < String.length name)%nat.

(** ** Directories *)

Record OutboxDir : Type := MkOutboxDir {
  od_files : gmap string string;
  od_dead : gmap string string
}.

Definition remove_file (name : string) (d : OutboxDir) : OutboxDir :=
  MkOutboxDir (delete name d.(od_files)) d.(od_dead).
Definition write_file (name bytes : string) (d : OutboxDir) : OutboxDir :=
  MkOutboxDir (<[name := bytes]> d.(od_files)) d.(od_dead).

(** ** Journal-first write *)

(** The calls of [journal_record] that can fail. *)
Inductive JournalStep : Type :=
| CreateDirAll | CreateTmp | WriteAll | SyncFile | Rename | FsyncDir | RemoveTmp.

Section Journal.
Context {OUT : OutboxSerde}.

(** The closure of [journal_record]; [partial] is what a failed write leaves. *)
Definition journal_commit (fails : JournalStep → bool) (partial : string)
    (final_path tmp_path bytes : string) (d : OutboxDir) : bool * OutboxDir :=
  if fails CreateTmp then (false, d)
  else if fails WriteAll then (false, write_file tmp_path partial d)
  else let d := write_file tmp_path bytes d in
  if fails SyncFile then (false, d)
  else if fails Rename then (false, d)
  else let d := write_file final_path bytes (remove_file tmp_path d) in
  if fails FsyncDir then (false, d)
  else (true, d).

Definition journal_record (fails : JournalStep → bool) (partial : string) (d : OutboxDir)
    (record : OutboxRecord) : Result string unit * OutboxDir :=
  if fails CreateDirAll then (Err tt, d)
  else
  let final_path := record_json_filename record.(or_event_id) in
  let tmp_path := record_tmp_filename record.(or_event_id) in
  let bytes := record_to_string record in
  match journal_commit fails partial final_path tmp_path bytes d with
  | (true, d') => (Ok final_path, d')
  | (false, d') => (Err tt, if fails RemoveTmp then d' else remove_file tmp_path d')
  end.

End Journal.

(** ** The consume boundary *)

Inductive ConsumeOutcome : Type := FirstSeen | Duplicate.

Inductive ConsumeError : Type :=
| CeDb (err : SqlError)
| CeMalformed (msg : string).

Section Consume.
Context {EXT : Externals}.

(** [INSERT INTO outbox_consumed(event_id, kind) ... ON CONFLICT(event_id) DO NOTHING] *)
Definition insert_consumed {E} (event_id kind : string) : M E nat := λ w,
  match w.(w_db).(outbox_consumed) !! event_id with
  | Some _ => (Ok 0%nat, w)
  | None =>
      (Ok 1%nat, set_db (set_outbox_consumed (<[event_id := kind]> w.(w_db).(outbox_consumed))
                           w.(w_db)) w)
  end.

Definition hook_event_payload (record : OutboxRecord) : Value :=
  json_object [("source", JString "outbox"); ("hook_event", json_opt JString record.(or_event));
               ("provider", json_opt JString record.(or_provider));
               ("event_id", JString record.(or_event_id));
               ("attempt_cookie", json_opt JString record.(or_attempt_cookie));
               ("schema_version", JNumber 1)].

Definition apply_hook_event (record : OutboxRecord) : M ConsumeError unit :=
  map_err CeDb (insert_event_row record.(or_agent_id) None "hook_event"
                  (json_to_string (hook_event_payload record)));;
  mret tt.

Definition insert_declaration_row (event_id : string) (row : Z → JobDeclaration) :
    M SqlError unit := λ w,
  match w.(w_db).(outbox_job_declarations) !! event_id with
  | Some _ => (Err (PrimaryKeyViolation "outbox_job_declaration_stub.event_id"), w)
  | None =>
      (Ok tt, set_db (set_outbox_job_declarations
                        (<[event_id := row w.(w_now)]> w.(w_db).(outbox_job_declarations))
                        w.(w_db)) w)
  end.

Definition apply_job_declaration_stub (record : OutboxRecord) : M ConsumeError unit :=
  match record.(or_job_id) with
  | None => throw (CeMalformed "job declaration missing job_id")
  | Some job_id =>
      map_err CeDb (insert_declaration_row record.(or_event_id) (λ now,
        MkJobDeclaration job_id (kind_as_str record.(or_kind)) record.(or_attempt_cookie)
          record.(or_reply_text) record.(or_reason) now))
  end.

Definition consume_record (record : OutboxRecord) : M ConsumeError ConsumeOutcome :=
  if match record.(or_kind) with JobDone | JobFail => true | _ => false end &&
     (record.(or_job_id) == None) then
    throw (CeMalformed (kind_as_str record.(or_kind) +:+ " record " +:+ record.(or_event_id)
                        +:+ " has no job_id"))
  else
  transaction (
    inserted ← insert_consumed record.(or_event_id) (kind_as_str record.(or_kind));
    if inserted == 0%nat then mret (Rollback Duplicate)
    else
    match record.(or_kind) with
    | HookEvent => apply_hook_event record
    | JobDone | JobFail => apply_job_declaration_stub record
    | Selfcheck => mret tt
    end;;
    mret (Commit FirstSeen)).

(** ** Retry bookkeeping *)

Definition bump_apply_failure (event_id error : string) (w : World) : Z * World :=
  let t := w.(w_db).(outbox_apply_failures) in
  let attempts := from_option (λ f, f.(f_attempts) + 1) 1 (t !! event_id) in
  (attempts,
   set_db (set_outbox_apply_failures
             (<[event_id := MkApplyFailure attempts (Some error) w.(w_now)]> t) w.(w_db)) w).

Definition clear_apply_failure {E} (event_id : string) : M E unit :=
  modify_db (λ db, set_outbox_apply_failures (delete event_id db.(outbox_apply_failures)) db).

End Consume.

(** ** Cold scan *)

Record ScanReport : Type := MkScanReport {
  sr_scanned : nat;
  sr_consumed : nat;
  sr_duplicates : nat;
  sr_quarantined : nat;
  sr_retry_deferred : nat
}.
Definition empty_report : ScanReport := MkScanReport 0 0 0 0 0.

Definition merge_report (a b : ScanReport) : ScanReport :=
  MkScanReport (a.(sr_scanned) + b.(sr_scanned)) (a.(sr_consumed) + b.(sr_consumed))
    (a.(sr_duplicates) + b.(sr_duplicates)) (a.(sr_quarantined) + b.(sr_quarantined))
    (a.(sr_retry_deferred) + b.(sr_retry_deferred)).

Definition one_consumed : ScanReport := MkScanReport 0 1 0 0 0.
Definition one_duplicate : ScanReport := MkScanReport 0 0 1 0 0.
Definition one_quarantined : ScanReport := MkScanReport 0 0 0 1 0.
Definition one_deferred : ScanReport := MkScanReport 0 0 0 0 1.

(** The order of the replay: by [event_id]. *)
Definition event_id_le : relation (string * OutboxRecord) :=
  λ x y, String.le x.2.(or_event_id) y.2.(or_event_id).
#[global] Instance event_id_le_dec : RelDecision event_id_le.
Proof. unfold event_id_le. intros x y. apply _. Defined.

(** What the file system answers during a scan of one directory: the order
    [read_dir] lists the files in, and which calls fail. *)
Record ScanFs : Type := MkScanFs {
  read_dir_fails : bool;
  read_dir : gmap string string → list (string * string);
  read_fails : string → bool;
  reap_fails : string → bool;
  quarantine_fails : string → bool
}.

(** [read_dir] lists every file once. *)
Definition listing_ok (fs : ScanFs) : Prop :=
  ∀ files, fs.(read_dir) files ≡ₚ map_to_list files.

Section Scan.
Context {EXT : Externals} {OUT : OutboxSerde} (fs : ScanFs).

(** A failed removal is only logged. *)
Definition reap (name : string) (d : OutboxDir) : OutboxDir :=
  if fs.(reap_fails) name then d else remove_file name d.

(** The file moves to [dead/]; a failure ends the scan of the directory. *)
Definition quarantine (name : string) (d : OutboxDir) : option OutboxDir :=
  if fs.(quarantine_fails) name then None
  else match d.(od_files) !! name with
  | Some bytes => Some (MkOutboxDir (delete name d.(od_files)) (<[name := bytes]> d.(od_dead)))
  | None => None
  end.

(** Pass 1: files that cannot be read or parsed are quarantined. *)
Fixpoint scan_files (files : list (string * string)) (parsed : list (string * OutboxRecord))
    (report : ScanReport) (d : OutboxDir) :
    Result (list (string * OutboxRecord) * ScanReport) unit * OutboxDir :=
  match files with
  | [] => (Ok (parsed, report), d)
  | (name, bytes) :: files' =>
      if is_scannable_json name then
        let report := merge_report report (MkScanReport 1 0 0 0 0) in
        match (if fs.(read_fails) name then None else record_from_str bytes) with
        | Some record => scan_files files' (parsed ++ [(name, record)]) report d
        | None =>
            match quarantine name d with
            | None => (Err tt, d)
            | Some d' => scan_files files' parsed (merge_report report one_quarantined) d'
            end
        end
      else scan_files files' parsed report d
  end.

(** Pass 3: one record through the consume boundary. *)
Definition replay_record (x : string * OutboxRecord) (d : OutboxDir) (w : World) :
    option ScanReport * OutboxDir * World :=
  let '(name, record) := x in
  let clear w := (clear_apply_failure record.(or_event_id) w : Result unit SqlError * World).2 in
  match consume_record record w with
  | (Ok FirstSeen, w) => (Some one_consumed, reap name d, clear w)
  | (Ok Duplicate, w) => (Some one_duplicate, reap name d, clear w)
  | (Err (CeMalformed _), w) =>
      match quarantine name d with
      | None => (None, d, w)
      | Some d' => (Some one_quarantined, d', w)
      end
  | (Err (CeDb err), w) =>
      let '(attempts, w) := bump_apply_failure record.(or_event_id) (sql_error_display err) w in
      if MAX_APPLY_ATTEMPTS <=? attempts then
        match quarantine name d with
        | None => (None, d, w)
        | Some d' => (Some one_quarantined, d', clear w)
        end
      else (Some one_deferred, d, w)
  end.

Fixpoint replay_all (l : list (string * OutboxRecord)) (report : ScanReport) (d : OutboxDir)
    (w : World) : Result ScanReport unit * OutboxDir * World :=
  match l with
  | [] => (Ok report, d, w)
  | x :: l' =>
      match replay_record x d w with
      | (Some r, d', w') => replay_all l' (merge_report report r) d' w'
      | (None, d', w') => (Err tt, d', w')
      end
  end.

Definition cold_scan_dir (d : OutboxDir) (w : World) :
    Result ScanReport unit * OutboxDir * World :=
  if fs.(read_dir_fails) then (Err tt, d, w)
  else
  match scan_files (fs.(read_dir) d.(od_files)) [] empty_report d with
  | (Err e, d) => (Err e, d, w)
  | (Ok (parsed, report), d) => replay_all (order_by event_id_le parsed) report d w
  end.

End Scan.

(** Every agent's directory in the order of the names; the report of a scan
    that failed is dropped. *)
Section ScanAll.
Context {EXT : Externals} {OUT : OutboxSerde} (fs : string → ScanFs).

Fixpoint scan_agents (dirs : list (string * OutboxDir)) (report : ScanReport) (w : World) :
    ScanReport * list (string * OutboxDir) * World :=
  match dirs with
  | [] => (report, [], w)
  | (name, d) :: dirs' =>
      let '(sub, d', w') := cold_scan_dir (fs name) d w in
      let report' := match sub with Ok r => merge_report report r | Err _ => report end in
      let '(report'', ds, w'') := scan_agents dirs' report' w' in
      (report'', (name, d') :: ds, w'')
  end.

Definition dir_le : relation (string * OutboxDir) := λ x y, String.le x.1 y.1.
#[global] Instance dir_le_dec : RelDecision dir_le.
Proof. unfold dir_le. intros x y. apply _. Defined.

Definition cold_scan_all_agents (dirs : gmap string OutboxDir) (w : World) :
    ScanReport * gmap string OutboxDir * World :=
  let '(report, ds, w') := scan_agents (order_by dir_le (map_to_list dirs)) empty_report w in
  (report, list_to_map ds, w').

End ScanAll.
