(* ===== verification/JobsProofs.v ===== *)
(** * What the queue guarantees

    Functional correctness of the operations of [Jobs]: dispatch takes the
    oldest queued job and moves job, agent and log together; submission is
    idempotent per request; failing an agent's jobs leaves none dispatched;
    cancellation and requeueing do what their callers rely on. *)
From S2P Require Import Prelude Json Schema Sql MasterTables JobGate Invariant AgentGate Text ReplyText Jobs.

(** ** The orders are total preorders *)

#[global] Instance queue_le_trans : Transitive queue_le.
Proof. intros x y z. unfold queue_le, lex_le. lia. Qed.
#[global] Instance queue_le_total : Total queue_le.
Proof. intros x y. unfold queue_le, lex_le. lia. Qed.

#[global] Instance dispatched_le_trans : Transitive dispatched_le.
Proof.
  intros x y z. unfold dispatched_le, lex_le.
  destruct (j_dispatched_at x), (j_dispatched_at y), (j_dispatched_at z); simpl;
    intros [?|[? ?]] [?|[? ?]]; simplify_eq; try done; try (left; done || lia); right;
    (split; [done|by etrans]).
Qed.
#[global] Instance dispatched_le_total : Total dispatched_le.
Proof.
  intros x y. unfold dispatched_le, lex_le.
  destruct (total String.le (j_id x) (j_id y));
    destruct (j_dispatched_at x) as [a|], (j_dispatched_at y) as [b|]; simpl; auto.
  - destruct (decide (a < b)), (decide (b < a)); auto. assert (a = b) as -> by lia. auto.
  - destruct (decide (a < b)), (decide (b < a)); auto. assert (a = b) as -> by lia. auto.
Qed.

Lemma elem_of_agent_jobs agent_id status db j :
  j ∈ agent_jobs agent_id status db ↔
  j.(j_agent_id) = agent_id ∧ j.(j_status) = status ∧ ∃ id, db.(jobs) !! id = Some j.
Proof. unfold agent_jobs. rw list_elem_of_filter elem_of_table_rows. tauto. Qed.

(** The head of a queue is a row of the table under its own key. *)
Lemma agent_jobs_head (le : relation Job) `{!RelDecision le} agent_id status db j :
  db_wf db → head (order_by le (agent_jobs agent_id status db)) = Some j →
  db.(jobs) !! j.(j_id) = Some j ∧ j.(j_agent_id) = agent_id ∧ j.(j_status) = status.
Proof.
  intros Hwf Hh. assert (Hin : j ∈ order_by le (agent_jobs agent_id status db)).
  { destruct (order_by _ _); simplify_eq/=. apply list_elem_of_here. }
  apply order_by_elem, elem_of_agent_jobs in Hin as (Hag & Hst & id & Hid).
  by rw (wf_job_key _ Hwf _ _ Hid).
Qed.

Section Dispatch.
Context {EXT : Externals}.

Lemma query_job_row_run ctx job_id w j :
  w.(w_db).(jobs) !! job_id = Some j → query_job_row ctx job_id w = (Ok j, w).
Proof. intros Hj. unfold query_job_row, query_job_sync. run_m. by rw Hj. Qed.

(** The tables after a dispatch of [j]: the gate's write, the agent's move, the
    dispatch event and its number in the row. *)
Definition dispatch_db (now : Z) (agent_id : string) (a : Agent) (j : Job)
    (new_state event_kind : string) (payload : Value) (db : Db) : Db :=
  let db1 := gate_db now j.(j_id) Queued Dispatched "dispatch_job_to_agent" j db in
  let db2 := moved_db now agent_id (bump_version now (set_a_state new_state a))
               (json_object [("from", JString a.(a_state)); ("to", JString new_state);
                             ("reason", json_opt JString (Some "dispatched"))]) db1 in
  let j' := gate_row now Dispatched j in
  let db3 := post_event now agent_id event_kind (dispatch_event_payload payload j') db2 in
  set_jobs (<[j.(j_id) := set_j_dispatched_at_seq_id (Some db3.(event_seq)) j']> db3.(jobs)) db3.

Lemma dispatch_run w agent_id a expected new_state kind payload :
  db_wf w.(w_db) → w.(w_db).(agents) !! agent_id = Some a →
  expected = [] ∨ a.(a_state) ∈ expected →
  dispatch_job_to_agent_sync agent_id expected new_state kind payload w =
  match head (order_by queue_le (agent_jobs agent_id "QUEUED" w.(w_db))) with
  | None => (Ok None, w)
  | Some j =>
      let db' := dispatch_db w.(w_now) agent_id a j new_state kind payload w.(w_db) in
      let j' := gate_row w.(w_now) Dispatched j in
      (Ok (Some (MkDispatchedJob (set_j_dispatched_at_seq_id (Some db'.(event_seq)) j')
                   db'.(event_seq) (dispatch_event_payload payload j'))), set_db db' w)
  end.
Proof.
  intros Hwf Ha Hfrom.
  assert (Hguard : (expected != []) && negb (a.(a_state) is_in expected) = false).
  { destruct Hfrom as [->|Hin]; [done|]. rw (bool_decide_true (_ ∈ _)) //=. by rw andb_false_r. }
  assert (Hall : transit_allowed a expected None = true).
  { unfold transit_allowed. simpl. destruct Hfrom as [->|Hin]; [done|].
    by rw (bool_decide_true (_ ∈ _)) // orb_true_r. }
  unfold dispatch_job_to_agent_sync.
  destruct (head _) as [j|] eqn:Hh; cycle 1.
  { apply transaction_ok. step_pure. rw Ha /= Hguard. step_pure. by rw Hh. }
  apply agent_jobs_head in Hh as Hrow; [|done]. destruct Hrow as (Hj & Hag & Hst).
  cbv zeta. apply transaction_ok. step_pure. rw Ha /= Hguard. step_pure. rw Hh /=.
  rw (bind_ok _ _ _ _ _ (transit_job_state_commit w _ j _ _ _ _ _ _)); [..|cbv beta].
  { by repeat split; try constructor. }
  { done. }
  { by rw Hag Ha. }
  unfold transit_agent_state_conn_sync.
  erewrite bind_ok; [cbv beta|].
  2:{ erewrite bind_ok; [by rw ret_run|]. rw transit_agent_run. simpl. by rw Ha Hall. }
  set (j' := gate_row w.(w_now) Dispatched j).
  erewrite bind_ok; [cbv beta|apply (query_job_row_run _ _ _ j'), lookup_insert_eq].
  erewrite bind_ok; [cbv beta|apply insert_event_null_run; by rw /= lookup_insert_eq].
  erewrite bind_ok; [cbv beta|apply (update_job_hit _ _ _ _ j'); [apply lookup_insert_eq|done]].
  erewrite bind_ok; [cbv beta|apply query_job_row_run, lookup_insert_eq].
  rw !set_db_twice ret_run. unfold dispatch_db. cbv zeta. fold j'. reflexivity.
Qed.

(** What [dispatch_job_to_agent_sync] promises its caller. *)
Definition dispatch_post (w : World) (agent_id : string) (a : Agent) (new_state kind : string)
    (r : Result (option DispatchedJob) CcbdError * World) : Prop :=
  let db := w.(w_db) in
  match r with
  | (Ok (Some d), w') =>
      ∃ j, db.(jobs) !! j.(j_id) = Some j ∧ j ∈ agent_jobs agent_id "QUEUED" db ∧
        (∀ k, k ∈ agent_jobs agent_id "QUEUED" db → k = j ∨ queue_le j k) ∧
        w'.(w_db).(jobs) = <[j.(j_id) := d.(dj_job)]> db.(jobs) ∧
        d.(dj_job).(j_status) = "DISPATCHED" ∧
        d.(dj_job).(j_dispatched_at_seq_id) = Some d.(dj_seq_id) ∧
        w'.(w_db).(agents) =
          <[agent_id := bump_version w.(w_now) (set_a_state new_state a)]> db.(agents) ∧
        ∃ e1 e2, w'.(w_db).(events) = db.(events) ++ [e1; e2] ∧
          e1.(e_event_type) = "state_change" ∧ e2.(e_event_type) = kind ∧
          e2.(e_seq_id) = d.(dj_seq_id) ∧ e2.(e_agent_id) = agent_id
  | (Ok None, w') => w' = w ∧ agent_jobs agent_id "QUEUED" db = []
  | (Err _, _) => False
  end.

(** C2: the gate is exact.  A status change is accepted exactly when the job is at
    the status the caller expects, the edge is in the transition table and, for
    FAILED to COMPLETED, the agent's last state change is the authoritative
    late-completion evidence for this job.  Accepting it writes the row and one
    audit row and nothing else; refusing it answers an error and writes
    nothing. *)
Theorem transit_job_state_exact w job_id from to reason :
  db_wf w.(w_db) →
  (∃ j, gate_admits w.(w_db) job_id from to j ∧
     transit_job_state job_id from to reason w =
       (Ok tt, set_db (gate_db w.(w_now) job_id from to reason j w.(w_db)) w)) ∨
  ((∀ j, ¬ gate_admits w.(w_db) job_id from to j) ∧
   ∃ details, transit_job_state job_id from to reason w =
     (Err (DbConstraintViolation details), w)).
Proof.
  intros Hwf. destruct (gate_admits_dec w.(w_db) job_id from to) as [[j Hadm]|Hno].
  - left. exists j. split; [done|]. pose proof (proj1 Hadm) as Hj.
    apply transit_job_state_commit; [done|by eapply wf_job_key|by eapply wf_job_agent].
  - right. split; [done|]. by apply transit_job_state_refuse.
Qed.

(** C8: dispatching to an agent in an allowed state never fails.  With an empty
    queue it changes nothing; otherwise it takes the oldest queued job (by
    creation time, then by insertion), makes it DISPATCHED, moves the agent to
    the new state with its version bumped, and appends the state change and the
    dispatch event, whose number is recorded in the job's row.  Every other job
    and agent is untouched. *)
Theorem dispatch_takes_oldest_atomically w agent_id a expected new_state kind payload :
  db_wf w.(w_db) → w.(w_db).(agents) !! agent_id = Some a →
  expected = [] ∨ a.(a_state) ∈ expected →
  dispatch_post w agent_id a new_state kind
    (dispatch_job_to_agent_sync agent_id expected new_state kind payload w).
Proof.
  intros Hwf Ha Hfrom. rw (dispatch_run w agent_id a) //.
  destruct (head _) as [j|] eqn:Hh; [|by apply order_by_head_None in Hh].
  apply agent_jobs_head in Hh as Hrow; [|done]. destruct Hrow as (Hj & Hag & Hst).
  apply order_by_head in Hh as [Hin Hmin]; [|apply _..].
  exists j. repeat split; try done.
  - simpl. by rw insert_insert_eq.
  - eexists _, _. split; [simpl; by rw -app_assoc|done].
Qed.

End Dispatch.

(** ** Submission *)

Section Submit.
Context {EXT : Externals}.

Lemma query_by_request_run db agent_id rq id j :
  db_wf db → db.(jobs) !! id = Some j → j.(j_agent_id) = agent_id →
  j.(j_request_id) = Some rq →
  head (filter (λ j, j.(j_agent_id) = agent_id ∧ j.(j_request_id) = Some rq)
          (table_rows db.(jobs))) = Some j.
Proof.
  intros Hwf Hj Hag Hrq. destruct (head _) as [k|] eqn:Hh; cycle 1.
  - apply head_None in Hh. assert (Hin : j ∈ @nil Job); [|by apply not_elem_of_nil in Hin].
    rw -Hh. apply list_elem_of_filter. split; [done|]. apply elem_of_table_rows. eauto.
  - f_equal. assert (Hin : k ∈ filter (λ j, j.(j_agent_id) = agent_id ∧
                                j.(j_request_id) = Some rq) (table_rows db.(jobs))).
    { destruct (filter _ _); simplify_eq/=. apply list_elem_of_here. }
    apply list_elem_of_filter in Hin as [[Hka Hkr] [kid Hk]%elem_of_table_rows].
    assert (kid = id); [|congruence].
    eapply (wf_job_request _ Hwf); eauto; congruence.
Qed.

(** A request that is taken answers the job that took it. *)
Lemma insert_job_taken w id agent_id rq prompt_text k j :
  db_wf w.(w_db) → w.(w_db).(jobs) !! k = Some j → j.(j_agent_id) = agent_id →
  j.(j_request_id) = Some rq → w.(w_db).(jobs) !! id = None →
  insert_job_sync id agent_id (Some rq) prompt_text w = (Ok k, w).
Proof.
  intros Hwf Hj Hag Hrq Hfree. unfold insert_job_sync. step_pure.
  erewrite bind_ok; [cbv beta|unfold try_, insert_job_row; simpl].
  2:{ rw (bool_decide_false (is_Some _)); [by rw Hfree; intros []|]. simpl.
      assert (Ht : job_idempotency_taken w.(w_db) agent_id (Some rq) = true).
      { apply existsb_exists. exists j. split.
        - apply list_elem_of_In, elem_of_table_rows. eauto.
        - by rw !bool_decide_true. }
      simpl in Ht. rw Ht orb_true_r /=. done. }
  simpl. unfold query_job_by_request_id_sync. step_pure.
  rw (query_by_request_run _ _ _ k j) // ret_run. by rw (wf_job_key _ Hwf _ _ Hj).
Qed.

End Submit.

(** ** Failing what an agent was working on *)

Section FailAgent.
Context {EXT : Externals}.

Definition failed_row (now : Z) (reason : string) (j : Job) : Job :=
  gate_row now Failed (set_j_error_reason (Some reason) j).

(** One turn of the loop. *)
Lemma fail_one_run w reason id ids n j :
  consistent w.(w_db) → w.(w_db).(jobs) !! id = Some j → j.(j_status) = "DISPATCHED" →
  ∃ w', fail_dispatched reason (id :: ids) n w = fail_dispatched reason ids (S n) w' ∧
    consistent w'.(w_db) ∧ w'.(w_now) = w.(w_now) ∧
    w'.(w_db).(jobs) = <[id := failed_row w.(w_now) reason j]> w.(w_db).(jobs) ∧
    w'.(w_db).(agents) = w.(w_db).(agents) ∧ w'.(w_db).(events) = w.(w_db).(events) ∧
    w'.(w_db).(event_seq) = w.(w_db).(event_seq) ∧ w'.(w_out) = w.(w_out) ∧
    w'.(w_db).(recovery_intents) = w.(w_db).(recovery_intents).
Proof.
  intros Hc Hj Hst.
  set (g := λ j : Job, j_status j == "DISPATCHED").
  assert (Hup : (update_job id g (set_j_error_reason (Some reason)) : M CcbdError nat) w =
    (Ok 1%nat, set_db (set_jobs (<[id := set_j_error_reason (Some reason) j]> w.(w_db).(jobs))
                         w.(w_db)) w)).
  { apply update_job_hit; [done|]. by apply bool_decide_true. }
  assert (Hc1 : consistent ((update_job id g (set_j_error_reason (Some reason))
                               : M CcbdError nat) w).2.(w_db)).
  { assert (Hs : preserves consistent (update_job id g (set_j_error_reason (Some reason))
                               : M CcbdError nat)) by (unfold g; eauto with respects).
    by apply Hs. }
  rw Hup in Hc1. simpl in Hc1.
  set (j1 := set_j_error_reason (Some reason) j) in *.
  assert (Hadm : gate_admits (set_jobs (<[id := j1]> w.(w_db).(jobs)) w.(w_db)) id Dispatched
                   Failed j1).
  { split; [apply lookup_insert_eq|]. by repeat split; try constructor. }
  eexists. split; [simpl; rw (bind_ok _ _ _ _ _ Hup) /=|].
  - erewrite bind_ok; [reflexivity|]. apply (transit_job_state_commit _ _ j1); [done| |].
    + apply (wf_job_key _ (proj1 Hc) _ _ Hj).
    + apply (wf_job_agent _ (proj1 Hc) _ _ Hj).
  - rw set_db_twice. simpl. split; [by apply consistent_gate_db|].
    by rw insert_insert_eq.
Qed.

Lemma fail_dispatched_run reason ids n w :
  consistent w.(w_db) → NoDup ids →
  (∀ id, id ∈ ids → ∃ j, w.(w_db).(jobs) !! id = Some j ∧ j.(j_status) = "DISPATCHED") →
  ∃ w', fail_dispatched reason ids n w = (Ok (n + length ids)%nat, w') ∧
    consistent w'.(w_db) ∧ w'.(w_now) = w.(w_now) ∧
    (∀ id j, w.(w_db).(jobs) !! id = Some j →
      w'.(w_db).(jobs) !! id = Some (if bool_decide (id ∈ ids) then failed_row w.(w_now) reason j else j)) ∧
    (∀ id, w.(w_db).(jobs) !! id = None → w'.(w_db).(jobs) !! id = None) ∧
    w'.(w_db).(agents) = w.(w_db).(agents) ∧ w'.(w_db).(events) = w.(w_db).(events) ∧
    w'.(w_db).(event_seq) = w.(w_db).(event_seq) ∧ w'.(w_out) = w.(w_out) ∧
    w'.(w_db).(recovery_intents) = w.(w_db).(recovery_intents).
Proof.
  revert n w. induction ids as [|id ids IH]; intros n w Hc Hnd Hall.
  { exists w. split; [by rw Nat.add_0_r|]. split; [done|]. by repeat split. }
  apply NoDup_cons in Hnd as [Hni Hnd].
  destruct (Hall id) as (j & Hj & Hst); [apply list_elem_of_here|].
  destruct (fail_one_run w reason id ids n j) as (w1 & -> & Hc1 & Hnow & Hjobs & Hag & Hev & Hsq & Ho & Hi);
    [done..|].
  destruct (IH (S n) w1) as (w2 & Hrun & Hc2 & Hnow2 & Hin & Hout & Hag2 & Hev2 & Hsq2 & Ho2 & Hi2); [done..| |].
  { intros k Hk. destruct (Hall k) as (jk & Hjk & Hsk); [by apply list_elem_of_further|].
    exists jk. rw Hjobs lookup_insert_ne; [by intros ->|done]. }
  exists w2. split; [by rw Hrun /= Nat.add_succ_r|]. split; [done|]. repeat split; try congruence.
  - intros k jk Hk. destruct (decide (k = id)) as [->|Hne].
    + assert (jk = j) as -> by congruence.
      rw (Hin id (failed_row w.(w_now) reason j)); [by rw Hjobs lookup_insert_eq|].
      rw bool_decide_false // bool_decide_true //. apply list_elem_of_here.
    + rw (Hin k jk); [by rw Hjobs lookup_insert_ne|]. rw Hnow. f_equal.
      case_bool_decide; [rw bool_decide_true //; by apply list_elem_of_further|].
      rw bool_decide_false //. by intros [->|?]%elem_of_cons.
  - intros k Hk. apply Hout. rw Hjobs lookup_insert_ne //. by intros ->; congruence.
Qed.

(** The ids of an agent's dispatched jobs. *)
Lemma dispatched_ids_NoDup db agent_id status (le : relation Job) `{!RelDecision le} :
  db_wf db → NoDup (j_id <$> order_by le (agent_jobs agent_id status db)).
Proof.
  intros Hwf. unfold order_by. rw merge_sort_Permutation.
  unfold agent_jobs, table_rows.
  assert (Hk : ∀ l : list (string * Job), NoDup l.*1 →
    (∀ x, x ∈ l → x.2.(j_id) = x.1) →
    NoDup (j_id <$> filter (λ j, j.(j_agent_id) = agent_id ∧ j.(j_status) = status) l.*2)).
  { induction l as [|[k j] l IH]; [constructor|]. intros [Hni Hnd]%NoDup_cons Hkey.
    assert (IH' := IH Hnd (λ x Hx, Hkey x (list_elem_of_further _ _ _ Hx))). clear IH.
    rw fmap_cons filter_cons. case_decide; [|done]. simpl. constructor; [|done].
    intros (j' & Heq & [_ Hin]%list_elem_of_filter)%list_elem_of_fmap. apply Hni.
    apply list_elem_of_fmap in Hin as ([k' j''] & -> & Hin).
    pose proof (Hkey _ (list_elem_of_here _ _)) as H1. simpl in H1.
    pose proof (Hkey (k', j'') ltac:(by apply list_elem_of_further)) as H2. simpl in H2.
    apply list_elem_of_fmap. exists (k', j''). split; [simpl in *; congruence|done]. }
  apply Hk; [apply NoDup_fst_map_to_list|].
  intros [k j] Hin%elem_of_map_to_list. simpl. by apply (wf_job_key _ Hwf).
Qed.

Lemma elem_of_dispatched_ids db agent_id status (le : relation Job) `{!RelDecision le} id :
  db_wf db → id ∈ j_id <$> order_by le (agent_jobs agent_id status db) ↔
  ∃ j, db.(jobs) !! id = Some j ∧ j.(j_agent_id) = agent_id ∧ j.(j_status) = status.
Proof.
  intros Hwf. rw list_elem_of_fmap. split.
  - intros (j & -> & Hin%order_by_elem). apply elem_of_agent_jobs in Hin as (? & ? & k & Hk).
    exists j. by rw (wf_job_key _ Hwf _ _ Hk).
  - intros (j & Hj & ? & ?). exists j. split; [by rw (wf_job_key _ Hwf _ _ Hj)|].
    apply order_by_elem, elem_of_agent_jobs. eauto.
Qed.

Lemma fail_agent_run w agent_id reason :
  consistent w.(w_db) →
  let ids := j_id <$> order_by dispatched_le (agent_jobs agent_id "DISPATCHED" w.(w_db)) in
  ∃ w', mark_dispatched_jobs_failed_for_agent_conn_collect_sync agent_id reason w =
          (Ok (length ids, ids), w') ∧
    consistent w'.(w_db) ∧ w'.(w_now) = w.(w_now) ∧
    (∀ id j, w.(w_db).(jobs) !! id = Some j →
      w'.(w_db).(jobs) !! id =
        Some (if bool_decide (id ∈ ids) then failed_row w.(w_now) reason j else j)) ∧
    (∀ id, w.(w_db).(jobs) !! id = None → w'.(w_db).(jobs) !! id = None) ∧
    w'.(w_db).(agents) = w.(w_db).(agents) ∧ w'.(w_db).(events) = w.(w_db).(events) ∧
    w'.(w_db).(event_seq) = w.(w_db).(event_seq) ∧ w'.(w_out) = w.(w_out) ∧
    w'.(w_db).(recovery_intents) = w.(w_db).(recovery_intents).
Proof.
  intros Hc ids. pose proof (proj1 Hc) as Hwf.
  destruct (fail_dispatched_run reason ids 0 w) as (w' & Hrun & Hrest); [done| | |].
  - by apply dispatched_ids_NoDup.
  - intros id (j & ? & _ & ?)%elem_of_dispatched_ids; eauto.
  - exists w'. split; [|done]. unfold mark_dispatched_jobs_failed_for_agent_conn_collect_sync,
      query_dispatched_job_ids_for_agent_sync. step_pure. fold ids.
    rw (bind_ok _ _ _ _ _ Hrun) ret_run. by rw firstn_all.
Qed.

End FailAgent.

(** ** Requeueing *)

Section Requeue.
Context {EXT : Externals}.

Lemma requeue_job_state_run w job_id j from err reason :
  db_wf w.(w_db) → w.(w_db).(jobs) !! job_id = Some j → j.(j_status) = as_db_str from →
  job_edge from Queued →
  requeue_job_state_conn_sync job_id from err reason w =
    (Ok tt, set_db (gate_db w.(w_now) job_id from Queued reason (set_j_error_reason err j)
              (set_jobs (<[job_id := set_j_error_reason err j]> w.(w_db).(jobs)) w.(w_db))) w).
Proof.
  intros Hwf Hj Hst Hedge. unfold requeue_job_state_conn_sync, query_job_sync. step_pure.
  rw Hj Hst from_db_str_as_db_str bool_decide_true //=.
  erewrite bind_ok; [cbv beta|by apply update_job_hit].
  rw (transit_job_state_commit _ _ (set_j_error_reason err j)).
  - split; [apply lookup_insert_eq|]. by repeat split.
  - apply (wf_job_key _ Hwf _ _ Hj).
  - apply (wf_job_agent _ Hwf _ _ Hj).
  - by rw set_db_twice.
Qed.

(** The tables after a dispatch is taken back before anything was sent. *)
Lemma requeue_before_send_run w job_id j agent_id a reason :
  db_wf w.(w_db) → w.(w_db).(jobs) !! job_id = Some j → j.(j_status) = "DISPATCHED" →
  j.(j_agent_id) = agent_id → w.(w_db).(agents) !! agent_id = Some a →
  a.(a_state) = "WAITING_FOR_ACK" →
  ∃ w', requeue_dispatched_job_before_send_sync job_id agent_id reason w = (Ok 1%nat, w') ∧
    w'.(w_db).(jobs) =
      <[job_id := gate_row w.(w_now) Queued (set_j_error_reason None j)]> w.(w_db).(jobs) ∧
    w'.(w_db).(agents) =
      <[agent_id := bump_version w.(w_now) (set_a_state "IDLE" a)]> w.(w_db).(agents).
Proof.
  intros Hwf Hj Hst Hag Ha Has. eexists. split.
  - unfold requeue_dispatched_job_before_send_sync, query_job_sync.
    apply transaction_ok. step_pure. rw Hj Hst Hag !bool_decide_true //=.
    erewrite bind_ok; [cbv beta|apply (requeue_job_state_run w job_id j Dispatched); try done;
                                constructor].
    step_pure. erewrite bind_ok; [cbv beta|apply (update_agent_hit _ _ _ _ a); [done|]].
    2:{ by apply bool_decide_true. }
    erewrite bind_ok; [reflexivity|]. apply insert_event_null_run. by rw /= lookup_insert_eq.
  - simpl. by rw insert_insert_eq.
Qed.

(** Dispatching a well-formed queued row and requeueing it gives it back. *)
Lemma gate_row_roundtrip now now' seq err j :
  job_wf j → j.(j_status) = "QUEUED" →
  gate_row now' Queued (set_j_error_reason err
    (set_j_dispatched_at_seq_id seq (gate_row now Dispatched j))) = set_j_error_reason err j.
Proof.
  unfold job_wf. intros Hwf Hst. rw Hst /= in Hwf. destruct Hwf as (H1 & H2 & H3).
  destruct j; simpl in *. by simplify_eq.
Qed.

End Requeue.

(** ** The properties *)

Section JobsProperties.
Context {EXT : Externals}.

(** Submission is idempotent per agent and request.  Once a submission with a
    request id answered a job, any later submission of that request to that
    agent, under whatever fresh job id and however the tables evolved in between,
    answers the same job and writes nothing. *)
Theorem insert_job_idempotent w id agent_id rq prompt_text x w1 w2 id' prompt_text' :
  db_wf w.(w_db) →
  insert_job_sync id agent_id (Some rq) prompt_text w = (Ok x, w1) →
  evolves w1.(w_db) w2.(w_db) → db_wf w2.(w_db) → w2.(w_db).(jobs) !! id' = None →
  insert_job_sync id' agent_id (Some rq) prompt_text' w2 = (Ok x, w2).
Proof.
  intros Hwf Hrun Hev Hwf2 Hfree.
  assert (Hrow : ∃ j, w1.(w_db).(jobs) !! x = Some j ∧ j.(j_agent_id) = agent_id ∧
                      j.(j_request_id) = Some rq).
  { destruct (insert_job_run id agent_id (Some rq) prompt_text w)
      as [(Hr & _)|[(k & Hr & Hin & Hka & Hkr & _)|[e Hr]]]; rw Hr in Hrun; simplify_eq.
    - eexists. split; [apply lookup_insert_eq|done].
    - exists k. apply elem_of_table_rows in Hin as [kid Hk]. by rw (wf_job_key _ Hwf _ _ Hk). }
  destruct Hrow as (j & Hj & Hag & Hrq).
  destruct (ev_jobs _ _ Hev _ _ Hj) as (j' & Hj' & [_ _ Hag' Hrq' _ _ _]).
  eapply insert_job_taken; eauto; congruence.
Qed.

(** Failing an agent's dispatched jobs always succeeds and answers exactly the
    ids of the jobs it failed, in dispatch order.  Afterwards the agent has no
    dispatched job; each answered job is FAILED with the given reason; every
    other job is untouched. *)
Theorem fail_agent_jobs_exact w agent_id reason :
  consistent w.(w_db) →
  ∃ ids w', mark_dispatched_jobs_failed_for_agent_collect_sync agent_id reason w =
      (Ok (length ids, ids), w') ∧
    agent_jobs agent_id "DISPATCHED" w'.(w_db) = [] ∧
    (∀ id, id ∈ ids ↔ ∃ j, w.(w_db).(jobs) !! id = Some j ∧ j.(j_agent_id) = agent_id ∧
                          j.(j_status) = "DISPATCHED") ∧
    (∀ id, id ∈ ids → ∃ j', w'.(w_db).(jobs) !! id = Some j' ∧ j'.(j_status) = "FAILED" ∧
                          j'.(j_error_reason) = Some reason) ∧
    (∀ id, id ∉ ids → w'.(w_db).(jobs) !! id = w.(w_db).(jobs) !! id).
Proof.
  intros Hc. pose proof (proj1 Hc) as Hwf.
  destruct (fail_agent_run w agent_id reason Hc) as (w' & Hrun & Hc' & _ & Hin & Hout & _).
  set (ids := j_id <$> _) in *.
  assert (Hids : ∀ id, id ∈ ids ↔ ∃ j, w.(w_db).(jobs) !! id = Some j ∧
    j.(j_agent_id) = agent_id ∧ j.(j_status) = "DISPATCHED").
  { intros id. by apply elem_of_dispatched_ids. }
  exists ids, w'. repeat split; try apply Hids.
  - apply transaction_ok. by rw (bind_ok _ _ _ _ _ Hrun).
  - apply elem_of_nil_inv. intros j (Hag & Hst & id & Hj)%elem_of_agent_jobs.
    destruct (w.(w_db).(jobs) !! id) as [j0|] eqn:Hj0; [|by rw (Hout _ Hj0) in Hj].
    rw (Hin _ _ Hj0) in Hj. case_bool_decide as Hi; simplify_eq.
    apply Hi, Hids. eauto.
  - intros id Hi. destruct (proj1 (Hids id) Hi) as (j & Hj & _).
    exists (failed_row w.(w_now) reason j). by rw (Hin _ _ Hj) bool_decide_true.
  - intros id Hi. destruct (w.(w_db).(jobs) !! id) as [j|] eqn:Hj; [|by apply Hout].
    by rw (Hin _ _ Hj) bool_decide_false.
Qed.

(** A requested cancellation is taken over after its timeout.  After the
    request on a running job, forcing the cancellation at a time [now] cancels
    the job exactly when the timeout has passed since the request, and before
    that changes nothing. *)
Theorem cancel_takeover_after_timeout w job_id j now timeout :
  db_wf w.(w_db) → w.(w_db).(jobs) !! job_id = Some j → j.(j_status) = "DISPATCHED" →
  j.(j_cancel_requested) = false →
  ∃ w1, request_dispatched_job_cancel_sync job_id w = (Ok 1%nat, w1) ∧
    (timeout ≤ now - w.(w_now) →
      ∃ w2 j2, force_cancel_pending_dispatched_job_conn_sync job_id now timeout w1 = (Ok true, w2) ∧
        w2.(w_db).(jobs) !! job_id = Some j2 ∧ j2.(j_status) = "CANCELLED") ∧
    (now - w.(w_now) < timeout →
      force_cancel_pending_dispatched_job_conn_sync job_id now timeout w1 = (Ok false, w1)).
Proof.
  intros Hwf Hj Hst Hcr.
  pose proof (wf_job_key _ Hwf _ _ Hj) as Hkey. pose proof (wf_job_agent _ Hwf _ _ Hj) as Hfk.
  set (j1 := set_j_cancel_requested true j).
  set (row := λ id, audit_row id w.(w_now) j1 (Some "DISPATCHED") (Some "DISPATCHED")
                      "job_updated" ["cancel_requested"] "cancel_requested").
  set (db1 := append_audit row (set_jobs (<[job_id := j1]> w.(w_db).(jobs)) w.(w_db))).
  assert (Hj1 : db1.(jobs) !! job_id = Some j1) by apply lookup_insert_eq.
  assert (Hlast : latest_cancel_request_at job_id db1 = Some w.(w_now)).
  { unfold latest_cancel_request_at. simpl. rw filter_app filter_cons_True /=; [done|].
    by rw filter_nil last_snoc. }
  assert (Hforce : force_cancel_pending_dispatched_job_conn_sync job_id now timeout (set_db db1 w) =
    if timeout <=? now - w.(w_now) then
      (transit_job_state job_id Dispatched Cancelled "cancel_timeout_takeover";; mret true)
        (set_db db1 w)
    else (Ok false, set_db db1 w)).
  { unfold force_cancel_pending_dispatched_job_conn_sync, query_job_sync. step_pure.
    simpl. change (append_audit _ _) with db1. rw lookup_insert_eq.
    unfold j1 at 1. rw /= Hst /=. step_pure. simpl. rw Hlast. by destruct (_ <=? _). }
  exists (set_db db1 w). repeat split.
  - apply transaction_ok. erewrite bind_ok; [cbv beta|apply (update_job_hit _ _ _ _ j); [done|]].
    2:{ by rw Hst Hcr. }
    simpl. erewrite bind_ok; [reflexivity|]. unfold when.
    rw (record_job_transition_run _ job_id j1) //=; try apply lookup_insert_eq; set_solver.
  - intros Ht. rw Hforce (proj2 (Z.leb_le _ _) Ht).
    exists (set_db (gate_db w.(w_now) job_id Dispatched Cancelled "cancel_timeout_takeover" j1 db1)
              w), (gate_row w.(w_now) Cancelled j1).
    split; [|by rw /= lookup_insert_eq].
    erewrite bind_ok; [by rw ret_run|]. apply (transit_job_state_commit (set_db db1 w) _ j1); try done.
    split; [done|]. by repeat split; try constructor.
  - intros Ht. by rw Hforce (proj2 (Z.leb_gt _ _) Ht).
Qed.

(** Taking a dispatch back before anything was sent restores the queue.  After
    a dispatch to an idle agent and the requeueing of the dispatched job, the job
    table is the one before the dispatch, the requeued job's error reason
    cleared, and the agent is idle again, two versions later. *)
Theorem dispatch_then_requeue_restores w agent_id a kind payload reason d w1 :
  consistent w.(w_db) → w.(w_db).(agents) !! agent_id = Some a → a.(a_state) = "IDLE" →
  dispatch_job_to_agent_sync agent_id ["IDLE"] "WAITING_FOR_ACK" kind payload w =
    (Ok (Some d), w1) →
  ∃ j w2, w.(w_db).(jobs) !! d.(dj_job).(j_id) = Some j ∧
    requeue_dispatched_job_before_send_sync d.(dj_job).(j_id) agent_id reason w1 = (Ok 1%nat, w2) ∧
    w2.(w_db).(jobs) = <[d.(dj_job).(j_id) := set_j_error_reason None j]> w.(w_db).(jobs) ∧
    ∃ a2, w2.(w_db).(agents) !! agent_id = Some a2 ∧ a2.(a_state) = "IDLE" ∧
      a2.(a_state_version) = a.(a_state_version) + 2.
Proof.
  intros Hc Ha Has Hrun. pose proof (proj1 Hc) as Hwf.
  assert (Hc1 : consistent w1.(w_db)).
  { pose proof (sound_consistent _ (sound_dispatch agent_id ["IDLE"] "WAITING_FOR_ACK" kind payload)
      w Hc) as Hs. unfold dispatch_job_to_agent, mbind, M_bind in Hs. by rw Hrun in Hs. }
  rw (dispatch_run w agent_id a) in Hrun; [done..|right; set_solver|].
  destruct (head _) as [j|] eqn:Hh; [|done].
  apply agent_jobs_head in Hh as (Hj & Hag & Hst); [|done].
  cbv zeta in Hrun. set (db1 := dispatch_db _ _ _ _ _ _ _ _) in Hrun.
  injection Hrun as <- <-. subst agent_id. exists j. cbn [dj_job]. change (j_id (set_j_dispatched_at_seq_id _ _)) with (j_id j).
  destruct (requeue_before_send_run (set_db db1 w) j.(j_id)
    (set_j_dispatched_at_seq_id (Some db1.(event_seq)) (gate_row w.(w_now) Dispatched j))
    j.(j_agent_id) (bump_version w.(w_now) (set_a_state "WAITING_FOR_ACK" a)) reason)
    as (w2 & Hrun2 & Hjobs & Hags); try done.
  { apply Hc1. }
  { apply lookup_insert_eq. }
  { apply lookup_insert_eq. }
  exists w2. split; [done|split; [done|split]].
  - rw Hjobs gate_row_roundtrip //; [by apply (wf_job _ Hwf _ _ Hj)|].
    simpl. by rw !insert_insert_eq.
  - rw Hags lookup_insert_eq. eexists. split; [done|]. split; [done|]. simpl. lia.
Qed.

(** The retry counter kept in a requeued job's error reason survives the
    round trip through the text, for every [u32] attempt. *)
Theorem requeued_attempt_roundtrip attempt :
  0 ≤ attempt < 2 ^ 32 →
  recovery_requeued_attempt (Some (recovery_requeued_error_reason attempt)) = Some attempt.
Proof.
  intros Ha. unfold recovery_requeued_attempt, recovery_requeued_error_reason. cbn [mbind option_bind].
  rw strip_prefix_app /=. by apply parse_u32_decimal.
Qed.

End JobsProperties.
