(* ===== verification/StateMachineProofs.v ===== *)
(** * What the agent state machine guarantees

    A completion signal resolves at most the job the agent is working on, and
    only when the evidence that job requires is there; stuck and lost agents
    take their jobs with them; the idle marker and the deferral of unfinished
    work behave as their callers rely on. *)
From S2P Require Import Prelude Json Schema Sql MasterTables JobGate Invariant AgentGate Text ReplyText Jobs.
From S2P Require Import JobsProofs Completion Evidence StateMachine.

Section Reads.
Context {EXT : Externals}.

(** The evidence a job requires is in the table. *)
Definition evidence_satisfied (db : Db) (agent_id : string) (j : Job) : Prop :=
  (j.(j_requires_physical_evidence) = true →
     evidence_exists agent_id j.(j_id) "mtime_changed" db = true ∨
     evidence_exists agent_id j.(j_id) "diff_generated" db = true) ∧
  (j.(j_requires_test_evidence) = true →
     evidence_exists agent_id j.(j_id) "test_passed" db = true).

Lemma missing_run (b : bool) agent_id job_id types w :
  (if b then (found ← has_job_evidence_sync agent_id job_id types; mret (negb found))
   else mret false) w =
  (Ok (b && negb (existsb (λ ty, evidence_exists agent_id job_id ty w.(w_db)) types)), w).
Proof. destruct b; [|done]. by rw (bind_ok _ _ _ _ _ (has_job_evidence_run _ _ _ _)). Qed.

(** The denial is a read, and no denial means that the evidence is there. *)
Lemma evidence_denial_run agent_id j w :
  ∃ denial, evidence_denial_for_job agent_id j w = (Ok denial, w) ∧
    (denial = None ↔ evidence_satisfied w.(w_db) agent_id j).
Proof.
  unfold evidence_denial_for_job, evidence_satisfied.
  rw (bind_ok _ _ _ _ _ (missing_run _ _ _ _ _)). cbn [existsb]. rw orb_false_r.
  destruct (j_requires_physical_evidence j && _) eqn:Hp.
  { eexists. split; [reflexivity|]. apply andb_true_iff in Hp as [-> Hp%negb_true_iff].
    apply orb_false_iff in Hp as [-> ->]. split; [done|]. intros [[?|?] _]; done. }
  rw (bind_ok _ _ _ _ _ (missing_run _ _ _ _ _)). cbn [existsb]. rw orb_false_r.
  destruct (j_requires_physical_evidence j), (j_requires_test_evidence j),
    (evidence_exists _ _ "mtime_changed" _), (evidence_exists _ _ "diff_generated" _),
    (evidence_exists _ _ "test_passed" _); simpl in *; try done;
    (eexists; split; [reflexivity|]); intuition congruence.
Qed.

Lemma collect_reply_pure agent_id seq prompt w :
  ∃ r, collect_reply_for_dispatched_job_sync agent_id seq prompt w = (r, w).
Proof.
  unfold collect_reply_for_dispatched_job_sync. destruct seq; run_m; [|by eexists].
  destruct (chunk_texts _); by eexists.
Qed.

Lemma signalled_reply_pure source agent_id j reply w :
  ∃ r, signalled_reply source agent_id j reply w = (r, w).
Proof.
  unfold signalled_reply. destruct reply; [by eexists|].
  unfold mbind, M_bind. destruct (collect_reply_pure agent_id (j_dispatched_at_seq_id j)
    (j_prompt_text j) w) as [[t|e] ->]; by eexists.
Qed.

Lemma late_stuck_pure agent_id prev w : ∃ o, late_stuck_job agent_id prev w = (Ok o, w).
Proof.
  unfold late_stuck_job, query_dispatched_job_for_agent_sync,
    late_health_completion_stuck_allows_terminal. run_m.
  destruct (_ == _); [|by eexists]. destruct (head _); [|by eexists].
  destruct (latest_state_change_payload _ _); by eexists.
Qed.

(** The job id of the last idle marker an agent printed since a dispatch. *)
Definition latest_marker (agent_id : string) (seq : option Z) (db : Db) : option string :=
  foldl (λ marker payload,
           match extract_ah_idle_marker_job_id (chunk_text payload) with
           | Some job_id => Some job_id
           | None => marker
           end) None (output_chunks agent_id (default 0 seq) db).

Lemma latest_marker_run agent_id seq w :
  latest_ah_idle_marker_job_id agent_id seq w = (Ok (latest_marker agent_id seq w.(w_db)), w).
Proof. done. Qed.

End Reads.

(** ** What leaves the job table alone *)

Definition jobs_kept (db db' : Db) : Prop := db'.(jobs) = db.(jobs).

#[global] Instance jobs_kept_preorder : PreOrder jobs_kept.
Proof. split; [by intros db|]. unfold jobs_kept. by intros x y z -> ->. Qed.

Section Kept.
Context {EXT : Externals}.

Lemma kept_update_agent {E} id guard f : respects jobs_kept (update_agent id guard f : M E nat).
Proof. intros w. unfold update_agent. by destruct (update_row _ _ _ _). Qed.

Lemma kept_insert_event ctx agent_id ty payload :
  respects jobs_kept (insert_event_null ctx agent_id ty payload).
Proof.
  intros w. unfold insert_event_null, map_err, insert_event_row. simpl.
  by destruct (agents _ !! _).
Qed.
#[local] Hint Resolve kept_update_agent kept_insert_event : respects.

Lemma kept_denied agent_id job_id message :
  respects jobs_kept (insert_evidence_denied_event agent_id job_id message).
Proof. unfold insert_evidence_denied_event. solve_respects. Qed.

Lemma kept_deferral agent_id job_id reply prev ver :
  respects jobs_kept (handle_completion_deferral_sync agent_id job_id reply prev ver).
Proof.
  unfold handle_completion_deferral_sync, has_completion_deferred_event,
    insert_completion_deferred_event. solve_respects.
Qed.

End Kept.
#[export] Hint Resolve kept_update_agent kept_insert_event kept_denied kept_deferral : respects.

(** ** Resolution of the job *)

Section Resolve.
Context {EXT : Externals}.

Definition resolved_status (cancel : bool) : JobStatus := if cancel then Cancelled else Completed.
Definition resolved_row (now : Z) (cancel : bool) (reply : string) (j : Job) : Job :=
  gate_row now (resolved_status cancel) (set_j_reply_text (Some reply) j).

Lemma resolve_job_run w job_id j reply cancel :
  w.(w_db).(jobs) !! job_id = Some j → j.(j_status) = "DISPATCHED" → j.(j_id) = job_id →
  is_Some (w.(w_db).(agents) !! j.(j_agent_id)) →
  ∃ w', resolve_job job_id reply cancel w = (Ok tt, w') ∧
    w'.(w_db).(jobs) = <[job_id := resolved_row w.(w_now) cancel reply j]> w.(w_db).(jobs) ∧
    w'.(w_db).(agents) = w.(w_db).(agents) ∧ w'.(w_db).(events) = w.(w_db).(events) ∧
    w'.(w_db).(event_seq) = w.(w_db).(event_seq) ∧ w'.(w_now) = w.(w_now).
Proof.
  intros Hj Hst Hid Hfk. set (j1 := set_j_reply_text (Some reply) j).
  set (db1 := set_jobs (<[job_id := j1]> w.(w_db).(jobs)) w.(w_db)).
  set (reason := if cancel then "cancelled" else "completed").
  exists (set_db (gate_db w.(w_now) job_id Dispatched (resolved_status cancel) reason j1 db1) w).
  split; [|by rw /= insert_insert_eq].
  assert (Hgate : transit_job_state job_id Dispatched (resolved_status cancel) reason
    (set_db db1 w) = (Ok tt, set_db (gate_db w.(w_now) job_id Dispatched (resolved_status cancel)
                                       reason j1 db1) w)).
  { apply (transit_job_state_commit (set_db db1 w) _ j1); [|done..].
    split; [apply lookup_insert_eq|]. destruct cancel; by repeat split; try constructor. }
  unfold resolve_job. erewrite bind_ok; [by rw ret_run|].
  destruct cancel; unfold mark_job_cancelled_conn_sync, mark_job_completed_conn_sync;
    (erewrite bind_ok; [cbv beta|apply update_job_hit; [done|by apply bool_decide_true]]);
    simpl; erewrite bind_ok; first [by rw ret_run|exact Hgate].
Qed.

End Resolve.

(** ** Completion signals *)

Section Signals.
Context {EXT : Externals}.

(** The agent's dispatched job, as the queries see it. *)
Definition current_job (agent_id : string) (db : Db) : option Job :=
  head (order_by dispatched_le (agent_jobs agent_id "DISPATCHED" db)).

(** What a completion signal may do to jobs: nothing, or resolve the agent's
    dispatched job, with its required evidence in the table, as the agent
    becomes idle; a job whose cancellation was requested becomes CANCELLED and
    not COMPLETED. *)
Definition signal_post {A} (w : World) (agent_id : string) (outcome : A → nat)
    (r : Result A CcbdError * World) : Prop :=
  let db' := r.2.(w_db) in
  db'.(jobs) = w.(w_db).(jobs) ∨
  ∃ o j reply a', r.1 = Ok o ∧ outcome o = 1%nat ∧
    current_job agent_id w.(w_db) = Some j ∧ evidence_satisfied w.(w_db) agent_id j ∧
    db'.(jobs) = <[j.(j_id) := resolved_row w.(w_now) j.(j_cancel_requested) reply j]>
                   w.(w_db).(jobs) ∧
    db'.(agents) !! agent_id = Some a' ∧ a'.(a_state) = STATE_IDLE.

(** The same of a transaction's body: what is rolled back does not count. *)
Definition body_post (w : World) (agent_id : string)
    (r : Result (TxEnd MarkerMatchedSyncOutcome) CcbdError * World) : Prop :=
  match r with
  | (Ok (Commit o), w') => signal_post w agent_id ms_changes (Ok o, w')
  | _ => True
  end.

Lemma transaction_signal w agent_id body :
  body_post w agent_id (body w) → signal_post w agent_id ms_changes (transaction body w).
Proof.
  unfold transaction, body_post. destruct (body w) as [[[o|o]|e] w']; [done|by left..].
Qed.

Lemma body_kept w agent_id body : respects jobs_kept body → body_post w agent_id (body w).
Proof.
  intros Hk. specialize (Hk w). unfold body_post.
  destruct (body w) as [[[o|o]|e] w']; [by left|done..].
Qed.

(** The last part of the three signals: the compare-and-set, and on success the
    job and the event. *)
Definition finish_prog (agent_id : string) (guard : Agent → bool) (f : Z → Agent → Agent)
    (djr : option (string * string * bool)) (ctx : string) (payload : Value) :
    M CcbdError (TxEnd MarkerMatchedSyncOutcome) :=
  now ← asks w_now;
  changes ← update_agent agent_id guard (f now);
  when (changes == 1%nat) (
    match djr with
    | Some (job_id, reply_text, cancel_requested) => resolve_job job_id reply_text cancel_requested
    | None => mret tt
    end;;
    insert_event_null ctx agent_id "state_change" payload;;
    mret tt);;
  mret (Commit (MkMarkerMatchedSyncOutcome changes None None)).

Lemma finish_none_kept agent_id guard f ctx payload :
  respects jobs_kept (finish_prog agent_id guard f None ctx payload).
Proof. unfold finish_prog. solve_respects. Qed.

Lemma finish_some_post w agent_id a guard f j reply ctx payload :
  db_wf w.(w_db) → w.(w_db).(agents) !! agent_id = Some a →
  (∀ b, (f w.(w_now) b).(a_state) = STATE_IDLE) →
  current_job agent_id w.(w_db) = Some j → evidence_satisfied w.(w_db) agent_id j →
  body_post w agent_id
    (finish_prog agent_id guard f (Some (j.(j_id), reply, j.(j_cancel_requested))) ctx payload w).
Proof.
  intros Hwf Ha Hf Hcur Hev. unfold finish_prog. step_pure.
  apply agent_jobs_head in Hcur as Hrow; [|done]. destruct Hrow as (Hj & Hag & Hst).
  destruct (guard a) eqn:Hg; cycle 1.
  { rw (bind_ok _ _ _ _ _ (update_agent_miss w _ _ _ a Ha Hg)). cbv beta. by left. }
  rw (bind_ok _ _ _ _ _ (update_agent_hit w _ _ _ a Ha Hg)). cbn [when bool_decide].
  set (w1 := set_db _ w).
  destruct (resolve_job_run w1 j.(j_id) j reply j.(j_cancel_requested))
    as (w2 & Hrun & Hjobs & Hags & _ & _ & Hnow); try done.
  { rw /= Hag. by apply lookup_insert_is_Some'; left. }
  rw bool_decide_true //. unfold when.
  erewrite (bind_ok (_ ≫= _)); [cbv beta|rw (bind_ok _ _ _ _ _ Hrun); cbv beta;
    erewrite bind_ok; [apply ret_run|apply insert_event_null_run; rw Hags /=; by rw lookup_insert_eq]].
  rw ret_run. right. eexists _, j, reply, (f w.(w_now) a).
  split; [reflexivity|]. split; [done|]. split; [done|]. split; [done|]. split; [exact Hjobs|].
  split; [|apply Hf]. cbn [snd w_db set_db]. rw post_event_agents Hags. apply lookup_insert_eq.
Qed.

End Signals.

(** The part that hook and log share, from the compare-and-set guard on. *)
Ltac solve_reported_signal source :=
  match goal with |- body_post ?w ?agent_id _ => 
    destruct (agents (w_db w) !! agent_id) as [a|] eqn:Ha; [|done];
    destruct (late_stuck_pure agent_id (a_state a) w) as [late Hlate];
    rw (bind_ok _ _ _ _ _ Hlate); destruct (_ && _ && _); [done|]; step_pure;
    fold (current_job agent_id w.(w_db));
    destruct (current_job agent_id w.(w_db)) as [j|] eqn:Hcur;
      [|refine (body_kept w agent_id _ (finish_none_kept agent_id _ (λ now a, _) _ _))];
    destruct (evidence_denial_run agent_id j w) as (denial & Hden & Hsat);
    rw (bind_ok _ _ _ _ _ Hden); destruct denial as [msg|]; [apply body_kept; solve_respects|];
    match goal with reply : option string |- _ =>
      destruct (signalled_reply_pure source agent_id j reply w) as [[[text src]|e] Hrep];
        [rw (bind_ok _ _ _ _ _ Hrep)|by rw (bind_err _ _ _ _ _ Hrep)]
    end;
    cbv beta iota; step_pure; destruct (classify_terminality _ _ _ _ _);
      [|apply body_kept; solve_respects];
    refine (finish_some_post w agent_id a _ (λ now a, _) j _ _ _ _ Ha _ Hcur _);
      [assumption|done|by apply Hsat]
  end.

Section SignalProofs.
Context {EXT : Externals}.

Lemma hook_post w agent_id provider ev eid reply ver :
  db_wf w.(w_db) →
  signal_post w agent_id ms_changes
    (mark_agent_idle_hook_event_outcome_sync agent_id provider ev eid reply ver w).
Proof.
  intros Hwf. unfold mark_agent_idle_hook_event_outcome_sync, query_agent_row,
    query_dispatched_job_for_agent_sync. apply transaction_signal. cbv beta zeta. step_pure.
  solve_reported_signal "hook".
Qed.

Lemma log_post w agent_id provider reply path off turn :
  db_wf w.(w_db) →
  signal_post w agent_id ms_changes
    (mark_agent_idle_log_event_outcome_sync agent_id provider reply path off turn w).
Proof.
  intros Hwf. unfold mark_agent_idle_log_event_outcome_sync, query_agent_row,
    query_dispatched_job_for_agent_sync. apply transaction_signal. cbv beta zeta. step_pure.
  solve_reported_signal "log".
Qed.

Lemma marker_post w agent_id reason :
  db_wf w.(w_db) →
  signal_post w agent_id ms_changes (mark_agent_idle_matched_outcome_sync_inner agent_id reason w).
Proof.
  intros Hwf. unfold mark_agent_idle_matched_outcome_sync_inner, query_agent_row,
    query_dispatched_job_for_agent_sync. apply transaction_signal. cbv beta zeta. step_pure.
  destruct (agents (w_db w) !! agent_id) as [a|] eqn:Ha; [|done].
  destruct (negb _); [done|]. step_pure. fold (current_job agent_id w.(w_db)).
  destruct (current_job agent_id w.(w_db)) as [j|] eqn:Hcur; cycle 1.
  { apply body_kept. unfold mark_agent_idle_matched_conn_inner. solve_respects. }
  step_pure. destruct (_ is_in _); [by left|].
  destruct (evidence_denial_run agent_id j w) as (denial & Hden & Hsat).
  rw (bind_ok _ _ _ _ _ Hden). destruct denial as [msg|]; [apply body_kept; solve_respects|].
  rw (bind_ok _ _ _ _ _ (latest_marker_run _ _ _)). destruct (match latest_marker _ _ _ with Some _ => _ | None => _ end); [done|].
  destruct (collect_reply_pure agent_id (j_dispatched_at_seq_id j) (j_prompt_text j) w)
    as [[text|e] Hrep]; [rw (bind_ok _ _ _ _ _ Hrep)|by rw (bind_err _ _ _ _ _ Hrep)].
  destruct (_ && _ && _); [done|]. step_pure.
  destruct (classify_terminality _ _ _ _ _); [|apply body_kept; solve_respects].
  pose proof (finish_some_post w agent_id a
    (λ b, (b.(a_state) is_in ["SPAWNING"; "WAITING_FOR_ACK"; "BUSY"]) &&
          (b.(a_state_version) =? a.(a_state_version)))
    (λ now b, bump_version now (set_a_sub_state (Some "Matched") (set_a_state "IDLE" b))) j text
    "insert marker matched state_change"
    (json_object [("from", JString a.(a_state)); ("to", JString "IDLE");
                  ("sub_state", JString "Matched"); ("reason", JString reason)])
    Hwf Ha (λ _, eq_refl) Hcur (proj1 Hsat eq_refl)) as Hfin.
  revert Hfin. unfold finish_prog, mark_agent_idle_matched_conn_inner, mbind, M_bind.
  unfold asks. destruct (update_agent _ _ _ _) as [[n|e] w1]; [|done].
  destruct (when _ _ _) as [[[]|e] w2]; done.
Qed.

End SignalProofs.

(** ** The properties *)

(** The three ways a turn is reported complete. *)
Inductive Signal : Type :=
| SigMarker (agent_id : string)
| SigHook (agent_id provider hook_event : string) (event_id reply : option string)
    (expected_state_version : option Z)
| SigLog (agent_id provider : string) (reply : option string) (raw_path : string) (raw_offset : Z)
    (provider_turn_id : option string).

Definition signal_agent (s : Signal) : string :=
  match s with SigMarker a | SigHook a _ _ _ _ _ | SigLog a _ _ _ _ _ => a end.

Section StateMachineProperties.
Context {EXT : Externals}.

Definition run_signal (s : Signal) : M CcbdError MarkerMatchedSyncOutcome :=
  match s with
  | SigMarker a => mark_agent_idle_matched_outcome_sync a
  | SigHook a p h e r v => mark_agent_idle_hook_event_outcome_sync a p h e r v
  | SigLog a p r path off turn => mark_agent_idle_log_event_outcome_sync a p r path off turn
  end.

(** C6: no completion signal gets around the evidence a job requires.  Whatever a
    screen marker, a hook or a log line reports, either no job changes, or the
    agent's dispatched job is resolved, and then every kind of evidence it
    requires is in the table, the agent is idle, and the job is CANCELLED if its
    cancellation was requested and COMPLETED otherwise. *)
Theorem signals_respect_evidence (s : Signal) w :
  db_wf w.(w_db) → signal_post w (signal_agent s) ms_changes (run_signal s w).
Proof.
  intros Hwf. destruct s; [by apply marker_post|by apply hook_post|by apply log_post].
Qed.

(** A log line that ends the turn completes the job.  For a busy or awaited
    agent with a dispatched job whose evidence is there, and a provider whose
    replies are final, the call succeeds: the job is resolved with the reported
    reply, the agent becomes idle one version later, and one event is logged. *)
Theorem log_line_completes_job w agent_id a j provider reply path off turn :
  db_wf w.(w_db) → w.(w_db).(agents) !! agent_id = Some a →
  a.(a_state) = STATE_BUSY ∨ a.(a_state) = STATE_WAITING_FOR_ACK →
  current_job agent_id w.(w_db) = Some j → evidence_satisfied w.(w_db) agent_id j →
  provider ≠ "antigravity" →
  ∃ w', mark_agent_idle_log_event_outcome_sync agent_id provider (Some reply) path off turn w =
      (Ok (MkMarkerMatchedSyncOutcome 1 None None), w') ∧
    w'.(w_db).(jobs) = <[j.(j_id) := resolved_row w.(w_now) j.(j_cancel_requested) reply j]>
                         w.(w_db).(jobs) ∧
    w'.(w_db).(agents) = <[agent_id := bump_version w.(w_now)
       (set_a_sub_state (Some "LogEvent") (set_a_state "IDLE" a))]> w.(w_db).(agents) ∧
    w'.(w_db).(event_seq) = w.(w_db).(event_seq) + 1.
Proof.
  intros Hwf Ha Hstate Hcur Hev Hprov.
  apply agent_jobs_head in Hcur as Hrow; [|done]. destruct Hrow as (Hj & Hag & Hst).
  set (f := λ b, bump_version w.(w_now) (set_a_sub_state (Some "LogEvent") (set_a_state "IDLE" b))).
  destruct (resolve_job_run (set_db (set_agents (<[agent_id := f a]> w.(w_db).(agents)) w.(w_db)) w)
    j.(j_id) j reply j.(j_cancel_requested)) as (w2 & Hrun & Hjobs & Hags & Hevs & Hseq & Hnow); try done.
  { rw /= Hag. by apply lookup_insert_is_Some'; left. }
  destruct (evidence_denial_run agent_id j w) as (denial & Hden & Hsat).
  rw (proj2 Hsat Hev) in Hden.
  assert (Hnl : late_stuck_job agent_id (a_state a) w = (Ok None, w)).
  { unfold late_stuck_job. by destruct Hstate as [-> | ->]. }
  eexists. split.
  - unfold mark_agent_idle_log_event_outcome_sync, query_agent_row,
      query_dispatched_job_for_agent_sync. cbv beta zeta. apply transaction_ok. step_pure.
    rw Ha (bind_ok _ _ _ _ _ Hnl).
    assert (Hguard : (a.(a_state) != STATE_WAITING_FOR_ACK) && (a.(a_state) != STATE_BUSY) = false)
      by (by destruct Hstate as [-> | ->]).
    rw Hguard. cbn [andb]. step_pure. fold (current_job agent_id w.(w_db)).
    rw Hcur (bind_ok _ _ _ _ _ Hden). unfold signalled_reply. step_pure. cbv beta iota.
    unfold classify_terminality. rw bool_decide_false //.
    step_pure. rw (bind_ok _ _ _ _ _ (update_agent_hit w _ _ _ a Ha _)).
    { rw Z.eqb_refl andb_true_r. by destruct Hstate as [-> | ->]. }
    rw bool_decide_true //. unfold when.
    erewrite (bind_ok (_ ≫= _)); [cbv beta; apply ret_run|].
    rw (bind_ok _ _ _ _ _ Hrun). cbv beta.
    erewrite bind_ok; [apply ret_run|apply insert_event_null_run; rw Hags /=; by rw lookup_insert_eq].
  - cbn [w_db set_db]. rw post_event_jobs post_event_agents post_event_seq Hjobs Hags Hseq. done.
Qed.

(** A marker that names another job is ignored.  When the last idle marker
    the agent printed since the dispatch names a different job than the one
    dispatched, a marker match changes neither a job nor an agent. *)
Theorem foreign_marker_ignored w agent_id a j m :
  w.(w_db).(agents) !! agent_id = Some a → current_job agent_id w.(w_db) = Some j →
  latest_marker agent_id j.(j_dispatched_at_seq_id) w.(w_db) = Some m → m ≠ j.(j_id) →
  ∃ o w', mark_agent_idle_matched_outcome_sync agent_id w = (Ok o, w') ∧ o.(ms_changes) = 0%nat ∧
    w'.(w_db).(jobs) = w.(w_db).(jobs) ∧ w'.(w_db).(agents) = w.(w_db).(agents).
Proof.
  intros Ha Hcur Hm Hne. unfold mark_agent_idle_matched_outcome_sync,
    mark_agent_idle_matched_outcome_sync_inner, query_agent_row,
    query_dispatched_job_for_agent_sync, transaction. cbv beta zeta. step_pure. rw Ha.
  destruct (negb _); [by eexists _, _|]. step_pure. fold (current_job agent_id w.(w_db)).
  rw Hcur. step_pure. destruct (_ is_in _); [by eexists _, _|].
  destruct (evidence_denial_run agent_id j w) as (denial & Hden & _).
  rw (bind_ok _ _ _ _ _ Hden). destruct denial as [msg|].
  - unfold insert_evidence_denied_event.
    erewrite bind_ok; [|erewrite bind_ok; [apply ret_run|apply insert_event_null_run; by rw Ha]].
    by eexists _, _.
  - rw (bind_ok _ _ _ _ _ (latest_marker_run _ _ _)) Hm bool_decide_false //=. by eexists _, _.
Qed.

(** Failing the current job of an agent that was just marked stuck. *)
Lemma stuck_job_run w agent_id reason j :
  w.(w_db).(jobs) !! j.(j_id) = Some j → j.(j_agent_id) = agent_id ∧ j.(j_status) = "DISPATCHED" →
  is_Some (w.(w_db).(agents) !! agent_id) →
  ∃ w', (update_job j.(j_id)
           (λ j, (j.(j_agent_id) == agent_id) && (j.(j_status) == "DISPATCHED"))
           (set_j_error_reason (Some reason));;
         transit_job_state j.(j_id) Dispatched Failed reason;;
         insert_event_null "insert stuck job_resolution" agent_id "job_resolution"
           (json_object [("job_id", JString j.(j_id)); ("job_resolution", JString "FAILED");
                         ("reason", JString reason); ("source", JString "mark_agent_stuck")]);;
         mret "FAILED") w = (Ok "FAILED", w') ∧
    w'.(w_db).(jobs) = <[j.(j_id) := failed_row w.(w_now) reason j]> w.(w_db).(jobs) ∧
    w'.(w_db).(agents) = w.(w_db).(agents) ∧ w'.(w_now) = w.(w_now).
Proof.
  intros Hj [Hag Hst] Hfk. set (j1 := set_j_error_reason (Some reason) j). eexists. split.
  - erewrite bind_ok; [cbv beta|apply (update_job_hit _ _ _ _ j); [exact Hj|]].
    2:{ by rw Hag Hst !bool_decide_true. }
    erewrite bind_ok; [cbv beta|apply (transit_job_state_commit _ _ j1)].
    + erewrite bind_ok; [apply ret_run|]. by apply insert_event_null_run.
    + split; [apply lookup_insert_eq|]. by repeat split; try constructor.
    + done.
    + by rw /= Hag.
  - rw !set_db_twice. cbn [w_db set_db]. rw post_event_jobs post_event_agents gate_db_jobs.
    split; [|done]. simpl. by rw insert_insert_eq.
Qed.

(** Marking an agent stuck ends its turn.  A busy or awaited agent becomes
    STUCK one version later and the job it was dispatched, if any, becomes
    FAILED with the reason; the outcome names the job, its resolution and the
    number of the logged event.  In any other state, and for an unknown agent,
    nothing changes. *)
Theorem stuck_fails_current_job w agent_id reason :
  db_wf w.(w_db) →
  match w.(w_db).(agents) !! agent_id with
  | Some a =>
      if (a.(a_state) == STATE_BUSY) || (a.(a_state) == STATE_WAITING_FOR_ACK) then
        ∃ w', mark_agent_stuck_outcome_sync agent_id reason w =
            (Ok (MkStuckOutcome 1 agent_id (j_id <$> current_job agent_id w.(w_db))
                   (Some a.(a_state)) (Some w'.(w_db).(event_seq))
                   (if current_job agent_id w.(w_db) is Some _ then "FAILED" else "NONE")), w') ∧
          w'.(w_db).(agents) =
            <[agent_id := bump_version w.(w_now) (set_a_state STATE_STUCK a)]> w.(w_db).(agents) ∧
          w'.(w_db).(jobs) =
            match current_job agent_id w.(w_db) with
            | Some j => <[j.(j_id) := failed_row w.(w_now) reason j]> w.(w_db).(jobs)
            | None => w.(w_db).(jobs)
            end
      else ∃ o, mark_agent_stuck_outcome_sync agent_id reason w = (Ok o, w) ∧ o.(so_changes) = 0%nat
  | None =>
      ∃ o, mark_agent_stuck_outcome_sync agent_id reason w = (Ok o, w) ∧ o.(so_changes) = 0%nat
  end.
Proof.
  intros Hwf. unfold mark_agent_stuck_outcome_sync, query_agent_row,
    query_dispatched_job_for_agent_sync. cbv beta zeta.
  destruct (agents (w_db w) !! agent_id) as [a|] eqn:Ha; cycle 1.
  { unfold transaction. step_pure. rw Ha. eexists. by destruct w. }
  destruct ((a.(a_state) == STATE_BUSY) || (a.(a_state) == STATE_WAITING_FOR_ACK)) eqn:Hs; cycle 1.
  { unfold transaction. step_pure. rw Ha -negb_orb Hs. eexists. by destruct w. }
  assert (Hg : (a.(a_state) is_in ["BUSY"; "WAITING_FOR_ACK"]) &&
               (a.(a_state_version) =? a.(a_state_version)) = true).
  { rw Z.eqb_refl andb_true_r. apply orb_true_iff in Hs.
    rw !bool_decide_eq_true in Hs. by destruct Hs as [-> | ->]. }
  set (w1 := set_db (set_agents (<[agent_id := bump_version w.(w_now) (set_a_state STATE_STUCK a)]>
                       w.(w_db).(agents)) w.(w_db)) w).
  assert (Hag1 : is_Some (w1.(w_db).(agents) !! agent_id)) by (by rw /= lookup_insert_eq).
  pose proof (update_agent_hit (E := CcbdError) w agent_id
    (λ b, (b.(a_state) is_in ["BUSY"; "WAITING_FOR_ACK"]) &&
          (b.(a_state_version) =? a.(a_state_version)))
    (λ b, bump_version w.(w_now) (set_a_state "STUCK" b)) a Ha Hg) as Hup.
  set (payload job res := json_object [("from", JString a.(a_state)); ("to", JString "STUCK");
    ("reason", JString reason); ("job_id", json_opt JString job); ("job_resolution", JString res);
    ("signal_kinds", JArray [JString "state_machine"]); ("elapsed_secs", JNumber 0)]).
  destruct (current_job agent_id w.(w_db)) as [j|] eqn:Hcur.
  - apply agent_jobs_head in Hcur as Hrow; [|done]. destruct Hrow as (Hj & Hrow).
    destruct (stuck_job_run w1 agent_id reason j) as (w2 & Hjob & Hj2 & Ha2 & Hn2); [done..|].
    exists (set_db (post_event w2.(w_now) agent_id "state_change"
                      (payload (Some j.(j_id)) "FAILED") w2.(w_db)) w2).
    repeat split; [|exact Ha2|exact Hj2].
    apply transaction_ok. step_pure. rw Ha -negb_orb Hs. cbn [negb]. step_pure.
    fold (current_job agent_id w.(w_db)). rw Hcur. step_pure.
    rw (bind_ok _ _ _ _ _ Hup) bool_decide_true //. cbn [fmap option_fmap option_map].
    rw (bind_ok _ _ _ _ _ Hjob).
    erewrite bind_ok; [apply ret_run|]. apply insert_event_null_run. by rw Ha2.
  - exists (set_db (post_event w1.(w_now) agent_id "state_change" (payload None "NONE") w1.(w_db))
              w1). repeat split.
    apply transaction_ok. step_pure. rw Ha -negb_orb Hs. cbn [negb]. step_pure.
    fold (current_job agent_id w.(w_db)). rw Hcur. step_pure.
    rw (bind_ok _ _ _ _ _ Hup) bool_decide_true //. cbn [fmap option_fmap option_map]. step_pure.
    erewrite bind_ok; [apply ret_run|]. by apply insert_event_null_run.
Qed.

(** The event a deferral writes is the one the next deferral looks for. *)
Lemma deferred_payload_recognized job_id reason hash :
  is_completion_deferred_payload job_id hash
    (json_to_string (json_object [("job_id", JString job_id); ("reason", JString reason);
                                  ("candidate_hash", JString hash)])) = true.
Proof.
  unfold is_completion_deferred_payload. rw json_from_to; [by repeat split|].
  simpl. by rw !bool_decide_true.
Qed.

Definition deferred_payload (job_id hash : string) : Value :=
  json_object [("job_id", JString job_id); ("reason", JString "ANTIGRAVITY_DEFERRED_BACKGROUND_WORK");
               ("candidate_hash", JString hash)].

(** A deferral that is answered leaves its event. *)
Lemma deferral_records w agent_id job_id reply prev ver n w1 :
  handle_completion_deferral_sync agent_id job_id reply prev ver w = (Ok n, w1) →
  ∃ e, e ∈ w1.(w_db).(events) ∧ e.(e_agent_id) = agent_id ∧
    e.(e_event_type) = "completion_deferred" ∧
    e.(e_payload) = json_to_string (deferred_payload job_id (recapture_content_hash reply)).
Proof.
  intros Hrun. destruct (w.(w_db).(agents) !! agent_id) as [a|] eqn:Ha; cycle 1.
  { unfold handle_completion_deferral_sync, has_completion_deferred_event,
      insert_completion_deferred_event, insert_event_null, insert_event_row in Hrun.
    revert Hrun. unfold mbind, M_bind, gets, map_err. simpl. by rw Ha. }
  unfold handle_completion_deferral_sync, has_completion_deferred_event,
    insert_completion_deferred_event in Hrun. rw bind_gets in Hrun.
  erewrite bind_ok in Hrun;
    [|erewrite bind_ok; [apply ret_run|apply insert_event_null_run; by rw Ha]].
  set (wm := set_db _ w) in Hrun.
  eexists (MkEvent (w.(w_db).(event_seq) + 1) agent_id None "completion_deferred" _ w.(w_now)).
  split; [|done].
  assert (Hk : evolves wm.(w_db) w1.(w_db)).
  { match type of Hrun with ?m wm = _ =>
      assert (Hr : respects sound m) by solve_respects;
      specialize (Hr wm); rw Hrun in Hr; apply Hr end. }
  eapply elem_of_prefix; [|apply ev_events, Hk].
  apply elem_of_app. right. apply list_elem_of_here.
Qed.

(** With that event in the table, a deferral asks for no nudge. *)
Lemma deferral_after w agent_id job_id reply prev ver e :
  is_Some (w.(w_db).(agents) !! agent_id) → e ∈ w.(w_db).(events) → e.(e_agent_id) = agent_id →
  e.(e_event_type) = "completion_deferred" →
  e.(e_payload) = json_to_string (deferred_payload job_id (recapture_content_hash reply)) →
  ∃ w', handle_completion_deferral_sync agent_id job_id reply prev ver w = (Ok None, w').
Proof.
  intros Hag He Hea Het Hep.
  assert (Hnudged : has_completion_deferred_event agent_id job_id (recapture_content_hash reply) w =
    (Ok true, w)).
  { unfold has_completion_deferred_event, gets. do 2 f_equal. apply existsb_exists.
    exists (e_payload e). split; [|rw Hep; apply deferred_payload_recognized].
    apply list_elem_of_In, list_elem_of_fmap. exists e. split; [done|].
    by apply list_elem_of_filter. }
  unfold handle_completion_deferral_sync. rw (bind_ok _ _ _ _ _ Hnudged).
  unfold insert_completion_deferred_event.
  erewrite bind_ok; [cbv beta|erewrite bind_ok; [apply ret_run|by apply insert_event_null_run]].
  step_pure. destruct Hag as [a Ha].
  match goal with |- context [update_agent agent_id ?g ?f] => destruct (g a) eqn:Hg end.
  - erewrite bind_ok; [cbv beta|apply (update_agent_hit _ _ _ _ a); done].
    rw bool_decide_true //. unfold when.
    erewrite bind_ok; [eexists; apply ret_run|].
    erewrite bind_ok; [apply ret_run|apply insert_event_null_run; by rw /= lookup_insert_eq].
  - erewrite bind_ok; [cbv beta|apply (update_agent_miss _ _ _ _ a); done].
    rw bool_decide_false //. by eexists.
Qed.

(** Unfinished work is nudged once.  The first deferral of a job's reply may
    ask for a nudge; any later deferral of the same job with the same reply,
    however the tables evolved in between, asks for none. *)
Theorem deferral_nudges_once w agent_id job_id reply prev ver n w1 w2 prev' ver' :
  handle_completion_deferral_sync agent_id job_id reply prev ver w = (Ok n, w1) →
  evolves w1.(w_db) w2.(w_db) → is_Some (w2.(w_db).(agents) !! agent_id) →
  ∃ w3, handle_completion_deferral_sync agent_id job_id reply prev' ver' w2 = (Ok None, w3).
Proof.
  intros Hrun Hev Hag2. destruct (deferral_records _ _ _ _ _ _ _ _ Hrun) as (e & He & Hea & Het & Hep).
  apply (deferral_after w2 agent_id job_id reply prev' ver' e); [done| |done..].
  eapply elem_of_prefix; [exact He|apply ev_events, Hev].
Qed.

End StateMachineProperties.
