(* ===== verification/LogMonitor.v ===== *)
(** * The log monitor

    [src/src/completion/monitor.rs] and [registry.rs]: the task that polls an
    agent's transcripts while the agent works, and the table of running
    monitors.  A monitor is known by the channel on which it is cancelled. *)
From S2P Require Import Prelude Json Schema Sql JobGate Invariant AgentGate Text Base64 Completion StateMachine Agents LogReader.
From S2P Require Import Jobs JobsProofs StateMachineProofs.

(** ** The table of monitors *)

Record LogMonitorEntry : Type := MkLogMonitorEntry {
  me_provider : string;
  me_log_root : Path;
  me_state : LogReadState;
  me_cancel_tx : nat
}.

(** [mt_cancelled]: the channels a cancellation was sent on. *)
Record LogMonitors : Type := MkLogMonitors {
  mt_entries : gmap string LogMonitorEntry;
  mt_cancelled : list nat
}.

Definition register (agent_id : string) (entry : LogMonitorEntry) (m : LogMonitors) : LogMonitors :=
  MkLogMonitors (<[agent_id := entry]> m.(mt_entries))
    (match m.(mt_entries) !! agent_id with
     | Some old => old.(me_cancel_tx) :: m.(mt_cancelled)
     | None => m.(mt_cancelled)
     end).

Definition monitors_contain (agent_id : string) (m : LogMonitors) : bool :=
  bool_decide (is_Some (m.(mt_entries) !! agent_id)).

Definition cursor_snapshot (agent_id : string) (m : LogMonitors) : option LogCursorMap :=
  (λ e, e.(me_state).(cursors)) <$> m.(mt_entries) !! agent_id.

Definition entry_snapshot (agent_id : string) (m : LogMonitors) :
    option (string * Path * LogReadState) :=
  (λ e, (e.(me_provider), e.(me_log_root), e.(me_state))) <$> m.(mt_entries) !! agent_id.

Definition update_state (agent_id : string) (state : LogReadState) (m : LogMonitors) : LogMonitors :=
  MkLogMonitors
    (alter (λ e, MkLogMonitorEntry e.(me_provider) e.(me_log_root) state e.(me_cancel_tx)) agent_id
       m.(mt_entries)) m.(mt_cancelled).

Definition take_monitor (agent_id : string) (m : LogMonitors) : option LogMonitorEntry * LogMonitors :=
  (m.(mt_entries) !! agent_id, MkLogMonitors (delete agent_id m.(mt_entries)) m.(mt_cancelled)).

Definition cancel (agent_id : string) (m : LogMonitors) : LogMonitors :=
  match take_monitor agent_id m with
  | (Some entry, m') => MkLogMonitors m'.(mt_entries) (entry.(me_cancel_tx) :: m'.(mt_cancelled))
  | (None, m') => m'
  end.

(** ** One poll *)

Section Monitor.
Context {EXT : Externals} {RX : RegexCaptures}.

(** [completed] is also what the source calls [woke_orchestrator]; [cursors] is
    in the state. *)
Record LogMonitorTickOutcome : Type := MkTickOutcome {
  tk_completed : bool;
  tk_state : LogReadState
}.

(** The loop over the completions: the first that changes the agent ends it. *)
Fixpoint apply_completions (agent_id provider : string) (completions : list LogCompletion) :
    M CcbdError bool :=
  match completions with
  | [] => mret false
  | completion :: completions' =>
      match completion.(lc_parsed) with
      | TurnComplete turn_id reply =>
          answer ← try_ (mark_agent_idle_log_event agent_id provider reply
                           (path_display completion.(lc_raw_path))
                           (Z.of_nat completion.(lc_raw_offset)) turn_id);
          match answer : Result (nat * option string) CcbdError with
          | Ok (S _, affected_job) =>
              (match affected_job with Some job_id => notify_job_update job_id | None => mret () end);;
              wake_up;;
              mret true
          | _ => apply_completions agent_id provider completions'
          end
      | _ => apply_completions agent_id provider completions'
      end
  end.

Definition run_log_monitor_tick (agent_id provider : string) (log_root : Path)
    (tree : option FsNode) (state : LogReadState) : M CcbdError LogMonitorTickOutcome :=
  match read_provider_log_tail_with_state provider log_root tree state with
  | Err e => throw (PtyIoError ("read provider log tail: " +:+ e))
  | Ok (completions, updated_state) =>
      completed ← apply_completions agent_id provider completions;
      mret (MkTickOutcome completed updated_state)
  end.

Definition log_monitor_observed_progress (before after : LogReadState) : bool :=
  existsb (λ '(path, after_offset),
    bool_decide (default 0 (before.(cursors) !! path) < after_offset)%nat)
    (map_to_list after.(cursors)).

(** ** The task *)

(** Nanoseconds, as for the monotonic clock of the gateway. *)
Definition MAX_LOG_MONITOR_WAIT : Z := 15 * 60 * 1000000000.

(** [None]: the task has ended. *)
Record Monitoring : Type := MkMonitoring {
  mg_state : LogReadState;
  mg_deadline : Z
}.

(** One turn after the sleep, if no cancellation came first; [now] and [later]
    are the clock before and after the poll. *)
Definition log_monitor_turn (agent_id provider : string) (log_root : Path) (tree : option FsNode)
    (now later : Z) (g : Monitoring) (m : LogMonitors) :
    M CcbdError (option Monitoring * LogMonitors) :=
  if g.(mg_deadline) <=? now then mret (None, cancel agent_id m)
  else
  state ← try_ (query_agent_state_sync agent_id);
  match state : Result (option (string * Z)) CcbdError with
  | Err _ => mret (None, m)
  | Ok (Some (STATE, _)) =>
      if (STATE == STATE_WAITING_FOR_ACK) || (STATE == STATE_BUSY) then
        outcome ← try_ (run_log_monitor_tick agent_id provider log_root tree g.(mg_state));
        match outcome : Result LogMonitorTickOutcome CcbdError with
        | Err _ => mret (Some g, m)
        | Ok outcome =>
            let deadline :=
              if log_monitor_observed_progress g.(mg_state) outcome.(tk_state)
              then later + MAX_LOG_MONITOR_WAIT else g.(mg_deadline) in
            let m := update_state agent_id outcome.(tk_state) m in
            if outcome.(tk_completed) then mret (None, cancel agent_id m)
            else mret (Some (MkMonitoring outcome.(tk_state) deadline), m)
        end
      else mret (None, cancel agent_id m)
  | Ok None => mret (None, cancel agent_id m)
  end.

(** ** The database stays consistent *)

Lemma sound_apply_completions agent_id provider completions :
  respects sound (apply_completions agent_id provider completions).
Proof.
  induction completions as [|c l IH]; cbn [apply_completions]; [solve_respects|].
  destruct (lc_parsed c); try exact IH. unfold wake_up, notify_job_update.
  solve_respects; exact IH || eauto with respects.
Qed.

Lemma sound_log_monitor_turn agent_id provider root tree now later g m :
  respects sound (log_monitor_turn agent_id provider root tree now later g m).
Proof.
  unfold log_monitor_turn, run_log_monitor_tick, query_agent_state_sync. cbv zeta.
  pose proof (sound_apply_completions agent_id provider). solve_respects; auto.
Qed.

(** A monitor that ends its turn when another one was registered for the same
    agent meanwhile cancels that one: the table is keyed by the agent alone. *)
Lemma late_monitor_cancels_successor agent_id provider root tree now later g m successor w :
  m.(mt_entries) !! agent_id = Some successor → g.(mg_deadline) ≤ now →
  ∃ m', log_monitor_turn agent_id provider root tree now later g m w = (Ok (None, m'), w) ∧
    m'.(mt_entries) !! agent_id = None ∧ successor.(me_cancel_tx) ∈ m'.(mt_cancelled).
Proof.
  intros Hm Hd. unfold log_monitor_turn. rw (proj2 (Z.leb_le _ _) Hd). eexists. split; [reflexivity|].
  unfold cancel, take_monitor. rw Hm. cbn [mt_entries mt_cancelled]. rw lookup_delete_eq.
  split; [done|left].
Qed.

(** ** A line that ends the turn *)

Lemma cancel_removes agent_id m : (cancel agent_id m).(mt_entries) !! agent_id = None.
Proof.
  unfold cancel, take_monitor. destruct (m.(mt_entries) !! agent_id); apply lookup_delete_eq.
Qed.

Lemma publish_outcome_run agent_id affected o w :
  ∃ r w', publish_outcome agent_id affected o w = (Ok r, w') ∧
    r.(mo_changes) = o.(ms_changes) ∧ w'.(w_db) = w.(w_db).
Proof.
  unfold publish_outcome. destruct (bool_decide (0 < ms_changes o)%nat);
    destruct o as [n [d|] [g|]], affected as [job|]; eexists _, _; split_and!; reflexivity.
Qed.

Lemma log_event_published agent_id provider reply path off turn o w w1 :
  mark_agent_idle_log_event_outcome_sync agent_id provider reply path off turn w = (Ok o, w1) →
  ∃ job w2, mark_agent_idle_log_event agent_id provider reply path off turn w =
    (Ok (o.(ms_changes), job), w2) ∧ w2.(w_db) = w1.(w_db).
Proof.
  intros Hrun. unfold mark_agent_idle_log_event, mark_agent_idle_log_event_outcome, affected_job_id,
    query_dispatched_job_for_agent_sync.
  destruct (publish_outcome_run agent_id
    (j_id <$> current_job agent_id w.(w_db)) o w1) as (r & w2 & Hp & <- & Hdb).
  exists r.(mo_affected_job), w2. split; [|done]. erewrite bind_ok; [apply ret_run|].
  step_pure. by rw (bind_ok _ _ _ _ _ Hrun).
Qed.

(** C22: a finished turn in the transcript completes the job.  When the monitor of
    an agent that is BUSY or waits for an acknowledgement, of a provider other than
    antigravity, polls before its deadline and the first completion it reads
    carries a reply, the agent's dispatched job, if the evidence it requires is
    there, is resolved with that reply, the agent becomes idle, and the monitor
    ends and leaves the table. *)
Theorem transcript_completes_job w agent_id a j provider root tree now later g m
    turn reply path offset more s' :
  db_wf w.(w_db) → w.(w_db).(agents) !! agent_id = Some a →
  a.(a_state) = STATE_BUSY ∨ a.(a_state) = STATE_WAITING_FOR_ACK →
  current_job agent_id w.(w_db) = Some j → evidence_satisfied w.(w_db) agent_id j →
  provider ≠ "antigravity" → now < g.(mg_deadline) →
  read_provider_log_tail_with_state provider root tree g.(mg_state) =
    Ok (MkLogCompletion (TurnComplete turn (Some reply)) path offset :: more, s') →
  ∃ m' w', log_monitor_turn agent_id provider root tree now later g m w = (Ok (None, m'), w') ∧
    m'.(mt_entries) !! agent_id = None ∧
    w'.(w_db).(jobs) = <[j.(j_id) := resolved_row w.(w_now) j.(j_cancel_requested) reply j]>
                         w.(w_db).(jobs) ∧
    w'.(w_db).(agents) = <[agent_id := bump_version w.(w_now)
       (set_a_sub_state (Some "LogEvent") (set_a_state "IDLE" a))]> w.(w_db).(agents).
Proof.
  intros Hwf Ha Hstate Hcur Hev Hp Hnow Hread.
  destruct (log_line_completes_job w agent_id a j provider reply (path_display path)
    (Z.of_nat offset) turn) as (w1 & Hrun & Hjobs & Hags & _); [done..|].
  destruct (log_event_published _ _ _ _ _ _ _ _ _ Hrun) as (job & w2 & Hpub & Hdb).
  assert (Htick : ∃ w3, run_log_monitor_tick agent_id provider root tree g.(mg_state) w =
    (Ok (MkTickOutcome true s'), w3) ∧ w3.(w_db) = w1.(w_db)).
  { unfold run_log_monitor_tick. rw Hread. cbn [apply_completions lc_parsed lc_raw_path lc_raw_offset].
    assert (Htry : (try_ (mark_agent_idle_log_event agent_id provider (Some reply)
      (path_display path) (Z.of_nat offset) turn) : M CcbdError _) w = (Ok (Ok (1%nat, job)), w2)).
    { unfold try_. by rw Hpub. }
    destruct job as [job|]; eexists; (split;
      [erewrite bind_ok; [apply ret_run|]; rw (bind_ok _ _ _ _ _ Htry); reflexivity|exact Hdb]). }
  destruct Htick as (w3 & Htick & Hdb3).
  assert (Hquery : (try_ (query_agent_state_sync agent_id) : M CcbdError _) w =
    (Ok (Ok (Some (a.(a_state), a.(a_state_version)))), w)).
  { unfold try_, query_agent_state_sync, gets. by rw Ha. }
  eexists _, w3. split.
  - unfold log_monitor_turn. rw (proj2 (Z.leb_gt _ _) Hnow) (bind_ok _ _ _ _ _ Hquery).
    assert (Hw : (a.(a_state) == STATE_WAITING_FOR_ACK) || (a.(a_state) == STATE_BUSY) = true)
      by (by destruct Hstate as [-> | ->]).
    rw Hw. rw (bind_ok _ _ _ (Ok (MkTickOutcome true s')) w3); [unfold try_; by rw Htick|].
    reflexivity.
  - rw Hdb3. split_and!; [|done|done]. apply cancel_removes.
Qed.

End Monitor.

#[export] Hint Resolve sound_log_monitor_turn : respects.
