(* ===== verification/PromptCases.v ===== *)
(** * Known prompts

    [src/src/prompt_handler/schema.rs], [seeds.rs] and [matcher.rs], the idle
    marker of [src/src/marker/matcher.rs] and the texts of [src/src/error.rs]: the
    cases a provider's interactive prompts are recognised by, the actions a case
    may take and the matching of a captured screen against the cases.  Regular expressions, SHA-256 and the printing of a string
    with [{:?}] are parameters. *)
From S2P Require Import Prelude Json Schema Sql AgentGate Text ReplyText Providers.
From Stdlib Require Import Ascii.
From Stdlib Require QArith_base.

(** ** Actions *)

Inductive PromptAction : Type :=
| Key (value : string)
| Literal (value : string).
#[global] Instance PromptAction_eq_dec : EqDecision PromptAction.
Proof. solve_decision. Defined.

(** [RegexBuilder::new(p)] with flags: the error of a pattern that does not
    compile; [Regex::captures]: where each group matched; [replace_all]; the
    contents of a 200 by 200 [vt100] screen after some output; the JSON of a list
    of actions and the error of one that does not parse. *)
Class PromptExternals := {
  regex_error : string → list string → option string;
  regex_find : string → list string → string → option (list (option (nat * nat)));
  regex_replace_all : string → string → string → string;
  regex_escape : string → string;
  sha256_hex : string → string;
  vt100_screen : string → string;
  str_debug : string → string;
  actions_to_string : list PromptAction → string;
  actions_from_str : string → option (list PromptAction);
  actions_error : string → string;
  actions_from_to l : actions_from_str (actions_to_string l) = Some l
}.

(** [CcbdError]'s [Display]. *)
Definition error_to_string (e : CcbdError) : string :=
  match e with
  | DbConstraintViolation d => "database constraint violation: " +:+ d
  | DbEvidenceNotFound d => "database evidence not found: " +:+ d
  | AgentNotFound d => "agent not found: " +:+ d
  | AgentAlreadyExists d => "agent already exists: " +:+ d
  | PtyOpenFailed d => "pty open failed: " +:+ d
  | PtyIoError d => "pty I/O error: " +:+ d
  | IpcInvalidRequest d => "invalid IPC request: " +:+ d
  | SandboxUserNsDisabled d => "sandbox user namespace disabled: " +:+ d
  | SandboxMountFailed d => "sandbox mount failed: " +:+ d
  | EnvironmentNotSupported d => "environment not supported: " +:+ d
  | AgentUnexpectedExit d => "agent unexpected exit: " +:+ d
  | AgentWrongState s => "agent is not in IDLE state: current_state=" +:+ s
  | StartupMarkerTimeout d => "startup marker timeout: " +:+ d
  | PtyMarkerTimeout d => "PTY marker timeout: " +:+ d
  | DuplicateRequest n => "duplicate request for existing event seq_id=" +:+ decimal n
  | DatabaseRuntimePanic d => "database runtime panic: " +:+ d
  | TmuxNotFound => "tmux binary not found in PATH"
  | TmuxCommandFailed cmd stderr exit =>
      "tmux command failed: " +:+ cmd +:+ ": exit=" +:+ decimal exit +:+ ", stderr=" +:+ stderr
  end.

Inductive PromptHandlerError : Type :=
| InvalidKb (details : string)
| InvalidAction (details : string)
| InvalidFingerprint (details : string)
| IoFailed (details : string)
| JsonFailed (details : string)
| LockFailed (details : string).

Definition prompt_error_to_string (e : PromptHandlerError) : string :=
  match e with
  | InvalidKb d => "invalid prompt knowledge base: " +:+ d
  | InvalidAction d => "invalid prompt action: " +:+ d
  | InvalidFingerprint d => "invalid prompt fingerprint: " +:+ d
  | IoFailed d => "prompt knowledge base I/O failed: " +:+ d
  | JsonFailed d => "prompt knowledge base JSON failed: " +:+ d
  | LockFailed d => "prompt knowledge base lock failed: " +:+ d
  end.
Definition prompt_error (e : PromptHandlerError) : CcbdError :=
  IpcInvalidRequest (prompt_error_to_string e).

(** What may be typed. *)
Inductive ValidatedAction : Type :=
| VKey (keysym : string)
| VLiteral (text : string).
#[global] Instance ValidatedAction_eq_dec : EqDecision ValidatedAction.
Proof. solve_decision. Defined.

Definition allowed_named : list string :=
  ["Esc"; "Escape"; "Enter"; "Up"; "Down"; "Left"; "Right"; "Tab"; "Space"; "BSpace"; "Backspace";
   "C-c"; "C-d"; "Ctrl+C"; "Ctrl+D"].
Definition allowed_literals : list string := ["yes"; "no"; "agree"].

Definition is_alnum (c : ascii) : bool :=
  let n := nat_of_ascii c in
  bool_decide (48 ≤ n ≤ 57)%nat || bool_decide (65 ≤ n ≤ 90)%nat || bool_decide (97 ≤ n ≤ 122)%nat.
Definition is_single_alnum (s : string) : bool :=
  match s with String c EmptyString => is_alnum c | _ => false end.

Fixpoint contains_shell_metachar (value : string) : bool :=
  match value with
  | EmptyString => false
  | String c s => (nat_of_ascii c is_in [38; 124; 59; 36; 96; 60; 62; 10; 13]%nat) ||
                  contains_shell_metachar s
  end.

Section Prompts.
Context {EXT : Externals} {PX : PromptExternals}.

Definition validate_key (value : string) : Result ValidatedAction PromptHandlerError :=
  let normalized := trim value in
  if (normalized is_in allowed_named) || is_single_alnum normalized then Ok (VKey normalized)
  else Err (InvalidAction ("key " +:+ str_debug normalized +:+ " is not whitelisted")).

Definition validate_literal (value : string) : Result ValidatedAction PromptHandlerError :=
  let normalized := trim value in
  if (to_ascii_lowercase normalized is_in allowed_literals) &&
     negb (contains_shell_metachar normalized) then Ok (VLiteral normalized)
  else Err (InvalidAction ("literal " +:+ str_debug normalized +:+ " is not whitelisted")).

Definition validate_action (a : PromptAction) : Result ValidatedAction PromptHandlerError :=
  match a with Key v => validate_key v | Literal v => validate_literal v end.

Fixpoint validate_all (actions : list PromptAction) :
    Result (list ValidatedAction) PromptHandlerError :=
  match actions with
  | [] => Ok []
  | a :: actions' =>
      match validate_action a with
      | Err e => Err e
      | Ok v => match validate_all actions' with Err e => Err e | Ok vs => Ok (v :: vs) end
      end
  end.

(** ** Cases *)

Record PromptCase : Type := MkPromptCase {
  pc_id : string;
  pc_provider : option string;
  pc_pattern : string;
  pc_action : list PromptAction;
  pc_category : string;
  pc_description : option string;
  pc_confidence_threshold : option QArith_base.Q;
  pc_used_count : Z;
  pc_created_at : option string;
  pc_last_used_at : option string;
  pc_created_by : option string;
  pc_regex_flags : list string;
  pc_trigger_state : option string
}.

Record PromptKb : Type := MkPromptKb { kb_version : string; kb_cases : list PromptCase }.

(** The error of a pattern with its flags, if it has one. *)
Definition build_regex (pattern : string) (flags : list string) : option PromptHandlerError :=
  match head (filter (λ f, f ∉ ["CaseInsensitive"; "Dotall"; "Multiline"]) flags) with
  | Some unknown =>
      Some (InvalidFingerprint ("unknown regex flag " +:+ str_debug unknown +:+ " for pattern " +:+
              str_debug pattern))
  | None =>
      (λ err, InvalidFingerprint ("invalid regex pattern " +:+ str_debug pattern +:+ ": " +:+ err))
        <$> regex_error pattern flags
  end.

Definition validate_case (c : PromptCase) : Result (list ValidatedAction) PromptHandlerError :=
  if trim c.(pc_id) == "" then Err (InvalidKb "case id must not be empty")
  else match build_regex c.(pc_pattern) c.(pc_regex_flags) with
  | Some e => Err e
  | None => validate_all c.(pc_action)
  end.

Fixpoint validate_cases (cases : list PromptCase) : Result unit PromptHandlerError :=
  match cases with
  | [] => Ok tt
  | c :: cases' => match validate_case c with Err e => Err e | Ok _ => validate_cases cases' end
  end.

Definition validate_kb (kb : PromptKb) : Result unit PromptHandlerError :=
  if trim kb.(kb_version) == "" then Err (InvalidKb "version must not be empty")
  else validate_cases kb.(kb_cases).

Definition codex_update_case : PromptCase :=
  MkPromptCase "codex_update_01" (Some "codex")
    "(?is)update available!?.*?(?:^|\n)\s*›?\s*1\.\s*update now.*(?:^|\n)\s*2\.\s*skip\b.*(?:^|\n)\s*3\.\s*skip until next version\b.*press enter to continue"
    [Key "Down"; Key "Enter"] "auto-skip" (Some "Skip codex global update to avoid EACCES")
    (Some (QArith_base.Qmake 9 10)) 0 None None (Some "ccbd-default") ["Dotall"; "CaseInsensitive"] None.
Definition trust_path_case : PromptCase :=
  MkPromptCase "trust_path_01" None
    "(?is)do you trust.{0,80}(?:directory|folder|path|workspace|project)|(?:trust|trusted).{0,80}(?:directory|folder|path|workspace|project)"
    [Key "1"; Key "Enter"] "auto-accept"
    (Some "Trust current project directory for interactive CLI startup")
    (Some (QArith_base.Qmake 9 10)) 0 None None (Some "ccbd-default") ["Dotall"; "CaseInsensitive"] None.
Definition default_cases : list PromptCase := [codex_update_case; trust_path_case].

(** ** The screen *)

Definition ACTIVE_PROMPT_REGION_LINES : nat := 40.

Definition active_prompt_region (sanitized_text : string) : string :=
  let ls := lines sanitized_text in
  if bool_decide (length ls ≤ ACTIVE_PROMPT_REGION_LINES)%nat then sanitized_text
  else join (byte_str 10) (drop (length ls - ACTIVE_PROMPT_REGION_LINES) ls).

Fixpoint collapse_blankish (last_empty : bool) (ls : list string) : list string :=
  match ls with
  | [] => []
  | line :: ls' =>
      let trimmed := trim_end line in
      let empty := trimmed == "" in
      if empty && last_empty then collapse_blankish last_empty ls'
      else trimmed :: collapse_blankish empty ls'
  end.
Definition collapse_blankish_lines (text : string) : string :=
  join (byte_str 10) (collapse_blankish false (lines text)).

Definition sanitize_line (line : string) : string :=
  let current := regex_replace_all "[\u{2800}-\u{28FF}]+" "" line in
  let current := regex_replace_all "^\s*[-\\|/]\s+" "" current in
  let current := regex_replace_all "\b\d+(?:\.\d+)?s\b" "" current in
  let current := regex_replace_all "\b\d{1,3}%" "" current in
  let current := regex_replace_all "\[[=>#\-\s]{3,}\]" "[]" current in
  trim_end current.

Definition sanitize_pane_text (pane_text : string) : string :=
  let kept := filter (λ l, l ≠ "") (sanitize_line <$> lines (strip_ansi_escapes pane_text)) in
  collapse_blankish_lines (trim (join (byte_str 10) kept)).

(** ** Matching *)

Inductive PromptScanPurpose : Type := Direct | AckVisualDiff | DispatchGuard.
#[global] Instance PromptScanPurpose_eq_dec : EqDecision PromptScanPurpose.
Proof. solve_decision. Defined.

Inductive MatchOutcome : Type :=
| Matched (case_id : string) (actions : list PromptAction) (matched_substring : string)
| NoMatch.

Definition is_default_case (c : PromptCase) : bool := c.(pc_created_by) == Some "ccbd-default".
Definition is_startup_notification_case (c : PromptCase) : bool :=
  is_default_case c && (c.(pc_id) is_in ["codex_update_01"; "trust_path_01"]).

(** [sort_by_key(is_default_case)]: a stable sort, built-in cases last. *)
Definition ordered_cases (kb : PromptKb) : list PromptCase :=
  filter (λ c, is_default_case c = false) kb.(kb_cases) ++
  filter (λ c, is_default_case c = true) kb.(kb_cases).

Definition case_applies (provider current_state : string) (c : PromptCase) : bool :=
  (match c.(pc_provider) with Some p => p == provider | None => true end) &&
  (match c.(pc_trigger_state) with Some s => s == current_state | None => true end).

Definition backquotes (s : string) : nat :=
  length (filter (λ c, c = byte_str 96) (chars s)).

Definition capture_signature_text (haystack : string) (captures : list (option (nat * nat))) :
    string :=
  let text '(a, b) := str_take (b - a) (str_drop a haystack) in
  match head (omap id (tail captures)) with
  | Some group => text group
  | None =>
      match captures with
      | Some (a, b) :: _ =>
          if Nat.odd (backquotes (text (a, b))) then
            match find (str_drop b haystack) (byte_str 96) with
            | Some relative_end => text (a, b + relative_end + 1)%nat
            | None => text (a, b)
            end
          else text (a, b)
      | _ => ""
      end
  end.

Fixpoint match_cases (provider current_state region : string) (scan_purpose : PromptScanPurpose)
    (cases : list PromptCase) : MatchOutcome :=
  match cases with
  | [] => NoMatch
  | c :: cases' =>
      let next := match_cases provider current_state region scan_purpose cases' in
      if (scan_purpose == AckVisualDiff) && is_startup_notification_case c then next
      else if negb (case_applies provider current_state c) then next
      else match build_regex c.(pc_pattern) c.(pc_regex_flags) with
      | Some _ => next
      | None =>
          match regex_find c.(pc_pattern) c.(pc_regex_flags) region with
          | None => next
          | Some captures =>
              Matched c.(pc_id) c.(pc_action) (capture_signature_text region captures)
          end
      end
  end.

Definition match_prompt_for_scan (provider current_state pane_text : string) (kb : PromptKb)
    (scan_purpose : PromptScanPurpose) : MatchOutcome :=
  match_cases provider current_state (active_prompt_region (sanitize_pane_text pane_text))
    scan_purpose (ordered_cases kb).

Definition match_prompt (provider current_state pane_text : string) (kb : PromptKb) : MatchOutcome :=
  match_prompt_for_scan provider current_state pane_text kb Direct.

(** ** The idle marker ([marker/matcher.rs]) *)

Definition VIEWPORT_BOTTOM_LINES : nat := 6.

Definition prompt_regex_for_provider (provider : string) : string :=
  if provider == "codex" then "(?m)^\s*›(?:\s|$)"
  else if provider == "claude" then "(?m)^\s*❯(?:\s|$)"
  else if provider == "antigravity" then "(?m)^\s*\? for shortcuts\b"
  else "[\$#>✦]\s*$".

Definition viewport_bottom_region (contents : string) : string :=
  let ls := lines contents in
  if bool_decide (length ls ≤ VIEWPORT_BOTTOM_LINES)%nat then contents
  else join (byte_str 10) (drop (length ls - VIEWPORT_BOTTOM_LINES) ls).

Record MarkerMatcher : Type := MkMarkerMatcher {
  mm_regex : string;
  mm_anti_regex : option string
}.

Definition from_manifest (manifest : ProviderManifest) : MarkerMatcher :=
  MkMarkerMatcher (prompt_regex_for_provider manifest.(provider_name))
    (if manifest.(idle_anti_pattern) == "" then None else Some manifest.(idle_anti_pattern)).

(** Given the contents of the screen. *)
Definition marker_scan (m : MarkerMatcher) (contents : string) : bool :=
  if contains contents "<<ah-idle:job-id=" then true
  else
  let bottom := viewport_bottom_region contents in
  regex_is_match m.(mm_regex) bottom &&
  match m.(mm_anti_regex) with Some anti => negb (regex_is_match anti bottom) | None => true end.

Definition marker_matches (m : option MarkerMatcher) (capture : string) : bool :=
  match m with None => false | Some m => marker_scan m (vt100_screen capture) end.

End Prompts.
