(* ===== verification/PromptRunner.v ===== *)
(** * Answering prompts

    [src/src/prompt_handler/gating.rs] and [runner.rs], with the learned prompts
    of [src/src/db/prompt_experience.rs]: a captured screen is classified, the
    keys of a known prompt are typed, an unknown one is watched until it is
    stable and then classified by a language model, and a prompt line is probed
    by typing a character.  The terminal is a state machine of its own: each
    capture and each key may answer anything and change it in any way, which
    also covers what happens between two captures. *)
From S2P Require Import Prelude Json Schema Sql AgentGate Text ReplyText Providers PromptCases.
From Stdlib Require Import Ascii.
From Stdlib Require QArith_base.

(** ** Learned prompts *)

Record PromptExperience : Type := MkPromptExperience {
  px_id : string;
  px_provider : option string;
  px_fingerprint_type : string;
  px_fingerprint_value : string;
  px_action_json : string;
  px_category : string;
  px_confidence : QArith_base.Q;
  px_source : string;
  px_trigger_state : option string;
  px_used_count : Z;
  px_created_at : Z;
  px_last_used_at : Z
}.

Record NewPromptExperience : Type := MkNewPromptExperience {
  nx_id : string;
  nx_provider : option string;
  nx_fingerprint_type : string;
  nx_fingerprint_value : string;
  nx_action : list PromptAction;
  nx_category : string;
  nx_confidence : QArith_base.Q;
  nx_source : string;
  nx_trigger_state : option string
}.

Definition use_experience (now : Z) (r : PromptExperience) : PromptExperience :=
  MkPromptExperience r.(px_id) r.(px_provider) r.(px_fingerprint_type) r.(px_fingerprint_value)
    r.(px_action_json) r.(px_category) r.(px_confidence) r.(px_source) r.(px_trigger_state)
    (r.(px_used_count) + 1) r.(px_created_at) now.

Definition same_fingerprint (x : NewPromptExperience) (r : PromptExperience) : bool :=
  (r.(px_provider) == x.(nx_provider)) &&
  (r.(px_fingerprint_type) == x.(nx_fingerprint_type)) &&
  (r.(px_fingerprint_value) == x.(nx_fingerprint_value)).

(** [ORDER BY provider IS NULL, created_at] *)
Definition null_rank (r : PromptExperience) : Z :=
  match r.(px_provider) with Some _ => 0 | None => 1 end.
Definition experience_le : relation PromptExperience := λ a b,
  null_rank a < null_rank b ∨ null_rank a = null_rank b ∧ a.(px_created_at) ≤ b.(px_created_at).
#[global] Instance experience_le_dec : RelDecision experience_le.
Proof. unfold experience_le. intros a b. apply _. Defined.

(** ** The terminal *)

Record PromptIo (T : Type) : Type := MkPromptIo {
  io_capture : T → Result string CcbdError * T;
  io_literal : string → T → Result unit CcbdError * T;
  io_keysym : string → T → Result unit CcbdError * T
}.
Arguments io_capture {T} _ _.
Arguments io_literal {T} _ _ _.
Arguments io_keysym {T} _ _ _.

(** The keys sent are recorded, those whose sending failed too. *)
Inductive SentKey : Type :=
| SentLiteral (text : string)
| SentKeysym (keysym : string).

Record RunState (T : Type) : Type := MkRunState {
  rs_term : T;
  rs_sent : list SentKey;
  rs_experience : list PromptExperience
}.
Arguments MkRunState {T} _ _ _.
Arguments rs_term {T} _.
Arguments rs_sent {T} _.
Arguments rs_experience {T} _.

(** What the language model answers. *)
Record LlmOutcome : Type := MkLlmOutcome {
  lo_category : string;
  lo_action : list PromptAction;
  lo_confidence : QArith_base.Q;
  lo_safe : bool;
  lo_suggested_regex : option string
}.
Inductive LlmError : Type :=
| MissingKey | Timeout | Transport (e : string) | InvalidResponse (e : string)
| InvalidOutput (e : string).

(** The double nearest to 0.8. *)
Definition MIN_CONFIDENCE : QArith_base.Q := QArith_base.Qmake 3602879701896397 4503599627370496.

Record RunnerContext : Type := MkRunnerContext {
  rc_provider : string;
  rc_current_state : string;
  rc_kb : PromptKb;
  rc_marker_matcher : option MarkerMatcher;
  rc_llm : option (string → Result LlmOutcome LlmError);
  rc_scan_purpose : PromptScanPurpose;
  rc_now : Z
}.

Record PromptSnapshot : Type := MkPromptSnapshot {
  sn_hash : string;
  sn_text : string
}.

Inductive PromptRunOutcome : Type :=
| NoActionNeeded (depth : nat)
| RetryLater (depth : nat)
| PendingPrompt (snapshot : PromptSnapshot) (depth : nat) (block_reason : string)
| DepthExceeded (snapshot : PromptSnapshot) (depth : nat)
| ExecutorFailed (error : CcbdError) (depth : nat).

Definition CAN_INPUT_PROBE_CAPTURE_ATTEMPTS : nat := 3.
Definition UNKNOWN_STABLE_SCAN_THRESHOLD : nat := 3.

Inductive GateSkipReason : Type := SameHash | IdleMarker | EmptyCapture.

Inductive PromptGateDecision : Type :=
| Skip (reason : GateSkipReason) (sanitized_hash : string)
| KnownAction (case_id : string) (actions : list PromptAction) (sanitized_hash : string)
| UnknownPrompt (sanitized_hash sanitized_text : string)
| LookupFailed (error sanitized_hash sanitized_text : string).

(** ** Screens that accept input *)

Definition CLAUDE_PROMPT : string := "❯".
Definition CODEX_PROMPT : string := "›".

Definition claude_input_line_payload (line : string) : option string :=
  rest ← strip_prefix (trim_start line) CLAUDE_PROMPT;
  let payload := trim rest in
  if payload == "" then None else Some payload.

Definition is_claude_ghost_placeholder (payload : string) : bool :=
  starts_with payload ("Try " +:+ byte_str 34).

Definition is_claude_empty_input_line (line : string) : bool :=
  match strip_prefix (trim_start line) CLAUDE_PROMPT with
  | None => false
  | Some _ =>
      match claude_input_line_payload line with
      | None => true
      | Some payload => is_claude_ghost_placeholder payload
      end
  end.

Definition input_probe_literal (provider : string) : string :=
  if provider is_in ["codex"; "claude"] then "x" else "".

Definition probe_echoed (provider capture probe : string) : bool :=
  if provider == "codex" then
    existsb (λ line, starts_with (trim_start line) (CODEX_PROMPT +:+ " " +:+ probe)) (lines capture)
  else if provider == "claude" then
    existsb (λ line, claude_input_line_payload line == Some probe) (lines capture)
  else false.

(** [char::is_alphanumeric] is a parameter beyond ASCII. *)
Class CharClass := { is_alphanumeric : string → bool }.

(** [capture.split(|ch| !ch.is_alphanumeric())] *)
Fixpoint tokens_go `{!CharClass} (cur : list string) (l : list string) : list string :=
  match l with
  | [] => [concat_str (reverse cur)]
  | c :: l' =>
      if is_alphanumeric c then tokens_go (c :: cur) l' else concat_str (reverse cur) :: tokens_go [] l'
  end.
Definition capture_contains_claude_model_marker `{!CharClass} (capture : string) : bool :=
  existsb (λ token, token is_in ["Sonnet"; "Opus"; "Haiku"]) (tokens_go [] (chars capture)).

Definition is_input_candidate `{!CharClass} (provider capture : string) : bool :=
  if provider == "codex" then
    existsb (λ line, starts_with (trim_start line) CODEX_PROMPT) (lines capture)
  else if provider == "claude" then
    capture_contains_claude_model_marker capture &&
    existsb is_claude_empty_input_line (lines capture)
  else false.

Definition is_llm_steady_state (state : string) : bool := state is_in [STATE_IDLE; STATE_BUSY].
Definition llm_error_block_reason (e : LlmError) : string :=
  match e with
  | Timeout => "llm_timeout"
  | Transport _ | InvalidResponse _ | InvalidOutput _ => "llm_error"
  | MissingKey => "unknown_prompt"
  end.
Definition is_prompt_handling_provider (provider : string) : bool :=
  provider is_in ["codex"; "claude"].

Section Runner.
Context {EXT : Externals} {PX : PromptExternals} {CC : CharClass} {T : Type} (io : PromptIo T).

Notation Run A := (RunState T → A * RunState T).

(** ** The table of learned prompts *)

Definition set_experience (rows : list PromptExperience) (s : RunState T) : RunState T :=
  MkRunState s.(rs_term) s.(rs_sent) rows.

Definition upsert_prompt_experience_sync (now : Z) (x : NewPromptExperience)
    (rows : list PromptExperience) : Result unit CcbdError * list PromptExperience :=
  if existsb (same_fingerprint x) rows then
    (Ok tt, (λ r, if same_fingerprint x r then use_experience now r else r) <$> rows)
  else if existsb (λ r, r.(px_id) == x.(nx_id)) rows then
    (Err (map_db_error "upsert prompt experience" (PrimaryKeyViolation "prompt_experience.id")), rows)
  else
    (Ok tt, rows ++ [MkPromptExperience x.(nx_id) x.(nx_provider) x.(nx_fingerprint_type)
       x.(nx_fingerprint_value) (actions_to_string x.(nx_action)) x.(nx_category) x.(nx_confidence)
       x.(nx_source) x.(nx_trigger_state) 0 now now]).

(** The first row whose actions do not parse fails the query. *)
Definition first_unreadable (rows : list PromptExperience) : option string :=
  head (omap (λ r, match actions_from_str r.(px_action_json) with
                   | Some _ => None
                   | None => Some (actions_error r.(px_action_json))
                   end) rows).

Definition experience_actions (r : PromptExperience) : list PromptAction :=
  default [] (actions_from_str r.(px_action_json)).

Definition increment_used_count (now : Z) (id : string) (rows : list PromptExperience) :
    list PromptExperience :=
  (λ r, if r.(px_id) == id then use_experience now r else r) <$> rows.

Definition for_provider (provider : string) (r : PromptExperience) : bool :=
  match r.(px_provider) with Some p => p == provider | None => true end.

Definition lookup_regex_prompt_experience_sync (provider sanitized_text : string)
    (rows : list PromptExperience) : Result (option PromptExperience) CcbdError :=
  let found := order_by experience_le
    (filter (λ r, (r.(px_fingerprint_type) == "regex") && for_provider provider r = true) rows) in
  match first_unreadable found with
  | Some e => Err (DbConstraintViolation ("read regex prompt experience: " +:+ e))
  | None =>
      Ok (head (filter (λ r,
        match build_regex r.(px_fingerprint_value) [] with
        | Some _ => false
        | None => bool_decide (is_Some (regex_find r.(px_fingerprint_value) [] sanitized_text))
        end = true) found))
  end.

Definition lookup_hash_prompt_experience_sync (provider sanitized_hash_hex : string)
    (rows : list PromptExperience) : Result (option PromptExperience) CcbdError :=
  let found := take 1 (order_by experience_le
    (filter (λ r, (r.(px_fingerprint_type) == "hash") &&
                  (r.(px_fingerprint_value) == sanitized_hash_hex) && for_provider provider r = true)
       rows)) in
  match first_unreadable found with
  | Some e => Err (DbConstraintViolation ("lookup hash prompt experience: " +:+ e))
  | None => Ok (head found)
  end.

Definition lookup_prompt_experience_sync (now : Z) (provider sanitized_text sanitized_hash_hex : string)
    (rows : list PromptExperience) :
    Result (option PromptExperience) CcbdError * list PromptExperience :=
  let answer found :=
    match found with
    | Some row => (Ok (Some (use_experience now row)), increment_used_count now row.(px_id) rows)
    | None => (Ok None, rows)
    end in
  match lookup_regex_prompt_experience_sync provider sanitized_text rows with
  | Err e => (Err e, rows)
  | Ok (Some row) => answer (Some row)
  | Ok None =>
      match lookup_hash_prompt_experience_sync provider sanitized_hash_hex rows with
      | Err e => (Err e, rows)
      | Ok found => answer found
      end
  end.

(** ** Classification of a capture *)

Definition classify_capture (ctx : RunnerContext) (prev_hash : option string) (capture : string) :
    Run PromptGateDecision := λ s,
  let sanitized_text := sanitize_pane_text capture in
  let sanitized_hash := sha256_hex sanitized_text in
  let active_text := active_prompt_region sanitized_text in
  if (ctx.(rc_current_state) == STATE_SPAWNING) && (trim sanitized_text == "") then
    (Skip EmptyCapture sanitized_hash, s)
  else if prev_hash == Some sanitized_hash then (Skip SameHash sanitized_hash, s)
  else
  match match_prompt_for_scan ctx.(rc_provider) ctx.(rc_current_state) sanitized_text ctx.(rc_kb)
          ctx.(rc_scan_purpose) with
  | Matched case_id actions _ => (KnownAction case_id actions sanitized_hash, s)
  | NoMatch =>
      if marker_matches ctx.(rc_marker_matcher) capture then (Skip IdleMarker sanitized_hash, s)
      else
      match lookup_prompt_experience_sync ctx.(rc_now) ctx.(rc_provider) active_text
              (sha256_hex active_text) s.(rs_experience) with
      | (Ok (Some experience), rows) =>
          (KnownAction experience.(px_id) (experience_actions experience) sanitized_hash,
           set_experience rows s)
      | (Ok None, rows) => (UnknownPrompt sanitized_hash sanitized_text, set_experience rows s)
      | (Err e, rows) =>
          (LookupFailed (error_to_string e) sanitized_hash sanitized_text, set_experience rows s)
      end
  end.

(** ** Keys *)

Definition capture_pane : Run (Result string CcbdError) := λ s,
  let '(r, t) := io.(io_capture) s.(rs_term) in (r, MkRunState t s.(rs_sent) s.(rs_experience)).
Definition send_key_literal (text : string) : Run (Result unit CcbdError) := λ s,
  let '(r, t) := io.(io_literal) text s.(rs_term) in
  (r, MkRunState t (s.(rs_sent) ++ [SentLiteral text]) s.(rs_experience)).
Definition send_key_keysym (keysym : string) : Run (Result unit CcbdError) := λ s,
  let '(r, t) := io.(io_keysym) keysym s.(rs_term) in
  (r, MkRunState t (s.(rs_sent) ++ [SentKeysym keysym]) s.(rs_experience)).

Fixpoint execute_actions (actions : list PromptAction) : Run (Result unit CcbdError) := λ s,
  match actions with
  | [] => (Ok tt, s)
  | action :: actions' =>
      match validate_action action with
      | Err e => (Err (prompt_error e), s)
      | Ok v =>
          let '(r, s) := match v with
                         | VKey keysym => send_key_keysym keysym s
                         | VLiteral text => send_key_literal text s
                         end in
          match r with Err e => (Err e, s) | Ok _ => execute_actions actions' s end
      end
  end.

(** ** The input probe *)

(** Up to [attempts] captures, until the probe is seen ([wanted = true]) or gone. *)
Fixpoint wait_for_probe (provider probe : string) (wanted : bool) (attempts : nat)
    (captured_once : bool) : Run (Result bool CcbdError) := λ s,
  match attempts with
  | O => (Ok false, s)
  | S attempts' =>
      let '(r, s) := capture_pane s in
      match r with
      | Err e => if captured_once then (Ok false, s) else (Err e, s)
      | Ok capture =>
          if Bool.eqb (probe_echoed provider capture probe) wanted then (Ok true, s)
          else wait_for_probe provider probe wanted attempts' true s
      end
  end.
Definition wait_for_probe_echo (provider probe : string) : Run (Result bool CcbdError) :=
  wait_for_probe provider probe true CAN_INPUT_PROBE_CAPTURE_ATTEMPTS false.
Definition wait_for_probe_cleanup (provider probe : string) : Run (Result bool CcbdError) :=
  wait_for_probe provider probe false CAN_INPUT_PROBE_CAPTURE_ATTEMPTS false.

Inductive CanInputProbe : Type :=
| Confirmed | NotCandidate | ProbeFailed (e : CcbdError).

Definition confirm_can_input (provider capture : string) : Run CanInputProbe := λ s,
  let probe := input_probe_literal provider in
  if (probe == "") || negb (is_input_candidate provider capture) then (NotCandidate, s)
  else
  let '(r, s) := send_key_literal probe s in
  match r with
  | Err e => (ProbeFailed e, s)
  | Ok _ =>
      let '(r, s) := wait_for_probe_echo provider probe s in
      match r with
      | Err e => (ProbeFailed e, s)
      | Ok false =>
          let '(r, s) := send_key_keysym "BSpace" s in
          match r with Err e => (ProbeFailed e, s) | Ok _ => (NotCandidate, s) end
      | Ok true =>
          let '(r, s) := send_key_keysym "BSpace" s in
          match r with
          | Err e => (ProbeFailed e, s)
          | Ok _ =>
              let '(r, s) := wait_for_probe_cleanup provider probe s in
              match r with
              | Err e => (ProbeFailed e, s)
              | Ok true => (Confirmed, s)
              | Ok false => (NotCandidate, s)
              end
          end
      end
  end.

(** ** The language model *)

Inductive LlmSlowPathDecision : Type :=
| LlmAction (actions : list PromptAction)
| LlmPending (reason : string)
| LlmNotAttempted.

Definition try_llm_slow_path (ctx : RunnerContext) (capture sanitized_text : string) :
    Run LlmSlowPathDecision := λ s,
  if negb (is_llm_steady_state ctx.(rc_current_state)) then (LlmNotAttempted, s)
  else if negb (is_prompt_handling_provider ctx.(rc_provider)) then (LlmNotAttempted, s)
  else
  match ctx.(rc_llm) with
  | None => (LlmNotAttempted, s)
  | Some classify =>
      match classify capture with
      | Err MissingKey => (LlmNotAttempted, s)
      | Err e => (LlmPending (llm_error_block_reason e), s)
      | Ok outcome =>
          if negb outcome.(lo_safe) then (LlmPending "llm_unsafe", s)
          else if negb (QArith_base.Qle_bool MIN_CONFIDENCE outcome.(lo_confidence)) then
            (LlmPending "llm_low_confidence", s)
          else
          let suggested_regex :=
            match outcome.(lo_suggested_regex) with
            | Some value => if trim value == "" then regex_escape sanitized_text else value
            | None => regex_escape sanitized_text
            end in
          let experience := MkNewPromptExperience
            ("llm-haiku-4.5:" +:+ ctx.(rc_provider) +:+ ":" +:+ sha256_hex sanitized_text)
            (Some ctx.(rc_provider)) "regex" suggested_regex outcome.(lo_action)
            outcome.(lo_category) outcome.(lo_confidence) "llm-haiku-4.5"
            (Some ctx.(rc_current_state)) in
          (LlmAction outcome.(lo_action),
           set_experience (upsert_prompt_experience_sync ctx.(rc_now) experience
                             s.(rs_experience)).2 s)
      end
  end.

(** ** The chain of prompts *)

Record UnknownStability : Type := MkUnknownStability {
  us_last : option PromptSnapshot;
  us_stable_scans : nat;
  us_total_scans : nat
}.
Definition unknown_reset : UnknownStability := MkUnknownStability None 0 0.
Definition unknown_record (hash text : string) (u : UnknownStability) : UnknownStability :=
  if (sn_hash <$> u.(us_last)) == Some hash then
    MkUnknownStability u.(us_last) (S u.(us_stable_scans)) (S u.(us_total_scans))
  else MkUnknownStability (Some (MkPromptSnapshot hash text)) 1 (S u.(us_total_scans)).

Record Chain : Type := MkChain {
  ch_depth : nat;
  ch_previous_hash : option string;
  ch_same_hash_skips : nat;
  ch_empty_capture_skips : nat;
  ch_unknown : UnknownStability;
  ch_matched_case : option string
}.
Definition chain_start : Chain := MkChain 0 None 0 0 unknown_reset None.

(** One turn of the loop: go on, or end with an outcome. *)
Inductive Turn : Type :=
| GoOn (ch : Chain)
| Ends (outcome : PromptRunOutcome).

Definition block_reason (ch : Chain) : string := default "unknown_prompt" ch.(ch_matched_case).

Definition skip_turn (ctx : RunnerContext) (max_depth : nat) (ch : Chain) (capture : string)
    (reason : GateSkipReason) (hash : string) : Run Turn := λ s,
  let depth := ch.(ch_depth) in
  let snapshot := MkPromptSnapshot hash (sanitize_pane_text capture) in
  let finished :=
    match ch.(ch_matched_case) with
    | Some case_id => Ends (PendingPrompt snapshot depth case_id)
    | None =>
        match reason with
        | IdleMarker =>
            if is_prompt_handling_provider ctx.(rc_provider)
            then Ends (PendingPrompt snapshot depth "unknown_prompt") else Ends (NoActionNeeded depth)
        | _ => Ends (NoActionNeeded depth)
        end
    end in
  match reason with
  | EmptyCapture =>
      let skips := S ch.(ch_empty_capture_skips) in
      if bool_decide (skips ≤ max_depth)%nat then
        (GoOn (MkChain depth ch.(ch_previous_hash) ch.(ch_same_hash_skips) skips unknown_reset
                 ch.(ch_matched_case)), s)
      else (Ends (RetryLater depth), s)
  | SameHash =>
      let skips := S ch.(ch_same_hash_skips) in
      if bool_decide (skips ≤ max_depth)%nat then
        (GoOn (MkChain depth ch.(ch_previous_hash) skips ch.(ch_empty_capture_skips) unknown_reset
                 ch.(ch_matched_case)), s)
      else (Ends (PendingPrompt snapshot depth (block_reason ch)), s)
  | IdleMarker =>
      let '(probe, s) := confirm_can_input ctx.(rc_provider) capture s in
      match probe with
      | Confirmed => (Ends (NoActionNeeded depth), s)
      | NotCandidate => (finished, s)
      | ProbeFailed e => (Ends (ExecutorFailed e depth), s)
      end
  end.

(** Typing the actions of a prompt; the chain goes on one level deeper. *)
Definition act (max_depth : nat) (ch : Chain) (actions : list PromptAction) (snapshot : PromptSnapshot)
    : Run Turn := λ s,
  let depth := ch.(ch_depth) in
  if bool_decide (max_depth ≤ depth)%nat then (Ends (DepthExceeded snapshot depth), s)
  else
  let '(r, s) := execute_actions actions s in
  match r with
  | Err e => (Ends (ExecutorFailed e depth), s)
  | Ok _ =>
      (GoOn (MkChain (S depth) (Some snapshot.(sn_hash)) 0 0 unknown_reset ch.(ch_matched_case)), s)
  end.

Definition known_turn (max_depth : nat) (ch : Chain) (capture case_id : string)
    (actions : list PromptAction) (hash : string) : Run Turn := λ s,
  let snapshot := MkPromptSnapshot hash (sanitize_pane_text capture) in
  let ch := MkChain ch.(ch_depth) ch.(ch_previous_hash) ch.(ch_same_hash_skips)
              ch.(ch_empty_capture_skips) unknown_reset (Some case_id) in
  match actions with
  | [] => (Ends (PendingPrompt snapshot ch.(ch_depth) case_id), s)
  | _ => act max_depth ch actions snapshot s
  end.

Definition unknown_turn (ctx : RunnerContext) (max_depth : nat) (ch : Chain)
    (capture hash text : string) : Run Turn := λ s,
  let depth := ch.(ch_depth) in
  let unknown_scan_limit := Nat.max max_depth UNKNOWN_STABLE_SCAN_THRESHOLD in
  let unknown := unknown_record hash text ch.(ch_unknown) in
  if bool_decide (unknown.(us_stable_scans) < UNKNOWN_STABLE_SCAN_THRESHOLD)%nat then
    if bool_decide (unknown_scan_limit ≤ unknown.(us_total_scans))%nat
    then (Ends (RetryLater depth), s)
    else (GoOn (MkChain depth ch.(ch_previous_hash) ch.(ch_same_hash_skips)
                  ch.(ch_empty_capture_skips) unknown ch.(ch_matched_case)), s)
  else
  let '(decision, s) := try_llm_slow_path ctx capture text s in
  match decision with
  | LlmAction actions => act max_depth ch actions (MkPromptSnapshot hash text) s
  | LlmPending reason => (Ends (PendingPrompt (MkPromptSnapshot hash text) depth reason), s)
  | LlmNotAttempted =>
      (Ends (PendingPrompt (MkPromptSnapshot hash text) depth (block_reason ch)), s)
  end.

Definition chain_turn (ctx : RunnerContext) (max_depth : nat) (ch : Chain) : Run Turn := λ s,
  let '(r, s) := capture_pane s in
  match r with
  | Err e =>
      match ch.(ch_unknown).(us_last) with
      | Some snapshot => (Ends (PendingPrompt snapshot ch.(ch_depth) (block_reason ch)), s)
      | None => (Ends (ExecutorFailed e ch.(ch_depth)), s)
      end
  | Ok capture =>
      let '(decision, s) := classify_capture ctx ch.(ch_previous_hash) capture s in
      match decision with
      | Skip reason hash => skip_turn ctx max_depth ch capture reason hash s
      | KnownAction case_id actions hash => known_turn max_depth ch capture case_id actions hash s
      | UnknownPrompt hash text => unknown_turn ctx max_depth ch capture hash text s
      | LookupFailed e _ _ => (Ends (ExecutorFailed (DbConstraintViolation e) ch.(ch_depth)), s)
      end
  end.

Fixpoint chain_loop (fuel : nat) (ctx : RunnerContext) (max_depth : nat) (ch : Chain) :
    Run (option PromptRunOutcome) := λ s,
  match fuel with
  | O => (None, s)
  | S fuel' =>
      let '(turn, s) := chain_turn ctx max_depth ch s in
      match turn with
      | Ends outcome => (Some outcome, s)
      | GoOn ch' => chain_loop fuel' ctx max_depth ch' s
      end
  end.

(** Enough turns for every terminal (see [chain_ends]): the empty and the
    unchanged screens of one level are each at most [max_depth], and between two
    of them at most [unknown_scan_limit] unknown ones are watched. *)
Definition max_turns (max_depth : nat) : nat :=
  let per_level := (S (2 * max_depth) * S (Nat.max max_depth UNKNOWN_STABLE_SCAN_THRESHOLD))%nat in
  (S max_depth * per_level)%nat.

Definition handle_prompt_chain (ctx : RunnerContext) (max_depth : nat) : Run (option PromptRunOutcome) :=
  chain_loop (max_turns max_depth) ctx max_depth chain_start.

End Runner.
