(* ===== verification/PromptRunnerProofs.v ===== *)
(** * What the prompt runner types, and that it stops

    Against every terminal, every table of learned prompts and every answer of
    the language model: the loop of [handle_prompt_chain] ends, acts at most
    [max_depth] times, types only whitelisted keys, and erases the character of
    its input probe unless it reports a failure. *)
From S2P Require Import Prelude Json Schema Sql AgentGate Text ReplyText Providers PromptCases.
From S2P Require Import PromptRunner.

(** ** The whitelist *)

Definition permitted (k : SentKey) : Prop :=
  match k with
  | SentKeysym n => n ∈ allowed_named ∨ is_single_alnum n = true
  | SentLiteral t => to_ascii_lowercase t ∈ allowed_literals ∧ contains_shell_metachar t = false
  end.

Definition sent_key (v : ValidatedAction) : SentKey :=
  match v with VKey k => SentKeysym k | VLiteral t => SentLiteral t end.

(** A run ends with the probe erased, or, when it failed, perhaps left. *)
Definition probe_tail (o : PromptRunOutcome) (tail : list SentKey) : Prop :=
  tail = [] ∨ tail = [SentLiteral "x"; SentKeysym "BSpace"] ∨
  tail = [SentLiteral "x"] ∧ ∃ e d, o = ExecutorFailed e d.

Definition outcome_depth (o : PromptRunOutcome) : nat :=
  match o with
  | NoActionNeeded d | RetryLater d | PendingPrompt _ d _ | DepthExceeded _ d
  | ExecutorFailed _ d => d
  end.

Section Runner.
Context {EXT : Externals} {PX : PromptExternals} {CC : CharClass} {T : Type} (io : PromptIo T).

Notation Run A := (RunState T → A * RunState T).

Lemma validated_permitted a v : validate_action a = Ok v → permitted (sent_key v).
Proof.
  destruct a as [k|t]; cbn [validate_action]; unfold validate_key, validate_literal.
  - case_match eqn:E; intros ?; simplify_eq. apply orb_true_iff in E as [E|E]; [left|by right].
    by apply bool_decide_eq_true in E.
  - case_match eqn:E; intros ?; simplify_eq. apply andb_true_iff in E as [E ?%negb_true_iff].
    by apply bool_decide_eq_true in E.
Qed.

(** ** The keys of a computation *)

(** Every run of [m] appends keys that, with its result, satisfy [Q]. *)
Definition types {A} (m : Run A) (Q : A → list SentKey → Prop) : Prop :=
  ∀ s, ∃ ks, (m s).2.(rs_sent) = s.(rs_sent) ++ ks ∧ Q (m s).1 ks.

Lemma types_ret {A} (a : A) (f : RunState T → RunState T) (Q : A → list SentKey → Prop) :
  (∀ s, (f s).(rs_sent) = s.(rs_sent)) → Q a [] → types (λ s, (a, f s)) Q.
Proof. intros Hf ? s. exists []. by rewrite app_nil_r /= Hf. Qed.

Lemma types_bind {A B} (m : Run A) (f : A → Run B) (Q : A → list SentKey → Prop)
    (R : B → list SentKey → Prop) :
  types m Q → (∀ a ks, Q a ks → types (f a) (λ b ks', R b (ks ++ ks'))) →
  types (λ s, let '(a, s) := m s in f a s) R.
Proof.
  intros Hm Hf s. destruct (Hm s) as (ks & Hs & HQ). destruct (m s) as [a s1]; cbn in *.
  destruct (Hf a ks HQ s1) as (ks' & Hs' & HR).
  exists (ks ++ ks'). by rewrite Hs' Hs app_assoc.
Qed.

Lemma types_weaken {A} (m : Run A) (Q R : A → list SentKey → Prop) :
  types m Q → (∀ a ks, Q a ks → R a ks) → types m R.
Proof. intros Hm HQR s. destruct (Hm s) as (ks & ? & ?); eauto. Qed.

Lemma types_capture : types (capture_pane io) (λ _ ks, ks = []).
Proof.
  intros s. exists []. unfold capture_pane. by destruct (io_capture _ _); rewrite app_nil_r.
Qed.
Lemma types_literal t : types (send_key_literal io t) (λ _ ks, ks = [SentLiteral t]).
Proof. intros s. eexists. unfold send_key_literal. by destruct (io_literal _ _ _). Qed.
Lemma types_keysym k : types (send_key_keysym io k) (λ _ ks, ks = [SentKeysym k]).
Proof. intros s. eexists. unfold send_key_keysym. by destruct (io_keysym _ _ _). Qed.

Lemma types_quiet {A} (m : Run A) (Q : A → list SentKey → Prop) :
  (∀ s, (m s).2.(rs_sent) = s.(rs_sent)) → (∀ a, Q a []) → types m Q.
Proof. intros Hm ? s. exists []. by rewrite app_nil_r Hm. Qed.

Lemma types_actions actions :
  types (execute_actions io actions) (λ _ ks, Forall permitted ks).
Proof.
  induction actions as [|a l IH]; cbn [execute_actions].
  { by apply (types_ret _ id). }
  destruct (validate_action a) as [v|e] eqn:E; [|by apply (types_ret _ id)].
  apply types_bind with (Q := λ _ ks, ks = [sent_key v]).
  { destruct v; [apply types_keysym|apply types_literal]. }
  intros [u|e] ? ->; [|apply (types_ret _ id); [done|]].
  - eapply types_weaken; [exact IH|]. intros ? ks Hks.
    constructor; [eauto using validated_permitted|done].
  - constructor; [eauto using validated_permitted|constructor].
Qed.

(** ** The input probe *)

Lemma types_wait provider probe (wanted : bool) n once :
  types (wait_for_probe io provider probe wanted n once) (λ _ ks, ks = []).
Proof.
  revert once. induction n as [|n IH]; intros once; cbn [wait_for_probe].
  { by apply (types_ret _ id). }
  apply types_bind with (Q := λ _ ks, ks = []); [apply types_capture|].
  intros [capture|e] ? ->; cbn [app].
  - case_match; [by apply (types_ret _ id)|apply IH].
  - destruct once; by apply (types_ret _ id).
Qed.

(** The probe is the character [x]; only a reported failure may leave it. *)
Lemma types_probe provider capture :
  types (confirm_can_input io provider capture) (λ probe ks,
    ks = [] ∨ ks = [SentLiteral "x"; SentKeysym "BSpace"] ∨
    ks = [SentLiteral "x"] ∧ ∃ e, probe = ProbeFailed e).
Proof.
  unfold confirm_can_input, input_probe_literal.
  destruct (bool_decide (provider ∈ ["codex"; "claude"]));
    cbn beta iota; [|apply (types_ret _ id); auto].
  case_match; [apply (types_ret _ id); auto|].
  eapply types_bind; [apply types_literal|]. intros [u|e] ? ->; [|apply (types_ret _ id); eauto 6].
  eapply types_bind; [apply types_wait|]. intros [[]|e] ? ->; [| |apply (types_ret _ id); eauto 6].
  - eapply types_bind; [apply types_keysym|]. intros [?|e] ? ->; [|apply (types_ret _ id); auto].
    eapply types_bind; [apply types_wait|]. intros [[]|e] ? ->; apply (types_ret _ id); auto.
  - eapply types_bind; [apply types_keysym|]. intros [?|e] ? ->; apply (types_ret _ id); auto.
Qed.

(** When the terminal cannot be read after the probe was typed, the character
    stays in the input line: no key erases it. *)
Lemma unread_probe_stays provider capture e t1 t2 (s : RunState T) :
  provider ∈ ["codex"; "claude"] → is_input_candidate provider capture = true →
  io.(io_literal) "x" s.(rs_term) = (Ok tt, t1) → io.(io_capture) t1 = (Err e, t2) →
  confirm_can_input io provider capture s =
    (ProbeFailed e, MkRunState t2 (s.(rs_sent) ++ [SentLiteral "x"]) s.(rs_experience)).
Proof.
  intros Hp Hc Hl Hcap. unfold confirm_can_input, input_probe_literal.
  rewrite (bool_decide_eq_true_2 _ Hp) Hc. unfold send_key_literal. rewrite Hl. cbn.
  unfold wait_for_probe_echo. cbn. unfold capture_pane; cbn. by rewrite Hcap.
Qed.

(** ** One turn *)

Definition scan_limit (max_depth : nat) : nat := Nat.max max_depth UNKNOWN_STABLE_SCAN_THRESHOLD.

Record chain_ok (max_depth : nat) (ch : Chain) : Prop := ChainOk {
  ok_depth : (ch.(ch_depth) ≤ max_depth)%nat;
  ok_same : (ch.(ch_same_hash_skips) ≤ max_depth)%nat;
  ok_empty : (ch.(ch_empty_capture_skips) ≤ max_depth)%nat;
  ok_scans : (ch.(ch_unknown).(us_total_scans) < scan_limit max_depth)%nat
}.

Definition measure (max_depth : nat) (ch : Chain) : nat :=
  ((max_depth - ch.(ch_depth)) * (S (2 * max_depth) * S (scan_limit max_depth)) +
   (2 * max_depth - ch.(ch_same_hash_skips) - ch.(ch_empty_capture_skips)) *
     S (scan_limit max_depth) +
   (scan_limit max_depth - ch.(ch_unknown).(us_total_scans)))%nat.

Definition turn_ok (max_depth : nat) (ch : Chain) (t : Turn) (ks : list SentKey) : Prop :=
  match t with
  | GoOn ch' =>
      Forall permitted ks ∧ chain_ok max_depth ch' ∧ (measure max_depth ch' < measure max_depth ch)%nat
  | Ends o =>
      ∃ acts tail, ks = acts ++ tail ∧ Forall permitted acts ∧ probe_tail o tail ∧
        (outcome_depth o ≤ max_depth)%nat
  end.

Lemma scan_limit_pos max_depth : (0 < scan_limit max_depth)%nat.
Proof. unfold scan_limit, UNKNOWN_STABLE_SCAN_THRESHOLD. lia. Qed.

Lemma ends_quietly max_depth ch o :
  (outcome_depth o ≤ max_depth)%nat → turn_ok max_depth ch (Ends o) [].
Proof. exists [], []. by split_and!; [|constructor|left|]. Qed.

Lemma ends_acting max_depth ch o ks :
  Forall permitted ks → (outcome_depth o ≤ max_depth)%nat → turn_ok max_depth ch (Ends o) ks.
Proof. exists ks, []. by split_and!; [rewrite app_nil_r| |left|]. Qed.

Lemma types_act max_depth ch ch0 actions snapshot :
  chain_ok max_depth ch0 → ch.(ch_depth) = ch0.(ch_depth) →
  types (act io max_depth ch actions snapshot) (turn_ok max_depth ch0).
Proof.
  intros [Hd _ _ _] E. unfold act. case_bool_decide as Hle.
  { apply (types_ret _ id); [done|]. apply ends_quietly; cbn; lia. }
  eapply types_bind; [apply types_actions|]. intros [u|e] ks Hks; apply (types_ret _ id); try done.
  - rewrite app_nil_r. split_and!; [done|..].
    + split; cbn; pose proof (scan_limit_pos max_depth); lia.
    + unfold measure; cbn -[Nat.mul]. rewrite E.
      set (L := S (scan_limit max_depth)). nia.
  - rewrite app_nil_r. apply ends_acting; [done|cbn; lia].
Qed.

Lemma types_skip ctx max_depth ch capture reason hash :
  chain_ok max_depth ch →
  types (skip_turn io ctx max_depth ch capture reason hash) (turn_ok max_depth ch).
Proof.
  intros [Hd Hs He Ht]. pose proof (scan_limit_pos max_depth) as Hpos. unfold skip_turn.
  destruct reason.
  - case_bool_decide; apply (types_ret _ id); try done; [|by apply ends_quietly].
    split_and!; [constructor|by split|]. unfold measure; cbn -[Nat.mul].
    set (L := scan_limit max_depth) in *. nia.
  - eapply types_bind; [apply types_probe|]. intros probe ks Hks.
    assert (∀ o, (outcome_depth o ≤ max_depth)%nat →
              (∀ e, probe = ProbeFailed e → ∃ e d, o = ExecutorFailed e d) →
              types (λ s, (Ends o, s)) (λ t ks', turn_ok max_depth ch t (ks ++ ks'))) as Hend.
    { intros o Ho Hf. apply (types_ret _ id); [done|]. rewrite app_nil_r.
      exists [], ks. split_and!; [done|constructor| |done].
      destruct Hks as [?|[?|[? [e ?]]]]; [by left|by right; left|right; right; eauto]. }
    destruct probe; repeat case_match; apply Hend; cbn; eauto; naive_solver.
  - case_bool_decide; apply (types_ret _ id); try done; [|by apply ends_quietly].
    split_and!; [constructor|by split|]. unfold measure; cbn -[Nat.mul].
    set (L := scan_limit max_depth) in *. nia.
Qed.

Lemma types_unknown ctx max_depth ch capture hash text :
  chain_ok max_depth ch →
  types (unknown_turn io ctx max_depth ch capture hash text) (turn_ok max_depth ch).
Proof.
  intros Hok. pose proof Hok as [Hd Hs He Ht]. unfold unknown_turn.
  assert ((unknown_record hash text ch.(ch_unknown)).(us_total_scans) =
    S ch.(ch_unknown).(us_total_scans)) as Htot by (unfold unknown_record; by case_match).
  case_bool_decide.
  - case_bool_decide as Hl; apply (types_ret _ id); try done; [by apply ends_quietly|].
    fold (scan_limit max_depth) in Hl.
    split_and!; [constructor|split; cbn; lia|]. unfold measure; cbn -[Nat.mul]. lia.
  - eapply types_bind with (Q := λ _ ks, ks = []).
    { apply types_quiet; [|done]. intros s. unfold try_llm_slow_path. by repeat case_match. }
    intros [actions|reason|] ? ->; cbn [app].
    + by apply types_act.
    + by apply (types_ret _ id); [|apply ends_quietly].
    + by apply (types_ret _ id); [|apply ends_quietly].
Qed.

Lemma classify_quiet ctx prev capture (s : RunState T) :
  (classify_capture ctx prev capture s).2.(rs_sent) = s.(rs_sent).
Proof. unfold classify_capture. by repeat case_match. Qed.

Lemma types_turn ctx max_depth ch :
  chain_ok max_depth ch → types (chain_turn io ctx max_depth ch) (turn_ok max_depth ch).
Proof.
  intros Hok. pose proof Hok as [Hd _ _ _]. unfold chain_turn.
  eapply types_bind; [apply types_capture|]. intros [capture|e] ? ->; cbn [app].
  2:{ case_match; by apply (types_ret _ id); [|apply ends_quietly]. }
  eapply types_bind with (Q := λ _ ks, ks = []).
  { apply types_quiet; [apply classify_quiet|done]. }
  intros [reason hash|case_id actions hash|hash text|e h t] ? ->; cbn [app].
  - by apply types_skip.
  - unfold known_turn. destruct actions; [by apply (types_ret _ id); [|apply ends_quietly]|].
    by apply types_act.
  - by apply types_unknown.
  - by apply (types_ret _ id); [|apply ends_quietly].
Qed.

(** ** The loop *)

Definition run_ok (max_depth : nat) (r : option PromptRunOutcome) (ks : list SentKey) : Prop :=
  ∃ o acts tail, r = Some o ∧ ks = acts ++ tail ∧ Forall permitted acts ∧ probe_tail o tail ∧
    (outcome_depth o ≤ max_depth)%nat.

Lemma types_loop fuel ctx max_depth ch :
  chain_ok max_depth ch → (measure max_depth ch < fuel)%nat →
  types (chain_loop io fuel ctx max_depth ch) (run_ok max_depth).
Proof.
  revert ch. induction fuel as [|fuel IH]; intros ch Hok Hf; [lia|]. cbn [chain_loop].
  eapply types_bind; [by apply types_turn|]. intros [ch'|o] ks Hks.
  - destruct Hks as (Hp & Hok' & Hlt). eapply types_weaken; [apply IH; [done|lia]|].
    intros ? ks' (o & acts & tail & ? & -> & ? & ? & ?).
    exists o, (ks ++ acts), tail. rewrite app_assoc. split_and!; auto using Forall_app_2.
  - destruct Hks as (acts & tail & -> & ? & ? & ?). apply (types_ret _ id); [done|].
    exists o, acts, tail. by rewrite app_nil_r.
Qed.

(** C16: the prompt runner ends on every terminal: whatever the screen shows,
    the keys do, and the model answers, it returns an outcome of depth at most
    [max_depth]; the keys it typed are whitelisted keys and answers followed by
    at most one input probe, which it erased unless it reports a failure. *)
Theorem prompt_chain_ends_safely ctx max_depth (s : RunState T) :
  ∃ outcome acts tail s',
    handle_prompt_chain io ctx max_depth s = (Some outcome, s') ∧
    s'.(rs_sent) = s.(rs_sent) ++ acts ++ tail ∧ Forall permitted acts ∧
    probe_tail outcome tail ∧ (outcome_depth outcome ≤ max_depth)%nat.
Proof.
  destruct (types_loop (max_turns max_depth) ctx max_depth chain_start) with (s := s)
    as (ks & Hs & o & acts & tail & Hr & -> & ? & ? & ?).
  - split; cbn; pose proof (scan_limit_pos max_depth); lia.
  - unfold measure, max_turns; cbn -[Nat.mul]. fold (scan_limit max_depth). nia.
  - destruct (handle_prompt_chain io ctx max_depth s) as [r s'] eqn:E.
    exists o, acts, tail, s'. unfold handle_prompt_chain in E. rewrite E in Hs, Hr. cbn in *.
    by rewrite Hr.
Qed.

End Runner.
