(* ===== verification/PromptStore.v ===== *)
(** * The file of known prompts

    [src/src/prompt_handler/kb.rs]: the cases are kept in a JSON file, read and
    written under an exclusive lock; a write goes to a temporary file that is
    renamed over the old one.  Every call to the file system may fail: a run is
    given the failures it meets. *)
From S2P Require Import Prelude Json Schema Sql AgentGate Text ReplyText Providers PromptCases.

(** ** The file system *)

(** The calls that may fail, in the order a save makes them. *)
Inductive KbCall : Type :=
| LockMkdir | LockOpen | LockFlock
| ReadFile
| ParentMkdir | TmpCreate | TmpWrite | TmpNewline | TmpFsync | TmpRename | DirOpen | DirFsync
| LockUnlock.
#[global] Instance KbCall_eq_dec : EqDecision KbCall.
Proof. solve_decision. Defined.

(** [kf_written]: what a failing [write_all] had written. *)
Record KbFaults : Type := MkKbFaults {
  kf_fails : KbCall → option string;
  kf_written : string
}.
Definition kb_no_faults : KbFaults := MkKbFaults (λ _, None) "".

(** The file and its temporary neighbour, if they exist. *)
Record KbFiles : Type := MkKbFiles {
  kf_file : option string;
  kf_tmp : option string
}.

(** [serde_json::from_str] and [to_vec_pretty] at [PromptKb]: what is printed,
    with the newline after it, parses to what was printed. *)
Class KbCodec := {
  kb_to_string : PromptKb → string;
  kb_from_str : string → option PromptKb;
  kb_json_error : string → string;
  kb_from_to kb : kb_from_str (kb_to_string kb +:+ byte_str 10) = Some kb
}.

Section Store.
Context {EXT : Externals} {PX : PromptExternals} {KC : KbCodec}.

(** A computation on the files under given faults. *)
Definition Kb (A : Type) : Type :=
  KbFaults → KbFiles → Result A PromptHandlerError * KbFiles.

#[local] Instance kb_ret : MRet Kb := λ A a flt fs, (Ok a, fs).
#[local] Instance kb_bind : MBind Kb := λ A B f m flt fs,
  match m flt fs with
  | (Ok a, fs') => f a flt fs'
  | (Err e, fs') => (Err e, fs')
  end.

Definition kb_throw {A} (e : PromptHandlerError) : Kb A := λ _ fs, (Err e, fs).
Definition kb_files : Kb KbFiles := λ _ fs, (Ok fs, fs).

(** A call with its effect when it works, and what it leaves when it does not. *)
Definition kb_call (c : KbCall) (err : string → PromptHandlerError) (works fails : KbFiles → KbFiles) :
    Kb unit := λ flt fs,
  match flt.(kf_fails) c with
  | Some e => (Err (err e), fails fs)
  | None => (Ok tt, works fs)
  end.
Definition set_tmp (t : option string) (fs : KbFiles) : KbFiles := MkKbFiles fs.(kf_file) t.
Definition rename_tmp (fs : KbFiles) : KbFiles := MkKbFiles fs.(kf_tmp) None.

Definition lock_for_path : Kb unit :=
  kb_call LockMkdir IoFailed id id;; kb_call LockOpen IoFailed id id;;
  kb_call LockFlock LockFailed id id.
Definition unlock_for_path : Kb unit := kb_call LockUnlock LockFailed id id.

(** ** Loading and saving *)

Definition load_existing_kb : Kb PromptKb :=
  kb_call ReadFile IoFailed id id;;
  fs ← kb_files;
  let raw := default "" fs.(kf_file) in
  match kb_from_str raw with
  | None => kb_throw (JsonFailed (kb_json_error raw))
  | Some kb => match validate_kb kb with Err e => kb_throw e | Ok _ => mret kb end
  end.

Definition tmp_write (text : string) : Kb unit := λ flt fs,
  let old := default "" fs.(kf_tmp) in
  match flt.(kf_fails) TmpWrite with
  | Some e => (Err (IoFailed e), set_tmp (Some (old +:+ flt.(kf_written))) fs)
  | None => (Ok tt, set_tmp (Some (old +:+ text)) fs)
  end.

(** The path lies in the state directory and so has a parent. *)
Definition write_kb_unlocked (kb : PromptKb) : Kb unit :=
  match validate_kb kb with
  | Err e => kb_throw e
  | Ok _ =>
      kb_call ParentMkdir IoFailed id id;;
      kb_call TmpCreate IoFailed (set_tmp (Some "")) id;;
      tmp_write (kb_to_string kb);;
      kb_call TmpNewline IoFailed
        (λ fs, set_tmp (Some (default "" fs.(kf_tmp) +:+ byte_str 10)) fs) id;;
      kb_call TmpFsync IoFailed id id;;
      kb_call TmpRename IoFailed rename_tmp id;;
      kb_call DirOpen IoFailed id id;;
      kb_call DirFsync IoFailed id id
  end.

(** The result of the body is given back once the lock is released. *)
Definition locked {A} (body : Kb A) : Kb A := λ flt fs,
  match lock_for_path flt fs with
  | (Err e, fs) => (Err e, fs)
  | (Ok _, fs) =>
      let '(result, fs) := body flt fs in
      match unlock_for_path flt fs with
      | (Err e, fs) => (Err e, fs)
      | (Ok _, fs) => (result, fs)
      end
  end.

Definition new_kb (cases : list PromptCase) : PromptKb := MkPromptKb "1" cases.

Definition load_or_bootstrap_kb : Kb PromptKb :=
  locked (
    fs ← kb_files;
    match fs.(kf_file) with
    | Some _ => load_existing_kb
    | None => write_kb_unlocked (new_kb default_cases);; mret (new_kb default_cases)
    end).

Definition save_kb_atomic (kb : PromptKb) : Kb unit := locked (write_kb_unlocked kb).

(** ** The file is always whole *)

Definition kb_text (kb : PromptKb) : string := kb_to_string kb +:+ byte_str 10.

(** Absent, or the text of cases that pass validation. *)
Definition whole (fs : KbFiles) : Prop :=
  ∀ raw, fs.(kf_file) = Some raw → ∃ kb, raw = kb_text kb ∧ validate_kb kb = Ok tt.

Ltac kb_steps :=
  repeat match goal with
  | |- context [kf_fails ?flt ?c] => destruct (kf_fails flt c); cbn
  end.

(** A write leaves the old file, or the whole new one. *)
Lemma write_kb_file kb flt fs r fs' :
  write_kb_unlocked kb flt fs = (r, fs') →
  fs'.(kf_file) = fs.(kf_file) ∨ validate_kb kb = Ok tt ∧ fs'.(kf_file) = Some (kb_text kb).
Proof.
  unfold write_kb_unlocked. destruct (validate_kb kb) as [[]|e] eqn:E.
  2:{ intros [= <- <-]. by left. }
  unfold mbind, kb_bind, tmp_write, kb_call. kb_steps; intros [= <- <-]; cbn; auto.
Qed.

Lemma write_kb_ok kb flt fs u fs' :
  write_kb_unlocked kb flt fs = (Ok u, fs') →
  validate_kb kb = Ok tt ∧ fs'.(kf_file) = Some (kb_text kb).
Proof.
  unfold write_kb_unlocked. destruct (validate_kb kb) as [[]|e] eqn:E; [|by intros].
  unfold mbind, kb_bind, tmp_write, kb_call. kb_steps; intros [= <- <-]; auto.
Qed.

Lemma locked_run {A} (body : Kb A) flt fs r fs' :
  locked body flt fs = (r, fs') →
  (∃ e, r = Err e ∧ fs' = fs) ∨ ∃ r0, body flt fs = (r0, fs') ∧ (r = r0 ∨ ∃ e, r = Err e).
Proof.
  unfold locked, lock_for_path, unlock_for_path, mbind, kb_bind, kb_call.
  destruct (body flt fs) as [r0 fs0] eqn:E. kb_steps; rewrite ?E /=;
    kb_steps; intros [= <- <-]; eauto 6.
Qed.

Lemma load_existing_run flt fs r fs' :
  load_existing_kb flt fs = (r, fs') →
  fs' = fs ∧ (∀ kb, r = Ok kb →
    kb_from_str (default "" fs.(kf_file)) = Some kb ∧ validate_kb kb = Ok tt).
Proof.
  unfold load_existing_kb, mbind, kb_bind, kb_call, kb_files, kb_throw. kb_steps.
  { intros [= <- <-]. split; [done|]. by intros kb. }
  destruct (kb_from_str _) as [kb|]; [|by intros [= <- <-]; split; [done|]].
  destruct (validate_kb kb) as [[]|] eqn:E; intros [= <- <-]; split; try done.
  by intros kb' [= <-].
Qed.

(** A load answers with the cases the file then holds. *)
Lemma load_kb_reads flt fs kb fs' :
  whole fs → load_or_bootstrap_kb flt fs = (Ok kb, fs') →
  fs'.(kf_file) = Some (kb_text kb) ∧ validate_kb kb = Ok tt ∧
  (fs' = fs ∨ fs.(kf_file) = None ∧ kb = new_kb default_cases).
Proof.
  intros Hw Hl. apply locked_run in Hl as [(? & ? & ?)|(r0 & Hb & [<-|[e ?]])]; [done| |done].
  unfold mbind, kb_bind, kb_files in Hb. destruct (kf_file fs) as [raw|] eqn:E.
  - apply load_existing_run in Hb as [-> H]. destruct (H kb) as [Hp Hv]; [done|].
    destruct (Hw raw E) as (kb' & -> & _). rewrite E /= in Hp.
    unfold kb_text in Hp. rewrite kb_from_to in Hp. simplify_eq. by rewrite E; auto.
  - destruct (write_kb_unlocked (new_kb default_cases) flt fs) as [[u|e] fs1] eqn:Ew; [|done].
    apply write_kb_ok in Ew as [Hv Hf]. injection Hb as <- <-. by auto.
Qed.

(** C36: the file of known prompts is never torn.  Whatever calls fail during a
    load or a save, and however much of the new text was written, the file is
    afterwards the one it was, or it holds the whole text of cases that pass
    validation: the saved ones or the built-in ones. *)
Theorem kb_file_is_whole flt fs save :
  whole fs →
  let fs' := match save with
             | Some kb => (save_kb_atomic kb flt fs).2
             | None => (load_or_bootstrap_kb flt fs).2
             end in
  whole fs' ∧
  (fs'.(kf_file) = fs.(kf_file) ∨
   fs'.(kf_file) = Some (kb_text (default (new_kb default_cases) save))).
Proof.
  intros Hw fs'.
  assert (fs'.(kf_file) = fs.(kf_file) ∨
    validate_kb (default (new_kb default_cases) save) = Ok tt ∧
    fs'.(kf_file) = Some (kb_text (default (new_kb default_cases) save))) as H.
  { subst fs'. destruct save as [kb|].
    - destruct (save_kb_atomic kb flt fs) as [r fs'] eqn:E.
      apply locked_run in E as [(? & _ & ->)|(r0 & Hb & _)]; [by left|].
      by apply write_kb_file in Hb.
    - destruct (load_or_bootstrap_kb flt fs) as [r fs'] eqn:E.
      apply locked_run in E as [(? & _ & ->)|(r0 & Hb & _)]; [by left|].
      unfold mbind, kb_bind, kb_files in Hb. destruct (kf_file fs) eqn:Ef.
      + apply load_existing_run in Hb as [-> _]. by left.
      + destruct (write_kb_unlocked _ flt fs) as [[]] eqn:Ew; apply write_kb_file in Ew;
          injection Hb as <- <-; rewrite Ef in Ew; naive_solver. }
  split; [|naive_solver]. destruct H as [He|[Hv He]]; intros raw; rewrite He; [apply Hw|].
  intros [= <-]. eauto.
Qed.

(** Two callers that load before either saves: the second save drops the case of
    the first, since the lock is released between a caller's load and its save. *)
Lemma interleaved_saves_lose_a_case fs kb c1 c2 :
  fs.(kf_file) = Some (kb_text kb) →
  validate_kb (MkPromptKb kb.(kb_version) (c1 :: kb.(kb_cases))) = Ok tt →
  validate_kb (MkPromptKb kb.(kb_version) (c2 :: kb.(kb_cases))) = Ok tt →
  validate_kb kb = Ok tt →
  ∃ kb1 kb2 fs1 fs2 fs3 fs4,
    load_or_bootstrap_kb kb_no_faults fs = (Ok kb1, fs1) ∧
    load_or_bootstrap_kb kb_no_faults fs1 = (Ok kb2, fs2) ∧
    save_kb_atomic (MkPromptKb kb1.(kb_version) (c1 :: kb1.(kb_cases))) kb_no_faults fs2 = (Ok tt, fs3) ∧
    save_kb_atomic (MkPromptKb kb2.(kb_version) (c2 :: kb2.(kb_cases))) kb_no_faults fs3 = (Ok tt, fs4) ∧
    fs4.(kf_file) = Some (kb_text (MkPromptKb kb.(kb_version) (c2 :: kb.(kb_cases)))).
Proof.
  intros Hf H1 H2 Hv.
  assert (∀ fs, kf_file fs = Some (kb_text kb) → load_or_bootstrap_kb kb_no_faults fs = (Ok kb, fs))
    as Hload.
  { intros [file tmp] [= ->]. unfold load_or_bootstrap_kb, locked, load_existing_kb.
    unfold mbind, kb_bind, kb_files. pose proof (kb_from_to kb : kb_from_str (kb_text kb) = _) as Hp.
    cbv [lock_for_path unlock_for_path kb_call kb_no_faults mbind kb_bind].
    cbn -[kb_text]. by rewrite Hp Hv. }
  assert (∀ kb fs, validate_kb kb = Ok tt → save_kb_atomic kb kb_no_faults fs =
    (Ok tt, MkKbFiles (Some (kb_text kb)) None)) as Hsave.
  { intros kb' fs' Hv'. unfold save_kb_atomic, locked, write_kb_unlocked.
    cbv [lock_for_path unlock_for_path kb_call kb_no_faults mbind kb_bind]. cbn. by rewrite Hv'. }
  exists kb, kb. eexists _, _, _, _. split_and!; [by apply Hload|by apply Hload| | |].
  - by apply Hsave.
  - by apply Hsave.
  - done.
Qed.

End Store.
