(* ===== verification/PromptIntegration.v ===== *)
(** * Parking an agent at a prompt

    [src/src/prompt_handler/integration.rs], [events.rs] and [resolve.rs]: what the
    outcome of a scan does to the agent.  A prompt nobody knows is reported; one a
    person has to answer parks an idle or starting agent, and a watcher unparks it
    when the prompt is gone; [resolve_prompt_with_io] types a person's answer.

    A scan and what is made of its outcome are separate steps, since the scan takes
    seconds during which the agent's row may change. *)
From S2P Require Import Prelude Json Schema Sql MasterTables JobGate Invariant AgentGate Text ReplyText.
From S2P Require Import Providers Jobs Completion Evidence StateMachine Events Agents.
From S2P Require Import PromptCases PromptRunner PromptStore.
From Stdlib Require QArith_base.

(** ** Events *)

Definition UNKNOWN_PROMPT_DETECTED : string := "UNKNOWN_PROMPT_DETECTED".
Definition PANE_SCREENSHOT_MAX_BYTES : nat := 4096.
Definition TRUNCATED_MARKER : string := byte_str 10 +:+ "[truncated]".

(** [text.is_char_boundary(i)] *)
Definition is_char_boundary (text : string) (i : nat) : bool :=
  match str_drop i text with
  | EmptyString => bool_decide (i ≤ String.length text)%nat
  | String c _ => negb (bool_decide (128 ≤ Ascii.nat_of_ascii c < 192)%nat)
  end.

(** The largest boundary at or below [i]. *)
Fixpoint char_boundary_below (text : string) (i : nat) : nat :=
  if is_char_boundary text i then i
  else match i with O => O | S i' => char_boundary_below text i' end.

Definition truncate_pane_screenshot (text : string) : string :=
  if bool_decide (String.length text ≤ PANE_SCREENSHOT_MAX_BYTES)%nat then text
  else str_take (char_boundary_below text
                   (PANE_SCREENSHOT_MAX_BYTES - String.length TRUNCATED_MARKER)) text
       +:+ TRUNCATED_MARKER.

Record UnknownPromptPayload : Type := MkUnknownPromptPayload {
  up_pane_screenshot : string;
  up_suggested_action : option string;
  up_block_reason : string;
  up_capture_hash : string;
  up_depth : nat;
  up_provider : string
}.
Definition new_payload (snapshot : PromptSnapshot) (block_reason : string) (depth : nat)
    (provider : string) : UnknownPromptPayload :=
  MkUnknownPromptPayload (truncate_pane_screenshot snapshot.(sn_text)) None block_reason
    snapshot.(sn_hash) depth provider.

(** Fields in the order they are declared. *)
Definition payload_json (p : UnknownPromptPayload) : Value :=
  JObject [("pane_screenshot", JString p.(up_pane_screenshot));
           ("suggested_action", json_opt JString p.(up_suggested_action));
           ("block_reason", JString p.(up_block_reason));
           ("capture_hash", JString p.(up_capture_hash));
           ("depth", JNumber (Z.of_nat p.(up_depth)));
           ("provider", JString p.(up_provider))].

(** ** Requests and answers *)

Record TransientUnknownPrompt : Type := MkTransient {
  tu_state : string;
  tu_capture_hash : string;
  tu_seen_count : nat
}.

Record PromptScanRequest : Type := MkPromptScanRequest {
  sr_agent_id : string;
  sr_provider : string;
  sr_marker_matcher : MarkerMatcher;
  sr_max_depth : nat;
  sr_scan_purpose : PromptScanPurpose
}.

Inductive PromptScanDisposition : Type :=
| ScanNoActionNeeded (depth : nat)
| ScanHandled (depth : nat)
| ScanDeferred (depth : nat) (block_reason : string)
| ScanPending (depth : nat) (block_reason : string).

Definition SUPPRESSION_ESCALATION_TICKS : nat := 5.

Record PromptPendingUnparkState : Type := MkUnparkState {
  suppressed_hashes : gmap string string;
  suppressed_ticks : gmap string nat
}.
Record PromptPendingUnparkTickResult : Type := MkTickResult {
  tr_scanned : nat;
  tr_unparked : nat;
  tr_handled : nat;
  tr_suppressed : nat
}.
Inductive PromptPendingUnparkDisposition : Type := Unparked | Handled | NoAction | CasMiss.

Definition is_park_whitelisted (block_reason : string) : bool :=
  (block_reason == "trust_path_01") || (block_reason == "codex_update_01") ||
  starts_with block_reason "master_resolve_" || starts_with block_reason "user_".

(** [is_prompt_handling_provider] is in [PromptRunner]. *)

Definition is_active_dispatch_prompt_demote_deferred_state (state : string) : bool :=
  state is_in [STATE_WAITING_FOR_ACK; STATE_BUSY].
Definition is_prompt_demote_deferred_state (state : string) : bool :=
  state is_in [STATE_SPAWNING; STATE_WAITING_FOR_ACK; STATE_BUSY].

(** Given the value of [AH_PROMPT_TRANSIENT_UNKNOWN_STABLE_SCANS]. *)
Definition transient_unknown_stable_scan_threshold (env : option string) : nat :=
  match env ≫= parse_usize with
  | Some n => if 0 <? n then Z.to_nat n else 3%nat
  | None => 3%nat
  end.

Notation Transients := (gmap string TransientUnknownPrompt).

Definition transient_unknown_prompt_should_defer (agent_id state capture_hash : string)
    (stable_scan_threshold : nat) (prompts : Transients) : bool * Transients :=
  if negb (is_prompt_demote_deferred_state state) then (false, delete agent_id prompts)
  else
  let threshold := Nat.max stable_scan_threshold 1 in
  let entry :=
    match prompts !! agent_id with
    | Some entry =>
        if (entry.(tu_state) == state) && (entry.(tu_capture_hash) == capture_hash)
        then MkTransient entry.(tu_state) entry.(tu_capture_hash) (S entry.(tu_seen_count))
        else MkTransient state capture_hash 1
    | None => MkTransient state capture_hash 1
    end in
  if bool_decide (threshold ≤ entry.(tu_seen_count))%nat then (false, delete agent_id prompts)
  else (true, <[agent_id := entry]> prompts).

(** The two tests that [Pending] and [DepthExceeded] share: the reason the report
    is put off, if it is. *)
Definition report_deferral (agent_id state capture_hash : string) (threshold : nat) (prompts : Transients) :
    option string * Transients :=
  if is_active_dispatch_prompt_demote_deferred_state state
  then (Some "active_dispatch_prompt_scan", prompts)
  else if is_prompt_demote_deferred_state state then
    let '(defer, prompts) :=
      transient_unknown_prompt_should_defer agent_id state capture_hash threshold prompts in
    (if defer then Some "unknown_prompt_stabilizing" else None, prompts)
  else (None, prompts).

Definition prompt_pending_suppression_hash (outcome : PromptRunOutcome) : option string :=
  match outcome with
  | PendingPrompt snapshot _ _ | DepthExceeded snapshot _ => Some snapshot.(sn_hash)
  | _ => None
  end.

Section Integration.
Context {EXT : Externals} {PX : PromptExternals} {CC : CharClass} {KC : KbCodec} {T : Type}.

(** The panes of the agents, on one terminal server. *)
Variable pio : string → PromptIo T.
(** [RealHaikuClassifier]: the screen, the provider and the state. *)
Variable llm : string → string → string → Result LlmOutcome LlmError.

(** What the daemon keeps outside the database. *)
Record ScanEnv : Type := MkScanEnv {
  se_files : KbFiles;
  se_run : RunState T;
  se_prompts : Transients
}.
Definition set_prompts (p : Transients) (x : ScanEnv) : ScanEnv :=
  MkScanEnv x.(se_files) x.(se_run) p.

(** ** The agent's row *)

Definition query_agent_state (agent_id : string) : M CcbdError string :=
  state ← gets (λ db, a_state <$> db.(agents) !! agent_id);
  match state with None => throw (AgentNotFound agent_id) | Some state => mret state end.

Definition mark_prompt_pending_and_emit_unknown_sync (agent_id : string)
    (payload : UnknownPromptPayload) : M CcbdError nat :=
  transaction (
    current ← gets (λ db, (λ a, (a.(a_state), a.(a_state_version))) <$> db.(agents) !! agent_id);
    match current with
    | None => throw (AgentNotFound agent_id)
    | Some (previous_state, state_version) =>
        if negb (previous_state is_in [STATE_IDLE; STATE_SPAWNING])
        then throw (AgentWrongState previous_state)
        else
        now ← asks w_now;
        changes ← update_agent agent_id
          (λ a, (a.(a_state) is_in ["IDLE"; "SPAWNING"]) && (a.(a_state_version) =? state_version))
          (λ a, bump_version now (set_a_state "PROMPT_PENDING" a));
        if changes == 0%nat then mret (Rollback 0%nat)
        else
        insert_event_null "insert prompt pending state_change" agent_id "state_change"
          (json_object [("from", JString previous_state); ("to", JString STATE_PROMPT_PENDING);
                        ("reason", JString payload.(up_block_reason))]);;
        insert_event_null "insert unknown prompt event" agent_id UNKNOWN_PROMPT_DETECTED
          (payload_json payload);;
        mret (Commit changes)
    end).

Definition emit_unknown_prompt_detected (agent_id : string) (payload : UnknownPromptPayload) :
    M CcbdError Z :=
  frame ← insert_event_and_notify agent_id None UNKNOWN_PROMPT_DETECTED
            (json_to_string (payload_json payload));
  mret frame.(fr_event_id).

(** ** A scan *)

(** The runner always returns an outcome ([types_loop]): the default is never taken. *)
Definition run_prompt_scan (flt : KbFaults) (request : PromptScanRequest) (x : ScanEnv) :
    M CcbdError (Result PromptRunOutcome CcbdError * ScanEnv) :=
  let '(loaded, files) := load_or_bootstrap_kb flt x.(se_files) in
  let x := MkScanEnv files x.(se_run) x.(se_prompts) in
  match loaded with
  | Err e => mret (Err (prompt_error e), x)
  | Ok kb =>
      state ← try_ (query_agent_state request.(sr_agent_id));
      now ← asks w_now;
      match state : Result string CcbdError with
      | Err e => mret (Err e, x)
      | Ok current_state =>
          let ctx := MkRunnerContext request.(sr_provider) current_state kb
            (Some request.(sr_marker_matcher))
            (Some (λ capture, llm capture request.(sr_provider) current_state))
            request.(sr_scan_purpose) now in
          let '(outcome, run) :=
            handle_prompt_chain (pio request.(sr_agent_id)) ctx request.(sr_max_depth) x.(se_run) in
          mret (Ok (default (RetryLater 0) outcome), MkScanEnv files run x.(se_prompts))
      end
  end.

(** What [scan_prompt_and_apply_outcome] does once the scan is over. *)
Definition apply_prompt_outcome (env_threshold : option string) (agent_id provider : string)
    (outcome : PromptRunOutcome) (prompts : Transients) :
    M CcbdError (Result PromptScanDisposition CcbdError * Transients) :=
  let threshold := transient_unknown_stable_scan_threshold env_threshold in
  match outcome with
  | NoActionNeeded depth =>
      mret (Ok (if bool_decide (0 < depth)%nat then ScanHandled depth else ScanNoActionNeeded depth),
            prompts)
  | RetryLater depth => mret (Ok (ScanDeferred depth "retry_later"), prompts)
  | PendingPrompt snapshot depth block_reason =>
      state ← try_ (query_agent_state agent_id);
      match state : Result string CcbdError with
      | Err e => mret (Err e, prompts)
      | Ok state =>
          match report_deferral agent_id state snapshot.(sn_hash) threshold prompts with
          | (Some reason, prompts) => mret (Ok (ScanDeferred depth reason), prompts)
          | (None, prompts) =>
              let payload := new_payload snapshot block_reason depth provider in
              if is_park_whitelisted block_reason then
                r ← try_ (mark_prompt_pending_and_emit_unknown_sync agent_id payload);
                mret (match r : Result nat CcbdError with
                      | Err e => Err e
                      | Ok _ => Ok (ScanPending depth block_reason)
                      end, prompts)
              else
                r ← try_ (emit_unknown_prompt_detected agent_id payload);
                mret (match r : Result Z CcbdError with
                      | Err e => Err e
                      | Ok _ => Ok (ScanNoActionNeeded depth)
                      end, prompts)
          end
      end
  | DepthExceeded snapshot depth =>
      state ← try_ (query_agent_state agent_id);
      match state : Result string CcbdError with
      | Err e => mret (Err e, prompts)
      | Ok state =>
          match report_deferral agent_id state snapshot.(sn_hash) threshold prompts with
          | (Some reason, prompts) => mret (Ok (ScanDeferred depth reason), prompts)
          | (None, prompts) =>
              r ← try_ (emit_unknown_prompt_detected agent_id
                          (new_payload snapshot "depth_exceeded" depth provider));
              mret (match r : Result Z CcbdError with
                    | Err e => Err e
                    | Ok _ => Ok (ScanNoActionNeeded depth)
                    end, prompts)
          end
      end
  | ExecutorFailed error _ => mret (Err error, prompts)
  end.

Definition scan_prompt_and_apply_outcome (flt : KbFaults) (env_threshold : option string)
    (request : PromptScanRequest) (x : ScanEnv) :
    M CcbdError (Result PromptScanDisposition CcbdError * ScanEnv) :=
  '(outcome, x) ← run_prompt_scan flt request x;
  match outcome with
  | Err e => mret (Err e, x)
  | Ok outcome =>
      '(disposition, prompts) ← apply_prompt_outcome env_threshold request.(sr_agent_id)
         request.(sr_provider) outcome x.(se_prompts);
      mret (disposition, set_prompts prompts x)
  end.

(** ** Unparking *)

Definition mark_prompt_pending_idle_unparked_sync (agent_id : string) (expected_state_version : Z) :
    M CcbdError PromptPendingUnparkDisposition :=
  transaction (
    current ← gets (λ db, (λ a, (a.(a_state), a.(a_state_version))) <$> db.(agents) !! agent_id);
    match current with
    | None => throw (AgentNotFound agent_id)
    | Some (previous_state, state_version) =>
        if (previous_state != STATE_PROMPT_PENDING) || negb (state_version =? expected_state_version)
        then mret (Rollback CasMiss)
        else
        now ← asks w_now;
        changes ← update_agent agent_id
          (λ a, (a.(a_state) == "PROMPT_PENDING") && (a.(a_state_version) =? expected_state_version))
          (λ a, bump_version now (set_a_sub_state (Some "PromptIdleSelfHealed") (set_a_state "IDLE" a)));
        if changes == 0%nat then mret (Rollback CasMiss)
        else
        insert_event_null "insert prompt pending auto-unpark state_change" agent_id "state_change"
          (json_object [("from", JString STATE_PROMPT_PENDING); ("to", JString STATE_IDLE);
                        ("sub_state", JString "PromptIdleSelfHealed");
                        ("reason", JString "PROMPT_PENDING_IDLE_SELF_HEALED")]);;
        mret (Commit Unparked)
    end).

Definition apply_prompt_pending_unpark_outcome_sync (agent_id : string) (expected_state_version : Z)
    (outcome : PromptRunOutcome) : M CcbdError PromptPendingUnparkDisposition :=
  match outcome with
  | NoActionNeeded 0 => mark_prompt_pending_idle_unparked_sync agent_id expected_state_version
  | NoActionNeeded _ => mret Handled
  | PendingPrompt _ _ _ | DepthExceeded _ _ | RetryLater _ => mret NoAction
  | ExecutorFailed error _ => throw error
  end.

Definition prompt_pending_scan_is_suppressed (suppressed_hash capture : string) : bool :=
  sha256_hex (sanitize_pane_text capture) == suppressed_hash.

(** The state of a tick: it is kept when the tick stops at an error. *)
Record Watch : Type := MkWatch {
  wt_unpark : PromptPendingUnparkState;
  wt_env : ScanEnv;
  wt_result : PromptPendingUnparkTickResult
}.

Definition forget_agent (agent_id : string) (s : PromptPendingUnparkState) :
    PromptPendingUnparkState :=
  MkUnparkState (delete agent_id s.(suppressed_hashes)) (delete agent_id s.(suppressed_ticks)).
Definition set_unpark (s : PromptPendingUnparkState) (x : Watch) : Watch :=
  MkWatch s x.(wt_env) x.(wt_result).
Definition set_result (r : PromptPendingUnparkTickResult) (x : Watch) : Watch :=
  MkWatch x.(wt_unpark) x.(wt_env) r.
Definition watch_capture (agent_id : string) (x : Watch) : Result string CcbdError * Watch :=
  let '(r, run) := capture_pane (pio agent_id) x.(wt_env).(se_run) in
  (r, MkWatch x.(wt_unpark) (MkScanEnv x.(wt_env).(se_files) run x.(wt_env).(se_prompts))
        x.(wt_result)).

(** The alert of a suppression that lasted too long, once per screen. *)
Definition escalate_suppression (agent_id suppressed_hash : string) (ticks : nat) : M CcbdError unit :=
  escalated ← has_prompt_pending_suppression_escalated agent_id suppressed_hash;
  if (escalated : bool) then mret tt
  else
  let payload := json_object [("agent_id", JString agent_id); ("ticks", JNumber (Z.of_nat ticks));
                              ("reason", JString "PROMPT_PENDING_SUPPRESSION_ESCALATED");
                              ("hash", JString suppressed_hash)] in
  (try_ (insert_event agent_id None "state_change" (json_to_string payload)) :
     M CcbdError (Result Z CcbdError));;
  notify_event (MkEventFrame 0 "alert" agent_id None (Some "PROMPT_PENDING") (Some payload)).

(** Is the agent to be scanned? *)
Definition suppression_gate (agent_id : string) (x : Watch) :
    M CcbdError (Result bool CcbdError * Watch) :=
  match x.(wt_unpark).(suppressed_hashes) !! agent_id with
  | None => mret (Ok true, x)
  | Some suppressed_hash =>
      let '(captured, x) := watch_capture agent_id x in
      match captured with
      | Err _ => mret (Ok false, x)
      | Ok capture =>
          let s := x.(wt_unpark) in
          if prompt_pending_scan_is_suppressed suppressed_hash capture then
            let ticks := S (default 0%nat (s.(suppressed_ticks) !! agent_id)) in
            let x := set_unpark (MkUnparkState s.(suppressed_hashes)
                                   (<[agent_id := ticks]> s.(suppressed_ticks))) x in
            if bool_decide (SUPPRESSION_ESCALATION_TICKS < ticks)%nat then
              r ← try_ (escalate_suppression agent_id suppressed_hash ticks);
              mret (match r : Result unit CcbdError with Err e => Err e | Ok _ => Ok true end, x)
            else
              let t := x.(wt_result) in
              mret (Ok false, set_result (MkTickResult t.(tr_scanned) t.(tr_unparked) t.(tr_handled)
                                            (S t.(tr_suppressed))) x)
          else mret (Ok true, set_unpark (forget_agent agent_id s) x)
      end
  end.

(** [agent.state_version] is as it was when the tick read the parked agents; the
    providers that get here have a manifest. *)
Definition unpark_scan (flt : KbFaults) (agent : Agent) (x : Watch) :
    M CcbdError (Result unit CcbdError * Watch) :=
  match try_get_manifest agent.(a_provider) with
  | None => throw (DatabaseRuntimePanic agent.(a_provider))
  | Some manifest =>
      let request := MkPromptScanRequest agent.(a_id) agent.(a_provider) (from_manifest manifest) 3
                       DispatchGuard in
      '(outcome, env) ← run_prompt_scan flt request x.(wt_env);
      let x := MkWatch x.(wt_unpark) env x.(wt_result) in
      match outcome with
      | Err e => mret (Err e, x)
      | Ok outcome =>
          let t := x.(wt_result) in
          let t := MkTickResult (S t.(tr_scanned)) t.(tr_unparked) t.(tr_handled) t.(tr_suppressed) in
          let s := x.(wt_unpark) in
          applied ← try_ (apply_prompt_pending_unpark_outcome_sync agent.(a_id)
                            agent.(a_state_version) outcome);
          match applied : Result PromptPendingUnparkDisposition CcbdError with
          | Err e => mret (Err e, set_result t x)
          | Ok Unparked =>
              wake_up;;
              mret (Ok tt, set_unpark (forget_agent agent.(a_id) s) (set_result
                (MkTickResult t.(tr_scanned) (S t.(tr_unparked)) t.(tr_handled) t.(tr_suppressed)) x))
          | Ok Handled =>
              mret (Ok tt, set_unpark (forget_agent agent.(a_id) s) (set_result
                (MkTickResult t.(tr_scanned) t.(tr_unparked) (S t.(tr_handled)) t.(tr_suppressed)) x))
          | Ok NoAction =>
              let s :=
                match prompt_pending_suppression_hash outcome with
                | Some hash =>
                    MkUnparkState (<[agent.(a_id) := hash]> s.(suppressed_hashes))
                      (if s.(suppressed_hashes) !! agent.(a_id) == Some hash then s.(suppressed_ticks)
                       else delete agent.(a_id) s.(suppressed_ticks))
                | None => forget_agent agent.(a_id) s
                end in
              mret (Ok tt, set_unpark s (set_result t x))
          | Ok CasMiss => mret (Ok tt, set_unpark (forget_agent agent.(a_id) s) (set_result t x))
          end
      end
  end.

(** [has_pane]: the agents with a registered pane. *)
Fixpoint unpark_agents (flt : KbFaults) (has_pane : string → bool) (agents : list Agent) (x : Watch) :
    M CcbdError (Result unit CcbdError * Watch) :=
  match agents with
  | [] => mret (Ok tt, x)
  | agent :: agents' =>
      if negb (is_prompt_handling_provider agent.(a_provider)) || negb (has_pane agent.(a_id))
      then unpark_agents flt has_pane agents' x
      else
      '(gate, x) ← suppression_gate agent.(a_id) x;
      match gate with
      | Err e => mret (Err e, x)
      | Ok false => unpark_agents flt has_pane agents' x
      | Ok true =>
          '(r, x) ← unpark_scan flt agent x;
          match r with
          | Err e => mret (Err e, x)
          | Ok _ => unpark_agents flt has_pane agents' x
          end
      end
  end.

Definition prompt_pending_unpark_watcher_tick (flt : KbFaults) (has_pane : string → bool)
    (s : PromptPendingUnparkState) (env : ScanEnv) :
    M CcbdError (Result PromptPendingUnparkTickResult CcbdError * PromptPendingUnparkState * ScanEnv) :=
  parked ← query_agents_by_state_sync STATE_PROMPT_PENDING;
  '(r, x) ← unpark_agents flt has_pane parked (MkWatch s env (MkTickResult 0 0 0 0));
  let s := x.(wt_unpark) in
  match r with
  | Err e => mret (Err e, s, x.(wt_env))
  | Ok _ =>
      let active := a_id <$> parked in
      mret (Ok x.(wt_result),
            MkUnparkState (filter (λ '(id, _), id ∈ active) s.(suppressed_hashes))
              (filter (λ '(id, _), id ∈ active) s.(suppressed_ticks)), x.(wt_env))
  end.

(** ** A person's answer *)

Record ResolvePromptResult : Type := MkResolvePromptResult {
  rp_resolved_state : string;
  rp_saved_to_kb : bool;
  rp_case_id : option string;
  rp_action_labels : list string
}.

Definition validate_actions (actions : list PromptAction) : Result (list ValidatedAction) CcbdError :=
  match actions with
  | [] => Err (IpcInvalidRequest "action must contain at least one prompt action")
  | _ => match validate_all actions with Ok vs => Ok vs | Err e => Err (prompt_error e) end
  end.

Fixpoint execute_validated_actions (io : PromptIo T) (actions : list ValidatedAction)
    (s : RunState T) : Result unit CcbdError * RunState T :=
  match actions with
  | [] => (Ok tt, s)
  | v :: actions' =>
      let '(r, s) := match v with
                     | VKey keysym => send_key_keysym io keysym s
                     | VLiteral text => send_key_literal io text s
                     end in
      match r with Err e => (Err e, s) | Ok _ => execute_validated_actions io actions' s end
  end.

Definition ensure_prompt_pending_sync (agent_id : string) : M CcbdError unit :=
  current ← query_agent_state agent_id;
  if current != STATE_PROMPT_PENDING then throw (AgentWrongState current) else mret tt.

Definition resolve_prompt_state_sync (agent_id : string) : M CcbdError string :=
  ensure_prompt_pending_sync agent_id;;
  job ← query_dispatched_job_for_agent_sync agent_id;
  let target := match job with Some _ => STATE_BUSY | None => STATE_IDLE end in
  transit_agent_state_sync agent_id [STATE_PROMPT_PENDING] target (Some "PROMPT_RESOLVED");;
  mret target.

(** [serde_json::from_str] at [UnknownPromptPayload], and its error text. *)
Variable payload_from_str : string → option UnknownPromptPayload.
Variable payload_error : string → string.

Definition latest_unknown_prompt_payload (agent_id : string) : M CcbdError UnknownPromptPayload :=
  event ← query_last_event_of_type_sync agent_id UNKNOWN_PROMPT_DETECTED;
  match event with
  | None => throw (IpcInvalidRequest
      ("agent " +:+ agent_id +:+ " has no UNKNOWN_PROMPT_DETECTED event to save"))
  | Some event =>
      match payload_from_str event.(e_payload) with
      | Some payload => mret payload
      | None => throw (IpcInvalidRequest
          ("invalid UNKNOWN_PROMPT_DETECTED payload: " +:+ payload_error event.(e_payload)))
      end
  end.

Definition action_label (v : ValidatedAction) : string :=
  match v with VKey s | VLiteral s => s end.

(** [hash.get(..12).unwrap_or(hash)] *)
Definition short_hash (hash : string) : string :=
  if bool_decide (12 ≤ String.length hash)%nat && is_char_boundary hash 12 then str_take 12 hash
  else hash.

Definition resolved_case (provider case_id screenshot capture_hash : string) (now : Z)
    (actions : list PromptAction) : PromptCase :=
  MkPromptCase case_id (Some provider) (regex_escape screenshot) actions "manual-resolve"
    (Some ("Saved from manual prompt resolve capture_hash=" +:+ capture_hash))
    (Some (QArith_base.inject_Z 1)) 0 (Some (decimal now)) None (Some "ccbd-master") []
    (Some STATE_PROMPT_PENDING).

(** Also answers with the files. *)
Definition save_resolved_prompt_case_sync (flt : KbFaults) (agent_id provider : string)
    (actions : list PromptAction) (files : KbFiles) :
    M CcbdError (Result string CcbdError * KbFiles) :=
  payload ← try_ (latest_unknown_prompt_payload agent_id);
  now ← asks w_now;
  match payload : Result UnknownPromptPayload CcbdError with
  | Err e => mret (Err e, files)
  | Ok payload =>
      let screenshot := trim payload.(up_pane_screenshot) in
      if screenshot == "" then
        mret (Err (IpcInvalidRequest "cannot save prompt case from empty prompt snapshot"), files)
      else
      let case_id := "master_resolve_" +:+ decimal now +:+ "_" +:+
                     short_hash payload.(up_capture_hash) in
      match load_or_bootstrap_kb flt files with
      | (Err e, files) => mret (Err (prompt_error e), files)
      | (Ok kb, files) =>
          let prompt_case :=
            resolved_case provider case_id screenshot payload.(up_capture_hash) now actions in
          match validate_case prompt_case with
          | Err e => mret (Err (prompt_error e), files)
          | Ok _ =>
              match save_kb_atomic (MkPromptKb kb.(kb_version) (prompt_case :: kb.(kb_cases))) flt
                      files with
              | (Err e, files) => mret (Err (prompt_error e), files)
              | (Ok _, files) => mret (Ok case_id, files)
              end
          end
      end
  end.

Definition resolve_prompt_with_io (flt : KbFaults) (agent_id provider : string)
    (actions : list PromptAction) (save_to_kb : bool) (x : ScanEnv) :
    M CcbdError (Result ResolvePromptResult CcbdError * ScanEnv) :=
  pending ← try_ (ensure_prompt_pending_sync agent_id);
  match pending : Result unit CcbdError with
  | Err e => mret (Err e, x)
  | Ok _ =>
  match validate_actions actions with
  | Err e => mret (Err e, x)
  | Ok validated =>
  let '(typed, run) := execute_validated_actions (pio agent_id) validated x.(se_run) in
  let x := MkScanEnv x.(se_files) run x.(se_prompts) in
  match typed with
  | Err e => mret (Err e, x)
  | Ok _ =>
  resolved ← try_ (resolve_prompt_state_sync agent_id);
  match resolved : Result string CcbdError with
  | Err e => mret (Err e, x)
  | Ok resolved_state =>
  if save_to_kb then
    '(saved, files) ← save_resolved_prompt_case_sync flt agent_id provider actions x.(se_files);
    let x := MkScanEnv files x.(se_run) x.(se_prompts) in
    mret (match saved with
          | Err e => Err e
          | Ok case_id => Ok (MkResolvePromptResult resolved_state true (Some case_id)
                                (action_label <$> validated))
          end, x)
  else mret (Ok (MkResolvePromptResult resolved_state false None (action_label <$> validated)), x)
  end end end end.

(** ** The database stays consistent *)

#[local] Ltac sound_by :=
  repeat progress (unfold query_agent_state, ensure_prompt_pending_sync,
    query_agents_by_state_sync, latest_unknown_prompt_payload, query_last_event_of_type_sync,
    has_prompt_pending_suppression_escalated, notify_event, wake_up,
    transit_agent_state_sync); solve_respects; eauto with respects.

Lemma sound_mark_prompt_pending_emit agent_id payload :
  respects sound (mark_prompt_pending_and_emit_unknown_sync agent_id payload).
Proof. unfold mark_prompt_pending_and_emit_unknown_sync. solve_respects. Qed.
#[local] Hint Resolve sound_mark_prompt_pending_emit : respects.

Lemma sound_emit_unknown agent_id payload :
  respects sound (emit_unknown_prompt_detected agent_id payload).
Proof. unfold emit_unknown_prompt_detected. sound_by. Qed.
#[local] Hint Resolve sound_emit_unknown : respects.

Lemma sound_apply_prompt_outcome env agent_id provider outcome prompts :
  respects sound (apply_prompt_outcome env agent_id provider outcome prompts).
Proof. unfold apply_prompt_outcome. cbv zeta. sound_by. Qed.
#[local] Hint Resolve sound_apply_prompt_outcome : respects.

Lemma sound_run_prompt_scan flt request x : respects sound (run_prompt_scan flt request x).
Proof. unfold run_prompt_scan. sound_by. Qed.
#[local] Hint Resolve sound_run_prompt_scan : respects.

Lemma sound_scan_prompt flt env request x :
  respects sound (scan_prompt_and_apply_outcome flt env request x).
Proof. unfold scan_prompt_and_apply_outcome. sound_by. Qed.

Lemma sound_unpark_idle agent_id version :
  respects sound (mark_prompt_pending_idle_unparked_sync agent_id version).
Proof. unfold mark_prompt_pending_idle_unparked_sync. solve_respects. Qed.
#[local] Hint Resolve sound_unpark_idle : respects.

Lemma sound_unpark_outcome agent_id version outcome :
  respects sound (apply_prompt_pending_unpark_outcome_sync agent_id version outcome).
Proof. unfold apply_prompt_pending_unpark_outcome_sync. sound_by. Qed.
#[local] Hint Resolve sound_unpark_outcome : respects.

Lemma sound_suppression_gate agent_id x : respects sound (suppression_gate agent_id x).
Proof.
  unfold suppression_gate, escalate_suppression. cbv zeta. sound_by.
Qed.
#[local] Hint Resolve sound_suppression_gate : respects.

Lemma sound_unpark_scan flt agent x : respects sound (unpark_scan flt agent x).
Proof. unfold unpark_scan. cbv zeta. sound_by. Qed.
#[local] Hint Resolve sound_unpark_scan : respects.

Lemma sound_unpark_agents flt has_pane agents x :
  respects sound (unpark_agents flt has_pane agents x).
Proof.
  revert x. induction agents as [|a l IH]; intros x; cbn [unpark_agents]; sound_by.
Qed.
#[local] Hint Resolve sound_unpark_agents : respects.

Lemma sound_unpark_tick flt has_pane s env :
  respects sound (prompt_pending_unpark_watcher_tick flt has_pane s env).
Proof. unfold prompt_pending_unpark_watcher_tick. cbv zeta. sound_by. Qed.

Lemma sound_resolve_state agent_id : respects sound (resolve_prompt_state_sync agent_id).
Proof. unfold resolve_prompt_state_sync. sound_by. Qed.
#[local] Hint Resolve sound_resolve_state : respects.

Lemma sound_resolve_prompt flt agent_id provider actions save x :
  respects sound (resolve_prompt_with_io flt agent_id provider actions save x).
Proof.
  unfold resolve_prompt_with_io, save_resolved_prompt_case_sync. cbv zeta. sound_by.
Qed.

End Integration.

#[export] Hint Resolve sound_scan_prompt sound_apply_prompt_outcome sound_unpark_outcome
  sound_unpark_tick sound_resolve_state sound_resolve_prompt : respects.
