(* ===== verification/PromptIntegrationProofs.v ===== *)
(** * What a scan does to the agent

    [prompt_outcome_parks_only_resting_agents]: whatever the runner reports, an
    agent at work is left alone; [unpark_is_conditional]; the putting off of a screen
    that has not settled; and what a person's answer types and changes. *)
From S2P Require Import Prelude Json Schema Sql MasterTables JobGate Invariant AgentGate Text ReplyText.
From S2P Require Import Providers Jobs Completion Evidence StateMachine StateMachineProofs Events Agents.
From S2P Require Import PromptCases PromptRunner PromptRunnerProofs PromptStore PromptIntegration.

Section Integration.
Context {EXT : Externals} {PX : PromptExternals} {CC : CharClass} {KC : KbCodec} {T : Type}.

(** ** Parking *)

Definition parked_db (now : Z) (agent_id : string) (payload : UnknownPromptPayload) (a : Agent)
    (db : Db) : Db :=
  post_event now agent_id UNKNOWN_PROMPT_DETECTED (payload_json payload)
    (moved_db now agent_id (bump_version now (set_a_state STATE_PROMPT_PENDING a))
       (json_object [("from", JString a.(a_state)); ("to", JString STATE_PROMPT_PENDING);
                     ("reason", JString payload.(up_block_reason))]) db).

Lemma mark_prompt_pending_emit_run agent_id payload w :
  mark_prompt_pending_and_emit_unknown_sync agent_id payload w =
  match w.(w_db).(agents) !! agent_id with
  | None => (Err (AgentNotFound agent_id), w)
  | Some a =>
      if a.(a_state) is_in [STATE_IDLE; STATE_SPAWNING]
      then (Ok 1%nat, set_db (parked_db w.(w_now) agent_id payload a w.(w_db)) w)
      else (Err (AgentWrongState a.(a_state)), w)
  end.
Proof.
  unfold mark_prompt_pending_and_emit_unknown_sync.
  destruct (agents (w_db w) !! agent_id) as [a|] eqn:Ha; cycle 1.
  { unfold transaction. run_m. rw Ha. by destruct w. }
  destruct (a.(a_state) is_in [STATE_IDLE; STATE_SPAWNING]) eqn:Hs; cycle 1.
  { unfold transaction. run_m. rw Ha /= Hs. by destruct w. }
  apply transaction_ok. step_pure. rw Ha /= Hs /=. step_pure.
  erewrite bind_ok; [cbv beta|apply (update_agent_hit _ _ _ _ a); [done|]].
  2:{ by rw Hs Z.eqb_refl. }
  simpl. erewrite bind_ok; [cbv beta|apply insert_event_null_run; by rw /= lookup_insert_eq].
  erewrite bind_ok; [cbv beta|apply insert_event_null_run; by rw /= lookup_insert_eq].
  by rw !set_db_twice ret_run.
Qed.

Lemma emit_unknown_run agent_id payload a w :
  w.(w_db).(agents) !! agent_id = Some a →
  ∃ seq w', emit_unknown_prompt_detected agent_id payload w = (Ok seq, w') ∧
    w'.(w_db) = post_event w.(w_now) agent_id UNKNOWN_PROMPT_DETECTED (payload_json payload) w.(w_db).
Proof.
  intros Ha. unfold emit_unknown_prompt_detected, insert_event_and_notify, insert_event_sync.
  unfold insert_event_row, mbind, M_bind, try_. cbn. rw Ha. eexists _, _. by split.
Qed.

(** The prompt an outcome leaves unanswered, and why. *)
Definition unanswered (outcome : PromptRunOutcome) : option (PromptSnapshot * nat * string) :=
  match outcome with
  | PendingPrompt snapshot depth reason => Some (snapshot, depth, reason)
  | DepthExceeded snapshot depth => Some (snapshot, depth, "depth_exceeded")
  | _ => None
  end.

(** What is answered when there is none. *)
Definition answered (outcome : PromptRunOutcome) : Result PromptScanDisposition CcbdError :=
  match outcome with
  | NoActionNeeded O => Ok (ScanNoActionNeeded 0)
  | NoActionNeeded depth => Ok (ScanHandled depth)
  | RetryLater depth => Ok (ScanDeferred depth "retry_later")
  | ExecutorFailed error _ => Err error
  | _ => Err TmuxNotFound
  end.

Section Reported.
Variables (env : option string) (agent_id provider : string) (outcome : PromptRunOutcome)
  (prompts : Transients) (db : Db) (now : Z).

Definition put_off (a : Agent) (snapshot : PromptSnapshot) : option string :=
  (report_deferral agent_id a.(a_state) snapshot.(sn_hash) (transient_unknown_stable_scan_threshold env)
     prompts).1.

(** The answer of the report and the tables after it. *)
Inductive reported : Result PromptScanDisposition CcbdError → Db → Prop :=
| reported_answered :
    unanswered outcome = None → reported (answered outcome) db
| reported_missing p :
    unanswered outcome = Some p → db.(agents) !! agent_id = None →
    reported (Err (AgentNotFound agent_id)) db
| reported_deferred a snapshot depth reason why :
    unanswered outcome = Some (snapshot, depth, reason) → db.(agents) !! agent_id = Some a →
    put_off a snapshot = Some why → reported (Ok (ScanDeferred depth why)) db
| reported_unknown a snapshot depth reason :
    unanswered outcome = Some (snapshot, depth, reason) → db.(agents) !! agent_id = Some a →
    put_off a snapshot = None → a.(a_state) ∉ [STATE_WAITING_FOR_ACK; STATE_BUSY] →
    is_park_whitelisted reason = false →
    reported (Ok (ScanNoActionNeeded depth))
      (post_event now agent_id UNKNOWN_PROMPT_DETECTED
         (payload_json (new_payload snapshot reason depth provider)) db)
| reported_parked a snapshot depth reason :
    unanswered outcome = Some (snapshot, depth, reason) → db.(agents) !! agent_id = Some a →
    put_off a snapshot = None → a.(a_state) ∈ [STATE_IDLE; STATE_SPAWNING] →
    is_park_whitelisted reason = true →
    reported (Ok (ScanPending depth reason))
      (parked_db now agent_id (new_payload snapshot reason depth provider) a db)
| reported_refused a snapshot depth reason :
    unanswered outcome = Some (snapshot, depth, reason) → db.(agents) !! agent_id = Some a →
    a.(a_state) ∉ [STATE_IDLE; STATE_SPAWNING] → is_park_whitelisted reason = true →
    reported (Err (AgentWrongState a.(a_state))) db.
End Reported.

Lemma report_deferral_working agent_id state hash threshold prompts :
  state ∈ [STATE_WAITING_FOR_ACK; STATE_BUSY] →
  report_deferral agent_id state hash threshold prompts = (Some "active_dispatch_prompt_scan", prompts).
Proof.
  intros Hs. unfold report_deferral, is_active_dispatch_prompt_demote_deferred_state.
  by rw (bool_decide_eq_true_2 _ Hs).
Qed.

Lemma not_put_off env agent_id prompts a snapshot :
  put_off env agent_id prompts a snapshot = None →
  a.(a_state) ∉ [STATE_WAITING_FOR_ACK; STATE_BUSY].
Proof. unfold put_off. intros Hd Hs. by rewrite report_deferral_working in Hd. Qed.

Lemma query_agent_state_run agent_id a w :
  w.(w_db).(agents) !! agent_id = Some a →
  (try_ (query_agent_state agent_id) : M CcbdError _) w = (Ok (Ok a.(a_state)), w).
Proof. intros Ha. unfold query_agent_state, try_, mbind, M_bind, gets. by rw Ha. Qed.
Lemma query_agent_state_missing agent_id w :
  w.(w_db).(agents) !! agent_id = None →
  (try_ (query_agent_state agent_id) : M CcbdError _) w = (Ok (Err (AgentNotFound agent_id)), w).
Proof. intros Ha. unfold query_agent_state, try_, mbind, M_bind, gets. by rw Ha. Qed.

(** The end of a report, once nothing puts it off. *)
Lemma report_run env agent_id provider outcome snapshot depth reason a (prompts prompts' : Transients) w :
  unanswered outcome = Some (snapshot, depth, reason) → w.(w_db).(agents) !! agent_id = Some a →
  put_off env agent_id prompts a snapshot = None → is_park_whitelisted reason = false →
  ∃ r w', (r ← try_ (emit_unknown_prompt_detected agent_id (new_payload snapshot reason depth provider));
           mret (match r : Result Z CcbdError with
                 | Err e => Err e
                 | Ok _ => Ok (ScanNoActionNeeded depth)
                 end, prompts') : M CcbdError _) w = (Ok (r, prompts'), w') ∧
    reported env agent_id provider outcome prompts w.(w_db) w.(w_now) r w'.(w_db).
Proof.
  intros Ho Ha Hd Hp.
  destruct (emit_unknown_run agent_id (new_payload snapshot reason depth provider) a w Ha)
    as (seq & w' & Hrun & Hdb).
  exists (Ok (ScanNoActionNeeded depth)), w'.
  split; [|rw Hdb; by eapply reported_unknown; eauto using not_put_off].
  rw (bind_ok _ _ _ (Ok seq) w'); [unfold try_; by rw Hrun|done].
Qed.

Lemma report_parking_run env agent_id provider outcome snapshot depth reason a
    (prompts prompts' : Transients) w :
  unanswered outcome = Some (snapshot, depth, reason) → w.(w_db).(agents) !! agent_id = Some a →
  put_off env agent_id prompts a snapshot = None → is_park_whitelisted reason = true →
  ∃ r w', (r ← try_ (mark_prompt_pending_and_emit_unknown_sync agent_id
                       (new_payload snapshot reason depth provider));
           mret (match r : Result nat CcbdError with
                 | Err e => Err e
                 | Ok _ => Ok (ScanPending depth reason)
                 end, prompts') : M CcbdError _) w = (Ok (r, prompts'), w') ∧
    reported env agent_id provider outcome prompts w.(w_db) w.(w_now) r w'.(w_db).
Proof.
  intros Ho Ha Hd Hp.
  pose proof (mark_prompt_pending_emit_run agent_id (new_payload snapshot reason depth provider) w)
    as Hrun. rw Ha in Hrun.
  case_bool_decide as Hs.
  - exists (Ok (ScanPending depth reason)),
      (set_db (parked_db w.(w_now) agent_id (new_payload snapshot reason depth provider) a w.(w_db)) w).
    split; [|by eapply (reported_parked _ _ _ _ _ _ _ a snapshot)].
    erewrite bind_ok; [|unfold try_; rw Hrun; reflexivity]. done.
  - exists (Err (AgentWrongState a.(a_state))), w.
    split; [|by eapply (reported_refused _ _ _ _ _ _ _ a snapshot)].
    erewrite bind_ok; [|unfold try_; rw Hrun; reflexivity]. done.
Qed.

(** C19: a prompt scan never demotes an agent at work.  Whatever outcome the
    runner reports and whatever the tables hold by then: the agent's row changes
    only when the agent is idle or starting and the prompt is one that a person
    answers, and then it waits for the prompt and the state change and the screen
    are recorded together.  Any other unanswered prompt of an agent that is not at
    work leaves one event; a report that is put off, as every one of a busy agent
    or one waiting for an acknowledgement is, leaves the database as it was. *)
Theorem prompt_outcome_parks_only_resting_agents env agent_id provider outcome prompts w :
  (∃ r prompts' w',
    apply_prompt_outcome env agent_id provider outcome prompts w = (Ok (r, prompts'), w') ∧
    reported env agent_id provider outcome prompts w.(w_db) w.(w_now) r w'.(w_db)) ∧
  (∀ a snapshot, a.(a_state) ∈ [STATE_WAITING_FOR_ACK; STATE_BUSY] →
    is_Some (put_off env agent_id prompts a snapshot)).
Proof.
  split; [|intros a sn Hs; unfold put_off; by rewrite report_deferral_working].
  destruct (unanswered outcome) as [[[snapshot depth] reason]|] eqn:Ho; cycle 1.
  { exists (answered outcome), prompts, w. split; [|by apply reported_answered].
    by destruct outcome as [[]| | | |]. }
  destruct (w.(w_db).(agents) !! agent_id) as [a|] eqn:Ha; cycle 1.
  { exists (Err (AgentNotFound agent_id)), prompts, w. split; [|by eapply reported_missing].
    by destruct outcome; try done; unfold apply_prompt_outcome;
      rw (bind_ok _ _ _ _ _ (query_agent_state_missing _ _ Ha)). }
  destruct (report_deferral agent_id a.(a_state) snapshot.(sn_hash)
    (transient_unknown_stable_scan_threshold env) prompts) as [d prompts'] eqn:Hd.
  assert (Hput : put_off env agent_id prompts a snapshot = d) by (unfold put_off; by rw Hd).
  destruct outcome; try done; injection Ho as -> -> <-; unfold apply_prompt_outcome; cbv zeta;
    rw (bind_ok _ _ _ _ _ (query_agent_state_run _ _ _ Ha)); rw Hd; destruct d as [why|];
    try (eexists _, prompts', w; split; [reflexivity|by eapply reported_deferred]).
  - destruct (is_park_whitelisted block_reason) eqn:Hp.
    + edestruct (report_parking_run env agent_id provider (PendingPrompt snapshot depth block_reason))
        with (prompts' := prompts') as (r & w' & Hrun & Hrep); [done..|]. by exists r, prompts', w'.
    + edestruct (report_run env agent_id provider (PendingPrompt snapshot depth block_reason))
        with (prompts' := prompts') as (r & w' & Hrun & Hrep); [done..|]. by exists r, prompts', w'.
  - edestruct (report_run env agent_id provider (DepthExceeded snapshot depth))
      with (prompts' := prompts') as (r & w' & Hrun & Hrep); [done..|]. by exists r, prompts', w'.
Qed.

(** ** Unparking *)

(** The watcher's transition in every case: it moves the agent to idle only when
    the agent still waits for a prompt at the version the tick had read. *)
Theorem unpark_is_conditional agent_id version w :
  mark_prompt_pending_idle_unparked_sync agent_id version w =
  match w.(w_db).(agents) !! agent_id with
  | None => (Err (AgentNotFound agent_id), w)
  | Some a =>
      if (a.(a_state) == STATE_PROMPT_PENDING) && (a.(a_state_version) =? version) then
        (Ok Unparked, set_db (moved_db w.(w_now) agent_id
           (bump_version w.(w_now)
              (set_a_sub_state (Some "PromptIdleSelfHealed") (set_a_state STATE_IDLE a)))
           (json_object [("from", JString STATE_PROMPT_PENDING); ("to", JString STATE_IDLE);
                         ("sub_state", JString "PromptIdleSelfHealed");
                         ("reason", JString "PROMPT_PENDING_IDLE_SELF_HEALED")]) w.(w_db)) w)
      else (Ok CasMiss, w)
  end.
Proof.
  unfold mark_prompt_pending_idle_unparked_sync.
  destruct (agents (w_db w) !! agent_id) as [a|] eqn:Ha; cycle 1.
  { unfold transaction. run_m. rw Ha. by destruct w. }
  destruct ((a.(a_state) == STATE_PROMPT_PENDING) && (a.(a_state_version) =? version)) eqn:Hc; cycle 1.
  { unfold transaction. run_m. rw Ha /=. rw -negb_andb Hc. by destruct w. }
  apply transaction_ok. step_pure. rw Ha /=. rw -negb_andb Hc /=. step_pure.
  erewrite bind_ok; [cbv beta|by apply (update_agent_hit _ _ _ _ a)].
  simpl. erewrite bind_ok; [cbv beta|apply insert_event_null_run; by rw /= lookup_insert_eq].
  by rw set_db_twice ret_run.
Qed.

(** ** A screen that has not settled *)

(** [n] scans in a row that show the same screen in the same state. *)
Fixpoint scans_alike (agent_id state hash : string) (threshold n : nat) (prompts : Transients) :
    list bool * Transients :=
  match n with
  | O => ([], prompts)
  | S n' =>
      let '(d, prompts) :=
        transient_unknown_prompt_should_defer agent_id state hash threshold prompts in
      let '(ds, prompts) := scans_alike agent_id state hash threshold n' prompts in
      (d :: ds, prompts)
  end.

Lemma scans_alike_S agent_id state hash threshold n prompts :
  scans_alike agent_id state hash threshold (S n) prompts =
  let '(d, prompts) := transient_unknown_prompt_should_defer agent_id state hash threshold prompts in
  let '(ds, prompts) := scans_alike agent_id state hash threshold n prompts in (d :: ds, prompts).
Proof. done. Qed.

Lemma scans_alike_from agent_id state hash threshold (prompts : Transients) n k :
  is_prompt_demote_deferred_state state = true → (S k + n = threshold)%nat →
  prompts !! agent_id = (if bool_decide (k = 0)%nat then None else Some (MkTransient state hash k)) →
  scans_alike agent_id state hash threshold (S n) prompts =
    (replicate n true ++ [false], delete agent_id prompts).
Proof.
  intros Hs. revert k prompts. induction n as [|n IH]; intros k prompts Hk Hp;
    rw scans_alike_S; unfold transient_unknown_prompt_should_defer at 1; rw Hs; cbn [negb].
  all: assert (Hentry : match prompts !! agent_id with
    | Some entry =>
        if (entry.(tu_state) == state) && (entry.(tu_capture_hash) == hash)
        then MkTransient entry.(tu_state) entry.(tu_capture_hash) (S entry.(tu_seen_count))
        else MkTransient state hash 1
    | None => MkTransient state hash 1
    end = MkTransient state hash (S k)).
  1,3: rw Hp; case_bool_decide; [by subst|]; cbn [tu_state tu_capture_hash tu_seen_count];
    by rw !bool_decide_eq_true_2.
  all: cbv zeta; rw Hentry; cbn [tu_seen_count].
  - rw bool_decide_eq_true_2; [lia|done].
  - rw bool_decide_eq_false_2; [lia|].
    rw (IH (S k)); [lia|by rw lookup_insert_eq|]. by rw delete_insert_eq.
Qed.

(** An unknown screen of an agent that is starting is reported once it was seen
    [threshold] times in a row: the scans before are put off, and the count starts
    again. *)
Theorem settled_screen_is_reported agent_id state hash threshold (prompts : Transients) :
  is_prompt_demote_deferred_state state = true → (0 < threshold)%nat →
  prompts !! agent_id = None →
  scans_alike agent_id state hash threshold threshold prompts =
    (replicate (threshold - 1) true ++ [false], prompts).
Proof.
  intros Hs Ht Hp. destruct threshold as [|n]; [lia|].
  rw (scans_alike_from agent_id state hash (S n) prompts n 0); [done|done|by rw Hp|].
  rw delete_id; [done|]. by rw Nat.sub_succ Nat.sub_0_r.
Qed.

(** ** A person's answer *)

Variable pio : string → PromptIo T.
Variables (payload_from_str : string → option UnknownPromptPayload) (payload_error : string → string).

Lemma validated_all_permitted actions vs :
  validate_all actions = Ok vs → Forall permitted (sent_key <$> vs).
Proof.
  revert vs. induction actions as [|a l IH]; intros vs; cbn; [by intros [= <-]|].
  destruct (validate_action a) as [v|] eqn:E; [|done]. destruct (validate_all l) as [vs'|]; [|done].
  intros [= <-]. constructor; [by eapply validated_permitted|by apply IH].
Qed.

Lemma execute_validated_run (io : PromptIo T) vs (s : RunState T) :
  ∃ n r s', execute_validated_actions io vs s = (r, s') ∧
    s'.(rs_sent) = s.(rs_sent) ++ take n (sent_key <$> vs) ∧ s'.(rs_experience) = s.(rs_experience) ∧
    (r = Ok tt → take n (sent_key <$> vs) = sent_key <$> vs).
Proof.
  revert s. induction vs as [|v vs IH]; intros s; cbn.
  { exists O, (Ok tt), s. by rewrite app_nil_r. }
  assert (∃ r t, match v with
    | VKey keysym => send_key_keysym io keysym s
    | VLiteral text => send_key_literal io text s
    end = (r, MkRunState t (s.(rs_sent) ++ [sent_key v]) s.(rs_experience))) as (r & t & ->).
  { destruct v; [unfold send_key_keysym; destruct (io_keysym _ _ _)
                 |unfold send_key_literal; destruct (io_literal _ _ _)]; eauto. }
  destruct r as [[]|e].
  - destruct (IH (MkRunState t (s.(rs_sent) ++ [sent_key v]) s.(rs_experience)))
      as (n & r & s' & -> & Hs & Hx & Hok).
    exists (S n), r, s'. split_and!; [done|rewrite Hs /= -app_assoc //|done|].
    intros ->. cbn. by rewrite Hok.
  - exists 1%nat. eexists _, _. by split_and!.
Qed.

Lemma resolve_state_run agent_id a w :
  w.(w_db).(agents) !! agent_id = Some a → a.(a_state) = STATE_PROMPT_PENDING →
  let target := match current_job agent_id w.(w_db) with
                | Some _ => STATE_BUSY | None => STATE_IDLE end in
  resolve_prompt_state_sync agent_id w =
    (Ok target, set_db (moved_db w.(w_now) agent_id (bump_version w.(w_now) (set_a_state target a))
       (json_object [("from", JString STATE_PROMPT_PENDING); ("to", JString target);
                     ("reason", JString "PROMPT_RESOLVED")]) w.(w_db)) w).
Proof.
  intros Ha Hs target. unfold resolve_prompt_state_sync.
  rw (bind_ok _ _ _ tt w).
  { unfold ensure_prompt_pending_sync, query_agent_state. unfold mbind, M_bind, gets. rw Ha /= Hs. done. }
  unfold query_dispatched_job_for_agent_sync. step_pure. fold target.
  unfold transit_agent_state_sync. erewrite bind_ok; [apply ret_run|].
  apply transaction_ok. erewrite bind_ok; [apply ret_run|].
  rw transit_agent_run Ha. unfold transit_allowed. by rw Hs.
Qed.
(** The reports before the answer is typed. *)
Lemma ensure_pending_run agent_id w :
  (try_ (ensure_prompt_pending_sync agent_id) : M CcbdError _) w =
    (Ok (match w.(w_db).(agents) !! agent_id with
         | None => Err (AgentNotFound agent_id)
         | Some a => if a.(a_state) == STATE_PROMPT_PENDING then Ok tt
                     else Err (AgentWrongState a.(a_state))
         end), w).
Proof.
  unfold ensure_prompt_pending_sync, query_agent_state, try_, mbind, M_bind, gets.
  destruct (agents (w_db w) !! agent_id) as [a|]; [|done]. cbn.
  by destruct (a.(a_state) == STATE_PROMPT_PENDING).
Qed.

Lemma save_case_run flt agent_id provider actions files w :
  ∃ r files', save_resolved_prompt_case_sync payload_from_str payload_error flt agent_id provider
    actions files w = (Ok (r, files'), w).
Proof.
  assert (∃ p, (try_ (latest_unknown_prompt_payload payload_from_str payload_error agent_id) :
    M CcbdError _) w = (Ok p, w)) as [p Hp].
  { unfold latest_unknown_prompt_payload, query_last_event_of_type_sync, try_, mbind, M_bind, gets.
    destruct (head _) as [event|]; [destruct (payload_from_str (e_payload event))|];
      eexists; reflexivity. }
  unfold save_resolved_prompt_case_sync. rw (bind_ok _ _ _ _ _ Hp). step_pure. cbv zeta.
  repeat case_match; eexists _, _; reflexivity.
Qed.

(** The state a resolved agent goes to. *)
Definition resolved_target (agent_id : string) (db : Db) : string :=
  match current_job agent_id db with Some _ => STATE_BUSY | None => STATE_IDLE end.

(** What is typed and changed by an answer. *)
Record answer_spec (agent_id : string) (actions : list PromptAction) (x x' : ScanEnv (T := T))
    (w w' : World) (r : Result ResolvePromptResult CcbdError) (keys : list SentKey) : Prop := {
  an_typed : x'.(se_run).(rs_sent) = x.(se_run).(rs_sent) ++ keys;
  an_permitted : Forall permitted keys;
  an_all_or_nothing : keys = [] ∧ w' = w ∨
    ∃ a vs n, w.(w_db).(agents) !! agent_id = Some a ∧ a.(a_state) = STATE_PROMPT_PENDING ∧
      validate_all actions = Ok vs ∧ keys = take n (sent_key <$> vs);
  an_resolved result : r = Ok result →
    ∃ a vs, w.(w_db).(agents) !! agent_id = Some a ∧
      validate_all actions = Ok vs ∧ keys = sent_key <$> vs ∧
      result.(rp_resolved_state) = resolved_target agent_id w.(w_db) ∧
      w'.(w_db).(agents) = <[agent_id := bump_version w.(w_now)
        (set_a_state (resolved_target agent_id w.(w_db)) a)]> w.(w_db).(agents)
}.

Lemma answer_rejected agent_id actions x w e :
  answer_spec agent_id actions x x w w (Err e) [].
Proof. split; [by rewrite app_nil_r|done|by left|done]. Qed.

(** Once the keys are typed: the agent's state, and the case that is saved. *)
Lemma resolve_after_typing flt agent_id provider actions (save : bool) vs a x run w n :
  w.(w_db).(agents) !! agent_id = Some a → a.(a_state) = STATE_PROMPT_PENDING →
  validate_all actions = Ok vs → run.(rs_sent) = x.(se_run).(rs_sent) ++ (sent_key <$> vs) →
  take n (sent_key <$> vs) = sent_key <$> vs →
  let x1 := MkScanEnv x.(se_files) run x.(se_prompts) in
  ∃ r x' w',
    (resolved ← try_ (resolve_prompt_state_sync agent_id);
     match resolved : Result string CcbdError with
     | Err e => mret (Err e, x1)
     | Ok resolved_state =>
         if save then
           '(saved, files) ← save_resolved_prompt_case_sync payload_from_str payload_error flt agent_id
              provider actions x1.(se_files);
           mret (match saved with
                 | Err e => Err e
                 | Ok case_id => Ok (MkResolvePromptResult resolved_state true (Some case_id)
                                       (action_label <$> vs))
                 end, MkScanEnv files x1.(se_run) x1.(se_prompts))
         else mret (Ok (MkResolvePromptResult resolved_state false None (action_label <$> vs)), x1)
     end : M CcbdError _) w = (Ok (r, x'), w') ∧
    answer_spec agent_id actions x x' w w' r (sent_key <$> vs).
Proof.
  intros Ha Hs Hv Hrun Htake x1. pose proof (resolve_state_run agent_id a w Ha Hs) as Hres.
  cbv zeta in Hres. fold (resolved_target agent_id w.(w_db)) in Hres.
  erewrite bind_ok; [|unfold try_; rw Hres; reflexivity]. cbv beta iota. set (w1 := set_db _ w).
  assert (Hspec : ∀ r files, (∀ result, r = Ok result →
      result.(rp_resolved_state) = resolved_target agent_id w.(w_db)) →
    answer_spec agent_id actions x (MkScanEnv files run x.(se_prompts)) w w1 r (sent_key <$> vs)).
  { intros r files Hr. split; [done|by eapply validated_all_permitted|right; by exists a, vs, n|].
    intros result E. exists a, vs. by rw (Hr _ E). }
  destruct save.
  - destruct (save_case_run flt agent_id provider actions x.(se_files) w1) as (saved & files & Hsave).
    eexists _, _, w1. split; [erewrite bind_ok; [|exact Hsave]; reflexivity|].
    apply Hspec. destruct saved; [|done]. by intros ? [= <-].
  - eexists _, _, w1. split; [reflexivity|]. apply Hspec. by intros ? [= <-].
Qed.


End Integration.
