(* ===== verification/Tmux.v ===== *)
(** * The terminal server ([src/src/tmux/session.rs], [pane.rs], [error.rs], [mod.rs])

    Each operation runs a [tmux] command line and reads its output.  What a command
    does is the terminal's business: [exec] answers with the exit status and the
    decoded output of a program with its arguments and input, and may change the
    terminal in any way.  The commands that were run are recorded. *)
From S2P Require Import Prelude Json Schema Sql AgentGate Text ReplyText Shell.
From Stdlib Require Import Ascii.

(** ** Commands *)

(** [Command::output]: the process ran, or could not be started. *)
Inductive CommandRun : Type :=
| Ran (success : bool) (exit : option Z) (stdout stderr : string)
| NotStarted (not_found : bool) (error : string)
| StdinFailed (error : string).

Record TmuxCommand : Type := MkTmuxCommand {
  tc_program : string;
  tc_args : list string;
  tc_stdin : option string
}.
#[global] Instance TmuxCommand_eq_dec : EqDecision TmuxCommand.
Proof. solve_decision. Defined.

Class TmuxExec (T : Type) := tmux_exec : TmuxCommand → T → CommandRun * T.

Record TmuxTerminal (T : Type) : Type := MkTmuxTerminal {
  tm_state : T;
  tm_trace : list TmuxCommand
}.
Arguments MkTmuxTerminal {T} _ _.
Arguments tm_state {T} _.
Arguments tm_trace {T} _.

Record UnitConfig : Type := MkUnitConfig {
  uc_unit_name : string;
  uc_slice : string;
  uc_binds_to : option string
}.
Inductive ScopePolicy : Type :=
| SystemdScope (unit : UnitConfig)
| NoScope.

Record TmuxServer : Type := MkTmuxServer {
  ts_socket_name : string;
  ts_scope_policy : ScopePolicy
}.

Inductive TmuxWindowSize : Type := Fixed | Follow.

(** [wrap_in_scope] of [src/src/platform/linux/scope.rs] *)
Definition wrap_in_scope (base_cmd : string) (base_args : list string) (policy : ScopePolicy) :
    TmuxCommand :=
  match policy with
  | NoScope => MkTmuxCommand base_cmd base_args None
  | SystemdScope unit =>
      MkTmuxCommand "systemd-run"
        (["--user"; "--scope"; "--collect"; "--unit=" +:+ unit.(uc_unit_name);
          "--slice=" +:+ unit.(uc_slice)] ++
         match unit.(uc_binds_to) with
         | Some b => ["--property=BindsTo=" +:+ b; "--property=PartOf=" +:+ b]
         | None => []
         end ++ ["--"; base_cmd] ++ base_args) None
  end.

(** ** Names *)

Definition agent_session_name (agent_id : string) : string := "agent_" +:+ agent_id.

Definition is_pane_id (value : string) : bool := starts_with value "%".

(** [TmuxError::ParsePaneId] and [ParsePid] as [CcbdError]s *)
Definition pane_id_of (value : string) : Result string CcbdError :=
  if is_pane_id value then Ok value
  else Err (TmuxCommandFailed "tmux parse pane id" ("invalid pane id: " +:+ value) (-1)).
Definition invalid_pid (value : string) : CcbdError :=
  TmuxCommandFailed "tmux display-message #{pane_pid}" ("invalid pane pid: " +:+ value) (-1).

Fixpoint pane_ids_of (values : list string) : Result (list string) CcbdError :=
  match values with
  | [] => Ok []
  | v :: values' =>
      match pane_id_of v with
      | Err e => Err e
      | Ok p => match pane_ids_of values' with Err e => Err e | Ok ps => Ok (p :: ps) end
      end
  end.

(** [s.parse::<i32>()] *)
Definition parse_i32 (s : string) : option Z :=
  match s with
  | String "-" body =>
      match body with
      | EmptyString => None
      | _ => n ← parse_digits 0 body; if n <=? 2 ^ 31 then Some (- n) else None
      end
  | _ => parse_unsigned 31 s
  end.

Definition map_command_io_error (not_found : bool) (err : string) : CcbdError :=
  if not_found then TmuxNotFound else TmuxCommandFailed "tmux" err (-1).

Definition tmux_target_missing (err : CcbdError) : bool :=
  match err with
  | TmuxCommandFailed _ stderr _ =>
      contains stderr "can't find pane" || contains stderr "can't find window" ||
      contains stderr "can't find session" || contains stderr "no such pane" ||
      contains stderr "no server running"
  | _ => false
  end.

Definition reusable_initial_window (windows : list string) : option string :=
  match windows with
  | [window] => if window is_in ["0"; "bash"; "sh"; "zsh"; "fish"] then Some window else None
  | _ => None
  end.

Definition select_single_matching_pane (expected_pid : Z) (panes : list (string * Z)) : option string :=
  match filter (λ p, p.2 = expected_pid) panes with
  | [(pane, _)] => Some pane
  | _ => None
  end.

(** [line.split_once('\t')] *)
Definition TAB : ascii := ascii_of_nat 9.

Section Tmux.
Context {T : Type} {TX : TmuxExec T} (server : TmuxServer).

(** ** Running a command *)

Definition Tm (A : Type) : Type := TmuxTerminal T → Result A CcbdError * TmuxTerminal T.

#[global] Instance tm_ret : MRet Tm := λ A a t, (Ok a, t).
#[global] Instance tm_bind : MBind Tm := λ A B f m t,
  match m t with
  | (Ok a, t') => f a t'
  | (Err e, t') => (Err e, t')
  end.
Definition tm_throw {A} (e : CcbdError) : Tm A := λ t, (Err e, t).
Definition tm_of_result {A} (r : Result A CcbdError) : Tm A := λ t, (r, t).
(** The result as a value. *)
Definition tm_try {A} (m : Tm A) : Tm (Result A CcbdError) := λ t,
  let '(r, t') := m t in (Ok r, t').

Definition run_command (c : TmuxCommand) : Tm CommandRun := λ t,
  let '(r, s) := tmux_exec c t.(tm_state) in (Ok r, MkTmuxTerminal s (t.(tm_trace) ++ [c])).

(** Standard output, or the error of a command that failed; [shown] are the
    arguments its error names. *)
Definition ensure_output_success (shown : list string) (r : CommandRun) : Result string CcbdError :=
  match r with
  | Ran true _ stdout _ => Ok stdout
  | Ran false exit _ stderr =>
      Err (TmuxCommandFailed (join " " ("tmux" :: shown)) (trim stderr) (default (-1) exit))
  | NotStarted not_found err => Err (map_command_io_error not_found err)
  | StdinFailed err =>
      Err (TmuxCommandFailed (join " " ("tmux" :: shown)) ("stdin write failed: " +:+ err) (-1))
  end.

Definition tmux_args (args : list string) : list string := ["-L"; server.(ts_socket_name)] ++ args.
Definition tmux_output (args : list string) : Tm string :=
  r ← run_command (MkTmuxCommand "tmux" (tmux_args args) None);
  tm_of_result (ensure_output_success (tmux_args args) r).
Definition tmux_run (args : list string) : Tm unit := tmux_output args;; mret tt.

(** Did the command succeed?  Only a process that could not be started is an error. *)
Definition tmux_succeeds (args : list string) : Tm bool :=
  r ← run_command (MkTmuxCommand "tmux" (tmux_args args) None);
  match r with
  | Ran success _ _ _ => mret success
  | NotStarted not_found err => tm_throw (map_command_io_error not_found err)
  | StdinFailed err => tm_throw (map_command_io_error false err)
  end.

(** ** Sessions *)

Definition new_session_args (session_name cwd_arg : string) (window_size : TmuxWindowSize) :
    list string :=
  ["new-session"; "-d"; "-s"; session_name; "-c"; cwd_arg] ++
  match window_size with Fixed => ["-x"; "150"; "-y"; "60"] | Follow => [] end.

Definition tmux_session_exists_sync (session_name : string) : Tm bool :=
  tmux_succeeds ["has-session"; "-t"; session_name].
Definition server_running_sync : Tm bool := tmux_succeeds ["list-sessions"].

Definition ensure_session_with_window_size_sync (session_name cwd : string)
    (window_size : TmuxWindowSize) : Tm unit :=
  has_session ← tmux_succeeds ["has-session"; "-t"; session_name];
  if (has_session : bool) then mret tt
  else
  let args := tmux_args (new_session_args session_name cwd window_size) in
  running ← server_running_sync;
  output ← run_command (if (running : bool) then MkTmuxCommand "tmux" args None
                        else wrap_in_scope "tmux" args server.(ts_scope_policy));
  tm_of_result (ensure_output_success args output);;
  tmux_run ["set-option"; "-t"; session_name; "window-size";
            match window_size with Fixed => "manual" | Follow => "latest" end].
Definition ensure_session_sync (session_name cwd : string) : Tm unit :=
  ensure_session_with_window_size_sync session_name cwd Fixed.

Definition kill_session_sync (session_name : string) : Tm unit :=
  tmux_run ["kill-session"; "-t"; session_name].

(** ** Panes *)

Definition set_remain_on_exit_sync (pane : string) : Tm unit :=
  tmux_run ["set-window-option"; "-t"; pane; "remain-on-exit"; "on"].

(** The error of a failed respawn does not name the command. *)
Definition respawn_pane_sync (pane cwd : string) (cmd : list string) : Tm unit :=
  let respawn_args := tmux_args ["respawn-pane"; "-k"; "-t"; pane; "-c"; cwd; "--"] in
  output ← run_command (MkTmuxCommand "tmux" (respawn_args ++ cmd) None);
  tm_of_result (ensure_output_success respawn_args output);;
  mret tt.

Definition list_window_names_sync (session : string) : Tm (list string) :=
  stdout ← tmux_output ["list-windows"; "-t"; session; "-F"; "#{window_name}"];
  mret (lines stdout).
Definition window_exists_sync (session window : string) : Tm bool :=
  stdout ← tmux_output ["list-windows"; "-t"; session; "-F"; "#{window_name}"];
  mret (existsb (λ line, line == window) (lines stdout)).

Definition list_panes_sync (window_target : string) : Tm (list string) :=
  stdout ← tmux_output ["list-panes"; "-t"; window_target; "-F"; "#{pane_id}"];
  tm_of_result (pane_ids_of (trim <$> lines stdout)).

Definition reusable_initial_window_sync (session : string) : Tm (option string) :=
  windows ← tm_try (list_window_names_sync session);
  match windows with
  | Err _ => mret None
  | Ok windows =>
      match reusable_initial_window windows with
      | None => mret None
      | Some window =>
          panes ← list_panes_sync (session +:+ ":" +:+ window);
          mret (if bool_decide (length panes = 1)%nat then Some window else None)
      end
  end.

Definition respawn_initial_window_sync (session initial_window window cwd : string)
    (cmd : list string) : Tm string :=
  tmux_run ["rename-window"; "-t"; session +:+ ":" +:+ initial_window; window];;
  stdout ← tmux_output ["display-message"; "-p"; "-t"; session +:+ ":" +:+ window; "#{pane_id}"];
  pane ← tm_of_result (pane_id_of (trim stdout));
  set_remain_on_exit_sync pane;;
  respawn_pane_sync pane cwd cmd;;
  mret pane.

Definition spawn_window_sync (session window cwd : string) (cmd : list string) : Tm string :=
  initial ← reusable_initial_window_sync session;
  match initial with
  | Some initial_window => respawn_initial_window_sync session initial_window window cwd cmd
  | None =>
      let args := tmux_args ["new-window"; "-d"; "-t"; session +:+ ":"; "-n"; window; "-c"; cwd; "-P";
                             "-F"; "#{pane_id}"] in
      output ← run_command (MkTmuxCommand "tmux" args None);
      stdout ← tm_of_result (ensure_output_success (args ++ cmd) output);
      pane ← tm_of_result (pane_id_of (trim stdout));
      set_remain_on_exit_sync pane;;
      respawn_pane_sync pane cwd cmd;;
      mret pane
  end.

Definition get_pane_pid_sync (pane : string) : Tm Z :=
  stdout ← tmux_output ["display-message"; "-p"; "-t"; pane; "#{pane_pid}"];
  match parse_i32 (trim stdout) with
  | Some pid => mret pid
  | None => tm_throw (invalid_pid (trim stdout))
  end.

Definition pipe_pane_to_fifo_sync (pane fifo : string) : Tm unit :=
  tmux_run ["pipe-pane"; "-t"; pane; "-O"; "cat > " +:+ shell_quote fifo].
Definition send_keys_literal_sync (pane text : string) : Tm unit :=
  tmux_run ["send-keys"; "-t"; pane; "-l"; text].
Definition send_keys_keysym_sync (pane keysym : string) : Tm unit :=
  tmux_run ["send-keys"; "-t"; pane; keysym].
Definition send_ctrl_c_sync (pane : string) : Tm unit := send_keys_keysym_sync pane "C-c".
Definition send_enter_sync (pane : string) : Tm unit := send_keys_keysym_sync pane "Enter".
Definition set_pane_title_sync (pane title : string) : Tm unit :=
  tmux_run ["select-pane"; "-t"; pane; "-T"; title].
Definition kill_window_sync (session window : string) : Tm unit :=
  tmux_run ["kill-window"; "-t"; session +:+ ":" +:+ window].
Definition kill_pane_sync (pane : string) : Tm unit := tmux_run ["kill-pane"; "-t"; pane].
Definition capture_pane_sync (pane : string) : Tm string :=
  tmux_output ["capture-pane"; "-p"; "-t"; pane; "-S"; "-200"].

(** ** Buffers *)

Definition load_buffer_sync (buffer_name text : string) : Tm unit :=
  let args := tmux_args ["load-buffer"; "-b"; buffer_name; "-"] in
  r ← run_command (MkTmuxCommand "tmux" args (Some text));
  tm_of_result (ensure_output_success args r);;
  mret tt.
Definition paste_buffer_sync (pane buffer_name : string) : Tm unit :=
  tmux_run ["paste-buffer"; "-p"; "-t"; pane; "-b"; buffer_name].
Definition delete_buffer_sync (buffer_name : string) : Tm unit :=
  tmux_run ["delete-buffer"; "-b"; buffer_name].

(** ** Killing only what is owned *)

Definition target_has_expected_pid_sync (target : string) (expected_pid : Z) : Tm bool :=
  pid ← tm_try (get_pane_pid_sync target);
  mret (match pid with Ok pid => pid =? expected_pid | Err _ => false end).

Definition kill_pane_if_owned_sync (pane : string) (expected_pid : Z) : Tm bool :=
  owned ← target_has_expected_pid_sync pane expected_pid;
  if (owned : bool) then
    r ← tm_try (kill_pane_sync pane);
    mret (match r with Ok _ => true | Err _ => false end)
  else mret false.

Definition list_all_panes_in_session_sync (session_name : string) : Tm (list string) :=
  stdout ← tmux_output ["list-panes"; "-a"; "-F";
             "#{session_name}" +:+ String TAB EmptyString +:+ "#{pane_id}"];
  tm_of_result (pane_ids_of (omap (λ line,
    '(actual_session, pane_id) ← split_once TAB line;
    if actual_session == session_name then Some (trim pane_id) else None) (lines stdout))).

(** The panes whose process could be read. *)
Fixpoint observe_panes (panes : list string) : Tm (list (string * Z)) :=
  match panes with
  | [] => mret []
  | pane :: panes' =>
      pid ← tm_try (get_pane_pid_sync pane);
      rest ← observe_panes panes';
      mret (match pid with Ok pid => (pane, pid) :: rest | Err _ => rest end)
  end.

Definition find_pane_in_session_by_pid_sync (session_name : string) (expected_pid : Z) :
    Tm (option string) :=
  panes ← tm_try (list_all_panes_in_session_sync session_name);
  match panes with
  | Err _ => mret None
  | Ok panes =>
      observed ← observe_panes panes;
      mret (select_single_matching_pane expected_pid observed)
  end.

Definition kill_session_if_owned_sync (session_name : string) (expected_pid : Z) : Tm bool :=
  found ← find_pane_in_session_by_pid_sync session_name expected_pid;
  match found with
  | None => mret false
  | Some _ =>
      r ← tm_try (kill_session_sync session_name);
      mret (match r with Ok _ => true | Err _ => false end)
  end.

End Tmux.
