(* ===== verification/AgentIo.v ===== *)
(** * Agents' panes ([src/src/agent_io/writer.rs], [registry.rs])

    The table of the panes agents run in, and the typing of a prompt: a command
    that starts with a slash is typed character by character, anything else is
    pasted from a buffer of its own and submitted with Enter. *)
From S2P Require Import Prelude Json Schema Sql AgentGate Text ReplyText Shell Providers.
From S2P Require Import PromptCases PromptRunner Tmux.
From Stdlib Require Import Ascii.

(** ** The table *)

(** The reader task and its cancellation are not kept; [ie_idle_scan_enabled] is
    shared with them. *)
Record AgentIoEntry : Type := MkAgentIoEntry {
  ie_session_id : string;
  ie_pane_id : string;
  ie_expected_pid : option Z;
  ie_fifo_path : string;
  ie_socket_name : string;
  ie_idle_scan_enabled : bool
}.
Notation PaneMap := (gmap string AgentIoEntry).

Definition register_pane (agent_id : string) (entry : AgentIoEntry) (m : PaneMap) : PaneMap :=
  <[agent_id := entry]> m.
Definition pane_id (agent_id : string) (m : PaneMap) : option string := ie_pane_id <$> m !! agent_id.
Definition set_pane_id (pane : string) (e : AgentIoEntry) : AgentIoEntry :=
  MkAgentIoEntry e.(ie_session_id) pane e.(ie_expected_pid) e.(ie_fifo_path) e.(ie_socket_name)
    e.(ie_idle_scan_enabled).
Definition update_pane_id (agent_id pane : string) (m : PaneMap) : bool * PaneMap :=
  (bool_decide (is_Some (m !! agent_id)), alter (set_pane_id pane) agent_id m).
Definition pane_binding (agent_id : string) (m : PaneMap) : option (string * string) :=
  (λ e, (e.(ie_pane_id), e.(ie_socket_name))) <$> m !! agent_id.
Definition init_probe_binding (agent_id : string) (m : PaneMap) : option (string * bool) :=
  (λ e, (e.(ie_pane_id), e.(ie_idle_scan_enabled))) <$> m !! agent_id.
Definition set_idle_scan_enabled (agent_id : string) (enabled : bool) (m : PaneMap) : PaneMap :=
  alter (λ e, MkAgentIoEntry e.(ie_session_id) e.(ie_pane_id) e.(ie_expected_pid) e.(ie_fifo_path)
                e.(ie_socket_name) enabled) agent_id m.
Definition remove_pane (agent_id : string) (m : PaneMap) : option AgentIoEntry * PaneMap :=
  (m !! agent_id, delete agent_id m).
Definition contains_pane (agent_id : string) (m : PaneMap) : bool :=
  bool_decide (is_Some (m !! agent_id)).

(** ** Typing *)

Definition has_byte (n : nat) (s : string) : bool := contains s (byte_str n).

Definition is_single_line_slash_command (text : string) : bool :=
  starts_with text "/" && negb (has_byte 10 text) && negb (has_byte 13 text) &&
  negb (trim text == "").

Definition sanitize_buffer_char (c : string) : string :=
  match c with
  | String a EmptyString =>
      if is_alnum a || (c is_in ["_"; "-"]) then c else "_"
  | _ => "_"
  end.
Definition sanitize_buffer_name (agent_id : string) : string :=
  concat_str (sanitize_buffer_char <$> chars agent_id).
Definition buffer_name_of (agent_id : string) : string := "ccbd-buf-" +:+ sanitize_buffer_name agent_id.

Section Writer.
Context {T : Type} {TX : TmuxExec T} (server : TmuxServer).

Fixpoint type_chars (pane : string) (cs : list string) : Tm unit :=
  match cs with
  | [] => mret tt
  | c :: cs' => send_keys_literal_sync server pane c;; type_chars pane cs'
  end.
Definition send_slash_command_keystroke (pane slash_cmd : string) : Tm unit :=
  type_chars pane (chars slash_cmd);; send_enter_sync server pane.

(** [second_enter]: is [CCB_TMUX_SECOND_ENTER_DELAY] positive? *)
Definition send_text_to_pane_with_options (second_enter : bool) (agent_id pane text : string)
    (press_enter_after_paste : bool) : Tm unit :=
  if is_single_line_slash_command text then send_slash_command_keystroke pane text
  else
  let buffer_name := buffer_name_of agent_id in
  load_buffer_sync server buffer_name text;;
  paste_result ← tm_try (paste_buffer_sync server pane buffer_name);
  tm_try (delete_buffer_sync server buffer_name);;
  tm_of_result paste_result;;
  if press_enter_after_paste then
    send_enter_sync server pane;;
    if second_enter then send_enter_sync server pane else mret tt
  else mret tt.
Definition send_text_to_pane (second_enter : bool) (agent_id pane text : string) : Tm unit :=
  send_text_to_pane_with_options second_enter agent_id pane text true.

(** [TmuxPromptIo] *)
Definition tmux_prompt_io (pane : string) : PromptIo (TmuxTerminal T) :=
  MkPromptIo _ (capture_pane_sync server pane) (send_keys_literal_sync server pane)
    (send_keys_keysym_sync server pane).

(** ** Clean-up *)

(** [alive]: does [kill(pid, 0)] answer that the process is alive, or leave it open? *)
Fixpoint any_live (alive : Z → bool) (panes : list string) : Tm bool :=
  match panes with
  | [] => mret false
  | pane :: panes' =>
      pid ← tm_try (get_pane_pid_sync server pane);
      match pid with
      | Ok pid => if alive pid then mret true else any_live alive panes'
      | Err _ => any_live alive panes'
      end
  end.
Definition has_live_process_in_session (alive : Z → bool) (session_name : string) : Tm bool :=
  panes ← tm_try (list_panes_sync server session_name);
  match panes with
  | Err err => mret (negb (tmux_target_missing err))
  | Ok panes => any_live alive panes
  end.

(** The terminal's part of [cleanup_agent_runtime_resources_with_policy]: the
    screen is captured for evidence, then the pane and the session are killed if
    they are the agent's. *)
Definition cleanup_terminal (alive : Z → bool) (agent_id : string) (entry : AgentIoEntry) : Tm unit :=
  tm_try (capture_pane_sync server entry.(ie_pane_id));;
  let session_name := agent_session_name agent_id in
  match entry.(ie_expected_pid) with
  | None => tm_try (kill_session_sync server session_name);; mret tt
  | Some expected_pid =>
      (if is_pane_id entry.(ie_pane_id)
       then kill_pane_if_owned_sync server entry.(ie_pane_id) expected_pid else mret false);;
      killed ← kill_session_if_owned_sync server session_name expected_pid;
      if (killed : bool) then mret tt
      else
      live ← has_live_process_in_session alive session_name;
      if (live : bool) then mret tt
      else tm_try (kill_session_sync server session_name);; mret tt
  end.

(** The table's part: an entry of another session is left alone. *)
Definition cleanup_takes (agent_id : string) (expected_session_id : option string) (m : PaneMap) :
    bool * option AgentIoEntry * PaneMap :=
  match expected_session_id, m !! agent_id with
  | Some expected, Some entry =>
      if entry.(ie_session_id) == expected then (true, Some entry, delete agent_id m)
      else (false, None, m)
  | _, found => (true, found, delete agent_id m)
  end.

(** ** What is typed *)

(** A computation that only appends commands, and these are all alike. *)
Definition appends {A} (m : Tm (T := T) A) (Q : Result A CcbdError → list TmuxCommand → Prop) : Prop :=
  ∀ t : TmuxTerminal T, ∃ cs, (m t).2.(tm_trace) = t.(tm_trace) ++ cs ∧ Q (m t).1 cs.

Lemma appends_run c (Q : Result CommandRun CcbdError → list TmuxCommand → Prop) :
  (∀ r, Q (Ok r) [c]) → appends (run_command c) Q.
Proof. intros HQ t. exists [c]. unfold run_command. destruct (tmux_exec c _) as [r s]. split; [reflexivity|apply HQ]. Qed.

Lemma appends_bind {A B} (m : Tm (T := T) A) (f : A → Tm (T := T) B) (Q : Result A CcbdError → list TmuxCommand → Prop)
    (R : Result B CcbdError → list TmuxCommand → Prop) :
  appends m Q → (∀ e cs, Q (Err e) cs → R (Err e) cs) →
  (∀ a cs, Q (Ok a) cs → appends (f a) (λ r cs', R r (cs ++ cs'))) →
  appends (m ≫= f) R.
Proof.
  intros Hm He Hf t. destruct (Hm t) as (cs & Ht & HQ). unfold mbind, tm_bind.
  destruct (m t) as [[a|e] t1]; cbn in *; [|by eauto].
  destruct (Hf a cs HQ t1) as (cs' & Ht' & HR).
  exists (cs ++ cs'). by rewrite Ht' Ht app_assoc.
Qed.

Lemma appends_ret {A} (r : Result A CcbdError) (Q : Result A CcbdError → list TmuxCommand → Prop) :
  Q r [] → appends (tm_of_result r) Q.
Proof. intros HQ t. exists []. by rewrite app_nil_r. Qed.

Lemma appends_mret {A} (a : A) (Q : Result A CcbdError → list TmuxCommand → Prop) :
  Q (Ok a) [] → appends (mret a) Q.
Proof. apply appends_ret. Qed.

Lemma appends_try {A} (m : Tm (T := T) A) (Q : Result A CcbdError → list TmuxCommand → Prop)
    (R : Result (Result A CcbdError) CcbdError → list TmuxCommand → Prop) :
  appends m Q → (∀ r cs, Q r cs → R (Ok r) cs) → appends (tm_try m) R.
Proof.
  intros Hm HR t. destruct (Hm t) as (cs & Ht & HQ). exists cs. unfold tm_try.
  destruct (m t); cbn in *; eauto.
Qed.

Lemma appends_weaken {A} (m : Tm (T := T) A) (Q R : Result A CcbdError → list TmuxCommand → Prop) :
  appends m Q → (∀ r cs, Q r cs → R r cs) → appends m R.
Proof. intros Hm HR t. destruct (Hm t) as (cs & ? & ?); eauto. Qed.

(** One command, whatever it answers. *)
Definition tmux_cmd (args : list string) : TmuxCommand :=
  MkTmuxCommand "tmux" (tmux_args server args) None.
Lemma appends_output args : appends (tmux_output server args) (λ _ cs, cs = [tmux_cmd args]).
Proof.
  unfold tmux_output. eapply appends_bind; [by apply (appends_run _ (λ _ cs, cs = [tmux_cmd args]))|done|].
  intros r ? ->. by apply appends_ret.
Qed.
Lemma appends_tmux args : appends (tmux_run server args) (λ _ cs, cs = [tmux_cmd args]).
Proof.
  unfold tmux_run. eapply appends_bind; [apply appends_output|done|]. intros _ ? ->. by apply appends_mret.
Qed.

Lemma appends_tried args :
  appends (tm_try (tmux_run server args))
    (λ r cs, cs = [tmux_cmd args] ∧ ∃ r', r = Ok r').
Proof. eapply appends_try; [apply appends_tmux|]. eauto. Qed.

Definition load_cmd (buffer text : string) : TmuxCommand :=
  MkTmuxCommand "tmux" (tmux_args server ["load-buffer"; "-b"; buffer; "-"]) (Some text).
Lemma appends_load buffer text :
  appends (load_buffer_sync server buffer text) (λ _ cs, cs = [load_cmd buffer text]).
Proof.
  unfold load_buffer_sync. eapply appends_bind;
    [by apply (appends_run _ (λ _ cs, cs = [load_cmd buffer text]))|done|].
  intros r ? ->. eapply appends_bind; [by apply (appends_ret _ (λ _ cs, cs = []))|by intros ? ? ->|].
  intros _ ? ->. by apply appends_mret.
Qed.

Definition paste_cmd (pane buffer : string) : TmuxCommand :=
  tmux_cmd ["paste-buffer"; "-p"; "-t"; pane; "-b"; buffer].
Definition delete_cmd (buffer : string) : TmuxCommand := tmux_cmd ["delete-buffer"; "-b"; buffer].
Definition enter_cmd (pane : string) : TmuxCommand := tmux_cmd ["send-keys"; "-t"; pane; "Enter"].

Definition enters (second_enter press : bool) (pane : string) : list TmuxCommand :=
  if press then enter_cmd pane :: (if second_enter then [enter_cmd pane] else []) else [].

Lemma appends_enters second_enter press pane :
  appends (if press then send_enter_sync server pane;;
                         if second_enter then send_enter_sync server pane else mret tt
           else mret tt : Tm unit)
    (λ r cs, ∃ n, cs = take n (enters second_enter press pane) ∧
       (r = Ok tt → take n (enters second_enter press pane) = enters second_enter press pane)).
Proof.
  destruct press; [|by apply appends_mret; exists O].
  eapply appends_bind; [apply appends_tmux|by intros e ? ->; exists 1%nat; destruct second_enter|].
  intros _ ? ->. destruct second_enter.
  - eapply appends_weaken; [apply appends_tmux|]. intros r ? ->. by exists 2%nat.
  - apply appends_mret. by exists 1%nat.
Qed.

Lemma appends_at {A} (m : Tm (T := T) A) Q t r t' :
  appends m Q → m t = (r, t') → ∃ cs, t'.(tm_trace) = t.(tm_trace) ++ cs ∧ Q r cs.
Proof. intros Hm Hrun. specialize (Hm t). by rewrite Hrun in Hm. Qed.

(** C35: a prompt is pasted whole and at most once.  A prompt that is not a slash
    command is loaded into the agent's own buffer.  If that fails nothing else is
    run and the call fails with its error.  If it succeeds, the buffer is pasted
    into the agent's pane and deleted, whatever these two answer; if the paste
    failed nothing more is run, so nothing is submitted, and the call fails with
    its error; and otherwise a prefix of the Enters asked for is run, all of them
    when the call succeeds. *)
Theorem prompt_is_pasted_once second_enter agent_id pane text press (t : TmuxTerminal T) :
  is_single_line_slash_command text = false →
  let buffer := buffer_name_of agent_id in
  let enters := enters second_enter press pane in
  let pasted := [load_cmd buffer text; paste_cmd pane buffer; delete_cmd buffer] in
  let '(r, t') := send_text_to_pane_with_options second_enter agent_id pane text press t in
  let '(loaded, t1) := load_buffer_sync server buffer text t in
  match loaded with
  | Err e => r = Err e ∧ t'.(tm_trace) = t.(tm_trace) ++ [load_cmd buffer text]
  | Ok _ =>
      match (paste_buffer_sync server pane buffer t1).1 with
      | Err e => r = Err e ∧ t'.(tm_trace) = t.(tm_trace) ++ pasted
      | Ok _ => ∃ n, t'.(tm_trace) = t.(tm_trace) ++ pasted ++ take n enters ∧
                  (r = Ok tt → take n enters = enters)
      end
  end.
Proof.
  intros Hs buffer enters pasted. unfold send_text_to_pane_with_options. rewrite Hs. fold buffer.
  cbv zeta. unfold mbind at 1, tm_bind at 1.
  destruct (load_buffer_sync server buffer text t) as [loaded t1] eqn:Hload.
  destruct (appends_at _ _ _ _ _ (appends_load buffer text) Hload) as (? & Ht1 & ->).
  destruct loaded as [u|e]; [|by split]. unfold mbind at 1, tm_bind at 1, tm_try at 1.
  destruct (paste_buffer_sync server pane buffer t1) as [paste t2] eqn:Hpaste.
  destruct (appends_at _ _ _ _ _ (appends_tmux _) Hpaste) as (? & Ht2 & ->).
  unfold mbind at 1, tm_bind at 1, tm_try at 1.
  destruct (delete_buffer_sync server buffer t2) as [deleted t3] eqn:Hdelete.
  destruct (appends_at _ _ _ _ _ (appends_tmux _) Hdelete) as (? & Ht3 & ->).
  assert (t3.(tm_trace) = t.(tm_trace) ++ pasted) as Hpasted by (by rewrite Ht3 Ht2 Ht1 -!app_assoc).
  cbn [fst]. destruct paste as [[]|e]; [|by split].
  change (tm_of_result (Ok tt) ≫= ?k) with (k tt). cbv beta.
  destruct (appends_enters second_enter press pane t3) as (cs & Ht' & n & -> & Hn).
  revert Ht' Hn. lazymatch goal with |- context [let '(_, _) := ?m in _] => destruct m as [r t'] end.
  intros Ht' Hn. exists n. cbn [fst snd] in Ht', Hn.
  by rewrite Ht' Hpasted -app_assoc.
Qed.

End Writer.
