(* ===== verification/Orchestrator.v ===== *)
(** * The dispatcher ([src/src/orchestrator/mod.rs])

    One pass of the orchestrator gives each agent with queued jobs a turn: if the
    agent is idle and nothing on its screen is in the way, its oldest queued job is
    dispatched and typed into its pane.  Between any two steps of a turn the other
    tasks of the daemon run: [others] says what they do to the tables and to the
    runtime, and may be anything. *)
From S2P Require Import Prelude Json Schema Sql MasterTables JobGate Invariant AgentGate Text ReplyText.
From S2P Require Import Providers Jobs Completion Evidence StateMachine Events Agents.
From S2P Require Import JobsProofs StateMachineProofs LogReader LogMonitor HealthCheck.
From S2P Require Import PromptCases PromptRunner PromptStore PromptIntegration Tmux AgentIo.

(** ** The runtime *)

(** Tasks that were started. *)
Inductive SpawnedTask : Type :=
| DispatchRetry
| AckStability (agent_id : string)
| BusyTimer (agent_id : string)
| CaptureSeed (agent_id capture_baseline : string)
| LogMonitorTask (agent_id provider : string) (log_root : Path) (state : LogReadState) (channel : nat).

Record DaemonRuntime (T : Type) : Type := MkDaemonRuntime {
  rt_panes : PaneMap;
  rt_parsers : gset string;
  rt_monitors : LogMonitors;
  rt_scan : ScanEnv (T := TmuxTerminal T);
  rt_spawned : list SpawnedTask
}.
Arguments MkDaemonRuntime {T} _ _ _ _ _.
Arguments rt_panes {T} _.
Arguments rt_parsers {T} _.
Arguments rt_monitors {T} _.
Arguments rt_scan {T} _.
Arguments rt_spawned {T} _.

Definition rt_terminal {T} (rt : DaemonRuntime T) : TmuxTerminal T := rt.(rt_scan).(se_run).(rs_term).

Inductive DispatchReadiness : Type :=
| Ready
| Deferred (reason : string) (retry : bool).
Inductive DispatchGuardOutcome : Type :=
| Permit
| Refuse (retry : bool).

Definition dispatch_send_error_is_pane_missing `{!Externals} (err : CcbdError) : bool :=
  match err with
  | TmuxCommandFailed _ stderr _ =>
      contains stderr "can't find pane" || contains stderr "can't find window"
  | _ => contains (error_to_string err) "can't find pane"
  end.

Definition dispatch_guard_scan_permits_dispatch (result : Result PromptScanDisposition CcbdError) : bool :=
  match result with
  | Ok (ScanNoActionNeeded _) => true
  | _ => false
  end.

Section Orchestrator.
Context {EXT : Externals} {PX : PromptExternals} {CC : CharClass} {KC : KbCodec} {RX : RegexCaptures}.
Context {T : Type} {TX : TmuxExec T}.

(** The rest of the context of the daemon. *)
Record Ctx : Type := MkCtx {
  cx_server : TmuxServer;
  cx_unsafe_no_sandbox : bool;
  cx_home_root : string → string → option Path;
  cx_read_dir : Path → ReadDir;
  cx_tree : Path → option FsNode;
  cx_llm : string → string → string → Result LlmOutcome LlmError;
  cx_env_threshold : option string;
  cx_second_enter : bool;
  cx_faults : KbFaults;
  (** how many times an agent without a job is asked before its turn is given up *)
  cx_patience : nat
}.
Variable cx : Ctx.

(** What the other tasks do before the step with this number. *)
Variable others : nat → DaemonRuntime T → World → DaemonRuntime T * World.

(** ** Steps *)

Definition R (A : Type) : Type := DaemonRuntime T → World → Result A HealthStop * DaemonRuntime T * World.

#[local] Instance R_ret : MRet R := λ A a rt w, (Ok a, rt, w).
#[local] Instance R_bind : MBind R := λ A B f m rt w,
  match m rt w with
  | (Ok a, rt', w') => f a rt' w'
  | (Err e, rt', w') => (Err e, rt', w')
  end.

Definition r_throw {A} (e : HealthStop) : R A := λ rt w, (Err e, rt, w).
(** A step of the database, whose error ends the pass. *)
Definition on_db {A} (m : M CcbdError A) : R A := λ rt w,
  let '(r, w') := m w in
  (match r with Ok a => Ok a | Err e => Err (Raised e) end, rt, w').
(** The same with the error as a value. *)
Definition try_db {A} (m : M CcbdError A) : R (Result A CcbdError) := λ rt w,
  let '(r, w') := m w in (Ok r, rt, w').
Definition get_rt : R (DaemonRuntime T) := λ rt w, (Ok rt, rt, w).
Definition modify_rt (f : DaemonRuntime T → DaemonRuntime T) : R unit := λ rt w, (Ok tt, f rt, w).
Definition interleave (point : nat) : R unit := λ rt w,
  let '(rt', w') := others point rt w in (Ok tt, rt', w').

Definition set_rt_panes (p : PaneMap) (rt : DaemonRuntime T) : DaemonRuntime T :=
  MkDaemonRuntime p rt.(rt_parsers) rt.(rt_monitors) rt.(rt_scan) rt.(rt_spawned).
Definition set_rt_monitors (m : LogMonitors) (rt : DaemonRuntime T) : DaemonRuntime T :=
  MkDaemonRuntime rt.(rt_panes) rt.(rt_parsers) m rt.(rt_scan) rt.(rt_spawned).
Definition set_rt_scan (x : ScanEnv) (rt : DaemonRuntime T) : DaemonRuntime T :=
  MkDaemonRuntime rt.(rt_panes) rt.(rt_parsers) rt.(rt_monitors) x rt.(rt_spawned).
Definition set_rt_terminal (t : TmuxTerminal T) (rt : DaemonRuntime T) : DaemonRuntime T :=
  let x := rt.(rt_scan) in
  set_rt_scan (MkScanEnv x.(se_files) (MkRunState t x.(se_run).(rs_sent) x.(se_run).(rs_experience))
                x.(se_prompts)) rt.
Definition spawn (task : SpawnedTask) : R unit :=
  modify_rt (λ rt, MkDaemonRuntime rt.(rt_panes) rt.(rt_parsers) rt.(rt_monitors) rt.(rt_scan)
                     (rt.(rt_spawned) ++ [task])).
Definition on_terminal {A} (m : Tm (T := T) A) : R (Result A CcbdError) := λ rt w,
  let '(r, t) := m (rt_terminal rt) in (Ok r, set_rt_terminal t rt, w).

Definition cancel_monitor (agent_id : string) : R unit :=
  modify_rt (λ rt, set_rt_monitors (cancel agent_id rt.(rt_monitors)) rt).
Definition enable_idle_scan (agent_id : string) (enabled : bool) : R unit :=
  modify_rt (λ rt, set_rt_panes (set_idle_scan_enabled agent_id enabled rt.(rt_panes)) rt).
Definition wake : R unit := on_db wake_up.
Definition schedule_dispatch_retry : R unit := spawn DispatchRetry.

(** ** Queries *)

(** [SELECT DISTINCT agent_id ... ORDER BY created_at, rowid]: an agent stands where
    its first row stands. *)
Definition query_agent_ids_with_queued_jobs_sync : M CcbdError (list string) :=
  gets (λ db, remove_dups (j_agent_id <$> order_by queue_le
          (filter (λ j, j.(j_status) = "QUEUED") (table_rows db.(jobs))))).

(** ** Readiness *)

Fixpoint wait_for_dispatchable_idle (polls : nat) (agent_id : string) : R DispatchReadiness :=
  interleave 0;;
  state ← on_db (query_agent_state_sync agent_id);
  match state with
  | None => mret (Deferred "target_missing" false)
  | Some (state, _) =>
      if state == STATE_IDLE then mret Ready
      else if state is_in [STATE_BUSY; STATE_WAITING_FOR_ACK] then
        interleave 1;;
        job ← on_db (query_dispatched_job_for_agent_sync agent_id);
        match job, polls with
        | Some _, _ => mret (Deferred "target_not_idle" false)
        | None, O => mret (Deferred "target_not_idle" true)
        | None, S polls' => wait_for_dispatchable_idle polls' agent_id
        end
      else mret (Deferred "target_not_idle" false)
  end.

Definition wait_for_pre_send_dispatchable (agent_id job_id : string) : R DispatchReadiness :=
  interleave 2;;
  state ← on_db (query_agent_state_sync agent_id);
  match state with
  | None => mret (Deferred "target_missing" false)
  | Some (state, _) =>
      if state != STATE_WAITING_FOR_ACK then mret (Deferred "target_not_waiting_for_ack" false)
      else
      interleave 3;;
      dispatched ← on_db (query_dispatched_job_for_agent_sync agent_id);
      match dispatched with
      | Some job => if job.(j_id) == job_id then mret Ready
                    else mret (Deferred "current_job_not_dispatched" false)
      | None => mret (Deferred "current_job_not_dispatched" false)
      end
  end.

Definition emit_dispatch_deferred (agent_id reason : string) : R unit :=
  interleave 4;;
  on_db (insert_event agent_id None "dispatch_deferred"
           (json_to_string (json_object [("reason", JString reason)])));;
  mret tt.

Definition dispatch_queued_job (agent_id : string) : R (option DispatchedJob) :=
  interleave 5;;
  on_db (dispatch_job_to_agent agent_id [STATE_IDLE] STATE_WAITING_FOR_ACK "command_received"
           (json_object [("status", JString "SENT")])).

(** ** The screen *)

Definition pane_of (agent_id : string) : R (option string) :=
  rt ← get_rt; mret (pane_id agent_id rt.(rt_panes)).

Definition run_dispatch_guard (agent_id provider pane : string) : R DispatchGuardOutcome :=
  if negb (is_prompt_handling_provider provider) then mret Permit
  else
  match try_get_manifest provider with
  | None => r_throw (UnknownProviderPanic provider)
  | Some manifest =>
      interleave 6;;
      rt ← get_rt;
      '(outcome, x) ← on_db (run_prompt_scan (λ _, tmux_prompt_io cx.(cx_server) pane) cx.(cx_llm)
         cx.(cx_faults) (MkPromptScanRequest agent_id provider (from_manifest manifest) 3 DispatchGuard)
         rt.(rt_scan));
      modify_rt (set_rt_scan x);;
      interleave 7;;
      rt ← get_rt;
      result ← (match outcome with
                | Err e => mret (Err e)
                | Ok outcome =>
                    '(disposition, prompts) ← on_db (apply_prompt_outcome cx.(cx_env_threshold)
                       agent_id provider outcome rt.(rt_scan).(se_prompts));
                    modify_rt (λ rt, set_rt_scan (set_prompts prompts rt.(rt_scan)) rt);;
                    mret disposition
                end : R (Result PromptScanDisposition CcbdError));
      let retry := match result with Ok (ScanHandled _) => true | _ => false end in
      mret (if dispatch_guard_scan_permits_dispatch result then Permit else Refuse retry)
  end.

Definition resolve_current_dispatch_pane (agent_id pane : string) : R string :=
  interleave 8;;
  panes ← on_terminal (list_panes_sync cx.(cx_server) (agent_session_name agent_id));
  match panes with
  | Err _ => mret pane
  | Ok panes =>
      if pane is_in panes then mret pane
      else match panes with
      | [refreshed] =>
          interleave 19;;
          agent ← on_db (query_agent_sync agent_id);
          match agent ≫= a_pid with
          | None => mret pane
          | Some expected_pid =>
              interleave 20;;
              actual ← on_terminal (get_pane_pid_sync cx.(cx_server) refreshed);
              match actual with
              | Err _ => mret pane
              | Ok actual_pid =>
                  if actual_pid =? expected_pid then
                    modify_rt (λ rt, set_rt_panes (update_pane_id agent_id refreshed rt.(rt_panes)).2 rt);;
                    mret refreshed
                  else mret pane
              end
          end
      | _ => mret pane
      end
  end.

(** ** The log monitor *)

Definition prepare_log_monitor_before_send (session_id agent_id provider : string) : R bool :=
  match resolve_agent_log_root (cx.(cx_home_root) session_id agent_id) cx.(cx_read_dir) provider
          cx.(cx_unsafe_no_sandbox) with
  | Unavailable _ => mret false
  | Available root =>
      match collect_provider_log_cursors provider root (cx.(cx_tree) root) with
      | Err _ => mret false
      | Ok cursors =>
          rt ← get_rt;
          let initial_state := from_cursors cursors in
          let channel := length rt.(rt_spawned) in
          modify_rt (λ rt, set_rt_monitors (register agent_id
            (MkLogMonitorEntry provider root initial_state channel) rt.(rt_monitors)) rt);;
          spawn (LogMonitorTask agent_id provider root initial_state channel);;
          mret true
      end
  end.

(** ** Failure *)

Definition mark_dispatch_io_failed (agent_id reason : string) : R unit :=
  try_db (transit_agent_state agent_id [STATE_WAITING_FOR_ACK] STATE_STUCK (Some reason));;
  mret tt.

(** A job that cannot be typed at all. *)
Definition fail_unreachable (agent_id reason : string) : R bool :=
  dispatched ← dispatch_queued_job agent_id;
  match dispatched with
  | None => mret false
  | Some dispatched =>
      interleave 9;;
      mark_dispatch_io_failed agent_id reason;;
      interleave 10;;
      try_db (mark_job_failed dispatched.(dj_job).(j_id) reason);;
      wake;;
      mret true
  end.

Definition stale_dispatch_failure_already_requeued (job : Job) : R bool :=
  interleave 11;;
  current ← on_db (query_job_sync job.(j_id));
  match current with
  | None => mret false
  | Some current =>
      mret ((current.(j_agent_id) == job.(j_agent_id)) && (current.(j_status) == "QUEUED") &&
            bool_decide (is_Some (recovery_requeued_attempt current.(j_error_reason))))
  end.

Definition maybe_requeue_recovered_pane_missing_dispatch (agent_id : string) (job : Job)
    (pane : string) (err : CcbdError) : R bool :=
  if negb (dispatch_send_error_is_pane_missing err) then mret false
  else match recovery_requeued_attempt job.(j_error_reason) with
  | None => mret false
  | Some attempt =>
      if RECOVERY_REQUEUED_MAX_STALE_PANE_RETRIES <=? attempt then mret false
      else
      interleave 12;;
      changed ← on_db (requeue_recovered_dispatch_io_failure job.(j_id) agent_id (attempt + 1)
        ("send failed on stale pane " +:+ pane +:+ ": " +:+ error_to_string err));
      mret (changed != 0%nat)
  end.

(** The job was dispatched but is not to be typed now. *)
Definition requeue_unsent (agent_id : string) (job : Job) (reason : string) : R unit :=
  cancel_monitor agent_id;;
  enable_idle_scan agent_id true;;
  interleave 13;;
  on_db (requeue_dispatched_job_before_send job.(j_id) agent_id reason);;
  mret tt.

Definition after_send_failure (agent_id : string) (job : Job) (pane : string) (err : CcbdError) :
    R unit :=
  cancel_monitor agent_id;;
  stale ← stale_dispatch_failure_already_requeued job;
  if (stale : bool) then wake
  else
  requeued ← maybe_requeue_recovered_pane_missing_dispatch agent_id job pane err;
  if (requeued : bool) then mret tt
  else
  let reason := "send failed: " +:+ error_to_string err in
  interleave 14;;
  mark_dispatch_io_failed agent_id reason;;
  interleave 15;;
  try_db (mark_job_failed job.(j_id) reason);;
  wake.

(** ** A turn *)

Definition after_send (agent : Agent) (job : Job) (capture_baseline : option string) : R unit :=
  (if bool_decide (is_Some (recovery_requeued_attempt job.(j_error_reason)))
   then interleave 16;; try_db (clear_recovered_dispatch_marker job.(j_id));; mret tt else mret tt);;
  spawn (AckStability agent.(a_id));;
  rt ← get_rt;
  if bool_decide (agent.(a_id) ∈ rt.(rt_parsers)) then
    match try_get_manifest agent.(a_provider) with
    | None => r_throw (UnknownProviderPanic agent.(a_provider))
    | Some _ =>
        spawn (BusyTimer agent.(a_id));;
        match capture_baseline with
        | Some baseline => spawn (CaptureSeed agent.(a_id) baseline)
        | None => mret tt
        end
    end
  else mret tt.

Definition press_enter_after_paste (agent : Agent) (job : Job) : bool :=
  negb ((agent.(a_provider) == "antigravity") && ends_with job.(j_prompt_text) (byte_str 10)).

Definition send_prompt (agent : Agent) (job : Job) (pane : string) (capture_baseline : option string) :
    R unit :=
  interleave 22;;
  sent ← on_terminal (send_text_to_pane_with_options cx.(cx_server) cx.(cx_second_enter) agent.(a_id)
           pane job.(j_prompt_text) (press_enter_after_paste agent job));
  match sent with
  | Err err => after_send_failure agent.(a_id) job pane err
  | Ok _ => after_send agent job capture_baseline
  end.

(** From the dispatch on: did the turn do something? *)
Definition dispatch_and_send (agent : Agent) (pane : string) : R bool :=
  dispatched ← dispatch_queued_job agent.(a_id);
  match dispatched with
  | None => mret false
  | Some dispatched =>
      let job := dispatched.(dj_job) in
      enable_idle_scan agent.(a_id) false;;
      interleave 21;;
      captured ← on_terminal (capture_pane_sync cx.(cx_server) pane);
      prepare_log_monitor_before_send agent.(a_session_id) agent.(a_id) agent.(a_provider);;
      ready ← wait_for_pre_send_dispatchable agent.(a_id) job.(j_id);
      match ready with
      | Deferred reason retry =>
          requeue_unsent agent.(a_id) job
            ("dispatch readiness recheck refused before send: " +:+ reason);;
          (if retry then schedule_dispatch_retry else mret tt)
      | Ready =>
          guard ← run_dispatch_guard agent.(a_id) agent.(a_provider) pane;
          match guard with
          | Refuse retry =>
              requeue_unsent agent.(a_id) job "dispatch readiness recheck refused before send";;
              (if retry then wake else mret tt)
          | Permit =>
              send_prompt agent job pane (match captured with Ok c => Some c | Err _ => None end)
          end
      end;;
      mret true
  end.

Definition dispatch_turn (agent_id : string) : R bool :=
  ready ← wait_for_dispatchable_idle cx.(cx_patience) agent_id;
  match ready with
  | Deferred reason retry =>
      emit_dispatch_deferred agent_id reason;;
      (if retry then schedule_dispatch_retry else mret tt);;
      mret true
  | Ready =>
  interleave 17;;
  agent ← on_db (query_agent_sync agent_id);
  match agent with
  | None => emit_dispatch_deferred agent_id "target_missing";; mret true
  | Some agent =>
  interleave 18;;
  queued ← on_db (has_queued_job_sync agent.(a_id));
  if negb queued then mret false
  else
  registered ← pane_of agent.(a_id);
  match registered with
  | None => fail_unreachable agent.(a_id) "tmux pane not registered"
  | Some pane =>
  pane ← resolve_current_dispatch_pane agent.(a_id) pane;
  rt ← get_rt;
  if negb (bool_decide (agent.(a_id) ∈ rt.(rt_parsers)))
  then fail_unreachable agent.(a_id) "parser not registered"
  else
  guard ← run_dispatch_guard agent.(a_id) agent.(a_provider) pane;
  match guard with
  | Refuse retry => (if retry then wake else mret tt);; mret true
  | Permit => dispatch_and_send agent pane
  end
  end
  end
  end.

Fixpoint dispatch_turns (agent_ids : list string) (did_work : bool) : R bool :=
  match agent_ids with
  | [] => mret did_work
  | agent_id :: agent_ids' =>
      worked ← dispatch_turn agent_id;
      dispatch_turns agent_ids' (did_work || worked)
  end.

(** [recovery]: the recovery pass, below. *)
Definition run_once_with_recovery_respawn (recovery : R bool) : R bool :=
  queued_agent_ids ← on_db query_agent_ids_with_queued_jobs_sync;
  did_work ← dispatch_turns queued_agent_ids false;
  recovered ← recovery;
  if (recovered : bool) then wake;; mret true else mret did_work.

(** The task behind [AckStability], once its delay is over. *)
Definition dispatch_ack_stability_busy (agent_id : string) : M CcbdError unit :=
  (try_ (transit_agent_state agent_id [STATE_WAITING_FOR_ACK] STATE_BUSY
          (Some "DISPATCH_ACK_STABLE")) : M CcbdError (Result unit CcbdError));;
  mret tt.

End Orchestrator.
