(* ===== verification/OrchestratorProofs.v ===== *)
(** * What a dispatch turn may do

    The other tasks run between any two steps of a turn.  The record of commands is
    of those of this task; what the others do to the tables stays within [Rel], a
    preorder that may be the trivial one. *)
From S2P Require Import Prelude Json Schema Sql MasterTables JobGate Invariant AgentGate Text ReplyText.
From S2P Require Import Providers Jobs Completion Evidence StateMachine Events Agents.
From S2P Require Import JobsProofs StateMachineProofs LogReader LogMonitor HealthCheck.
From S2P Require Import PromptCases PromptRunner PromptStore PromptIntegration Tmux AgentIo Orchestrator.

(** ** The terminal under the prompt runner *)

Section Runner.
Context {EXT : Externals} {PX : PromptExternals} {CC : CharClass} {T : Type} (io : PromptIo T).
Variables (P : relation T) (P_preorder : PreOrder P).
Hypothesis capture_ok : ∀ t, P t (io.(io_capture) t).2.
Hypothesis literal_ok : ∀ s t, P t (io.(io_literal) s t).2.
Hypothesis keysym_ok : ∀ s t, P t (io.(io_keysym) s t).2.

(** Every run of [m] moves the terminal along [P]. *)
Definition along {A} (m : RunState T → A * RunState T) : Prop :=
  ∀ s, P s.(rs_term) (m s).2.(rs_term).

Lemma along_bind {A B} (m : RunState T → A * RunState T) (f : A → RunState T → B * RunState T) :
  along m → (∀ a, along (f a)) → along (λ s, let '(a, s) := m s in f a s).
Proof.
  intros Hm Hf s. specialize (Hm s). destruct (m s) as [a s1]; cbn in *.
  etrans; [exact Hm|apply Hf].
Qed.
Lemma along_still {A} (m : RunState T → A * RunState T) :
  (∀ s, (m s).2.(rs_term) = s.(rs_term)) → along m.
Proof. intros Hm s. rewrite Hm. reflexivity. Qed.

Lemma along_capture : along (capture_pane io).
Proof.
  intros s. unfold capture_pane. generalize (capture_ok s.(rs_term)). by destruct (io_capture _ _).
Qed.
Lemma along_literal t : along (send_key_literal io t).
Proof.
  intros s. unfold send_key_literal. generalize (literal_ok t s.(rs_term)). by destruct (io_literal _ _ _).
Qed.
Lemma along_keysym k : along (send_key_keysym io k).
Proof.
  intros s. unfold send_key_keysym. generalize (keysym_ok k s.(rs_term)). by destruct (io_keysym _ _ _).
Qed.
#[local] Hint Resolve along_capture along_literal along_keysym : along.

#[local] Ltac along :=
  repeat first
    [ solve [eauto with along]
    | apply along_still; by intros
    | apply along_bind; [|intros ?]
    | match goal with |- along (λ _, match ?x with _ => _ end) => destruct x end ].

Lemma along_actions actions : along (execute_actions io actions).
Proof.
  induction actions as [|a l IH]; cbn [execute_actions]; [along|].
  destruct (validate_action a) as [[]|]; along.
Qed.
#[local] Hint Resolve along_actions : along.

Lemma along_wait provider probe (wanted : bool) n once :
  along (wait_for_probe io provider probe wanted n once).
Proof. revert once. induction n as [|n IH]; intros once; cbn [wait_for_probe]; along. Qed.
#[local] Hint Resolve along_wait : along.

Lemma along_probe provider capture : along (confirm_can_input io provider capture).
Proof. unfold confirm_can_input, wait_for_probe_echo, wait_for_probe_cleanup. cbv zeta. along. Qed.
#[local] Hint Resolve along_probe : along.

Lemma along_llm ctx capture text : along (try_llm_slow_path ctx capture text).
Proof. apply along_still. intros s. unfold try_llm_slow_path. by repeat case_match. Qed.
Lemma along_classify ctx prev capture : along (classify_capture ctx prev capture).
Proof. apply along_still. intros s. unfold classify_capture. by repeat case_match. Qed.
#[local] Hint Resolve along_llm along_classify : along.

Lemma along_act max_depth ch actions snapshot : along (act io max_depth ch actions snapshot).
Proof. unfold act. along. Qed.
#[local] Hint Resolve along_act : along.

Lemma along_turn ctx max_depth ch : along (chain_turn io ctx max_depth ch).
Proof.
  unfold chain_turn, skip_turn, known_turn, unknown_turn. cbv zeta. along.
Qed.
#[local] Hint Resolve along_turn : along.

Lemma along_chain ctx max_depth : along (handle_prompt_chain io ctx max_depth).
Proof.
  unfold handle_prompt_chain. generalize chain_start.
  induction (max_turns max_depth) as [|n IH]; intros ch; cbn [chain_loop]; along.
Qed.

End Runner.

(** ** Steps of the dispatcher *)

(** Commands that carry no text of a prompt. *)
Definition quiet (cs : list TmuxCommand) : Prop := Forall (λ c, c.(tc_stdin) = None) cs.

(** The texts that were loaded to be pasted. *)
Definition pasted (cs : list TmuxCommand) : list string := omap tc_stdin cs.
Lemma quiet_pasted cs : quiet cs → pasted cs = [].
Proof. induction 1 as [|c cs Hc _ IH]; [done|]. unfold pasted in *. cbn. by rewrite Hc. Qed.
Lemma pasted_app cs cs' : pasted (cs ++ cs') = pasted cs ++ pasted cs'.
Proof. apply omap_app. Qed.

Lemma quiet_app cs cs' : quiet cs → quiet cs' → quiet (cs ++ cs').
Proof. apply Forall_app_2. Qed.

Section Steps.
Context {EXT : Externals} {PX : PromptExternals} {CC : CharClass} {KC : KbCodec} {RX : RegexCaptures}.
Context {T : Type} {TX : TmuxExec T}.
Variables (cx : Ctx) (others : nat → DaemonRuntime T → World → DaemonRuntime T * World).
Variables (Rel : relation Db) (Rel_preorder : PreOrder Rel) (Rel_sound : subrelation sound Rel).
Hypothesis others_rel : ∀ p rt w, Rel w.(w_db) (others p rt w).2.(w_db).
Hypothesis others_trace : ∀ p rt w,
  tm_trace (rt_terminal (others p rt w).1) = tm_trace (rt_terminal rt).

#[local] Existing Instances R_ret R_bind.

(** Every run of [m] from [w] ends, with the commands it ran, as [Q] says. *)
Definition runs {A} (w : World) (m : R (T := T) A)
    (Q : Result A HealthStop → World → list TmuxCommand → Prop) : Prop :=
  ∀ rt, ∃ cs, tm_trace (rt_terminal (m rt w).1.2) = tm_trace (rt_terminal rt) ++ cs ∧
    Q (m rt w).1.1 (m rt w).2 cs.

Lemma runs_bind {A B} w (m : R A) (f : A → R B) Q S :
  runs w m Q → (∀ e w1 cs, Q (Err e) w1 cs → S (Err e) w1 cs) →
  (∀ a w1 cs, Q (Ok a) w1 cs → runs w1 (f a) (λ r w2 cs', S r w2 (cs ++ cs'))) →
  runs w (m ≫= f) S.
Proof.
  intros Hm He Hf rt. destruct (Hm rt) as (cs & Ht & HQ). unfold mbind, R_bind.
  destruct (m rt w) as [[[a|e] rt1] w1]; cbn in *; [|by eauto].
  destruct (Hf a w1 cs HQ rt1) as (cs' & Ht' & HS).
  exists (cs ++ cs'). by rewrite Ht' Ht app_assoc.
Qed.

Lemma runs_weaken {A} w (m : R A) Q S :
  runs w m Q → (∀ r w1 cs, Q r w1 cs → S r w1 cs) → runs w m S.
Proof. intros Hm HS rt. destruct (Hm rt) as (cs & ? & ?); eauto. Qed.

Lemma runs_ret {A} w (a : A) (Q : Result A HealthStop → World → list TmuxCommand → Prop) :
  Q (Ok a) w [] → runs w (mret a) Q.
Proof. intros HQ rt. exists []. by rewrite app_nil_r. Qed.

Lemma runs_assoc {A B C} w (m : R A) (f : A → R B) (g : B → R C) Q :
  runs w ((m ≫= f) ≫= g) Q → runs w (m ≫= λ a, f a ≫= g) Q.
Proof.
  assert (∀ rt, ((m ≫= f) ≫= g) rt w = (m ≫= λ a, f a ≫= g) rt w) as E.
  { intros rt. unfold mbind, R_bind. by destruct (m rt w) as [[[a|e] rt1] w1]. }
  intros H rt. rewrite -E. apply H.
Qed.

(** A step that keeps to [Rel] and types no prompt. *)
Definition calm {A} (m : R (T := T) A) : Prop :=
  ∀ w, runs w m (λ _ w' cs, Rel w.(w_db) w'.(w_db) ∧ quiet cs).

(** Without commands of its own. *)
Lemma calm_still {A} (m : R A) :
  (∀ rt w, tm_trace (rt_terminal (m rt w).1.2) = tm_trace (rt_terminal rt) ∧
     Rel w.(w_db) (m rt w).2.(w_db)) → calm m.
Proof.
  intros Hm w rt. destruct (Hm rt w) as [Ht Hr]. exists []. rewrite Ht app_nil_r.
  split_and!; [done|done|constructor].
Qed.

Lemma calm_ret {A} (a : A) : calm (mret a).
Proof. apply calm_still. by intros. Qed.
Lemma calm_throw {A} e : calm (r_throw e : R A).
Proof. apply calm_still. by intros. Qed.
Lemma calm_bind {A B} (m : R A) (f : A → R B) : calm m → (∀ a, calm (f a)) → calm (m ≫= f).
Proof.
  intros Hm Hf w. eapply runs_bind; [apply Hm|done|]. intros a w1 cs [Hs Hq].
  eapply runs_weaken; [apply Hf|]. intros r w2 cs' [Hs' Hq'].
  split; [by etrans|by apply quiet_app].
Qed.
Lemma calm_interleave p : calm (interleave others p).
Proof.
  apply calm_still. intros rt w. unfold interleave.
  generalize (others_rel p rt w) (others_trace p rt w). by destruct (others p rt w).
Qed.
Lemma calm_on_db {A} (m : M CcbdError A) : respects sound m → calm (on_db m).
Proof.
  intros Hm. apply calm_still. intros rt w. unfold on_db. generalize (Hm w).
  destruct (m w) as [r w']. cbn. auto.
Qed.
Lemma calm_try_db {A} (m : M CcbdError A) : respects sound m → calm (try_db m).
Proof.
  intros Hm. apply calm_still. intros rt w. unfold try_db. generalize (Hm w).
  destruct (m w) as [r w']. cbn. auto.
Qed.
Lemma calm_get_rt : calm get_rt.
Proof. apply calm_still. by intros. Qed.
Lemma calm_modify f : (∀ rt : DaemonRuntime T, rt_terminal (f rt) = rt_terminal rt) → calm (modify_rt f).
Proof. intros Hf. apply calm_still. intros rt w. by rewrite /= Hf. Qed.
Lemma calm_on_terminal {A} (m : Tm (T := T) A) :
  appends m (λ _ cs, quiet cs) → calm (on_terminal m).
Proof.
  intros Hm w rt. destruct (Hm (rt_terminal rt)) as (cs & Ht & Hq). exists cs. unfold on_terminal.
  destruct (m (rt_terminal rt)) as [r t]; cbn in *. by split_and!.
Qed.

(** ** TmuxTerminal commands *)

Lemma quiet_output args : appends (T := T) (tmux_output cx.(cx_server) args) (λ _ cs, quiet cs).
Proof.
  eapply appends_weaken; [apply appends_output|]. intros ? ? ->. by constructor.
Qed.
Lemma quiet_run args : appends (T := T) (tmux_run cx.(cx_server) args) (λ _ cs, quiet cs).
Proof. eapply appends_weaken; [apply appends_tmux|]. intros ? ? ->. by constructor. Qed.

Lemma quiet_bind {A B} (m : Tm (T := T) A) (f : A → Tm B) :
  appends m (λ _ cs, quiet cs) → (∀ a, appends (f a) (λ _ cs, quiet cs)) →
  appends (m ≫= f) (λ _ cs, quiet cs).
Proof.
  intros Hm Hf. eapply appends_bind; [exact Hm|done|]. intros a cs Hq.
  eapply appends_weaken; [apply Hf|]. intros r cs' Hq'. by apply quiet_app.
Qed.
Lemma quiet_of_result {A} (r : Result A CcbdError) :
  appends (T := T) (tm_of_result r) (λ _ cs, quiet cs).
Proof. apply appends_ret. constructor. Qed.

Lemma quiet_capture pane : appends (T := T) (capture_pane_sync cx.(cx_server) pane) (λ _ cs, quiet cs).
Proof. apply quiet_output. Qed.
Lemma quiet_list_panes target :
  appends (T := T) (list_panes_sync cx.(cx_server) target) (λ _ cs, quiet cs).
Proof. apply quiet_bind; [apply quiet_output|]. intros stdout. apply quiet_of_result. Qed.
Lemma quiet_pane_pid pane : appends (T := T) (get_pane_pid_sync cx.(cx_server) pane) (λ _ cs, quiet cs).
Proof.
  apply quiet_bind; [apply quiet_output|]. intros stdout. case_match; apply quiet_of_result.
Qed.

(** ** The guard *)

(** Only commands that carry no prompt were added. *)
Definition adds_quiet (t t' : TmuxTerminal T) : Prop :=
  ∃ cs, t'.(tm_trace) = t.(tm_trace) ++ cs ∧ quiet cs.
#[local] Instance adds_quiet_preorder : PreOrder adds_quiet.
Proof.
  split.
  - intros t. exists []. by rewrite app_nil_r; split; [|constructor].
  - intros t1 t2 t3 (cs & H1 & ?) (cs' & H2 & ?). exists (cs ++ cs').
    rewrite H2 H1 app_assoc. split; [done|by apply quiet_app].
Qed.
Lemma appends_adds {A} (m : Tm (T := T) A) t :
  appends m (λ _ cs, quiet cs) → adds_quiet t (m t).2.
Proof. intros Hm. destruct (Hm t) as (cs & Ht & Hq). by exists cs. Qed.

Lemma scan_quiet pane flt request x w :
  ∃ o x', run_prompt_scan (λ _, tmux_prompt_io cx.(cx_server) pane) cx.(cx_llm) flt request x w =
    (Ok (o, x'), w) ∧ adds_quiet x.(se_run).(rs_term) x'.(se_run).(rs_term).
Proof.
  unfold run_prompt_scan. destruct (load_or_bootstrap_kb flt x.(se_files)) as [[kb|e] files]; cycle 1.
  { eexists _, _. split; [reflexivity|]. reflexivity. }
  unfold query_agent_state, try_, mbind, M_bind, gets, asks. cbn -[handle_prompt_chain].
  destruct (w.(w_db).(agents) !! _) as [a|]; cbn -[handle_prompt_chain]; cycle 1.
  { eexists _, _. split; [reflexivity|]. reflexivity. }
  set (io := tmux_prompt_io cx.(cx_server) pane). set (ctx := MkRunnerContext _ _ _ _ _ _ _).
  pose proof (along_chain io adds_quiet _ (λ t, appends_adds _ t (quiet_capture pane))
    (λ s t, appends_adds _ t (quiet_run _)) (λ s t, appends_adds _ t (quiet_run _))
    ctx request.(sr_max_depth) x.(se_run)) as Hquiet.
  destruct (handle_prompt_chain io ctx request.(sr_max_depth) x.(se_run)) as [o run].
  eexists _, _. split; [reflexivity|]. exact Hquiet.
Qed.

Lemma calm_scan {B} pane flt request (k : Result PromptRunOutcome CcbdError → R (T := T) B) :
  (∀ o, calm (k o)) →
  calm (rt ← get_rt;
        '(outcome, x) ← on_db (run_prompt_scan (λ _, tmux_prompt_io cx.(cx_server) pane) cx.(cx_llm)
           flt request rt.(rt_scan));
        modify_rt (set_rt_scan x);; k outcome).
Proof.
  intros Hk w rt.
  destruct (scan_quiet pane flt request rt.(rt_scan) w) as (o & x' & Hrun & cs & Ht & Hq).
  destruct (Hk o w (set_rt_scan x' rt)) as (cs' & Ht' & HR & Hq').
  assert (∀ m : R B, m rt w = k o (set_rt_scan x' rt) w →
    ∃ cs, tm_trace (rt_terminal (m rt w).1.2) = tm_trace (rt_terminal rt) ++ cs ∧
      Rel w.(w_db) (m rt w).2.(w_db) ∧ quiet cs) as Hm.
  { intros m ->. exists (cs ++ cs'). rewrite Ht'. split_and!; [|exact HR|by apply quiet_app].
    unfold rt_terminal at 1. cbn. by rewrite Ht app_assoc. }
  apply Hm. unfold mbind, R_bind, get_rt, on_db, modify_rt. by rewrite Hrun.
Qed.

(** ** The parts of a turn *)

#[local] Hint Resolve calm_ret calm_throw calm_interleave calm_get_rt : calm.
#[local] Hint Resolve quiet_capture quiet_list_panes quiet_pane_pid : calm.

#[local] Ltac sound_step :=
  unfold query_agent_state_sync, query_dispatched_job_for_agent_sync, query_agent_sync,
    query_agent_row, has_queued_job_sync, query_job_sync, wake_up;
  solve_respects; eauto with respects.

#[local] Ltac calm :=
  repeat first
    [ solve [eauto with calm]
    | apply calm_on_db; solve [sound_step]
    | apply calm_try_db; solve [sound_step]
    | apply calm_on_terminal; solve [eauto with calm]
    | apply calm_modify; done
    | apply calm_bind; [|intros ?]
    | match goal with |- calm (match ?x with _ => _ end) => destruct x end ].

Lemma calm_wait_idle polls agent_id : calm (wait_for_dispatchable_idle others polls agent_id).
Proof. induction polls as [|n IH]; cbn [wait_for_dispatchable_idle]; calm. Qed.

Lemma calm_deferred agent_id reason : calm (emit_dispatch_deferred others agent_id reason).
Proof. unfold emit_dispatch_deferred. calm. Qed.

Lemma calm_dispatch_queued agent_id : calm (dispatch_queued_job others agent_id).
Proof. unfold dispatch_queued_job. calm. Qed.
#[local] Hint Resolve calm_wait_idle calm_deferred calm_dispatch_queued : calm.

Lemma calm_resolve_pane agent_id pane : calm (resolve_current_dispatch_pane cx others agent_id pane).
Proof. unfold resolve_current_dispatch_pane. calm. Qed.

Lemma calm_guard agent_id provider pane : calm (run_dispatch_guard cx others agent_id provider pane).
Proof.
  unfold run_dispatch_guard. destruct (negb _); [calm|]. destruct (try_get_manifest provider); [|calm].
  apply calm_bind; [calm|intros _]. apply calm_scan. intros o. calm.
Qed.

Lemma calm_prepare session_id agent_id provider :
  calm (prepare_log_monitor_before_send cx session_id agent_id provider).
Proof. unfold prepare_log_monitor_before_send, spawn. calm. Qed.
#[local] Hint Resolve calm_resolve_pane calm_guard calm_prepare : calm.

Lemma calm_unreachable agent_id reason : calm (fail_unreachable others agent_id reason).
Proof. unfold fail_unreachable, mark_dispatch_io_failed, wake. calm. Qed.

Lemma calm_requeue_unsent agent_id job reason : calm (requeue_unsent others agent_id job reason).
Proof. unfold requeue_unsent, cancel_monitor, enable_idle_scan. calm. Qed.
#[local] Hint Resolve calm_unreachable calm_requeue_unsent : calm.

Lemma calm_after_failure agent_id job pane err :
  calm (after_send_failure others agent_id job pane err).
Proof.
  unfold after_send_failure, cancel_monitor, stale_dispatch_failure_already_requeued,
    maybe_requeue_recovered_pane_missing_dispatch, mark_dispatch_io_failed, wake. cbv zeta. calm.
Qed.

Lemma calm_after_send agent job baseline : calm (after_send others agent job baseline).
Proof. unfold after_send, spawn. calm. Qed.
#[local] Hint Resolve calm_after_failure calm_after_send : calm.

(** ** Sending *)

Lemma send_text_pasted second_enter agent_id pane text press :
  appends (T := T) (send_text_to_pane_with_options cx.(cx_server) second_enter agent_id pane text press)
    (λ _ cs, pasted cs = [] ∨ pasted cs = [text]).
Proof.
  unfold send_text_to_pane_with_options. destruct (is_single_line_slash_command text).
  - eapply appends_weaken with (Q := λ _ cs, quiet cs); [|intros r cs Hq; left; by apply quiet_pasted].
    unfold send_slash_command_keystroke. apply quiet_bind; [|intros _; apply quiet_run].
    induction (chars text) as [|c l IH]; cbn [type_chars]; [apply quiet_of_result|].
    apply quiet_bind; [apply quiet_run|by intros _].
  - cbv zeta. eapply appends_bind; [apply appends_load|intros ? ? ->; right; reflexivity|]. intros _ ? ->.
    eapply appends_weaken with (Q := λ _ cs, quiet cs).
    2:{ intros r cs Hq. right. by rewrite pasted_app (quiet_pasted _ Hq). }
    assert (∀ args, appends (T := T) (tm_try (tmux_run cx.(cx_server) args)) (λ _ cs, quiet cs)) as Htry.
    { intros args. eapply appends_try; [apply quiet_run|done]. }
    apply quiet_bind; [apply Htry|intros paste]. apply quiet_bind; [apply Htry|intros _].
    apply quiet_bind; [apply quiet_of_result|intros _].
    destruct press; [|apply quiet_of_result]. apply quiet_bind; [apply quiet_run|intros _].
    destruct second_enter; [apply quiet_run|apply quiet_of_result].
Qed.

(** Keeps to [Rel] and pastes nothing but perhaps [text], and that after [S]. *)
Definition at_most (S : World → World → Prop) (text : string) (w w' : World)
    (cs : list TmuxCommand) : Prop :=
  Rel w.(w_db) w'.(w_db) ∧ (pasted cs = [] ∨ pasted cs = [text] ∧ S w w').

(** What was seen stays seen. *)
Definition lasting (S : World → World → Prop) : Prop :=
  ∀ w1 w2 w3 w4, Rel w1.(w_db) w2.(w_db) → S w2 w3 → Rel w3.(w_db) w4.(w_db) → S w1 w4.
Definition always : World → World → Prop := λ _ _, True.
Lemma always_lasting : lasting always.
Proof. done. Qed.

Lemma quiet_at_most S text w w' cs : Rel w.(w_db) w'.(w_db) → quiet cs → at_most S text w w' cs.
Proof. intros ? Hq. split; [done|left; by apply quiet_pasted]. Qed.

Lemma calm_at_most {A} S text w (m : R A) : calm m → runs w m (λ _ w' cs, at_most S text w w' cs).
Proof. intros Hm. eapply runs_weaken; [apply Hm|]. intros r w1 cs [? ?]. by apply quiet_at_most. Qed.

Lemma runs_calm_before {A B} S w (m : R A) (f : A → R (T := T) B) text :
  lasting S → calm m → (∀ a w1, runs w1 (f a) (λ _ w2 cs, at_most S text w1 w2 cs)) →
  runs w (m ≫= f) (λ _ w2 cs, at_most S text w w2 cs).
Proof.
  intros HS Hm Hf. eapply runs_bind; [apply Hm|by intros e w1 cs [? ?]; apply quiet_at_most|].
  intros a w1 cs [? Hq]. eapply runs_weaken; [apply Hf|]. intros r w2 cs' [? Hp].
  split; [by etrans|]. rewrite pasted_app (quiet_pasted _ Hq).
  destruct Hp as [->|[-> ?]]; [by left|right]. split; [done|]. by eapply HS; [| |reflexivity].
Qed.
Lemma runs_calm_after {A B} S w (m : R A) (f : A → R (T := T) B) text :
  lasting S → runs w m (λ _ w1 cs, at_most S text w w1 cs) → (∀ a, calm (f a)) →
  runs w (m ≫= f) (λ _ w2 cs, at_most S text w w2 cs).
Proof.
  intros HS Hm Hf. eapply runs_bind; [apply Hm|done|].
  intros a w1 cs [? Hp]. eapply runs_weaken; [apply Hf|]. intros r w2 cs' [? Hq].
  split; [by etrans|]. rewrite pasted_app (quiet_pasted _ Hq) app_nil_r.
  destruct Hp as [->|[-> Hp]]; [by left|right]. split; [done|]. by eapply HS; [reflexivity| |].
Qed.

Lemma send_prompt_pasted w agent job pane baseline :
  runs w (send_prompt cx others agent job pane baseline)
    (λ _ w' cs, at_most always job.(j_prompt_text) w w' cs).
Proof.
  unfold send_prompt. apply runs_calm_before; [done|apply calm_interleave|intros _ w1].
  apply runs_calm_after; [done| |intros []; eauto with calm].
  intros rt. destruct (send_text_pasted cx.(cx_second_enter) agent.(a_id) pane job.(j_prompt_text)
    (press_enter_after_paste agent job) (rt_terminal rt)) as (cs & Ht & Hp). exists cs.
  unfold on_terminal. destruct (send_text_to_pane_with_options _ _ _ _ _ _ (rt_terminal rt)) as [r t].
  split; [exact Ht|split; [cbn; reflexivity|]]. destruct Hp; [by left|by right].
Qed.

(** The agent was seen waiting, and the job seen to be its dispatched one. *)
Record rechecked (agent_id job_id : string) (w w' : World) : Prop := {
  rk_waiting : ∃ w2 a, Rel w.(w_db) w2.(w_db) ∧ Rel w2.(w_db) w'.(w_db) ∧
    w2.(w_db).(agents) !! agent_id = Some a ∧ a.(a_state) = STATE_WAITING_FOR_ACK;
  rk_current : ∃ w3 j, Rel w.(w_db) w3.(w_db) ∧ Rel w3.(w_db) w'.(w_db) ∧
    current_job agent_id w3.(w_db) = Some j ∧ j.(j_id) = job_id
}.
Lemma rechecked_lasting agent_id job_id : lasting (rechecked agent_id job_id).
Proof.
  intros w1 w2 w3 w4 H12 [(w5 & a & ? & ? & ? & ?) (w6 & j & ? & ? & ? & ?)] H34.
  split; [exists w5, a|exists w6, j]; (split_and!; [by etrans|by etrans|done|done]).
Qed.

(** Before it answers [Ready], the recheck has seen the agent wait and the job current. *)
Lemma recheck_runs w agent_id job_id :
  runs w (wait_for_pre_send_dispatchable others agent_id job_id) (λ r w' cs,
    Rel w.(w_db) w'.(w_db) ∧ quiet cs ∧
    (r = Ok Ready → rechecked agent_id job_id w w')).
Proof.
  unfold wait_for_pre_send_dispatchable.
  eapply runs_bind; [apply calm_interleave|by intros e w1 cs [? ?]; split_and!|].
  intros _ w1 cs [Hr1 Hq1]. intros rt. unfold mbind, R_bind, on_db, query_agent_state_sync, gets. cbn.
  destruct (w1.(w_db).(agents) !! agent_id) as [a|] eqn:Ha; cbn; cycle 1.
  { exists []. rewrite !app_nil_r. by split_and!. }
  case_bool_decide as Hs; cbn; cycle 1.
  { exists []. rewrite !app_nil_r. by split_and!. }
  unfold interleave. generalize (others_rel 3 rt w1) (others_trace 3 rt w1).
  destruct (others 3 rt w1) as [rt2 w2]; cbn. intros Hr2 Ht2.
  fold (current_job agent_id w2.(w_db)).
  assert (Rel w.(w_db) w2.(w_db)) by (by etrans).
  destruct (current_job agent_id w2.(w_db)) as [j|] eqn:Hcur; [case_bool_decide as Hj|]; cbn; exists [];
    rewrite !app_nil_r; (split_and!; [exact Ht2|done|exact Hq1|]); try done.
  intros _. split; [exists w1, a; by split_and!|exists w2, j; by split_and!].
Qed.

(** From the recheck on. *)
Lemma send_rechecked w agent job pane baseline :
  runs w (ready ← wait_for_pre_send_dispatchable others agent.(a_id) job.(j_id);
      match ready with
      | Deferred reason retry =>
          requeue_unsent others agent.(a_id) job
            ("dispatch readiness recheck refused before send: " +:+ reason);;
          (if retry then schedule_dispatch_retry else mret tt)
      | Ready =>
          guard ← run_dispatch_guard cx others agent.(a_id) agent.(a_provider) pane;
          match guard with
          | Refuse retry =>
              requeue_unsent others agent.(a_id) job "dispatch readiness recheck refused before send";;
              (if retry then wake else mret tt)
          | Permit => send_prompt cx others agent job pane baseline
          end
      end)
    (λ _ w' cs, at_most (rechecked agent.(a_id) job.(j_id)) job.(j_prompt_text) w w' cs).
Proof.
  eapply runs_bind; [apply recheck_runs|intros e w1 cs (? & ? & _); by apply quiet_at_most|].
  intros [|reason retry] w1 cs (Hr & Hq & Hready).
  - specialize (Hready eq_refl).
    eapply runs_weaken with (Q := λ _ w' cs', at_most always job.(j_prompt_text) w1 w' cs').
    + apply runs_calm_before; [done|apply calm_guard|]. intros [|retry] w2; [apply send_prompt_pasted|].
      apply calm_at_most. unfold wake, requeue_unsent, cancel_monitor, enable_idle_scan. calm.
    + intros r w2 cs' [Hr2 Hp]. split; [by etrans|]. rewrite pasted_app (quiet_pasted _ Hq).
      destruct Hp as [->|[-> _]]; [by left|right]. split; [done|].
      by eapply rechecked_lasting; [|exact Hready|exact Hr2].
  - eapply runs_weaken with (Q := λ _ w' cs', Rel w1.(w_db) w'.(w_db) ∧ quiet cs').
    + assert (Hcalm : calm (requeue_unsent others agent.(a_id) job
        ("dispatch readiness recheck refused before send: " +:+ reason);;
        (if retry then schedule_dispatch_retry else mret tt))); [|apply Hcalm].
      unfold schedule_dispatch_retry, spawn. calm.
    + intros r w2 cs' [? ?]. apply quiet_at_most; [by etrans|by apply quiet_app].
Qed.

(** A job was dispatched to the agent between [w] and [w'], and is [job]. *)
Definition dispatched_here (agent_id : string) (w w' : World) (job : Job) : Prop :=
  ∃ w0 w1 d, Rel w.(w_db) w0.(w_db) ∧ Rel w1.(w_db) w'.(w_db) ∧
    dispatch_job_to_agent agent_id [STATE_IDLE] STATE_WAITING_FOR_ACK "command_received"
      (json_object [("status", JString "SENT")]) w0 = (Ok (Some d), w1) ∧ d.(dj_job) = job.

Lemma dispatch_runs w agent_id :
  runs w (dispatch_queued_job others agent_id) (λ r w1 cs, Rel w.(w_db) w1.(w_db) ∧ quiet cs ∧
    ∀ d, r = Ok (Some d) → dispatched_here agent_id w w1 d.(dj_job)).
Proof.
  unfold dispatch_queued_job.
  eapply runs_bind; [apply calm_interleave|by intros e w1 cs [? ?]; split_and!|].
  intros _ w1 cs [Hr Hq] rt. exists []. rewrite !app_nil_r. unfold on_db.
  assert (respects sound (dispatch_job_to_agent agent_id [STATE_IDLE] STATE_WAITING_FOR_ACK
    "command_received" (json_object [("status", JString "SENT")]))) as Hs by eauto with respects.
  generalize (Hs w1). destruct (dispatch_job_to_agent _ _ _ _ _ w1) as [r w2] eqn:E. cbn. intros Hs2.
  split_and!; [done|by etrans; [exact Hr|apply Rel_sound]|done|].
  intros d Hd. exists w1, w2, d. split_and!; [done|reflexivity| |done]. by destruct r; simplify_eq.
Qed.

(** What one turn pastes. *)
Definition turn_pastes (agent_id : string) (w w' : World) (cs : list TmuxCommand) : Prop :=
  Rel w.(w_db) w'.(w_db) ∧
  (pasted cs = [] ∨
   ∃ job, pasted cs = [job.(j_prompt_text)] ∧ dispatched_here agent_id w w' job ∧
     rechecked agent_id job.(j_id) w w').

Lemma dispatch_and_send_pastes w agent pane :
  runs w (dispatch_and_send cx others agent pane) (λ _ w' cs, turn_pastes agent.(a_id) w w' cs).
Proof.
  unfold dispatch_and_send. eapply runs_bind; [apply dispatch_runs| |].
  { intros e w1 cs (? & Hq & _). split; [done|left; by apply quiet_pasted]. }
  intros [d|] w1 cs (Hr1 & Hq1 & Hd); cycle 1.
  { apply runs_ret. rewrite app_nil_r. split; [done|left; by apply quiet_pasted]. }
  destruct (Hd d eq_refl) as (w0 & w0' & d0 & H0 & H0' & Hdisp & Hjob).
  set (job := dj_job d) in *.
  eapply runs_weaken with
    (Q := λ _ w' cs', at_most (rechecked agent.(a_id) job.(j_id)) job.(j_prompt_text) w1 w' cs').
  - cbv zeta. pose proof (rechecked_lasting agent.(a_id) job.(j_id)) as HS.
    apply runs_calm_before; [done|unfold enable_idle_scan; calm|intros _ w2].
    apply runs_calm_before; [done|calm|intros _ w3].
    apply runs_calm_before; [done|calm|intros captured w4].
    apply runs_calm_before; [done|calm|intros _ w5].
    apply runs_assoc.
    apply runs_calm_after; [done|apply send_rechecked|intros _; calm].
  - intros r w2 cs' [Hr2 Hp]. split; [etrans; [exact Hr1|exact Hr2]|]. rewrite pasted_app (quiet_pasted _ Hq1).
    destruct Hp as [->|[-> HR]]; [by left|right]. exists job. split_and!; [done| |].
    + exists w0, w0', d0. split_and!; [done|etrans; [exact H0'|exact Hr2]|done|done].
    + by eapply rechecked_lasting; [exact Hr1|exact HR|reflexivity].
Qed.

Lemma turn_pastes_quiet agent_id w w' cs :
  Rel w.(w_db) w'.(w_db) → quiet cs → turn_pastes agent_id w w' cs.
Proof. intros ? Hq. split; [done|left; by apply quiet_pasted]. Qed.

Lemma turn_pastes_before agent_id w w1 w' cs cs' :
  Rel w.(w_db) w1.(w_db) → quiet cs → turn_pastes agent_id w1 w' cs' →
  turn_pastes agent_id w w' (cs ++ cs').
Proof.
  intros Hr Hq [Hr' Hp]. split; [by etrans|]. rewrite pasted_app (quiet_pasted _ Hq).
  destruct Hp as [->|(job & -> & (w2 & w3 & d & ? & ? & ?) & HR)]; [by left|right].
  exists job. split_and!; [done| |by eapply rechecked_lasting; [exact Hr|exact HR|reflexivity]].
  exists w2, w3, d. split_and!; [by etrans; [exact Hr|]|done|naive_solver..].
Qed.

(** Under a property of the tables that [Rel] keeps, such as consistency. *)
Variable C : Db → Prop.
Hypothesis Rel_keeps : ∀ db db', Rel db db' → C db → C db'.

Lemma turn_runs_before {A B} agent_id w (m : R A) (f : A → R (T := T) B) :
  C w.(w_db) → calm m →
  (∀ a w1, C w1.(w_db) → runs w1 (f a) (λ _ w2 cs, turn_pastes agent_id w1 w2 cs)) →
  runs w (m ≫= f) (λ _ w2 cs, turn_pastes agent_id w w2 cs).
Proof.
  intros HC Hm Hf. eapply runs_bind; [apply Hm|by intros e w1 cs [? ?]; apply turn_pastes_quiet|].
  intros a w1 cs [Hr Hq]. eapply runs_weaken; [apply Hf; by eapply Rel_keeps|].
  intros r w2 cs' Hp. by eapply turn_pastes_before.
Qed.

Lemma calm_turn_pastes {A} agent_id w (m : R A) :
  calm m → runs w m (λ _ w' cs, turn_pastes agent_id w w' cs).
Proof. intros Hm. eapply runs_weaken; [apply Hm|]. intros r w1 cs [? ?]. by apply turn_pastes_quiet. Qed.


End Steps.

(** ** A send that fails *)

Section Failure.
Context {EXT : Externals} {PX : PromptExternals} {CC : CharClass} {KC : KbCodec} {RX : RegexCaptures}.
Context {T : Type} {TX : TmuxExec T}.

#[local] Existing Instances R_ret R_bind.

(** No other task runs. *)
Definition alone (p : nat) (rt : DaemonRuntime T) (w : World) : DaemonRuntime T * World := (rt, w).

Lemma r_bind_ok {A B} (m : R (T := T) A) (f : A → R B) rt w a rt1 w1 :
  m rt w = (Ok a, rt1, w1) → (m ≫= f) rt w = f a rt1 w1.
Proof. intros Hm. unfold mbind, R_bind. by rw Hm. Qed.

Lemma mark_failed_run w job_id j reason :
  consistent w.(w_db) → w.(w_db).(jobs) !! job_id = Some j → j.(j_status) = "DISPATCHED" →
  ∃ w', mark_job_failed job_id reason w = (Ok 1%nat, w') ∧
    w'.(w_db).(jobs) = <[job_id := failed_row w.(w_now) reason j]> w.(w_db).(jobs) ∧
    w'.(w_db).(agents) = w.(w_db).(agents).
Proof.
  intros Hc Hj Hst. set (g := λ j : Job, j.(j_status) is_in ["QUEUED"; "DISPATCHED"]).
  assert (Hg : g j = true) by (apply bool_decide_true; rw Hst; set_solver).
  assert (Hup : (update_job job_id g (set_j_error_reason (Some reason)) : M CcbdError nat) w =
    (Ok 1%nat, set_db (set_jobs (<[job_id := set_j_error_reason (Some reason) j]> w.(w_db).(jobs))
                         w.(w_db)) w)) by (by apply update_job_hit).
  set (j1 := set_j_error_reason (Some reason) j) in *.
  assert (Hadm : gate_admits (set_jobs (<[job_id := j1]> w.(w_db).(jobs)) w.(w_db)) job_id Dispatched
                   Failed j1).
  { split; [apply lookup_insert_eq|]. by repeat split; try constructor. }
  set (db1 := set_jobs (<[job_id := j1]> w.(w_db).(jobs)) w.(w_db)) in *.
  assert (Hsync : mark_job_failed_sync job_id reason w =
    (Ok 1%nat, set_db (gate_db w.(w_now) job_id Dispatched Failed reason j1 db1) w)).
  { unfold mark_job_failed_sync. apply transaction_ok. erewrite bind_ok; [apply ret_run|].
    unfold mark_job_failed_conn_sync. step_pure. rw Hj /=. fold (g j). rw Hg Hst /=.
    rw (bind_ok _ _ _ _ _ Hup) /=. erewrite bind_ok; [apply ret_run|].
    apply (transit_job_state_commit (set_db db1 w) _ j1); [done| |].
    + apply (wf_job_key _ (proj1 Hc) _ _ Hj).
    + apply (wf_job_agent _ (proj1 Hc) _ _ Hj). }
  unfold mark_job_failed. rw (bind_ok _ _ _ _ _ Hsync). eexists. split; [reflexivity|].
  subst db1. simpl. split; [|done]. by rw insert_insert_eq.
Qed.

(** What is done about a send that failed. *)
Lemma after_send_failure_run (rt : DaemonRuntime T) w agent_id a job j pane err :
  consistent w.(w_db) → w.(w_db).(agents) !! agent_id = Some a →
  a.(a_state) = STATE_WAITING_FOR_ACK →
  w.(w_db).(jobs) !! job.(j_id) = Some j → j.(j_status) = "DISPATCHED" →
  recovery_requeued_attempt job.(j_error_reason) = None →
  let reason := "send failed: " +:+ error_to_string err in
  ∃ w', after_send_failure alone agent_id job pane err rt w =
      (Ok tt, set_rt_monitors (cancel agent_id rt.(rt_monitors)) rt, w') ∧
    w'.(w_db).(jobs) = <[job.(j_id) := failed_row w.(w_now) reason j]> w.(w_db).(jobs) ∧
    w'.(w_db).(agents) = <[agent_id := bump_version w.(w_now) (set_a_state STATE_STUCK a)]>
                           w.(w_db).(agents) ∧
    WakeUp ∈ w'.(w_out).
Proof.
  intros Hc Ha Hs Hj Hst Hrec reason.
  pose proof (transit_agent_state_functional agent_id [STATE_WAITING_FOR_ACK] STATE_STUCK (Some reason) w)
    as Htransit. rw Ha Hs in Htransit. cbn -[json_object] in Htransit.
  set (w1 := add_effect _ _) in Htransit.
  assert (Hc1 : consistent w1.(w_db)).
  { assert (Hsnd : respects sound (transit_agent_state agent_id [STATE_WAITING_FOR_ACK] STATE_STUCK
      (Some reason))) by eauto with respects.
    generalize (Hsnd w). rw Htransit. cbn. intros [_ H]. by apply H. }
  destruct (mark_failed_run w1 job.(j_id) j reason) as (w2 & Hfail & Hjobs & Hags); [done..|].
  exists (add_effect WakeUp w2). split.
  - set (rt1 := set_rt_monitors (cancel agent_id rt.(rt_monitors)) rt).
    assert (Hstale : stale_dispatch_failure_already_requeued alone job rt1 w = (Ok false, rt1, w)).
    { unfold stale_dispatch_failure_already_requeued, query_job_sync, on_db, mbind, R_bind, gets. cbn.
      rw Hj Hst. cbn. by rw andb_false_r. }
    assert (Hmaybe : maybe_requeue_recovered_pane_missing_dispatch alone agent_id job pane err rt1 w =
      (Ok false, rt1, w)).
    { unfold maybe_requeue_recovered_pane_missing_dispatch. rw Hrec. by destruct (negb _). }
    assert (Hio : mark_dispatch_io_failed agent_id reason rt1 w = (Ok tt, rt1, w1)).
    { unfold mark_dispatch_io_failed, mbind, R_bind, try_db. by rw Htransit. }
    assert (Hjob : try_db (mark_job_failed job.(j_id) reason) rt1 w1 = (Ok (Ok 1%nat), rt1, w2)).
    { unfold try_db. by rw Hfail. }
    unfold after_send_failure. rw (r_bind_ok _ _ _ _ tt rt1 w); [done|].
    rw (r_bind_ok _ _ _ _ _ _ _ Hstale). rw (r_bind_ok _ _ _ _ _ _ _ Hmaybe).
    fold reason. rw (r_bind_ok _ _ _ _ tt rt1 w); [done|]. rw (r_bind_ok _ _ _ _ _ _ _ Hio).
    rw (r_bind_ok _ _ _ _ tt rt1 w1); [done|]. rw (r_bind_ok _ _ _ _ _ _ _ Hjob). reflexivity.
  - cbn. rw Hjobs Hags. split_and!; [done..|]. apply elem_of_app. right. left.
Qed.

(** C21: a prompt that cannot be typed fails its job and nothing is left waiting.
    When typing the prompt of a dispatched job fails, no other task interferes,
    and the job is not one that a recovery put back into the queue, then nothing
    further is typed; the job becomes failed with the error as its reason; the
    agent that was waiting for the acknowledgement becomes stuck; the log monitor
    that was started for the agent leaves the table and is told to stop; and the
    orchestrator is woken. *)
Theorem failed_send_fails_job cx (rt : DaemonRuntime T) w agent a job j pane baseline err :
  consistent w.(w_db) → w.(w_db).(agents) !! agent.(a_id) = Some a →
  a.(a_state) = STATE_WAITING_FOR_ACK →
  w.(w_db).(jobs) !! job.(j_id) = Some j → j.(j_status) = "DISPATCHED" →
  recovery_requeued_attempt job.(j_error_reason) = None →
  let typed := send_text_to_pane_with_options cx.(cx_server) cx.(cx_second_enter) agent.(a_id) pane
                 job.(j_prompt_text) (press_enter_after_paste agent job) (rt_terminal rt) in
  typed.1 = Err err →
  let reason := "send failed: " +:+ error_to_string err in
  ∃ rt' w', send_prompt cx alone agent job pane baseline rt w = (Ok tt, rt', w') ∧
    rt_terminal rt' = typed.2 ∧
    rt'.(rt_monitors).(mt_entries) = delete agent.(a_id) rt.(rt_monitors).(mt_entries) ∧
    (∀ e, rt.(rt_monitors).(mt_entries) !! agent.(a_id) = Some e → e.(me_cancel_tx) ∈ rt'.(rt_monitors).(mt_cancelled)) ∧
    w'.(w_db).(jobs) = <[job.(j_id) := failed_row w.(w_now) reason j]> w.(w_db).(jobs) ∧
    w'.(w_db).(agents) = <[agent.(a_id) := bump_version w.(w_now) (set_a_state STATE_STUCK a)]>
                           w.(w_db).(agents) ∧
    WakeUp ∈ w'.(w_out).
Proof.
  intros Hc Ha Hs Hj Hst Hrec typed Herr reason.
  set (rt1 := set_rt_terminal typed.2 rt).
  destruct (after_send_failure_run rt1 w agent.(a_id) a job j pane err Hc Ha Hs Hj Hst Hrec)
    as (w' & Hrun & Hjobs & Hags & Hwake).
  exists (set_rt_monitors (cancel agent.(a_id) rt1.(rt_monitors)) rt1), w'. split.
  - unfold send_prompt. rw (r_bind_ok _ _ _ _ tt rt w); [done|].
    assert (Hsend : on_terminal (send_text_to_pane_with_options cx.(cx_server) cx.(cx_second_enter) agent.(a_id) pane
      job.(j_prompt_text) (press_enter_after_paste agent job)) rt w = (Ok (Err err), rt1, w)).
    { unfold on_terminal. fold typed. rw -Herr /rt1. by destruct typed. }
    rw (r_bind_ok _ _ _ _ _ _ _ Hsend). exact Hrun.
  - split_and!; [done| | |exact Hjobs|exact Hags|exact Hwake].
    + cbn. unfold cancel, take_monitor. by destruct (mt_entries _ !! _) eqn:Hm; cbn.
    + intros e He. cbn. unfold cancel, take_monitor. rw He. cbn. by left.
Qed.

End Failure.
