(* ===== verification/OrchestratorRecovery.v ===== *)
(** * Recovery of crashed workers ([src/src/orchestrator/mod.rs])

    After the dispatch turns, a pass of the orchestrator looks for one crashed agent
    that may be recovered: it is reaped, or claimed, deleted and spawned again from
    the spec kept for it.  The spawning itself is the parameter the source passes
    as a function. *)
From S2P Require Import Prelude Json Schema Sql MasterTables JobGate Invariant AgentGate Text ReplyText.
From S2P Require Import Providers Jobs Completion Evidence StateMachine Events Agents Recovery.
From S2P Require Import JobsProofs StateMachineProofs LogReader LogMonitor HealthCheck.
From S2P Require Import PromptCases PromptRunner PromptStore PromptIntegration Tmux AgentIo Orchestrator.
From S2P Require Import OrchestratorProofs.

Record CrashContext : Type := MkCrashContext {
  cc_exit_code : option Z;
  cc_error_code : option string
}.

Section Recovery.
Context {EXT : Externals} {PX : PromptExternals} {CC : CharClass} {KC : KbCodec} {RX : RegexCaptures}.
Context {SPEC : SpawnSpecSerde} {T : Type} {TX : TmuxExec T}.
Variable cx : Ctx.
Variable others : nat → DaemonRuntime T → World → DaemonRuntime T * World.
(** Is a process alive, as far as the daemon can tell? *)
Variable alive : Z → bool.
(** [RecoveryRespawnFn]: the session, the spec and its configuration hash. *)
Variable respawn : string → AgentSpawnSpec → string → R (T := T) unit.

#[local] Existing Instances R_ret R_bind.

(** ** Clean-up of the runtime *)

(** The file system's part, the fifo and the sandbox, is not kept. *)
Definition cleanup_agent_runtime_resources (agent_id : string) (expected_session_id : option string) :
    R unit :=
  rt ← get_rt;
  match cleanup_takes agent_id expected_session_id rt.(rt_panes) with
  | (false, _, _) => mret tt
  | (true, entry, panes) =>
      modify_rt (set_rt_panes panes);;
      match entry with
      | Some entry =>
          on_terminal (cleanup_terminal (MkTmuxServer entry.(ie_socket_name) NoScope) alive agent_id entry);;
          mret tt
      | None => mret tt
      end;;
      cancel_monitor agent_id;;
      modify_rt (λ rt, MkDaemonRuntime rt.(rt_panes) (rt.(rt_parsers) ∖ {[agent_id]}) rt.(rt_monitors)
                         rt.(rt_scan) rt.(rt_spawned))
  end.

(** ** Events *)

Definition self_recovery_event_exists (agent_id action reason : string) : M CcbdError bool :=
  gets (λ db, existsb (λ e, (e.(e_event_type) == "self_recovery_attempt") &&
    like e.(e_payload) (field_pattern "action" action) &&
    like e.(e_payload) (field_pattern "reason" reason)) (event_of agent_id db)).

(** [payload[key] = value] *)
Definition field_if {A} (o : option A) (key : string) (f : A → Value) : list (string * Value) :=
  match o with Some a => [(key, f a)] | None => [] end.

Definition emit_self_recovery_attempt_event (agent_id action reason : string) (retry_count : Z)
    (next_retry_at : option Z) (state_version : Z) (error : option string)
    (recovered_from : option CrashContext) (recovery_action : option RecoveryIntentAction) :
    M CcbdError Z :=
  insert_event agent_id None "self_recovery_attempt" (json_to_string (json_object
    ([("agent_id", JString agent_id); ("reason", JString reason); ("action", JString action);
      ("retry_count", JNumber retry_count); ("next_retry_at", json_opt JNumber next_retry_at);
      ("state_version", JNumber state_version)] ++
     field_if error "error" JString ++
     match recovery_action with
     | Some a => [("recovery_action", JString (action_as_db_str a))] ++
                 (if a == ReviveIdle then [("recovery_kind", JString "idle_topology_restore")] else [])
     | None => []
     end ++
     match recovered_from with
     | Some c => field_if c.(cc_exit_code) "recovered_from_exit_code" JNumber ++
                 field_if c.(cc_error_code) "recovered_from_error_code" JString
     | None => []
     end))).

(** The crashed agent is passed over, with one event for each reason. *)
Definition skip_recovery (agent : Agent) (reason : string) : R unit :=
  already_emitted ← on_db (self_recovery_event_exists agent.(a_id) "skipped" reason);
  if (already_emitted : bool) then mret tt
  else
  interleave others 30;;
  on_db (emit_self_recovery_attempt_event agent.(a_id) "skipped" reason 0 None agent.(a_state_version)
           None None None);;
  mret tt.

Definition recovery_error_message (err : CcbdError) : string :=
  match err with
  | PtyIoError message | PtyOpenFailed message => message
  | EnvironmentNotSupported details | SandboxUserNsDisabled details | SandboxMountFailed details
  | AgentUnexpectedExit details | StartupMarkerTimeout details | PtyMarkerTimeout details => details
  | TmuxCommandFailed _ stderr _ => stderr
  | _ => error_to_string err
  end.

(** [retry_count, next_retry_at, state_version] *)
Definition recovery_event_state (agent_id : string) : M CcbdError (Z * option Z * Z) :=
  row ← gets (λ db, db.(agents) !! agent_id);
  match row with
  | Some a => mret (a.(a_retry_count), a.(a_next_retry_at), a.(a_state_version))
  | None => throw (DbConstraintViolation "query recovery event state: Query returned no rows")
  end.

(** ** The result of a spawn *)

(** [UPDATE agents SET retry_count = ?, next_retry_at = ?, retry_exhausted = ? WHERE id = ?] *)
Definition restore_backoff (agent_id : string) (backoff : Z * option Z * bool) : M CcbdError unit :=
  let '(retry_count, next_retry_at, retry_exhausted) := backoff in
  update_agent agent_id (λ _, true)
    (λ a, set_a_retry_exhausted retry_exhausted
            (set_a_next_retry_at next_retry_at (set_a_retry_count retry_count a)));;
  mret tt.

Definition apply_recovery_spawn_result_with_action (agent_id : string)
    (spawn_result : Result unit CcbdError) (now : Z) (crash_context : option CrashContext)
    (recovery_action : option RecoveryIntentAction) : M CcbdError unit :=
  match spawn_result with
  | Ok _ =>
      record_recovery_failure_backoff_sync agent_id now;;
      '(retry_count, next_retry_at, state_version) ← recovery_event_state agent_id;
      emit_self_recovery_attempt_event agent_id "recovered" "OOM_RECOVERY" retry_count next_retry_at
        state_version None crash_context recovery_action;;
      mret tt
  | Err err =>
      stored ← query_agent_spawn_spec_sync agent_id;
      clock ← asks w_now;
      update_agent agent_id (λ _, true) (λ a, bump_version clock (set_a_state "CRASHED" a));;
      match stored with
      | Some stored => persist_agent_spawn_spec_sync stored.(st_spec) stored.(st_config_hash)
      | None => mret tt
      end;;
      backoff ← record_recovery_failure_backoff_sync agent_id now;
      '(_, _, state_version) ← recovery_event_state agent_id;
      emit_self_recovery_attempt_event agent_id "failed" "OOM_RECOVERY" backoff.(rb_retry_count)
        backoff.(rb_next_retry_at) state_version (Some (recovery_error_message err)) None
        recovery_action;;
      mret tt
  end.

Definition restore_crashed_agent_after_recovery_spawn_failure (agent : Agent)
    (stored : StoredAgentSpawnSpec) : M CcbdError unit :=
  exists_ ← gets (λ db, bool_decide (is_Some (db.(agents) !! agent.(a_id))));
  (if (exists_ : bool) then mret tt
   else
     insert_agent_sync agent.(a_id) agent.(a_session_id) agent.(a_provider) "CRASHED" None;;
     clock ← asks w_now;
     update_agent agent.(a_id) (λ _, true)
       (λ a, set_a_updated_at clock (set_a_retry_exhausted false (set_a_next_retry_at None
               (set_a_retry_count 0 (set_a_state_version agent.(a_state_version)
                 (set_a_config_hash (Some stored.(st_config_hash)) a))))));;
     mret tt);;
  persist_agent_spawn_spec_sync stored.(st_spec) stored.(st_config_hash).

Definition session_is_active (session_id : string) : M CcbdError bool :=
  gets (λ db, (s_status <$> db.(sessions) !! session_id) == Some "ACTIVE").

(** After the spawn: the captured intent is kept for the next try, or its job goes
    back into the queue. *)
Definition settle_recovery (agent : Agent) (stored : StoredAgentSpawnSpec)
    (spawn_result : Result unit CcbdError) (captured_intent : option AgentRecoveryIntent) :
    M CcbdError unit :=
  let backoff := (agent.(a_retry_count), agent.(a_next_retry_at), agent.(a_retry_exhausted)) in
  match spawn_result with
  | Err _ =>
      restore_crashed_agent_after_recovery_spawn_failure agent stored;;
      restore_backoff agent.(a_id) backoff;;
      match captured_intent with
      | Some intent => persist_agent_recovery_intent_sync intent
      | None => mret tt
      end
  | Ok _ =>
      restore_backoff agent.(a_id) backoff;;
      match captured_intent with
      | Some intent =>
          requeued ← requeue_interrupted_job_from_captured_intent_standalone_sync intent;
          when (bool_decide (0 < requeued)%nat) notify_runtime_job_changed
      | None => mret tt
      end
  end.

(** The result of [respawn] as a value; a panic goes on. *)
Definition try_respawn (m : R (T := T) unit) : R (Result unit CcbdError) := λ rt w,
  match m rt w with
  | (Ok _, rt', w') => (Ok (Ok tt), rt', w')
  | (Err (Raised e), rt', w') => (Ok (Err e), rt', w')
  | (Err stop, rt', w') => (Err stop, rt', w')
  end.

Definition recover_crashed_agent_from_snapshot_with_respawn_and_intent (agent_id : string)
    (captured_intent : option AgentRecoveryIntent) : R unit :=
  interleave others 31;;
  '(agent, stored) ← on_db (
    agent ← query_agent_sync agent_id;
    match agent with
    | None => throw (AgentNotFound agent_id)
    | Some agent =>
        stored ← query_agent_spawn_spec_sync agent_id;
        match stored with
        | None => throw (DbConstraintViolation ("missing spawn spec for " +:+ agent_id))
        | Some stored => mret (agent, stored)
        end
    end);
  let crash_context := MkCrashContext agent.(a_exit_code) agent.(a_error_code) in
  interleave others 32;;
  on_db (delete_agent_sync agent_id);;
  interleave others 33;;
  spawn_result ← try_respawn (respawn agent.(a_session_id) stored.(st_spec) stored.(st_config_hash));
  interleave others 34;;
  on_db (settle_recovery agent stored spawn_result captured_intent);;
  interleave others 35;;
  now ← on_db (asks w_now);
  on_db (apply_recovery_spawn_result_with_action agent_id spawn_result now (Some crash_context)
           (in_action <$> captured_intent)).

(** ** The pass *)

(** Agents that were respawned and have held for 300 seconds. *)
Definition stable_agents (now : Z) (db : Db) : list string :=
  a_id <$> filter (λ a, (a.(a_state) != "CRASHED") && (a.(a_state) != "KILLED") &&
    ((0 <? a.(a_retry_count)) || bool_decide (is_Some a.(a_next_retry_at)) || a.(a_retry_exhausted)) &&
    (300 <=? now - a.(a_created_at)) = true) (table_rows db.(agents)).

Definition confirm_stable_agents (now : Z) : M CcbdError unit :=
  ids ← gets (stable_agents now);
  for_ ids confirm_agent_stable_sync.

Definition reap_agent (agent : Agent) : R bool :=
  cleanup_agent_runtime_resources agent.(a_id) (Some agent.(a_session_id));;
  interleave others 36;;
  on_db (delete_agent_sync agent.(a_id));;
  mret true.

(** [true]: the agent was dealt with and the pass ends. *)
Definition recover_with_intent (now : Z) (agent : Agent) (intent : AgentRecoveryIntent) : R bool :=
  if intent.(in_action) == ReapOnly then reap_agent agent
  else
  active ← on_db (session_is_active intent.(in_session_id));
  if (intent.(in_action) == ReviveIdle) && negb active then reap_agent agent
  else
  snapshot ← on_db (query_agent_spawn_spec_sync agent.(a_id));
  match snapshot with
  | None => skip_recovery agent "missing_spawn_spec";; mret false
  | Some _ =>
      claimed ← on_db (try_claim_agent_recovery_sync agent.(a_id) agent.(a_state_version) now);
      if (claimed : bool) then
        recover_crashed_agent_from_snapshot_with_respawn_and_intent agent.(a_id) (Some intent);;
        mret true
      else mret false
  end.

Definition recover_candidate (now : Z) (agent : Agent) : R bool :=
  if negb (is_recovery_eligible_provider agent.(a_provider)) then mret false
  else
  interleave others 37;;
  row ← on_db (query_agent_sync agent.(a_id));
  match row with
  | None => r_throw (Raised (DbConstraintViolation "query recovery candidate: Query returned no rows"))
  | Some row =>
      if row.(a_retry_exhausted) ||
         match row.(a_next_retry_at) with Some retry_at => now <? retry_at | None => false end
      then mret false
      else
      intent ← on_db (query_agent_recovery_intent_sync agent.(a_id));
      match intent with
      | None => skip_recovery agent "missing_recovery_intent";; mret false
      | Some intent => recover_with_intent now agent intent
      end
  end.

Fixpoint recover_first (now : Z) (agents : list Agent) : R bool :=
  match agents with
  | [] => mret false
  | agent :: agents' =>
      done_ ← recover_candidate now agent;
      if (done_ : bool) then mret true else recover_first now agents'
  end.

Definition run_recovery_once_with_respawn : R bool :=
  now ← on_db (asks w_now);
  on_db (confirm_stable_agents now);;
  interleave others 38;;
  crashed_agents ← on_db (query_agents_by_state_sync "CRASHED");
  recover_first now crashed_agents.

(** ** What a recovery throws away *)

(** Recovering an agent deletes its row first, and every job, event and evidence
    row that refers to it goes with it: a job that was queued for the crashed agent
    is gone, and of all its jobs only the interrupted one is put back. *)
Lemma recovery_discards_queued_jobs agent_id w w' job_id j :
  delete_agent_sync agent_id w = (Ok tt, w') → is_Some (w.(w_db).(agents) !! agent_id) →
  w.(w_db).(jobs) !! job_id = Some j → j.(j_agent_id) = agent_id →
  w'.(w_db).(jobs) !! job_id = None.
Proof.
  intros Hdel [a Ha] Hj Hag.
  assert (w'.(w_db).(jobs) = (cascade_agent agent_id w.(w_db)).(jobs)) as ->.
  { revert Hdel. unfold delete_agent_sync, delete_agent_row, map_err, mbind, M_bind. rw Ha.
    destruct (dangling_event_refs _); [done|]. cbn. by intros [= <-]. }
  apply eq_None_not_Some. intros [j' Hj']. apply lookup_cascade_jobs in Hj' as [Hj' Hne].
  by rewrite Hj in Hj'; simplify_eq.
Qed.

End Recovery.

(** ** Who is recovered *)

Section Due.
Context {EXT : Externals} {PX : PromptExternals} {CC : CharClass} {KC : KbCodec} {RX : RegexCaptures}.
Context {SPEC : SpawnSpecSerde} {T : Type} {TX : TmuxExec T}.
Variables (alive : Z → bool) (respawn : string → AgentSpawnSpec → string → R (T := T) unit).

#[local] Existing Instances R_ret R_bind.

(** The agents and the jobs are as they were. *)
Definition untouched (w w' : World) : Prop :=
  w'.(w_db).(agents) = w.(w_db).(agents) ∧ w'.(w_db).(jobs) = w.(w_db).(jobs).

(** What the intent asks for, and that it is still to be done. *)
Definition intended (agent row : Agent) (w : World) (intent : AgentRecoveryIntent) : Prop :=
  intent.(in_action) = ReapOnly ∨
  intent.(in_action) = ReviveIdle ∧
    (s_status <$> w.(w_db).(sessions) !! intent.(in_session_id)) ≠ Some "ACTIVE" ∨
  row.(a_state) = "CRASHED" ∧ row.(a_state_version) = agent.(a_state_version) ∧
    is_Some (w.(w_db).(spawn_specs) !! agent.(a_id)).

(** The row allows a recovery now, and why it would be one. *)
Record due (now : Z) (agent row : Agent) (w : World) : Prop := {
  due_provider : is_recovery_eligible_provider agent.(a_provider) = true;
  due_retries : row.(a_retry_exhausted) = false;
  due_backoff t : row.(a_next_retry_at) = Some t → t ≤ now;
  due_intent : ∃ intent, query_agent_recovery_intent_sync agent.(a_id) w = (Ok (Some intent), w) ∧
    intended agent row w intent
}.

Lemma attempt_event_untouched agent_id action reason n next version error from act w :
  untouched w (emit_self_recovery_attempt_event agent_id action reason n next version error from act w).2.
Proof.
  unfold emit_self_recovery_attempt_event.
  match goal with |- context [json_to_string ?v] => generalize (json_to_string v) end. intros payload.
  unfold insert_event, insert_event_sync, insert_event_row, mbind, M_bind, try_. cbn.
  by destruct (w.(w_db).(agents) !! agent_id).
Qed.

Lemma skip_untouched agent reason (rt : DaemonRuntime T) w :
  ∃ r rt' w', (skip_recovery alone agent reason;; mret false : R bool) rt w = (r, rt', w') ∧
    untouched w w'.
Proof.
  unfold skip_recovery, self_recovery_event_exists, mbind, R_bind, on_db, gets, interleave, alone. cbn.
  destruct (existsb _ _); [by eexists _, _, w|].
  pose proof (attempt_event_untouched agent.(a_id) "skipped" reason 0 None agent.(a_state_version) None
    None None w) as H.
  destruct (emit_self_recovery_attempt_event _ _ _ _ _ _ _ _ _ w) as [[seq|e] w'];
    by eexists _, _, w'.
Qed.

Lemma intent_query_pure agent_id w :
  ∃ r, query_agent_recovery_intent_sync agent_id w = (r, w).
Proof.
  unfold query_agent_recovery_intent_sync, mbind, M_bind, gets.
  destruct (w.(w_db).(recovery_intents) !! agent_id) as [r|]; [|by eexists].
  destruct (i_consumed_at r == None); [|by eexists]. unfold of_result.
  by destruct (intent_of_row r); eexists.
Qed.

Lemma intent_due now agent row intent (rt : DaemonRuntime T) w :
  w.(w_db).(agents) !! agent.(a_id) = Some row →
  ∃ r rt' w', recover_with_intent alone alive respawn now agent intent rt w = (r, rt', w') ∧
    (untouched w w' ∨ intended agent row w intent).
Proof.
  intros Hrow. unfold recover_with_intent.
  assert (Hend : ∀ res : Result bool HealthStop * DaemonRuntime T * World, intended agent row w intent →
    ∃ r rt' w', res = (r, rt', w') ∧ (untouched w w' ∨ intended agent row w intent)).
  { intros [[r rt'] w'] Hwhy. exists r, rt', w'. auto. }
  case_bool_decide; [by apply Hend; left|].
  unfold session_is_active. rw (r_bind_ok _ _ _ _ _ rt w eq_refl).
  destruct ((intent.(in_action) == ReviveIdle) && _) eqn:Hidle.
  { apply andb_true_iff in Hidle as [?%bool_decide_eq_true ?%negb_true_iff%bool_decide_eq_false].
    by apply Hend; right; left. }
  unfold query_agent_spawn_spec_sync. destruct (w.(w_db).(spawn_specs) !! agent.(a_id)) as [sp|] eqn:Hsp.
  2:{ rw (r_bind_ok _ _ _ _ None rt w); [unfold on_db, mbind, M_bind, gets; by rw Hsp|].
      destruct (skip_untouched agent "missing_spawn_spec" rt w) as (r & rt' & w' & Hs & Hu).
      exists r, rt', w'. by split; [|left]. }
  destruct (stored_spec "deserialize agent spawn spec" sp) as [spec|e] eqn:Hspec.
  2:{ eexists _, _, w. split; [|by left]. unfold mbind at 1, R_bind at 1, on_db.
      unfold mbind, M_bind, gets. rw Hsp. unfold of_result. rw Hspec. reflexivity. }
  rw (r_bind_ok _ _ _ _ (Some spec) rt w);
    [unfold on_db, mbind, M_bind, gets, of_result; rw Hsp; by rw Hspec|].
  destruct (decide (row.(a_state) = "CRASHED" ∧ row.(a_state_version) = agent.(a_state_version)))
    as [[Hc Hv]|Hno]; [by apply Hend; right; right|].
  eexists _, _, w. split; [|by left]. rw (r_bind_ok _ _ _ _ false rt w); [|reflexivity].
  unfold on_db, try_claim_agent_recovery_sync. unfold mbind, M_bind, asks.
  unfold update_agent, update_row. rw Hrow.
  destruct ((_ && _) && _ && _) eqn:Hg; [|by destruct w as [[]]].
  destruct Hno. rewrite !andb_true_iff in Hg. destruct Hg as [[[?%bool_decide_eq_true ?%Z.eqb_eq] _] _].
  done.
Qed.

(** C20: recovery deals only with agents that are due.  Without interference, the
    step for one crashed agent leaves the agents and the jobs as they are unless
    the provider can be recovered, the retries are not used up, the backoff is
    over, and the recorded intent says what to do: reap the agent, reap an idle one
    whose session ended, or revive it from its spec, and then only if the row is
    still crashed at the version that was read. *)
Theorem recovery_touches_only_due_agents now agent row (rt : DaemonRuntime T) w :
  w.(w_db).(agents) !! agent.(a_id) = Some row →
  ∃ r rt' w', recover_candidate alone alive respawn now agent rt w = (r, rt', w') ∧
    (untouched w w' ∨ due now agent row w).
Proof.
  intros Hrow. unfold recover_candidate.
  destruct (is_recovery_eligible_provider agent.(a_provider)) eqn:Hp; cbn [negb];
    [|by eexists _, _, w; split; [reflexivity|left]].
  rw (r_bind_ok _ _ _ _ tt rt w); [done|].
  rw (r_bind_ok _ _ _ _ (Some row) rt w); [unfold on_db, query_agent_sync, query_agent_row, gets; by rw Hrow|].
  destruct (row.(a_retry_exhausted)) eqn:Hx; [by eexists _, _, w; split; [reflexivity|left]|]. cbn [orb].
  destruct (match row.(a_next_retry_at) with Some t => now <? t | None => false end) eqn:Hb;
    [by eexists _, _, w; split; [reflexivity|left]|].
  assert (Hdue : ∀ t, row.(a_next_retry_at) = Some t → t ≤ now)
    by (intros t Ht; rewrite Ht in Hb; by apply Z.ltb_ge).
  destruct (intent_query_pure agent.(a_id) w) as [[[intent|]|e] Hi].
  3:{ eexists _, _, w. split; [|by left]. unfold mbind at 1, R_bind at 1, on_db. rw Hi. reflexivity. }
  2:{ rw (r_bind_ok _ _ _ _ None rt w); [unfold on_db; by rw Hi|].
      destruct (skip_untouched agent "missing_recovery_intent" rt w) as (r & rt' & w' & Hs & Hu).
      exists r, rt', w'. by split; [|left]. }
  rw (r_bind_ok _ _ _ _ (Some intent) rt w); [unfold on_db; by rw Hi|].
  destruct (intent_due now agent row intent rt w Hrow) as (r & rt' & w' & -> & [Hu|Hwhy]);
    exists r, rt', w'; (split; [done|]); [by left|right; split; eauto].
Qed.

End Due.
