(* ===== verification/ReplyTextProofs.v ===== *)
(** * Reply text: stripping is clean and slices fall between characters

    What [ReplyText] does to terminal text, character by character. *)
From S2P Require Import Prelude Text ReplyText.
From Stdlib Require Import Ascii.

(** ** Whole characters *)

(** A character has as many bytes as its first byte announces. *)
Definition whole_char (c : string) : Prop :=
  match c with
  | EmptyString => False
  | String b rest => String.length rest = utf8_extra b
  end.

#[global] Instance whole_char_dec c : Decision (whole_char c).
Proof. destruct c; apply _. Defined.

(** Text made of whole characters, as every Rust string is. *)
Definition whole_text (s : string) : Prop := Forall whole_char (chars s).

Lemma chars_go_need need r acc s :
  String.length r = S need → chars_go (S need) acc (r +:+ s) = (acc +:+ r) :: chars_go 0 "" s.
Proof.
  revert r acc. induction need as [|need IH]; intros [|b r] acc Hr; simpl in Hr; try done.
  - destruct r; [|done]. done.
  - injection Hr as Hr. simpl. rw (IH r _ Hr). by rw string_app_assoc.
Qed.

Lemma chars_cons c s : whole_char c → chars (c +:+ s) = c :: chars s.
Proof.
  destruct c as [|b r]; [done|]. simpl. intros Hr. unfold chars. simpl.
  destruct (utf8_extra b) as [|n]; [by destruct r|]. by rw (chars_go_need n r).
Qed.

Lemma chars_concat l : Forall whole_char l → chars (concat_str l) = l.
Proof. induction 1 as [|c l Hc _ IH]; simpl; [done|]. by rw chars_cons // IH. Qed.

(** ** Stripping *)

Lemma strip_ansi_sublist mode l : strip_ansi_chars mode l `sublist_of` l.
Proof.
  revert mode. induction l as [|c l IH]; intros mode; simpl; [done|].
  destruct mode; try (by apply sublist_cons).
  destruct (_ != _); [by apply sublist_skip|by apply sublist_cons].
Qed.

Lemma strip_ansi_no_esc mode l : ESC ∉ strip_ansi_chars mode l.
Proof.
  revert mode. induction l as [|c l IH]; intros mode; simpl; [apply not_elem_of_nil|].
  destruct mode; try apply IH.
  destruct (c != ESC) eqn:Hc; [|apply IH]. apply not_elem_of_cons. split; [|apply IH].
  apply negb_true_iff, bool_decide_eq_false in Hc. congruence.
Qed.

Lemma strip_ansi_plain l : ESC ∉ l → strip_ansi_chars InText l = l.
Proof.
  induction l as [|c l IH]; intros Hn; simpl; [done|].
  apply not_elem_of_cons in Hn as [Hc Hn]. rw bool_decide_false; [congruence|]. simpl. by rw IH.
Qed.

Lemma chars_strip s :
  whole_text s → chars (strip_ansi_escapes s) = strip_ansi_chars InText (chars s).
Proof.
  intros Hs. unfold strip_ansi_escapes. apply chars_concat. apply Forall_forall. intros c Hc.
  eapply elem_of_sublist in Hc; [|apply strip_ansi_sublist].
  revert c Hc. by apply Forall_forall.
Qed.

(** Stripping removes escape sequences and nothing else is left of them.  The
    stripped text has no escape character, is a subsequence of the characters
    of the input, is the input itself when that has no escape character, and
    stripping again changes nothing. *)
Theorem strip_ansi_clean s :
  whole_text s →
  (ESC ∉ chars (strip_ansi_escapes s)) ∧
  (chars (strip_ansi_escapes s) `sublist_of` chars s) ∧
  (ESC ∉ chars s → strip_ansi_escapes s = s) ∧
  strip_ansi_escapes (strip_ansi_escapes s) = strip_ansi_escapes s.
Proof.
  intros Hs. rw chars_strip //. split; [apply strip_ansi_no_esc|].
  split; [apply strip_ansi_sublist|]. split.
  - intros Hn. unfold strip_ansi_escapes. by rw strip_ansi_plain // concat_chars.
  - unfold strip_ansi_escapes at 1. rw chars_strip // strip_ansi_plain; [apply strip_ansi_no_esc|].
    done.
Qed.

(** ** Offsets *)

(** An offset between two characters of a text. *)
Definition boundary (l : list string) (e : nat) : Prop :=
  ∃ pre suf, l = pre ++ suf ∧ e = String.length (concat_str pre).

Lemma boundary_next l pre c suf :
  l = pre ++ c :: suf → boundary l (String.length (concat_str pre) + String.length c).
Proof.
  intros ->. exists (pre ++ [c]), suf. rw -app_assoc. split; [done|].
  rw concat_str_app str_length_app /= string_app_nil_r. done.
Qed.

Lemma normalize_go_boundary l pre suf ws acc :
  l = pre ++ suf → Forall (boundary l) (acc.*2) →
  Forall (boundary l) ((normalize_go (String.length (concat_str pre)) ws acc suf).*2).
Proof.
  revert pre ws acc. induction suf as [|c suf IH]; intros pre ws acc Hl Hacc; simpl; [done|].
  pose proof (boundary_next l pre c suf Hl) as Hb.
  assert (Hl' : l = (pre ++ [c]) ++ suf) by (by rw -app_assoc).
  assert (Hidx : String.length (concat_str (pre ++ [c])) =
    (String.length (concat_str pre) + String.length c)%nat).
  { by rw concat_str_app str_length_app /= string_app_nil_r. }
  rw -Hidx. rw -Hidx in Hb.
  assert (Hpush : ∀ x, Forall (boundary l) ((acc ++ [(x, String.length (concat_str (pre ++ [c])))]).*2)).
  { intros x. rw fmap_app. apply Forall_app_2; [done|]. by apply Forall_singleton. }
  destruct (is_whitespace c); [destruct acc as [|y acc]; [by apply IH|destruct ws; by apply IH]|].
  by apply IH.
Qed.

Lemma normalize_offsets s :
  Forall (boundary (chars s)) (normalize_whitespace_with_end_offsets s).2.
Proof.
  unfold normalize_whitespace_with_end_offsets. simpl.
  pose proof (normalize_go_boundary (chars s) [] (chars s) false [] eq_refl (Forall_nil_2 _)) as Hall.
  simpl in Hall. destruct (reverse _) as [|[c e] r] eqn:Hrev; [done|].
  destruct (c == " "); [|done].
  assert (Hacc : normalize_go 0 false [] (chars s) = reverse r ++ [(c, e)]).
  { rw -(reverse_involutive (normalize_go _ _ _ _)) Hrev. by rw reverse_cons. }
  rw Hacc fmap_app in Hall. by apply Forall_app in Hall as [? _].
Qed.

(** The reply is cut between two characters.  Where the echoed prompt is found
    in the terminal text, the offset it ends at splits the text into whole
    characters, so slicing there cannot panic and yields the characters that
    follow. *)
Theorem prompt_cut_is_boundary raw prompt e :
  prompt_match_end_byte raw prompt = Some e →
  ∃ pre suf, chars raw = pre ++ suf ∧ e = String.length (concat_str pre) ∧
             str_drop e raw = concat_str suf.
Proof.
  unfold prompt_match_end_byte. pose proof (normalize_offsets raw) as Hall.
  destruct (normalize_whitespace_with_end_offsets raw) as [nraw offs].
  destruct (normalize_whitespace_with_end_offsets prompt) as [nprompt _].
  destruct nprompt as [|b np]; [done|]. destruct (find nraw _) as [start|]; [|done]. simpl.
  destruct (length _) as [|n]; [done|]. intros Hn.
  assert (Hb : boundary (chars raw) e) by (by eapply Forall_lookup_1 in Hall).
  destruct Hb as (pre & suf & Hch & ->). exists pre, suf. split; [done|]. split; [done|].
  rw -{1}(concat_chars raw) Hch concat_str_app. apply str_drop_app.
Qed.

(** ** Finding the echo *)

(** Whether anything was kept yet, and whether the last thing kept is the
    space of a run of whitespace. *)
Fixpoint norm_chars (started ws : bool) (l : list string) : list string :=
  match l with
  | [] => []
  | c :: l' =>
      if is_whitespace c then
        if started && negb ws then " " :: norm_chars started true l' else norm_chars started ws l'
      else c :: norm_chars true false l'
  end.

Lemma normalize_go_chars idx ws acc l :
  (normalize_go idx ws acc l).*1 =
    (acc.*1) ++ norm_chars (match acc with [] => false | _ => true end) ws l.
Proof.
  revert idx ws acc. induction l as [|c l IH]; intros idx ws acc; cbn [normalize_go norm_chars];
    [by rw app_nil_r|].
  destruct (is_whitespace c).
  - destruct acc as [|x acc]; [by rw IH|]. destruct ws; [by rw IH|].
    rw IH (fmap_app fst (x :: acc)) -app_assoc. done.
  - rw IH fmap_app -app_assoc. by destruct acc.
Qed.

(** Text that starts and ends with a character that is not whitespace. *)
Definition ends_solid (l : list string) : Prop := ∃ c, last l = Some c ∧ is_whitespace c = false.
Definition starts_solid (l : list string) : Prop := ∃ c, head l = Some c ∧ is_whitespace c = false.

Lemma norm_chars_app st ws p q :
  ends_solid p → norm_chars st ws (p ++ q) = norm_chars st ws p ++ norm_chars true false q.
Proof.
  intros (c & [p' ->]%last_Some & Hc). revert st ws.
  induction p' as [|x p IH]; intros st ws; [simpl; by rw Hc|]. cbn [app norm_chars].
  destruct (is_whitespace x); [destruct (st && negb ws)|]; by rw IH.
Qed.

Lemma norm_chars_start st ws p :
  starts_solid p → norm_chars st ws p = norm_chars false false p.
Proof. intros (c & Hh & Hc). destruct p as [|x p]; [done|]. injection Hh as ->. simpl. by rw Hc. Qed.

Lemma norm_chars_split st ws a q :
  ∃ x y z, norm_chars st ws (a ++ q) = x ++ norm_chars y z q.
Proof.
  revert st ws. induction a as [|c a IH]; intros st ws; [by exists [], st, ws|].
  cbn [app norm_chars]. destruct (is_whitespace c); [destruct (st && negb ws)|].
  - destruct (IH st true) as (x & y & z & ->). by exists (" " :: x), y, z.
  - apply IH.
  - destruct (IH true false) as (x & y & z & ->). by exists (c :: x), y, z.
Qed.

Lemma norm_chars_last st ws p : ends_solid p → ends_solid (norm_chars st ws p).
Proof.
  intros (c & [p' ->]%last_Some & Hc). exists c. split; [|done].
  destruct (norm_chars_split st ws p' [c]) as (x & y & z & ->). simpl. rw Hc.
  apply last_Some. by exists x.
Qed.

Lemma whole_space : whole_char " ".
Proof. reflexivity. Qed.

Lemma norm_chars_whole st ws l : Forall whole_char l → Forall whole_char (norm_chars st ws l).
Proof.
  intros Hl. revert st ws. induction Hl as [|c l Hc _ IH]; intros st ws; simpl; [constructor|].
  destruct (is_whitespace c); [destruct (st && negb ws)|]; auto using whole_space.
Qed.

(** The normalized text of a list of characters, before and after the last
    space is dropped. *)
Definition drop_last_space (l : list string) : list string :=
  match reverse l with c :: r => if c == " " then reverse r else l | [] => l end.

Lemma drop_last_space_solid l : ends_solid l → drop_last_space l = l.
Proof.
  intros (c & [l' ->]%last_Some & Hc). unfold drop_last_space. rw reverse_snoc.
  rw bool_decide_false; [by intros ->|done].
Qed.

Lemma drop_last_space_app x y : ends_solid x → ∃ z, drop_last_space (x ++ y) = x ++ z.
Proof.
  intros Hx. destruct y as [|c y _] using rev_ind.
  { exists []. rw app_nil_r. by apply drop_last_space_solid. }
  unfold drop_last_space. rw app_assoc reverse_snoc.
  destruct (c == " "); [exists y|exists (y ++ [c])]; [by rw reverse_involutive|by rw app_assoc].
Qed.

Lemma normalize_chars s :
  let '(text, offs) := normalize_whitespace_with_end_offsets s in
  text = concat_str (drop_last_space (norm_chars false false (chars s))) ∧
  length offs = length (drop_last_space (norm_chars false false (chars s))).
Proof.
  unfold normalize_whitespace_with_end_offsets, drop_last_space.
  pose proof (normalize_go_chars 0 false [] (chars s)) as Hn. simpl in Hn. rw -Hn.
  rw -fmap_reverse. destruct (reverse _) as [|[c e] r] eqn:Hrev; simpl; [by rw !length_fmap|].
  destruct (c == " "); (split; [by rw ?fmap_reverse|]);
    by rw ?fmap_reverse ?length_reverse ?length_fmap ?length_reverse ?length_fmap.
Qed.

Lemma chars_go_some need acc s : acc ≠ "" → (1 ≤ length (chars_go need acc s))%nat.
Proof.
  revert need acc. induction s as [|b s IH]; intros need acc Hacc; simpl.
  { destruct acc; simpl; [done|lia]. }
  destruct need as [|[|need]]; simpl; [|lia|apply IH; by destruct acc].
  destruct (utf8_extra b); simpl; [lia|]. by apply IH.
Qed.

Lemma chars_go_take need acc s n :
  (need = 0%nat → acc = "") →
  (length (chars_go need acc (String.substring 0 n s)) ≤ length (chars_go need acc s))%nat.
Proof.
  revert need acc n. induction s as [|b s IH]; intros need acc n Hacc; [by destruct n|].
  destruct n as [|n].
  - destruct acc as [|x acc]; [simpl; lia|]. apply (chars_go_some need (String x acc)). done.
  - simpl. destruct need as [|[|need]]; simpl.
    + destruct (utf8_extra b) as [|k]; simpl; [apply le_n_S|]; by apply IH.
    + apply le_n_S. by apply IH.
    + by apply IH.
Qed.

Lemma substring_nonempty n s : (0 < n)%nat → s ≠ "" → String.substring 0 n s ≠ "".
Proof. destruct n; [lia|]. by destruct s. Qed.

Lemma offset_exists nraw (offs : list nat) np start :
  np ≠ "" → nraw ≠ "" → (length (chars nraw) ≤ length offs)%nat →
  is_Some (match length (chars (str_take (start + String.length np) nraw)) with
           | O => None
           | S n => offs !! n
           end).
Proof.
  intros Hnp Hnraw Hlen. unfold str_take. set (k := (start + String.length np)%nat).
  pose proof (chars_go_take 0 "" nraw k (λ _, eq_refl)) as Hle. fold (chars nraw) in Hle.
  fold (chars (String.substring 0 k nraw)) in Hle.
  assert (Hne : String.substring 0 k nraw ≠ "").
  { apply substring_nonempty; [|done]. unfold k. destruct np; simpl; [done|lia]. }
  destruct (length (chars (String.substring 0 k nraw))) as [|n] eqn:Hn;
    [|apply lookup_lt_is_Some; lia].
  apply length_zero_iff_nil in Hn. rw -(concat_chars (String.substring 0 k nraw)) Hn in Hne. done.
Qed.

Lemma concat_nonempty l c : Forall whole_char l → last l = Some c → concat_str l ≠ "".
Proof. intros Hl Hc. destruct Hl as [|[|b r] l Hb _]; done. Qed.

Lemma drop_last_space_whole l : Forall whole_char l → Forall whole_char (drop_last_space l).
Proof.
  intros Hl. unfold drop_last_space. destruct (reverse l) as [|c r] eqn:Hr; [done|].
  destruct (c == " "); [|done]. apply Forall_reverse in Hl. rw Hr in Hl.
  apply Forall_reverse. by apply Forall_cons in Hl as [_ ?].
Qed.

Lemma chars_app x y : whole_text x → chars (x +:+ y) = chars x ++ chars y.
Proof.
  intros Hx. rw -{1}(concat_chars x). unfold whole_text in Hx.
  induction Hx as [|c l Hc _ IH]; simpl; [done|]. by rw string_app_assoc chars_cons // IH.
Qed.

(** An echoed prompt is found.  Whatever the terminal shows before and after
    it, a prompt that starts and ends with a character that is not whitespace
    is found in text that contains it, so the reply is cut after some
    occurrence of the prompt. *)
Theorem echoed_prompt_found a p b :
  whole_text a → whole_text p → whole_text b → starts_solid (chars p) → ends_solid (chars p) →
  is_Some (prompt_match_end_byte (a +:+ p +:+ b) p).
Proof.
  intros Ha Hp Hb Hst Hen.
  unfold prompt_match_end_byte.
  pose proof (normalize_chars (a +:+ p +:+ b)) as Hraw. pose proof (normalize_chars p) as Hpr.
  destruct (normalize_whitespace_with_end_offsets (a +:+ p +:+ b)) as [nraw offs].
  destruct (normalize_whitespace_with_end_offsets p) as [np poffs].
  destruct Hraw as [Hraw Hoffs], Hpr as [Hpr _].
  rw !chars_app // in Hraw Hoffs.
  set (N := norm_chars false false (chars p)) in *.
  assert (HN : ends_solid N) by (by apply norm_chars_last).
  rw drop_last_space_solid // in Hpr.
  assert (Hlist : ∃ x z, drop_last_space (norm_chars false false (chars a ++ chars p ++ chars b)) =
    (x ++ N) ++ z).
  { destruct (norm_chars_split false false (chars a) (chars p ++ chars b)) as (x & y & z & ->).
    rw norm_chars_app // norm_chars_start // app_assoc. fold N.
    destruct (drop_last_space_app (x ++ N) (norm_chars true false (chars b))) as [z' ->];
      [|by exists x, z'].
    destruct HN as (c & [N' ->]%last_Some & Hc). exists c. split; [|done].
    apply last_Some. exists (x ++ N'). by rw app_assoc. }
  destruct Hlist as (x & z & Hlist).
  assert (Hwhole : Forall whole_char ((x ++ N) ++ z)).
  { rw -Hlist. apply drop_last_space_whole, norm_chars_whole. by repeat apply Forall_app_2. }
  rw Hlist in Hraw Hoffs.
  assert (Hnp : np ≠ "").
  { rw Hpr. destruct HN as (c & Hc & _). eapply concat_nonempty; [|exact Hc].
    by apply norm_chars_whole. }
  assert (Hfind : is_Some (find nraw np)).
  { rw Hraw Hpr -app_assoc !concat_str_app. apply index_app_mid. }
  assert (Hlen : (length (chars nraw) ≤ length offs)%nat) by (rw Hraw chars_concat // Hoffs; lia).
  assert (Hnraw : nraw ≠ "").
  { intros ->. destruct Hfind as [k Hk]. by destruct np. }
  clear Hpr Hraw Hoffs. destruct Hfind as [start Hstart].
  destruct np as [|c0 np]; [done|]. rw Hstart. by apply offset_exists.
Qed.
