(* ===== verification/AgentsProofs.v ===== *)
(** * What the life of an agent's slot guarantees

    An id can be taken once and is free again when its agent was killed; a
    spawn specification is stored under the agent and numbered; the
    replacement of a killed agent gives the new one the interrupted job of the
    old. *)
From S2P Require Import Prelude Json Schema Sql MasterTables JobGate Invariant AgentGate Text Jobs JobsProofs.
From S2P Require Import Agents Recovery.

(** ** Taking an id *)

Section Slots.
Context {EXT : Externals}.

Definition add_agent (row : Agent) (db : Db) : Db :=
  set_agents (<[row.(a_id) := row]> db.(agents)) db.

(** What [insert_agent_sync] answers and what it makes of the tables. *)
Definition insert_agent_outcome (row : Agent) (db : Db) : Result unit CcbdError * Db :=
  let taken : Result unit CcbdError := Err (AgentAlreadyExists row.(a_id)) in
  if starts_with row.(a_id) "master:" then
    (Err (IpcInvalidRequest "agent_id prefix 'master:' is reserved for master hook sentinels"), db)
  else
  let session_exists := bool_decide (is_Some (db.(sessions) !! row.(a_session_id))) in
  match db.(agents) !! row.(a_id) with
  | None => if session_exists then (Ok tt, add_agent row db) else (taken, db)
  | Some a =>
      if bool_decide (a.(a_state) ≠ "KILLED") then (taken, db)
      else if dangling_event_refs (cascade_agent row.(a_id) db) then
        (Err (map_db_error "delete killed agent before insert" ForeignKeyViolation), db)
      else if session_exists then (Ok tt, add_agent row (cascade_agent row.(a_id) db))
      else (taken, cascade_agent row.(a_id) db)
  end.

(** Who gets an agent id.  A reserved id is refused; a free id is given
    under a session that exists; a killed agent gives its id up, with its jobs,
    events, evidence, intents and specs; in every other case the answer is that
    the agent exists.  The last answer is also the one for a session that does
    not exist, where nothing is written, or, when the id was a killed agent's,
    that agent is gone. *)
Theorem insert_agent_functional agent_id session_id provider state pid w :
  let row := new_agent w.(w_now) agent_id session_id provider state pid in
  let '(answer, db) := insert_agent_outcome row w.(w_db) in
  ∃ w', insert_agent_sync agent_id session_id provider state pid w = (answer, w') ∧
    w'.(w_db) = db ∧ w'.(w_now) = w.(w_now).
Proof.
  unfold insert_agent_outcome, insert_agent_sync. cbn [new_agent a_id a_session_id].
  destruct (starts_with agent_id "master:"); [by eexists|]. step_pure.
  unfold try_, insert_agent_row, delete_agent_row, query_agent_row, map_err, mbind, M_bind.
  cbn [new_agent a_id a_session_id].
  destruct (w.(w_db).(agents) !! agent_id) as [a|] eqn:Ha.
  - cbn. rw Ha. cbn. assert (Hk : (Some a.(a_state) != Some "KILLED") =
      bool_decide (a.(a_state) ≠ "KILLED")).
    { rw -bool_decide_not. apply bool_decide_ext. split; congruence. }
    rw Hk. destruct (bool_decide (a.(a_state) ≠ "KILLED")); [by eexists|]. rw Ha.
    destruct (dangling_event_refs (cascade_agent agent_id w.(w_db))); [by eexists|].
    cbn -[cascade_agent]. change (agents (cascade_agent agent_id w.(w_db))) with
      (delete agent_id w.(w_db).(agents)). rw lookup_delete_eq.
    change (sessions (cascade_agent agent_id w.(w_db))) with w.(w_db).(sessions).
    by destruct (w.(w_db).(sessions) !! session_id); eexists.
  - destruct (w.(w_db).(sessions) !! session_id) eqn:Hs; cbn; [by eexists|]. rw Ha. by eexists.
Qed.

Lemma insert_agent_fresh agent_id session_id provider state pid w :
  starts_with agent_id "master:" = false → w.(w_db).(agents) !! agent_id = None →
  is_Some (w.(w_db).(sessions) !! session_id) →
  insert_agent_sync agent_id session_id provider state pid w =
    (Ok tt, add_effect (SendRuntimeUpdate AgentChanged)
              (set_db (add_agent (new_agent w.(w_now) agent_id session_id provider state pid)
                         w.(w_db)) w)).
Proof.
  intros Hm Ha [s Hs]. unfold insert_agent_sync. rw Hm. step_pure.
  unfold try_, insert_agent_row, mbind, M_bind. cbn [new_agent a_id a_session_id]. by rw Ha Hs.
Qed.

End Slots.

(** ** Spawn specs *)

Section Specs.
Context {EXT : Externals} {SPEC : SpawnSpecSerde}.

Definition spec_number (agent_id : string) (db : Db) : Z :=
  from_option sp_spec_version 0 (db.(spawn_specs) !! agent_id).

Definition spec_row (now : Z) (spec : AgentSpawnSpec) (config_hash : string) (db : Db) :
    SpawnSpecRow :=
  MkSpawnSpecRow spec.(ss_agent_id) (spec_number spec.(ss_agent_id) db + 1) spec.(ss_provider)
    config_hash (spec_to_string spec) now.

Lemma persist_spec_run w spec config_hash :
  is_Some (w.(w_db).(agents) !! spec.(ss_agent_id)) →
  persist_agent_spawn_spec_sync spec config_hash w =
    (Ok tt, set_db (set_spawn_specs
      (<[spec.(ss_agent_id) := spec_row w.(w_now) spec config_hash w.(w_db)]>
         w.(w_db).(spawn_specs)) w.(w_db)) w).
Proof.
  intros [a Ha]. unfold persist_agent_spawn_spec_sync. apply map_err_ok.
  unfold upsert_spec_row, spec_row, spec_number. rw Ha. by destruct (spawn_specs _ !! _).
Qed.

Lemma query_spec_run w agent_id spec config_hash version provider at_ :
  w.(w_db).(spawn_specs) !! agent_id =
    Some (MkSpawnSpecRow agent_id version provider config_hash (spec_to_string spec) at_) →
  spec_valid spec →
  query_agent_spawn_spec_sync agent_id w = (Ok (Some (MkStoredSpec spec config_hash version at_)), w).
Proof.
  intros Hr Hv. unfold query_agent_spawn_spec_sync. step_pure. rw Hr.
  erewrite bind_ok; [apply ret_run|]. unfold of_result, stored_spec. cbn. by rw spec_from_to.
Qed.

Definition persist_specs (l : list (AgentSpawnSpec * string)) : M CcbdError unit :=
  for_ l (λ '(spec, config_hash), persist_agent_spawn_spec_sync spec config_hash).

Lemma persist_specs_run agent_id specs w :
  is_Some (w.(w_db).(agents) !! agent_id) →
  Forall (λ p : AgentSpawnSpec * string, p.1.(ss_agent_id) = agent_id) specs →
  ∃ w', (∀ rest, persist_specs (specs ++ rest) w = persist_specs rest w') ∧
    w'.(w_now) = w.(w_now) ∧ w'.(w_db).(agents) = w.(w_db).(agents) ∧
    spec_number agent_id w'.(w_db) = spec_number agent_id w.(w_db) + Z.of_nat (length specs).
Proof.
  intros Hag Hall. revert w Hag.
  induction Hall as [|[spec hash] specs Hid Hall IH]; intros w Hag; simpl in *.
  { exists w. repeat split. lia. }
  pose proof (persist_spec_run w spec hash ltac:(by rw Hid)) as Hrun.
  set (w1 := set_db _ w) in Hrun.
  destruct (IH w1 Hag) as (w' & Hw' & Hn & Ha & Hnum).
  exists w'. split.
  { intros rest. unfold persist_specs. simpl. rw (bind_ok _ _ _ _ _ Hrun). apply Hw'. }
  split; [done|]. split; [done|]. rw Hnum. unfold w1, spec_number at 1. cbn.
  rw Hid lookup_insert_eq. cbn. rw Hid. lia.
Qed.

(** An agent's spawn specification is the last one persisted.  Whatever
    specifications were persisted for an agent before, in whatever number, the
    query answers the last one with its configuration hash, numbered by how
    many there have been. *)
Theorem spawn_spec_latest w agent_id specs spec config_hash :
  is_Some (w.(w_db).(agents) !! agent_id) → w.(w_db).(spawn_specs) !! agent_id = None →
  Forall (λ p : AgentSpawnSpec * string, p.1.(ss_agent_id) = agent_id)
    (specs ++ [(spec, config_hash)]) → spec_valid spec →
  ∃ w', persist_specs (specs ++ [(spec, config_hash)]) w = (Ok tt, w') ∧
    query_agent_spawn_spec_sync agent_id w' =
      (Ok (Some (MkStoredSpec spec config_hash (Z.of_nat (S (length specs))) w.(w_now))), w').
Proof.
  intros Hag Hno [Hall Hlast]%Forall_app Hv. rw Forall_singleton in Hlast. simpl in Hlast.
  destruct (persist_specs_run agent_id specs w Hag Hall) as (w1 & Hrun & Hn & Ha & Hnum).
  assert (Hag1 : is_Some (w1.(w_db).(agents) !! spec.(ss_agent_id))) by (by rw Hlast Ha).
  pose proof (persist_spec_run w1 spec config_hash Hag1) as Hp. rw Hlast in Hp.
  eexists. split.
  { rw Hrun. unfold persist_specs. simpl. rw (bind_ok _ _ _ _ _ Hp). reflexivity. }
  apply (query_spec_run _ _ _ _ _ spec.(ss_provider)); [|done]. cbn. rw lookup_insert_eq.
  unfold spec_row. rw Hlast Hnum Hn. unfold spec_number. rw Hno.
  repeat f_equal. cbn [from_option]. lia.
Qed.

End Specs.

(** ** Replacing a killed agent *)

Section Replace.
Context {EXT : Externals} {SPEC : SpawnSpecSerde}.

(** The row a captured job is restored as. *)
Definition restored_job (now rowid : Z) (agent_id : string) (c : CapturedInterruptedJob) : Job :=
  MkJob c.(cj_id) rowid agent_id c.(cj_request_id) c.(cj_prompt_text) None "QUEUED"
    (Some (recovery_requeued_error_reason 0)) now None None None c.(cj_cancel_requested)
    c.(cj_requires_physical_evidence) c.(cj_requires_test_evidence).

(** An agent with no job has no request id taken. *)
Lemma no_job_no_request db agent_id rq :
  (∀ k j, db.(jobs) !! k = Some j → j.(j_agent_id) ≠ agent_id) →
  job_idempotency_taken db agent_id rq = false.
Proof.
  intros Hno. destruct rq as [r|]; [|done]. apply not_true_iff_false.
  intros (j & [k Hk]%list_elem_of_In%elem_of_table_rows & Hj)%existsb_exists.
  apply andb_true_iff in Hj as [Hj%bool_decide_eq_true _]. by apply (Hno k j).
Qed.

Lemma restore_run w i c :
  (∀ k j, w.(w_db).(jobs) !! k = Some j → j.(j_agent_id) ≠ i.(in_agent_id)) →
  w.(w_db).(jobs) !! c.(cj_id) = None → is_Some (w.(w_db).(agents) !! i.(in_agent_id)) →
  i.(in_action) = Revive → i.(in_interrupted_job_id) = Some c.(cj_id) →
  i.(in_interrupted_job) = Some c →
  ∃ w', requeue_interrupted_job_from_captured_intent_sync i w = (Ok 1%nat, w') ∧
    w'.(w_db).(jobs) = <[c.(cj_id) := restored_job w.(w_now) (next_rowid w.(w_db).(jobs))
                                        i.(in_agent_id) c]> w.(w_db).(jobs) ∧
    w'.(w_db).(agents) = w.(w_db).(agents) ∧ w'.(w_db).(spawn_specs) = w.(w_db).(spawn_specs) ∧
    w'.(w_now) = w.(w_now).
Proof.
  intros Hno Hfree Hag Hact Hid Hc.
  set (row := restored_job w.(w_now) (next_rowid w.(w_db).(jobs)) i.(in_agent_id) c).
  set (w1 := set_db (set_jobs (<[c.(cj_id) := row]> w.(w_db).(jobs)) w.(w_db)) w).
  assert (Hrec : ∀ o n k f r, k ∈ ["job_transition"; "job_updated"] →
    record_job_transition_conn_sync c.(cj_id) o n k f r w1 =
    (Ok tt, set_db (append_audit (λ id, audit_row id w1.(w_now) row o n k f r) w1.(w_db)) w1)).
  { intros o n k f r Hk. apply record_job_transition_run; [apply lookup_insert_eq|done|done|done]. }
  eexists. split.
  { unfold requeue_interrupted_job_from_captured_intent_sync, query_job_sync. rw Hact Hid Hc.
    change (Revive != Revive) with false. cbv iota. step_pure. rw Hfree. step_pure.
    change (0%nat == 1%nat) with false. cbv iota.
    erewrite bind_ok; cycle 1.
    { unfold insert_recovered_queued_job_sync. step_pure. erewrite bind_ok; cycle 1.
      { unfold try_, insert_job_row. cbn [j_id j_agent_id j_request_id].
        rw no_job_no_request // Hfree. destruct Hag as [a ->]. reflexivity. }
      cbv beta. cbn [set_db]. rw (bind_ok _ _ _ _ _ (Hrec _ _ _ _ _ _)); [apply list_elem_of_here|].
      apply ret_run. }
    rw bool_decide_true //. }
  done.
Qed.

(** The row of the new agent of a replacement. *)
Definition replacement (now : Z) (session_id : string) (spec : AgentSpawnSpec)
    (config_hash : string) (pid : Z) : Agent :=
  set_a_updated_at now (set_a_retry_exhausted false (set_a_next_retry_at None (set_a_retry_count 0
    (set_a_updated_at now (set_a_config_hash (Some config_hash)
       (new_agent now spec.(ss_agent_id) session_id spec.(ss_provider) "SPAWNING" (Some pid))))))).

(** The tables of a replacement before the interrupted job is put back. *)
Definition replaced_db (now : Z) (session_id : string) (spec : AgentSpawnSpec)
    (config_hash : string) (pid : Z) (db : Db) : Db :=
  let db1 := cascade_agent spec.(ss_agent_id) db in
  set_agents (<[spec.(ss_agent_id) := replacement now session_id spec config_hash pid]>
                db1.(agents))
    (set_spawn_specs (<[spec.(ss_agent_id) := MkSpawnSpecRow spec.(ss_agent_id) 1
       spec.(ss_provider) config_hash (spec_to_string spec) now]> db1.(spawn_specs)) db1).

Lemma write_agent_run {E} w id (f : Agent → Agent) a :
  w.(w_db).(agents) !! id = Some a →
  (update_agent id (λ _, true) f;; mret tt : M E unit) w =
    (Ok tt, set_db (set_agents (<[id := f a]> w.(w_db).(agents)) w.(w_db)) w).
Proof. intros Ha. by rw (bind_ok _ _ _ _ _ (update_agent_hit w id (λ _, true) f a Ha eq_refl)). Qed.

Lemma replace_run w session_id spec config_hash pid i a w2 :
  w.(w_db).(agents) !! spec.(ss_agent_id) = Some a → a.(a_state) = "KILLED" →
  starts_with spec.(ss_agent_id) "master:" = false →
  is_Some (w.(w_db).(sessions) !! session_id) →
  dangling_event_refs (cascade_agent spec.(ss_agent_id) w.(w_db)) = false →
  requeue_interrupted_job_from_captured_intent_sync i
    (add_effect (SendRuntimeUpdate AgentChanged)
       (set_db (replaced_db w.(w_now) session_id spec config_hash pid w.(w_db)) w)) =
    (Ok 1%nat, w2) →
  replace_killed_agent_and_requeue_job_sync session_id spec config_hash pid (Some i) w =
    (Ok 1%nat, add_effect (SendRuntimeUpdate JobChanged) w2).
Proof.
  intros Ha Hk Hm Hs Hd Hreq. set (id := spec.(ss_agent_id)) in *.
  set (w1 := set_db (cascade_agent id w.(w_db)) w).
  assert (Hdel : delete_agent_row id w = (Ok 1%nat, w1)).
  { unfold delete_agent_row. by rw Ha Hd. }
  assert (Hfree : w1.(w_db).(agents) !! id = None) by (cbn; apply lookup_delete_eq).
  pose proof (insert_agent_fresh id session_id spec.(ss_provider) "SPAWNING" (Some pid) w1 Hm Hfree Hs)
    as Hins.
  set (w3 := add_effect _ _) in Hins.
  unfold replace_killed_agent_and_requeue_job_sync. fold id. erewrite bind_ok; cycle 1.
  { apply transaction_ok. unfold query_agent_row. step_pure. rw Ha. cbn [fmap option_fmap option_map].
    rw Hk. change (Some "KILLED" != Some "KILLED") with false. cbv iota.
    rw (bind_ok _ _ _ _ _ (map_err_ok _ _ _ _ _ Hdel)) (bind_ok _ _ _ _ _ Hins).
    unfold update_agent_config_hash_sync, clear_recovery_backoff_sync.
    erewrite bind_ok; [cbv beta|rw bind_asks; apply write_agent_run; apply lookup_insert_eq].
    erewrite bind_ok; [cbv beta|apply persist_spec_run; cbn; rw lookup_insert_eq; by eexists].
    erewrite bind_ok; [cbv beta|rw bind_asks; apply write_agent_run; apply lookup_insert_eq].
    erewrite bind_ok; [apply ret_run|]. rewrite <- Hreq. f_equal.
    unfold replaced_db, add_effect, w3, w1, add_agent, spec_row, spec_number. cbn -[cascade_agent].
    change (spawn_specs (cascade_agent id w.(w_db))) with (delete id w.(w_db).(spawn_specs)).
    fold id. rw !insert_insert_eq lookup_delete_eq. reflexivity. }
  reflexivity.
Qed.

(** The replacement of a killed agent takes over its interrupted job.  When
    the captured intent asks for a revival and holds the job, and that job is
    nobody else's, the replacement succeeds in one step: the new agent is
    spawning under the given process and configuration with no failures
    counted, its specification is stored, the job is back in its queue as it
    was captured, and the jobs of the other agents are as they were. *)
Theorem replacement_restores_job w session_id spec config_hash pid i c a :
  w.(w_db).(agents) !! spec.(ss_agent_id) = Some a → a.(a_state) = "KILLED" →
  starts_with spec.(ss_agent_id) "master:" = false →
  is_Some (w.(w_db).(sessions) !! session_id) →
  dangling_event_refs (cascade_agent spec.(ss_agent_id) w.(w_db)) = false →
  i.(in_agent_id) = spec.(ss_agent_id) → i.(in_action) = Revive →
  i.(in_interrupted_job_id) = Some c.(cj_id) → i.(in_interrupted_job) = Some c →
  (∀ j, w.(w_db).(jobs) !! c.(cj_id) = Some j → j.(j_agent_id) = spec.(ss_agent_id)) →
  spec_valid spec →
  ∃ w' rowid,
    replace_killed_agent_and_requeue_job_sync session_id spec config_hash pid (Some i) w =
      (Ok 1%nat, w') ∧
    w'.(w_db).(agents) =
      <[spec.(ss_agent_id) := replacement w.(w_now) session_id spec config_hash pid]>
        w.(w_db).(agents) ∧
    query_agent_spawn_spec_sync spec.(ss_agent_id) w' =
      (Ok (Some (MkStoredSpec spec config_hash 1 w.(w_now))), w') ∧
    w'.(w_db).(jobs) !! c.(cj_id) =
      Some (restored_job w.(w_now) rowid spec.(ss_agent_id) c) ∧
    (∀ k j, k ≠ c.(cj_id) → w'.(w_db).(jobs) !! k = Some j ↔
       w.(w_db).(jobs) !! k = Some j ∧ j.(j_agent_id) ≠ spec.(ss_agent_id)).
Proof.
  intros Ha Hk Hm Hs Hd Hia Hact Hid Hc Hown Hv.
  set (db1 := replaced_db w.(w_now) session_id spec config_hash pid w.(w_db)).
  set (w1 := add_effect (SendRuntimeUpdate AgentChanged) (set_db db1 w)).
  assert (Hjobs1 : ∀ k j, w1.(w_db).(jobs) !! k = Some j ↔
    w.(w_db).(jobs) !! k = Some j ∧ j.(j_agent_id) ≠ spec.(ss_agent_id)).
  { intros k j. apply (lookup_cascade_jobs spec.(ss_agent_id) w.(w_db)). }
  destruct (restore_run w1 i c) as (w2 & Hreq & Hj2 & Ha2 & Hs2 & Hn2); try done.
  - intros k j [_ Hne]%Hjobs1. by rw Hia.
  - apply eq_None_not_Some. intros [j [Hj Hne]%Hjobs1]. by apply Hne, Hown.
  - rw Hia. cbn. rw lookup_insert_eq. by eexists.
  - exists (add_effect (SendRuntimeUpdate JobChanged) w2), (next_rowid w1.(w_db).(jobs)).
    split; [by eapply replace_run|]. cbn [add_effect w_db]. rw Ha2 Hj2 Hia lookup_insert_eq. split.
    { cbn. by rw insert_delete_eq. }
    split.
    { apply (query_spec_run _ _ _ _ _ spec.(ss_provider)); [|done]. cbn [add_effect w_db]. rw Hs2.
      cbn. by rw lookup_insert_eq. }
    split; [done|]. intros k j Hne. rw lookup_insert_ne //.
Qed.

End Replace.
