(* ===== verification/LifecycleProofs.v ===== *)
(** * What the end of an agent guarantees

    A crash captures an intent from which recovery requeues exactly the job
    that was interrupted; a lost or killed agent leaves no dispatched job
    behind; retries back off and stop. *)
From S2P Require Import Prelude Json Schema Sql MasterTables JobGate Invariant AgentGate Text Jobs JobsProofs.
From S2P Require Import Evidence StateMachine StateMachineProofs Agents Recovery Lifecycle.

Lemma sound_step {E A} (m : M E A) w r w' :
  respects sound m → m w = (r, w') → consistent w.(w_db) → consistent w'.(w_db).
Proof. intros Hm Hrun Hc. specialize (Hm w). rw Hrun in Hm. by apply Hm. Qed.

(** ** Intents *)

Section Intents.
Context {EXT : Externals} {SPEC : SpawnSpecSerde}.

(** The captured job is the one the intent names. *)
Definition intent_coherent (i : AgentRecoveryIntent) : Prop :=
  ∀ c, i.(in_interrupted_job) = Some c → i.(in_interrupted_job_id) = Some c.(cj_id).

Lemma action_from_as_db_str a : action_from_db_str (action_as_db_str a) = Ok a.
Proof. by destruct a. Qed.

Lemma flag_of_bool b : flag_of (Some (i64_of_bool b)) = b.
Proof. by destruct b. Qed.

Lemma intent_of_intent_row now old i :
  intent_coherent i → intent_of_row (intent_row now old i) = Ok i.
Proof.
  intros Hco. unfold intent_of_row, intent_row. simpl. rw action_from_as_db_str.
  destruct i as [ag se pr pv cv jid jst [c|] act re]; simpl in *.
  - specialize (Hco c eq_refl). simpl in Hco. subst jid. rw !flag_of_bool. by destruct c.
  - by destruct jid.
Qed.

(** The tables after an intent is persisted. *)
Definition intent_db (now : Z) (i : AgentRecoveryIntent) (db : Db) : Db :=
  set_recovery_intents
    (<[i.(in_agent_id) := intent_row now (db.(recovery_intents) !! i.(in_agent_id)) i]>
       db.(recovery_intents)) db.

Lemma persist_intent_run w i :
  is_Some (w.(w_db).(agents) !! i.(in_agent_id)) →
  persist_agent_recovery_intent_sync i w = (Ok tt, set_db (intent_db w.(w_now) i w.(w_db)) w).
Proof.
  intros [a Ha]. unfold persist_agent_recovery_intent_sync. apply map_err_ok.
  unfold upsert_intent_row, intent_db. rw Ha. by destruct (recovery_intents _ !! _).
Qed.

Lemma query_intent_run w id row i :
  w.(w_db).(recovery_intents) !! id = Some row → row.(i_consumed_at) = None →
  intent_of_row row = Ok i → query_agent_recovery_intent_sync id w = (Ok (Some i), w).
Proof.
  intros Hr Hc Hi. unfold query_agent_recovery_intent_sync. step_pure. rw Hr Hc. simpl.
  erewrite bind_ok; [apply ret_run|]. unfold of_result. by rw Hi.
Qed.

(** The intent a crash captures. *)
Definition captured_intent (a : Agent) (prev reason : string) (cur : option Job) :
    AgentRecoveryIntent :=
  MkIntent a.(a_id) a.(a_session_id) a.(a_provider) prev a.(a_state_version)
    (j_id <$> cur) (j_status <$> cur)
    ((λ j, MkCapturedJob j.(j_id) j.(j_request_id) j.(j_prompt_text) j.(j_cancel_requested)
             j.(j_requires_physical_evidence) j.(j_requires_test_evidence)) <$> cur)
    (recovery_action prev reason (bool_decide (is_Some cur))) reason.

Lemma captured_intent_coherent a prev reason cur : intent_coherent (captured_intent a prev reason cur).
Proof. intros c. destruct cur; simpl; [|done]. by intros [= <-]. Qed.

Lemma capture_run w a prev reason :
  w.(w_db).(agents) !! a.(a_id) = Some a →
  capture_recovery_intent_for_crash a.(a_id) (Some prev) reason w =
    (Ok tt, set_db (intent_db w.(w_now)
              (captured_intent a prev reason (current_job a.(a_id) w.(w_db))) w.(w_db)) w).
Proof.
  intros Ha. unfold capture_recovery_intent_for_crash, query_agent_row. step_pure. rw Ha.
  step_pure. cbv zeta. fold (current_job a.(a_id) w.(w_db)).
  by rw -(persist_intent_run w (captured_intent a prev reason (current_job a.(a_id) w.(w_db)))) /= ?Ha.
Qed.

End Intents.

(** ** Crashes *)

Section Crash.
Context {EXT : Externals} {SPEC : SpawnSpecSerde}.

(** The reason a crash is recorded under. *)
Definition crash_reason (exit_code : option Z) (error_code : string) : string :=
  if (error_code == "AGENT_UNEXPECTED_EXIT") && (exit_code == None)
  then "EXIT_CODE_UNAVAILABLE_NON_CHILD" else error_code.

Definition crashed_row (now : Z) (exit_code : option Z) (error_code : string) (a : Agent) : Agent :=
  bump_version now (set_a_error_code (Some error_code)
    (set_a_exit_code exit_code (set_a_state "CRASHED" a))).

(** The four statements of a crash, in the order of the transaction. *)
Lemma crash_sequence w w1 w2 w3 w4 agent_id a exit_code error_code n ids seq :
  let reason := crash_reason exit_code error_code in
  w.(w_db).(agents) !! agent_id = Some a →
  (update_agent agent_id (λ b, negb (b.(a_state) is_in ["CRASHED"; "KILLED"; "PROMPT_PENDING"]))
    (crashed_row w.(w_now) exit_code error_code) : M CcbdError nat) w = (Ok 1%nat, w1) →
  capture_recovery_intent_for_crash agent_id (Some a.(a_state)) reason w1 = (Ok tt, w2) →
  mark_dispatched_jobs_failed_for_agent_conn_collect_sync agent_id reason w2 = (Ok (n, ids), w3) →
  insert_event_null "insert crashed state_change" agent_id "state_change"
    (json_object [("from", JString a.(a_state)); ("to", JString "CRASHED");
       ("reason", JString reason); ("exit_code", json_opt JNumber exit_code)]) w3 = (Ok seq, w4) →
  ∃ out, mark_agent_crashed_sync agent_id exit_code error_code w =
    (Ok 1%nat, MkWorld w4.(w_db) w4.(w_now) out w4.(w_log_monitors) w4.(w_pending_tasks)).
Proof.
  intros reason Ha Hup Hcap Hfail Hev.
  unfold mark_agent_crashed_sync, query_agent_row. cbv beta zeta. eexists.
  erewrite bind_ok; [|apply transaction_ok].
  2:{ step_pure. rw Ha. cbn [fmap option_fmap option_map]. step_pure.
      rw (bind_ok _ _ _ _ _ Hup). change (1%nat == 1%nat) with true.
      change (bool_decide (0 < 1)%nat) with true. unfold when at 1.
      erewrite bind_ok; [cbv beta|rw (bind_ok _ _ _ _ _ Hcap)].
      2:{ unfold mark_dispatched_jobs_failed_for_agent_conn_sync.
          erewrite bind_ok; [cbv beta|rw (bind_ok _ _ _ _ _ Hfail); apply ret_run].
          rw (bind_ok _ _ _ _ _ Hev). apply ret_run. }
      unfold query_cleanup_policy, query_agent_row. cbv iota.
      erewrite bind_ok; [apply ret_run|]. step_pure. apply ret_run. }
  cbv beta iota. change (bool_decide (0 < 1)%nat) with true. unfold when. reflexivity.
Qed.

Lemma crash_run w agent_id a exit_code error_code :
  consistent w.(w_db) → w.(w_db).(agents) !! agent_id = Some a →
  a.(a_state) ∉ ["CRASHED"; "KILLED"; "PROMPT_PENDING"] →
  let reason := crash_reason exit_code error_code in
  let a' := crashed_row w.(w_now) exit_code error_code a in
  let ids := j_id <$> order_by dispatched_le (agent_jobs agent_id "DISPATCHED" w.(w_db)) in
  ∃ w', mark_agent_crashed_sync agent_id exit_code error_code w = (Ok 1%nat, w') ∧
    consistent w'.(w_db) ∧ w'.(w_now) = w.(w_now) ∧
    w'.(w_db).(agents) = <[agent_id := a']> w.(w_db).(agents) ∧
    w'.(w_db).(recovery_intents) !! agent_id =
      Some (intent_row w.(w_now) (w.(w_db).(recovery_intents) !! agent_id)
              (captured_intent a' a.(a_state) reason (current_job agent_id w.(w_db)))) ∧
    (∀ id j, w.(w_db).(jobs) !! id = Some j →
      w'.(w_db).(jobs) !! id =
        Some (if bool_decide (id ∈ ids) then failed_row w.(w_now) reason j else j)) ∧
    (∀ id, w.(w_db).(jobs) !! id = None → w'.(w_db).(jobs) !! id = None).
Proof.
  intros Hc Ha Hns reason a' ids.
  pose proof (wf_agent_key _ (proj1 Hc) _ _ Ha) as Hid.
  set (w1 := set_db (set_agents (<[agent_id := a']> w.(w_db).(agents)) w.(w_db)) w).
  set (f := λ b, crashed_row w.(w_now) exit_code error_code b).
  set (g := λ b : Agent, negb (b.(a_state) is_in ["CRASHED"; "KILLED"; "PROMPT_PENDING"])).
  assert (Hup : (update_agent agent_id g f : M CcbdError nat) w = (Ok 1%nat, w1)).
  { apply update_agent_hit; [done|]. unfold g. by rw bool_decide_false. }
  assert (Hc1 : consistent w1.(w_db)).
  { eapply (sound_step _ _ _ _ _ Hup Hc). Unshelve. unfold f, g, crashed_row. eauto with respects. }
  assert (Ha1 : w1.(w_db).(agents) !! a'.(a_id) = Some a') by (rw /= Hid; apply lookup_insert_eq).
  pose proof (capture_run w1 a' a.(a_state) reason Ha1) as Hcap.
  change (a'.(a_id)) with (a.(a_id)) in Hcap. rw Hid in Hcap.
  change (current_job agent_id w1.(w_db)) with (current_job agent_id w.(w_db)) in Hcap.
  set (intent := captured_intent _ _ _ _) in Hcap. set (w2 := set_db _ _) in Hcap.
  assert (Hc2 : consistent w2.(w_db)).
  { eapply (sound_step _ _ _ _ _ Hcap Hc1). Unshelve. apply sound_capture_intent. }
  destruct (fail_agent_run w2 agent_id reason Hc2)
    as (w3 & Hfail & Hc3 & Hn3 & Hin3 & Hout3 & Ha3 & _ & _ & _ & Hi3).
  change (agent_jobs agent_id "DISPATCHED" w2.(w_db))
    with (agent_jobs agent_id "DISPATCHED" w.(w_db)) in Hfail, Hin3. fold ids in Hfail, Hin3.
  set (payload := json_object [("from", JString a.(a_state)); ("to", JString "CRASHED");
    ("reason", JString reason); ("exit_code", json_opt JNumber exit_code)]).
  assert (Hev : insert_event_null "insert crashed state_change" agent_id "state_change" payload w3 =
    (Ok (w3.(w_db).(event_seq) + 1),
     set_db (post_event w3.(w_now) agent_id "state_change" payload w3.(w_db)) w3)).
  { apply insert_event_null_run. rw Ha3. by rw /= lookup_insert_eq. }
  set (w4 := set_db _ w3) in Hev.
  assert (Hc4 : consistent w4.(w_db)).
  { eapply (sound_step _ _ _ _ _ Hev Hc3). Unshelve. eauto with respects. }
  destruct (crash_sequence w w1 w2 w3 w4 agent_id a exit_code error_code _ _ _ Ha Hup Hcap Hfail Hev)
    as [out Hrun].
  eexists. split; [exact Hrun|]. cbn [w_db w_now].
  split; [done|]. split; [by rw /= Hn3|]. split; [by rw /= Ha3|]. split.
  - simpl. rw Hi3 /= Hid. apply lookup_insert_eq.
  - split; [intros id j Hj; by apply Hin3|intros id Hj; by apply Hout3].
Qed.

(** Crashing changes nothing of what the current job is read from. *)
Lemma current_job_row w agent_id j :
  db_wf w.(w_db) → current_job agent_id w.(w_db) = Some j →
  w.(w_db).(jobs) !! j.(j_id) = Some j ∧ j.(j_agent_id) = agent_id ∧ j.(j_status) = "DISPATCHED" ∧
  j.(j_id) ∈ j_id <$> order_by dispatched_le (agent_jobs agent_id "DISPATCHED" w.(w_db)).
Proof.
  intros Hwf Hcur. apply agent_jobs_head in Hcur as (Hj & Hag & Hst); [|done].
  repeat split; try done. apply elem_of_dispatched_ids; [done|]. eauto.
Qed.

(** ** The properties *)

(** A persisted recovery intent is read back as it was, and replaces any
    earlier intent of the agent. *)
Theorem intent_roundtrip w i :
  intent_coherent i → is_Some (w.(w_db).(agents) !! i.(in_agent_id)) →
  ∃ w', persist_agent_recovery_intent_sync i w = (Ok tt, w') ∧
        query_agent_recovery_intent_sync i.(in_agent_id) w' = (Ok (Some i), w').
Proof.
  intros Hco Hag. rw persist_intent_run //. eexists. split; [done|].
  eapply query_intent_run; [apply lookup_insert_eq|done|by apply intent_of_intent_row].
Qed.

(** C18: a crash leaves behind what recovery needs, and nothing half done.  For an
    agent that is not CRASHED, KILLED or PROMPT_PENDING: the agent is CRASHED one
    version later; exactly the jobs dispatched to it are FAILED with the reason of
    the crash, and every other job is as it was; and the intent that recovery then
    reads names the interrupted job (the oldest dispatched one), the state the
    agent was in, and the action that follows from both. *)
Theorem crash_captures_intent w agent_id a exit_code error_code :
  consistent w.(w_db) → w.(w_db).(agents) !! agent_id = Some a →
  a.(a_state) ∉ ["CRASHED"; "KILLED"; "PROMPT_PENDING"] →
  let reason := crash_reason exit_code error_code in
  ∃ w' i, mark_agent_crashed_sync agent_id exit_code error_code w = (Ok 1%nat, w') ∧
    w'.(w_db).(agents) !! agent_id = Some (crashed_row w.(w_now) exit_code error_code a) ∧
    (∀ id, w'.(w_db).(jobs) !! id =
       (λ j, if (j.(j_agent_id) == agent_id) && (j.(j_status) == "DISPATCHED")
             then failed_row w.(w_now) reason j else j) <$> w.(w_db).(jobs) !! id) ∧
    query_agent_recovery_intent_sync agent_id w' = (Ok (Some i), w') ∧
    i.(in_interrupted_job_id) = j_id <$> current_job agent_id w.(w_db) ∧
    i.(in_previous_state) = a.(a_state) ∧
    i.(in_action) = recovery_action a.(a_state) reason (bool_decide (is_Some (current_job agent_id w.(w_db)))).
Proof.
  intros Hc Ha Hns reason. pose proof (proj1 Hc) as Hwf.
  destruct (crash_run w agent_id a exit_code error_code Hc Ha Hns)
    as (w' & Hrun & Hc' & Hnow & Hags & Hint & Hjobs & Hnone).
  exists w', (captured_intent (crashed_row w.(w_now) exit_code error_code a) a.(a_state)
    (crash_reason exit_code error_code) (current_job agent_id w.(w_db))).
  split; [done|]. split; [by rw Hags lookup_insert_eq|]. split.
  { intros id. destruct (w.(w_db).(jobs) !! id) as [j|] eqn:Hj; [|by rw (Hnone _ Hj)].
    rw (Hjobs _ _ Hj). cbn [fmap option_fmap option_map]. f_equal.
    apply (f_equal (λ b : bool, if b then _ else _)), eq_true_iff_eq.
    rw bool_decide_eq_true andb_true_iff !bool_decide_eq_true elem_of_dispatched_ids //. naive_solver. }
  split; [|by repeat split].
  eapply query_intent_run; [exact Hint|done|]. apply intent_of_intent_row, captured_intent_coherent.
Qed.

(** An interrupted job is requeued after the crash.  When an agent crashed
    with a dispatched job, requeueing from the intent the crash captured puts
    exactly that job back in the agent's queue, undispatched, marked as the
    recovery's attempt 0. *)
Theorem crash_then_requeue w agent_id a j exit_code error_code w1 i :
  consistent w.(w_db) → w.(w_db).(agents) !! agent_id = Some a →
  a.(a_state) ∉ ["CRASHED"; "KILLED"; "PROMPT_PENDING"] →
  current_job agent_id w.(w_db) = Some j →
  mark_agent_crashed_sync agent_id exit_code error_code w = (Ok 1%nat, w1) →
  query_agent_recovery_intent_sync agent_id w1 = (Ok (Some i), w1) →
  ∃ w2 j2, requeue_interrupted_job_from_captured_intent_standalone_sync i w1 = (Ok 1%nat, w2) ∧
    w2.(w_db).(jobs) !! j.(j_id) = Some j2 ∧ j2.(j_status) = "QUEUED" ∧
    j2.(j_agent_id) = agent_id ∧ j2.(j_dispatched_at) = None ∧
    j2.(j_prompt_text) = j.(j_prompt_text) ∧
    recovery_requeued_attempt j2.(j_error_reason) = Some 0.
Proof.
  intros Hc Ha Hns Hcur Hrun1 Hq. pose proof (proj1 Hc) as Hwf.
  destruct (crash_run w agent_id a exit_code error_code Hc Ha Hns)
    as (w' & Hrun & Hc' & Hnow & Hags & Hint & Hjobs & _).
  rw Hrun in Hrun1. injection Hrun1 as ->. rename w1 into w'.
  set (reason := crash_reason exit_code error_code) in *.
  erewrite query_intent_run in Hq; [|exact Hint|done|apply intent_of_intent_row,
    captured_intent_coherent]. injection Hq as <-.
  destruct (current_job_row w agent_id j Hwf Hcur) as (Hj & Hag & Hst & Hin).
  specialize (Hjobs _ _ Hj). rw bool_decide_true // in Hjobs.
  assert (Hid : a.(a_id) = agent_id) by (by apply (wf_agent_key _ Hwf)).
  eexists _, _. split.
  - apply transaction_ok. erewrite bind_ok; [apply ret_run|].
    unfold requeue_interrupted_job_from_captured_intent_sync. rw Hcur. cbn [captured_intent in_action
      in_interrupted_job_id fmap option_fmap option_map in_agent_id].
    rw (bool_decide_true (is_Some (Some j))); [by eexists|].
    assert (Hact : recovery_action a.(a_state) reason true = Revive).
    { unfold recovery_action. by rw orb_true_r. }
    rw Hact. unfold query_job_sync. change (Revive != Revive) with false. cbv iota. step_pure. rw Hjobs.
    erewrite bind_ok; [by rw bool_decide_true|].
    rw bool_decide_true // bool_decide_true; [by rw /= Hag -Hid|]. cbn [andb].
    erewrite bind_ok; [apply ret_run|].
    apply (requeue_job_state_run w' _ (failed_row w.(w_now) reason j) Failed); try done.
    + apply Hc'.
    + constructor.
  - split; [apply lookup_insert_eq|]. by repeat split.
Qed.

End Crash.

(** ** Backoff *)

Section Backoff.
Context {EXT : Externals}.

(** Failures recorded at the given times, one after the other. *)
Fixpoint record_failures (agent_id : string) (times : list Z) : M CcbdError unit :=
  match times with
  | [] => mret tt
  | now :: rest => record_recovery_failure_backoff_sync agent_id now;; record_failures agent_id rest
  end.

Definition backoff_row (clock now : Z) (a : Agent) : Agent :=
  let n := Z.min (a.(a_retry_count) + 1) 5 in
  set_a_updated_at clock (set_a_retry_exhausted (5 <=? n)
    (set_a_next_retry_at
       (if 5 <=? n then None
        else Some (now + (if n =? 1 then 1 else if n =? 2 then 2 else 4)))
       (set_a_retry_count n a))).

Lemma backoff_run w agent_id a now :
  w.(w_db).(agents) !! agent_id = Some a →
  ∃ b, record_recovery_failure_backoff_sync agent_id now w =
    (Ok b, set_db (set_agents (<[agent_id := backoff_row w.(w_now) now a]> w.(w_db).(agents))
                     w.(w_db)) w).
Proof.
  intros Ha. unfold record_recovery_failure_backoff_sync, query_agent_row. step_pure. rw Ha.
  cbv zeta. step_pure. eexists.
  rw (bind_ok _ _ _ _ _ (update_agent_hit w agent_id (λ _, true) _ a Ha eq_refl)).
  reflexivity.
Qed.

Lemma record_failures_run agent_id times now w a :
  w.(w_db).(agents) !! agent_id = Some a → 0 ≤ a.(a_retry_count) ≤ 5 →
  ∃ w' b, record_failures agent_id (times ++ [now]) w = (Ok tt, w') ∧
    w'.(w_db).(agents) !! agent_id = Some (backoff_row w.(w_now) now b) ∧
    b.(a_retry_count) = Z.min (a.(a_retry_count) + Z.of_nat (length times)) 5 ∧
    b.(a_state) = a.(a_state) ∧ b.(a_state_version) = a.(a_state_version).
Proof.
  revert w a. induction times as [|t times IH]; intros w a Ha Hr; simpl.
  - destruct (backoff_run w agent_id a now Ha) as [b Hb].
    eexists _, a. split; [by rw (bind_ok _ _ _ _ _ Hb)|]. split; [apply lookup_insert_eq|].
    repeat split. lia.
  - destruct (backoff_run w agent_id a t Ha) as [b Hb]. rw (bind_ok _ _ _ _ _ Hb).
    set (w1 := set_db _ w).
    destruct (IH w1 (backoff_row w.(w_now) t a)) as (w' & c & Hrun & Hc & Hn & Hs & Hv);
      [apply lookup_insert_eq|cbn; lia|].
    exists w', c. split; [exact Hrun|]. split; [exact Hc|]. cbn in Hn, Hs, Hv.
    split; [lia|done].
Qed.

(** C40: recovery backs off and gives up.  After the n-th recorded failure of an
    agent that started with none, the retry count is the smaller of n and 5; up
    to the fourth failure the next retry is 1, 2 or 4 seconds after the last
    one; from the fifth on the agent is exhausted, and no claim of its recovery
    succeeds any more, at any version and at any time. *)
Theorem recovery_gives_up agent_id times now w a :
  w.(w_db).(agents) !! agent_id = Some a → a.(a_retry_count) = 0 →
  let n := Z.of_nat (S (length times)) in
  ∃ w' b, record_failures agent_id (times ++ [now]) w = (Ok tt, w') ∧
    w'.(w_db).(agents) !! agent_id = Some b ∧ b.(a_retry_count) = Z.min n 5 ∧
    (n < 5 → b.(a_retry_exhausted) = false ∧
       b.(a_next_retry_at) = Some (now + (if n =? 1 then 1 else if n =? 2 then 2 else 4))) ∧
    (5 ≤ n → b.(a_retry_exhausted) = true ∧
       ∀ v t, try_claim_agent_recovery_sync agent_id v t w' = (Ok false, w')).
Proof.
  intros Ha Hr n. destruct (record_failures_run agent_id times now w a Ha)
    as (w' & b & Hrun & Hb & Hn & _ & _); [lia|].
  assert (Hcount : Z.min (b.(a_retry_count) + 1) 5 = Z.min n 5) by lia.
  exists w', (backoff_row w.(w_now) now b). split; [done|]. split; [done|].
  split; [exact Hcount|]. split; intros Hlt.
  - assert (Hm : Z.min (b.(a_retry_count) + 1) 5 = n) by lia.
    unfold backoff_row. simpl. rw Hm. by rw (proj2 (Z.leb_gt 5 n)).
  - assert (Hex : (5 <=? Z.min (b.(a_retry_count) + 1) 5) = true) by (apply Z.leb_le; lia).
    split; [exact Hex|]. intros v t. unfold try_claim_agent_recovery_sync. step_pure.
    erewrite bind_ok; cycle 1.
    { apply (update_agent_miss _ _ _ _ _ Hb). cbn. rw Hex. cbn. by rw andb_false_r. }
    reflexivity.
Qed.

(** At most one claimer recovers a crash.  After one claim of a crashed agent's
    recovery succeeded at a version, every other claim at that version is
    refused and writes nothing, however the tables evolved in between. *)
Theorem recovery_claim_exclusive agent_id version now w w1 w2 now' :
  try_claim_agent_recovery_sync agent_id version now w = (Ok true, w1) →
  evolves w1.(w_db) w2.(w_db) →
  try_claim_agent_recovery_sync agent_id version now' w2 = (Ok false, w2).
Proof.
  unfold try_claim_agent_recovery_sync. rw !bind_asks. intros Hrun Hev.
  set (g t := λ a : Agent, (a.(a_state) == "CRASHED") && (a.(a_state_version) =? version) &&
    negb a.(a_retry_exhausted) && match a.(a_next_retry_at) with None => true | Some x => x <=? t end).
  destruct (w.(w_db).(agents) !! agent_id) as [a|] eqn:Ha; cycle 1.
  { revert Hrun. unfold mbind, M_bind, update_agent, update_row. by rw Ha. }
  destruct (g now a) eqn:Hg; cycle 1.
  { rw (bind_ok _ _ _ _ _ (update_agent_miss w agent_id (g now) _ a Ha Hg)) in Hrun. done. }
  rw (bind_ok _ _ _ _ _ (update_agent_hit w agent_id (g now) _ a Ha Hg)) in Hrun.
  injection Hrun as <-. unfold g in Hg.
  apply andb_true_iff in Hg as [[[_ Hv%Z.eqb_eq]%andb_true_iff _]%andb_true_iff _].
  destruct (ev_agents _ _ Hev agent_id (bump_version w.(w_now) a)) as (a2 & Ha2 & Hevo);
    [apply lookup_insert_eq|].
  pose proof (aev_version _ _ Hevo) as Hle. simpl in Hle.
  erewrite bind_ok; cycle 1.
  { apply (update_agent_miss _ _ _ _ a2 Ha2). rw (proj2 (Z.eqb_neq _ _)); [lia|].
    by rw andb_false_r. }
  reflexivity.
Qed.

End Backoff.

(** ** Lost agents *)

Section Unknown.
Context {EXT : Externals}.

Lemma insert_evidence_run w row e :
  w.(w_db).(evidence) !! row.(v_id) = None → is_Some (w.(w_db).(agents) !! row.(v_agent_id)) →
  job_ref_ok w.(w_db).(jobs) row.(v_job_id) = true → e ∈ w.(w_db).(events) →
  e.(e_seq_id) = row.(v_event_seq_id) →
  insert_evidence_row row w =
    (Ok tt, set_db (set_evidence (<[row.(v_id) := row]> w.(w_db).(evidence)) w.(w_db)) w).
Proof.
  intros Hn [a Ha] Hj He Hs. unfold insert_evidence_row. rw Hn Ha Hj.
  assert (Hev : existsb (λ e, e.(e_seq_id) =? row.(v_event_seq_id)) w.(w_db).(events) = true).
  { apply existsb_exists. exists e. split; [by apply list_elem_of_In|lia]. }
  by rw Hev.
Qed.

(** What becomes of the current job of an agent that is lost. *)
Definition lost_job (agent_id reason : string) : M CcbdError unit :=
  dispatched ← query_dispatched_job_for_agent_sync agent_id;
  match dispatched with
  | Some job =>
      (if job.(j_cancel_requested) then mark_job_cancelled_conn_sync job.(j_id) ""
       else mark_dispatched_jobs_failed_for_agent_conn_sync agent_id reason);;
      mret tt
  | None => mret tt
  end.

Lemma lost_job_run w agent_id reason :
  consistent w.(w_db) → is_Some (w.(w_db).(agents) !! agent_id) →
  ∃ w', lost_job agent_id reason w = (Ok tt, w') ∧ w'.(w_db).(agents) = w.(w_db).(agents) ∧
    w'.(w_now) = w.(w_now) ∧
    ∀ j, current_job agent_id w.(w_db) = Some j →
      ∃ j', w'.(w_db).(jobs) !! j.(j_id) = Some j' ∧
        j'.(j_status) = if j.(j_cancel_requested) then "CANCELLED" else "FAILED".
Proof.
  intros Hc Hag. unfold lost_job, query_dispatched_job_for_agent_sync. step_pure.
  fold (current_job agent_id w.(w_db)).
  destruct (current_job agent_id w.(w_db)) as [j|] eqn:Hcur; [|by eexists].
  destruct (current_job_row w agent_id j (proj1 Hc) Hcur) as (Hj & Hja & Hst & Hin).
  destruct (j_cancel_requested j) eqn:Hcan.
  - destruct (resolve_job_run w j.(j_id) j "" true Hj Hst eq_refl) as (w' & Hrun & Hjobs & Ha & _ & _ & Hn);
      [by rw Hja|].
    exists w'. split; [exact Hrun|]. split; [done|]. split; [done|].
    intros j' [= <-]. rw Hjobs lookup_insert_eq Hcan. by eexists.
  - destruct (fail_agent_run w agent_id reason Hc) as (w' & Hrun & _ & Hn & Hjobs & _ & Ha & _).
    exists w'. split.
    { unfold mark_dispatched_jobs_failed_for_agent_conn_sync.
      erewrite bind_ok; [apply ret_run|]. by rw (bind_ok _ _ _ _ _ Hrun). }
    split; [done|]. split; [done|]. intros j' [= <-]. rw Hcan (Hjobs _ _ Hj) bool_decide_true //.
    by eexists.
Qed.

(** The tables when an agent has just been found lost. *)
Definition unknown_db (now : Z) (evidence_id agent_id reason : string)
    (pane_bytes : list Byte.byte) (failed_rules : Value) (a : Agent) (db : Db) : Db :=
  let db1 := set_agents (<[agent_id := bump_version now
               (set_a_error_code (Some reason) (set_a_state "UNKNOWN" a))]> db.(agents)) db in
  let db2 := set_evidence (seal_evidence agent_id <$> db1.(evidence)) db1 in
  let db3 := post_event now agent_id "state_change"
               (json_object [("from", JString a.(a_state)); ("to", JString "UNKNOWN");
                             ("reason", JString reason)]) db2 in
  set_evidence (<[evidence_id := MkEvidence evidence_id agent_id (db.(event_seq) + 1) pane_bytes
     (json_to_string failed_rules) "PENDING" None None None None None now]> db3.(evidence)) db3.

Lemma sound_lost_job agent_id reason : respects sound (lost_job agent_id reason).
Proof.
  unfold lost_job. solve_respects.
Qed.

Lemma unknown_run w evidence_id agent_id a reason pane rules :
  w.(w_db).(agents) !! agent_id = Some a → is_active_state a.(a_state) = true →
  w.(w_db).(evidence) !! evidence_id = None → consistent w.(w_db) →
  let wm := set_db (unknown_db w.(w_now) evidence_id agent_id reason pane rules a w.(w_db)) w in
  consistent wm.(w_db) ∧
  ∀ w', lost_job agent_id reason wm = (Ok tt, w') →
    mark_agent_unknown_sync evidence_id agent_id reason pane rules w = (Ok 1%nat, w').
Proof.
  intros Ha Hact Hfresh Hc wm.
  set (g := λ x : Agent, (x.(a_state) is_in ["SPAWNING"; "WAITING_FOR_ACK"; "BUSY"]) &&
                         (x.(a_state_version) =? a.(a_state_version))).
  set (f := λ x, bump_version w.(w_now) (set_a_error_code (Some reason) (set_a_state "UNKNOWN" x))).
  assert (Hg : g a = true).
  { unfold g. rw Z.eqb_refl andb_true_r. exact Hact. }
  pose proof (update_agent_hit (E:=CcbdError) w agent_id g f a Ha Hg) as Hup.
  set (w1 := set_db _ w) in Hup.
  assert (Hc1 : consistent w1.(w_db)).
  { eapply (sound_step _ _ _ _ _ Hup Hc). Unshelve. unfold f, g. eauto with respects. }
  pose (w2 := set_db (set_evidence (seal_evidence agent_id <$> w1.(w_db).(evidence)) w1.(w_db)) w1).
  assert (Hseal : (seal_pending_evidence agent_id : M CcbdError unit) w1 = (Ok tt, w2)) by reflexivity.
  pose proof (sound_step _ _ _ _ (sound_seal agent_id) Hseal Hc1) as Hc2.
  pose (payload := json_object [("from", JString a.(a_state)); ("to", JString "UNKNOWN");
                             ("reason", JString reason)]).
  pose proof (insert_event_null_run w2 "insert unknown state_change" agent_id "state_change" payload
    ltac:(cbn; rw lookup_insert_eq; by eexists)) as Hev.
  set (w3 := set_db _ w2) in Hev.
  assert (Hc3 : consistent w3.(w_db)).
  { eapply (sound_step _ _ _ _ _ Hev Hc2). Unshelve. eauto with respects. }
  set (row := MkEvidence evidence_id agent_id (w.(w_db).(event_seq) + 1) pane
    (json_to_string rules) "PENDING" None None None None None w.(w_now)).
  assert (Hins : insert_evidence_row row w3 = (Ok tt, wm)).
  { eapply insert_evidence_run.
    - cbn. by rw lookup_fmap Hfresh.
    - cbn. rw lookup_insert_eq. by eexists.
    - reflexivity.
    - apply elem_of_app. right. by apply list_elem_of_singleton.
    - reflexivity. }
  assert (Hsound : respects sound (insert_evidence_row row)) by eauto with respects.
  split; [exact (sound_step _ _ _ _ Hsound Hins Hc3)|].
  intros w' Hlost. unfold mark_agent_unknown_sync, query_agent_row.
  apply transaction_ok. step_pure. rw Ha. cbv zeta. rw Hact. cbn [negb]. step_pure.
  rw (bind_ok _ _ _ _ _ Hup). change (1%nat == 1%nat) with true. cbv iota.
  rw (bind_ok _ _ _ _ _ Hseal) (bind_ok _ _ _ _ _ Hev).
  rw (bind_ok _ _ _ _ _ (map_err_ok _ _ _ _ _ Hins)).
  unfold lost_job, query_dispatched_job_for_agent_sync in Hlost |- *. rw bind_asks in Hlost.
  rw bind_asks. by rw (bind_ok _ _ _ _ _ Hlost).
Qed.

Lemma assert_run w agent_id evidence_id a v :
  w.(w_db).(agents) !! agent_id = Some a →
  a.(a_state) = STATE_UNKNOWN ∨ a.(a_state) = STATE_WAITING_FOR_ACK →
  w.(w_db).(evidence) !! evidence_id = Some v → v.(v_agent_id) = agent_id →
  ∃ w', assert_state_to_idle_sync agent_id evidence_id w =
          (Ok (MkAssertStateOutcome (w.(w_db).(event_seq) + 1)), w') ∧
    w'.(w_db).(jobs) = w.(w_db).(jobs) ∧
    w'.(w_db).(agents) = <[agent_id := bump_version w.(w_now)
      (set_a_sub_state (Some "Asserted") (set_a_state "IDLE" a))]> w.(w_db).(agents) ∧
    w'.(w_db).(evidence) = <[evidence_id :=
      set_v_l3_asserted_state (Some "IDLE") (set_v_status "REVIEWED" v)]> w.(w_db).(evidence).
Proof.
  intros Ha Hst Hv Hva.
  set (g := λ x : Agent, (x.(a_state) is_in ["UNKNOWN"; "WAITING_FOR_ACK"]) &&
                         (x.(a_state_version) =? a.(a_state_version))).
  set (f := λ x, bump_version w.(w_now)
                   (set_a_sub_state (Some "Asserted") (set_a_state "IDLE" x))).
  assert (Hg : g a = true).
  { unfold g. rw Z.eqb_refl andb_true_r. by destruct Hst as [-> | ->]. }
  assert (Hs : (a.(a_state) != STATE_UNKNOWN) && (a.(a_state) != STATE_WAITING_FOR_ACK) = false)
    by (by destruct Hst as [-> | ->]).
  pose proof (update_agent_hit (E:=CcbdError) w agent_id g f a Ha Hg) as Hup.
  set (w1 := set_db _ w) in Hup.
  eexists. split.
  { unfold assert_state_to_idle_sync, query_evidence_by_id_sync, query_agent_row.
    apply transaction_ok. step_pure. rw Hv Hva. change (agent_id != agent_id) with
      (negb (bool_decide (agent_id = agent_id))). rw (bool_decide_true (agent_id = agent_id)) //.
    cbn [negb]. step_pure. rw Ha. cbv zeta. rw Hs. step_pure. rw (bind_ok _ _ _ _ _ Hup).
    change (1%nat == 0%nat) with false. cbv iota.
    erewrite bind_ok; cycle 1.
    { unfold update_evidence. erewrite update_row_hit; [reflexivity|exact Hv|reflexivity]. }
    match goal with |- context [insert_event_null ?c _ ?t ?p] =>
      match goal with |- _ ?w2 = _ => rw (bind_ok _ _ _ _ _ (insert_event_null_run w2 c agent_id t p
        ltac:(cbn; rw lookup_insert_eq; by eexists))) end end.
    reflexivity. }
  done.
Qed.

(** An agent lost sight of can be brought back by a reviewer.  When an
    active agent is marked unknown with a fresh piece of evidence, its current
    job ends (cancelled when that was requested, failed otherwise) and the
    evidence is left pending; asserting that evidence then succeeds, makes the
    agent idle two versions after the start, and leaves the evidence reviewed
    with the state that was asserted. *)
Theorem unknown_then_assert_recovers w evidence_id agent_id a reason pane rules :
  consistent w.(w_db) → w.(w_db).(agents) !! agent_id = Some a →
  is_active_state a.(a_state) = true → w.(w_db).(evidence) !! evidence_id = None →
  ∃ w1 w2 a1 a2 v1 v2 seq,
    mark_agent_unknown_sync evidence_id agent_id reason pane rules w = (Ok 1%nat, w1) ∧
    w1.(w_db).(agents) !! agent_id = Some a1 ∧ a1.(a_state) = STATE_UNKNOWN ∧
    w1.(w_db).(evidence) !! evidence_id = Some v1 ∧ v1.(v_agent_id) = agent_id ∧
    (∀ j, current_job agent_id w.(w_db) = Some j →
      ∃ j', w1.(w_db).(jobs) !! j.(j_id) = Some j' ∧
        j'.(j_status) = if j.(j_cancel_requested) then "CANCELLED" else "FAILED") ∧
    assert_state_to_idle_sync agent_id evidence_id w1 = (Ok seq, w2) ∧
    w2.(w_db).(agents) !! agent_id = Some a2 ∧ a2.(a_state) = STATE_IDLE ∧
    a2.(a_state_version) = a.(a_state_version) + 2 ∧
    w2.(w_db).(evidence) !! evidence_id = Some v2 ∧ v2.(v_status) = "REVIEWED" ∧
    v2.(v_l3_asserted_state) = Some "IDLE" ∧ w2.(w_db).(jobs) = w1.(w_db).(jobs).
Proof.
  intros Hc Ha Hact Hfresh.
  destruct (unknown_run w evidence_id agent_id a reason pane rules Ha Hact Hfresh Hc) as [Hcm Hrun].
  set (wm := set_db _ w) in Hcm, Hrun.
  set (a1 := bump_version w.(w_now) (set_a_error_code (Some reason) (set_a_state "UNKNOWN" a))).
  assert (Ham : wm.(w_db).(agents) !! agent_id = Some a1) by (cbn; apply lookup_insert_eq).
  destruct (lost_job_run wm agent_id reason Hcm) as (w1 & Hl & Hags & _ & Hjobs); [by rw Ham|].
  pose proof (sound_lost_job agent_id reason wm) as [Hev _]. rw Hl /= in Hev.
  destruct (ev_evidence _ _ Hev evidence_id (MkEvidence evidence_id agent_id
    (w.(w_db).(event_seq) + 1) pane (json_to_string rules) "PENDING" None None None None None
    w.(w_now))) as (v1 & Hv1 & Hvev); [apply lookup_insert_eq|].
  pose proof (vev_agent _ _ Hvev) as Hva. cbn in Hva.
  destruct (assert_run w1 agent_id evidence_id a1 v1) as (w2 & Hr2 & Hj2 & Ha2 & He2);
    [by rw Hags|by left|done|done|].
  exists w1, w2, a1. eexists _, v1, _, _. split; [by apply Hrun|]. split; [by rw Hags|].
  split; [done|]. split; [done|]. split; [done|]. split; [exact Hjobs|]. split; [exact Hr2|].
  rw Ha2 He2 !lookup_insert_eq. repeat split; [|done]. cbn. lia.
Qed.

End Unknown.
