(* ===== verification/MasterProofs.v ===== *)
(** * Properties of sessions, recovery windows and master revival *)
From S2P Require Import Prelude Json Schema Sql MasterTables JobGate Invariant MasterSound AgentGate Text Sessions Cutovers MasterRecovery MasterRevival.

Section MasterProofs.
Context {EXT : Externals}.

(** ** Running an [UPDATE] of one session *)

Definition put_session (id : string) (s : Session) (w : World) : World :=
  set_db (set_sessions (<[id := s]> w.(w_db).(sessions)) w.(w_db)) w.

Lemma update_session_run {E} id guard f w :
  (update_session id guard f : M E nat) w =
  match session_where guard id w.(w_db) with
  | Some s => (Ok 1%nat, put_session id (f s) w)
  | None => (Ok 0%nat, w)
  end.
Proof.
  unfold update_session, session_where, update_row, put_session.
  destruct (w.(w_db).(sessions) !! id) as [s|]; simpl; [destruct (guard s)|]; simpl; [done|..].
  all: rw set_same_sessions; by destruct w.
Qed.

Lemma session_where_Some guard id db s :
  session_where guard id db = Some s ↔ db.(sessions) !! id = Some s ∧ guard s = true.
Proof.
  unfold session_where. destruct (db.(sessions) !! id) as [s'|]; simpl; [|by split; [|intros []]].
  destruct (guard s') eqn:Hg; (split; [|intros [[= <-] ?]]); try congruence.
  by intros [= <-].
Qed.

Lemma session_where_None guard id db :
  (∀ s, db.(sessions) !! id = Some s → guard s = false) → session_where guard id db = None.
Proof.
  intros Hg. apply eq_None_not_Some. intros [s [Hs Ht]%session_where_Some]. by rw (Hg s) in Ht.
Qed.

Lemma put_session_lookup id s w : (put_session id s w).(w_db).(sessions) !! id = Some s.
Proof. apply lookup_insert_eq. Qed.

Lemma master_is_spec pid gen s :
  master_is pid gen s = true ↔
  s.(s_status) = "ACTIVE" ∧ s.(s_master_pid) = pid ∧ s.(s_master_generation) = gen.
Proof.
  unfold master_is. rw !andb_true_iff bool_decide_eq_true !Z.eqb_eq. naive_solver.
Qed.

(** ** The generation fence *)

(** The session once a transition of its master was claimed. *)
Definition next_generation (s : Session) : Session :=
  quiesce (set_s_master_generation (s.(s_master_generation) + 1) s).

Lemma claim_run sid pid gen w :
  try_claim_master_transition sid pid gen w =
  match session_where (master_is pid gen) sid w.(w_db) with
  | Some s => (Ok Claimed, put_session sid (next_generation s) w)
  | None => (Ok TransitionStale, w)
  end.
Proof.
  unfold try_claim_master_transition, mbind, M_bind. rw update_session_run.
  by destruct (session_where _ _ _).
Qed.

(** After a claim the claimed generation is no longer the session's, for good. *)
Lemma claimed_generation_left sid pid gen w w1 w2 s :
  try_claim_master_transition sid pid gen w = (Ok Claimed, w1) →
  master_evolves (master_of w1.(w_db)) (master_of w2.(w_db)) →
  w2.(w_db).(sessions) !! sid = Some s → s.(s_master_generation) ≠ gen.
Proof.
  intros Hc Hev Hs2. rw claim_run in Hc.
  destruct (session_where _ sid w.(w_db)) as [s0|] eqn:Hs; [|done]. injection Hc as <-.
  apply session_where_Some in Hs as [Hs (_ & _ & Hgen)%master_is_spec].
  destruct (mev_sessions _ _ Hev sid (next_generation s0)) as (s' & Hs' & Hev2).
  { apply put_session_lookup. }
  pose proof (sev_generation _ _ Hev2) as Hle. simpl in Hle. mt_simpl. simplify_eq. lia.
Qed.

(** Statements guarded by a generation the session no longer has. *)
Lemma guarded_out sid gen w guard :
  (∀ s, w.(w_db).(sessions) !! sid = Some s → s.(s_master_generation) ≠ gen) →
  (∀ s, guard s = true → s.(s_master_generation) = gen) →
  session_where guard sid w.(w_db) = None.
Proof.
  intros Hgone Hg. apply session_where_None. intros s Hs. apply not_true_iff_false.
  intros Ht. by apply (Hgone s Hs), Hg.
Qed.

(** C31: of several watchers of one dead master one wins, and nothing done in the
    name of the replaced master has any effect.  After a transition was claimed
    at a generation, and whatever was done to the tables in between, a second
    claim at that generation is Stale, a late completion or spawn record is
    dropped, no revival attempt is counted, stability is not confirmed, and a
    state report transitions nothing; none of them writes anything. *)
Theorem master_generation_fence sid pid gen w w1 w2 :
  try_claim_master_transition sid pid gen w = (Ok Claimed, w1) →
  evolves w1.(w_db) w2.(w_db) →
  (∀ pid', try_claim_master_transition sid pid' gen w2 = (Ok TransitionStale, w2)) ∧
  (∀ pid' pane, complete_claimed_master_transition sid gen pid' pane w2 = (Ok None, w2)) ∧
  (∀ pid' pane,
     record_spawned_master_runtime_after_claim sid pane pid' gen w2 = (Ok None, w2)) ∧
  (∀ pid' now, record_master_revive_attempt sid pid' gen now w2 = (Ok AttemptStale, w2)) ∧
  (∀ pid', confirm_master_stable sid pid' gen w2 = (Ok TransitionStale, w2)) ∧
  (∀ st clear, ∃ r, apply_master_notify_event_sync sid gen st clear w2 = (Ok r, w2) ∧
     ∀ t, r = Some t → t.(mn_transitioned) = false).
Proof.
  intros Hc Hev.
  assert (Hgone : ∀ s, w2.(w_db).(sessions) !! sid = Some s → s.(s_master_generation) ≠ gen)
    by (intros s; by apply (claimed_generation_left sid pid gen w w1 w2 s), ev_master).
  pose proof (guarded_out sid gen w2) as Hout.
  assert (Hnone : ∀ guard, (∀ s, guard s = true → s.(s_master_generation) = gen) →
    session_where guard sid w2.(w_db) = None) by (intros guard Hg; by apply Hout).
  split_and!.
  - intros pid'. rw claim_run Hnone //. by intros s (_ & _ & ?)%master_is_spec.
  - intros pid' pane. unfold complete_claimed_master_transition, mbind, M_bind.
    rw update_session_run Hnone //. by intros s [_ ?%Z.eqb_eq]%andb_true_iff.
  - intros pid' pane. unfold record_spawned_master_runtime_after_claim, mbind, M_bind.
    rw update_session_run Hnone //. by intros s [_ ?%Z.eqb_eq]%andb_true_iff.
  - intros pid' now. unfold record_master_revive_attempt. rw bind_gets. cbv beta.
    rw Hnone //. by intros s (_ & _ & ?)%master_is_spec.
  - intros pid'. unfold confirm_master_stable, mbind, M_bind.
    rw update_session_run Hnone //. by intros s (_ & _ & ?)%master_is_spec.
  - intros st clear. unfold apply_master_notify_event_sync. rw bind_gets. cbv beta.
    destruct (w2.(w_db).(sessions) !! sid) as [s|] eqn:Hs; [|by eexists].
    destruct (_ != _); [by eexists|]. rw (proj2 (Z.eqb_neq _ _)); [by apply Hgone|].
    eexists. split; [done|]. by intros t [= <-].
Qed.

(** ** Failed revivals run out *)

(** The session after one more failed revival. *)
Definition attempted (now : Z) (s : Session) : Session :=
  let n := s.(s_master_retry_count) + 1 in
  set_s_master_last_exit_reason (Some "REVIVE_FAILED")
    (set_s_master_next_retry_at (now + revive_backoff n) (set_s_master_retry_count n s)).

Lemma put_session_twice id s s' w : put_session id s' (put_session id s w) = put_session id s' w.
Proof. unfold put_session, set_db, set_sessions. cbn. by rw insert_insert_eq. Qed.

Lemma fuse_run sid w s :
  w.(w_db).(sessions) !! sid = Some s →
  fuse_session_after_master_revive_exhausted sid w =
  (Ok 0%nat, add_effect (StopUnit (unit_name_for_session sid))
               (add_effect (SendRuntimeUpdate InventoryChanged)
                  (put_session sid (end_session "FAILED" "FUSED" s) w))).
Proof.
  intros Hs. unfold fuse_session_after_master_revive_exhausted.
  erewrite bind_ok; [|rw update_session_run /session_where Hs; reflexivity]. done.
Qed.

Lemma attempt_run sid pid gen now w :
  record_master_revive_attempt sid pid gen now w =
  match session_where (master_is pid gen) sid w.(w_db) with
  | None => (Ok AttemptStale, w)
  | Some s =>
      let n := s.(s_master_retry_count) + 1 in
      let w1 := put_session sid (attempted now s) w in
      if MASTER_REVIVE_FUSE_THRESHOLD <=? n then
        (Ok Fused, (fuse_session_after_master_revive_exhausted sid w1).2)
      else (Ok (Spawn n (now + revive_backoff n)), w1)
  end.
Proof.
  unfold record_master_revive_attempt. rw bind_gets. cbv beta.
  destruct (session_where _ sid w.(w_db)) as [s|] eqn:Hs; simpl; [|done].
  erewrite bind_ok; [|rw update_session_run Hs; reflexivity]. cbv beta zeta.
  destruct (_ <=? _); [|done].
  pose proof (fuse_run sid _ _ (put_session_lookup sid (attempted now s) w)) as Hf.
  unfold attempted in Hf |- *. by rw (bind_ok _ _ _ _ _ Hf) Hf.
Qed.

(** Reviving at the given times until something else than another attempt is
    answered. *)
Fixpoint revive_loop (sid : string) (pid gen : Z) (nows : list Z) :
    M CcbdError (list MasterReviveAttemptDecision) :=
  match nows with
  | [] => mret []
  | now :: nows =>
      d ← record_master_revive_attempt sid pid gen now;
      match d with
      | Spawn _ _ => ds ← revive_loop sid pid gen nows; mret (d :: ds)
      | _ => mret [d]
      end
  end.

(** What the attempts from count [k] on answer. *)
Definition attempts (k : Z) (nows : list Z) : list MasterReviveAttemptDecision :=
  imap (λ i now, let n := k + 1 + Z.of_nat i in Spawn n (now + 2 ^ (n - 1))) nows.

Lemma backoff_pow n : 1 ≤ n < MASTER_REVIVE_FUSE_THRESHOLD → revive_backoff n = 2 ^ (n - 1).
Proof.
  unfold MASTER_REVIVE_FUSE_THRESHOLD, revive_backoff. intros Hn.
  rw Z.min_l; [lia|]. rw Z.shiftl_1_l //.
Qed.

(** C32: reviving a master ends.  From a session whose master failed to revive k
    times (fewer than five), attempts at any times run out: the next 4 - k are
    answered with a retry after a delay that doubles each time, the one after
    them fuses, the session is then FAILED for good (the loop makes no further
    attempt), and its anchor unit is stopped. *)
Theorem revive_attempts_terminate sid pid gen s nows w :
  w.(w_db).(sessions) !! sid = Some s → master_is pid gen s = true →
  0 ≤ s.(s_master_retry_count) < MASTER_REVIVE_FUSE_THRESHOLD →
  MASTER_REVIVE_FUSE_THRESHOLD - s.(s_master_retry_count) ≤ Z.of_nat (length nows) →
  let left := Z.to_nat (MASTER_REVIVE_FUSE_THRESHOLD - 1 - s.(s_master_retry_count)) in
  ∃ w', revive_loop sid pid gen nows w =
          (Ok (attempts s.(s_master_retry_count) (take left nows) ++ [Fused]), w') ∧
        (s_status <$> w'.(w_db).(sessions) !! sid) = Some "FAILED" ∧
        last w'.(w_out) = Some (StopUnit (unit_name_for_session sid)).
Proof.
  unfold MASTER_REVIVE_FUSE_THRESHOLD.
  induction nows as [|now nows IH] in s, w |- *; intros Hs Hg Hk Hlen; [simpl in Hlen; lia|].
  cbv zeta. cbn [revive_loop].
  assert (Hw : session_where (master_is pid gen) sid w.(w_db) = Some s)
    by (by apply session_where_Some).
  destruct (decide (s.(s_master_retry_count) = 4)) as [Heq|Hne].
  - eexists. erewrite bind_ok; [|rw attempt_run Hw Heq; reflexivity]. cbv beta.
    rw Heq. split; [reflexivity|]. rw (fuse_run _ _ _ (put_session_lookup _ _ _)).
    split; [by rw put_session_lookup|]. cbn. by rw last_snoc.
  - set (w1 := put_session sid (attempted now s) w).
    destruct (IH (attempted now s) w1) as (w' & Hrun & Hst & Hout);
      [apply put_session_lookup|done|simpl; lia|simpl in *; lia|].
    exists w'. split; [|done].
    set (k := s.(s_master_retry_count)) in *.
    replace (Z.to_nat (5 - 1 - k)) with (S (Z.to_nat (5 - 1 - (k + 1)))) by lia.
    rw (bind_ok _ _ _ (Spawn (k + 1) (now + 2 ^ k)) w1).
    + rw attempt_run Hw. fold k. cbv zeta.
      rw (proj2 (Z.leb_gt _ _)); [unfold MASTER_REVIVE_FUSE_THRESHOLD; lia|].
      rw backoff_pow; [unfold MASTER_REVIVE_FUSE_THRESHOLD; lia|]. by replace (k + 1 - 1) with k by lia.
    + rw (bind_ok _ _ _ _ _ Hrun). cbn [take]. unfold attempts. rw imap_cons.
      cbn [app]. unfold mret, M_ret. do 3 f_equal; [f_equal; [lia|]; do 2 f_equal; lia|].
      f_equal. apply imap_ext. intros j x _. simpl. f_equal; [lia|]. do 2 f_equal; lia.
Qed.

(** ** Deferring the cascade *)

Definition put_window (id : string) (r : WindowRow) (w : World) : World :=
  set_db (set_recovery_windows (<[id := r]> w.(w_db).(recovery_windows)) w.(w_db)) w.

Lemma update_window_hit id guard f w r :
  w.(w_db).(recovery_windows) !! id = Some r → guard r = true →
  (f r).(m_phase) is_in WINDOW_PHASES = true →
  update_window id guard f w = (Ok 1%nat, put_window id (f r) w).
Proof. intros Hr Hg Hp. unfold update_window. by rw Hr Hg Hp. Qed.

Lemma ended_session_cascades env sid now w :
  (∀ s, w.(w_db).(sessions) !! sid = Some s → s.(s_status) ≠ "ACTIVE") →
  decide_anchor_cascade_sync env sid now w = (Ok (CascadeNow "SESSION_NOT_ACTIVE"), w).
Proof.
  intros Hs. unfold decide_anchor_cascade_sync. apply transaction_ok.
  erewrite bind_ok; [reflexivity|]. unfold decide_anchor_cascade_in_tx, query_session_runtime.
  step_pure. destruct (w.(w_db).(sessions) !! sid) as [s|]; [|done].
  rw (bool_decide_false (s.(s_status) = "ACTIVE")); [by apply Hs|done].
Qed.

(** An open window past its deadline is failed together with its session. *)
Lemma expire_run sid now w s r :
  w.(w_db).(sessions) !! sid = Some s → w.(w_db).(recovery_windows) !! sid = Some r →
  is_terminal_phase r.(m_phase) = false → r.(m_defer_until) < now →
  ∃ w1, expire_master_recovery_window_in_tx sid now w = (Ok true, w1) ∧
    w1.(w_db).(sessions) = <[sid := set_s_master_last_exit_reason
        (Some "MASTER_REVIVE_WINDOW_EXPIRED") (set_s_status "FAILED" s)]> w.(w_db).(sessions) ∧
    w1.(w_db).(recovery_windows) =
      <[sid := set_m_updated_at now (set_m_phase "FAILED" r)]> w.(w_db).(recovery_windows) ∧
    w1.(w_db).(agents) = w.(w_db).(agents) ∧ w1.(w_db).(jobs) = w.(w_db).(jobs).
Proof.
  intros Hs Hr Ht Hlate. eexists. split.
  { unfold expire_master_recovery_window_in_tx, query_window_in_tx.
    step_pure. rw Hr. cbn [fmap option_fmap option_map]. cbn [window_view mw_phase mw_defer_until].
    rw Ht (proj2 (Z.leb_gt _ _)) //. cbn [orb].
    erewrite bind_ok; [|apply map_err_ok, (update_window_hit _ _ _ _ r); [done| |done]].
    2:{ unfold is_terminal_phase in Ht. rw Ht. by apply Z.ltb_lt. }
    cbv beta. change (1%nat == 1%nat) with true. unfold when.
    erewrite bind_ok; [reflexivity|].
    erewrite bind_ok; [reflexivity|]. rw update_session_run /session_where Hs. reflexivity. }
  done.
Qed.

(** An open recovery window cannot be deferred for ever.  Once the total a
    window is allowed has passed since it was opened, and nothing completed or
    failed it, the next decision is to cascade: the window and its session are
    FAILED, and from then on every decision about the session, whatever happens
    to the tables, is to cascade. *)
Theorem expired_window_is_final env sid now w s r :
  master_ok (master_of w.(w_db)) →
  w.(w_db).(sessions) !! sid = Some s → s.(s_status) = "ACTIVE" →
  w.(w_db).(recovery_windows) !! sid = Some r → is_terminal_phase r.(m_phase) = false →
  r.(m_created_at) + MASTER_RECOVERY_WINDOW_MAX_TOTAL_SECS < now →
  ∃ w1, decide_anchor_cascade_sync env sid now w =
          (Ok (CascadeNow "MASTER_REVIVE_WINDOW_EXPIRED"), w1) ∧
    s_status <$> w1.(w_db).(sessions) !! sid = Some "FAILED" ∧
    m_phase <$> w1.(w_db).(recovery_windows) !! sid = Some "FAILED" ∧
    ∀ w2 env' now', evolves w1.(w_db) w2.(w_db) →
      decide_anchor_cascade_sync env' sid now' w2 = (Ok (CascadeNow "SESSION_NOT_ACTIVE"), w2).
Proof.
  intros Hm Hs Hst Hr Ht Hlate.
  pose proof (wo_bound _ (mo_window _ Hm sid r Hr)) as Hb.
  destruct (expire_run sid now w s r Hs Hr Ht) as (w1 & Hrun & Hs1 & Hr1 & _); [lia|].
  exists w1. split_and!; [|by rw Hs1 lookup_insert_eq|by rw Hr1 lookup_insert_eq|].
  - unfold decide_anchor_cascade_sync. apply transaction_ok. erewrite bind_ok; [reflexivity|].
    unfold decide_anchor_cascade_in_tx, query_session_runtime, query_window_in_tx.
    step_pure. rw Hs Hst /=. step_pure. rw Hr. cbn [fmap option_fmap option_map].
    unfold decision_for_existing_window. cbn [window_view mw_phase mw_defer_until mw_session_id].
    rw (mo_window_key _ Hm _ _ Hr). unfold is_terminal_phase in Ht.
    apply bool_decide_eq_false in Ht. rw !bool_decide_false; [set_solver..|].
    rw (proj2 (Z.ltb_lt _ _)); [lia|]. by rw (bind_ok _ _ _ _ _ Hrun).
  - intros w2 env' now' Hev. apply ended_session_cascades. intros s2 Hs2.
    destruct (mev_sessions _ _ (ev_master _ _ Hev) sid
      (set_s_master_last_exit_reason (Some "MASTER_REVIVE_WINDOW_EXPIRED") (set_s_status "FAILED" s)))
      as (s2' & Hs2' & Hev2); [mt_simpl; by rw Hs1 lookup_insert_eq|].
    mt_simpl. simplify_eq. by apply (sev_ended _ _ Hev2).
Qed.

Lemma insert_window_inv r w w' :
  insert_window_row r w = (Ok tt, w') → w' = put_window r.(m_session_id) r w.
Proof.
  unfold insert_window_row. destruct (negb _); [done|].
  destruct (recovery_windows _ !! _); [done|]. destruct (sessions _ !! _); [|done].
  by intros [= <-].
Qed.

Lemma clamp_range v lo hi : lo ≤ hi → lo ≤ clamp v lo hi ≤ hi.
Proof. unfold clamp. lia. Qed.

Lemma fresh_deadline env now :
  let d := capped_defer_until now (resolve_master_recovery_cascade_defer_secs env) now in
  now + 10 ≤ d ≤ now + MASTER_RECOVERY_WINDOW_MAX_TOTAL_SECS.
Proof.
  unfold capped_defer_until. cbv zeta.
  pose proof (clamp_range (resolve_master_recovery_cascade_defer_secs env) 10
    MASTER_RECOVERY_WINDOW_MAX_TOTAL_SECS ltac:(done)).
  unfold MASTER_RECOVERY_WINDOW_MAX_TOTAL_SECS in *. lia.
Qed.

(** Opening a window inside a decision. *)
Lemma begin_in_tx_inv env sid pid gen now w r w' :
  begin_master_recovery_window_in_tx sid pid gen true now
    (resolve_master_recovery_cascade_defer_secs env) w = (Ok r, w') →
  let row := fresh_window sid pid gen true
    (capped_defer_until now (resolve_master_recovery_cascade_defer_secs env) now) now in
  r = window_view row ∧ w'.(w_db).(recovery_windows) !! sid = Some row.
Proof.
  unfold begin_master_recovery_window_in_tx, mbind, M_bind, map_err, query_window_in_tx, gets.
  destruct (insert_window_row _ w) as [[[]|e] w1] eqn:Hi; [|done].
  apply insert_window_inv in Hi as ->. cbn [put_window w_db set_db fresh_window m_session_id].
  cbn [recovery_windows set_recovery_windows]. rw lookup_insert_eq. cbn.
  intros [= <- <-]. split; [done|]. cbn. by rw lookup_insert_eq.
Qed.

Lemma commit_inv {E A} (m : M E A) w a w' :
  transaction (d ← m; mret (Commit d)) w = (Ok a, w') → m w = (Ok a, w').
Proof.
  unfold transaction, mbind, M_bind. destruct (m w) as [[d|e] w1]; simpl; [|done].
  by intros [= -> ->].
Qed.

Lemma defer_inv env sid now w w' until phase :
  master_ok (master_of w.(w_db)) →
  decide_anchor_cascade_sync env sid now w = (Ok (Defer until phase), w') →
  ∃ r, w'.(w_db).(recovery_windows) !! sid = Some r ∧ r.(m_phase) = phase ∧
       is_terminal_phase phase = false ∧ r.(m_active_work) = true ∧ r.(m_defer_until) = until ∧
       now ≤ until ≤ r.(m_created_at) + MASTER_RECOVERY_WINDOW_MAX_TOTAL_SECS.
Proof.
  intros Hm Hd%commit_inv. revert Hd.
  unfold decide_anchor_cascade_in_tx, query_session_runtime, query_window_in_tx,
    master_cutover_inflight_in_tx, session_has_active_work. rw bind_gets. cbv beta.
  destruct (w.(w_db).(sessions) !! sid) as [s|]; [|done]. destruct (_ != _); [done|].
  rw bind_gets. cbv beta.
  destruct (w.(w_db).(recovery_windows) !! sid) as [r|] eqn:Hr; cbn [fmap option_fmap option_map].
  - unfold decision_for_existing_window. cbn [window_view mw_phase mw_defer_until mw_active_work].
    destruct (r.(m_phase) == "COMPLETED") eqn:H1; [done|].
    destruct (r.(m_phase) is_in ["FAILED"; "FUSED"]) eqn:H2; [done|].
    destruct (r.(m_defer_until) <? now) eqn:H3.
    { unfold mbind, M_bind. by destruct (expire_master_recovery_window_in_tx _ _ _) as [[]]. }
    destruct r.(m_active_work) eqn:H4; [|done]. intros [= <- <- <-]. exists r.
    apply bool_decide_eq_false in H1, H2. apply Z.ltb_ge in H3.
    pose proof (wo_bound _ (mo_window _ Hm sid r Hr)).
    split_and!; try done. unfold is_terminal_phase. apply bool_decide_eq_false. set_solver.
  - rw bind_gets. cbv beta. destruct (cutover_in _ _ _); [done|]. rw bind_gets. cbv beta.
    destruct (_ || _); [|done]. unfold mbind, M_bind.
    destruct (begin_master_recovery_window_in_tx _ _ _ _ _ _ _) as [[r|] w3] eqn:Hb; [|done].
    apply begin_in_tx_inv in Hb as [-> Hrow]. intros [= <- <- <-].
    eexists. split; [exact Hrow|]. pose proof (fresh_deadline env now) as Hd.
    cbv zeta in Hd. cbn [fresh_window window_view m_phase m_active_work m_defer_until m_created_at
      mw_phase mw_defer_until]. split_and!; try done; lia.
Qed.

(** The deferral of a cascade is bounded.  From well-formed tables, whenever
    the decision is to defer, the session has a recovery window that is open,
    holds active work and ends at the time answered, which is not in the past
    and at most the total a window is allowed after it was opened. *)
Theorem deferral_bounded env sid now w w' until phase :
  master_ok (master_of w.(w_db)) →
  decide_anchor_cascade_sync env sid now w = (Ok (Defer until phase), w') →
  ∃ r, w'.(w_db).(recovery_windows) !! sid = Some r ∧ r.(m_phase) = phase ∧
       is_terminal_phase phase = false ∧ r.(m_active_work) = true ∧ r.(m_defer_until) = until ∧
       now ≤ until ≤ r.(m_created_at) + MASTER_RECOVERY_WINDOW_MAX_TOTAL_SECS.
Proof. apply defer_inv. Qed.

(** Waiting for a revived master to become ready fits its window.  Whatever
    timeout is configured, the wait is at most a minute and ends, with the
    margin for cleaning up, before the window's deadline, which is never past
    the total the window is allowed; without a window there is no wait. *)
Theorem readiness_wait_fits_window sid now configured w :
  master_ok (master_of w.(w_db)) →
  match w.(w_db).(recovery_windows) !! sid with
  | None => master_recovery_effective_readiness_timeout sid now configured w = (Ok None, w)
  | Some r => ∃ t, master_recovery_effective_readiness_timeout sid now configured w = (Ok (Some t), w) ∧
      t ≤ 60 ∧ now + t + MASTER_REVIVE_READINESS_CLEANUP_MARGIN_SECS ≤ r.(m_defer_until) ∧
      r.(m_defer_until) ≤ r.(m_created_at) + MASTER_RECOVERY_WINDOW_MAX_TOTAL_SECS ∧
      (now + 60 + MASTER_REVIVE_READINESS_CLEANUP_MARGIN_SECS ≤ r.(m_defer_until) →
       t = clamp configured 10 60)
  end.
Proof.
  intros Hm. unfold master_recovery_effective_readiness_timeout, master_recovery_window_timing.
  rw bind_gets. cbv beta. destruct (_ !! sid) as [r|] eqn:Hr; [|done].
  pose proof (wo_bound _ (mo_window _ Hm sid r Hr)). eexists. split; [done|].
  pose proof (clamp_range configured 10 60 ltac:(done)).
  unfold effective_readiness_timeout, MASTER_REVIVE_READINESS_CLEANUP_MARGIN_SECS. cbv zeta.
  cbn [wt_defer_until wt_created_at]. lia.
Qed.

(** ** Shutting the daemon down *)

(** Updating one row of a table, pointwise. *)
Lemma update_row_lookup {R : Type} id guard (f : R → R) (t : gmap string R) k :
  (update_row id guard f t).1 !! k =
  (λ r, if (k == id) && guard r then f r else r) <$> t !! k.
Proof.
  unfold update_row. destruct (t !! id) as [r|] eqn:Hr.
  - destruct (guard r) eqn:Hg; simpl.
    + destruct (decide (k = id)) as [->|Hne].
      * by rw lookup_insert_eq Hr /= bool_decide_true // Hg.
      * rw lookup_insert_ne // bool_decide_false //. by destruct (t !! k).
    + destruct (decide (k = id)) as [->|Hne]; [by rw Hr /= Hg andb_false_r|].
      rw bool_decide_false //. by destruct (t !! k).
  - cbn [fst]. destruct (decide (k = id)) as [->|Hne]; [by rw Hr|].
    rw bool_decide_false //. by destruct (t !! k).
Qed.

(** [update_row] over a list of keys is the update of the rows with those keys. *)
Lemma update_rows_lookup {R : Type} (ids : list string) guard (f : R → R) (t : gmap string R) k :
  (∀ r, guard (f r) = false) →
  foldl (λ t id, (update_row id guard f t).1) t ids !! k =
  (λ r, if (k is_in ids) && guard r then f r else r) <$> t !! k.
Proof.
  intros Hf. induction ids as [|id ids IH] in t |- *; simpl.
  { by destruct (t !! k). }
  rw IH update_row_lookup. destruct (t !! k) as [r|]; [|done]. simpl. f_equal.
  destruct (decide (k = id)) as [->|Hne].
  - rw (bool_decide_true (id = id)) // (bool_decide_true (id ∈ id :: ids)); [set_solver|].
    simpl. destruct (guard r) eqn:Hg; [by rw Hf andb_false_r|]. by rw Hg andb_false_r.
  - rw (bool_decide_false (k = id)) //=.
    by rw (bool_decide_ext (k ∈ id :: ids) (k ∈ ids)); [set_solver|].
Qed.

Lemma end_sessions_run ids n w :
  ∃ m, end_sessions ids n w =
    (Ok m, set_db (set_sessions (foldl (λ t id, (update_row id (λ s, s.(s_status) == "ACTIVE")
             (end_session "KILLED" "INTENTIONAL_KILL") t).1) w.(w_db).(sessions) ids) w.(w_db)) w).
Proof.
  induction ids as [|id ids IH] in n, w |- *; simpl.
  { exists n. rw set_same_sessions. by destruct w. }
  unfold update_session, mbind, M_bind. 
  destruct (update_row id _ _ w.(w_db).(sessions)) as [t m] eqn:Ht. simpl.
  destruct (IH (n + m)%nat (set_db (set_sessions t w.(w_db)) w)) as [m' ->]. by exists m'.
Qed.

Definition killed (now : Z) (a : Agent) : Agent := bump_version now (set_a_state "KILLED" a).

Lemma kill_rows_run (ids : list string) w :
  for_ ids (λ id, update_agent id tracked (killed w.(w_now));; mret tt : M CcbdError unit) w =
  (Ok tt, set_db (set_agents (foldl (λ t id, (update_row id tracked (killed w.(w_now)) t).1)
                                w.(w_db).(agents) ids) w.(w_db)) w).
Proof.
  induction ids as [|id ids IH] in w |- *; simpl.
  { by destruct w as [[]]. }
  unfold update_agent, mbind, M_bind.
  destruct (update_row id _ _ w.(w_db).(agents)) as [t m] eqn:Ht. simpl.
  by rw (IH (set_db (set_agents t w.(w_db)) w)).
Qed.

(** One session's agents. *)
Lemma kill_agents_run sid w :
  (∀ id a, w.(w_db).(agents) !! id = Some a → a.(a_id) = id) →
  ∃ t, kill_session_agents sid w = (Ok tt, set_db (set_agents t w.(w_db)) w) ∧
  ∀ id, t !! id = (λ a, if (a.(a_session_id) == sid) && tracked a then killed w.(w_now) a else a)
                    <$> w.(w_db).(agents) !! id.
Proof.
  intros Hkey. eexists. split; [unfold kill_session_agents; step_pure; apply kill_rows_run|].
  intros id. rw update_rows_lookup; [done|].
  destruct (w.(w_db).(agents) !! id) as [a|] eqn:Ha; [|done]. simpl. f_equal.
  rw (bool_decide_ext (id ∈ a_id <$> session_agents sid w.(w_db)) (a.(a_session_id) = sid)) //.
  unfold session_agents. rw list_elem_of_fmap. split.
  - intros (b & Hid & [Hs (k & Hb)%elem_of_table_rows]%list_elem_of_filter).
    rw (Hkey _ _ Hb) in Hid. subst k. by simplify_eq.
  - intros Hs. exists a. rw (Hkey _ _ Ha) list_elem_of_filter elem_of_table_rows. eauto.
Qed.

Lemma kill_all_run sids w :
  (∀ id a, w.(w_db).(agents) !! id = Some a → a.(a_id) = id) →
  ∃ t, for_ sids kill_session_agents w = (Ok tt, set_db (set_agents t w.(w_db)) w) ∧
  ∀ id, t !! id = (λ a, if (a.(a_session_id) is_in sids) && tracked a then killed w.(w_now) a else a)
                    <$> w.(w_db).(agents) !! id.
Proof.
  induction sids as [|sid sids IH] in w |- *; intros Hkey.
  { exists w.(w_db).(agents). split; [by destruct w as [[]]|]. intros id.
    by destruct (w.(w_db).(agents) !! id). }
  destruct (kill_agents_run sid w Hkey) as (t & Hrun & Ht). cbn [for_].
  rw (bind_ok _ _ _ _ _ Hrun).
  destruct (IH (set_db (set_agents t w.(w_db)) w)) as (t' & Hrun' & Ht').
  { cbn [w_db set_db agents set_agents]. intros id a. rw Ht.
    destruct (w.(w_db).(agents) !! id) as [b|] eqn:Hb; [|done]. simpl. intros [= <-].
    rw -(Hkey _ _ Hb). by destruct (_ && _). }
  exists t'. split; [by rw Hrun'|]. intros id. rw Ht' /= Ht.
  destruct (w.(w_db).(agents) !! id) as [a|]; [|done]. simpl. f_equal.
  destruct (decide (a.(a_session_id) = sid)) as [Heq|Hne].
  - rw (bool_decide_true (a.(a_session_id) = sid)) // (bool_decide_true (_ ∈ sid :: _)); [set_solver|].
    simpl. destruct (tracked a) eqn:Htr; [by rw andb_false_r|]. by rw Htr andb_false_r.
  - rw (bool_decide_false (a.(a_session_id) = sid)) //=.
    by rw (bool_decide_ext (a.(a_session_id) ∈ sid :: sids) (a.(a_session_id) ∈ sids)); [set_solver|].
Qed.

(** Shutting the daemon down ends every active session and kills the agents
    that were running in one: each active session is KILLED with the reason
    recorded, each of its agents not already CRASHED or KILLED is KILLED under a
    new version, sessions and agents that had ended stay as they are, and no
    job changes, not even one that a killed agent had been dispatched. *)
Theorem shutdown_functional w :
  (∀ id a, w.(w_db).(agents) !! id = Some a → a.(a_id) = id) →
  ∃ n w', mark_all_sessions_intentional_shutdown w = (Ok n, w') ∧
  (∀ id, w'.(w_db).(sessions) !! id =
     (λ s, if s.(s_status) == "ACTIVE" then end_session "KILLED" "INTENTIONAL_KILL" s else s)
       <$> w.(w_db).(sessions) !! id) ∧
  (∀ id, w'.(w_db).(agents) !! id =
     (λ a, if (a.(a_session_id) is_in active_session_ids w.(w_db)) && tracked a
           then killed w.(w_now) a else a) <$> w.(w_db).(agents) !! id) ∧
  w'.(w_db).(jobs) = w.(w_db).(jobs).
Proof.
  intros Hkey. destruct (end_sessions_run (active_session_ids w.(w_db)) 0 w) as [n Hend].
  set (w1 := set_db _ w) in Hend.
  destruct (kill_all_run (active_session_ids w.(w_db)) w1) as (t & Hkill & Ht); [done|].
  set (w2 := set_db (set_agents t w1.(w_db)) w1) in Hkill.
  assert (Hrun : ∃ out, mark_all_sessions_intentional_shutdown w =
    (Ok n, MkWorld w2.(w_db) w2.(w_now) out w2.(w_log_monitors) w2.(w_pending_tasks))).
  { unfold mark_all_sessions_intentional_shutdown.
    erewrite bind_ok; [|apply transaction_ok; step_pure; rw (bind_ok _ _ _ _ _ Hend);
      rw (bind_ok _ _ _ _ _ Hkill); apply ret_run].
    cbv beta. unfold when. case_bool_decide; eexists; reflexivity. }
  destruct Hrun as [out ->]. do 2 eexists. split; [done|]. cbn [w_db].
  split_and!; [|exact Ht|done].
  intros id. unfold w2, w1. cbn [w_db set_db sessions set_sessions set_agents].
  rw update_rows_lookup; [done|]. destruct (w.(w_db).(sessions) !! id) as [s|] eqn:Hs; [|done].
  simpl. f_equal. destruct (s.(s_status) == "ACTIVE") eqn:Hst; [|by rw andb_false_r].
  apply bool_decide_eq_true in Hst. rw bool_decide_true //.
  unfold active_session_ids. apply list_elem_of_fmap. exists (id, s). split; [done|].
  apply list_elem_of_filter. by rw elem_of_map_to_list.
Qed.

End MasterProofs.
