(* ===== verification/EventsProofs.v ===== *)
(** * Properties of the event log and of the perception channel *)
From S2P Require Import Prelude Json Schema Sql MasterTables JobGate Invariant AgentGate Text ReplyText Jobs.
From S2P Require Import Completion Evidence StateMachine Events Perception.

Section EventsProofs.
Context {EXT : Externals}.

(** ** Order *)

#[local] Instance seq_le_preorder : PreOrder seq_le.
Proof. split; [intros e|intros e f g]; unfold seq_le; lia. Qed.
#[local] Instance seq_le_total : Total seq_le.
Proof. intros e f. unfold seq_le. lia. Qed.

Lemma sorted_lt_inj l e f :
  StronglySorted Z.lt (e_seq_id <$> l) → e ∈ l → f ∈ l → e.(e_seq_id) = f.(e_seq_id) → e = f.
Proof.
  induction l as [|x l IH]; intros Hs He Hf Heq; [by apply elem_of_nil in He|].
  rw fmap_cons in Hs. apply StronglySorted_inv in Hs as [Hs Hx]. rw Forall_forall in Hx.
  assert (Hin : ∀ g, g ∈ l → x.(e_seq_id) < g.(e_seq_id))
    by (intros g Hg; by apply Hx, list_elem_of_fmap_2).
  apply elem_of_cons in He as [->|He], Hf as [->|Hf]; [done|..|by apply IH].
  - specialize (Hin f Hf). lia.
  - specialize (Hin e He). lia.
Qed.

Lemma sorted_filter (P : Event → Prop) `{!∀ e, Decision (P e)} l :
  StronglySorted Z.lt (e_seq_id <$> l) → StronglySorted Z.lt (e_seq_id <$> filter P l).
Proof.
  induction l as [|x l IH]; intros Hs; [done|].
  rw fmap_cons in Hs. apply StronglySorted_inv in Hs as [Hs Hx].
  rw filter_cons. destruct (decide (P x)); [|by apply IH]. rw fmap_cons.
  constructor; [by apply IH|]. rw !Forall_fmap in Hx |- *. rw !Forall_forall in Hx |- *.
  intros g [_ Hg]%list_elem_of_filter. by apply Hx.
Qed.

Lemma sorted_seq_le l : StronglySorted Z.lt (e_seq_id <$> l) → StronglySorted seq_le l.
Proof.
  induction l as [|x l IH]; intros Hs; [constructor|].
  rw fmap_cons in Hs. apply StronglySorted_inv in Hs as [Hs Hx].
  constructor; [by apply IH|]. rw Forall_fmap in Hx. eapply Forall_impl; [exact Hx|].
  intros g. unfold seq_le. simpl. lia.
Qed.

(** Rows in the order of insertion are in the order of their numbers. *)
Lemma order_by_seq l : StronglySorted Z.lt (e_seq_id <$> l) → order_by seq_le l = l.
Proof.
  intros Hs. unfold order_by. apply (StronglySorted_unique_strong seq_le).
  - intros e f He Hf Hef Hfe. rw merge_sort_Permutation in He.
    apply (sorted_lt_inj l); [done..|]. unfold seq_le in *. lia.
  - apply (StronglySorted_merge_sort seq_le).
  - by apply sorted_seq_le.
  - apply merge_sort_Permutation.
Qed.

(** ** Following an agent *)

Definition since (agent_id : string) (cursor : Z) (db : Db) : list Event :=
  filter (λ e, cursor < e.(e_seq_id)) (event_of agent_id db).

#[local] Arguments since : simpl never.

Lemma since_run agent_id cursor w :
  db_wf w.(w_db) → query_events_since_sync agent_id cursor w = (Ok (since agent_id cursor w.(w_db)), w).
Proof.
  intros Hwf. unfold query_events_since_sync, gets. do 2 f_equal.
  apply order_by_seq, sorted_filter, sorted_filter, (wf_event_seq _ Hwf).
Qed.

(** A client that asks again and again, each time for what comes after the last
    event it was given, while the daemon works: the databases it finds. *)
Fixpoint poll (agent_id : string) (cursor : Z) (ws : list World) : Result (list Event) CcbdError :=
  match ws with
  | [] => Ok []
  | w :: ws =>
      match (query_events_since_sync agent_id cursor w).1 with
      | Ok batch =>
          match poll agent_id (default cursor (e_seq_id <$> last batch)) ws with
          | Ok rest => Ok (batch ++ rest)
          | Err e => Err e
          end
      | Err e => Err e
      end
  end.

(** Each database developed from the previous one. *)
Inductive developing : World → list World → Prop :=
| dev_one w : db_wf w.(w_db) → developing w [w]
| dev_next w w' ws :
    db_wf w.(w_db) → evolves w.(w_db) w'.(w_db) → developing w' ws → developing w (w :: ws).

Lemma sorted_app_lt l k e f :
  StronglySorted Z.lt (e_seq_id <$> (l ++ k)) → e ∈ l → f ∈ k → e.(e_seq_id) < f.(e_seq_id).
Proof.
  rw fmap_app. intros Hs He Hf.
  by eapply StronglySorted_app_1_elem_of; [exact Hs|apply list_elem_of_fmap_2..].
Qed.

Lemma last_is_max l e f :
  StronglySorted Z.lt (e_seq_id <$> l) → last l = Some e → f ∈ l → f.(e_seq_id) ≤ e.(e_seq_id).
Proof.
  intros Hs [l' ->]%last_Some [Hf| ->%list_elem_of_singleton]%elem_of_app; [|lia].
  enough (f.(e_seq_id) < e.(e_seq_id)) by lia. by eapply sorted_app_lt; [exact Hs| |set_solver].
Qed.

Lemma developing_next w ws x : developing w ws → last (x :: ws) = last ws.
Proof. intros Hd. rw last_cons. destruct Hd; [done|]. by rw last_cons; destruct (last ws). Qed.

Lemma developing_evolves w ws w' :
  developing w ws → last ws = Some w' → db_wf w'.(w_db) ∧ evolves w.(w_db) w'.(w_db).
Proof.
  induction 1 as [w Hwf|w w1 ws Hwf Hev Hdev IH]; [by intros [= <-]|].
  rw (developing_next w1 ws w) //. intros Hl%IH. destruct Hl. split; [done|by etrans].
Qed.

(** What is new after a batch is exactly what comes after its last event. *)
Lemma since_split agent_id cursor db db' :
  db_wf db' → evolves db db' →
  let batch := since agent_id cursor db in
  since agent_id cursor db' =
  batch ++ since agent_id (default cursor (e_seq_id <$> last batch)) db'.
Proof.
  intros Hwf Hev batch. destruct (ev_events _ _ Hev) as [k Hk].
  assert (Hs : StronglySorted Z.lt (e_seq_id <$> event_of agent_id db'))
    by apply sorted_filter, (wf_event_seq _ Hwf).
  unfold since, event_of in Hs |- *. rw Hk filter_app in Hs |- *. rw !filter_app.
  set (l := filter _ db.(events)) in *. set (k' := filter _ k) in *.
  assert (Hb : batch = filter (λ e, cursor < e.(e_seq_id)) l) by done.
  destruct (last batch) as [e|] eqn:Hlast; cycle 1.
  { apply last_None in Hlast. rw Hlast /=. done. }
  assert (He : e ∈ batch) by (apply last_Some in Hlast as [? ->]; set_solver).
  rw Hb list_elem_of_filter in He. destruct He as [Hce Hel]. simpl.
  rw (filter_none (λ x, e.(e_seq_id) < x.(e_seq_id)) l); [|rw (filter_all _ k'); [|rw (filter_all _ k')]].
  - intros x Hx Hlt. enough (x.(e_seq_id) ≤ e.(e_seq_id)) by lia.
    apply (last_is_max batch); [|done|rw Hb list_elem_of_filter; split; [lia|done]].
    rw Hb. apply sorted_filter. rw fmap_app in Hs. by eapply StronglySorted_app_1_l.
  - intros x Hx. pose proof (sorted_app_lt l k' e x Hs Hel Hx). lia.
  - intros x Hx. by apply (sorted_app_lt l k' e x Hs).
  - by rw -Hb.
Qed.

(** Following an agent misses nothing and repeats nothing.  A client that
    keeps asking for the events after the last one it was given, at any moments
    while the daemon works, receives in the end exactly the agent's events
    after its starting point, in order and each once, as if it had asked a
    single time at the end. *)
Theorem polling_sees_each_event_once agent_id cursor w ws w' :
  developing w ws → last ws = Some w' →
  poll agent_id cursor ws = (query_events_since_sync agent_id cursor w').1.
Proof.
  intros Hdev Hlast. rw since_run; [by apply (developing_evolves w ws)|]. cbn [fst].
  induction Hdev as [w Hwf|w w1 ws Hwf Hev Hdev IH] in cursor, Hlast |- *; cbn [poll].
  - injection Hlast as <-. rw since_run //=. by rw app_nil_r.
  - destruct (developing_evolves w (w :: ws) w') as [Hwf' Hev']; [by econstructor|done|].
    rw since_run //. cbn [fst]. rw (developing_next w1 ws w) // in Hlast.
    rw IH //. by rw (since_split agent_id cursor w.(w_db) w'.(w_db)).
Qed.

(** ** Idempotent insertion *)

Lemma insert_row_run agent_id request_id ty payload w :
  insert_event_row agent_id request_id ty payload w =
  if event_idempotency_taken w.(w_db) agent_id request_id
  then (Err (UniqueViolation "events.agent_id, events.request_id"), w)
  else match w.(w_db).(agents) !! agent_id with
  | None => (Err ForeignKeyViolation, w)
  | Some _ =>
      let seq := w.(w_db).(event_seq) + 1 in
      (Ok seq, set_db (set_event_seq seq (set_events (w.(w_db).(events) ++
                 [MkEvent seq agent_id request_id ty payload w.(w_now)]) w.(w_db))) w)
  end.
Proof. done. Qed.

Definition has_request (agent_id r : string) (e : Event) : bool :=
  (e.(e_agent_id) == agent_id) && (e.(e_request_id) == Some r).

Lemma event_by_request_find agent_id r db :
  event_by_request agent_id r db = head (filter (λ e, has_request agent_id r e = true) db.(events)).
Proof.
  unfold event_by_request, event_of. rw list_filter_filter. f_equal.
  apply list_filter_iff. intros e. unfold has_request. rw andb_true_iff !bool_decide_eq_true. naive_solver.
Qed.

Lemma no_request_filter agent_id r db :
  event_idempotency_taken db agent_id (Some r) = false →
  filter (λ e, has_request agent_id r e = true) db.(events) = [].
Proof.
  intros Hn. apply filter_none. intros e He Hr. apply not_true_iff_false in Hn. apply Hn.
  apply existsb_exists. exists e. by rw -list_elem_of_In.
Qed.

(** A request is recorded once.  After an event was inserted under a request
    id, every later insertion with the same agent and request id, whatever its
    type and payload and whatever happened to the tables in between, is
    refused with the number of that first event and writes nothing. *)
Theorem duplicate_event_names_first agent_id r ty payload seq w w1 w2 ty' payload' :
  insert_event_sync agent_id (Some r) ty payload w = (Ok seq, w1) →
  evolves w1.(w_db) w2.(w_db) →
  insert_event_sync agent_id (Some r) ty' payload' w2 = (Err (DuplicateRequest seq), w2).
Proof.
  unfold insert_event_sync, mbind, M_bind, try_. rw !insert_row_run.
  destruct (event_idempotency_taken w.(w_db) agent_id (Some r)) eqn:Hn.
  { simpl. unfold gets. by destruct (event_by_request _ _ _). }
  destruct (w.(w_db).(agents) !! agent_id); [|done]. cbv zeta. intros [= <- <-] Hev.
  destruct (ev_events _ _ Hev) as [k Hk]. cbn [w_db set_db events set_events set_event_seq] in Hk.
  set (e0 := MkEvent _ _ _ _ _ _) in Hk.
  assert (Hhead : event_by_request agent_id r w2.(w_db) = Some e0).
  { rw event_by_request_find Hk !filter_app (no_request_filter _ _ _ Hn).
    rw filter_cons_True; [|done]. unfold has_request. simpl. by rw !bool_decide_true. }
  assert (Htaken : event_idempotency_taken w2.(w_db) agent_id (Some r) = true).
  { apply existsb_exists. exists e0. split; [|by simpl; rw !bool_decide_true].
    apply list_elem_of_In. rw Hk. set_solver. }
  rw Htaken. simpl. unfold gets. by rw Hhead.
Qed.

(** ** The perception channel *)

Lemma layer_roundtrip l : parse_layer (layer_str l) = Ok l.
Proof. by destruct l. Qed.
Lemma verdict_roundtrip v : parse_verdict (verdict_str v) = Ok v.
Proof. by destruct v. Qed.

Definition is_i64 (n : Z) : Prop := i64_min ≤ n ≤ i64_max.

Lemma perception_payload_fields layer verdict epoch observed detail :
  let v := perception_payload layer verdict epoch observed detail in
  value_index "layer" v = JString (layer_str layer) ∧
  value_index "verdict" v = JString (verdict_str verdict) ∧
  value_index "epoch" v = JNumber epoch ∧ value_index "observed_at" v = JNumber observed ∧
  value_index "detail" v = detail.
Proof. by split_and!. Qed.

Lemma perception_payload_wf layer verdict epoch observed detail :
  is_i64 epoch → is_i64 observed → value_wf detail →
  value_wf (perception_payload layer verdict epoch observed detail).
Proof.
  unfold is_i64, i64_max. intros He Ho Hd. cbn. repeat split; try done; unfold i64_min in *; lia.
Qed.

Lemma decode_encoded agent_id layer verdict epoch observed detail :
  is_i64 epoch → is_i64 observed → value_wf detail →
  decode_perception_event agent_id
    (json_to_string (perception_payload layer verdict epoch observed detail)) =
  Ok (MkPerceptionEvent agent_id layer verdict epoch observed detail).
Proof.
  intros He Ho Hd. unfold decode_perception_event.
  rw json_from_to; [by apply perception_payload_wf|].
  destruct (perception_payload_fields layer verdict epoch observed detail) as (H1 & H2 & H3 & H4 & H5).
  cbn [ok_or and_then]. rw H1 H2 H3 H4 H5. cbn [as_str ok_or and_then].
  rw layer_roundtrip verdict_roundtrip. cbn [as_i64 and_then]. by rw !bool_decide_true.
Qed.

Lemma decode_events_app agent_id l k es ks :
  decode_perception_events agent_id l = Ok es → decode_perception_events agent_id k = Ok ks →
  decode_perception_events agent_id (l ++ k) = Ok (es ++ ks).
Proof.
  induction l as [|p l IH] in es |- *; cbn [decode_perception_events app]; [by intros [= <-]|].
  destruct (decode_perception_event agent_id p) as [e|]; [|done]. cbn [and_then].
  destruct (decode_perception_events agent_id l) as [es'|]; [|done]. intros [= <-] Hk.
  by rw (IH es').
Qed.

Lemma payloads_run agent_id db :
  db_wf db → perception_payloads agent_id db =
  e_payload <$> filter (λ e, e.(e_event_type) = "perception") (event_of agent_id db).
Proof.
  intros Hwf. unfold perception_payloads. f_equal.
  apply order_by_seq, sorted_filter, sorted_filter, (wf_event_seq _ Hwf).
Qed.

(** An observation is read back as it was reported.  When the observations of
    an agent could be read, and one more is emitted, reading again answers the
    same observations followed by the new one, with its layer, verdict, epoch,
    time and detail unchanged; Unknown stays distinct from True and False. *)
Theorem perception_roundtrip agent_id layer verdict epoch observed detail es w seq w1 :
  consistent w.(w_db) →
  is_i64 epoch → is_i64 observed → value_wf detail →
  query_perception_events_sync agent_id w = (Ok es, w) →
  emit_perception_event_sync agent_id layer verdict epoch observed detail w = (Ok seq, w1) →
  query_perception_events_sync agent_id w1 =
  (Ok (es ++ [MkPerceptionEvent agent_id layer verdict epoch observed detail]), w1).
Proof.
  intros Hc He Ho Hd Hq Hemit.
  assert (Hwf1 : db_wf w1.(w_db)).
  { pose proof (proj2 (sound_emit_perception agent_id layer verdict epoch observed detail w) Hc) as Hc1.
    rw Hemit in Hc1. apply Hc1. }
  unfold query_perception_events_sync in *. rw !bind_gets in Hq |- *. unfold of_result in *.
  f_equal. rw payloads_run in Hq; [apply Hc|]. rw payloads_run //.
  unfold emit_perception_event_sync, insert_event_null, map_err in Hemit. rw insert_row_run in Hemit.
  cbn [event_idempotency_taken] in Hemit. destruct (w.(w_db).(agents) !! agent_id); [|done].
  cbv zeta in Hemit. injection Hemit as _ <-. unfold event_of.
  cbn [w_db set_db events set_events set_event_seq]. rw !filter_app fmap_app.
  rw (filter_cons_True (λ e, e.(e_agent_id) = agent_id)) // filter_cons_True // .
  injection Hq as Hq. apply decode_events_app; [done|].
  cbn [fmap list_fmap e_payload decode_perception_events]. by rw decode_encoded.
Qed.

End EventsProofs.
