(* ===== verification/HealthCheckProofs.v ===== *)
(** * Properties of the health check *)
From S2P Require Import Prelude Json Schema Sql MasterTables JobGate Invariant AgentGate Text Providers.
From S2P Require Import ReplyText Jobs JobsProofs Completion Evidence StateMachine StateMachineProofs.
From S2P Require Import Events EventsProofs Agents HealthCheck.

Section HealthCheckProofs.
Context {EXT : Externals}.

(** ** The last sign of progress *)

#[local] Instance seq_ge_trans : Transitive seq_ge.
Proof. intros e f g. unfold seq_ge. lia. Qed.
#[local] Instance seq_ge_total : Total seq_ge.
Proof. intros e f. unfold seq_ge. lia. Qed.

Lemma newest_is_last l : StronglySorted Z.lt (e_seq_id <$> l) → head (order_by seq_ge l) = last l.
Proof.
  intros Hs. unfold order_by. pose proof (merge_sort_Permutation seq_ge l) as Hperm.
  pose proof (StronglySorted_merge_sort seq_ge l) as Hsort.
  destruct (merge_sort seq_ge l) as [|x s]; simpl.
  { apply Permutation_nil in Hperm as ->. done. }
  assert (Hx : x ∈ l) by (rewrite -Hperm; by left).
  destruct (last l) as [y|] eqn:Hy.
  2:{ apply last_None in Hy. subst l. by apply elem_of_nil in Hx. }
  f_equal. assert (Hyl : y ∈ l) by (by apply last_Some_elem_of).
  apply (sorted_lt_inj l); [done..|].
  apply StronglySorted_inv in Hsort as [_ Hge]. rw Forall_forall in Hge.
  pose proof (last_is_max l y x Hs Hy Hx). rewrite -Hperm in Hyl.
  apply elem_of_cons in Hyl as [->|Hin]; [done|]. specialize (Hge y Hin). unfold seq_ge in Hge. lia.
Qed.

(** The agent's output that may carry a marker, and the output that does. *)
Definition candidates (agent_id : string) (db : Db) : list Event :=
  filter (λ e, e.(e_event_type) = "output_chunk" ∧ like e.(e_payload) marker_like = true)
    (event_of agent_id db).

Definition marked (agent_id : string) (db : Db) : list Event :=
  filter (λ e, carries_marker e = true) (candidates agent_id db).

Definition earlier (before : option Z) (l : list Event) : list Event :=
  filter (λ e, when_given before (λ b, e.(e_seq_id) <? b) = true) l.

Lemma events_sorted agent_id db :
  db_wf db → StronglySorted Z.lt (e_seq_id <$> event_of agent_id db).
Proof. intros Hwf. apply sorted_filter, Hwf. Qed.

Lemma matching_run w agent_id before :
  db_wf w.(w_db) →
  query_last_event_of_type_matching_payload_sync agent_id "output_chunk" marker_like before w =
    (Ok (last (earlier before (candidates agent_id w.(w_db)))), w).
Proof.
  intros Hwf. unfold query_last_event_of_type_matching_payload_sync, gets. do 2 f_equal.
  rw newest_is_last; [by apply sorted_filter, events_sorted|].
  unfold earlier, candidates. rw list_filter_filter. f_equal. apply list_filter_iff. intros e. tauto.
Qed.

(** Below the newest earlier event are the others. *)
Lemma earlier_below before l k e :
  StronglySorted Z.lt (e_seq_id <$> l) → earlier before l = k ++ [e] →
  earlier (Some e.(e_seq_id)) l = k.
Proof.
  intros Hs Hk. assert (Hks : StronglySorted Z.lt (e_seq_id <$> (k ++ [e]))).
  { rw -Hk. by apply sorted_filter. }
  assert (He : when_given before (λ b, e.(e_seq_id) <? b) = true).
  { assert (Hin : e ∈ earlier before l) by (rw Hk; set_solver).
    by apply list_elem_of_filter in Hin as [? _]. }
  assert (Heq : earlier (Some e.(e_seq_id)) l = earlier (Some e.(e_seq_id)) (earlier before l)).
  { unfold earlier. symmetry. apply filter_filter_impl. intros x _. simpl. rw Z.ltb_lt. intros Hx.
    destruct before as [b|]; simpl in *; [|done]. apply Z.ltb_lt in He. apply Z.ltb_lt. lia. }
  rw Heq Hk. unfold earlier. rw filter_app filter_all.
  - intros x Hx. simpl. apply Z.ltb_lt. eapply (sorted_app_lt k [e]); [done..|set_solver].
  - rw filter_none ?app_nil_r //. intros x ->%list_elem_of_singleton. simpl. rw Z.ltb_irrefl //.
Qed.

Lemma last_marker_loop_run w agent_id fuel before :
  db_wf w.(w_db) →
  (length (earlier before (candidates agent_id w.(w_db))) < fuel)%nat →
  last_marker_loop fuel agent_id before w =
    (Ok (e_created_at <$> last (filter (λ e, carries_marker e = true)
                                  (earlier before (candidates agent_id w.(w_db))))), w).
Proof.
  intros Hwf. revert before. induction fuel as [|fuel IH]; intros before Hlen; [lia|].
  cbn [last_marker_loop]. rw (bind_ok _ _ _ _ _ (map_err_ok _ _ _ _ _ (matching_run w agent_id before Hwf))).
  destruct (last (earlier before (candidates agent_id (w_db w)))) as [e|] eqn:Hl.
  2:{ apply last_None in Hl. by rw Hl. }
  apply last_Some in Hl as [k Hk]. rw Hk filter_app. destruct (carries_marker e) eqn:Hm.
  - rw (filter_all _ [e]); [by intros x ->%list_elem_of_singleton|]. by rw last_snoc.
  - rw (filter_none _ [e]); [intros x ->%list_elem_of_singleton; by rw Hm|]. rw app_nil_r.
    assert (Hb : earlier (Some e.(e_seq_id)) (candidates agent_id w.(w_db)) = k).
    { eapply earlier_below; [|exact Hk]. by apply sorted_filter, events_sorted. }
    rw IH Hb //. rw Hk length_app /= in Hlen. lia.
Qed.

Lemma last_progress_run w agent_id :
  db_wf w.(w_db) →
  query_last_progress agent_id w =
    (Ok (e_created_at <$> last (filter (λ e, e.(e_event_type) = "output_chunk")
                                  (event_of agent_id w.(w_db))),
         e_created_at <$> last (marked agent_id w.(w_db))), w).
Proof.
  intros Hwf. unfold query_last_progress.
  erewrite bind_ok; [cbv beta|apply map_err_ok; reflexivity].
  rw newest_is_last; [by apply sorted_filter, events_sorted|]. step_pure.
  rw (bind_ok _ _ _ _ _ (last_marker_loop_run w agent_id (S (length w.(w_db).(events))) None Hwf _)) //.
  - unfold earlier. rw filter_all //. unfold candidates, event_of.
    apply Nat.lt_succ_r. etrans; [apply length_filter|]. apply length_filter.
  - unfold marked, earlier. by rw (filter_all (λ e, when_given None _ = true)).
Qed.

(** The search for the last sign of progress ends, and finds what it is for.
    The loop that walks back through the output, one candidate at a time, makes
    at most one turn per logged event and the one that finds nothing; its
    answer is the time of the last output whose decoded text carries the idle
    marker, whatever look-alikes come after it, next to the time of the last
    output of any kind.  Nothing is changed. *)
Theorem last_progress_exact w agent_id :
  db_wf w.(w_db) →
  query_last_progress agent_id w =
    (Ok (e_created_at <$> last (filter (λ e, e.(e_event_type) = "output_chunk")
                                  (event_of agent_id w.(w_db))),
         e_created_at <$> last (marked agent_id w.(w_db))), w).
Proof. apply last_progress_run. Qed.

(** ** Agents whose panes are alive *)

(** Only the event log has grown, by state changes. *)
Record only_logs (w w' : World) : Prop := {
  ol_agents : w'.(w_db).(agents) = w.(w_db).(agents);
  ol_jobs : w'.(w_db).(jobs) = w.(w_db).(jobs);
  ol_now : w'.(w_now) = w.(w_now);
  ol_wf : db_wf w'.(w_db);
  ol_events : ∃ k, w'.(w_db).(events) = w.(w_db).(events) ++ k ∧
                   Forall (λ e, e.(e_event_type) = "state_change") k
}.

Lemma only_logs_refl w : db_wf w.(w_db) → only_logs w w.
Proof. intros Hwf. split; try done. exists []. by rw app_nil_r. Qed.

Lemma only_logs_trans w1 w2 w3 : only_logs w1 w2 → only_logs w2 w3 → only_logs w1 w3.
Proof.
  intros [Ha Hj Hn _ (k & Hk & Hf)] [Ha' Hj' Hn' Hwf (k' & Hk' & Hf')].
  split; [congruence..|done|]. exists (k ++ k'). rw Hk' Hk -app_assoc. split; [done|].
  by apply Forall_app.
Qed.

Lemma only_logs_effect w w' e : only_logs w w' → only_logs w (add_effect e w').
Proof. by intros []. Qed.

(** Logging a state change. *)
Lemma insert_state_change_row w agent_id payload :
  is_Some (w.(w_db).(agents) !! agent_id) →
  insert_event agent_id None "state_change" (json_to_string payload) w =
    (Ok (w.(w_db).(event_seq) + 1),
     set_db (post_event w.(w_now) agent_id "state_change" payload w.(w_db)) w).
Proof.
  intros [a Ha]. unfold insert_event. cbn [andb].
  assert (Hrow : insert_event_row agent_id None "state_change" (json_to_string payload) w =
    (Ok (w.(w_db).(event_seq) + 1),
     set_db (post_event w.(w_now) agent_id "state_change" payload w.(w_db)) w)).
  { unfold insert_event_row. simpl. by rw Ha. }
  unfold insert_event_sync, try_, mbind, M_bind. by rw Hrow.
Qed.

Lemma insert_state_change w agent_id payload :
  is_Some (w.(w_db).(agents) !! agent_id) →
  or_raise (insert_event agent_id None "state_change" (json_to_string payload)) w =
    (Ok (w.(w_db).(event_seq) + 1),
     set_db (post_event w.(w_now) agent_id "state_change" payload w.(w_db)) w).
Proof. intros Hag. by apply map_err_ok, insert_state_change_row. Qed.

Lemma log_state_change w agent_id payload :
  db_wf w.(w_db) → is_Some (w.(w_db).(agents) !! agent_id) →
  ∃ w', or_raise (insert_event agent_id None "state_change" (json_to_string payload)) w =
          (Ok (w.(w_db).(event_seq) + 1), w') ∧ only_logs w w'.
Proof.
  intros Hwf Hag. eexists. split; [by apply insert_state_change|]. split; try done.
  - by apply wf_add_event.
  - simpl. eexists. split; [reflexivity|]. by repeat constructor.
Qed.

(** A loop whose every turn only logs. *)
Lemma for_only_logs {A} (l : list A) (f : A → M HealthStop unit) w :
  db_wf w.(w_db) →
  (∀ x w1, x ∈ l → only_logs w w1 → ∃ w2, f x w1 = (Ok tt, w2) ∧ only_logs w1 w2) →
  ∃ w', for_ l f w = (Ok tt, w') ∧ only_logs w w'.
Proof.
  intros Hwf Hf. assert (Hgen : ∀ w1, only_logs w w1 → ∃ w', for_ l f w1 = (Ok tt, w') ∧ only_logs w w').
  { induction l as [|x l IH]; intros w1 Hw1; [by exists w1|]. cbn [for_].
    destruct (Hf x w1) as (w2 & Hx & Hw2); [by left|done|].
    destruct (IH (λ y w Hy, Hf y w (list_elem_of_further _ _ _ Hy)) w2) as (w' & Hl & Hw').
    { by eapply only_logs_trans. }
    exists w'. by rw (bind_ok _ _ _ _ _ Hx). }
  apply Hgen. by apply only_logs_refl.
Qed.

Lemma query_dispatched_run w agent_id :
  or_raise (query_dispatched_job_for_agent_sync agent_id) w = (Ok (current_job agent_id w.(w_db)), w).
Proof. done. Qed.

Lemma raise_alert_run w o :
  db_wf w.(w_db) → is_Some (w.(w_db).(agents) !! o.(ho_agent_id)) →
  ∃ w', raise_stopped_alert o w = (Ok 0%nat, w') ∧ only_logs w w'.
Proof.
  intros Hwf Hag. unfold raise_stopped_alert.
  rw (bind_ok _ _ _ _ _ (query_dispatched_run w _)). cbv zeta.
  match goal with |- context [insert_event _ _ _ (json_to_string ?p)] =>
    destruct (log_state_change w o.(ho_agent_id) p Hwf Hag) as (w1 & Hrun & Hl) end.
  rw (bind_ok _ _ _ _ _ Hrun). eexists. split; [reflexivity|]. by apply only_logs_effect.
Qed.

(** An agent that is not working is not marked. *)
Lemma mark_not_working_run w o layers a :
  db_wf w.(w_db) → w.(w_db).(agents) !! o.(ho_agent_id) = Some a →
  is_working_state a.(a_state) = false → mark_health_stuck o layers w = (Ok 0%nat, w).
Proof.
  intros Hwf Ha Hs. pose proof (stuck_fails_current_job w o.(ho_agent_id) "HEALTH_CHECK_STUCK" Hwf) as Hst.
  rw Ha in Hst.
  assert (Hb : (a.(a_state) == STATE_BUSY) || (a.(a_state) == STATE_WAITING_FOR_ACK) = false).
  { unfold is_working_state in Hs. apply bool_decide_eq_false in Hs.
    apply orb_false_iff. rw !bool_decide_eq_false. set_solver. }
  rw Hb in Hst. destruct Hst as (out & Hrun & Hc).
  assert (Hm : or_raise (mark_agent_stuck o.(ho_agent_id) "HEALTH_CHECK_STUCK") w = (Ok 0%nat, w)).
  { apply map_err_ok. unfold mark_agent_stuck. rw (bind_ok _ _ _ _ _ Hrun) Hc. done. }
  unfold mark_health_stuck. by rw (bind_ok _ _ _ _ _ Hm).
Qed.

(** A fresh observation of an agent whose pane was captured. *)
Lemma escalate_captured w o secs a :
  db_wf w.(w_db) → w.(w_db).(agents) !! o.(ho_agent_id) = Some a → a.(a_state) = o.(ho_state) →
  o.(ho_pane_capture_ok) = true → is_Some (try_get_manifest o.(ho_provider)) →
  ∃ w', escalate_health_stuck o secs w = (Ok 0%nat, w') ∧ only_logs w w'.
Proof.
  intros Hwf Ha Hst Hcap [m Hm]. unfold escalate_health_stuck, health_check_observe. rw Hcap Hm.
  pose proof (only_logs_refl w Hwf) as Hrefl.
  destruct (is_working_state o.(ho_state)) eqn:Hw.
  - assert (Hsp : o.(ho_state) == STATE_SPAWNING = false).
    { apply bool_decide_eq_false. intros Heq. by rw Heq in Hw. }
    rw Hsp. cbn [mbind option_bind app andb hr_alive hr_dead_layers].
    destruct ((0 <? last_progress_ts o) && (secs <? saturating_sub (ho_now_ts o) (last_progress_ts o))).
    + cbn [app]. destruct (negb (is_active_state (ho_state o))); [by exists w|].
      cbn. destruct (completion_signal m). apply raise_alert_run; [done|]. by rw Ha.
    + by exists w.
  - cbn [andb]. rw ?app_nil_r. destruct (o.(ho_state) == STATE_SPAWNING) eqn:Hsp; cbn [mbind option_bind].
    + destruct (detect _ _); [by exists w|]. cbn.
      destruct (negb (is_active_state (ho_state o))); [by exists w|].
      exists w. split; [|done]. apply (mark_not_working_run w o _ a); [done..|]. by rw Hst.
    + by exists w.
Qed.

Section Tick.
Context (capture : string → option string) (secs : Z).

(** Every agent the tick looks at is of a known provider and has a pane. *)
Definition all_captured (db : Db) : Prop :=
  ∀ id a, db.(agents) !! id = Some a → is_active_state a.(a_state) = true →
    is_Some (try_get_manifest a.(a_provider)) ∧ is_Some (capture id).

Lemma check_agent_captured w a :
  db_wf w.(w_db) → all_captured w.(w_db) → w.(w_db).(agents) !! a.(a_id) = Some a →
  is_active_state a.(a_state) = true →
  ∃ w', check_agent capture secs a w = (Ok tt, w') ∧ only_logs w w'.
Proof.
  intros Hwf Hcap Ha Hact. destruct (Hcap _ _ Ha Hact) as [Hm Hc]. unfold check_agent.
  rw (bind_ok _ _ _ _ _ (last_progress_run w a.(a_id) Hwf)).
  rw (bind_ok _ _ _ _ _ (query_dispatched_run w _)). step_pure.
  match goal with |- context [escalate_health_stuck ?o _] =>
    destruct (escalate_captured w o secs a Hwf Ha eq_refl) as (w' & Hrun & Hl) end;
    [by apply bool_decide_eq_true|done|].
  exists w'. by rw (bind_ok _ _ _ _ _ Hrun).
Qed.

Lemma alert_starved_run w job :
  db_wf w.(w_db) → is_Some (w.(w_db).(agents) !! job.(j_agent_id)) →
  ∃ w', alert_starved job w = (Ok tt, w') ∧ only_logs w w'.
Proof.
  intros Hwf Hag. unfold alert_starved.
  erewrite bind_ok; [cbv beta|apply map_err_ok; reflexivity].
  destruct (state_change_like _ _ _ _); cbn [negb when].
  { exists w. split; [done|]. by apply only_logs_refl. }
  step_pure. cbv zeta.
  match goal with |- context [insert_event _ _ _ (json_to_string ?p)] =>
    destruct (log_state_change w job.(j_agent_id) p Hwf Hag) as (w1 & Hrun & Hl) end.
  rw (bind_ok _ _ _ _ _ Hrun). eexists. split; [reflexivity|]. by apply only_logs_effect.
Qed.

Lemma all_captured_logs w w1 : only_logs w w1 → all_captured w.(w_db) → all_captured w1.(w_db).
Proof. intros [Ha _ _ _ _]. unfold all_captured. by rw Ha. Qed.

Lemma check_state_captured w state :
  db_wf w.(w_db) → all_captured w.(w_db) → is_active_state state = true →
  ∃ w', (agents ← or_raise (query_agents_by_state_sync state);
         for_ agents (check_agent capture secs)) w = (Ok tt, w') ∧ only_logs w w'.
Proof.
  intros Hwf Hcap Hs. erewrite bind_ok; [cbv beta|apply map_err_ok; reflexivity].
  apply for_only_logs; [done|]. intros a w1 Hin Hl.
  apply order_by_elem, list_elem_of_filter in Hin as [Hst [id Hid]%elem_of_table_rows].
  apply check_agent_captured; [apply Hl|by eapply all_captured_logs| |by rw Hst].
  rw (ol_agents _ _ Hl). by rw (wf_agent_key _ Hwf _ _ Hid).
Qed.

Lemma starved_run w :
  or_raise (query_starved_queued_jobs_sync QUEUED_STARVATION_THRESHOLD_SECS) w =
    (Ok (order_by created_le (filter (λ j, j.(j_status) = "QUEUED" ∧
           j.(j_created_at) < w.(w_now) - QUEUED_STARVATION_THRESHOLD_SECS ∧
           agent_not_idle w.(w_db) j.(j_agent_id) = true) (table_rows w.(w_db).(jobs)))), w).
Proof. apply map_err_ok. unfold query_starved_queued_jobs_sync. by step_pure. Qed.

(** the health check does not end the turn of an agent whose pane is alive.
    When every agent that is starting or working is of a known provider and its
    pane can be captured, a tick, whatever the screens show and however long
    the silence, completes and changes no agent and no job: all it does is log
    state changes (alerts) after the events already there. *)
Theorem captured_agents_only_alerted w :
  db_wf w.(w_db) → all_captured w.(w_db) →
  ∃ w', health_check_watcher_tick capture secs w = (Ok tt, w') ∧ only_logs w w'.
Proof.
  intros Hwf Hcap. unfold health_check_watcher_tick.
  destruct (for_only_logs [STATE_SPAWNING; STATE_WAITING_FOR_ACK; STATE_BUSY] (λ state,
    agents ← or_raise (query_agents_by_state_sync state);
    for_ agents (check_agent capture secs)) w Hwf) as (w1 & Hrun & Hl).
  { intros state w1 Hin Hl. apply check_state_captured; [apply Hl|by eapply all_captured_logs|].
    by apply bool_decide_eq_true. }
  rw (bind_ok _ _ _ _ _ Hrun) (bind_ok _ _ _ _ _ (starved_run w1)).
  match goal with |- context [for_ ?l alert_starved] =>
    destruct (for_only_logs l alert_starved w1 (ol_wf _ _ Hl)) as (w2 & Hrun2 & Hl2) end.
  { intros job w2 Hin Hl2. apply order_by_elem, list_elem_of_filter in Hin as [_ [id Hid]%elem_of_table_rows].
    apply alert_starved_run; [apply Hl2|]. rw (ol_agents _ _ Hl2).
    by eapply wf_job_agent; [apply Hl|]. }
  exists w2. split; [exact Hrun2|]. by eapply only_logs_trans.
Qed.

End Tick.

(** An agent whose pane is gone while it works is marked: STUCK one version
    later, its current job FAILED for [HEALTH_CHECK_STUCK]. *)
Theorem lost_pane_marks_stuck w o secs a :
  db_wf w.(w_db) → w.(w_db).(agents) !! o.(ho_agent_id) = Some a → a.(a_state) = o.(ho_state) →
  is_working_state a.(a_state) = true → o.(ho_pane_capture_ok) = false →
  ∃ w', escalate_health_stuck o secs w = (Ok 1%nat, w') ∧
    w'.(w_db).(agents) =
      <[o.(ho_agent_id) := bump_version w.(w_now) (set_a_state STATE_STUCK a)]> w.(w_db).(agents) ∧
    w'.(w_db).(jobs) =
      match current_job o.(ho_agent_id) w.(w_db) with
      | Some j => <[j.(j_id) := failed_row w.(w_now) "HEALTH_CHECK_STUCK" j]> w.(w_db).(jobs)
      | None => w.(w_db).(jobs)
      end.
Proof.
  intros Hwf Ha Hst Hw Hcap.
  assert (Hact : is_active_state o.(ho_state) = true).
  { rw -Hst. unfold is_working_state, is_active_state in *. apply bool_decide_eq_true in Hw.
    apply bool_decide_eq_true. set_solver. }
  assert (Hsp : o.(ho_state) == STATE_SPAWNING = false).
  { rw -Hst. apply bool_decide_eq_false. intros Heq. by rw Heq in Hw. }
  unfold escalate_health_stuck, health_check_observe. rw Hcap Hsp Hact.
  cbn [mbind option_bind app hr_alive hr_dead_layers negb].
  match goal with |- context [mark_health_stuck o (_ :: ?l)] => generalize l; intros layers end.
  rw andb_false_r bool_decide_false //. cbn [orb].
  pose proof (stuck_fails_current_job w o.(ho_agent_id) "HEALTH_CHECK_STUCK" Hwf) as Hs. rw Ha in Hs.
  rw orb_comm in Hs. unfold is_working_state in Hw. apply bool_decide_eq_true in Hw.
  assert (Hb : (a.(a_state) == STATE_WAITING_FOR_ACK) || (a.(a_state) == STATE_BUSY) = true).
  { apply orb_true_iff. rw !bool_decide_eq_true. set_solver. }
  rw Hb in Hs. destruct Hs as (w1 & Hrun & Hag & Hjobs).
  assert (∃ w2, or_raise (mark_agent_stuck o.(ho_agent_id) "HEALTH_CHECK_STUCK") w = (Ok 1%nat, w2) ∧
                w2.(w_db) = w1.(w_db)) as (w2 & Hmark & Hdb).
  { unfold mark_agent_stuck, or_raise, map_err. rw (bind_ok _ _ _ _ _ Hrun).
    destruct (current_job _ _); eexists; by split. }
  unfold mark_health_stuck. rw (bind_ok _ _ _ _ _ Hmark).
  rw (bool_decide_false (1%nat = 0%nat)) // (bind_ok _ _ _ _ _ (query_dispatched_run w2 _)). cbv zeta.
  erewrite bind_ok; [cbv beta|apply insert_state_change; rw Hdb Hag lookup_insert_eq; eauto].
  eexists. split; [reflexivity|]. cbn [w_db add_effect set_db]. rw Hdb. by split.
Qed.

End HealthCheckProofs.
