(* ===== verification/PaneDiff.v ===== *)
(** * The pane diff ([src/src/pane_diff/mod.rs])

    A periodic tick compares the screens of the working agents with the last one
    that differed meaningfully.  A screen that stood still too long raises an
    alert, and so does one that looks finished for several ticks; neither changes
    an agent. *)
From S2P Require Import Prelude Json Schema Sql MasterTables JobGate Invariant AgentGate Text ReplyText Providers.
From S2P Require Import Jobs Completion Evidence StateMachine StateMachineProofs Events Agents HealthCheck HealthCheckProofs PromptCases.

Definition MIN_LENGTH_GROWTH : nat := 8.
Definition DEFAULT_UI_COMPLETION_STABLE_TICKS : nat := 2.

(** Instants and durations are in milliseconds. *)
Record UiMarkerMatchState : Type := MkUiMarkerMatchState {
  um_content_hash : Z;
  um_consecutive_ticks : nat;
  um_first_seen_at : Z
}.
Record AgentDiffState : Type := MkAgentDiffState {
  ds_last_meaningful_text : string;
  ds_last_meaningful_at : Z;
  ds_last_content_hash : option Z;
  ds_last_log_mtime : option Z;
  ds_thinking_start : option Z;
  ds_last_signal_kinds : list string;
  ds_ui_marker_match : option UiMarkerMatchState
}.
Definition set_ds_ui_marker_match (v : option UiMarkerMatchState) (s : AgentDiffState) : AgentDiffState :=
  MkAgentDiffState s.(ds_last_meaningful_text) s.(ds_last_meaningful_at) s.(ds_last_content_hash)
    s.(ds_last_log_mtime) s.(ds_thinking_start) s.(ds_last_signal_kinds) v.
Definition set_ds_thinking_start (v : option Z) (s : AgentDiffState) : AgentDiffState :=
  MkAgentDiffState s.(ds_last_meaningful_text) s.(ds_last_meaningful_at) s.(ds_last_content_hash)
    s.(ds_last_log_mtime) v s.(ds_last_signal_kinds) s.(ds_ui_marker_match).
Definition set_ds_last_signal_kinds (v : list string) (s : AgentDiffState) : AgentDiffState :=
  MkAgentDiffState s.(ds_last_meaningful_text) s.(ds_last_meaningful_at) s.(ds_last_content_hash)
    s.(ds_last_log_mtime) s.(ds_thinking_start) v s.(ds_ui_marker_match).

Record PaneDiffObservation : Type := MkPaneDiffObservation {
  po_agent_id : string;
  po_text : string;
  po_log_mtime : option Z;
  po_provider : option string
}.
Record StuckSignal : Type := MkStuckSignal {
  ss_signal_agent_id : string;
  ss_signal_kinds : list string;
  ss_elapsed_secs : Z
}.
Record UiCompletionRecapture : Type := MkUiCompletionRecapture {
  ur_agent_id : string;
  ur_pane_text : string
}.
(** [stuck_agent_ids] lists the agents of [stuck_signals]. *)
Record PaneDiffTickResult : Type := MkPaneDiffTickResult {
  pt_stuck_signals : list StuckSignal;
  pt_ui_completed : list UiCompletionRecapture
}.
Notation DiffStates := (gmap string AgentDiffState).

(** [AH_UI_COMPLETION_STABLE_TICKS] *)
Definition ui_completion_stable_ticks (env : option string) : nat :=
  match env ≫= parse_unsigned 64 with
  | Some n => if 0 <? n then Z.to_nat n else DEFAULT_UI_COMPLETION_STABLE_TICKS
  | None => DEFAULT_UI_COMPLETION_STABLE_TICKS
  end.

(** [Instant::duration_since] *)
Definition duration_since (now earlier : Z) : Z := Z.max 0 (now - earlier).

Section PaneDiff.
Context {EXT : Externals} {PX : PromptExternals}.

(** ** Texts *)

Definition compute_content_hash (pane_content : string) : Z := default_hash pane_content.
Definition detect_thinking_spinner (content : string) : bool :=
  regex_is_match "(?i)(thinking|spinner|working|⠋|⠙|⠹|⠸|⠼|⠴|⠦|⠧|⠇|⠏)" content.

(** A pattern bound to one end of the line matches at most once, so replacing the
    first match and replacing all are the same. *)
Definition clean_line (line : string) : option string :=
  let line := regex_replace_all "[\u{2800}-\u{28FF}]+" "" line in
  let line := regex_replace_all "^\s*[-\\|/]\s+" "" line in
  let line := trim line in
  if (line == "") || regex_is_match "(?i)^thinking\.\.\.\s*(?:\([^)]*\))?$" line then None
  else
  let line := trim (regex_replace_all
    "(?:\s+\(\d+(?:\.\d+)?[smh](?:\s+\d+(?:\.\d+)?[smh])?\)|\s+\d+:\d+:\d+|\s+\d+m\s+\d+s)$" "" line) in
  if line == "" then None else Some line.
Definition sanitize_for_diff (raw : string) : string :=
  join (byte_str 10) (omap clean_line (lines (strip_ansi_escapes raw))).

Definition is_meaningful_diff (old_text new_text : string) : bool :=
  let clean_old := sanitize_for_diff old_text in
  let clean_new := sanitize_for_diff new_text in
  if bool_decide (length (chars clean_old) + MIN_LENGTH_GROWTH ≤ length (chars clean_new))%nat then true
  else if negb (starts_with clean_new clean_old) && negb (starts_with clean_old clean_new)
  then clean_new != clean_old
  else false.

(** ** One observation *)

Definition provider_uses_ui_completion_recapture (manifest : ProviderManifest) : bool :=
  match manifest.(completion_signal) with LogOnly => true end.

Definition new_diff_state (observation : PaneDiffObservation) (now : Z) : AgentDiffState :=
  let clean_text := sanitize_for_diff observation.(po_text) in
  MkAgentDiffState clean_text now (Some (compute_content_hash clean_text)) observation.(po_log_mtime)
    (if detect_thinking_spinner observation.(po_text) then Some now else None) [] None.

(** The match of the provider's marker: how many ticks the same screen matched. *)
Definition ui_match (entry : AgentDiffState) (manifest : ProviderManifest) (text : string)
    (content_hash now : Z) : option UiMarkerMatchState :=
  if negb (provider_uses_ui_completion_recapture manifest) then None
  else if marker_scan (from_manifest manifest) (vt100_screen text) then
    let previous := match entry.(ds_ui_marker_match) with
                    | Some p => if p.(um_content_hash) =? content_hash then Some p else None
                    | None => None
                    end in
    Some (MkUiMarkerMatchState content_hash
            (match previous with Some p => S p.(um_consecutive_ticks) | None => 1%nat end)
            (match previous with Some p => p.(um_first_seen_at) | None => now end))
  else None.

(** The entry after the scan, and whether the screen counts as finished;
    [None]: [get_manifest] panics. *)
Definition scan_observation (entry : AgentDiffState) (observation : PaneDiffObservation)
    (content_hash now : Z) (stable_ticks : nat) (log_active : string → bool) :
    option (AgentDiffState * bool) :=
  match observation.(po_provider) with
  | None => Some (set_ds_ui_marker_match None entry, false)
  | Some provider =>
      manifest ← try_get_manifest provider;
      let m := ui_match entry manifest observation.(po_text) content_hash now in
      let log_only := match manifest.(completion_signal) with LogOnly => true end in
      Some (set_ds_ui_marker_match m entry,
        match m with
        | Some u => bool_decide (stable_ticks ≤ u.(um_consecutive_ticks))%nat &&
                    negb (log_only && log_active observation.(po_agent_id))
        | None => false
        end)
  end.

(** What the rest of the observation says: the new entry and the alert. *)
Definition compare_observation (entry : AgentDiffState) (observation : PaneDiffObservation)
    (now stuck_threshold : Z) : AgentDiffState * option StuckSignal :=
  let clean_text := sanitize_for_diff observation.(po_text) in
  let content_hash := compute_content_hash clean_text in
  let thinking_now := detect_thinking_spinner observation.(po_text) in
  let mtime_changed := bool_decide (is_Some observation.(po_log_mtime)) &&
    bool_decide (is_Some entry.(ds_last_log_mtime)) && (observation.(po_log_mtime) != entry.(ds_last_log_mtime)) in
  if is_meaningful_diff entry.(ds_last_meaningful_text) observation.(po_text) ||
     (entry.(ds_last_content_hash) != Some content_hash) || mtime_changed
  then
    (MkAgentDiffState clean_text now (Some content_hash) observation.(po_log_mtime)
       (if thinking_now then Some now else None) [] entry.(ds_ui_marker_match), None)
  else
  let entry := set_ds_thinking_start
    (if thinking_now then Some (default now entry.(ds_thinking_start)) else None) entry in
  let elapsed := duration_since now entry.(ds_last_meaningful_at) in
  let thinking_elapsed := from_option (duration_since now) elapsed entry.(ds_thinking_start) in
  if (stuck_threshold <=? elapsed) && (negb thinking_now || (stuck_threshold <=? thinking_elapsed)) then
    let kinds := ["hash"] ++ (if bool_decide (is_Some observation.(po_log_mtime)) then ["mtime"] else []) ++
                 (if thinking_now then ["thinking"] else []) in
    (set_ds_last_signal_kinds kinds entry,
     Some (MkStuckSignal observation.(po_agent_id) kinds (elapsed / 1000)))
  else (entry, None).

Definition process_observation (now stuck_threshold : Z) (stable_ticks : nat) (log_active : string → bool)
    (observation : PaneDiffObservation) (states : DiffStates) (result : PaneDiffTickResult) :
    option (DiffStates * PaneDiffTickResult) :=
  let agent_id := observation.(po_agent_id) in
  let content_hash := compute_content_hash (sanitize_for_diff observation.(po_text)) in
  let entry := default (new_diff_state observation now) (states !! agent_id) in
  '(entry, finished) ← scan_observation entry observation content_hash now stable_ticks log_active;
  if (finished : bool) then
    Some (<[agent_id := entry]> states,
      MkPaneDiffTickResult result.(pt_stuck_signals)
        (result.(pt_ui_completed) ++ [MkUiCompletionRecapture agent_id observation.(po_text)]))
  else
  let '(entry, signal) := compare_observation entry observation now stuck_threshold in
  Some (<[agent_id := entry]> states,
    match signal with
    | Some s => MkPaneDiffTickResult (result.(pt_stuck_signals) ++ [s]) result.(pt_ui_completed)
    | None => result
    end).

Fixpoint process_observations (now stuck_threshold : Z) (stable_ticks : nat) (log_active : string → bool)
    (observations : list PaneDiffObservation) (states : DiffStates) (result : PaneDiffTickResult) :
    option (DiffStates * PaneDiffTickResult) :=
  match observations with
  | [] => Some (states, result)
  | o :: rest =>
      '(states, result) ← process_observation now stuck_threshold stable_ticks log_active o states result;
      process_observations now stuck_threshold stable_ticks log_active rest states result
  end.

(** The agents an alert was raised for are forgotten, and those not observed. *)
Definition keep_watched (observations : list PaneDiffObservation) (result : PaneDiffTickResult)
    (states : DiffStates) : DiffStates :=
  filter (λ kv, kv.1 ∈ (po_agent_id <$> observations) ∧
                kv.1 ∉ (ss_signal_agent_id <$> result.(pt_stuck_signals)) ∧
                kv.1 ∉ (ur_agent_id <$> result.(pt_ui_completed))) states.

Definition process_pane_diff_observations (now stuck_threshold : Z) (stable_ticks : nat)
    (log_active : string → bool) (observations : list PaneDiffObservation) (states : DiffStates) :
    option (DiffStates * PaneDiffTickResult) :=
  '(states, result) ← process_observations now stuck_threshold (Nat.max stable_ticks 1) log_active
                        observations states (MkPaneDiffTickResult [] []);
  Some (keep_watched observations result states, result).

(** ** The tick *)

Definition query_ui_completion_recapture_agents : M HealthStop (list Agent) :=
  busy ← or_raise (query_agents_by_state_sync "BUSY");
  stuck ← or_raise (query_agents_by_state_sync "STUCK");
  let watched a := uses ← provider_uses_ui_completion_recapture <$> try_get_manifest a.(a_provider);
                   Some (a, uses) in
  match mapM watched stuck with
  | Some marked => mret (busy ++ omap (λ m, if (m.2 : bool) then Some m.1 else None) marked)
  | None => throw (UnknownProviderPanic (from_option a_provider "" (head (filter (λ a, watched a = None) stuck))))
  end.

(** [capture]: what capturing the agent's pane answers; [None] when it has no
    pane or tmux fails. *)
Definition observe_agent (capture : string → option string) (a : Agent) : option PaneDiffObservation :=
  (λ text, MkPaneDiffObservation a.(a_id) text None (Some a.(a_provider))) <$> capture a.(a_id).

(** The alert both escalations log and publish; [seen] is what is particular to each. *)
Definition pane_diff_alert (agent_id reason : string) (seen : list (string * Value)) : M CcbdError unit :=
  state ← try_ (query_agent_state_sync agent_id);
  let agent_state := match state with Ok (Some (state, _)) => state | _ => "BUSY" end in
  job ← try_ (query_dispatched_job_for_agent_sync agent_id);
  let job_id := match job with Ok job => j_id <$> job | Err _ => None end in
  insert_event agent_id None "state_change" (json_to_string (json_object
    ([("from", JString agent_state); ("to", JString agent_state); ("reason", JString reason);
      ("job_id", json_opt JString job_id)] ++ seen)));;
  notify_event (MkEventFrame 0 "alert" agent_id job_id (Some agent_state)
    (Some (json_object (("job_id", json_opt JString job_id) :: seen)))).
Definition escalate_pane_diff_stuck (signal : StuckSignal) : M CcbdError unit :=
  pane_diff_alert signal.(ss_signal_agent_id) "PANE_DIFF_STUCK_ALERT"
    [("signal_kinds", JArray (JString <$> signal.(ss_signal_kinds)));
     ("elapsed_secs", JNumber signal.(ss_elapsed_secs))].
Definition escalate_pane_diff_ui_recapture (recapture : UiCompletionRecapture) : M CcbdError unit :=
  pane_diff_alert recapture.(ur_agent_id) "UI_RECAPTURE_ALERT" [("pane_text", JString recapture.(ur_pane_text))].

(** [instant] is the monotonic clock at the tick; a failed alert is only traced. *)
Definition pane_diff_watcher_tick (capture : string → option string) (instant stuck_threshold : Z)
    (stable_ticks : nat) (log_active : string → bool) (states : DiffStates) : M HealthStop DiffStates :=
  busy_agents ← query_ui_completion_recapture_agents;
  let observations := omap (observe_agent capture) busy_agents in
  match process_pane_diff_observations instant stuck_threshold stable_ticks log_active observations states with
  | None => throw (UnknownProviderPanic
      (default "" (o ← head (filter (λ o, (o.(po_provider) ≫= try_get_manifest) = None) observations); o.(po_provider))))
  | Some (states, result) =>
      for_ result.(pt_ui_completed) (λ r, try_ (escalate_pane_diff_ui_recapture r);; mret tt);;
      for_ result.(pt_stuck_signals) (λ s, try_ (escalate_pane_diff_stuck s);; mret tt);;
      mret states
  end.

(** ** One observation, by its outcome *)

Definition scan_of (now : Z) (stable_ticks : nat) (log_active : string → bool) (o : PaneDiffObservation)
    (previous : option AgentDiffState) : option (AgentDiffState * bool) :=
  scan_observation (default (new_diff_state o now) previous) o
    (compute_content_hash (sanitize_for_diff o.(po_text))) now stable_ticks log_active.

(** The entry an observation leaves and the alerts it adds. *)
Definition outcome_of (now stuck_threshold : Z) (stable_ticks : nat) (log_active : string → bool)
    (o : PaneDiffObservation) (previous : option AgentDiffState) :
    option (AgentDiffState * list StuckSignal * list UiCompletionRecapture) :=
  '(entry, finished) ← scan_of now stable_ticks log_active o previous;
  if (finished : bool) then Some (entry, [], [MkUiCompletionRecapture o.(po_agent_id) o.(po_text)])
  else let '(entry, signal) := compare_observation entry o now stuck_threshold in
       Some (entry, option_list signal, []).

Lemma process_outcome now thr ticks active o states result :
  process_observation now thr ticks active o states result =
  ('(entry, stuck, ui) ← outcome_of now thr ticks active o (states !! o.(po_agent_id));
   Some (<[o.(po_agent_id) := entry]> states,
         MkPaneDiffTickResult (result.(pt_stuck_signals) ++ stuck) (result.(pt_ui_completed) ++ ui))).
Proof.
  unfold process_observation, outcome_of, scan_of. cbv zeta.
  destruct (scan_observation _ _ _ _ _ _) as [[entry []]|]; cbn; [by rw app_nil_r| |done].
  destruct (compare_observation _ _ _ _) as [entry' [s|]]; cbn; rw ?app_nil_r; by destruct result.
Qed.

Definition ids_of (observations : list PaneDiffObservation) : list string := po_agent_id <$> observations.

(** What a tick's observations leave, agent by agent. *)
Lemma process_observations_spec now thr ticks active obs states result states' result' :
  process_observations now thr ticks active obs states result = Some (states', result') →
  NoDup (ids_of obs) →
  (∀ a, a ∉ ids_of obs → states' !! a = states !! a) ∧
  (∃ outs, Forall2 (λ o out, outcome_of now thr ticks active o (states !! o.(po_agent_id)) = Some out ∧
                             states' !! o.(po_agent_id) = Some out.1.1) obs outs ∧
     result' = MkPaneDiffTickResult (result.(pt_stuck_signals) ++ (outs ≫= λ out, out.1.2))
                 (result.(pt_ui_completed) ++ (outs ≫= λ out, out.2))).
Proof.
  revert states result. induction obs as [|o obs IH]; intros states result Hrun Hnd; cbn in Hrun.
  - simplify_eq. split; [done|]. exists []. split; [by constructor|]. cbn. rw !app_nil_r. by destruct result'.
  - rw process_outcome in Hrun.
    destruct (outcome_of _ _ _ _ o _) as [[[entry stuck] ui]|] eqn:Ho; [|done]. cbn in Hrun.
    apply NoDup_cons in Hnd as [Hfresh Hnd].
    destruct (IH _ _ Hrun Hnd) as (Hkeep & outs & Houts & Hres). split.
    + intros a Ha. rw Hkeep; [set_solver|]. apply lookup_insert_ne. set_solver.
    + exists ((entry, stuck, ui) :: outs). split.
      * constructor; [split; [done|]; rw Hkeep //; by rw lookup_insert_eq|].
        apply Forall2_same_length_lookup_2; [by eapply Forall2_length|].
        intros i x out Hx Hout. destruct (Forall2_lookup_lr _ _ _ _ _ _ Houts Hx Hout) as [Hx1 Hx2].
        split; [|done]. rw lookup_insert_ne // in Hx1. intros Heq. apply Hfresh. rw Heq.
        apply list_elem_of_fmap. exists x. split; [done|]. by eapply list_elem_of_lookup_2.
      * rw Hres. cbn. by rw !app_assoc.
Qed.

Lemma outcome_at now thr ticks active obs states states' result' o :
  process_observations now thr ticks active obs states (MkPaneDiffTickResult [] []) = Some (states', result') →
  NoDup (ids_of obs) → o ∈ obs →
  ∃ entry stuck ui, outcome_of now thr ticks active o (states !! o.(po_agent_id)) = Some (entry, stuck, ui) ∧
    states' !! o.(po_agent_id) = Some entry ∧
    (∀ s, s ∈ stuck → s ∈ result'.(pt_stuck_signals)) ∧ (∀ r, r ∈ ui → r ∈ result'.(pt_ui_completed)).
Proof.
  intros Hrun Hnd Ho. destruct (process_observations_spec _ _ _ _ _ _ _ _ _ Hrun Hnd) as (_ & outs & Houts & ->).
  apply list_elem_of_lookup in Ho as [i Hi].
  destruct (Forall2_lookup_l _ _ _ _ _ Houts Hi) as ([[entry stuck] ui] & Hout & Hx & Hs).
  exists entry, stuck, ui. split_and!; [done|done|..]; intros x Hin; cbn; apply list_elem_of_bind;
    exists (entry, stuck, ui); (split; [done|by eapply list_elem_of_lookup_2]).
Qed.

Lemma signal_from now thr ticks active obs states states' result' s :
  process_observations now thr ticks active obs states (MkPaneDiffTickResult [] []) = Some (states', result') →
  NoDup (ids_of obs) → s ∈ result'.(pt_stuck_signals) →
  ∃ o entry stuck ui, o ∈ obs ∧
    outcome_of now thr ticks active o (states !! o.(po_agent_id)) = Some (entry, stuck, ui) ∧ s ∈ stuck.
Proof.
  intros Hrun Hnd Hs. destruct (process_observations_spec _ _ _ _ _ _ _ _ _ Hrun Hnd) as (_ & outs & Houts & ->).
  cbn in Hs. apply list_elem_of_bind in Hs as ([[entry stuck] ui] & Hs & Hout).
  apply list_elem_of_lookup in Hout as [i Hi].
  destruct (Forall2_lookup_r _ _ _ _ _ Houts Hi) as (o & Ho & Hx & _).
  exists o, entry, stuck, ui. split; [by eapply list_elem_of_lookup_2|done].
Qed.

(** ** Still screens *)

Definition hash_of (o : PaneDiffObservation) : Z := default_hash (sanitize_for_diff o.(po_text)).
Lemma hash_of_computed o : compute_content_hash (sanitize_for_diff o.(po_text)) = hash_of o.
Proof. reflexivity. Qed.

(** The scan leaves the time and the hash of the last change alone. *)
Lemma scan_keeps now ticks active o previous entry finished :
  scan_of now ticks active o previous = Some (entry, finished) →
  entry.(ds_last_meaningful_at) = (default (new_diff_state o now) previous).(ds_last_meaningful_at) ∧
  entry.(ds_last_content_hash) = (default (new_diff_state o now) previous).(ds_last_content_hash).
Proof.
  unfold scan_of, scan_observation. destruct (po_provider o) as [p|]; [|by intros [= <- _]].
  destruct (try_get_manifest p); [|done]. cbn. by intros [= <- _].
Qed.

(** An observation either moves the last change to now or found the hash it had. *)
Lemma compare_cases entry o now thr entry' signal :
  compare_observation entry o now thr = (entry', signal) →
  (entry'.(ds_last_meaningful_at) = now ∧ entry'.(ds_last_content_hash) = Some (hash_of o) ∧ signal = None) ∨
  (entry.(ds_last_content_hash) = Some (hash_of o) ∧
   entry'.(ds_last_meaningful_at) = entry.(ds_last_meaningful_at) ∧
   entry'.(ds_last_content_hash) = entry.(ds_last_content_hash) ∧
   ∀ s, signal = Some s → s.(ss_signal_agent_id) = o.(po_agent_id) ∧
     thr ≤ duration_since now entry.(ds_last_meaningful_at) ∧
     s.(ss_elapsed_secs) = duration_since now entry.(ds_last_meaningful_at) / 1000).
Proof.
  unfold compare_observation. cbv zeta. rw hash_of_computed.
  destruct (bool_decide (ds_last_content_hash entry = Some (hash_of o))) eqn:Hh.
  - apply bool_decide_eq_true in Hh. cbn [negb]. rw orb_false_r.
    destruct (_ || _); [intros [= <- <-]; by left|]. intros Hcmp. right. split; [done|].
    destruct ((thr <=? _) && _) eqn:Ht; revert Hcmp; [|intros [= <- <-]; by split_and!].
    intros [= <- <-]. split_and!; [done..|]. intros s [= <-].
    apply andb_true_iff in Ht as [Ht _]. apply Z.leb_le in Ht. by split_and!.
  - cbn [negb]. rw orb_true_r. cbn [orb]. intros [= <- <-]. by left.
Qed.

(** One turn of the watcher, with what it observed. *)
Record PaneTick : Type := MkPaneTick {
  pk_now : Z;
  pk_log_active : string → bool;
  pk_observations : list PaneDiffObservation
}.
Fixpoint watch_ticks (stuck_threshold : Z) (stable_ticks : nat) (ticks : list PaneTick)
    (states : DiffStates) : option DiffStates :=
  match ticks with
  | [] => Some states
  | t :: rest =>
      '(states, _) ← process_pane_diff_observations t.(pk_now) stuck_threshold stable_ticks
                       t.(pk_log_active) t.(pk_observations) states;
      watch_ticks stuck_threshold stable_ticks rest states
  end.

(** The agent was observed, with this hash. *)
Definition seen_with (agent_id : string) (h : Z) (t : PaneTick) : Prop :=
  ∃ o, o ∈ t.(pk_observations) ∧ o.(po_agent_id) = agent_id ∧ hash_of o = h.

(** Since the last change of the entry the agent was seen at every tick, always
    with the entry's hash. *)
Definition still_since (ticks : list PaneTick) (agent_id : string) (entry : AgentDiffState) : Prop :=
  ∃ before first after h, ticks = before ++ first :: after ∧
    Forall (seen_with agent_id h) (first :: after) ∧
    entry.(ds_last_content_hash) = Some h ∧ entry.(ds_last_meaningful_at) = first.(pk_now).

(** Seen once more, with the same hash or as a change. *)
Lemma still_next ticks t o entry :
  o ∈ t.(pk_observations) → still_since ticks o.(po_agent_id) entry →
  entry.(ds_last_content_hash) = Some (hash_of o) → still_since (ticks ++ [t]) o.(po_agent_id) entry.
Proof.
  intros Ho (before & first & after & h & -> & Hseen & Hh & Hat) Heq.
  assert (h = hash_of o) as -> by congruence. exists before, first, (after ++ [t]), (hash_of o).
  split; [by rw -app_assoc|]. split_and!; [|done..]. rw app_comm_cons. apply Forall_app. split; [done|].
  constructor; [|done]. by exists o.
Qed.
Lemma still_now ticks t o entry :
  o ∈ t.(pk_observations) → entry.(ds_last_meaningful_at) = t.(pk_now) →
  entry.(ds_last_content_hash) = Some (hash_of o) → still_since (ticks ++ [t]) o.(po_agent_id) entry.
Proof.
  intros Ho Hat Hh. exists ticks, t, [], (hash_of o). split_and!; try done. constructor; [|done]. by exists o.
Qed.

(** What an observation says of an entry that was still before it. *)
Lemma outcome_still ticks t thr n o previous entry stuck :
  o ∈ t.(pk_observations) →
  (∀ e, previous = Some e → still_since ticks o.(po_agent_id) e) →
  outcome_of t.(pk_now) thr n t.(pk_log_active) o previous = Some (entry, stuck, []) →
  still_since (ticks ++ [t]) o.(po_agent_id) entry ∧
  ∀ s, s ∈ stuck → s.(ss_signal_agent_id) = o.(po_agent_id) ∧
    thr ≤ duration_since t.(pk_now) entry.(ds_last_meaningful_at) ∧
    s.(ss_elapsed_secs) = duration_since t.(pk_now) entry.(ds_last_meaningful_at) / 1000.
Proof.
  intros Ho Hprev Hrun. unfold outcome_of in Hrun.
  destruct (scan_of _ _ _ o previous) as [[scanned []]|] eqn:Hscan; [done| |done].
  destruct (scan_keeps _ _ _ _ _ _ _ Hscan) as [Hat Hh]. cbn in Hrun.
  destruct (compare_observation scanned o _ thr) as [e signal] eqn:Hcmp. simplify_eq/=.
  destruct (compare_cases _ _ _ _ _ _ Hcmp) as [(Hnow & Hnh & ->) | (Hold & Hat' & Hh' & Hsig)].
  { split; [by apply still_now|]. intros s Hs. by apply not_elem_of_nil in Hs. }
  split.
  - destruct previous as [p|]; cbn in Hat, Hh; [|apply still_now; [done|by rw Hat' Hat|by rw Hh']].
    destruct (Hprev p eq_refl) as (b & f & a & h & -> & Hseen & Hph & Hpat).
    apply still_next; [done| |by rw Hh'].
    exists b, f, a, h. by rw Hh' Hh Hat' Hat.
  - intros s Hs. rw Hat'. apply Hsig. destruct signal; [|by apply not_elem_of_nil in Hs].
    by apply list_elem_of_singleton in Hs as ->.
Qed.

(** An observation that completes the screen raises no alert of the other kind. *)
Lemma outcome_ui now thr n active o previous entry stuck ui :
  outcome_of now thr n active o previous = Some (entry, stuck, ui) →
  ui = [] ∨ stuck = [] ∧ ui = [MkUiCompletionRecapture o.(po_agent_id) o.(po_text)].
Proof.
  unfold outcome_of. destruct (scan_of _ _ _ _ _) as [[e []]|]; [|cbn|done]; [by intros [= <- <- <-]; right|].
  destruct (compare_observation _ _ _ _). intros [= <- <- <-]. by left.
Qed.

Definition all_still (ticks : list PaneTick) (states : DiffStates) : Prop :=
  ∀ a e, states !! a = Some e → still_since ticks a e.

Lemma all_still_tick thr n ticks t states states' result :
  NoDup (ids_of t.(pk_observations)) → all_still ticks states →
  process_pane_diff_observations t.(pk_now) thr n t.(pk_log_active) t.(pk_observations) states =
    Some (states', result) →
  all_still (ticks ++ [t]) states'.
Proof.
  intros Hnd Hst Hrun a e He. unfold process_pane_diff_observations in Hrun.
  destruct (process_observations _ _ _ _ _ _ _) as [[mid res]|] eqn:Hmid; [|done]. simplify_eq/=.
  apply map_lookup_filter_Some in He as (He & Hin & _ & Hui). cbn in Hin, Hui.
  apply list_elem_of_fmap in Hin as (o & -> & Ho).
  destruct (outcome_at _ _ _ _ _ _ _ _ o Hmid Hnd Ho) as (entry & stuck & ui & Hout & Hm & _ & Hu).
  simplify_eq. destruct (outcome_ui _ _ _ _ _ _ _ _ _ Hout) as [-> | [-> ->]].
  - by destruct (outcome_still ticks t thr _ o _ _ _ Ho (λ e, Hst _ e) Hout).
  - exfalso. apply Hui, list_elem_of_fmap. eexists. split; [|by apply Hu, list_elem_of_singleton]. done.
Qed.

Lemma all_still_ticks thr n ticks before states states' :
  Forall (λ t, NoDup (ids_of t.(pk_observations))) ticks → all_still before states →
  watch_ticks thr n ticks states = Some states' → all_still (before ++ ticks) states'.
Proof.
  revert before states. induction ticks as [|t ticks IH]; intros before states Hnd Hst Hrun; cbn in Hrun.
  - simplify_eq. by rw app_nil_r.
  - destruct (process_pane_diff_observations _ _ _ _ _ _) as [[mid res]|] eqn:Ht; [|done]. cbn in Hrun.
    apply Forall_cons in Hnd as [Hnd Hrest]. rw (cons_middle t before ticks) app_assoc.
    eapply IH; [done| |done]. by eapply all_still_tick.
Qed.

(** Two texts the hash does not tell apart. *)
Definition hash_collision (x y : string) : Prop := x ≠ y ∧ default_hash x = default_hash y.
(** The agent was observed, and its cleaned screen was this text, or has its hash. *)
Definition seen_as (agent_id text : string) (t : PaneTick) : Prop :=
  ∃ o, o ∈ t.(pk_observations) ∧ o.(po_agent_id) = agent_id ∧
    (sanitize_for_diff o.(po_text) = text ∨ hash_collision (sanitize_for_diff o.(po_text)) text).
Lemma seen_with_as agent_id text t : seen_with agent_id (default_hash text) t → seen_as agent_id text t.
Proof.
  intros (o & Ho & Hid & Hh). exists o. split_and!; [done..|].
  destruct (decide (sanitize_for_diff o.(po_text) = text)) as [->|Hne]; [by left|by right].
Qed.

(** C33: an alert that a screen stands still is true.  However many turns the
    watcher took, starting from nothing, when it reports an agent there was an
    earlier turn, at least the threshold ago, such that the agent was seen at
    that turn and at every later one, always with the same text once the
    spinners, times and colours are taken away (two texts count as the same if
    their 64-bit hashes collide), and the time in the report is the time since
    that turn. *)
Theorem stuck_means_still (stuck_threshold : Z) (stable_ticks : nat) (ticks : list PaneTick)
    (t : PaneTick) (states states' : DiffStates) (result : PaneDiffTickResult) (s : StuckSignal) :
  0 < stuck_threshold →
  Forall (λ t, NoDup (po_agent_id <$> t.(pk_observations))) (ticks ++ [t]) →
  watch_ticks stuck_threshold stable_ticks ticks ∅ = Some states →
  process_pane_diff_observations t.(pk_now) stuck_threshold stable_ticks t.(pk_log_active)
    t.(pk_observations) states = Some (states', result) →
  s ∈ result.(pt_stuck_signals) →
  ∃ before first after text, ticks = before ++ first :: after ∧
    Forall (seen_as s.(ss_signal_agent_id) text) (first :: after ++ [t]) ∧
    stuck_threshold ≤ t.(pk_now) - first.(pk_now) ∧
    s.(ss_elapsed_secs) = (t.(pk_now) - first.(pk_now)) / 1000.
Proof.
  intros Hthr Hnd Hruns Hrun Hs. apply Forall_app in Hnd as [Hnd Hndt]. apply Forall_cons in Hndt as [Hndt _].
  assert (Hst : all_still ticks states).
  { eapply (all_still_ticks _ _ ticks []); [done| |done]. by intros a e He. }
  unfold process_pane_diff_observations in Hrun.
  destruct (process_observations _ _ _ _ _ _ _) as [[mid res]|] eqn:Hmid; [|done]. simplify_eq/=.
  destruct (signal_from _ _ _ _ _ _ _ _ s Hmid Hndt Hs) as (o & entry & stuck & ui & Ho & Hout & Hin).
  destruct (outcome_ui _ _ _ _ _ _ _ _ _ Hout) as [-> | [-> ->]]; [|by apply not_elem_of_nil in Hin].
  destruct (outcome_still ticks t _ _ o _ _ _ Ho (λ e, Hst _ e) Hout) as [Hstill Hsig].
  destruct (Hsig s Hin) as (Hid & Hge & Hel). rw Hid.
  destruct Hstill as (before & first & after & h & Heq & Hseen & _ & Hat). rw Hat in Hge Hel.
  unfold duration_since in Hge, Hel.
  destruct after as [|x after _] using rev_ind.
  { apply app_inj_tail in Heq as [_ <-]. lia. }
  rw app_comm_cons app_assoc in Heq. apply app_inj_tail in Heq as [-> <-].
  assert (∃ text, h = default_hash text) as [text ->].
  { apply Forall_cons in Hseen as [(o' & _ & _ & <-) _]. by eexists. }
  exists before, first, after, text. rw Hel. split_and!; [done| |lia|f_equal; lia].
  eapply Forall_impl; [exact Hseen|apply seen_with_as].
Qed.

(** ** The tick only alerts *)

Lemma alert_logs w agent_id reason seen :
  db_wf w.(w_db) → is_Some (w.(w_db).(agents) !! agent_id) →
  ∃ w', pane_diff_alert agent_id reason seen w = (Ok tt, w') ∧ only_logs w w' ∧
    length w'.(w_db).(events) = S (length w.(w_db).(events)).
Proof.
  intros Hwf Hag. unfold pane_diff_alert. cbv zeta.
  rw (bind_ok _ _ w (Ok ((λ a, (a.(a_state), a.(a_state_version))) <$> w.(w_db).(agents) !! agent_id)) w) //.
  rw (bind_ok _ _ w (Ok (current_job agent_id w.(w_db))) w) //. cbv beta.
  match goal with |- context [insert_event _ _ _ (json_to_string ?p)] =>
    pose proof (insert_state_change_row w agent_id p Hag) as Hrun;
    destruct (log_state_change w agent_id p Hwf Hag) as (w1 & Hrun1 & Hl);
    rw (insert_state_change w agent_id p Hag) in Hrun1 end.
  simplify_eq. rw (bind_ok _ _ _ _ _ Hrun).
  eexists. split; [reflexivity|]. split; [by apply only_logs_effect|]. cbn. rw length_app. cbn. lia.
Qed.

(** A loop of alerts for agents that exist. *)
Lemma alerts_log {A} (l : list A) (agent_of : A → string) (alert : A → M CcbdError unit) w :
  db_wf w.(w_db) → (∀ x, x ∈ l → is_Some (w.(w_db).(agents) !! agent_of x)) →
  (∀ x w1, db_wf w1.(w_db) → is_Some (w1.(w_db).(agents) !! agent_of x) →
     ∃ w2, alert x w1 = (Ok tt, w2) ∧ only_logs w1 w2 ∧
       length w2.(w_db).(events) = S (length w1.(w_db).(events))) →
  ∃ w', (for_ l (λ x, try_ (alert x);; mret tt) : M HealthStop unit) w = (Ok tt, w') ∧ only_logs w w' ∧
    length w'.(w_db).(events) = (length w.(w_db).(events) + length l)%nat.
Proof.
  intros Hwf Hex Halert. revert w Hwf Hex. induction l as [|x l IH]; intros w Hwf Hex; cbn [for_].
  - exists w. split; [done|]. split; [by apply only_logs_refl|]. cbn. lia.
  - destruct (Halert x w Hwf) as (w1 & Hrun & Hl & Hlen); [apply Hex; by left|].
    destruct (IH w1) as (w2 & Hrun2 & Hl2 & Hlen2); [apply Hl|..].
    { intros y Hy. rw (ol_agents _ _ Hl). apply Hex. by right. }
    exists w2. split; [|split; [by eapply only_logs_trans|cbn; lia]].
    assert (Hx : (try_ (alert x);; mret tt : M HealthStop unit) w = (Ok tt, w1)).
    { by rw (bind_ok _ _ w (Ok tt) w1) // /try_ Hrun. }
    by rw (bind_ok _ _ _ _ _ Hx).
Qed.

Definition observable (o : PaneDiffObservation) : Prop :=
  ∀ p, o.(po_provider) = Some p → is_Some (try_get_manifest p).

(** Known providers: the observations are processed, and whoever is reported was
    observed. *)
Lemma outcome_total now thr n active o previous :
  observable o → ∃ entry stuck ui, outcome_of now thr n active o previous = Some (entry, stuck, ui) ∧
    Forall (λ s, s.(ss_signal_agent_id) = o.(po_agent_id)) stuck ∧
    Forall (λ r, r.(ur_agent_id) = o.(po_agent_id)) ui.
Proof.
  intros Hobs.
  assert (∃ entry finished, scan_of now n active o previous = Some (entry, finished)) as (entry & finished & Hscan).
  { unfold scan_of, scan_observation. destruct (po_provider o) as [p|] eqn:Hp; [|eauto].
    destruct (Hobs p Hp) as [m ->]. cbn. eauto. }
  unfold outcome_of. rw Hscan. cbn. destruct finished; cbn.
  { eexists _, _, _. split; [done|]. by repeat constructor. }
  destruct (compare_observation _ _ _ _) as [entry' signal] eqn:Hcmp. eexists _, _, _. split; [done|].
  split; [|done]. destruct signal as [s|]; [|done]. constructor; [|done].
  destruct (compare_cases _ _ _ _ _ _ Hcmp) as [(_ & _ & [=]) | (_ & _ & _ & Hs')]. by apply Hs'.
Qed.

Lemma process_total now thr n active obs states result :
  Forall observable obs →
  ∃ states' result', process_observations now thr n active obs states result = Some (states', result') ∧
    (∀ s, s ∈ result'.(pt_stuck_signals) → s ∈ result.(pt_stuck_signals) ∨ s.(ss_signal_agent_id) ∈ ids_of obs) ∧
    (∀ r, r ∈ result'.(pt_ui_completed) → r ∈ result.(pt_ui_completed) ∨ r.(ur_agent_id) ∈ ids_of obs).
Proof.
  intros Hobs. revert states result. induction Hobs as [|o obs Ho _ IH]; intros states result; cbn.
  { eexists _, _. split; [done|]. split; auto. }
  destruct (outcome_total now thr n active o (states !! o.(po_agent_id)) Ho) as (entry & stuck & ui & Hout & Hs & Hu).
  rw process_outcome Hout. cbn.
  match goal with |- context [process_observations _ _ _ _ _ ?st ?r] =>
    destruct (IH st r) as (states' & result' & Hrun & Hs' & Hu') end.
  eexists _, _. split; [done|]. rw Forall_forall in Hs. rw Forall_forall in Hu. split; intros x Hx.
  - destruct (Hs' x Hx) as [Hin|Hin]; [|right; by right]. apply elem_of_app in Hin as [Hin|Hin]; [by left|].
    right. rw (Hs x Hin). by left.
  - destruct (Hu' x Hx) as [Hin|Hin]; [|right; by right]. apply elem_of_app in Hin as [Hin|Hin]; [by left|].
    right. rw (Hu x Hin). by left.
Qed.

Lemma mapM_total {A B} (f : A → option B) l : (∀ x, x ∈ l → is_Some (f x)) → is_Some (mapM f l).
Proof. intros Hf. apply mapM_is_Some, Forall_forall. done. Qed.

(** The agents the tick looks at are agents, and their providers are known. *)
Definition watchable (w : World) : Prop := ∀ id a, w.(w_db).(agents) !! id = Some a →
  a.(a_state) = "BUSY" ∨ a.(a_state) = "STUCK" → is_Some (try_get_manifest a.(a_provider)).

Lemma by_state_spec w state a :
  a ∈ order_by updated_le (filter (λ a, a.(a_state) = state) (table_rows w.(w_db).(agents))) →
  a.(a_state) = state ∧ ∃ id, w.(w_db).(agents) !! id = Some a.
Proof.
  intros Ha. rw order_by_elem in Ha. apply list_elem_of_filter in Ha as [Hs Ha]. split; [done|].
  by apply elem_of_table_rows in Ha.
Qed.

Lemma watched_agents_run w :
  watchable w →
  ∃ l, query_ui_completion_recapture_agents w = (Ok l, w) ∧
    ∀ a, a ∈ l → (a.(a_state) = "BUSY" ∨ a.(a_state) = "STUCK") ∧ ∃ id, w.(w_db).(agents) !! id = Some a.
Proof.
  intros Hw. unfold query_ui_completion_recapture_agents, or_raise, map_err, query_agents_by_state_sync.
  cbv zeta. set (busy := order_by updated_le (filter (λ a, a.(a_state) = "BUSY") (table_rows w.(w_db).(agents)))).
  set (stuck := order_by updated_le (filter (λ a, a.(a_state) = "STUCK") (table_rows w.(w_db).(agents)))).
  rw (bind_ok _ _ w busy w) // (bind_ok _ _ w stuck w) //.
  match goal with |- context [mapM ?f stuck] => destruct (mapM_total f stuck) as [marked Hm]; [|rw Hm] end.
  { intros a Ha. destruct (by_state_spec _ _ _ Ha) as (Hs & id & Hid).
    destruct (Hw id a Hid) as [m Hp]; [by right|]. rw Hp. cbn. eauto. }
  eexists. split; [reflexivity|]. intros a Ha. apply elem_of_app in Ha as [Ha|Ha].
  { destruct (by_state_spec _ _ _ Ha) as [? ?]. auto. }
  apply list_elem_of_omap in Ha as ([x uses] & Hx & Hax). apply mapM_Some_1 in Hm.
  apply list_elem_of_lookup in Hx as [i Hi].
  destruct (Forall2_lookup_r _ _ _ _ _ Hm Hi) as (y & Hy & Hyx). cbn in Hyx, Hax.
  destruct (try_get_manifest _); [|done]. cbn in Hyx. destruct uses; [|done]. simplify_eq.
  destruct (by_state_spec w "STUCK" a) as [? ?]; [by eapply list_elem_of_lookup_2|]. auto.
Qed.

(** C39: the pane diff never takes a decision.  When the providers of the working
    and the stuck agents are known, a turn of the watcher runs to its end; it
    leaves every agent and every job as it was, and the event log gains exactly
    one state change for each alert, whichever screens were captured, however
    long they stood still and however finished they look. *)
Theorem pane_diff_only_alerts (capture : string → option string) (instant stuck_threshold : Z)
    (stable_ticks : nat) (log_active : string → bool) (states : DiffStates) (w : World) :
  db_wf w.(w_db) → watchable w →
  ∃ states' w' agents_seen result,
    pane_diff_watcher_tick capture instant stuck_threshold stable_ticks log_active states w = (Ok states', w') ∧
    query_ui_completion_recapture_agents w = (Ok agents_seen, w) ∧
    process_pane_diff_observations instant stuck_threshold stable_ticks log_active
      (omap (observe_agent capture) agents_seen) states = Some (states', result) ∧
    only_logs w w' ∧
    length w'.(w_db).(events) = (length w.(w_db).(events) +
      length result.(pt_stuck_signals) + length result.(pt_ui_completed))%nat.
Proof.
  intros Hwf Hw. destruct (watched_agents_run w Hw) as (l & Hl & Hin).
  set (obs := omap (observe_agent capture) l).
  assert (Hobs : ∀ o, o ∈ obs → is_Some (w.(w_db).(agents) !! o.(po_agent_id)) ∧ observable o).
  { intros o Ho. apply list_elem_of_omap in Ho as (a & Ha & Hao). unfold observe_agent in Hao.
    destruct (Hin a Ha) as (Hs & id & Hid). destruct (capture _); [|done]. simplify_eq/=. split.
    - exists a. by rw (wf_agent_key _ Hwf _ _ Hid).
    - intros p [= <-]. by apply (Hw id). }
  destruct (process_total instant stuck_threshold (Nat.max stable_ticks 1) log_active obs states
    (MkPaneDiffTickResult [] [])) as (mid & result & Hrun & Hs & Hu).
  { apply Forall_forall. intros o Ho. by apply Hobs. }
  assert (Hproc : process_pane_diff_observations instant stuck_threshold stable_ticks log_active obs states =
    Some (keep_watched obs result mid, result)).
  { unfold process_pane_diff_observations. by rw Hrun. }
  assert (Hids : ∀ id, id ∈ ids_of obs → is_Some (w.(w_db).(agents) !! id)).
  { intros id Hid. apply list_elem_of_fmap in Hid as (o & -> & Ho). by apply Hobs. }
  destruct (alerts_log result.(pt_ui_completed) ur_agent_id escalate_pane_diff_ui_recapture w Hwf)
    as (w1 & Hrun1 & Hl1 & Hlen1).
  { intros r Hr. apply Hids. destruct (Hu r Hr) as [Hn|Hn]; [by apply not_elem_of_nil in Hn|done]. }
  { intros r w1. by apply alert_logs. }
  destruct (alerts_log result.(pt_stuck_signals) ss_signal_agent_id escalate_pane_diff_stuck w1
    (ol_wf _ _ Hl1)) as (w2 & Hrun2 & Hl2 & Hlen2).
  { intros r Hr. rw (ol_agents _ _ Hl1). apply Hids. destruct (Hs r Hr) as [Hn|Hn]; [by apply not_elem_of_nil in Hn|done]. }
  { intros r w2'. by apply alert_logs. }
  exists (keep_watched obs result mid), w2, l, result. split_and!; [|done|done|by eapply only_logs_trans|lia].
  unfold pane_diff_watcher_tick. rw (bind_ok _ _ _ _ _ Hl). cbv zeta. fold obs. rw Hproc.
  by rw (bind_ok _ _ _ _ _ Hrun1) (bind_ok _ _ _ _ _ Hrun2).
Qed.

(** ** When a still screen is noticed *)

(** The kept text was sanitized when it was kept and is sanitized again when it
    is compared: a text is settled when that makes no difference. *)
Definition settled_text (text : string) : Prop := is_meaningful_diff (sanitize_for_diff text) text = false.

(** A settled text without a spinner that stood for the threshold is reported. *)
Lemma still_screen_reported now thr n active obs states o entry :
  Forall observable obs → NoDup (ids_of obs) → o ∈ obs → states !! o.(po_agent_id) = Some entry →
  entry.(ds_last_meaningful_text) = sanitize_for_diff o.(po_text) →
  entry.(ds_last_content_hash) = Some (hash_of o) → o.(po_log_mtime) = None →
  settled_text o.(po_text) → detect_thinking_spinner o.(po_text) = false →
  thr ≤ duration_since now entry.(ds_last_meaningful_at) →
  ∃ states' result, process_pane_diff_observations now thr n active obs states = Some (states', result) ∧
    (o.(po_agent_id) ∈ (ss_signal_agent_id <$> result.(pt_stuck_signals)) ∨
     o.(po_agent_id) ∈ (ur_agent_id <$> result.(pt_ui_completed))).
Proof.
  intros Hobs Hnd Ho Hentry Htext Hhash Hm Hset Hspin Hthr.
  destruct (process_total now thr (Nat.max n 1) active obs states (MkPaneDiffTickResult [] []) Hobs)
    as (mid & result & Hrun & _ & _).
  unfold process_pane_diff_observations. rw Hrun. eexists _, result. split; [reflexivity|].
  destruct (outcome_at _ _ _ _ _ _ _ _ o Hrun Hnd Ho) as (e & stuck & ui & Hout & _ & Hs & Hu).
  destruct (outcome_total now thr (Nat.max n 1) active o (Some entry)) as (e' & stuck' & ui' & Hout' & Hss & Huu).
  { rw Forall_forall in Hobs. by apply Hobs. }
  rw Hentry Hout' in Hout. simplify_eq. unfold outcome_of in Hout'.
  destruct (scan_of _ _ _ o (Some entry)) as [[scanned []]|] eqn:Hscan; [| |done]; cbn in Hout'; simplify_eq.
  { right. apply list_elem_of_fmap. eexists. split; [|by apply Hu, list_elem_of_singleton]. done. }
  left. assert (Hk : scanned = set_ds_ui_marker_match scanned.(ds_ui_marker_match) entry).
  { revert Hscan. unfold scan_of, scan_observation. destruct (po_provider o); cbn; [|by intros [= <-]].
    destruct (try_get_manifest _); [|done]. cbn. by intros [= <- _]. }
  rw Hk in Hout'. unfold compare_observation in Hout'. cbv zeta in Hout'. rw hash_of_computed in Hout'.
  cbn [set_ds_ui_marker_match ds_last_meaningful_text ds_last_content_hash ds_last_log_mtime
    ds_last_meaningful_at ds_thinking_start set_ds_thinking_start] in Hout'.
  rw Htext Hset Hhash Hspin Hm (bool_decide_true (Some _ = Some _)) // in Hout'. cbn in Hout'.
  rw (proj2 (Z.leb_le _ _) Hthr) in Hout'. cbn in Hout'. simplify_eq.
  apply list_elem_of_fmap. eexists. split; [|by apply Hs, list_elem_of_singleton]. done.
Qed.

(** A text that is not settled differs from itself at every turn. *)
Definition keeps_text (agent_id text : string) (states : DiffStates) : Prop :=
  ∀ e, states !! agent_id = Some e → e.(ds_last_meaningful_text) = sanitize_for_diff text.
Definition shows (agent_id text : string) (t : PaneTick) : Prop :=
  NoDup (ids_of t.(pk_observations)) ∧
  ∀ o, o ∈ t.(pk_observations) → o.(po_agent_id) = agent_id → o.(po_text) = text.

Lemma unsettled_outcome now thr n active o previous entry stuck ui :
  ¬ settled_text o.(po_text) →
  (∀ e, previous = Some e → e.(ds_last_meaningful_text) = sanitize_for_diff o.(po_text)) →
  outcome_of now thr n active o previous = Some (entry, stuck, ui) →
  entry.(ds_last_meaningful_text) = sanitize_for_diff o.(po_text) ∧ stuck = [].
Proof.
  intros Hset Hprev Hout. unfold outcome_of in Hout. apply not_false_iff_true in Hset.
  destruct (scan_of _ _ _ o previous) as [[scanned finished]|] eqn:Hscan; [|done].
  assert (Hk : scanned.(ds_last_meaningful_text) = sanitize_for_diff o.(po_text)).
  { assert (Heq : scanned.(ds_last_meaningful_text) =
      (default (new_diff_state o now) previous).(ds_last_meaningful_text)).
    { revert Hscan. unfold scan_of, scan_observation. destruct (po_provider o); cbn; [|by intros [= <-]].
      destruct (try_get_manifest _); [|done]. cbn. by intros [= <- _]. }
    rw Heq. destruct previous as [e|]; [by apply Hprev|done]. }
  cbn in Hout. destruct finished; [by simplify_eq|].
  unfold compare_observation in Hout. cbv zeta in Hout. rw Hk Hset in Hout. cbn in Hout. by simplify_eq.
Qed.

(** One turn on an unsettled screen. *)
Lemma unsettled_tick thr n t agent_id text states states' result :
  ¬ settled_text text → shows agent_id text t → keeps_text agent_id text states →
  process_pane_diff_observations t.(pk_now) thr n t.(pk_log_active) t.(pk_observations) states =
    Some (states', result) →
  keeps_text agent_id text states' ∧ agent_id ∉ (ss_signal_agent_id <$> result.(pt_stuck_signals)).
Proof.
  intros Hset [Hnd Hshow] Hkeep Hrun. unfold process_pane_diff_observations in Hrun.
  destruct (process_observations _ _ _ _ _ _ _) as [[mid res]|] eqn:Hmid; [|done]. simplify_eq/=. split.
  - intros e He. apply map_lookup_filter_Some in He as (He & Hin & _). cbn in Hin.
    apply list_elem_of_fmap in Hin as (o & Hid & Ho). subst agent_id.
    destruct (outcome_at _ _ _ _ _ _ _ _ o Hmid Hnd Ho) as (entry & stuck & ui & Hout & Hm & _).
    simplify_eq. rw -(Hshow o Ho eq_refl) in Hset. unfold keeps_text in Hkeep. rw -(Hshow o Ho eq_refl) in Hkeep.
    rw -(Hshow o Ho eq_refl). by destruct (unsettled_outcome _ _ _ _ _ _ _ _ _ Hset Hkeep Hout).
  - intros Hin. apply list_elem_of_fmap in Hin as (s & -> & Hs).
    destruct (signal_from _ _ _ _ _ _ _ _ s Hmid Hnd Hs) as (o & entry & stuck & ui & Ho & Hout & Hin).
    assert (Hid : s.(ss_signal_agent_id) = o.(po_agent_id)).
    { unfold outcome_of in Hout. destruct (scan_of _ _ _ _ _) as [[e []]|]; [|cbn in Hout|done].
      - simplify_eq/=. by apply not_elem_of_nil in Hin.
      - destruct (compare_observation _ _ _ _) as [e' [s'|]] eqn:Hcmp; simplify_eq/=; [|by apply not_elem_of_nil in Hin].
        apply list_elem_of_singleton in Hin as ->.
        destruct (compare_cases _ _ _ _ _ _ Hcmp) as [(_ & _ & [=])|(_ & _ & _ & Hc)]. by apply Hc. }
    unfold keeps_text in Hkeep. rw Hid -(Hshow o Ho (eq_sym Hid)) in Hkeep. rw -(Hshow o Ho (eq_sym Hid)) in Hset.
    destruct (unsettled_outcome _ _ _ _ _ _ _ _ _ Hset Hkeep Hout) as [_ ->]. by apply not_elem_of_nil in Hin.
Qed.

(** So a screen that shows an unsettled text is never reported as standing
    still, however long it does. *)
Lemma unsettled_never_reported thr n agent_id text ticks t states states' result :
  ¬ settled_text text → Forall (shows agent_id text) (ticks ++ [t]) →
  watch_ticks thr n ticks ∅ = Some states →
  process_pane_diff_observations t.(pk_now) thr n t.(pk_log_active) t.(pk_observations) states =
    Some (states', result) →
  agent_id ∉ (ss_signal_agent_id <$> result.(pt_stuck_signals)).
Proof.
  intros Hset Hshows Hruns Hrun. apply Forall_app in Hshows as [Hshows Ht]. apply Forall_cons in Ht as [Ht _].
  assert (Hkeep : ∀ s0, keeps_text agent_id text s0 → watch_ticks thr n ticks s0 = Some states →
    keeps_text agent_id text states).
  { clear Hruns. induction Hshows as [|x l Hx _ IH]; intros s0 Hs0 Hw; cbn in Hw; [by simplify_eq|].
    destruct (process_pane_diff_observations _ _ _ _ _ s0) as [[mid res]|] eqn:Hx'; [|done]. cbn in Hw.
    apply (IH mid); [|done]. by apply (unsettled_tick _ _ _ _ _ _ _ _ Hset Hx Hs0 Hx'). }
  assert (Hempty : keeps_text agent_id text ∅) by by intros e He.
  by destruct (unsettled_tick _ _ _ _ _ _ _ _ Hset Ht (Hkeep ∅ Hempty Hruns) Hrun).
Qed.

End PaneDiff.
