(* ===== verification/StartupProofs.v ===== *)
(** * What cascades and startup guarantee *)
From S2P Require Import Prelude Json Schema Sql MasterTables JobGate Invariant MasterSound AgentGate Text Sessions.
From S2P Require Import Cutovers MasterRecovery MasterRevival ReplyText Jobs JobsProofs StateMachine Agents Recovery.
From S2P Require Import Lifecycle LifecycleProofs MasterProofs Startup.

Section StartupProofs.
Context {EXT : Externals} {SPEC : SpawnSpecSerde}.

(** ** Ending several agents

    [ended upd l w w']: the agents of [l] were ended, each for its reason: their
    rows were changed by [upd], their dispatched jobs failed with the reason, and
    every other agent and job is as it was. *)

Definition reason_of (l : list (string * string)) (id : string) : option string :=
  (list_to_map l : gmap string string) !! id.

Record ended (upd : string → Agent → Agent) (l : list (string * string)) (w w' : World) : Prop := {
  en_now : w'.(w_now) = w.(w_now);
  en_consistent : consistent w'.(w_db);
  en_evolves : evolves w.(w_db) w'.(w_db);
  en_agents k : w'.(w_db).(agents) !! k =
    (λ a, match reason_of l k with Some r => upd r a | None => a end) <$> w.(w_db).(agents) !! k;
  en_jobs k : w'.(w_db).(jobs) !! k =
    (λ j, match reason_of l j.(j_agent_id) with
          | Some r => if j.(j_status) == "DISPATCHED" then failed_row w.(w_now) r j else j
          | None => j
          end) <$> w.(w_db).(jobs) !! k
}.

Lemma ended_nil upd w : consistent w.(w_db) → ended upd [] w w.
Proof.
  intros Hc. split; [done|done|reflexivity|..]; intros k.
  - by destruct (w.(w_db).(agents) !! k).
  - by destruct (w.(w_db).(jobs) !! k).
Qed.

Lemma reason_of_cons id r l k :
  reason_of ((id, r) :: l) k = if k == id then Some r else reason_of l k.
Proof.
  unfold reason_of. cbn [list_to_map foldr uncurry fst snd]. case_bool_decide as Hk.
  - subst. apply lookup_insert_eq.
  - by apply lookup_insert_ne.
Qed.

Lemma reason_of_None l id : id ∉ l.*1 → reason_of l id = None.
Proof. apply not_elem_of_list_to_map_1. Qed.

Lemma ended_cons upd id r l w w1 w2 :
  id ∉ l.*1 → ended upd [(id, r)] w w1 → ended upd l w1 w2 → ended upd ((id, r) :: l) w w2.
Proof.
  intros Hni [Hn1 Hc1 He1 Ha1 Hj1] [Hn2 Hc2 He2 Ha2 Hj2].
  split; [congruence|done|by etrans|..]; intros k.
  - rw Ha2 Ha1. destruct (w.(w_db).(agents) !! k) as [a|]; [|done]. cbn [fmap option_fmap option_map].
    f_equal. rw !reason_of_cons. case_bool_decide as Hk; [subst; by rw reason_of_None|]. done.
  - rw Hj2 Hj1. destruct (w.(w_db).(jobs) !! k) as [j|]; [|done]. cbn [fmap option_fmap option_map].
    f_equal. rw !reason_of_cons Hn1. case_bool_decide as Hk.
    + assert (Hl : reason_of l j.(j_agent_id) = None) by (rw Hk; by apply reason_of_None).
      by destruct (j.(j_status) == "DISPATCHED") eqn:Hst; simpl; rw Hl.
    + done.
Qed.

(** Failing one agent's dispatched jobs, after its row was changed. *)
Lemma failed_jobs_formula w0 w w' agent_id reason :
  db_wf w.(w_db) → w.(w_db).(jobs) = w0.(w_db).(jobs) → w.(w_now) = w0.(w_now) →
  let ids := j_id <$> order_by dispatched_le (agent_jobs agent_id "DISPATCHED" w.(w_db)) in
  (∀ id j, w.(w_db).(jobs) !! id = Some j →
     w'.(w_db).(jobs) !! id =
       Some (if bool_decide (id ∈ ids) then failed_row w.(w_now) reason j else j)) →
  (∀ id, w.(w_db).(jobs) !! id = None → w'.(w_db).(jobs) !! id = None) →
  ∀ k, w'.(w_db).(jobs) !! k =
    (λ j, match reason_of [(agent_id, reason)] j.(j_agent_id) with
          | Some r => if j.(j_status) == "DISPATCHED" then failed_row w0.(w_now) r j else j
          | None => j
          end) <$> w0.(w_db).(jobs) !! k.
Proof.
  intros Hwf Hjobs Hnow ids Hin Hout k. rw -Hjobs -Hnow.
  destruct (w.(w_db).(jobs) !! k) as [j|] eqn:Hj; [|by apply Hout].
  rw (Hin _ _ Hj). cbn [fmap option_fmap option_map]. f_equal. rw reason_of_cons.
  rw (bool_decide_ext (k ∈ ids) (j.(j_agent_id) = agent_id ∧ j.(j_status) = "DISPATCHED")).
  { unfold ids. rw elem_of_dispatched_ids //. rw Hj. naive_solver. }
  case_bool_decide as H1.
  - destruct H1 as [-> ->]. by rw !bool_decide_true.
  - case_bool_decide as H2; [|done]. rw bool_decide_false //. naive_solver.
Qed.

(** ** Killing one agent *)

Definition kill_row (now : Z) (_ : string) (a : Agent) : Agent := killed now a.

Lemma tracked_guard a :
  negb (a.(a_state) is_in ["CRASHED"; "KILLED"]) = tracked a.
Proof. done. Qed.

Lemma ended_one upd id reason w w' (a : Agent) :
  w.(w_db).(agents) !! id = Some a →
  w'.(w_now) = w.(w_now) → consistent w'.(w_db) → evolves w.(w_db) w'.(w_db) →
  w'.(w_db).(agents) = <[id := upd reason a]> w.(w_db).(agents) →
  (∀ k, w'.(w_db).(jobs) !! k =
    (λ j, match reason_of [(id, reason)] j.(j_agent_id) with
          | Some r => if j.(j_status) == "DISPATCHED" then failed_row w.(w_now) r j else j
          | None => j
          end) <$> w.(w_db).(jobs) !! k) →
  ended upd [(id, reason)] w w'.
Proof.
  intros Ha Hn Hc He Hags Hjobs. split; try done. intros k. rw Hags.
  destruct (decide (id = k)) as [<-|Hne].
  - rw lookup_insert_eq Ha /=. by rw reason_of_cons bool_decide_true.
  - rw lookup_insert_ne //. destruct (w.(w_db).(agents) !! k); [|done]. simpl.
    by rw reason_of_cons bool_decide_false.
Qed.

(** The statements that record a kill, each run after the one before: the row,
    the jobs, the event. *)
Lemma kill_steps w id a reason guard context :
  consistent w.(w_db) → w.(w_db).(agents) !! id = Some a → guard a = true →
  ∃ w1 w2 w3 r seq,
    update_agent (E:=CcbdError) id guard (λ b, bump_version w.(w_now) (set_a_state "KILLED" b)) w =
      (Ok 1%nat, w1) ∧
    mark_dispatched_jobs_failed_for_agent_conn_collect_sync id reason w1 = (Ok r, w2) ∧
    insert_event_null context id "state_change"
      (json_object [("from", JString a.(a_state)); ("to", JString "KILLED");
                    ("reason", JString reason)]) w2 = (Ok seq, w3) ∧
    ended (kill_row w.(w_now)) [(id, reason)] w w3.
Proof.
  intros Hc Ha Ht. set (f := λ b, bump_version w.(w_now) (set_a_state "KILLED" b)).
  pose proof (update_agent_hit (E:=CcbdError) w id guard f a Ha Ht) as Hup.
  set (w1 := set_db _ w) in Hup.
  assert (Hs1 : respects sound (update_agent id guard f : M CcbdError nat))
    by (unfold f; eauto with respects).
  pose proof (sound_step _ _ _ _ Hs1 Hup Hc) as Hc1.
  destruct (fail_agent_run w1 id reason Hc1) as (w2 & Hfail & Hc2 & Hn2 & Hin2 & Hout2 & Ha2 & _).
  set (payload := json_object [("from", JString a.(a_state)); ("to", JString "KILLED");
                               ("reason", JString reason)]).
  pose proof (insert_event_null_run w2 context id "state_change" payload
    ltac:(rw Ha2 /= lookup_insert_eq; by eexists)) as Hev.
  set (w3 := set_db _ w2) in Hev.
  assert (Hs3 : respects sound (insert_event_null context id "state_change" payload))
    by eauto with respects.
  eexists w1, w2, w3, _, _. split_and!; [exact Hup|exact Hfail|exact Hev|].
  apply (ended_one _ _ _ _ _ a); [done|by rw /= Hn2| | |by rw /= Ha2|].
  - exact (sound_step _ _ _ _ Hs3 Hev Hc2).
  - pose proof (proj1 (Hs1 w)) as E1. rw Hup in E1. pose proof (proj1 (Hs3 w2)) as E3.
    rw Hev in E3. pose proof (proj1 (sound_fail_agent_conn_collect id reason w1)) as E2.
    rw Hfail in E2. etrans; [exact E1|]. etrans; [exact E2|exact E3].
  - by apply (failed_jobs_formula w w1 w2 id reason (proj1 Hc1)).
Qed.

(** Effects leave what the record talks about alone. *)
Lemma ended_out upd l w w' out :
  ended upd l w w' →
  ended upd l w (MkWorld w'.(w_db) w'.(w_now) out w'.(w_log_monitors) w'.(w_pending_tasks)).
Proof. by intros []; split. Qed.

Lemma kill_run w id a reason :
  consistent w.(w_db) → w.(w_db).(agents) !! id = Some a → tracked a = true →
  ∃ w', mark_agent_killed_sync id reason w = (Ok 1%nat, w') ∧
        ended (kill_row w.(w_now)) [(id, reason)] w w'.
Proof.
  intros Hc Ha Ht.
  destruct (kill_steps w id a reason (λ b, negb (b.(a_state) is_in ["CRASHED"; "KILLED"]))
    "insert killed state_change" Hc Ha Ht) as (w1 & w2 & w3 & r & seq & Hup & Hfail & Hev & Hend).
  assert (Hrun : ∃ out, mark_agent_killed_sync id reason w =
    (Ok 1%nat, MkWorld w3.(w_db) w3.(w_now) out w3.(w_log_monitors) w3.(w_pending_tasks))).
  { unfold mark_agent_killed_sync, mark_agent_killed_sync_inner, query_agent_row. eexists.
    erewrite bind_ok; [|apply transaction_ok].
    2:{ step_pure. rw Ha. cbn [fmap option_fmap option_map andb]. unfold when at 1. step_pure.
        rw (bind_ok _ _ _ _ _ Hup). change (1%nat == 1%nat) with true.
        change (bool_decide (0 < 1)%nat) with true. unfold when at 1.
        erewrite bind_ok; [cbv beta|].
        2:{ erewrite bind_ok; [cbv beta|unfold mark_dispatched_jobs_failed_for_agent_conn_sync;
              rw (bind_ok _ _ _ _ _ Hfail); apply ret_run].
            rw (bind_ok _ _ _ _ _ Hev). apply ret_run. }
        cbn [andb]. step_pure. unfold when. step_pure. apply ret_run. }
    cbv beta iota. change (bool_decide (0 < 1)%nat) with true. cbn [andb negb]. unfold when.
    reflexivity. }
  destruct Hrun as [out Hrun]. eexists. split; [exact Hrun|]. by apply ended_out.
Qed.

Lemma fst_pairs {A : Type} (r : A) (ids : list string) : ((λ id, (id, r)) <$> ids).*1 = ids.
Proof. induction ids as [|id ids IH]; [done|]. by rw !fmap_cons IH. Qed.

Lemma cascade_kill_run host reason ids n w :
  consistent w.(w_db) → NoDup ids →
  (∀ id, id ∈ ids → ∃ a, w.(w_db).(agents) !! id = Some a ∧ tracked a = true) →
  ∃ w', cascade_kill host reason ids n w = (Ok (n + length ids)%nat, w') ∧
        ended (kill_row w.(w_now)) ((λ id, (id, reason)) <$> ids) w w'.
Proof.
  induction ids as [|id ids IH] in n, w |- *; intros Hc Hnd Hin.
  { exists w. rw Nat.add_0_r. split; [done|by apply ended_nil]. }
  apply NoDup_cons in Hnd as [Hni Hnd]. destruct (Hin id ltac:(by left)) as (a & Ha & Ht).
  set (w0 := if bool_decide (is_Some (host.(host_sigkill) id)) then add_effect (SigKill id) w else w).
  assert (Hw0 : w0.(w_db) = w.(w_db) ∧ w0.(w_now) = w.(w_now)) by (unfold w0; by case_bool_decide).
  destruct Hw0 as [Hdb0 Hnow0].
  destruct (kill_run w0 id a reason) as (w1 & Hrun1 & Hend1); [by rw Hdb0..|done|].
  set (w1' := add_effect (DropParser id) (add_effect (DropTimer id) w1)).
  assert (Hend1' : ended (kill_row w.(w_now)) [(id, reason)] w w1').
  { rw Hnow0 in Hend1. destruct Hend1 as [H1 H2 H3 H4 H5]. rw Hdb0 Hnow0 in H1 H3 H4 H5. by split. }
  destruct (IH (n + 1)%nat w1') as (w2 & Hrun2 & Hend2).
  { apply (en_consistent _ _ _ _ Hend1'). }
  { done. }
  { intros k Hk. destruct (Hin k ltac:(by right)) as (b & Hb & Htb). exists b. split; [|done].
    rw (en_agents _ _ _ _ Hend1') Hb /= reason_of_cons bool_decide_false //. by intros ->. }
  exists w2. split.
  - cbn [cascade_kill]. erewrite bind_ok; cycle 1.
    { instantiate (1 := w0). unfold when, w0. by case_bool_decide. }
    rw (bind_ok _ _ _ _ _ Hrun1). cbv beta.
    etrans; [exact Hrun2|]. do 2 f_equal. cbn [length]. lia.
  - cbn [fmap list_fmap]. apply (ended_cons _ _ _ _ _ w1'); [|done|].
    + by rw fst_pairs.
    + by rw -(en_now _ _ _ _ Hend1').
Qed.

(** ** Cascades *)

Lemma row_keys_NoDup {R : Type} (key : R → string) (t : gmap string R) :
  (∀ id r, t !! id = Some r → key r = id) → NoDup (key <$> table_rows t).
Proof.
  intros Hkey. unfold table_rows. rw -list_fmap_compose.
  replace (key ∘ snd <$> map_to_list t) with (map_to_list t).*1; [apply NoDup_fst_map_to_list|].
  apply list_fmap_ext. intros i [k r] Hi. simpl. symmetry. apply Hkey.
  by apply elem_of_map_to_list, list_elem_of_lookup_2 with i.
Qed.

Lemma NoDup_fmap_filter {A B : Type} (f : A → B) (P : A → Prop) `{!∀ x, Decision (P x)} (l : list A) :
  NoDup (f <$> l) → NoDup (f <$> filter P l).
Proof.
  induction l as [|x l IH]; [done|]. rw fmap_cons NoDup_cons. intros [Hx Hl].
  rw filter_cons. case_decide; [|by apply IH]. rw fmap_cons NoDup_cons. split; [|by apply IH].
  rw !list_elem_of_fmap in Hx |- *. intros (y & Hy & [_ Hin]%list_elem_of_filter). eauto.
Qed.

Lemma live_ids_spec sid db :
  db_wf db → NoDup (live_agent_ids sid db) ∧
  ∀ id, id ∈ live_agent_ids sid db ↔
    ∃ a, db.(agents) !! id = Some a ∧ a.(a_session_id) = sid ∧ tracked a = true.
Proof.
  intros Hwf. pose proof (wf_agent_key _ Hwf) as Hkey. unfold live_agent_ids, session_agents. split.
  - apply NoDup_fmap_filter, NoDup_fmap_filter, row_keys_NoDup, Hkey.
  - intros id. rw list_elem_of_fmap. split.
    + intros (a & -> & [Ht [Hs (k & Hk)%elem_of_table_rows]%list_elem_of_filter]%list_elem_of_filter).
      exists a. by rw (Hkey _ _ Hk).
    + intros (a & Ha & Hs & Ht). exists a. rw (Hkey _ _ Ha) !list_elem_of_filter elem_of_table_rows.
      eauto.
Qed.

Lemma reason_of_pairs reason ids k :
  reason_of ((λ id, (id, reason)) <$> ids) k = if k is_in ids then Some reason else None.
Proof.
  induction ids as [|id ids IH]; [done|]. rw fmap_cons reason_of_cons IH.
  destruct (decide (k = id)) as [->|Hne].
  - rw !bool_decide_true //. by left.
  - rw (bool_decide_false (k = id)) //. by rw (bool_decide_ext (k ∈ id :: ids) (k ∈ ids)); [set_solver|].
Qed.

(** A job whose agent runs in the session. *)
Definition runs_in (sid : string) (db : Db) (j : Job) : bool :=
  match db.(agents) !! j.(j_agent_id) with
  | Some a => (a.(a_session_id) == sid) && tracked a
  | None => false
  end.

Definition set_out (out : list Effect) (w : World) : World :=
  MkWorld w.(w_db) w.(w_now) out w.(w_log_monitors) w.(w_pending_tasks).

(** Stopping units only emits. *)
Lemma stop_units_run sid marker ids runner w :
  ∃ out, (match marker with
          | Some m => stop_agent_scopes_with_runner ids m runner;; stop_session_anchor_with_runner sid
          | None => mret tt
          end : M CcbdError unit) w = (Ok tt, set_out out w).
Proof.
  destruct marker as [m|]; [|exists w.(w_out); by destruct w].
  unfold stop_agent_scopes_with_runner. destruct runner.(list_scope_units) as [scopes|e]; cycle 1.
  { by eexists. }
  enough (∃ out, (for_ scopes (λ scope, match scope_agent m ids scope with
            | None => mret tt | Some _ => emit (StopUnit scope.(su_unit)) end) : M CcbdError unit) w =
            (Ok tt, set_out out w)) as [out Hout].
  { eexists. by rw (bind_ok _ _ _ _ _ Hout). }
  induction scopes as [|x scopes IH] in w |- *; [exists w.(w_out); by destruct w|].
  cbn [for_]. destruct (scope_agent m ids x).
  - destruct (IH (add_effect (StopUnit x.(su_unit)) w)) as [out Hout].
    eexists. erewrite bind_ok; [exact Hout|done].
  - destruct (IH w) as [out Hout]. eexists. erewrite bind_ok; [exact Hout|done].
Qed.

(** The session's status once the cascade has marked it. *)
Definition cascaded (s : Session) : Session :=
  if s.(s_status) == "ACTIVE" then set_s_status "KILLED" s else s.

(** The steps of a cascade up to the killing. *)
Lemma cascade_prefix host sid reason marker runner w s :
  w.(w_db).(sessions) !! sid = Some s → s.(s_status) ∈ SESSION_STATUSES →
  ∃ out, cascade_kill_session_agents_with_runner_sync host sid reason marker runner w =
    cascade_kill host reason (live_agent_ids sid w.(w_db)) 0
      (set_out out (put_session sid (cascaded s) w)).
Proof.
  intros Hs Hst. unfold cascade_kill_session_agents_with_runner_sync.
  destruct (s.(s_status) == "ACTIVE") eqn:Hb.
  - assert (Hc : cascaded s = set_s_status "KILLED" s) by (unfold cascaded; by rw Hb).
    rw Hc. set (w1 := put_session sid (set_s_status "KILLED" s) w).
    set (w2 := add_effect (SendRuntimeUpdate InventoryChanged) w1).
    destruct (stop_units_run sid marker (live_agent_ids sid w.(w_db)) runner w2) as [out Hout].
    exists out. erewrite bind_ok; [|rw update_session_run /session_where Hs /= Hb; reflexivity].
    cbv beta. rw (bind_ok _ _ _ tt w2) //. step_pure.
    change (1%nat == 0%nat) with false. cbn [andb]. step_pure.
    change (live_agent_ids sid w2.(w_db)) with (live_agent_ids sid w.(w_db)).
    by rw (bind_ok _ _ _ _ _ Hout).
  - assert (Hc : put_session sid (cascaded s) w = w).
    { unfold cascaded. rw Hb. unfold put_session. rw insert_id //. by destruct w as [[]]. }
    rw Hc. destruct (stop_units_run sid marker (live_agent_ids sid w.(w_db)) runner w) as [out Hout].
    exists out. erewrite bind_ok; [|rw update_session_run /session_where Hs /= Hb; reflexivity].
    cbv beta. rw (bind_ok _ _ _ tt w) //. step_pure. rw Hs. cbn [fmap option_fmap option_map].
    rw (bool_decide_true (s.(s_status) ∈ ["KILLED"; "FAILED"; "CLOSED"])).
    { apply bool_decide_eq_false in Hb. unfold SESSION_STATUSES in Hst. set_solver. }
    rw andb_false_r. step_pure. by rw (bind_ok _ _ _ _ _ Hout).
Qed.

Lemma sound_put_session w sid s s' :
  w.(w_db).(sessions) !! sid = Some s → session_evolves s s' → (session_ok s → session_ok s') →
  sound w.(w_db) (put_session sid s' w).(w_db).
Proof.
  intros Hs Hev Hok.
  pose proof (sound_update_session_at (E:=CcbdError) w sid (λ _, true) (λ _, s')) as H.
  rw update_session_run /session_where Hs in H. apply H. intros ? [= <-]; done.
Qed.

Lemma sound_cascaded w sid s :
  w.(w_db).(sessions) !! sid = Some s → sound w.(w_db) (put_session sid (cascaded s) w).(w_db).
Proof.
  intros Hs. apply (sound_put_session _ _ s); [done|..]; unfold cascaded; destruct (_ == _).
  - split; simpl; try done; lia.
  - reflexivity.
  - intros []. by split; simpl; [solve_const_in|..].
  - done.
Qed.

(** [session_ended sid reason w w']: the session [sid] and what ran in it ended,
    and nothing else.  The session is not active; each of its agents that was
    not already CRASHED or KILLED is KILLED under a new version; the jobs
    dispatched to those agents are FAILED with the reason; every other agent and
    job is as it was. *)
Record session_ended (sid reason : string) (w w' : World) : Prop := {
  se_consistent : consistent w'.(w_db);
  se_session s : w'.(w_db).(sessions) !! sid = Some s → s.(s_status) ≠ "ACTIVE";
  se_agents id : w'.(w_db).(agents) !! id =
    (λ a, if (a.(a_session_id) == sid) && tracked a then killed w.(w_now) a else a)
      <$> w.(w_db).(agents) !! id;
  se_jobs id : w'.(w_db).(jobs) !! id =
    (λ j, if runs_in sid w.(w_db) j && (j.(j_status) == "DISPATCHED")
          then failed_row w.(w_now) reason j else j) <$> w.(w_db).(jobs) !! id
}.

(** Killing all live agents of a session ends it, once it is not active. *)
Lemma ended_session sid reason w w1 w' s :
  db_wf w.(w_db) → w1.(w_db).(agents) = w.(w_db).(agents) → w1.(w_db).(jobs) = w.(w_db).(jobs) →
  w1.(w_now) = w.(w_now) → w1.(w_db).(sessions) !! sid = Some s → s.(s_status) ≠ "ACTIVE" →
  ended (kill_row w.(w_now)) ((λ id, (id, reason)) <$> live_agent_ids sid w.(w_db)) w1 w' →
  session_ended sid reason w w'.
Proof.
  intros Hwf Hag Hjb Hnow Hs Hst Hend. destruct (live_ids_spec sid w.(w_db) Hwf) as [_ Hin].
  split; [apply (en_consistent _ _ _ _ Hend)|..].
  - intros s' Hs'.
    destruct (mev_sessions _ _ (ev_master _ _ (en_evolves _ _ _ _ Hend)) sid s Hs) as (s2 & Hs2 & Hev).
    assert (s2 = s') as -> by (mt_simpl; congruence). by apply (sev_ended _ _ Hev).
  - intros id. rw (en_agents _ _ _ _ Hend) reason_of_pairs Hag.
    destruct (w.(w_db).(agents) !! id) as [a|] eqn:Ha; [|done].
    cbn [fmap option_fmap option_map]. f_equal. unfold kill_row.
    rw (bool_decide_ext (id ∈ live_agent_ids sid w.(w_db))
          (a.(a_session_id) = sid ∧ tracked a = true)); [rw Hin Ha; naive_solver|].
    case_bool_decide as H1; [destruct H1 as [-> ->]; by rw bool_decide_true|].
    case_bool_decide; [|done]. destruct (tracked a); naive_solver.
  - intros id. rw (en_jobs _ _ _ _ Hend) Hjb Hnow.
    destruct (w.(w_db).(jobs) !! id) as [j|] eqn:Hj; [|done].
    cbn [fmap option_fmap option_map]. f_equal. rw reason_of_pairs.
    rw (bool_decide_ext (j.(j_agent_id) ∈ live_agent_ids sid w.(w_db))
          (runs_in sid w.(w_db) j = true)).
    { rw Hin. unfold runs_in. destruct (w.(w_db).(agents) !! _) as [a|]; [|naive_solver].
      rw andb_true_iff bool_decide_eq_true. naive_solver. }
    by destruct (runs_in sid w.(w_db) j).
Qed.

Lemma cascade_run host sid reason marker runner w s :
  consistent w.(w_db) → session_ok s → w.(w_db).(sessions) !! sid = Some s →
  ∃ w', cascade_kill_session_agents_with_runner_sync host sid reason marker runner w =
          (Ok (length (live_agent_ids sid w.(w_db))), w') ∧ session_ended sid reason w w'.
Proof.
  intros Hc Hok Hs.
  destruct (cascade_prefix host sid reason marker runner w s Hs (so_status _ Hok)) as [out Hpre].
  set (w1 := set_out out (put_session sid (cascaded s) w)) in Hpre.
  destruct (live_ids_spec sid w.(w_db) (proj1 Hc)) as [Hnd Hin].
  assert (Hc1 : consistent w1.(w_db)) by by apply (proj2 (sound_cascaded w sid s Hs)).
  destruct (cascade_kill_run host reason (live_agent_ids sid w.(w_db)) 0 w1 Hc1 Hnd)
    as (w' & Hrun & Hend).
  { intros id (a & Ha & _ & Ht)%Hin. by exists a. }
  exists w'. rw Hpre Hrun. split; [done|].
  apply (ended_session _ _ _ w1 _ (cascaded s)); try done; [apply Hc|apply put_session_lookup|].
  unfold cascaded. by case_bool_decide.
Qed.

(** Cascading a session ends it and everything that runs in it, and nothing
    else ([session_ended]).  From a well-formed database the cascade of a
    session that exists succeeds, whatever the host answers, and the answer
    counts the agents killed. *)
Theorem cascade_ends_session host sid reason marker runner w s :
  consistent w.(w_db) → master_ok (master_of w.(w_db)) →
  w.(w_db).(sessions) !! sid = Some s →
  ∃ w', cascade_kill_session_agents_with_runner_sync host sid reason marker runner w =
          (Ok (length (live_agent_ids sid w.(w_db))), w') ∧ session_ended sid reason w w'.
Proof. intros Hc Hm Hs. apply (cascade_run _ _ _ _ _ _ s Hc); [apply (mo_session _ Hm _ _ Hs)|done]. Qed.

(** ** Startup *)

Definition crash_row (now : Z) (reason : string) (a : Agent) : Agent :=
  bump_version now (set_a_error_code (Some reason) (set_a_state "CRASHED" a)).

(** One turn of the loop of phase C. *)
Lemma crash_one_run crash rest n w a :
  consistent w.(w_db) → crash.(sc_agent) = a → w.(w_db).(agents) !! a.(a_id) = Some a →
  startup_state a.(a_state) = true →
  ∃ w', crash_dead (crash :: rest) n w = crash_dead rest (S n) w' ∧
        ended (crash_row w.(w_now)) [(a.(a_id), crash.(sc_reason))] w w'.
Proof.
  intros Hc Hcr Ha Hst. set (reason := crash.(sc_reason)).
  pose proof (update_agent_hit (E:=CcbdError) w a.(a_id) (λ b, startup_state b.(a_state))
    (crash_row w.(w_now) reason) a Ha Hst) as Hup.
  set (w1 := set_db _ w) in Hup.
  assert (Hs1 : respects sound (update_agent a.(a_id) (λ b, startup_state b.(a_state))
    (crash_row w.(w_now) reason) : M CcbdError nat)) by (unfold crash_row; eauto with respects).
  pose proof (sound_step _ _ _ _ Hs1 Hup Hc) as Hc1.
  set (payload := json_object [("from", JString a.(a_state)); ("to", JString "CRASHED");
                               ("reason", JString reason)]).
  pose proof (insert_event_null_run w1 "insert startup reconcile dead-pid state_change" a.(a_id)
    "state_change" payload ltac:(rw /= lookup_insert_eq; by eexists)) as Hev.
  set (w2 := set_db _ w1) in Hev.
  assert (Hs2 : respects sound (insert_event_null "insert startup reconcile dead-pid state_change"
    a.(a_id) "state_change" payload)) by eauto with respects.
  pose proof (sound_step _ _ _ _ Hs2 Hev Hc1) as Hc2.
  destruct (fail_agent_run w2 a.(a_id) reason Hc2)
    as (w3 & Hfail & Hc3 & Hn3 & Hin3 & Hout3 & Ha3 & _).
  exists w3. split.
  - cbn [crash_dead]. cbv zeta. rw Hcr. step_pure. rw (bind_ok _ _ _ _ _ Hup).
    change (1%nat == 1%nat) with true. cbv iota. rw (bind_ok _ _ _ _ _ Hev).
    unfold mark_dispatched_jobs_failed_for_agent_conn_sync.
    erewrite bind_ok; [reflexivity|]. rw (bind_ok _ _ _ _ _ Hfail). apply ret_run.
  - apply (ended_one _ _ _ _ _ a); [done|by rw Hn3|done| |by rw Ha3|].
    + pose proof (proj1 (Hs1 w)) as E1. rw Hup in E1. pose proof (proj1 (Hs2 w1)) as E2.
      rw Hev in E2. pose proof (proj1 (sound_fail_agent_conn_collect a.(a_id) reason w2)) as E3.
      rw Hfail in E3. etrans; [exact E1|]. etrans; [exact E2|exact E3].
    + by apply (failed_jobs_formula w w2 w3 a.(a_id) reason (proj1 Hc2)).
Qed.

Definition crash_pairs (dead : list StartupCrashCandidate) : list (string * string) :=
  (λ c, (c.(sc_agent).(a_id), c.(sc_reason))) <$> dead.

Lemma crash_dead_run dead n w :
  consistent w.(w_db) → NoDup (crash_pairs dead).*1 →
  (∀ c, c ∈ dead → w.(w_db).(agents) !! c.(sc_agent).(a_id) = Some c.(sc_agent) ∧
                    startup_state c.(sc_agent).(a_state) = true) →
  ∃ w', crash_dead dead n w = (Ok (n + length dead)%nat, w') ∧
        ended (crash_row w.(w_now)) (crash_pairs dead) w w'.
Proof.
  induction dead as [|c dead IH] in n, w |- *; intros Hc Hnd Hin.
  { exists w. rw Nat.add_0_r. split; [done|by apply ended_nil]. }
  cbn [crash_pairs fmap list_fmap] in Hnd |- *. apply NoDup_cons in Hnd as [Hni Hnd].
  destruct (Hin c ltac:(by left)) as [Ha Hst].
  destruct (crash_one_run c dead n w _ Hc eq_refl Ha Hst) as (w1 & Hrun & Hend).
  destruct (IH (S n) w1) as (w2 & Hrun2 & Hend2); [apply (en_consistent _ _ _ _ Hend)|done| |].
  { intros d Hd. destruct (Hin d ltac:(by right)) as [Hda Hds]. split; [|done].
    rw (en_agents _ _ _ _ Hend) Hda /= reason_of_cons bool_decide_false //.
    intros Heq. apply Hni. cbn. rw -Heq. apply list_elem_of_fmap.
    exists (d.(sc_agent).(a_id), d.(sc_reason)). split; [done|]. apply list_elem_of_fmap. eauto. }
  exists w2. split.
  - rw Hrun Hrun2. do 2 f_equal. cbn [length]. lia.
  - apply (ended_cons _ _ _ _ _ w1); [done|done|]. by rw -(en_now _ _ _ _ Hend).
Qed.

(** Computations that publish and do nothing else. *)
Definition emits {A : Type} (m : M CcbdError A) : Prop :=
  ∀ w, ∃ r out, m w = (r, set_out out w).

Lemma emits_pure {A} (r : Result A CcbdError) : emits (of_result r).
Proof. intros w. exists r, w.(w_out). by destruct w. Qed.
Lemma emits_emit e : emits (emit e : M CcbdError unit).
Proof. intros w. eexists _, _. reflexivity. Qed.
Lemma emits_bind {A B} (m : M CcbdError A) (k : A → M CcbdError B) :
  emits m → (∀ a, emits (k a)) → emits (m ≫= k).
Proof.
  intros Hm Hk w. destruct (Hm w) as ([a|e] & out & Hrun).
  - destruct (Hk a (set_out out w)) as (r & out' & Hrun'). exists r, out'.
    by rw (bind_ok _ _ _ _ _ Hrun) Hrun'.
  - exists (Err e), out. by apply bind_err.
Qed.
Lemma emits_for {A} (l : list A) (f : A → M CcbdError unit) : (∀ x, emits (f x)) → emits (for_ l f).
Proof.
  intros Hf. induction l as [|x l IH]; cbn [for_]; [apply (emits_pure (Ok tt))|].
  by apply emits_bind.
Qed.

Lemma emits_reregister host alive : emits (startup_reconcile_phase_d_reregister_alive host alive).
Proof.
  induction alive as [|a alive IH]; cbn [startup_reconcile_phase_d_reregister_alive].
  { apply (emits_pure (Ok tt)). }
  destruct a.(a_pid) as [pid|]; [|done]. destruct (host_pidfd_open host _) as [|e].
  - apply emits_bind; [apply emits_emit|done].
  - destruct e; try apply (emits_pure (Err _)). done.
Qed.

(** Why startup crashes an agent, if it does. *)
Definition startup_verdict (host : Host) (a : Agent) : option string :=
  if negb (startup_state a.(a_state)) then None
  else if negb (probe_alive host a.(a_pid)) then Some "STARTUP_RECONCILE_DEAD_PID"
  else if negb (host.(host_fifo_opens) a.(a_id)) then Some "STARTUP_RECONCILE_FIFO_REATTACH_FAILED"
  else None.

(** Whom startup crashes, as its phases compute it. *)
Definition startup_dead (host : Host) (dir : string) (db : Db) : list StartupCrashCandidate :=
  let candidates := filter (λ a, startup_state a.(a_state) = true) (table_rows db.(agents)) in
  let '(dead, alive) := startup_reconcile_phase_b_probe_pids host candidates in
  dead ++ (startup_reconcile_phase_b2_prepare_alive_io host (Some dir) alive).1.

Lemma elem_of_startup_dead host dir db c :
  db_wf db → c ∈ startup_dead host dir db ↔
  db.(agents) !! c.(sc_agent).(a_id) = Some c.(sc_agent) ∧
  startup_verdict host c.(sc_agent) = Some c.(sc_reason).
Proof.
  intros Hwf. pose proof (wf_agent_key _ Hwf) as Hkey. unfold startup_dead, startup_verdict.
  cbn [startup_reconcile_phase_b_probe_pids startup_reconcile_phase_b2_prepare_alive_io fst].
  rw elem_of_app !list_elem_of_fmap. setoid_rewrite list_elem_of_filter.
  setoid_rewrite list_elem_of_filter. setoid_rewrite list_elem_of_filter.
  setoid_rewrite elem_of_table_rows. destruct c as [a r]. cbn [sc_agent sc_reason]. split.
  - intros [(b & [= -> ->] & Hp & Hst & k & Hk)|(b & [= -> ->] & Hf & Hp & Hst & k & Hk)].
    + rw (Hkey _ _ Hk) Hk Hst Hp. done.
    + rw Hst Hp Hf (Hkey _ _ Hk) Hk. done.
  - intros [Ha Hv]. destruct (startup_state a.(a_state)) eqn:Hst; [|done].
    destruct (probe_alive host a.(a_pid)) eqn:Hp; [|injection Hv as <-; left; eauto 8].
    destruct (host.(host_fifo_opens) a.(a_id)) eqn:Hf; [done|injection Hv as <-; right; eauto 10].
Qed.

Lemma startup_dead_NoDup host dir db :
  db_wf db → NoDup (crash_pairs (startup_dead host dir db)).*1.
Proof.
  intros Hwf. pose proof (row_keys_NoDup a_id db.(agents) (wf_agent_key _ Hwf)) as Hnd.
  unfold startup_dead, crash_pairs.
  cbn [startup_reconcile_phase_b_probe_pids startup_reconcile_phase_b2_prepare_alive_io fst].
  rw !fmap_app -!list_fmap_compose. set (cs := filter _ (table_rows db.(agents))).
  assert (Hcs : NoDup (a_id <$> cs)) by by apply NoDup_fmap_filter.
  apply NoDup_app. split_and!; [by apply NoDup_fmap_filter| |by do 2 apply NoDup_fmap_filter].
  intros id (a & -> & [Ha Hin]%list_elem_of_filter)%list_elem_of_fmap
    (b & Heq & [_ [Hb Hin']%list_elem_of_filter]%list_elem_of_filter)%list_elem_of_fmap.
  enough (a = b) by congruence. cbn in Heq.
  apply list_elem_of_filter in Hin as [_ [k Hk]%elem_of_table_rows].
  apply list_elem_of_filter in Hin' as [_ [k' Hk']%elem_of_table_rows].
  pose proof (wf_agent_key _ Hwf _ _ Hk). pose proof (wf_agent_key _ Hwf _ _ Hk'). congruence.
Qed.

Lemma reason_of_startup host dir db id :
  db_wf db → reason_of (crash_pairs (startup_dead host dir db)) id =
  db.(agents) !! id ≫= startup_verdict host.
Proof.
  intros Hwf. apply option_eq. intros r. unfold reason_of.
  rw -elem_of_list_to_map; [by apply startup_dead_NoDup|]. unfold crash_pairs. rw list_elem_of_fmap.
  rw bind_Some. split.
  - intros (c & [= -> ->] & [Ha Hv]%elem_of_startup_dead); [|done]. eauto.
  - intros (a & Ha & Hv). exists (MkCrashCandidate a r). cbn [sc_agent sc_reason].
    rw elem_of_startup_dead //. cbn [sc_agent sc_reason]. by rw (wf_agent_key _ Hwf _ _ Ha).
Qed.

(** Phase C on whom it is given, and the cleanups after it. *)
Lemma phase_c_run host dir w :
  consistent w.(w_db) → let dead := startup_dead host dir w.(w_db) in
  ∃ w', startup_reconcile_phase_c_crash_dead dead w = (Ok (length dead), w') ∧
        ended (crash_row w.(w_now)) (crash_pairs dead) w w'.
Proof.
  intros Hc dead. destruct (crash_dead_run dead 0 w Hc) as (w1 & Hrun & Hend).
  { apply startup_dead_NoDup, Hc. }
  { intros c [Ha Hv]%elem_of_startup_dead; [|apply Hc]. split; [done|].
    unfold startup_verdict in Hv. by destruct (startup_state _). }
  unfold startup_reconcile_phase_c_crash_dead. revert Hrun Hend. generalize dead.
  clear dead. intros [|c0 dead] Hrun Hend.
  { injection Hrun as <-. by exists w. }
  set (ds := c0 :: dead) in *.
  set (cleanup := for_ ds _ : M CcbdError unit).
  assert (Hem : ∃ out, cleanup w1 = (Ok tt, set_out out w1)).
  { unfold cleanup. clear. induction ds as [|d ds IH] in w1 |- *.
    - exists w1.(w_out). by destruct w1.
    - cbn [for_]. edestruct IH as [out Hout]. exists out. erewrite bind_ok; cycle 1; [reflexivity|exact Hout]. }
  destruct Hem as [out Hout]. exists (set_out out w1). split; [|by apply ended_out].
  rw (bind_ok _ _ w (length ds) w1); [|by rw (bind_ok _ _ _ _ _ Hout)].
  apply transaction_ok. by rw (bind_ok _ _ _ _ _ Hrun).
Qed.

(** C25: a restarted daemon crashes exactly the agents it lost.  Whatever the host
    answers, startup crashes each agent recorded as SPAWNING, WAITING_FOR_ACK,
    BUSY or IDLE whose process is not known to be alive, or whose pipe does not
    open, each for its reason and under a new version; it fails the jobs
    dispatched to those agents with that reason; and it leaves every other
    agent and job as it was, also an agent in any other state (parked at a
    prompt, stuck, unknown) whose process is gone. *)
Theorem startup_crashes_the_lost host dir w :
  consistent w.(w_db) →
  let w' := (reconcile_active_agents_to_crashed_sync host (Some dir) w).2 in
  consistent w'.(w_db) ∧
  (∀ id, w'.(w_db).(agents) !! id =
     (λ a, match startup_verdict host a with Some r => crash_row w.(w_now) r a | None => a end)
       <$> w.(w_db).(agents) !! id) ∧
  (∀ id, w'.(w_db).(jobs) !! id =
     (λ j, match w.(w_db).(agents) !! j.(j_agent_id) ≫= startup_verdict host with
           | Some r => if j.(j_status) == "DISPATCHED" then failed_row w.(w_now) r j else j
           | None => j
           end) <$> w.(w_db).(jobs) !! id).
Proof.
  intros Hc. cbv zeta. destruct (phase_c_run host dir w Hc) as (w1 & Hrun & Hend).
  assert (Hw : ∃ out, (reconcile_active_agents_to_crashed_sync host (Some dir) w).2 = set_out out w1).
  { unfold reconcile_active_agents_to_crashed_sync.
    erewrite bind_ok; [|by apply transaction_ok; step_pure]. cbv beta.
    cbv beta iota zeta delta [startup_reconcile_phase_b_probe_pids
      startup_reconcile_phase_b2_prepare_alive_io]. erewrite bind_ok; [|exact Hrun]. cbv beta.
    match goal with |- ∃ out, snd (?m w1) = _ => assert (Hem : emits m) end.
    { apply emits_bind; [apply emits_for; intros; apply emits_emit|]. intros _.
      apply emits_bind; [apply emits_reregister|]. intros _. apply (emits_pure (Ok _)). }
    destruct (Hem w1) as (r & out & Heq). exists out. exact (f_equal snd Heq). }
  destruct Hw as [out ->].
  pose proof (ended_out _ _ _ _ out Hend) as [_ Hcons _ Hag Hjb]. split; [exact Hcons|].
  split; intros id.
  - etrans; [apply Hag|]. destruct (w.(w_db).(agents) !! id) as [a|] eqn:Ha; [|done].
    cbn [fmap option_fmap option_map]. f_equal. by rw reason_of_startup; [apply Hc|]; rw Ha.
  - etrans; [apply Hjb|]. destruct (w.(w_db).(jobs) !! id) as [j|] eqn:Hj; [|done].
    cbn [fmap option_fmap option_map]. f_equal. by rw reason_of_startup; [apply Hc|].
Qed.

(** ** Scopes *)

Lemma stop_orphans_run runner marker refs dry scopes n w :
  ∃ m, stop_orphans runner marker refs dry scopes n w =
    (Ok m, set_out (w.(w_out) ++ (if (dry : bool) then [] else
       (λ s, StopUnit s.(su_unit)) <$>
         filter (λ s, is_own_ccbd_scope s marker && is_orphan_scope s refs = true) scopes)) w).
Proof.
  induction scopes as [|s scopes IH] in n, w |- *; cbn [stop_orphans].
  { exists n. destruct dry; rw app_nil_r; by destruct w. }
  rw -negb_andb. destruct (is_own_ccbd_scope s marker && is_orphan_scope s refs) eqn:Ho; cbn [negb].
  2:{ rw filter_cons_False; [by rw Ho|]. apply IH. }
  rw filter_cons_True; [done|]. destruct dry; [apply IH|].
  destruct (IH (n + Nat.b2n (negb (is_err (runner.(stop_unit) s.(su_unit)))))%nat
    (add_effect (StopUnit s.(su_unit)) w)) as [m Hm].
  exists m. erewrite bind_ok; cycle 1; [reflexivity|]. rw Hm /=. by rw -app_assoc.
Qed.

Lemma refs_elem db id a :
  db.(agents) !! id = Some a → scope_worthy a = true → session_active a.(a_session_id) db = true →
  a.(a_id) ∈ active_session_and_agent_refs db ∧ a.(a_session_id) ∈ active_session_and_agent_refs db.
Proof.
  intros Ha Hw Hs. unfold active_session_and_agent_refs. rw !elem_of_app !list_elem_of_fmap.
  assert (Hin : a ∈ filter (λ a, scope_worthy a && session_active a.(a_session_id) db = true)
                      (table_rows db.(agents))).
  { apply list_elem_of_filter. rw Hw Hs elem_of_table_rows. eauto. }
  split; [right|left]; eauto.
Qed.

(** the sweep of scopes stops orphans and nothing else.  It writes nothing to
    the database; under a marker the daemon merely inherited, or on a dry run,
    it stops nothing; otherwise it stops exactly the listed scopes that carry
    the daemon's marker and name no live agent or session, so never one whose
    name or description holds the id of an agent at work in an active session. *)
Theorem orphan_sweep_exact runner marker dry w :
  ∃ n stopped,
    reconcile_orphan_scopes_with_marker_sync runner marker dry w =
      (Ok n, set_out (w.(w_out) ++ ((λ s, StopUnit s.(su_unit)) <$> stopped)) w) ∧
    (may_stop_scopes marker = false ∨ dry = true → stopped = []) ∧
    (may_stop_scopes marker = true → dry = false → ∀ scopes, runner.(list_scope_units) = Ok scopes →
       stopped = filter (λ s, is_own_ccbd_scope s marker.(dm_value) &&
                   is_orphan_scope s (active_session_and_agent_refs w.(w_db)) = true) scopes) ∧
    (∀ s id a, s ∈ stopped → w.(w_db).(agents) !! id = Some a → tracked a = true →
       session_active a.(a_session_id) w.(w_db) = true →
       contains (s.(su_unit) +:+ " " +:+ s.(su_description)) a.(a_id) = false).
Proof.
  assert (Hnone : set_out (w.(w_out) ++ ((λ s, StopUnit s.(su_unit)) <$> [])) w = w).
  { rw app_nil_r. by destruct w. }
  unfold reconcile_orphan_scopes_with_marker_sync.
  destruct (may_stop_scopes marker) eqn:Hm; cbn [negb].
  2:{ exists 0%nat, []. rw Hnone. split_and!; [done|done|done|]. by intros ??? ?%elem_of_nil. }
  step_pure. destruct runner.(list_scope_units) as [scopes|] eqn:Hl.
  2:{ exists 0%nat, []. rw Hnone. split_and!; [done|done|done|]. by intros ??? ?%elem_of_nil. }
  destruct (stop_orphans_run runner marker.(dm_value) (active_session_and_agent_refs w.(w_db)) dry
    scopes 0 w) as [n Hrun].
  set (orphans := filter _ scopes) in Hrun. exists n, (if dry then [] else orphans).
  split; [by rw Hrun; destruct dry|].
  split; [intros [?| ->]; done|]. split; [by intros _ -> ? [= <-]|].
  intros s id a Hs Ha Ht Hact. destruct dry; [by apply elem_of_nil in Hs|].
  apply list_elem_of_filter in Hs as [[_ Horph]%andb_prop _].
  apply not_true_iff_false. intros Hcont. unfold is_orphan_scope in Horph.
  apply negb_true_iff in Horph. apply not_true_iff_false in Horph. apply Horph.
  apply existsb_exists. exists a.(a_id). split; [|exact Hcont]. apply list_elem_of_In.
  eapply refs_elem; [done| |done]. unfold scope_worthy. by rw Ht.
Qed.

(** A crashed agent spawned under the alias of a recoverable provider keeps its
    home for recovery but not its scope: the query compares the name as stored. *)
Lemma alias_loses_scope (a : Agent) :
  a.(a_state) = "CRASHED" → a.(a_provider) = "gemini" →
  recovery_eligible_orphan_scope_should_be_preserved a.(a_provider) a.(a_state) = true ∧
  scope_worthy a = false.
Proof. intros Hs Hp. unfold scope_worthy, tracked. rw Hs Hp. by split. Qed.

End StartupProofs.
