(* ===== verification/SessionWatch.v ===== *)
(** * The anchor of a session ([src/src/monitor/session_watch.rs])

    Every session has a systemd unit, its anchor.  A task polls the unit; when
    it is found inactive three times in a row, and no recovery of the session's
    master is under way, the session is ended.  What [systemctl is-active]
    answers and whether the master's process is alive are inputs. *)
From S2P Require Import Prelude Json Schema Sql MasterTables JobGate Invariant MasterSound AgentGate Text Sessions.
From S2P Require Import Cutovers MasterRecovery MasterRevival ReplyText Jobs StateMachine Agents Recovery Lifecycle.
From S2P Require Import LifecycleProofs MasterProofs Startup StartupProofs.

Definition DEBOUNCE_RETRIES : nat := 2.

(** [systemctl --user is-active]: its output, or a failure to run it. *)
Inductive UnitProbe : Type := ProbeOutput (stdout : string) | ProbeFailed.

Definition unit_is_active_from_stdout (stdout : string) : bool :=
  negb (trim stdout is_in ["inactive"; "failed"]).

Definition unit_is_active (probe : UnitProbe) : bool :=
  match probe with
  | ProbeOutput stdout => unit_is_active_from_stdout stdout
  | ProbeFailed => true
  end.

(** One turn of the watch loop: what the probe of the tick and those of the
    retries answer, the clock, and whether a process is alive. *)
Record WatchTurn : Type := MkWatchTurn {
  wt_tick : UnitProbe;
  wt_retry : nat → UnitProbe;
  wt_now : Z;
  wt_alive : Z → bool
}.

(** [for retry_idx in 0..DEBOUNCE_RETRIES]: still inactive at every retry *)
Fixpoint debounce (turn : WatchTurn) (retry_idx remaining : nat) : bool :=
  match remaining with
  | O => true
  | S remaining =>
      if unit_is_active (turn.(wt_retry) retry_idx) then false
      else debounce turn (S retry_idx) remaining
  end.

(** [i32::try_from(pid)] *)
Definition fits_i32 (pid : Z) : bool := (- 2 ^ 31 <=? pid) && (pid <? 2 ^ 31).
Definition master_process_is_alive (alive : Z → bool) (pid : Z) : bool := fits_i32 pid && alive pid.

Section SessionWatch.
Context {EXT : Externals} {SPEC : SpawnSpecSerde}.

Definition completed_recovery_master_is_alive (alive : Z → bool) (session_id : string) :
    M CcbdError bool :=
  gets (λ db, match session_where (λ s, s.(s_status) == "ACTIVE") session_id db with
              | Some s => master_process_is_alive alive s.(s_master_pid)
              | None => false
              end).

(** The reason to cascade for, if any. *)
Definition anchor_cascade_reason (alive : Z → bool) (session_id : string)
    (decision : Result AnchorCascadeDecision CcbdError) : M CcbdError (option string) :=
  match decision with
  | Ok (Defer _ _) => mret None
  | Ok (CascadeNow reason) =>
      if reason == "MASTER_RECOVERY_COMPLETED" then
        master_alive ← completed_recovery_master_is_alive alive session_id;
        mret (if (master_alive : bool) then None else Some reason)
      else mret (Some reason)
  | Err _ => mret (Some "ANCHOR_UNIT_STOPPED")
  end.

Definition handle_confirmed_anchor_inactive (host : Host) (runner : SystemctlRunner)
    (env : option Z) (alive : Z → bool) (session_id : string) (now : Z) : M CcbdError bool :=
  decision ← try_ (decide_anchor_cascade_sync env session_id now);
  reason ← anchor_cascade_reason alive session_id decision;
  match reason with
  | None => mret false
  | Some reason =>
      try_ (E:=CcbdError)
        (cascade_kill_session_agents_with_runner_sync host session_id reason None runner);;
      emit (DropMonitor ("anchor:" +:+ session_id));;
      mret true
  end.

(** The body of the loop; [true]: the task ends. *)
Definition watch_turn (host : Host) (runner : SystemctlRunner) (env : option Z)
    (session_id : string) (turn : WatchTurn) : M CcbdError bool :=
  if unit_is_active turn.(wt_tick) then mret false
  else if negb (debounce turn 0 DEBOUNCE_RETRIES) then mret false
  else handle_confirmed_anchor_inactive host runner env turn.(wt_alive) session_id turn.(wt_now).

Lemma sound_watch_turn host runner env sid turn :
  respects sound (watch_turn host runner env sid turn).
Proof.
  unfold watch_turn, handle_confirmed_anchor_inactive, anchor_cascade_reason,
    completed_recovery_master_is_alive. solve_respects.
Qed.

(** ** What a decision leaves alone

    The clock, the agents and the jobs. *)

Definition still (w w' : World) : Prop :=
  w'.(w_now) = w.(w_now) ∧ w'.(w_db).(agents) = w.(w_db).(agents) ∧
  w'.(w_db).(jobs) = w.(w_db).(jobs).
Definition stays_still {E A} (m : M E A) : Prop := ∀ w, still w (m w).2.

Lemma still_read {E A} (m : M E A) : (∀ w, (m w).2 = w) → stays_still m.
Proof. intros Hm w. by rw Hm. Qed.

Lemma still_bind {E A B} (m : M E A) (k : A → M E B) :
  stays_still m → (∀ a, stays_still (k a)) → stays_still (m ≫= k).
Proof.
  intros Hm Hk w. unfold mbind, M_bind. specialize (Hm w).
  destruct (m w) as [[a|e] w1]; [|done]. specialize (Hk a w1).
  destruct Hm as (?&?&?), Hk as (?&?&?). split_and!; simpl in *; congruence.
Qed.

Lemma still_transaction {E A} (body : M E (TxEnd A)) :
  stays_still body → stays_still (transaction body).
Proof.
  intros Hb w. unfold transaction. specialize (Hb w).
  destruct (body w) as [[[a|a]|e] w1]; simpl in *; [done|..]; by destruct Hb as (?&?&?).
Qed.

Lemma still_map_err {E E' A} (f : E → E') (m : M E A) : stays_still m → stays_still (map_err f m).
Proof. intros Hm w. unfold map_err. specialize (Hm w). by destruct (m w) as [[]]. Qed.

Lemma still_update_session {E} id g f : stays_still (update_session id g f : M E nat).
Proof. intros w. unfold update_session. by destruct (update_row _ _ _ _). Qed.
Lemma still_update_window id g f : stays_still (update_window id g f).
Proof.
  intros w. unfold update_window. destruct (recovery_windows _ !! _); [|done].
  destruct (g _); [|done]. by destruct (_ is_in _).
Qed.
Lemma still_insert_window r : stays_still (insert_window_row r).
Proof.
  intros w. unfold insert_window_row. destruct (negb _); [done|].
  destruct (recovery_windows _ !! _); [done|]. by destruct (sessions _ !! _).
Qed.

Ltac solve_still :=
  repeat first
    [ apply still_bind; [|intros ?]
    | apply still_transaction | apply still_map_err
    | apply still_update_session | apply still_update_window | apply still_insert_window
    | progress unfold when
    | lazymatch goal with |- stays_still (match ?x with _ => _ end) => destruct x end
    | apply still_read; reflexivity
    | intros ?w; done ].

Lemma still_decide env sid now : stays_still (decide_anchor_cascade_sync env sid now).
Proof.
  unfold decide_anchor_cascade_sync, decide_anchor_cascade_in_tx, decision_for_existing_window,
    query_session_runtime, query_window_in_tx, master_cutover_inflight_in_tx, session_has_active_work,
    begin_master_recovery_window_in_tx, expire_master_recovery_window_in_tx, query_window_in_tx,
    notify_runtime_changed. cbv zeta. solve_still.
Qed.

(** Ending a session after a decision about it is ending it. *)
Lemma session_ended_still sid reason w w1 w' :
  still w w1 → session_ended sid reason w1 w' → session_ended sid reason w w'.
Proof.
  intros (Hn & Ha & Hj) [Hc Hs Hag Hjb]. split; [done|done|..]; intros id.
  - by rw Hag Ha Hn.
  - rw Hjb Hj Hn. unfold runs_in. by rw Ha.
Qed.

Lemma sound_run {E A} (m : M E A) w r w' :
  respects sound m → m w = (r, w') → sound w.(w_db) w'.(w_db).
Proof. intros Hm Hrun. specialize (Hm w). by rw Hrun in Hm. Qed.

(** The cascade that follows a decision. *)
Lemma cascade_after env host runner sid now reason w w1 s r :
  consistent w.(w_db) → master_ok (master_of w.(w_db)) → w.(w_db).(sessions) !! sid = Some s →
  decide_anchor_cascade_sync env sid now w = (r, w1) →
  ∃ n w2, cascade_kill_session_agents_with_runner_sync host sid reason None runner w1 = (Ok n, w2) ∧
    session_ended sid reason w w2.
Proof.
  intros Hc Hm Hs Hdec.
  pose proof (sound_run _ _ _ _ (sound_decide_cascade env sid now) Hdec) as [Hev Hcons].
  destruct (mev_sessions _ _ (ev_master _ _ Hev) sid s Hs) as (s1 & Hs1 & _).
  pose proof (mev_ok _ _ (ev_master _ _ Hev) Hm) as Hm1.
  destruct (cascade_run host sid reason None runner w1 s1 (Hcons Hc) (mo_session _ Hm1 _ _ Hs1) Hs1)
    as (w2 & Hrun & Hend).
  eexists _, w2. split; [exact Hrun|]. apply (session_ended_still _ _ _ w1); [|done].
  pose proof (still_decide env sid now w) as Hst. by rw Hdec in Hst.
Qed.

(** The unit was found inactive by the tick and by both retries. *)
Definition inactive_thrice (turn : WatchTurn) : bool :=
  negb (unit_is_active turn.(wt_tick)) && negb (unit_is_active (turn.(wt_retry) 0%nat)) &&
  negb (unit_is_active (turn.(wt_retry) 1%nat)).

Lemma watch_turn_confirmed host runner env sid turn :
  watch_turn host runner env sid turn =
  if inactive_thrice turn then
    handle_confirmed_anchor_inactive host runner env turn.(wt_alive) sid turn.(wt_now)
  else mret false.
Proof.
  unfold watch_turn, inactive_thrice. cbn [debounce DEBOUNCE_RETRIES].
  by destruct (unit_is_active turn.(wt_tick)), (unit_is_active (turn.(wt_retry) 0%nat)),
    (unit_is_active (turn.(wt_retry) 1%nat)).
Qed.

(** The one decision to cascade that may be overruled is made of a completed window. *)
Lemma completed_inv env sid now w w' :
  decide_anchor_cascade_sync env sid now w = (Ok (CascadeNow "MASTER_RECOVERY_COMPLETED"), w') →
  ∃ r, w'.(w_db).(recovery_windows) !! sid = Some r ∧ r.(m_phase) = "COMPLETED".
Proof.
  intros Hd%commit_inv. revert Hd.
  unfold decide_anchor_cascade_in_tx, query_session_runtime, query_window_in_tx,
    master_cutover_inflight_in_tx, session_has_active_work. rw bind_gets. cbv beta.
  destruct (w.(w_db).(sessions) !! sid) as [s|]; [|done]. destruct (_ != _); [done|].
  rw bind_gets. cbv beta.
  destruct (w.(w_db).(recovery_windows) !! sid) as [r|] eqn:Hr; cbn [fmap option_fmap option_map].
  - unfold decision_for_existing_window. cbn [window_view mw_phase mw_defer_until mw_active_work].
    destruct (r.(m_phase) == "COMPLETED") eqn:H1.
    { intros [= <-]. exists r. split; [done|]. by apply bool_decide_eq_true in H1. }
    destruct (r.(m_phase) is_in ["FAILED"; "FUSED"]); [done|].
    destruct (r.(m_defer_until) <? now).
    { unfold mbind, M_bind. by destruct (expire_master_recovery_window_in_tx _ _ _) as [[]]. }
    by destruct r.(m_active_work).
  - rw bind_gets. cbv beta. destruct (cutover_in _ _ _); [done|]. rw bind_gets. cbv beta.
    destruct (_ || _); [|done]. unfold mbind, M_bind.
    by destruct (begin_master_recovery_window_in_tx _ _ _ _ _ _ _) as [[r|] w3].
Qed.

(** C30: the loss of an anchor ends the session, and nothing less does.  A turn of
    the watch in which any of its three probes finds the unit active, or cannot
    tell, changes nothing and goes on watching.  A turn that finds it inactive
    three times either stops watching with the session and everything in it
    ended; or goes on watching with agents and jobs untouched, and then either a
    recovery window with active work is open until a time not yet past and at
    most the allowed total after it opened, or the session is active, its recovery
    window is COMPLETED and its master's process is alive. *)
Theorem anchor_loss_ends_session host runner env sid turn w s :
  consistent w.(w_db) → master_ok (master_of w.(w_db)) → w.(w_db).(sessions) !! sid = Some s →
  if inactive_thrice turn then
    ∃ stop w', watch_turn host runner env sid turn w = (Ok stop, w') ∧
      if (stop : bool) then ∃ reason, session_ended sid reason w w'
      else still w w' ∧
        ((∃ r, w'.(w_db).(recovery_windows) !! sid = Some r ∧ is_terminal_phase r.(m_phase) = false ∧
           r.(m_active_work) = true ∧ turn.(wt_now) ≤ r.(m_defer_until) ∧
           r.(m_defer_until) ≤ r.(m_created_at) + MASTER_RECOVERY_WINDOW_MAX_TOTAL_SECS) ∨
         (∃ s', w'.(w_db).(sessions) !! sid = Some s' ∧ s'.(s_status) = "ACTIVE" ∧
           master_process_is_alive turn.(wt_alive) s'.(s_master_pid) = true ∧
           ∃ r, w'.(w_db).(recovery_windows) !! sid = Some r ∧ r.(m_phase) = "COMPLETED"))
  else watch_turn host runner env sid turn w = (Ok false, w).
Proof.
  intros Hc Hm Hs. rw watch_turn_confirmed. destruct (inactive_thrice turn); [|done].
  unfold handle_confirmed_anchor_inactive.
  destruct (decide_anchor_cascade_sync env sid turn.(wt_now) w) as [dec w1] eqn:Hdec.
  pose proof (still_decide env sid turn.(wt_now) w) as Hst. rw Hdec in Hst.
  rw (bind_ok _ _ w dec w1); [by unfold try_; rw Hdec|].
  assert (Hcascade : ∀ reason,
    ∃ stop w', (try_ (E:=CcbdError) (cascade_kill_session_agents_with_runner_sync host sid reason None
        runner);; emit (DropMonitor ("anchor:" +:+ sid));; mret true : M CcbdError bool) w1 =
      (Ok stop, w') ∧ stop = true ∧ ∃ reason, session_ended sid reason w w').
  { intros reason. destruct (cascade_after env host runner sid _ reason w w1 s dec Hc Hm Hs Hdec)
      as (n & w2 & Hrun & Hend).
    eexists true, _. erewrite bind_ok; [|unfold try_; rw Hrun; reflexivity].
    split; [reflexivity|]. split; [done|]. exists reason. by destruct Hend; split. }
  destruct dec as [[until phase|reason]|e]; cbn [anchor_cascade_reason].
  - exists false, w1. split; [done|]. split; [done|]. left.
    destruct (defer_inv env sid _ w w1 until phase Hm Hdec) as (r & Hr & Hp & Ht & Ha & Hd & Hb).
    exists r. rw Hp Hd. split_and!; try done; lia.
  - case_bool_decide as Hcompleted; cycle 1.
    { destruct (Hcascade reason) as (stop & w' & Hrun & -> & Hend). by exists true, w'. }
    destruct (session_where (λ s, s.(s_status) == "ACTIVE") sid w1.(w_db)) as [s1|] eqn:Hs1;
      [destruct (master_process_is_alive turn.(wt_alive) s1.(s_master_pid)) eqn:Hal|].
    2,3: destruct (Hcascade reason) as (stop & w' & Hrun & -> & Hend); exists true, w';
      split; [|done]; etrans; [|exact Hrun]; unfold completed_recovery_master_is_alive;
      step_pure; by rw Hs1 ?Hal.
    exists false, w1. split.
    + unfold completed_recovery_master_is_alive. step_pure. by rw Hs1 Hal.
    + apply session_where_Some in Hs1 as [Hs1 Hact%bool_decide_eq_true].
      split; [done|right]. exists s1. split_and!; [done..|]. rw Hcompleted in Hdec. exact (completed_inv _ _ _ _ _ Hdec).
  - destruct (Hcascade "ANCHOR_UNIT_STOPPED") as (stop & w' & Hrun & -> & Hend). by exists true, w'.
Qed.

End SessionWatch.
