(* ===== verification/SessionHandlers.v ===== *)
(** * Session requests ([src/src/rpc/handlers/sessions.rs],
      [src/src/rpc/handlers/master_cutover.rs])

    The handlers that create, kill and list sessions, acknowledge a cutover,
    roll one back and register what is told to a master.  A request is the
    [params] of its JSON-RPC message, an answer a JSON value.

    A handler is several calls on the database with tmux and systemd in
    between; [System] has the calls as its steps.  What tmux, systemd and the
    identifier generator answer is an input; what they are asked to do are
    effects. *)
From S2P Require Import Prelude Json Schema Sql MasterTables JobGate Invariant MasterSound AgentGate Text Sessions.
From S2P Require Import Cutovers MasterRecovery MasterRevival ReplyText Jobs StateMachine Agents Recovery Lifecycle.
From S2P Require Import JobsProofs LifecycleProofs MasterProofs Startup StartupProofs SessionWatch Tmux.

(** ** Inputs *)

Record EnvState : Type := MkEnvState {
  systemd_run_available : bool;
  unsafe_no_sandbox : bool;
  under_systemd : bool
}.

(** [rt_pane_of]: [agent_io::pane_id]; [rt_pane_killed]: what
    [kill_pane_if_owned] answers. *)
Record Runtime : Type := MkRuntime {
  rt_env : EnvState;
  rt_socket_name : string;
  rt_pane_of : string → option string;
  rt_pane_killed : string → Z → bool
}.

(** How [systemd-run] for an anchor ends: a failure to run it, or its status
    and what it printed. *)
Inductive AnchorRun : Type :=
| AnchorStarted
| AnchorRunError (err : string)
| AnchorRefused (stderr : string).

Definition session_anchors_enabled (env : EnvState) : bool :=
  env.(systemd_run_available) && (env.(unsafe_no_sandbox) || env.(under_systemd)).

Definition required_str (params : Value) (field : string) : Result string CcbdError :=
  match get_str field params with
  | Some s => Ok s
  | None => Err (IpcInvalidRequest ("missing or invalid field '" +:+ field +:+ "'"))
  end.

Definition is_terminal_session_status (status : string) : bool :=
  status is_in ["KILLED"; "FAILED"; "CLOSED"].

(** ** tmux names *)

Definition ascii_name_char (c : string) : bool :=
  match c with
  | String b EmptyString =>
      let n := Ascii.nat_of_ascii b in
      (bool_decide (48 ≤ n ≤ 57) || bool_decide (65 ≤ n ≤ 90) || bool_decide (97 ≤ n ≤ 122) ||
       (n == 95) || (n == 45))%nat
  | _ => false
  end.
Definition sanitize_tmux_name (s : string) : string :=
  concat_str ((λ c, if ascii_name_char c then c else "_") <$> chars s).
Definition master_session_name (project_id : string) : string :=
  "master_" +:+ sanitize_tmux_name project_id.

(** [TmuxPaneId::parse] *)
Definition parse_pane_id (value : string) : option string :=
  if starts_with value "%" then Some value else None.

Section SessionHandlers.
Context {EXT : Externals} {SPEC : SpawnSpecSerde}.

(** ** session.create *)

Definition create_session_anchor (run : AnchorRun) (unit_name : string) : Result unit CcbdError :=
  match run with
  | AnchorStarted => Ok tt
  | AnchorRunError err =>
      Err (EnvironmentNotSupported ("create session anchor " +:+ unit_name +:+ ": " +:+ err))
  | AnchorRefused stderr =>
      Err (EnvironmentNotSupported
             ("create session anchor " +:+ unit_name +:+ " failed: " +:+ trim stderr))
  end.

Definition handle_session_create (host : Host) (runner : SystemctlRunner) (rt : Runtime)
    (anchor : AnchorRun) (uuid : string) (params : Value) : M CcbdError Value :=
  project_id ← of_result (required_str params "project_id");
  absolute_path ← of_result (required_str params "absolute_path");
  let session_id := "sess_" +:+ uuid in
  create_session_sync session_id project_id absolute_path;;
  if session_anchors_enabled rt.(rt_env) then
    let unit_name := unit_name_for_session session_id in
    match create_session_anchor anchor unit_name with
    | Err err =>
        try_ (E:=CcbdError) (cascade_kill_session_agents_with_runner_sync host session_id
                "ANCHOR_CREATE_FAILED" None runner);;
        throw err
    | Ok _ =>
        emit (WatchAnchor session_id unit_name);;
        mret (json_object [("session_id", JString session_id)])
    end
  else mret (json_object [("session_id", JString session_id)]).

(** ** session.kill *)

Definition mark_terminal_session_killed (session_id : string) : M CcbdError unit :=
  update_session session_id (λ s, s.(s_status) != "ACTIVE")
    (λ s, set_s_master_state "IDLE" (set_s_status "KILLED" s));;
  mret tt.

Fixpoint kill_terminal_agents (session_id reason : string) (agent_ids : list string)
    (changed : nat) : M CcbdError nat :=
  match agent_ids with
  | [] => mret changed
  | agent_id :: rest =>
      row ← query_agent_row agent_id;
      match row with
      | None => throw (map_db_error "query terminal agent state" QueryReturnedNoRows)
      | Some previous =>
          now ← asks w_now;
          rows ← update_agent agent_id (λ a, (a.(a_session_id) == session_id) && tracked a)
                   (λ a, bump_version now (set_a_state "KILLED" a));
          if rows == 1%nat then
            mark_dispatched_jobs_failed_for_agent_conn_collect_sync agent_id reason;;
            insert_event_null "insert terminal killed state_change" agent_id "state_change"
              (json_object [("from", JString previous.(a_state)); ("to", JString "KILLED");
                            ("reason", JString reason)]);;
            kill_terminal_agents session_id reason rest (S changed)
          else kill_terminal_agents session_id reason rest changed
      end
  end.

Definition mark_terminal_session_agents_killed_db_only (session_id reason : string) :
    M CcbdError nat :=
  transaction (
    agent_ids ← gets (live_agent_ids session_id);
    changed ← kill_terminal_agents session_id reason agent_ids 0%nat;
    mret (Commit changed)).

Definition query_session_master_pid (session_id : string) : M CcbdError Z :=
  row ← gets (λ db, db.(sessions) !! session_id);
  match row with
  | Some s => mret s.(s_master_pid)
  | None => throw (map_db_error "query session master pid" QueryReturnedNoRows)
  end.

Definition stop_session_anchor (rt : Runtime) (session_id : string) : M CcbdError unit :=
  when (session_anchors_enabled rt.(rt_env)) (emit (StopUnit (unit_name_for_session session_id))).

(** The gateway seats and the sandbox directories of the agents and the master. *)
Definition release_seats (session_id : string) (agent_ids : list string) : M CcbdError unit :=
  for_ agent_ids (λ agent_id,
    emit (DeregisterGateway agent_id);; emit (RemoveSandboxDir session_id agent_id false));;
  emit (DeregisterGateway session_id);;
  emit (RemoveSandboxDir session_id "master" false).

(** The panes and tmux sessions of the agents, each only if it is still run by
    the process recorded for it. *)
Definition kill_agent_panes (rt : Runtime) (agent_ids : list string) : M CcbdError unit :=
  for_ agent_ids (λ agent_id,
    agent ← query_agent_sync agent_id;
    match agent ≫= a_pid with
    | Some pid =>
        match rt.(rt_pane_of) agent_id with
        | Some pane_id => emit (KillPane pane_id pid)
        | None => mret tt
        end;;
        emit (KillTmuxSession (agent_session_name agent_id) pid)
    | None => mret tt
    end).

Definition kill_master_pane (rt : Runtime) (session : SessionView) (master_pid : Z) :
    M CcbdError bool :=
  pane_killed ←
    match session.(sv_master_pane_id) ≫= parse_pane_id with
    | Some pane_id =>
        if 0 <? master_pid then
          emit (KillPane pane_id master_pid);; mret (rt.(rt_pane_killed) pane_id master_pid)
        else mret false
    | None => mret false
    end;
  when (0 <? master_pid)
    (emit (KillTmuxSession (master_session_name session.(sv_project_id)) master_pid));;
  mret (pane_killed : bool).

Definition session_killed_answer (session_id : string) (killed : nat) (pane_killed : bool) : Value :=
  json_object [("session_id", JString session_id); ("state", JString "KILLED");
               ("killed_agents", JNumber (Z.of_nat killed));
               ("master_pane_killed", JBool pane_killed)].

(** [force] only adds a log line. *)
Definition handle_session_kill (host : Host) (runner : SystemctlRunner) (rt : Runtime)
    (params : Value) : M CcbdError Value :=
  session_id ← of_result (required_str params "session_id");
  session ← query_session_by_id_sync session_id;
  match session with
  | None => throw (IpcInvalidRequest ("session not found: " +:+ session_id))
  | Some session =>
      agent_ids ← session_agent_ids_sync session_id;
      if is_terminal_session_status session.(sv_status) then
        mark_terminal_session_killed session_id;;
        stop_session_anchor rt session_id;;
        killed ← mark_terminal_session_agents_killed_db_only session_id "SESSION_KILL";
        release_seats session_id agent_ids;;
        mret (session_killed_answer session_id killed false)
      else
        master_pid ← query_session_master_pid session_id;
        mark_session_intentional_killed session_id;;
        stop_session_anchor rt session_id;;
        killed ← cascade_kill_session_agents_with_runner_sync host session_id "SESSION_KILL"
                   (Some rt.(rt_socket_name)) runner;
        kill_agent_panes rt agent_ids;;
        release_seats session_id agent_ids;;
        pane_killed ← kill_master_pane rt session master_pid;
        mret (session_killed_answer session_id killed pane_killed)
  end.

(** ** session.list *)

Definition as_bool (v : Value) : option bool := match v with JBool b => Some b | _ => None end.

Definition summary_json (s : SessionSummary) : Value :=
  json_object [("id", JString s.(ssu_id)); ("project_id", JString s.(ssu_project_id));
    ("absolute_path", JString s.(ssu_absolute_path)); ("status", JString s.(ssu_status));
    ("master_state", JString s.(ssu_master_state));
    ("master_pane_id", json_opt JString s.(ssu_master_pane_id));
    ("db_tracked_agents", JNumber s.(ssu_db_tracked_agents));
    ("active_agents", JNumber s.(ssu_active_agents)); ("created_at", JNumber s.(ssu_created_at))].

Definition handle_session_list (params : Value) : M CcbdError Value :=
  let all := default false (value_get "all" params ≫= as_bool) in
  sessions ← list_session_summaries_sync;
  mret (json_object [("sessions", JArray (summary_json <$>
    filter (λ s, all || negb (is_terminal_session_status s.(ssu_status)) = true) sessions))]).

(** ** Cutovers and tells *)

Definition handle_master_ack_ready (params : Value) : M CcbdError Value :=
  cutover_id ← of_result (required_str params "cutover_id");
  update ← mark_master_cutover_ack_ready cutover_id "ack";
  match update with
  | Updated =>
      mret (json_object [("cutover_id", JString cutover_id); ("readiness_mode", JString "ack");
                         ("ack_ready", JBool true)])
  | CutoverStale =>
      throw (IpcInvalidRequest ("master cutover " +:+ cutover_id +:+ " not in VERIFYING"))
  end.

Definition handle_master_tell_begin (params : Value) : M CcbdError Value :=
  session_id ← of_result (required_str params "session_id");
  request_id ← of_result (required_str params "request_id");
  pane_id ← of_result (required_str params "pane_id");
  changes ← master_tell_begin_sync session_id request_id;
  if changes == 0%nat then
    throw (IpcInvalidRequest ("active session not found: " +:+ session_id))
  else
  mret (json_object [("session_id", JString session_id); ("request_id", JString request_id);
                     ("pane_id", JString pane_id); ("registered", JBool true)]).

(** The pane, the stage and the reason of the request are only logged. *)
Definition handle_master_tell_failed (params : Value) : M CcbdError Value :=
  session_id ← of_result (required_str params "session_id");
  request_id ← of_result (required_str params "request_id");
  changes ← master_tell_failed_sync session_id request_id;
  mret (json_object [("session_id", JString session_id); ("request_id", JString request_id);
                     ("cleared_pending", JBool (bool_decide (0 < changes)%nat))]).

(** The session of a cutover that did not come to its end. *)
Definition fail_rolled_back_session (session_id : string) : M CcbdError unit :=
  changes ← update_session session_id (λ s, s.(s_status) == "ACTIVE") (set_s_status "FAILED");
  when (bool_decide (0 < changes)%nat) (notify_runtime_changed InventoryChanged).

(** Every failure inside is logged and passed over. *)
Definition rollback_master_cutover_scope (cutover_id session_id : string) : M CcbdError unit :=
  cutover ← get_master_cutover cutover_id;
  match cutover with
  | Some c =>
      match mc_new_master_pane_id c ≫= parse_pane_id, mc_new_master_pid c with
      | Some pane_id, Some pid => emit (KillPane pane_id pid)
      | _, _ => mret tt
      end;;
      when (mc_state c is_in ["PREPARING"; "SPAWNING"; "VERIFYING"])
        (try_ (E:=CcbdError) (update_master_cutover_state cutover_id (mc_state c) "FAILED");; mret tt);;
      emit (RemoveHandoff (mc_handoff_path c))
  | None => mret tt
  end;;
  agent_ids ← session_agent_ids_sync session_id;
  for_ agent_ids (λ agent_id,
    emit (CleanupRuntime agent_id (Some session_id) CleanupDefault);;
    emit (RemoveSandboxDir session_id agent_id false));;
  match cutover ≫= mc_new_master_generation with
  | Some generation => emit (DropMonitor (master_monitor_key session_id generation))
  | None => mret tt
  end;;
  emit (RemoveSandboxDir session_id "master" false);;
  fail_rolled_back_session session_id.

(** ** Soundness *)

Lemma sound_terminal_session sid : respects sound (mark_terminal_session_killed sid).
Proof.
  unfold mark_terminal_session_killed. solve_respects.
Qed.

Lemma sound_kill_terminal sid reason ids n :
  respects sound (kill_terminal_agents sid reason ids n).
Proof.
  induction ids in n |- *; cbn [kill_terminal_agents]; unfold query_agent_row; solve_respects.
Qed.
#[local] Hint Resolve sound_kill_terminal : respects.

Lemma sound_terminal_agents sid reason :
  respects sound (mark_terminal_session_agents_killed_db_only sid reason).
Proof. unfold mark_terminal_session_agents_killed_db_only. solve_respects. Qed.

Lemma sound_fail_rolled_back sid : respects sound (fail_rolled_back_session sid).
Proof.
  unfold fail_rolled_back_session. solve_respects.
Qed.

(** ** session.kill ends the session *)

Lemma kill_terminal_run sid reason ids n w :
  consistent w.(w_db) → NoDup ids →
  (∀ id, id ∈ ids → ∃ a, w.(w_db).(agents) !! id = Some a ∧
                          (a.(a_session_id) == sid) && tracked a = true) →
  ∃ w', kill_terminal_agents sid reason ids n w = (Ok (n + length ids)%nat, w') ∧
        ended (kill_row w.(w_now)) ((λ id, (id, reason)) <$> ids) w w'.
Proof.
  induction ids as [|id ids IH] in n, w |- *; intros Hc Hnd Hin.
  { exists w. rw Nat.add_0_r. split; [done|by apply ended_nil]. }
  apply NoDup_cons in Hnd as [Hni Hnd]. destruct (Hin id ltac:(by left)) as (a & Ha & Hg).
  destruct (kill_steps w id a reason (λ a, (a.(a_session_id) == sid) && tracked a)
    "insert terminal killed state_change" Hc Ha Hg)
    as (w1 & w2 & w3 & r & seq & Hup & Hfail & Hev & Hend).
  destruct (IH (S n) w3) as (w4 & Hrun & Hend4); [apply (en_consistent _ _ _ _ Hend)|done| |].
  { intros k Hk. destruct (Hin k ltac:(by right)) as (b & Hb & Hgb). exists b. split; [|done].
    rw (en_agents _ _ _ _ Hend) Hb /= reason_of_cons bool_decide_false //. by intros ->. }
  exists w4. split.
  - cbn [kill_terminal_agents]. unfold query_agent_row. step_pure. rw Ha. step_pure.
    rw (bind_ok _ _ _ _ _ Hup). change (1%nat == 1%nat) with true. cbv iota.
    rw (bind_ok _ _ _ _ _ Hfail). cbv beta. rw (bind_ok _ _ _ _ _ Hev). cbv beta.
    etrans; [exact Hrun|]. do 2 f_equal. cbn [length]. lia.
  - cbn [fmap list_fmap]. apply (ended_cons _ _ _ _ _ w3); [by rw fst_pairs|done|].
    by rw -(en_now _ _ _ _ Hend).
Qed.

Lemma terminal_agents_run sid reason w w1 s :
  consistent w1.(w_db) → still w w1 → db_wf w.(w_db) →
  w1.(w_db).(sessions) !! sid = Some s → s.(s_status) ≠ "ACTIVE" →
  ∃ w', mark_terminal_session_agents_killed_db_only sid reason w1 =
          (Ok (length (live_agent_ids sid w.(w_db))), w') ∧ session_ended sid reason w w'.
Proof.
  intros Hc (Hn & Ha & Hj) Hwf Hs Hst. destruct (live_ids_spec sid w.(w_db) Hwf) as [Hnd Hin].
  assert (Hlive : live_agent_ids sid w1.(w_db) = live_agent_ids sid w.(w_db)).
  { unfold live_agent_ids, session_agents. by rw Ha. }
  destruct (kill_terminal_run sid reason (live_agent_ids sid w.(w_db)) 0 w1 Hc Hnd)
    as (w' & Hrun & Hend).
  { intros id (a & Hid & Hsid & Ht)%Hin. exists a. rw Ha Ht. by rw bool_decide_true. }
  exists w'. split.
  - apply transaction_ok. step_pure. rw Hlive. by rw (bind_ok _ _ _ _ _ Hrun).
  - rw Hn in Hend. by apply (ended_session _ _ _ w1 _ s).
Qed.

(** Computations that succeed and only publish. *)
Definition publishes {A : Type} (m : M CcbdError A) : Prop :=
  ∀ w, ∃ a out, m w = (Ok a, set_out out w).

Lemma publishes_ret {A} (a : A) : publishes (mret a).
Proof. intros w. exists a, w.(w_out). by destruct w. Qed.
Lemma publishes_emit e : publishes (emit e).
Proof. intros w. eexists tt, _. reflexivity. Qed.
Lemma publishes_gets {A} (f : Db → A) : publishes (gets f).
Proof. intros w. eexists _, w.(w_out). by destruct w. Qed.
Lemma publishes_bind {A B} (m : M CcbdError A) (k : A → M CcbdError B) :
  publishes m → (∀ a, publishes (k a)) → publishes (m ≫= k).
Proof.
  intros Hm Hk w. destruct (Hm w) as (a & out & Hrun).
  destruct (Hk a (set_out out w)) as (b & out' & Hrun'). exists b, out'.
  by rw (bind_ok _ _ _ _ _ Hrun) Hrun'.
Qed.
Lemma publishes_for {A} (l : list A) (f : A → M CcbdError unit) :
  (∀ x, publishes (f x)) → publishes (for_ l f).
Proof.
  intros Hf. induction l as [|x l IH]; cbn [for_]; [apply publishes_ret|]. by apply publishes_bind.
Qed.

Ltac solve_publishes :=
  repeat first
    [ apply publishes_bind; [|intros ?] | apply publishes_for; intros ? | apply publishes_ret
    | apply publishes_emit | apply publishes_gets | progress unfold when
    | lazymatch goal with |- publishes (match ?x with _ => _ end) => destruct x end ].

Lemma publishes_release sid ids : publishes (release_seats sid ids).
Proof. unfold release_seats. solve_publishes. Qed.
Lemma publishes_agent_panes rt ids : publishes (kill_agent_panes rt ids).
Proof. unfold kill_agent_panes, query_agent_sync, query_agent_row. solve_publishes. Qed.
Lemma publishes_master_pane rt s pid : publishes (kill_master_pane rt s pid).
Proof. unfold kill_master_pane. solve_publishes. Qed.
Lemma publishes_anchor rt sid : publishes (stop_session_anchor rt sid).
Proof. unfold stop_session_anchor. solve_publishes. Qed.

Lemma session_ended_out sid reason w w' out :
  session_ended sid reason w w' → session_ended sid reason w (set_out out w').
Proof. by intros []; split. Qed.

(** The part of the handler for a session that ended before. *)
Lemma kill_terminal_part rt sid w s ids :
  consistent w.(w_db) → w.(w_db).(sessions) !! sid = Some s → s.(s_status) ≠ "ACTIVE" →
  ∃ w', (mark_terminal_session_killed sid;; stop_session_anchor rt sid;;
         killed ← mark_terminal_session_agents_killed_db_only sid "SESSION_KILL";
         release_seats sid ids;; mret (session_killed_answer sid killed false)) w =
      (Ok (session_killed_answer sid (length (live_agent_ids sid w.(w_db))) false), w') ∧
    session_ended sid "SESSION_KILL" w w'.
Proof.
  intros Hc Hs Hst. set (s' := set_s_master_state "IDLE" (set_s_status "KILLED" s)).
  assert (Hrun : mark_terminal_session_killed sid w = (Ok tt, put_session sid s' w)).
  { unfold mark_terminal_session_killed. erewrite bind_ok; [reflexivity|].
    rw update_session_run /session_where Hs /=. by rw bool_decide_false. }
  assert (Hc1 : consistent (put_session sid s' w).(w_db)).
  { exact (sound_step _ _ _ _ (sound_terminal_session sid) Hrun Hc). }
  destruct (publishes_anchor rt sid (put_session sid s' w)) as ([] & out & Hout).
  set (w1 := set_out out (put_session sid s' w)) in Hout.
  destruct (terminal_agents_run sid "SESSION_KILL" w w1 s') as (w2 & Hrun2 & Hend);
    [done|done|apply Hc|apply put_session_lookup|done|].
  destruct (publishes_release sid ids w2) as ([] & out2 & Hout2).
  exists (set_out out2 w2). split; [|by apply session_ended_out].
  rw (bind_ok _ _ _ _ _ Hrun) (bind_ok _ _ _ _ _ Hout) (bind_ok _ _ _ _ _ Hrun2).
  by rw (bind_ok _ _ _ _ _ Hout2).
Qed.

(** The part of the handler for an active session. *)
Lemma kill_active_part host runner rt sid w s view ids :
  consistent w.(w_db) → session_ok s → w.(w_db).(sessions) !! sid = Some s →
  s.(s_status) = "ACTIVE" →
  ∃ pane w', (master_pid ← query_session_master_pid sid;
      mark_session_intentional_killed sid;; stop_session_anchor rt sid;;
      killed ← cascade_kill_session_agents_with_runner_sync host sid "SESSION_KILL"
                 (Some rt.(rt_socket_name)) runner;
      kill_agent_panes rt ids;; release_seats sid ids;;
      pane_killed ← kill_master_pane rt view master_pid;
      mret (session_killed_answer sid killed pane_killed)) w =
      (Ok (session_killed_answer sid (length (live_agent_ids sid w.(w_db))) pane), w') ∧
    session_ended sid "SESSION_KILL" w w'.
Proof.
  intros Hc Hok Hs Hst. set (s' := end_session "KILLED" "INTENTIONAL_KILL" s).
  set (w0 := add_effect (SendRuntimeUpdate InventoryChanged) (put_session sid s' w)).
  assert (Hrun : mark_session_intentional_killed sid w = (Ok 1%nat, w0)).
  { unfold mark_session_intentional_killed. erewrite bind_ok; cycle 1.
    { rw update_session_run /session_where Hs /=. rw bool_decide_true //. }
    reflexivity. }
  pose proof (sound_run _ _ _ _ (sound_intentional_killed sid) Hrun) as [Hev Hcons].
  destruct (publishes_anchor rt sid w0) as ([] & out & Hout). set (w1 := set_out out w0) in Hout.
  destruct (cascade_run host sid "SESSION_KILL" (Some rt.(rt_socket_name)) runner w1 s')
    as (w2 & Hrun2 & Hend); [by apply Hcons| |apply put_session_lookup|].
  { destruct Hok. split; simpl; try done; solve_const_in. }
  destruct (publishes_agent_panes rt ids w2) as ([] & out2 & Hout2).
  destruct (publishes_release sid ids (set_out out2 w2)) as ([] & out3 & Hout3).
  destruct (publishes_master_pane rt view s.(s_master_pid) (set_out out3 (set_out out2 w2)))
    as (pane & out4 & Hout4).
  exists pane, (set_out out4 w2). split.
  - unfold query_session_master_pid. rw (bind_ok _ _ _ s.(s_master_pid) w); [by step_pure; rw Hs|].
    rw (bind_ok _ _ _ _ _ Hrun) (bind_ok _ _ _ _ _ Hout) (bind_ok _ _ _ _ _ Hrun2).
    rw (bind_ok _ _ _ _ _ Hout2) (bind_ok _ _ _ _ _ Hout3). by rw (bind_ok _ _ _ _ _ Hout4).
  - by apply session_ended_out, (session_ended_still _ _ _ w1).
Qed.

(** C28: killing a session ends it, whatever state it was in.  The request fails,
    and changes nothing, when it names no session or one that does not exist;
    otherwise it succeeds, whatever tmux and systemd answer: active or ended
    before, the session is then not active, and exactly the agents still
    tracked in it are killed, with their dispatched jobs failed; the answer
    counts them. *)
Theorem session_kill_ends_session host runner rt params w :
  consistent w.(w_db) → master_ok (master_of w.(w_db)) →
  match required_str params "session_id" with
  | Err e => handle_session_kill host runner rt params w = (Err e, w)
  | Ok sid =>
      if bool_decide (is_Some (w.(w_db).(sessions) !! sid)) then
        ∃ answer w', handle_session_kill host runner rt params w = (Ok answer, w') ∧
          session_ended sid "SESSION_KILL" w w' ∧
          value_get "killed_agents" answer =
            Some (JNumber (Z.of_nat (length (live_agent_ids sid w.(w_db)))))
      else handle_session_kill host runner rt params w =
             (Err (IpcInvalidRequest ("session not found: " +:+ sid)), w)
  end.
Proof.
  intros Hc Hm. unfold handle_session_kill.
  destruct (required_str params "session_id") as [sid|e]; [|done].
  rw (bind_ok _ _ w sid w) //. unfold query_session_by_id_sync. step_pure.
  destruct (w.(w_db).(sessions) !! sid) as [s|] eqn:Hs; [|done].
  rw bool_decide_true; [by eexists|]. cbn [mbind option_bind].
  pose proof (mo_session _ Hm _ _ Hs) as Hok.
  destruct (mo_session_project _ Hm _ _ Hs) as [p Hp]. mt_simpl.
  unfold session_view. rw Hp. cbn [fmap option_fmap option_map]. unfold session_agent_ids_sync.
  step_pure. cbn [sv_status]. destruct (is_terminal_session_status s.(s_status)) eqn:Ht.
  - destruct (kill_terminal_part rt sid w s (a_id <$> session_workers sid w.(w_db)) Hc Hs)
      as (w' & Hrun & Hend); [|by eexists _, w'].
    intros Heq. unfold is_terminal_session_status in Ht. by rw Heq in Ht.
  - assert (Hst : s.(s_status) = "ACTIVE").
    { pose proof (so_status _ Hok). apply bool_decide_eq_false in Ht.
      unfold SESSION_STATUSES in *. set_solver. }
    edestruct (kill_active_part host runner rt sid w s) as (pane & w' & Hrun & Hend);
      [done..|]. eexists _, w'. split; [exact Hrun|done].
Qed.

End SessionHandlers.

#[export] Hint Resolve sound_terminal_session sound_terminal_agents sound_fail_rolled_back : respects.
