(* ===== verification/Spawn.v ===== *)
(** * Command lines of agents and masters ([src/src/platform/linux/scope.rs],
      [bridge_wrapper_shell] of [src/src/claude_gateway.rs],
      [check_environment_with] of [src/src/sandbox/mod.rs])

    An agent runs in a transient systemd scope whose description names the agent
    and the daemon; the same description is how cleanup finds the scope again.
    A Claude agent is started behind a bridge to the gateway, by a shell. *)
From S2P Require Import Prelude Json Schema Sql MasterTables Text Base64 Gateway Shell Providers Startup.
From S2P Require Import SessionHandlers.
From Stdlib Require Import Ascii.

(** ** Data *)

Record RecoverySpawn : Type := MkRecoverySpawn {
  rs_is_recovery : bool;
  rs_args : list string
}.

(** [ReadOnlyBind] and [ReadWriteBind] have the same fields. *)
Record Bind : Type := MkBind { host_path : string; sandbox_path : string }.

Record SandboxOverrides : Type := MkSandboxOverrides {
  extra_ro_binds : list Bind;
  extra_binds : list Bind
}.

Definition no_overrides : SandboxOverrides := MkSandboxOverrides [] [].

(** ** The environment check *)

Definition check_environment_with (unsafe_no_sandbox systemd_run_probe under_systemd
    xdg_runtime_dir_probe user_manager_reachable_probe : bool) : Result EnvState CcbdError :=
  if unsafe_no_sandbox then Ok (MkEnvState systemd_run_probe unsafe_no_sandbox under_systemd)
  else if negb systemd_run_probe then
    Err (EnvironmentNotSupported
      "systemd-run not found in PATH; ccbd-rust requires Linux + systemd user session")
  else if negb xdg_runtime_dir_probe then
    Err (EnvironmentNotSupported
      "systemd user manager environment is missing; XDG_RUNTIME_DIR is required for systemd-run --user --scope")
  else if negb user_manager_reachable_probe then
    Err (EnvironmentNotSupported
      "systemd user manager is not reachable; systemd-run --user --scope would fail")
  else Ok (MkEnvState systemd_run_probe unsafe_no_sandbox under_systemd).

(** ** Slices *)

Definition is_ascii_alphanumeric (c : ascii) : bool :=
  let n := nat_of_ascii c in
  bool_decide (48 ≤ n ≤ 57)%nat || bool_decide (65 ≤ n ≤ 90)%nat || bool_decide (97 ≤ n ≤ 122)%nat.

Definition DASH : ascii := ascii_of_nat 45.

Fixpoint map_bytes (f : ascii → ascii) (s : string) : string :=
  match s with EmptyString => "" | String c s' => String (f c) (map_bytes f s') end.

Definition slice_byte (c : ascii) : ascii :=
  if is_ascii_alphanumeric c || bool_decide (c = DASH) then c else DASH.

Fixpoint trim_start_dashes (s : string) : string :=
  match s with
  | String c s' => if bool_decide (c = DASH) then trim_start_dashes s' else s
  | EmptyString => ""
  end.

Fixpoint trim_end_dashes (s : string) : string :=
  match s with
  | String c s' =>
      let t := trim_end_dashes s' in
      if bool_decide (c = DASH) && (t == "") then "" else String c t
  | EmptyString => ""
  end.

Definition sanitize_project_id (project_id : string) : string :=
  let sanitized := trim_end_dashes (trim_start_dashes (map_bytes slice_byte project_id)) in
  if sanitized == "" then "project" else sanitized.

Definition agent_slice_for_project (project_id : string) : string :=
  "ccb-" +:+ sanitize_project_id project_id +:+ "-ccbd-agents.slice".
Definition workspace_slice_for_project (project_id : string) : string :=
  "ccb-" +:+ sanitize_project_id project_id +:+ "-ccbd-workspace.slice".

(** ** Options of [systemd-run] *)

Definition append_daemon_unit_dependencies (daemon_unit : option string) : list string :=
  match daemon_unit with
  | None => []
  | Some unit => ["--property=BindsTo=" +:+ unit; "--property=PartOf=" +:+ unit]
  end.

Definition append_read_only_bind_overrides (overrides : SandboxOverrides) : list string :=
  ((λ b, "--property=BindPaths=" +:+ b.(host_path) +:+ ":" +:+ b.(sandbox_path)) <$>
     overrides.(extra_binds)) ++
  ((λ b, "--property=BindReadOnlyPaths=" +:+ b.(host_path) +:+ ":" +:+ b.(sandbox_path)) <$>
     overrides.(extra_ro_binds)).

Definition scope_description (agent_id daemon_marker : string) : string :=
  "ccbd-agent-" +:+ agent_id +:+ "@" +:+ daemon_marker.

(** [active_daemon_unit_or_none_with_runner] *)
Definition active_daemon_unit_or_none (daemon_unit : option string)
    (unit_is_active : string → Result bool string) : option string :=
  match daemon_unit with
  | None => None
  | Some unit => match unit_is_active unit with Ok true => Some unit | _ => None end
  end.

(** ** The bridge to the gateway *)

(** [root.join(name)] for a relative [name] *)
Definition path_join (root name : string) : string :=
  if root == "" then name
  else if ends_with root "/" then root +:+ name else root +:+ "/" +:+ name.

Definition bridge_wrapper_shell (inner_command ah_bin uds_path sandbox_root : string) : string :=
  let bridge_err := shell_quote (path_join sandbox_root "bridge.err") in
  let port_file := shell_quote (path_join sandbox_root "bridge.port") in
  "rm -f " +:+ port_file +:+ "; " +:+ shell_quote ah_bin +:+ " internal-bridge --uds " +:+
  shell_quote uds_path +:+ " --port-file " +:+ port_file +:+ " 2>" +:+ bridge_err +:+
  " & bridge_pid=$!; i=0; while [ " +:+ quoted "$i" +:+ " -lt 50 ]; do test -s " +:+ port_file +:+
  " && break; i=$((i + 1)); sleep 0.1; done; if ! test -s " +:+ port_file +:+ "; then echo " +:+
  quoted "bridge process did not write port file within 5s" +:+ " >>" +:+ bridge_err +:+
  "; kill " +:+ quoted "$bridge_pid" +:+ " 2>/dev/null; exit 126; fi; port=$(cat " +:+ port_file +:+
  "); ANTHROPIC_BASE_URL=" +:+ quoted "http://localhost:$port" +:+ " exec sh -lc " +:+
  shell_quote inner_command.

Definition GATEWAY_SANDBOX_ROOT_ENV : string := "AH_CLAUDE_GATEWAY_SANDBOX_ROOT".

Definition claude_gateway_bind_context (extra : gmap string string) : option string :=
  extra !! GATEWAY_SANDBOX_ROOT_ENV.

(** [resolved] is what looking for the [ah] binary answers. *)
Definition claude_gateway_bridge_shell_with_ah_resolver (inner : string)
    (extra : gmap string string) (ah_bin : option string) (resolved : Result string string) :
    option string :=
  sandbox_root ← claude_gateway_bind_context extra;
  Some (match (match ah_bin with Some bin => Ok bin | None => resolved end) with
        | Ok bin => bridge_wrapper_shell inner bin SANDBOX_UDS_PATH sandbox_root
        | Err err => "echo " +:+ shell_quote err +:+ " >&2; exit 126"
        end).

Definition claude_gateway_bridge_shell (inner : string) (extra : gmap string string)
    (ah_bin : option string) (resolved : Result string string) : option string :=
  claude_gateway_bridge_shell_with_ah_resolver inner extra ah_bin resolved.

(** ** Commands *)

Definition is_master_env (extra : gmap string string) : bool := (extra !! "AH_ROLE") == Some "master".

Definition assignment (kv : string * string) : string := kv.1 +:+ "=" +:+ kv.2.

(** [env], without the agent's id for a master, and the assignments *)
Definition env_prefix (extra : gmap string string) (entries : list string) : list string :=
  if negb (entries == []) || is_master_env extra then
    "env" :: (if is_master_env extra then ["-u"; "AH_AGENT_ID"] else []) ++ entries
  else [].

Definition uses_gateway (extra : gmap string string) : bool :=
  (extra !! "CLAUDE_CODE_USE_GATEWAY") == Some "1".

(** [env_entries.sort()] *)
Definition string_le : relation string := λ a b, String.leb a b = true.
#[global] Instance string_le_dec : RelDecision string_le.
Proof. unfold string_le. intros a b. apply _. Defined.

Definition sorted_assignments (extra : gmap string string) : list string :=
  order_by string_le (assignment <$> map_to_list extra).

Section Commands.
Context {GX : GatewayExternals}.

(** The words of the provider's command, before any wrapping. *)
Definition provider_words (manifest : ProviderManifest) (host : string → option string)
    (extra : gmap string string) (recovery : RecoverySpawn) : list string :=
  env_prefix extra (assignment <$> collect_spawn_env manifest host extra) ++
  manifest.(command) ++
  (if recovery.(rs_is_recovery) then
     if recovery.(rs_args) == [] then manifest.(resume_args) else recovery.(rs_args)
   else []).

Definition command_with_env_prefix (manifest : ProviderManifest) (host : string → option string)
    (extra : gmap string string) (recovery : RecoverySpawn) (resolved : Result string string) :
    list string :=
  let cmd := provider_words manifest host extra recovery in
  if (manifest.(provider_name) == "claude") && uses_gateway extra then
    match claude_gateway_bridge_shell (join " " cmd) extra None resolved with
    | Some shell => ["sh"; "-lc"; shell]
    | None => cmd
    end
  else cmd.

Definition scope_options (agent_id project_id daemon_marker : string) (env : EnvState)
    (daemon_unit : option string) (overrides : SandboxOverrides) : list string :=
  ["systemd-run"; "--user"; "--scope"; "--collect";
   "--description=" +:+ scope_description agent_id daemon_marker] ++
  (if env.(under_systemd) then
     ("--slice=" +:+ agent_slice_for_project project_id) ::
       append_daemon_unit_dependencies daemon_unit
   else []) ++
  append_read_only_bind_overrides overrides.

Definition wrap_command_with_recovery_and_sandbox_overrides (agent_id project_id daemon_marker : string)
    (env : EnvState) (recovery : RecoverySpawn) (daemon_unit : option string)
    (manifest : ProviderManifest) (host : string → option string) (extra : gmap string string)
    (overrides : SandboxOverrides) (resolved : Result string string) : list string :=
  if env.(unsafe_no_sandbox) then command_with_env_prefix manifest host extra recovery resolved
  else scope_options agent_id project_id daemon_marker env daemon_unit overrides ++
       ["--"] ++ command_with_env_prefix manifest host extra recovery resolved.

Definition wrap_command_with_recovery (agent_id project_id daemon_marker : string)
    (env : EnvState) (recovery : RecoverySpawn) (daemon_unit : option string)
    (manifest : ProviderManifest) (host : string → option string) (extra : gmap string string)
    (resolved : Result string string) : list string :=
  wrap_command_with_recovery_and_sandbox_overrides agent_id project_id daemon_marker env recovery
    daemon_unit manifest host extra no_overrides resolved.

Definition shell_command_with_env_prefix (shell_cmd : string) (extra : gmap string string) :
    list string :=
  env_prefix extra (sorted_assignments extra) ++ ["sh"; "-lc"; shell_cmd].

Definition OOM_SHELL : string :=
  "echo 500 > /proc/self/oom_score_adj 2>/dev/null || { echo 'ccbd master failed to set oom_score_adj=500' >&2; exit 126; }; exec sh -lc " +:+
  quoted "$1".

Definition master_shell_command_with_env_prefix (shell_cmd : string) (extra : gmap string string)
    (resolved : Result string string) : list string :=
  let command :=
    if uses_gateway extra then
      default shell_cmd (claude_gateway_bridge_shell shell_cmd extra None resolved)
    else shell_cmd in
  env_prefix extra (sorted_assignments extra) ++ ["sh"; "-lc"; OOM_SHELL; "sh"; command].

Definition master_command_with_env (project_id cmd : string) (env : EnvState)
    (daemon_unit : option string) (extra : gmap string string) (overrides : SandboxOverrides)
    (resolved : Result string string) : list string :=
  if env.(unsafe_no_sandbox) || negb env.(systemd_run_available) then
    shell_command_with_env_prefix cmd extra
  else
    ["systemd-run"; "--user"; "--scope"; "--collect"] ++
    (if env.(under_systemd) then
       ("--slice=" +:+ workspace_slice_for_project project_id) ::
         append_daemon_unit_dependencies daemon_unit
     else []) ++
    append_read_only_bind_overrides overrides ++ ["--"] ++
    master_shell_command_with_env_prefix cmd extra resolved.

End Commands.

(** ** Facts *)

Definition is_option (o : string) : Prop := starts_with o "--" = true ∧ o ≠ "--".

Lemma scope_options_spec agent_id project_id marker env daemon_unit overrides :
  ∃ opts, scope_options agent_id project_id marker env daemon_unit overrides = "systemd-run" :: opts ∧
    Forall is_option opts ∧ "--description=" +:+ scope_description agent_id marker ∈ opts.
Proof.
  eexists. split; [reflexivity|]. split.
  - repeat (apply Forall_cons; split; [by split|]). apply Forall_app. split.
    + destruct (under_systemd env); [|done]. apply Forall_cons; split; [by split|].
      destruct daemon_unit; [|done]. by repeat (apply Forall_cons; split; [by split|]).
    + apply Forall_app. split; apply Forall_fmap, Forall_true; by split.
  - set_solver.
Qed.

(** Options come before the first ["--"], the command after it. *)
Lemma split_at_dashes opts cmd opts' cmd' :
  Forall is_option opts → Forall is_option opts' →
  opts ++ "--" :: cmd = opts' ++ "--" :: cmd' → opts = opts' ∧ cmd = cmd'.
Proof.
  intros Ho Ho'. revert opts' Ho'. induction Ho as [|o opts [_ Hne] Ho IH]; intros opts' Ho' Heq.
  - destruct Ho' as [|o' opts' [_ Hne'] Ho']; simplify_list_eq; done.
  - destruct Ho' as [|o' opts' Ho1 Ho']; simplify_list_eq.
    destruct (IH opts' Ho') as [-> ->]; done.
Qed.

Section SpawnFacts.
Context {GX : GatewayExternals}.

(** an agent is started in a scope that cleanup can find.  A sandboxed spawn
    is [systemd-run], then options, then ["--"], then the provider's command:
    nothing the caller names (agent, project, unit, bind paths) is taken for a
    word of the command, and the command is not taken for an option.  The
    description is one under which the scope counts as this daemon's, killing
    the agent finds it, and the orphan sweep leaves it alone while the agent is
    worth a scope. *)
Theorem spawned_scope_is_found agent_id project_id marker env recovery daemon_unit manifest host extra
    overrides resolved :
  env.(unsafe_no_sandbox) = false →
  ∃ opts,
    wrap_command_with_recovery_and_sandbox_overrides agent_id project_id marker env recovery
      daemon_unit manifest host extra overrides resolved =
    "systemd-run" :: opts ++ "--" :: command_with_env_prefix manifest host extra recovery resolved ∧
    (∀ opts' cmd', Forall is_option opts' →
       opts ++ "--" :: command_with_env_prefix manifest host extra recovery resolved =
         opts' ++ "--" :: cmd' →
       opts' = opts ∧ cmd' = command_with_env_prefix manifest host extra recovery resolved) ∧
    ∃ description, "--description=" +:+ description ∈ opts ∧
      ∀ unit_name, let scope := MkScopeUnit unit_name description in
        is_own_ccbd_scope scope marker = true ∧
        (∀ ids, agent_id ∈ ids → is_Some (scope_agent marker ids scope)) ∧
        ∀ db, agent_id ∈ active_session_and_agent_refs db →
          is_orphan_scope scope (active_session_and_agent_refs db) = false.
Proof.
  intros Hsafe. unfold wrap_command_with_recovery_and_sandbox_overrides. rw Hsafe.
  destruct (scope_options_spec agent_id project_id marker env daemon_unit overrides)
    as (opts & -> & Hopts & Hd).
  exists opts. split; [done|]. split.
  { intros opts' cmd' Ho' Heq. by destruct (split_at_dashes _ _ _ _ Hopts Ho' Heq) as [-> ->]. }
  exists (scope_description agent_id marker). split; [done|]. intros unit_name. simpl. split_and!.
  - unfold is_own_ccbd_scope, scope_description. cbn [su_description].
    rw -!string_app_assoc. rw (string_app_assoc _ "@" marker). apply contains_suffix.
  - intros ids Hin. unfold scope_agent. destruct (List.find _ ids) eqn:Hf; [eauto|].
    pose proof (List.find_none _ _ Hf agent_id (proj1 (list_elem_of_In _ _) Hin)) as Hn.
    cbn [su_description] in Hn. unfold agent_scope_needle, scope_description in Hn.
    rw (contains_suffix "") in Hn. done.
  - intros db Hin. unfold is_orphan_scope. apply negb_false_iff, existsb_exists.
    exists agent_id. split; [by apply list_elem_of_In|]. cbn [su_unit su_description].
    unfold scope_description. rw -(string_app_assoc " ") -(string_app_assoc unit_name).
    apply contains_mid.
Qed.

(** The bridge's shell ends in the agent's command as one quoted word, and that
    word, read by the inner shell, is the command when every word of it is
    plain. *)
Theorem gateway_command_runs_words manifest host extra recovery bin root :
  manifest.(provider_name) = "claude" → uses_gateway extra = true →
  extra !! GATEWAY_SANDBOX_ROOT_ENV = Some root →
  Forall (λ w, plain_word w = true) (provider_words manifest host extra recovery) →
  ∃ bridge line,
    command_with_env_prefix manifest host extra recovery (Ok bin) =
      ["sh"; "-lc"; bridge +:+ " exec sh -lc " +:+ shell_quote line] ∧
    sh_words line = Some (provider_words manifest host extra recovery).
Proof.
  intros Hp Hg Hr Hw. unfold command_with_env_prefix. rw Hp Hg bool_decide_true //. cbn [andb].
  unfold claude_gateway_bridge_shell, claude_gateway_bridge_shell_with_ah_resolver,
    claude_gateway_bind_context. rw Hr. cbn [mbind option_bind].
  unfold bridge_wrapper_shell. eexists _, _. split; [|by apply sh_words_join].
  do 3 f_equal. by rw -!string_app_assoc.
Qed.

(** A value with a space in it, such as a [PATH] that lists a Windows folder,
    is not: the words are joined without quoting, so the inner shell cuts the
    value in two and [env] runs its second half as the command. *)
Definition windows_path (key : string) : option string :=
  if key == "PATH" then Some "/usr/bin:/mnt/c/Program Files/Git" else None.
Definition gateway_extra : gmap string string :=
  <["CLAUDE_CODE_USE_GATEWAY" := "1"]> {[GATEWAY_SANDBOX_ROOT_ENV := "/s"]}.

Theorem gateway_command_splits_values :
  let words := provider_words claude_manifest windows_path gateway_extra (MkRecoverySpawn false []) in
  "PATH=/usr/bin:/mnt/c/Program Files/Git" ∈ words ∧
  ∃ shell, command_with_env_prefix claude_manifest windows_path gateway_extra
             (MkRecoverySpawn false []) (Ok "/ah") = ["sh"; "-lc"; shell] ∧
  ∃ read, sh_words (join " " words) = Some read ∧
    "PATH=/usr/bin:/mnt/c/Program Files/Git" ∉ read ∧ "Files/Git" ∈ read.
Proof.
  cbv zeta.
  set (words := provider_words claude_manifest windows_path gateway_extra (MkRecoverySpawn false [])).
  vm_compute in words. split; [apply (bool_decide_unpack _); by vm_compute|].
  eexists. split; [vm_compute; reflexivity|].
  eexists. split; [vm_compute; reflexivity|].
  split; apply (bool_decide_unpack _); by vm_compute.
Qed.

End SpawnFacts.
