(* ===== verification/Tasks.v ===== *)
(** * Tasks of the daemon

    What the tasks that supervise masters and serve requests on agents share: the
    process-wide registries, what the host answers, the calls to tmux, and the
    monad in which a task is written.  Before each statement on the database and
    each call to the host the other tasks may have changed both. *)
From S2P Require Import Prelude Json Schema Sql MasterTables JobGate Invariant AgentGate Text ReplyText Sessions.
From S2P Require Import MasterRevival Jobs Completion Evidence StateMachine Agents Events Providers LogReader Recovery Startup PromptCases PromptRunner Tmux AgentIo.
From S2P Require Import SessionWatch SessionHandlers Spawn PromptStore PromptIntegration.

(** ** The task and its surroundings *)

Inductive DaemonTask : Type :=
| MasterPidfdWatch (session_id : string) (expected_pid expected_generation : Z) (master_cmd : string)
| MasterConfirmTimer (session_id : string) (expected_pid expected_generation : Z)
| AgentReader (agent_id : string)
| AgentPidfdWatch (agent_id session_id : string) (pid : Z)
| AgentInitProbe (agent_id pane provider : string)
| AgentMarkerTimer (agent_id : string)
| AgentCaptureSeed (agent_id baseline : string)
| CancelSettlement (job_id : string).

(** A SIGKILL through the pidfd registered under a key, or to a process id. *)
Inductive ProcessSignal : Type :=
| SignalHandle (key : string)
| SignalPid (pid : Z).
#[global] Instance ProcessSignal_eq_dec : EqDecision ProcessSignal.
Proof. solve_decision. Defined.

(** What the host answers at the moment: [pidfd_open], [try_clone], SIGKILL to a
    handle and to a process (an error's text, none for [ESRCH]), the directory
    trees of transcripts, the writing of a file, the creation of a sandbox's
    directory, of the directory of pipes and of a pipe, the opening of a pipe. *)
Record MasterHost : Type := MkMasterHost {
  mh_pidfd_open : Z → Result unit CcbdError;
  mh_try_clone : option string;
  mh_sigkill_handle : string → option CcbdError;
  mh_sigkill_pid : Z → option string;
  mh_tree : Path → option FsNode;
  mh_write : string → option string;
  mh_sandbox_dir : string → option string;
  mh_pipe_dir : option string;
  mh_mkfifo : option string;
  mh_fifo_open : option string;
  mh_host : Host;
  mh_registries : Registries;
  mh_runner : SystemctlRunner
}.

(** What the daemon holds for its agents: the table of panes, the output each
    screen has processed, the marker timers and the pipes. *)
Record AgentTables : Type := MkAgentTables {
  at_panes : PaneMap;
  at_parsers : gmap string string;
  at_timers : gset string;
  at_fifos : gset string
}.
Definition set_at_panes (m : PaneMap) (a : AgentTables) : AgentTables :=
  MkAgentTables m a.(at_parsers) a.(at_timers) a.(at_fifos).
Definition set_at_parsers (s : gmap string string) (a : AgentTables) : AgentTables :=
  MkAgentTables a.(at_panes) s a.(at_timers) a.(at_fifos).
Definition set_at_timers (s : gset string) (a : AgentTables) : AgentTables :=
  MkAgentTables a.(at_panes) a.(at_parsers) s a.(at_fifos).
Definition set_at_fifos (s : gset string) (a : AgentTables) : AgentTables :=
  MkAgentTables a.(at_panes) a.(at_parsers) a.(at_timers) s.

(** What the scans for prompts keep: the file of cases, the keys sent, the table of
    learned prompts and the screens that are not known yet. *)
Record AgentScanState : Type := MkAgentScanState {
  sc_files : KbFiles;
  sc_sent : list SentKey;
  sc_experience : list PromptExperience;
  sc_prompts : Transients
}.

(** [wr_monitors]: the table of pidfds; [wr_signals], [wr_tasks] and [wr_files]:
    the signals sent, tasks started and files written by this task, in order. *)
Record WatchRuntime (T : Type) : Type := MkWatchRuntime {
  wr_terminal : TmuxTerminal T;
  wr_monitors : gset string;
  wr_agents : AgentTables;
  wr_scan : AgentScanState;
  wr_host : MasterHost;
  wr_signals : list ProcessSignal;
  wr_tasks : list DaemonTask;
  wr_files : list (string * string)
}.
Arguments MkWatchRuntime {T} _ _ _ _ _ _ _ _.
Arguments wr_terminal {T} _.
Arguments wr_monitors {T} _.
Arguments wr_agents {T} _.
Arguments wr_scan {T} _.
Arguments wr_host {T} _.
Arguments wr_signals {T} _.
Arguments wr_tasks {T} _.
Arguments wr_files {T} _.

(** What a request or a stored specification says of an agent's extensions. *)
Record ExtensionConfig : Type := MkExtensionConfig {
  ec_hooks : Value;
  ec_plugins : list string;
  ec_skills : list string;
  ec_bundle : list string;
  ec_settings : list (string * Value);
  ec_mcp : Value;
  ec_bundle_digest : option Value
}.

(** [HomeOverrides] *)
Record HomeOverrides : Type := MkHomeOverrides {
  ho_home_root : string;
  ho_extra_env : gmap string string
}.

(** The preparation of a provider's home and configuration:
    [resolve_bundles_for_provider] of a worker in a directory,
    [prepare_home_layout_with_extensions_for_slot_and_claude_credentials] (for a
    provider, a sandbox, a directory, an agent, its extensions, the push of hooks
    and the shared credentials), [compute_recovery_args] in a home,
    [compute_config_hash] of a provider, a declared environment and extensions,
    and the environment of the daemon. *)
Record SpawnPreparation : Type := MkSpawnPreparation {
  sx_bundles : string → string → ExtensionConfig → Result ExtensionConfig CcbdError;
  sx_home_layout : string → string → string → string → ExtensionConfig → bool → option string →
    Result HomeOverrides CcbdError;
  sx_recovery_args : string → string → list string;
  sx_config_hash : string → gmap string string → ExtensionConfig → Result string CcbdError;
  sx_host_env : string → option string
}.

(** [mx_sandbox_home]: the home of the master's sandbox in a session;
    [mx_project_cmd] and [mx_shared_credentials]: the master's command and the
    directory of shared credentials in a project's [ah.toml];
    [mx_valid_credentials]: [validate_claude_shared_credentials_dir];
    [mx_patience]: how many times a condition is polled before its deadline. *)
Record WatchCtx : Type := MkWatchCtx {
  mx_server : TmuxServer;
  mx_state_dir : string;
  mx_env_state : EnvState;
  mx_daemon_unit : option string;
  mx_daemon_marker : option string;
  mx_bridge : Result string string;
  mx_sandbox_home : string → Result Path CcbdError;
  mx_project_cmd : string → string;
  mx_shared_credentials : string → Result (option string) CcbdError;
  mx_valid_credentials : string → Result string CcbdError;
  mx_prepare : SpawnPreparation;
  mx_second_enter : bool;
  mx_defer_env : option Z;
  mx_readiness_env : option Z;
  mx_patience : nat
}.


Section Tasks.
Context {T : Type} {TX : TmuxExec T}.
(** What the other tasks do before the step with this number. *)
Variable others : nat → WatchRuntime T → World → WatchRuntime T * World.

(** ** Steps *)

Definition W (A : Type) : Type := WatchRuntime T → World → Result A CcbdError * WatchRuntime T * World.

#[local] Instance W_ret : MRet W := λ A a rt w, (Ok a, rt, w).
#[local] Instance W_bind : MBind W := λ A B f m rt w,
  match m rt w with
  | (Ok a, rt', w') => f a rt' w'
  | (Err e, rt', w') => (Err e, rt', w')
  end.

Definition w_throw {A} (e : CcbdError) : W A := λ rt w, (Err e, rt, w).
Definition w_of_result {A} (r : Result A CcbdError) : W A := λ rt w, (r, rt, w).
Definition w_try {A} (m : W A) : W (Result A CcbdError) := λ rt w,
  let '(r, rt', w') := m rt w in (Ok r, rt', w').
Definition pause (point : nat) : W unit := λ rt w, let '(rt', w') := others point rt w in (Ok tt, rt', w').
(** A statement, with what happened before it. *)
Definition stm {A} (point : nat) (m : M CcbdError A) : W A :=
  pause point;; (λ rt w, let '(r, w') := m w in (r, rt, w')).
Definition clock : W Z := λ rt w, (Ok w.(w_now), rt, w).
Definition get_wr : W (WatchRuntime T) := λ rt w, (Ok rt, rt, w).
Definition modify_wr (f : WatchRuntime T → WatchRuntime T) : W unit := λ rt w, (Ok tt, f rt, w).

Definition set_wr_terminal (t : TmuxTerminal T) (rt : WatchRuntime T) : WatchRuntime T :=
  MkWatchRuntime t rt.(wr_monitors) rt.(wr_agents) rt.(wr_scan) rt.(wr_host) rt.(wr_signals) rt.(wr_tasks)
    rt.(wr_files).
Definition set_wr_monitors (m : gset string) (rt : WatchRuntime T) : WatchRuntime T :=
  MkWatchRuntime rt.(wr_terminal) m rt.(wr_agents) rt.(wr_scan) rt.(wr_host) rt.(wr_signals) rt.(wr_tasks)
    rt.(wr_files).
Definition set_wr_agents (a : AgentTables) (rt : WatchRuntime T) : WatchRuntime T :=
  MkWatchRuntime rt.(wr_terminal) rt.(wr_monitors) a rt.(wr_scan) rt.(wr_host) rt.(wr_signals) rt.(wr_tasks)
    rt.(wr_files).
Definition set_wr_scan (x : AgentScanState) (rt : WatchRuntime T) : WatchRuntime T :=
  MkWatchRuntime rt.(wr_terminal) rt.(wr_monitors) rt.(wr_agents) x rt.(wr_host) rt.(wr_signals)
    rt.(wr_tasks) rt.(wr_files).
Definition modify_agents (f : AgentTables → AgentTables) : W unit :=
  modify_wr (λ rt, set_wr_agents (f rt.(wr_agents)) rt).
Definition add_signal (s : ProcessSignal) (rt : WatchRuntime T) : WatchRuntime T :=
  MkWatchRuntime rt.(wr_terminal) rt.(wr_monitors) rt.(wr_agents) rt.(wr_scan) rt.(wr_host)
    (rt.(wr_signals) ++ [s]) rt.(wr_tasks) rt.(wr_files).
Definition add_task (t : DaemonTask) (rt : WatchRuntime T) : WatchRuntime T :=
  MkWatchRuntime rt.(wr_terminal) rt.(wr_monitors) rt.(wr_agents) rt.(wr_scan) rt.(wr_host)
    rt.(wr_signals) (rt.(wr_tasks) ++ [t]) rt.(wr_files).
Definition add_file (path body : string) (rt : WatchRuntime T) : WatchRuntime T :=
  MkWatchRuntime rt.(wr_terminal) rt.(wr_monitors) rt.(wr_agents) rt.(wr_scan) rt.(wr_host)
    rt.(wr_signals) rt.(wr_tasks) (rt.(wr_files) ++ [(path, body)]).

(** A call to tmux, with what happened before it. *)
Definition tmux {A} (point : nat) (m : Tm (T := T) A) : W A :=
  pause point;; (λ rt w, let '(r, t) := m rt.(wr_terminal) in (r, set_wr_terminal t rt, w)).

(** ** The table of pidfds *)

Definition monitor_contains (key : string) : W bool :=
  rt ← get_wr; mret (bool_decide (key ∈ rt.(wr_monitors))).
Definition monitor_register (key : string) : W unit :=
  modify_wr (λ rt, set_wr_monitors ({[key]} ∪ rt.(wr_monitors)) rt).
Definition remove_master_monitor_key_if_generation_matches (session_id : string)
    (expected_generation : Z) : W bool :=
  let key := master_monitor_key session_id expected_generation in
  removed ← monitor_contains key;
  modify_wr (λ rt, set_wr_monitors (rt.(wr_monitors) ∖ {[key]}) rt);;
  mret removed.

Definition pidfd_open (pid : Z) : W (Result unit CcbdError) :=
  rt ← get_wr; mret (rt.(wr_host).(mh_pidfd_open) pid).
Definition master_is_alive (pid : Z) : W bool :=
  rt ← get_wr;
  mret (master_process_is_alive (λ pid, negb (is_err (rt.(wr_host).(mh_pidfd_open) pid))) pid).
Definition try_clone (what : string) : W unit :=
  rt ← get_wr;
  match rt.(wr_host).(mh_try_clone) with
  | Some err => w_throw (PtyIoError (what +:+ err))
  | None => mret tt
  end.

End Tasks.

(** ** Runs *)

Section Runs.
Context {T : Type} {TX : TmuxExec T}.
#[local] Existing Instances W_ret W_bind.

(** [m], started in [rt] and [w], ends as [Q] says, with the commands it ran. *)
Definition leads {A} (rt : WatchRuntime T) (w : World) (m : W (T := T) A)
    (Q : Result A CcbdError → WatchRuntime T → World → list TmuxCommand → Prop) : Prop :=
  ∃ cs, tm_trace (wr_terminal (m rt w).1.2) = tm_trace (wr_terminal rt) ++ cs ∧
    Q (m rt w).1.1 (m rt w).1.2 (m rt w).2 cs.

Lemma leads_bind {A B} rt w (m : W A) (f : A → W B) Q S :
  leads rt w m Q → (∀ e rt1 w1 cs, Q (Err e) rt1 w1 cs → S (Err e) rt1 w1 cs) →
  (∀ a rt1 w1 cs, Q (Ok a) rt1 w1 cs → leads rt1 w1 (f a) (λ r rt2 w2 cs', S r rt2 w2 (cs ++ cs'))) →
  leads rt w (m ≫= f) S.
Proof.
  intros (cs & Ht & HQ) He Hf. unfold leads, mbind, W_bind.
  destruct (m rt w) as [[[a|e] rt1] w1]; cbn in *; [|by eauto].
  destruct (Hf a rt1 w1 cs HQ) as (cs' & Ht' & HS). exists (cs ++ cs'). by rewrite Ht' Ht app_assoc.
Qed.
Lemma leads_weaken {A} rt w (m : W A) (Q S : Result A CcbdError → WatchRuntime T → World → list TmuxCommand → Prop) :
  leads rt w m Q → (∀ r rt1 w1 cs, Q r rt1 w1 cs → S r rt1 w1 cs) → leads rt w m S.
Proof. intros (cs & ? & ?) HS. exists cs. eauto. Qed.
Lemma leads_ok {A B} rt w (a : A) (f : A → W B) Q :
  leads rt w (f a) Q → leads rt w (w_of_result (Ok a) ≫= f) Q.
Proof. done. Qed.
(** A step that runs no command. *)
Lemma leads_silent {A} rt w (m : W A) (Q : Result A CcbdError → WatchRuntime T → World → list TmuxCommand → Prop) :
  tm_trace (wr_terminal (m rt w).1.2) = tm_trace (wr_terminal rt) →
  Q (m rt w).1.1 (m rt w).1.2 (m rt w).2 [] → leads rt w m Q.
Proof. intros Ht HQ. exists []. by rewrite Ht app_nil_r. Qed.
Lemma leads_try {A} rt w (m : W A) (Q : Result A CcbdError → WatchRuntime T → World → list TmuxCommand → Prop)
    (S : Result (Result A CcbdError) CcbdError → WatchRuntime T → World → list TmuxCommand → Prop) :
  leads rt w m Q → (∀ r rt1 w1 cs, Q r rt1 w1 cs → S (Ok r) rt1 w1 cs) → leads rt w (w_try m) S.
Proof.
  intros (cs & Ht & HQ) HS. exists cs. unfold w_try. destruct (m rt w) as [[r rt'] w']; cbn in *. eauto.
Qed.
(** A step whose failure is a value. *)
Lemma leads_tried {A B} rt w (m : W A) (f : Result A CcbdError → W B) Q
    (S : Result B CcbdError → WatchRuntime T → World → list TmuxCommand → Prop) :
  leads rt w m Q →
  (∀ x rt1 w1 cs, Q x rt1 w1 cs → leads rt1 w1 (f x) (λ r rt2 w2 cs', S r rt2 w2 (cs ++ cs'))) →
  leads rt w (w_try m ≫= f) S.
Proof.
  intros Hm Hf.
  eapply (leads_bind _ _ _ _ (λ r rt1 w1 cs, ∃ x, r = Ok x ∧ Q x rt1 w1 cs));
    [by eapply leads_try; eauto|by intros ? ? ? ? (? & ? & _)|].
  intros x rt1 w1 cs (? & [= <-] & HQ). by apply Hf.
Qed.

End Runs.

(** ** Steps that keep to a preorder *)

Section Steady.
Context {T : Type} {TX : TmuxExec T} (others : nat → WatchRuntime T → World → WatchRuntime T * World).
Context (S : relation (WatchRuntime T * World)) `{!PreOrder S} (allowed : TmuxCommand → Prop).
Hypothesis others_steady : ∀ p rt w, S (rt, w) (others p rt w).
Hypothesis others_trace : ∀ p rt w,
  tm_trace (wr_terminal (others p rt w).1) = tm_trace (wr_terminal rt).
Hypothesis terminal_free : ∀ t rt w, S (rt, w) (set_wr_terminal t rt, w).
#[local] Existing Instances W_ret W_bind.

(** [m] keeps to [S] and runs only commands that are [allowed]. *)
Definition steady {A} (m : W (T := T) A) : Prop :=
  ∀ rt w, leads rt w m (λ _ rt' w' cs, S (rt, w) (rt', w') ∧ Forall allowed cs).

Lemma steady_silent {A} (m : W A) :
  (∀ rt w, tm_trace (wr_terminal (m rt w).1.2) = tm_trace (wr_terminal rt) ∧
     S (rt, w) ((m rt w).1.2, (m rt w).2)) → steady m.
Proof. intros Hm rt w. destruct (Hm rt w). by apply leads_silent. Qed.
Lemma steady_of_result {A} (r : Result A CcbdError) : steady (w_of_result r).
Proof. apply steady_silent. by intros. Qed.
Lemma steady_ret {A} (a : A) : steady (mret a).
Proof. apply (steady_of_result (Ok a)). Qed.
Lemma steady_throw {A} e : steady (w_throw e : W A).
Proof. apply (steady_of_result (Err e)). Qed.
Lemma steady_get : steady get_wr.
Proof. apply steady_silent. by intros. Qed.
Lemma steady_modify f :
  (∀ rt w, wr_terminal (f rt) = wr_terminal rt ∧ S (rt, w) (f rt, w)) → steady (modify_wr f).
Proof. intros Hf. apply steady_silent. intros rt w. destruct (Hf rt w) as [Ht ?]. by rewrite /= Ht. Qed.
Lemma steady_bind {A B} (m : W A) (f : A → W B) :
  steady m → (∀ a, steady (f a)) → steady (m ≫= f).
Proof.
  intros Hm Hf rt w. eapply leads_bind; [apply Hm|done|]. intros a rt1 w1 cs [? ?].
  eapply leads_weaken; [apply Hf|]. intros r rt2 w2 cs' [? ?].
  split; [by etrans|by apply Forall_app].
Qed.
Lemma steady_try {A} (m : W A) : steady m → steady (w_try m).
Proof. intros Hm rt w. eapply leads_try; [apply Hm|done]. Qed.
Lemma steady_pause p : steady (pause others p).
Proof.
  apply steady_silent. intros rt w. unfold pause.
  generalize (others_steady p rt w) (others_trace p rt w). by destruct (others p rt w).
Qed.
Lemma steady_stm {A} p (m : M CcbdError A) :
  (∀ rt w, S (rt, w) (rt, (m w).2)) → steady (stm others p m).
Proof.
  intros Hm. apply steady_bind; [apply steady_pause|]. intros _. apply steady_silent. intros rt w.
  generalize (Hm rt w). by destruct (m w).
Qed.
Lemma steady_tmux {A} p (m : Tm (T := T) A) :
  appends m (λ _ cs, Forall allowed cs) → steady (tmux others p m).
Proof.
  intros Hm. apply steady_bind; [apply steady_pause|]. intros _ rt w.
  destruct (Hm rt.(wr_terminal)) as (cs & Ht & Hq). exists cs.
  generalize (terminal_free (m rt.(wr_terminal)).2 rt w).
  by destruct (m rt.(wr_terminal)) as [r t].
Qed.

(** A steady step, and what follows it. *)
Lemma leads_steady {A B} rt w (m : W A) (f : A → W B) Q :
  steady m →
  (∀ e rt1 w1 cs, S (rt, w) (rt1, w1) → Forall allowed cs → Q (Err e) rt1 w1 cs) →
  (∀ a rt1 w1 cs, S (rt, w) (rt1, w1) → Forall allowed cs →
     leads rt1 w1 (f a) (λ r rt2 w2 cs', Q r rt2 w2 (cs ++ cs'))) →
  leads rt w (m ≫= f) Q.
Proof. intros Hm He Hf. eapply leads_bind; [apply Hm|naive_solver..]. Qed.

(** A statement and a call to tmux, after the steps of the other tasks. *)
Lemma leads_stm {A} rt w p (m : M CcbdError A) :
  leads rt w (stm others p m) (λ r rt' w' cs, cs = [] ∧ ∃ w1, S (rt, w) (rt', w1) ∧ m w1 = (r, w')).
Proof.
  unfold stm, mbind, W_bind, leads, pause. generalize (others_steady p rt w) (others_trace p rt w).
  destruct (others p rt w) as [rt1 w1]; cbn. intros HS Ht. exists [].
  destruct (m w1) as [r w2] eqn:Hm; cbn. rewrite Ht app_nil_r. eauto.
Qed.
Lemma leads_tmux {A} rt w p (m : Tm (T := T) A) (Q : Result A CcbdError → list TmuxCommand → Prop) :
  appends m Q →
  leads rt w (tmux others p m) (λ r rt' w' cs, Q r cs ∧ S (rt, w) (rt', w') ∧
    ∃ t t', m t = (r, t') ∧ t'.(tm_trace) = t.(tm_trace) ++ cs).
Proof.
  intros Hm. unfold tmux, mbind, W_bind, leads, pause.
  generalize (others_steady p rt w) (others_trace p rt w).
  destruct (others p rt w) as [rt1 w1]; cbn. intros HS Ht.
  destruct (Hm rt1.(wr_terminal)) as (cs & Htr & HQ). exists cs.
  destruct (m rt1.(wr_terminal)) as [r t] eqn:Hrun; cbn in *. split_and!; [by rewrite Htr Ht|done| |by eauto].
  etrans; [exact HS|apply terminal_free].
Qed.

End Steady.

Section AllowedCommands.
Context {T : Type} {TX : TmuxExec T} (server : TmuxServer) (allowed : TmuxCommand → Prop).
Notation only m := (appends m (λ _ cs, Forall allowed cs)).

Lemma only_bind {A B} (m : Tm (T := T) A) (f : A → Tm B) : only m → (∀ a, only (f a)) → only (m ≫= f).
Proof.
  intros Hm Hf. eapply appends_bind; [exact Hm|done|]. intros a cs ?.
  eapply appends_weaken; [apply Hf|]. intros r cs' ?. by apply Forall_app.
Qed.
Lemma only_result {A} (r : Result A CcbdError) : only (tm_of_result (T := T) r).
Proof. by apply appends_ret. Qed.
Lemma only_ret {A} (a : A) : only (mret a : Tm (T := T) A).
Proof. apply only_result. Qed.
Lemma only_throw {A} e : only (tm_throw e : Tm (T := T) A).
Proof. apply (only_result (Err e)). Qed.
Lemma only_try {A} (m : Tm (T := T) A) : only m → only (tm_try m).
Proof. intros Hm. by eapply appends_try. Qed.
Lemma only_command c : allowed c → only (run_command (T := T) c).
Proof. intros Hc. apply appends_run. intros _. by constructor. Qed.

End AllowedCommands.

(** The commands of a driver's operation, once it is unfolded. *)
Ltac only_allowed :=
  repeat first
    [ apply only_ret | apply only_result | apply only_throw | apply only_try
    | apply only_command; (done || by destruct (ts_scope_policy _))
    | apply only_bind; [|intros ?]
    | case_match ].

(** ** Agents that stay out of some states *)

Section AgentStates.
Context {EXT : Externals}.
Variable agent_id : string.

Definition in_state (state : string) (db : Db) : Prop :=
  ∃ a, db.(agents) !! agent_id = Some a ∧ a.(a_state) = state.
Variable states : list string.
Definition outside (db : Db) : Prop := ∀ st, st ∈ states → ¬ in_state st db.

Lemma in_state_outside st db : in_state st db → st ∉ states → outside db.
Proof. intros (a & Ha & <-) Hst st' Hin (b & Hb & <-). congruence. Qed.
Lemma no_agent_outside db : db.(agents) !! agent_id = None → outside db.
Proof. intros Ha st _ (b & Hb & _). congruence. Qed.

(** A change that does not bring the agent into one of these states. *)
Definition enters_not (db db' : Db) : Prop := outside db → outside db'.
#[local] Instance enters_not_preorder : PreOrder enters_not.
Proof. split; [by intros db|]. intros x y z Hxy Hyz Hx. by apply Hyz, Hxy. Qed.

Definition agents_kept (db db' : Db) : Prop := db'.(agents) = db.(agents).
#[local] Instance agents_kept_preorder : PreOrder agents_kept.
Proof. split; [by intros db|]. unfold agents_kept. by intros x y z -> ->. Qed.

Lemma agents_kept_in_state state db db' : agents_kept db db' → in_state state db' ↔ in_state state db.
Proof. unfold agents_kept, in_state. by intros ->. Qed.
Lemma agents_kept_enters_not db db' : agents_kept db db' → enters_not db db'.
Proof. intros Hk Ho st Hst Hin. apply (Ho st Hst). by apply (agents_kept_in_state _ _ _ Hk). Qed.

Lemma kept_event_row {E} (f : SqlError → E) id r ty p :
  respects agents_kept (map_err f (insert_event_row id r ty p)).
Proof. apply respects_map_err. intros w. unfold insert_event_row, agents_kept. by repeat case_match. Qed.
Lemma kept_event_null ctx id ty p : respects agents_kept (insert_event_null ctx id ty p).
Proof. apply kept_event_row. Qed.
Lemma kept_job {E} id guard f : respects agents_kept (update_job id guard f : M E nat).
Proof. intros w. unfold update_job, agents_kept. by destruct (update_row _ _ _ _). Qed.
Lemma kept_gate id from to reason : respects agents_kept (transit_job_state id from to reason).
Proof.
  unfold transit_job_state, record_job_transition_conn_sync, query_job_sync, check_late_completion_evidence.
  solve_respects; try apply kept_job.
  all: intros w; unfold insert_job_transition_row, agents_kept; by repeat case_match.
Qed.
#[local] Hint Resolve kept_event_row kept_event_null kept_job kept_gate : respects.

Lemma kept_insert_and_notify id r ty p : respects agents_kept (insert_event_and_notify id r ty p).
Proof.
  unfold insert_event_and_notify, insert_event_sync, notify_event. solve_respects.
  intros w. unfold insert_event_row, agents_kept. by repeat case_match.
Qed.

(** A statement that leaves the agents alone, and one that puts the row in
    another state. *)
Lemma enters_not_kept {E A} (m : M E A) : respects agents_kept m → respects enters_not m.
Proof. apply respects_weaken, agents_kept_enters_not. Qed.
Lemma enters_not_update {E} id guard f :
  (∀ a, (f a).(a_state) ∉ states) → respects enters_not (update_agent id guard f : M E nat).
Proof.
  intros Hf w Ho st Hst. specialize (Ho st Hst). revert Ho. unfold in_state, update_agent, update_row.
  destruct (agents (w_db w) !! id) as [a0|]; [|done]. destruct (guard a0); [|done]. cbn.
  destruct (decide (id = agent_id)) as [->|Hne]; [|by rw lookup_insert_ne].
  rw lookup_insert_eq. intros _ (a & [= <-] & Hs). by apply (Hf a0); rw Hs.
Qed.
Lemma enters_not_event {E} (f : SqlError → E) id r ty p :
  respects enters_not (map_err f (insert_event_row id r ty p)).
Proof. apply enters_not_kept, kept_event_row. Qed.
Lemma enters_not_gate id from to reason : respects enters_not (transit_job_state id from to reason).
Proof. apply enters_not_kept, kept_gate. Qed.
Lemma enters_not_job {E} id guard f : respects enters_not (update_job id guard f : M E nat).
Proof. apply enters_not_kept, kept_job. Qed.
Lemma enters_not_null ctx id ty p : respects enters_not (insert_event_null ctx id ty p).
Proof. apply enters_not_event. Qed.
#[local] Hint Resolve enters_not_gate enters_not_job enters_not_event enters_not_null : respects.
#[local] Hint Extern 5 (respects enters_not (update_agent _ _ _)) => apply enters_not_update : respects.

Lemma enters_not_notify : respects enters_not (notify_runtime_agent_changed : M CcbdError unit).
Proof. unfold notify_runtime_agent_changed, notify_runtime_changed. solve_respects. Qed.
#[local] Hint Resolve enters_not_notify : respects.

Lemma enters_not_idle_matched id :
  "IDLE" ∉ states → "BUSY" ∉ states → respects enters_not (mark_agent_idle_matched id).
Proof.
  intros Hi Hb.
  unfold mark_agent_idle_matched, mark_agent_idle_matched_outcome, mark_agent_idle_matched_outcome_sync,
    mark_agent_idle_matched_outcome_sync_inner, mark_agent_idle_matched_conn_inner, query_agent_row,
    affected_job_id, publish_outcome, evidence_denial_for_job, insert_evidence_denied_event, resolve_job,
    handle_completion_deferral_sync, query_dispatched_job_for_agent_sync, has_job_evidence_sync,
    has_completion_deferred_event, collect_reply_for_dispatched_job_sync, latest_ah_idle_marker_job_id,
    mark_job_cancelled_conn_sync, mark_job_completed_conn_sync, insert_completion_deferred_event,
    notify_job_update. cbv beta zeta. solve_respects.
Qed.
Lemma enters_not_fail_dispatched reason ids n : respects enters_not (fail_dispatched reason ids n).
Proof. revert n. induction ids as [|id ids IH]; intros n; cbn [fail_dispatched]; solve_respects. Qed.
#[local] Hint Resolve enters_not_fail_dispatched : respects.
Lemma enters_not_unknown eid id reason pane rules :
  "UNKNOWN" ∉ states → respects enters_not (mark_agent_unknown eid id reason pane rules).
Proof.
  intros Hu.
  unfold mark_agent_unknown, mark_agent_unknown_sync, query_agent_row, affected_job_id,
    query_dispatched_job_for_agent_sync, mark_job_cancelled_conn_sync,
    mark_dispatched_jobs_failed_for_agent_conn_sync, mark_dispatched_jobs_failed_for_agent_conn_collect_sync,
    query_dispatched_job_ids_for_agent_sync, notify_job_update. cbv beta zeta. solve_respects.
  - intros w. apply agents_kept_enters_not. by unfold agents_kept, seal_pending_evidence, modify_db.
  - intros w. apply agents_kept_enters_not. unfold insert_evidence_row, agents_kept. by repeat case_match.
Qed.
Lemma enters_not_failed id reason :
  STATE_FAILED ∉ states → respects enters_not (mark_agent_failed_from_intervention id reason).
Proof.
  intros Hf.
  unfold mark_agent_failed_from_intervention, mark_agent_failed_from_intervention_sync, query_agent_row.
  cbv beta zeta. solve_respects.
Qed.

End AgentStates.

(** ** Statements of a task, by what they end with *)

Section Meets.
Context {T : Type} {TX : TmuxExec T}.
Variable others : nat → WatchRuntime T → World → WatchRuntime T * World.
#[local] Existing Instances W_ret W_bind.

(** [m], started where [I] holds, ends as [Q] says; [I] is kept by the other tasks. *)
Definition meets {A} (I : Db → Prop) (m : W (T := T) A) (Q : Result A CcbdError → Db → Prop) : Prop :=
  ∀ rt w, I w.(w_db) → Q (m rt w).1.1 (m rt w).2.(w_db).
Definition kept_by (I : Db → Prop) : Prop := ∀ p rt w, I w.(w_db) → I (others p rt w).2.(w_db).

Lemma meets_bind {A B} I (m : W A) (f : A → W B) Q S :
  meets I m Q → (∀ e db, Q (Err e) db → S (Err e) db) → (∀ a, meets (Q (Ok a)) (f a) S) → meets I (m ≫= f) S.
Proof.
  intros Hm He Hf rt w HI. unfold mbind, W_bind. specialize (Hm rt w HI).
  destruct (m rt w) as [[[a|e] rt'] w']; cbn in *; [by apply Hf|by apply He].
Qed.
Lemma meets_weaken {A} (I I' : Db → Prop) (m : W A) (Q Q' : Result A CcbdError → Db → Prop) :
  meets I m Q → (∀ db, I' db → I db) → (∀ r db, Q r db → Q' r db) → meets I' m Q'.
Proof. intros Hm HI HQ rt w H. by apply HQ, Hm, HI. Qed.
Lemma meets_ret {A} (I : Db → Prop) (a : A) (Q : Result A CcbdError → Db → Prop) :
  (∀ db, I db → Q (Ok a) db) → meets I (mret a) Q.
Proof. intros H rt w HI. by apply H. Qed.
Lemma meets_throw {A} (I : Db → Prop) e (Q : Result A CcbdError → Db → Prop) :
  (∀ db, I db → Q (Err e) db) → meets I (w_throw e) Q.
Proof. intros H rt w HI. by apply H. Qed.
Lemma meets_tried {A B} I (m : W A) (f : Result A CcbdError → W B) Q S :
  meets I m Q → (∀ r, meets (Q r) (f r) S) → meets I (w_try m ≫= f) S.
Proof.
  intros Hm Hf rt w HI. unfold mbind, W_bind, w_try. specialize (Hm rt w HI).
  destruct (m rt w) as [[r rt'] w']; cbn in *. by apply Hf.
Qed.
(** A statement, after the steps of the others. *)
Lemma meets_stm {A} I p (m : M CcbdError A) (Q : Result A CcbdError → Db → Prop) :
  kept_by I → (∀ w, I w.(w_db) → Q (m w).1 (m w).2.(w_db)) → meets I (stm others p m) Q.
Proof.
  intros HI Hm rt w Hw. unfold stm, mbind, W_bind, pause. specialize (HI p rt w Hw).
  destruct (others p rt w) as [rt' w']; cbn in *. specialize (Hm w' HI). by destruct (m w').
Qed.
(** A step that is no statement. *)
Lemma meets_away {A} (I : Db → Prop) (m : W A) :
  (∀ rt w, (m rt w).2.(w_db) = w.(w_db)) → meets I m (λ _, I).
Proof. intros Hm rt w HI. by rewrite Hm. Qed.
Lemma meets_pause I p : kept_by I → meets I (pause others p) (λ _, I).
Proof. intros HI rt w Hw. unfold pause. specialize (HI p rt w Hw). by destruct (others p rt w). Qed.
(** A loop of steps that all keep [I]. *)
Lemma meets_then {A B} (I : Db → Prop) (m : W A) (f : A → W B) :
  meets I m (λ _, I) → (∀ a, meets I (f a) (λ _, I)) → meets I (m ≫= f) (λ _, I).
Proof. intros Hm Hf. by eapply meets_bind. Qed.
Lemma meets_stm_kept {A} (I : Db → Prop) (R : relation Db) p (m : M CcbdError A) :
  kept_by I → (∀ db db', R db db' → I db → I db') → respects R m → meets I (stm others p m) (λ _, I).
Proof. intros HI HR Hm. apply meets_stm; [done|]. intros w. apply HR, Hm. Qed.

End Meets.
