(* ===== verification/InitProbe.v ===== *)
(** * Starting agents

    [src/src/provider/init_probe_task.rs], and the rules of
    [src/src/db/learned_rules.rs] it reads: the task that looks at the screen of a
    starting agent until it is ready, a person has to look at it, or the time is up.

    The rows of [learned_rules] are an input of each turn, as is the time. *)
From S2P Require Import Prelude Json Schema Sql MasterTables JobGate Invariant MasterSound AgentGate Text ReplyText.
From S2P Require Import Providers Jobs Completion Evidence StateMachine StateMachineProofs Events Agents LogReader.
From S2P Require Import PromptCases PromptRunner PromptStore PromptIntegration Tmux AgentIo Recovery Lifecycle LifecycleProofs Tasks.

Definition STABLE_UNKNOWN_STARTUP_GRACE : Z := 10000.
Definition STEADY_COUNT : nat := 2.
Definition UNKNOWN_PATTERN_SELF_HEALED : string := "UNKNOWN_PATTERN_SELF_HEALED".

(** ** Learned rules *)

Inductive LearnedRuleCategory : Type := StartupReadiness | RuntimeMarker | ReplyExtraction.
Definition category_as_str (c : LearnedRuleCategory) : string :=
  match c with
  | StartupReadiness => "StartupReadiness" | RuntimeMarker => "RuntimeMarker" | ReplyExtraction => "ReplyExtraction"
  end.
Definition category_parse (value : string) : Result LearnedRuleCategory CcbdError :=
  if value == "StartupReadiness" then Ok StartupReadiness
  else if value == "RuntimeMarker" then Ok RuntimeMarker
  else if value == "ReplyExtraction" then Ok ReplyExtraction
  else Err (IpcInvalidRequest ("invalid learned rule category: " +:+ value)).

Inductive RuleFingerprint : Type := RegexFingerprint (pattern : string).
Record CursorAnchor : Type := MkCursorAnchor {
  cursor_row_delta_from_match : Z;
  cursor_col_delta_from_match_end : Z
}.
(** What the probe reads of a rule. *)
Record LearnedRule : Type := MkLearnedRule {
  lr_id : string;
  lr_fingerprint : RuleFingerprint;
  lr_regex_flags : list string;
  lr_cursor_anchor : option CursorAnchor
}.

Section LearnedRules.
Context {EXT : Externals} {PX : PromptExternals}.

Definition validate_learn_rule (pattern : string) (positive_examples : list string) : Result unit CcbdError :=
  let is_match s := bool_decide (is_Some (regex_find pattern [] s)) in
  if positive_examples == [] then
    Err (IpcInvalidRequest "positive_examples must contain at least one positive example")
  else if bool_decide (10 < length positive_examples)%nat then
    Err (IpcInvalidRequest "positive_examples must contain at most 10 examples")
  else if existsb (λ example, bool_decide (16 * 1024 < Z.of_nat (String.length example))) positive_examples then
    Err (IpcInvalidRequest "positive_examples examples must be at most 16 KiB each")
  else match regex_error pattern [] with
  | Some err => Err (IpcInvalidRequest ("invalid regex pattern for learned rule: " +:+ err))
  | None =>
      if existsb (λ positive, negb (is_match positive)) positive_examples then
        Err (IpcInvalidRequest "regex must match every positive example")
      else match head (filter (λ negative, is_match negative = true)
                        [""; byte_str 10; "hello"; "Working"; "Thinking..."]) with
      | Some negative =>
          Err (IpcInvalidRequest ("regex too wide: matches trivial negative " +:+ str_debug negative))
      | None => Ok tt
      end
  end.

(** The name of the option a flag sets; other flags are passed over. *)
Definition learned_flag (flag : string) : option string :=
  if flag is_in ["CaseInsensitive"; "case_insensitive"; "i"] then Some "CaseInsensitive"
  else if flag is_in ["Multiline"; "multi_line"; "m"] then Some "Multiline"
  else if flag is_in ["DotMatchesNewLine"; "dot_matches_new_line"; "s"] then Some "Dotall"
  else if flag is_in ["SwapGreed"; "swap_greed"; "U"] then Some "SwapGreed"
  else None.
Definition compile_learned_regex (rule : LearnedRule) (pattern : string) : Result (list string) CcbdError :=
  let flags := omap learned_flag rule.(lr_regex_flags) in
  match regex_error pattern flags with
  | Some err => Err (IpcInvalidRequest ("invalid persisted learned rule regex " +:+ rule.(lr_id) +:+ ": " +:+ err))
  | None => Ok flags
  end.

(** Row and column, in characters, of the byte [byte_offset]. *)
Fixpoint position_from (cs : list string) (idx byte_offset : nat) (row col : Z) : Z * Z :=
  match cs with
  | [] => (row, col)
  | ch :: cs' =>
      if bool_decide (byte_offset ≤ idx)%nat then (row, col)
      else if ch == byte_str 10 then position_from cs' (idx + String.length ch) byte_offset (row + 1) 0
      else position_from cs' (idx + String.length ch) byte_offset row (col + 1)
  end.
Definition capture_position (capture : string) (byte_offset : nat) : Z * Z :=
  position_from (chars capture) 0 byte_offset 0 0.

Definition cursor_anchor_matches (capture : string) (matched_end : nat) (cursor_anchor : option CursorAnchor) : bool :=
  match cursor_anchor with
  | None => true
  | Some anchor =>
      let '(match_row, match_end_col) := capture_position capture matched_end in
      let target_row := match_row + anchor.(cursor_row_delta_from_match) in
      if target_row <? 0 then false
      else match lines capture !! Z.to_nat target_row with
      | None => false
      | Some line =>
          let target_col := match_end_col + anchor.(cursor_col_delta_from_match_end) in
          (0 <=? target_col) && (target_col <=? Z.of_nat (length (chars line)) + 1)
      end
  end.

Definition learned_rule_matches_capture (rule : LearnedRule) (capture : string) : Result bool CcbdError :=
  match rule.(lr_fingerprint) with
  | RegexFingerprint pattern =>
      match compile_learned_regex rule pattern with
      | Err e => Err e
      | Ok flags =>
          match regex_find pattern flags capture with
          | Some (Some (_, matched_end) :: _) =>
              Ok (cursor_anchor_matches capture matched_end rule.(lr_cursor_anchor))
          | _ => Ok false
          end
      end
  end.

(** Given the enabled rules for the provider's startup, the oldest first. *)
Fixpoint learned_startup_readiness_detected (rules : list LearnedRule) (capture : string) : Result bool CcbdError :=
  match rules with
  | [] => Ok false
  | rule :: rules' =>
      match learned_rule_matches_capture rule capture with
      | Err e => Err e
      | Ok true => Ok true
      | Ok false => learned_startup_readiness_detected rules' capture
      end
  end.

End LearnedRules.

(** ** Screens that stay the same *)

Record StableUnknownPayload : Type := MkStableUnknownPayload {
  su_capture_hash : string;
  su_stable_scans : nat
}.
Record StableUnknownDetector : Type := MkStableUnknownDetector {
  sd_last_hash : option string;
  sd_stable_scans : nat
}.
Definition detector_reset : StableUnknownDetector := MkStableUnknownDetector None 0.

Section Detector.
Context {EXT : Externals} {PX : PromptExternals}.

Definition stable_capture_hash (sanitized_capture : string) : string := sha256_hex sanitized_capture.
Definition record_unknown (capture : string) (elapsed startup_grace : Z) (d : StableUnknownDetector) :
    option StableUnknownPayload * StableUnknownDetector :=
  if trim capture == "" then (None, detector_reset)
  else
  let sanitized := sanitize_pane_text capture in
  if trim sanitized == "" then (None, detector_reset)
  else
  let capture_hash := stable_capture_hash sanitized in
  let d := MkStableUnknownDetector (Some capture_hash)
             (if d.(sd_last_hash) == Some capture_hash then S d.(sd_stable_scans) else 1%nat) in
  if elapsed <? startup_grace then (None, d)
  else if bool_decide (3 ≤ d.(sd_stable_scans))%nat
       then (Some (MkStableUnknownPayload capture_hash d.(sd_stable_scans)), d) else (None, d).

End Detector.

Definition record_readiness_match (consecutive : nat) : nat * bool :=
  (S consecutive, bool_decide (STEADY_COUNT ≤ S consecutive)%nat).
Definition provider_seed_probe_can_count_as_ready (probe_kind : InitProbeKind) : bool :=
  match probe_kind with ProbeCodex | ProbeClaude => true | _ => false end.

Inductive StartupPromptScan : Type := ReadyConfirmed | HandledOrClear | ScanPutOff | PromptWaits.

(** ** The task *)

(** One look at the pane: how long the task has run when it begins and when it
    records an unknown screen, and the rules it finds. *)
Record ProbeTurn : Type := MkProbeTurn {
  pn_elapsed : Z;
  pn_recorded : Z;
  pn_rules : Result (list LearnedRule) CcbdError
}.
(** The locals of [run_init_probe_task]. *)
Record ProbeLocals : Type := MkProbeLocals {
  pl_consecutive : nat;
  pl_last_capture : string;
  pl_stable_unknown : StableUnknownDetector
}.
Definition probe_locals : ProbeLocals := MkProbeLocals 0 "" detector_reset.
Definition set_consecutive (n : nat) (l : ProbeLocals) : ProbeLocals :=
  MkProbeLocals n l.(pl_last_capture) l.(pl_stable_unknown).
Definition set_last_capture (s : string) (l : ProbeLocals) : ProbeLocals :=
  MkProbeLocals l.(pl_consecutive) s l.(pl_stable_unknown).
Definition set_stable_unknown (d : StableUnknownDetector) (l : ProbeLocals) : ProbeLocals :=
  MkProbeLocals l.(pl_consecutive) l.(pl_last_capture) d.

(** What the task is started with; [ip_pane] also stands for the flag of the
    pane's entry, which the task shares. *)
Record InitProbe : Type := MkInitProbe {
  ip_agent_id : string;
  ip_pane : string;
  ip_provider : string;
  ip_marker_matcher : MarkerMatcher;
  ip_probe_kind : InitProbeKind;
  ip_deadline : Z;
  ip_startup_grace : Z;
  ip_evidence_id : string
}.

Section InitProbeTask.
Context {EXT : Externals} {PX : PromptExternals} {CC : CharClass} {KC : KbCodec} {RX : RegexCaptures}.
Context {T : Type} {TX : TmuxExec T}.
Variable server : TmuxServer.
Variable llm : string → string → string → Result LlmOutcome LlmError.
Variable faults : KbFaults.
Variable others : nat → WatchRuntime T → World → WatchRuntime T * World.
Variable ip : InitProbe.
#[local] Existing Instances W_ret W_bind.
Notation agent_id := ip.(ip_agent_id).

Definition capture_visible : Tm (T := T) string :=
  r ← run_command (MkTmuxCommand "tmux" (tmux_args server ["capture-pane"; "-p"; "-t"; ip.(ip_pane)]) None);
  tm_of_result
    match r with
    | Ran true _ stdout _ => Ok stdout
    | Ran false exit _ stderr => Err (TmuxCommandFailed
        (join " " ("tmux" :: tmux_args server ["capture-pane"; "-p"; "-t"; ip.(ip_pane)])) stderr (default (-1) exit))
    | NotStarted _ err | StdinFailed err => Err (EnvironmentNotSupported ("run tmux capture-pane: " +:+ err))
    end.

(** The chain runs on a thread of its own, from its first capture to its last key. *)
Definition scan_startup_prompt : W (T := T) (Result StartupPromptScan CcbdError) :=
  if negb (is_prompt_handling_provider ip.(ip_provider)) then mret (Ok HandledOrClear)
  else
  pause others 300;;
  rt ← get_wr; now ← clock;
  let '(loaded, files) := load_or_bootstrap_kb faults rt.(wr_scan).(sc_files) in
  let x := rt.(wr_scan) in
  match loaded with
  | Err e =>
      modify_wr (set_wr_scan (MkAgentScanState files x.(sc_sent) x.(sc_experience) x.(sc_prompts)));;
      mret (Err (prompt_error e))
  | Ok kb =>
      let ctx := MkRunnerContext ip.(ip_provider) STATE_SPAWNING kb (Some ip.(ip_marker_matcher))
        (Some (λ capture, llm capture ip.(ip_provider) STATE_SPAWNING)) Direct now in
      let '(outcome, run) := handle_prompt_chain (tmux_prompt_io server ip.(ip_pane)) ctx 3
        (MkRunState rt.(wr_terminal) x.(sc_sent) x.(sc_experience)) in
      modify_wr (λ rt, set_wr_scan (MkAgentScanState files run.(rs_sent) run.(rs_experience) x.(sc_prompts))
                         (set_wr_terminal run.(rs_term) rt));;
      mret match default (RetryLater 0) outcome with
           | NoActionNeeded depth => Ok (if bool_decide (0 < depth)%nat then HandledOrClear else ReadyConfirmed)
           | RetryLater _ => Ok ScanPutOff
           | PendingPrompt _ _ _ | DepthExceeded _ _ => Ok PromptWaits
           | ExecutorFailed error _ => Err error
           end
  end.

(** [idle_scan_enabled] is the flag of the entry the pane was registered with. *)
Definition finish_startup_readiness : W unit :=
  stm others 301 wake_up;;
  modify_agents (λ a, set_at_panes
    (match a.(at_panes) !! agent_id with
     | Some e => if e.(ie_pane_id) == ip.(ip_pane) then set_idle_scan_enabled agent_id true a.(at_panes)
                 else a.(at_panes)
     | None => a.(at_panes)
     end) a);;
  modify_agents (λ a, set_at_timers (a.(at_timers) ∖ {[agent_id]}) a).

Definition emit_unknown_pattern_self_healed : W unit :=
  stm others 302 (insert_event_and_notify agent_id None UNKNOWN_PATTERN_SELF_HEALED (json_to_string (json_object
    [("category_hint", JString "StartupReadiness"); ("supersedes", JString UNKNOWN_PATTERN_STABLE);
     ("from", JString STATE_SPAWNING_INTERVENTION); ("to", JString STATE_IDLE);
     ("reason", JString "SEED_READINESS")])));;
  mret tt.

Definition mark_idle_after_seed_probe : W unit :=
  previous_state ← stm others 303 (query_agent_state_sync agent_id);
  if match previous_state with Some (state, _) => state == STATE_SPAWNING_INTERVENTION | None => false end then
    r ← w_try (stm others 304 (transit_agent_state agent_id [STATE_SPAWNING_INTERVENTION] STATE_IDLE
                                 (Some "SEED_READINESS")));
    match r with
    | Ok _ => emit_unknown_pattern_self_healed;; finish_startup_readiness
    | Err (AgentWrongState _) => mret tt
    | Err err => w_throw err
    end
  else
  '(changes, affected_job) ← stm others 305 (mark_agent_idle_matched agent_id);
  if bool_decide (0 < changes)%nat then
    match affected_job with Some job_id => stm others 306 (notify_job_update job_id) | None => mret tt end;;
    finish_startup_readiness
  else mret tt.

Definition mark_idle_after_learned_startup_readiness : W unit :=
  r ← w_try (stm others 307 (transit_agent_state agent_id [STATE_SPAWNING; STATE_SPAWNING_INTERVENTION] STATE_IDLE
                               (Some "LEARNED_STARTUP_READINESS")));
  match r with
  | Ok _ => finish_startup_readiness
  | Err (AgentWrongState _) => mret tt
  | Err err => w_throw err
  end.

Definition mark_spawning_intervention_and_emit_unknown_pattern (stable_unknown : StableUnknownPayload) : W (T := T) unit :=
  r ← w_try (stm others 308 (transit_agent_state agent_id [STATE_SPAWNING] STATE_SPAWNING_INTERVENTION
                               (Some UNKNOWN_PATTERN_STABLE)));
  match r with
  | Ok _ =>
      stm others 309 (insert_event_and_notify agent_id None UNKNOWN_PATTERN_STABLE (json_to_string (json_object
        [("category_hint", JString "StartupReadiness"); ("provider", JString ip.(ip_provider));
         ("capture_hash", JString stable_unknown.(su_capture_hash));
         ("stable_scans", JNumber (Z.of_nat stable_unknown.(su_stable_scans)));
         ("source_state", JString "SPAWNING")])));;
      stm others 310 wake_up
  | Err (AgentWrongState _) => mret tt
  | Err err => w_throw err
  end.

Definition mark_unknown_after_timeout (capture : string) : W unit :=
  failed_changes ← stm others 311 (mark_agent_failed_from_intervention agent_id "MASTER_OFFLINE_INTERVENTION_TIMEOUT");
  if bool_decide (0 < failed_changes)%nat then stm others 312 wake_up
  else
  '(changes, affected_job) ← stm others 313 (mark_agent_unknown ip.(ip_evidence_id) agent_id "INIT_PROBE_TIMEOUT"
     (String.list_byte_of_string capture) (JArray [JString "init_probe"]));
  if bool_decide (0 < changes)%nat then
    match affected_job with Some job_id => stm others 314 (notify_job_update job_id) | None => mret tt end;;
    stm others 315 wake_up
  else mret tt.

(** ** One turn *)

(** The turn counts towards readiness: the task ends if it is the second in a row. *)
Definition count_ready (mark : W (T := T) unit) (l : ProbeLocals) : W (ProbeLocals * bool) :=
  let '(consecutive, steady) := record_readiness_match l.(pl_consecutive) in
  let l := set_consecutive consecutive l in
  if (steady : bool) then mark;; mret (l, true) else mret (l, false).

Definition after_detection (learned_detected : bool) (l : ProbeLocals) : W (ProbeLocals * bool) :=
  if is_prompt_handling_provider ip.(ip_provider) && negb learned_detected then
    scan ← scan_startup_prompt;
    match scan with
    | Ok ReadyConfirmed => count_ready mark_idle_after_seed_probe l
    | Ok HandledOrClear => mret (set_consecutive 0 l, false)
    | Ok ScanPutOff | Ok PromptWaits =>
        if provider_seed_probe_can_count_as_ready ip.(ip_probe_kind)
        then count_ready mark_idle_after_seed_probe l
        else mret (set_consecutive 0 l, false)
    | Err _ => mret (set_consecutive 0 l, false)
    end
  else count_ready (if learned_detected then mark_idle_after_learned_startup_readiness
                    else mark_idle_after_seed_probe) l.

Definition record_and_report (recorded : Z) (l : ProbeLocals) : W (ProbeLocals * bool) :=
  let '(payload, d) := record_unknown l.(pl_last_capture) recorded ip.(ip_startup_grace) l.(pl_stable_unknown) in
  let l := set_stable_unknown d l in
  match payload with
  | Some payload => mark_spawning_intervention_and_emit_unknown_pattern payload;; mret (l, false)
  | None => mret (l, false)
  end.

Definition without_detection (recorded : Z) (l : ProbeLocals) : W (ProbeLocals * bool) :=
  let l := set_consecutive 0 l in
  scan ← scan_startup_prompt;
  match scan with
  | Ok ReadyConfirmed => count_ready mark_idle_after_seed_probe l
  | Ok HandledOrClear =>
      if is_prompt_handling_provider ip.(ip_provider) then mret (set_stable_unknown detector_reset l, false)
      else record_and_report recorded l
  | Ok ScanPutOff => record_and_report recorded l
  | Ok PromptWaits => mret (set_consecutive 0 l, false)
  | Err _ => mret (l, false)
  end.

(** The locals after the turn, and whether the task is over. *)
Definition init_probe_turn (turn : ProbeTurn) (l : ProbeLocals) : W (ProbeLocals * bool) :=
  if ip.(ip_deadline) <=? turn.(pn_elapsed) then
    mark_unknown_after_timeout l.(pl_last_capture);; mret (l, true)
  else
  captured ← w_try (tmux others 316 capture_visible);
  match captured with
  | Err _ => mret (set_consecutive 0 l, false)
  | Ok capture =>
      if trim capture == "" then mret (set_consecutive 0 l, false)
      else
      pause others 317;;
      rules ← w_of_result turn.(pn_rules);
      learned_detected ← w_of_result (learned_startup_readiness_detected rules capture);
      let l := set_last_capture capture l in
      if (learned_detected : bool) || detect ip.(ip_probe_kind) capture
      then after_detection learned_detected l
      else without_detection turn.(pn_recorded) l
  end.

(** [false]: the turns given were not enough. *)
Fixpoint init_probe_loop (turns : list ProbeTurn) (l : ProbeLocals) : W bool :=
  match turns with
  | [] => mret false
  | turn :: turns' =>
      '(l, over) ← init_probe_turn turn l;
      if (over : bool) then mret true else init_probe_loop turns' l
  end.
Definition run_init_probe_task (turns : list ProbeTurn) : W bool := init_probe_loop turns probe_locals.

End InitProbeTask.

Section Respawn.
Context {EXT : Externals} {PX : PromptExternals} {T : Type}.
Variable others : nat → WatchRuntime T → World → WatchRuntime T * World.
#[local] Existing Instances W_ret W_bind.

(** [get_manifest] falls back on nothing: an unknown provider panics ([None]). *)
Definition respawn_init_probe_for_agent (agent_id : string) : W (option bool) :=
  agent ← stm others 318 (query_agent_sync agent_id);
  match agent with
  | None => mret (Some false)
  | Some agent =>
      if agent.(a_state) != STATE_SPAWNING_INTERVENTION then mret (Some false)
      else
      rt ← get_wr;
      match rt.(wr_agents).(at_panes) !! agent_id with
      | None => mret (Some false)
      | Some entry =>
          match try_get_manifest agent.(a_provider) with
          | None => mret None
          | Some _ =>
              modify_wr (add_task (AgentInitProbe agent_id entry.(ie_pane_id) agent.(a_provider)));;
              mret (Some true)
          end
      end
  end.

End Respawn.

(** ** Agents that are starting *)

Section Starting.
Context {EXT : Externals}.
Variable agent_id : string.
Notation in_state := (in_state agent_id).
Definition starting_states : list string := [STATE_SPAWNING; STATE_SPAWNING_INTERVENTION].
Notation starting_not := (outside agent_id starting_states).

Lemma idle_matched_run w a :
  w.(w_db).(agents) !! agent_id = Some a → a.(a_state) = STATE_SPAWNING → current_job agent_id w.(w_db) = None →
  ∃ w', mark_agent_idle_matched agent_id w = (Ok (1%nat, None), w') ∧ in_state STATE_IDLE w'.(w_db).
Proof.
  intros Ha Hst Hcur.
  set (g := λ x : Agent, (x.(a_state) is_in ["SPAWNING"; "WAITING_FOR_ACK"; "BUSY"]) &&
                         (x.(a_state_version) =? a.(a_state_version))).
  set (f := λ x, bump_version w.(w_now) (set_a_sub_state (Some "Matched") (set_a_state "IDLE" x))).
  assert (Hg : g a = true) by (unfold g; rw Hst Z.eqb_refl; reflexivity).
  pose proof (update_agent_hit (E:=CcbdError) w agent_id g f a Ha Hg) as Hup. set (w1 := set_db _ w) in Hup.
  assert (Hev := λ p, insert_event_null_run w1 "insert marker matched state_change" agent_id "state_change" p
    ltac:(cbn; rw lookup_insert_eq; by eexists)).
  assert (Hjob : affected_job_id agent_id w = (Ok None, w)).
  { unfold affected_job_id, query_dispatched_job_for_agent_sync. step_pure.
    fold (current_job agent_id w.(w_db)). by rw Hcur. }
  assert (∃ w2, mark_agent_idle_matched_outcome_sync agent_id w = (Ok (MkMarkerMatchedSyncOutcome 1 None None), w2) ∧
    in_state STATE_IDLE w2.(w_db)) as (w2 & Hsync & Hidle).
  { eexists. split.
    - unfold mark_agent_idle_matched_outcome_sync, mark_agent_idle_matched_outcome_sync_inner, query_agent_row,
        query_dispatched_job_for_agent_sync. apply transaction_ok. step_pure. rw Ha. cbv zeta.
      rw Hst. change (negb (is_active_state STATE_SPAWNING)) with false. cbv iota. step_pure.
      fold (current_job agent_id w.(w_db)). rw Hcur. unfold mark_agent_idle_matched_conn_inner.
      erewrite bind_ok; [reflexivity|]. step_pure. rw (bind_ok _ _ _ _ _ Hup).
      erewrite bind_ok; [reflexivity|]. change (1%nat == 1%nat) with true. cbn [when]. step_pure.
      by rw (bind_ok _ _ _ _ _ (Hev _)).
    - eexists. split; [apply lookup_insert_eq|done]. }
  assert (∃ w3, publish_outcome agent_id None (MkMarkerMatchedSyncOutcome 1 None None) w2 =
    (Ok (MkMarkerMatchedOutcome 1 None None None), w3) ∧ w3.(w_db) = w2.(w_db)) as (w3 & Hpub & Hdb)
    by (eexists; by split).
  exists w3. rw Hdb. split; [|done]. unfold mark_agent_idle_matched, mark_agent_idle_matched_outcome.
  assert (Hout : (affected_job ← affected_job_id agent_id;
    outcome ← mark_agent_idle_matched_outcome_sync agent_id; publish_outcome agent_id affected_job outcome) w =
    (Ok (MkMarkerMatchedOutcome 1 None None None), w3)).
  { by rw (bind_ok _ _ _ _ _ Hjob) (bind_ok _ _ _ _ _ Hsync). }
  by rw (bind_ok _ _ _ _ _ Hout).
Qed.

Lemma unknown_ends w eid a reason pane rules :
  w.(w_db).(agents) !! agent_id = Some a → a.(a_state) = STATE_SPAWNING → consistent w.(w_db) →
  w.(w_db).(evidence) !! eid = None →
  ∃ r w', mark_agent_unknown eid agent_id reason pane rules w = (r, w') ∧ in_state STATE_UNKNOWN w'.(w_db).
Proof.
  intros Ha Hst Hc Hfresh.
  destruct (unknown_run w eid agent_id a reason pane rules Ha) as [Hcm Hrun]; [by rw Hst|done..|].
  set (wm := set_db _ w) in Hcm, Hrun.
  destruct (lost_job_run wm agent_id reason Hcm) as (w1 & Hl & Hags & _ & _).
  { cbn. rw lookup_insert_eq. by eexists. }
  pose proof (Hrun w1 Hl) as Hu.
  assert (Hin : in_state STATE_UNKNOWN w1.(w_db)).
  { unfold in_state. rw Hags. eexists. split; [apply lookup_insert_eq|done]. }
  unfold mark_agent_unknown, affected_job_id, query_dispatched_job_for_agent_sync. step_pure.
  rw (bind_ok _ _ _ _ _ Hu). destruct (j_id <$> _); (eexists _, _; split; [reflexivity|exact Hin]).
Qed.

Lemma failed_sync w reason :
  (∃ w', mark_agent_failed_from_intervention_sync agent_id reason w = (Ok 1%nat, w') ∧ starting_not w'.(w_db)) ∨
  mark_agent_failed_from_intervention_sync agent_id reason w = (Ok 0%nat, w) ∧
    ¬ in_state STATE_SPAWNING_INTERVENTION w.(w_db).
Proof.
  unfold mark_agent_failed_from_intervention_sync, query_agent_row, in_state.
  destruct (agents (w_db w) !! agent_id) as [a|] eqn:Ha; cycle 1.
  { right. split; [|by intros (? & ? & _)]. unfold transaction. step_pure. rw Ha. by destruct w. }
  destruct (a.(a_state) == STATE_SPAWNING_INTERVENTION) eqn:Hst; cycle 1.
  { right. assert (Hn := Hst). apply bool_decide_eq_false in Hn. split; [|intros (? & ? & ?); congruence].
    unfold transaction. step_pure. rw Ha. cbv zeta. rw Hst. by destruct w. }
  left. set (g := λ x : Agent, (x.(a_state) == STATE_SPAWNING_INTERVENTION) &&
                         (x.(a_state_version) =? a.(a_state_version))).
  set (f := λ x, bump_version w.(w_now) (set_a_error_code (Some reason) (set_a_state STATE_FAILED x))).
  assert (Hg : g a = true) by (unfold g; by rw Hst Z.eqb_refl).
  pose proof (update_agent_hit (E:=CcbdError) w agent_id g f a Ha Hg) as Hup. set (w1 := set_db _ w) in Hup.
  assert (Hev := λ p, insert_event_null_run w1 "insert failed state_change" agent_id "state_change" p
    ltac:(cbn; rw lookup_insert_eq; by eexists)).
  eexists. split.
  - apply transaction_ok. step_pure. rw Ha. cbv zeta. rw Hst. cbn [negb]. step_pure.
    rw (bind_ok _ _ _ _ _ Hup). change (1%nat == 1%nat) with true. cbn [when].
    erewrite bind_ok; [reflexivity|]. by rw (bind_ok _ _ _ _ _ (Hev _)).
  - apply (in_state_outside _ _ STATE_FAILED); [|set_solver]. eexists. by split; [apply lookup_insert_eq|].
Qed.
Lemma failed_run w reason :
  (∃ n w', mark_agent_failed_from_intervention agent_id reason w = (Ok n, w') ∧ starting_not w'.(w_db)) ∨
  mark_agent_failed_from_intervention agent_id reason w = (Ok 0%nat, w) ∧
    ¬ in_state STATE_SPAWNING_INTERVENTION w.(w_db).
Proof.
  unfold mark_agent_failed_from_intervention.
  destruct (failed_sync w reason) as [(w' & Hrun & Hn)|[Hrun Hn]]; rw (bind_ok _ _ _ _ _ Hrun); [left|by right].
  eexists _, _. split; [reflexivity|exact Hn].
Qed.

End Starting.

(** ** The task settles its agent *)

Section ProbeSettles.
Context {EXT : Externals} {PX : PromptExternals} {CC : CharClass} {KC : KbCodec} {RX : RegexCaptures}.
Context {T : Type} {TX : TmuxExec T}.
Context (server : TmuxServer) (llm : string → string → string → Result LlmOutcome LlmError) (faults : KbFaults).
Context (others : nat → WatchRuntime T → World → WatchRuntime T * World) (ip : InitProbe).
#[local] Existing Instances W_ret W_bind enters_not_preorder agents_kept_preorder.
Notation agent_id := ip.(ip_agent_id).
Notation meets := (meets (T := T)).

Definition spawning : Db → Prop := in_state agent_id STATE_SPAWNING.
Definition intervened : Db → Prop := in_state agent_id STATE_SPAWNING_INTERVENTION.
Definition over (db : Db) : Prop := outside agent_id starting_states db.
(** The tables are sound, the evidence the task may write is not there yet, and
    no job was dispatched to the agent while it is starting. *)
Definition probe_ready (db : Db) : Prop :=
  consistent db ∧ db.(evidence) !! ip.(ip_evidence_id) = None ∧
  (spawning db → current_job agent_id db = None).

(** The other tasks keep that so, and none of them starts the agent. *)
Hypothesis others_ready : kept_by others probe_ready.
Hypothesis others_spawn_not : kept_by others (λ db, ¬ spawning db).
Hypothesis others_intervene_not : kept_by others (λ db, ¬ intervened db).

Lemma over_split db : over db ↔ ¬ spawning db ∧ ¬ intervened db.
Proof.
  unfold over, outside, starting_states, spawning, intervened. split.
  - intros Ho. split; apply Ho; set_solver.
  - intros [H1 H2] st Hst. apply elem_of_cons in Hst as [->|Hst]; [exact H1|].
    by apply list_elem_of_singleton in Hst as ->.
Qed.
Lemma others_over : kept_by others over.
Proof.
  intros p rt w [H1 H2]%over_split. apply over_split. split; [by apply others_spawn_not|by apply others_intervene_not].
Qed.
Hint Resolve others_over others_ready : core.

Lemma over_stm {A} p (m : M CcbdError A) :
  respects (enters_not agent_id starting_states) m → meets over (stm others p m) (λ _, over).
Proof. intros Hm. eapply meets_stm_kept; [done| |exact Hm]. intros db db' HR HI. by apply HR. Qed.
Lemma over_wake p : meets over (stm others p wake_up) (λ _, over).
Proof. apply over_stm. unfold wake_up. solve_respects. Qed.
Lemma over_finish : meets over (finish_startup_readiness others ip) (λ _, over).
Proof.
  unfold finish_startup_readiness. apply meets_then; [apply over_wake|]. intros _.
  apply meets_then; intros; by apply meets_away.
Qed.
Lemma over_ret {A} (a : A) : meets over (mret a) (λ _, over).
Proof. by apply meets_ret. Qed.

(** A transition to a state that is not starting: accepted, refused or without an
    agent, the agent is not starting in the states it was to leave. *)
Lemma transit_ends (I : Db → Prop) p from to reason :
  kept_by others I → to ≠ STATE_SPAWNING → to ≠ STATE_SPAWNING_INTERVENTION → from ≠ [] →
  meets I (stm others p (transit_agent_state agent_id from to reason))
    (λ r db, match r with Ok _ => over db | Err _ => I db ∧ ∀ st, st ∈ from → ¬ in_state agent_id st db end).
Proof.
  intros HI H1 H2 Hne. apply meets_stm; [done|]. intros w Hw. rewrite transit_agent_state_functional.
  destruct (agents (w_db w) !! agent_id) as [a|] eqn:Ha; cycle 1.
  { split; [done|]. intros st _ (x & Hx & _). cbn in Hx. congruence. }
  rewrite (bool_decide_false _ Hne). destruct (a_state a is_in from) eqn:Hin; cbn.
  - apply (in_state_outside _ _ to); [eexists; by split; [apply lookup_insert_eq|]|set_solver].
  - split; [done|]. intros st Hst (x & Hx & <-). apply bool_decide_eq_false in Hin. by simplify_eq.
Qed.

Lemma learned_ends : meets probe_ready (mark_idle_after_learned_startup_readiness others ip) (λ _, over).
Proof.
  unfold mark_idle_after_learned_startup_readiness. eapply meets_tried; [by apply transit_ends|].
  intros [[]|e]; [apply over_finish|].
  assert (Hw : ∀ db, probe_ready db ∧ (∀ st, st ∈ [STATE_SPAWNING; STATE_SPAWNING_INTERVENTION] → ¬ in_state agent_id st db) → over db).
  { by intros db [_ Hall]. }
  destruct e; first [by apply meets_throw|by apply meets_ret].
Qed.

Lemma kept_over {A} p (m : M CcbdError A) : respects agents_kept m → meets over (stm others p m) (λ _, over).
Proof. intros Hm. apply over_stm. by apply enters_not_kept. Qed.

(** From a state the task saw to be another than the intervention. *)
Lemma matched_ends :
  meets (λ db, probe_ready db ∧ ¬ intervened db) (stm others 305 (mark_agent_idle_matched agent_id)) (λ _, over).
Proof.
  apply meets_stm.
  { intros p rt w [H1 H2]. split; [by apply others_ready|by apply others_intervene_not]. }
  intros w [(_ & _ & Hjob) Hn].
  destruct (agents (w_db w) !! agent_id) as [a|] eqn:Ha; [destruct (decide (a.(a_state) = STATE_SPAWNING)) as [Hs|Hs]|].
  - destruct (idle_matched_run agent_id w a Ha Hs) as (w' & Hrun & Hidle); [apply Hjob; by exists a|].
    rewrite Hrun. apply (in_state_outside _ _ _ _ Hidle). set_solver.
  - apply (enters_not_idle_matched agent_id starting_states); [set_solver..|]. apply over_split.
    split; [intros (x & Hx & Hxs); congruence|done].
  - apply (enters_not_idle_matched agent_id starting_states); [set_solver..|]. by apply no_agent_outside.
Qed.

Lemma seed_ends : meets probe_ready (mark_idle_after_seed_probe others ip) (λ _, over).
Proof.
  unfold mark_idle_after_seed_probe.
  apply (meets_bind _ _ _ (λ r db, probe_ready db ∧ ∃ st, r = Ok st ∧
    st = (λ a, (a.(a_state), a.(a_state_version))) <$> db.(agents) !! agent_id)).
  { apply meets_stm; [done|]. intros w Hw. split; [exact Hw|]. by eexists. }
  { by intros e db (_ & st & [=] & _). }
  intros st. destruct (match st with Some (state, _) => _ | None => _ end) eqn:Hst.
  - apply (meets_weaken (λ db, ¬ spawning db) _ _ (λ _, over)); [| |done]; cycle 1.
    { intros db (_ & st' & [= <-] & ->) (a & Ha & Hs). rewrite Ha /= Hs in Hst. done. }
    eapply meets_tried; [by apply transit_ends|]. intros [[]|e].
    + apply meets_then; [|intros; apply over_finish]. unfold emit_unknown_pattern_self_healed.
      apply meets_then; [|by intros; apply over_ret]. apply kept_over, kept_insert_and_notify.
    + assert (Hw : ∀ db, ¬ spawning db ∧ (∀ st, st ∈ [STATE_SPAWNING_INTERVENTION] → ¬ in_state agent_id st db) → over db).
      { intros db [Hn Hall]. apply over_split. split; [done|]. apply Hall. set_solver. }
      destruct e; first [by apply meets_throw|by apply meets_ret].
  - apply (meets_weaken (λ db, probe_ready db ∧ ¬ intervened db) _ _ (λ _, over)); [| |done]; cycle 1.
    { intros db (Hr & st' & [= <-] & ->). split; [done|]. intros (a & Ha & Hs). rewrite Ha /= Hs in Hst. done. }
    eapply meets_bind; [apply matched_ends|done|]. intros [changes affected]. cbv beta iota.
    destruct (bool_decide _); [|apply over_ret]. apply meets_then; [|intros; apply over_finish].
    destruct affected; [|apply over_ret]. apply kept_over. unfold notify_job_update. solve_respects.
Qed.

Definition at_timeout (db : Db) : Prop := over db ∨ probe_ready db ∧ ¬ intervened db.
Lemma unknown_settles capture rules :
  meets at_timeout (stm others 313 (mark_agent_unknown ip.(ip_evidence_id) agent_id "INIT_PROBE_TIMEOUT" capture rules))
    (λ _, over).
Proof.
  apply meets_stm.
  { intros p rt w [H|[H1 H2]]; [left; by apply others_over|right]. split; [by apply others_ready|by apply others_intervene_not]. }
  intros w [Hn|[(Hc & Hfresh & _) Hi]]; [by apply (enters_not_unknown agent_id starting_states); [set_solver|]|].
  destruct (agents (w_db w) !! agent_id) as [a|] eqn:Ha; [destruct (decide (a.(a_state) = STATE_SPAWNING)) as [Hs|Hs]|].
  - destruct (unknown_ends agent_id w ip.(ip_evidence_id) a "INIT_PROBE_TIMEOUT" capture rules Ha Hs Hc Hfresh)
      as (r & w' & Hrun & Hunknown).
    rewrite Hrun. apply (in_state_outside _ _ _ _ Hunknown). set_solver.
  - apply (enters_not_unknown agent_id starting_states); [set_solver|]. apply over_split.
    split; [intros (x & Hx & Hxs); congruence|done].
  - apply (enters_not_unknown agent_id starting_states); [set_solver|]. by apply no_agent_outside.
Qed.

Lemma timeout_ends capture : meets probe_ready (mark_unknown_after_timeout others ip capture) (λ _, over).
Proof.
  unfold mark_unknown_after_timeout.
  apply (meets_bind _ _ _ (λ r db, match r with
    | Ok n => over db ∨ n = 0%nat ∧ probe_ready db ∧ ¬ intervened db | Err _ => False end)); [| done |].
  { apply meets_stm; [done|]. intros w Hw.
    destruct (failed_run agent_id w "MASTER_OFFLINE_INTERVENTION_TIMEOUT") as [(n & w' & -> & Hn)|[-> Hn]]; [by left|by right]. }
  intros n. destruct (bool_decide (0 < n)%nat) eqn:Hn.
  - apply (meets_weaken over _ _ (λ _, over)); [apply over_wake| |done].
    intros db [Ho|[-> _]]; [exact Ho|done].
  - apply (meets_weaken at_timeout _ _ (λ _, over)); [|by intros db [Ho|[_ Hr]]; [left|right]|done].
    eapply meets_bind; [apply unknown_settles|done|]. intros [changes affected]. cbv beta iota.
    destruct (bool_decide (0 < changes)%nat); [|apply over_ret]. apply meets_then; [|intros; apply over_wake].
    destruct affected; [|apply over_ret]. apply kept_over. unfold notify_job_update. solve_respects.
Qed.

(** Asking a person: the agent is starting still, unless the report failed. *)
Definition goes_on {A} (r : Result A CcbdError) (db : Db) : Prop :=
  match r with Ok _ => probe_ready db | Err _ => over db end.
Lemma ready_event db now id ty payload :
  consistent (post_event now id ty payload db) → probe_ready db → probe_ready (post_event now id ty payload db).
Proof. intros Hc (_ & Hev & Hjob). by split_and!. Qed.
Lemma consistent_after_run {E A} (m : M E A) w : respects sound m → consistent w.(w_db) → consistent (m w).2.(w_db).
Proof. intros Hm Hc. by apply Hm. Qed.

Lemma notify_run w id ty payload :
  (is_Some (w.(w_db).(agents) !! id) → ∃ fr w',
     insert_event_and_notify id None ty (json_to_string payload) w = (Ok fr, w') ∧
     w'.(w_db) = post_event w.(w_now) id ty payload w.(w_db)) ∧
  (w.(w_db).(agents) !! id = None →
     ∃ e, insert_event_and_notify id None ty (json_to_string payload) w = (Err e, w)).
Proof.
  unfold insert_event_and_notify, insert_event_sync, try_, insert_event_row, mbind, M_bind.
  cbn [event_idempotency_taken]. split.
  - intros [a ->]. eexists _, _. split; [reflexivity|done].
  - intros ->. by eexists.
Qed.

Lemma event_reports p ty payload :
  meets probe_ready (stm others p (insert_event_and_notify agent_id None ty (json_to_string payload))) goes_on.
Proof.
  apply meets_stm; [done|]. intros w Hw. destruct (notify_run w agent_id ty payload) as [Hsome Hnone].
  destruct (agents (w_db w) !! agent_id) as [a|] eqn:Ha.
  - destruct Hsome as (fr & w' & Hrun & Hdb); [by eexists|]. rewrite Hrun. cbn. rewrite Hdb. apply ready_event; [|done].
    rewrite -Hdb. pose proof (consistent_after_run (insert_event_and_notify agent_id None ty (json_to_string payload)) w
      (sound_insert_event_notify _ _ _ _) (proj1 Hw)) as Hc. by rewrite Hrun in Hc.
  - destruct Hnone as (e & ->); [done|]. by apply no_agent_outside.
Qed.

Lemma intervention_goes_on payload :
  meets probe_ready (mark_spawning_intervention_and_emit_unknown_pattern others ip payload) goes_on.
Proof.
  unfold mark_spawning_intervention_and_emit_unknown_pattern.
  apply (meets_tried _ _ _ (λ r db, match r with
    | Ok _ => probe_ready db | Err (AgentWrongState _) => probe_ready db | Err _ => over db end)).
  - apply meets_stm; [done|]. intros w Hw.
    pose proof (consistent_after_run _ w (sound_transit_agent_state agent_id [STATE_SPAWNING] STATE_SPAWNING_INTERVENTION
      (Some UNKNOWN_PATTERN_STABLE)) (proj1 Hw)) as Hc. revert Hc.
    rewrite transit_agent_state_functional. destruct (agents (w_db w) !! agent_id) as [a|] eqn:Ha; cycle 1.
    { intros _. by apply no_agent_outside. }
    destruct (_ || _); [|done]. cbn. intros Hc. split_and!; [done|apply Hw|].
    intros (x & Hx & Hs). exfalso. cbn in Hx. rewrite lookup_insert_eq in Hx. by simplify_eq.
  - intros [[]|e].
    + eapply meets_bind; [apply event_reports|done|]. intros fr. cbn [goes_on].
      apply meets_stm; [done|]. intros w Hw. exact Hw.
    + destruct e; first [by apply meets_throw|by apply meets_ret].
Qed.

(** ** Turns *)

(** A turn ends the task with the agent settled, or lets it go on. *)
Definition turn_ends {L} (r : Result (L * bool) CcbdError) (db : Db) : Prop :=
  match r with Ok (_, false) => probe_ready db | _ => over db end.

(** The scan reports its errors as values and writes nothing in the tables. *)
Definition answers {A} (r : Result A CcbdError) (db : Db) : Prop :=
  match r with Ok _ => probe_ready db | Err _ => False end.
Lemma answers_then {A B} (m : W A) (f : A → W B) :
  meets probe_ready m answers → (∀ a, meets probe_ready (f a) answers) → meets probe_ready (m ≫= f) answers.
Proof. intros Hm Hf. by eapply meets_bind. Qed.
Lemma answers_away {A} (m : W A) :
  (∀ rt w, ∃ a rt', m rt w = (Ok a, rt', w)) → meets probe_ready m answers.
Proof. intros Hm rt w Hw. by destruct (Hm rt w) as (a & rt' & ->). Qed.
Lemma answers_pause p : meets probe_ready (pause others p) answers.
Proof. intros rt w Hw. unfold pause. specialize (others_ready p rt w Hw). by destruct (others p rt w). Qed.

Lemma scan_answers : meets probe_ready (scan_startup_prompt server llm faults others ip) answers.
Proof.
  unfold scan_startup_prompt. destruct (negb _); [by apply meets_ret|].
  apply answers_then; [apply answers_pause|]. intros _.
  apply answers_then; [apply answers_away; intros; by eexists _, _|]. intros rt.
  apply answers_then; [apply answers_away; intros; by eexists _, _|]. intros now.
  destruct (load_or_bootstrap_kb faults _) as [[kb|e] files]; cbv zeta.
  - destruct (handle_prompt_chain _ _ _ _) as [outcome run].
    apply answers_then; [apply answers_away; intros; by eexists _, _|]. intros _. by apply meets_ret.
  - apply answers_then; [apply answers_away; intros; by eexists _, _|]. intros _. by apply meets_ret.
Qed.

Lemma goes_on_ret (l : ProbeLocals) : meets probe_ready (mret (l, false)) turn_ends.
Proof. by apply meets_ret. Qed.
Lemma count_ready_ends mark l : meets probe_ready mark (λ _, over) → meets probe_ready (count_ready mark l) turn_ends.
Proof.
  intros Hm. unfold count_ready. cbn [record_readiness_match].
  destruct (bool_decide (STEADY_COUNT ≤ _)%nat); [|apply goes_on_ret].
  eapply meets_bind; [exact Hm|done|]. intros u. by apply meets_ret.
Qed.

Lemma after_detection_ends learned l :
  meets probe_ready (after_detection server llm faults others ip learned l) turn_ends.
Proof.
  unfold after_detection. destruct (is_prompt_handling_provider _ && negb learned).
  - eapply meets_bind; [apply scan_answers|done|]. cbn [answers].
    intros [[]|e]; [apply count_ready_ends, seed_ends|apply goes_on_ret|..|apply goes_on_ret];
      (destruct (provider_seed_probe_can_count_as_ready _); [apply count_ready_ends, seed_ends|apply goes_on_ret]).
  - apply count_ready_ends. destruct learned; [apply learned_ends|apply seed_ends].
Qed.

Lemma report_ends recorded l : meets probe_ready (record_and_report others ip recorded l) turn_ends.
Proof.
  unfold record_and_report. destruct (record_unknown _ _ _ _) as [[payload|] d]; cbv zeta; [|apply goes_on_ret].
  eapply meets_bind; [apply intervention_goes_on|done|]. intros u. cbn [goes_on]. apply goes_on_ret.
Qed.

Lemma without_detection_ends recorded l :
  meets probe_ready (without_detection server llm faults others ip recorded l) turn_ends.
Proof.
  unfold without_detection. cbv zeta. eapply meets_bind; [apply scan_answers|done|]. cbn [answers].
  intros [[]|e].
  - apply count_ready_ends, seed_ends.
  - destruct (is_prompt_handling_provider _); [apply goes_on_ret|apply report_ends].
  - apply report_ends.
  - apply goes_on_ret.
  - apply goes_on_ret.
Qed.

(** The rules cannot be read, or one of them does not compile. *)
Definition rules_fail (turn : ProbeTurn) : Prop :=
  match turn.(pn_rules) with
  | Err _ => True
  | Ok rules => ∃ capture e, learned_startup_readiness_detected rules capture = Err e
  end.
(** A turn ends as above, or the rules of it failed. *)
Definition turn_settles {L} (turn : ProbeTurn) (r : Result (L * bool) CcbdError) (db : Db) : Prop :=
  turn_ends r db ∨ (∃ e, r = Err e) ∧ rules_fail turn.

Lemma turn_ends_ok turn l :
  meets probe_ready (init_probe_turn server llm faults others ip turn l) (turn_settles turn).
Proof.
  assert (Hends : ∀ m : W (ProbeLocals * bool), meets probe_ready m turn_ends → meets probe_ready m (turn_settles turn)).
  { intros m Hm rt w Hw. left. by apply Hm. }
  unfold init_probe_turn. destruct (ip_deadline ip <=? pn_elapsed turn).
  { apply Hends. eapply meets_bind; [apply timeout_ends|done|]. intros u. by apply meets_ret. }
  eapply (meets_bind _ _ _ answers); [|done|].
  { unfold tmux. intros rt w Hw. unfold w_try, mbind, W_bind, pause. specialize (others_ready 316%nat rt w Hw).
    destruct (others 316%nat rt w) as [rt' w']. by destruct (capture_visible server ip (wr_terminal rt')). }
  cbn [answers]. intros [capture|e]; [|apply Hends, goes_on_ret].
  destruct (trim capture == ""); [apply Hends, goes_on_ret|].
  eapply meets_bind; [apply answers_pause|done|]. intros u. cbn [answers].
  destruct (pn_rules turn) as [rules|e] eqn:Hr; cycle 1.
  { intros rt w _. right. split; [by eexists|]. unfold rules_fail. by rewrite Hr. }
  apply (meets_weaken probe_ready probe_ready (learned_detected ← w_of_result (learned_startup_readiness_detected rules capture);
    let l := set_last_capture capture l in
    if (learned_detected : bool) || detect ip.(ip_probe_kind) capture
    then after_detection server llm faults others ip learned_detected l
    else without_detection server llm faults others ip turn.(pn_recorded) l) (turn_settles turn) (turn_settles turn)); [|done..].
  destruct (learned_startup_readiness_detected rules capture) as [b|e] eqn:Hdet; cycle 1.
  { intros rt w _. right. split; [by eexists|]. unfold rules_fail. rewrite Hr. by exists capture, e. }
  apply Hends. apply (meets_weaken probe_ready probe_ready (if b || detect ip.(ip_probe_kind) capture
    then after_detection server llm faults others ip b (set_last_capture capture l)
    else without_detection server llm faults others ip turn.(pn_recorded) (set_last_capture capture l)) turn_ends turn_ends);
    [|done..].
  destruct (b || _); [apply after_detection_ends|apply without_detection_ends].
Qed.

(** A turn past the deadline ends the task. *)
Lemma deadline_ends turn l rt w :
  ip.(ip_deadline) ≤ turn.(pn_elapsed) →
  match (init_probe_turn server llm faults others ip turn l rt w).1.1 with Ok (_, false) => False | _ => True end.
Proof.
  intros Hd. unfold init_probe_turn. apply Z.leb_le in Hd. rewrite Hd. unfold mbind, W_bind.
  by destruct (mark_unknown_after_timeout others ip _ rt w) as [[[]] ?].
Qed.

(** C14: a started agent is settled, if the learned rules can be used.  Whatever the
    screen shows, the model answers and the other tasks do, as long as these keep
    the tables sound, do not start the agent again, dispatch no job to it before it
    is ready and leave the evidence to be written free, the task that waits for the
    agent returns when its deadline has passed at the latest; and then the agent is
    not starting any more: it is ready, given up, or gone.  The one exception is an
    error at a turn at which the learned rules could not be read or one of them did
    not compile: it ends the task whatever the agent is. *)
Theorem init_probe_settles (turns : list ProbeTurn) (rt : WatchRuntime T) (w : World) :
  probe_ready w.(w_db) → Exists (λ turn, ip.(ip_deadline) ≤ turn.(pn_elapsed)) turns →
  (run_init_probe_task server llm faults others ip turns rt w).1.1 ≠ Ok false ∧
  (outside agent_id [STATE_SPAWNING; STATE_SPAWNING_INTERVENTION]
     (run_init_probe_task server llm faults others ip turns rt w).2.(w_db) ∨
   (∃ e, (run_init_probe_task server llm faults others ip turns rt w).1.1 = Err e) ∧ Exists rules_fail turns).
Proof.
  unfold run_init_probe_task. generalize probe_locals. revert rt w.
  induction turns as [|turn turns IH]; intros rt w l Hw Hd; [by apply Exists_nil in Hd|].
  cbn [init_probe_loop]. unfold mbind, W_bind.
  pose proof (turn_ends_ok turn l rt w Hw) as Hturn.
  pose proof (deadline_ends turn l rt w) as Hdead.
  destruct (init_probe_turn _ _ _ _ _ turn l rt w) as [[r rt'] w']. cbn [fst snd] in Hturn, Hdead.
  destruct Hturn as [Hturn|[[e ->] Hf]]; [|split; [done|right; split; [by eexists|by left]]].
  destruct r as [[l' []]|e]; cbn in Hturn |- *; [by split; [|left]| |by split; [|left]].
  destruct (IH rt' w' l' Hturn) as [Hne Hend].
  { apply Exists_cons in Hd as [Hd|Hd]; [by destruct (Hdead Hd)|done]. }
  split; [exact Hne|]. destruct Hend as [?|[? ?]]; [by left|right]. split; [done|by right].
Qed.

Definition not_ready (n : nat) (r : Result (ProbeLocals * bool) CcbdError) : Prop :=
  match r with Ok (l, finished) => finished = false ∧ l.(pl_consecutive) = n | Err _ => True end.
Lemma report_not_ready recorded l rt w :
  not_ready l.(pl_consecutive) (record_and_report others ip recorded l rt w).1.1.
Proof.
  unfold record_and_report. destruct (record_unknown _ _ _ _) as [[payload|] d]; [|done].
  cbv zeta. unfold mbind, W_bind.
  by destruct (mark_spawning_intervention_and_emit_unknown_pattern _ _ _ rt w) as [[[[]|e] rt'] w'].
Qed.

(** A screen no rule and no probe knows never makes an agent ready, although the
    prompt runner confirms it: the count is reset on every such turn. *)
Lemma undetected_never_ready recorded l rt w :
  ∃ n, (n ≤ 1)%nat ∧ not_ready n (without_detection server llm faults others ip recorded l rt w).1.1.
Proof.
  unfold without_detection, mbind, W_bind. cbv zeta.
  destruct (scan_startup_prompt _ _ _ _ _ rt w) as [[[[[]|e]|e] rt'] w'].
  - exists 1%nat. split; [lia|done].
  - exists 0%nat. split; [lia|]. destruct (is_prompt_handling_provider _); [done|apply report_not_ready].
  - exists 0%nat. split; [lia|]. apply report_not_ready.
  - exists 0%nat. split; [lia|done].
  - exists 0%nat. split; [lia|done].
  - exists 0%nat. split; [lia|done].
Qed.

End ProbeSettles.
