(* ===== verification/AckTasks.v ===== *)
(** * Waiting for the acknowledgement

    [src/src/rpc/handlers/ack.rs]: the task that follows a command that was typed.
    It compares the agent's screen with the one before the command until the
    agent is seen working, and otherwise gives the command back or gives the
    agent up. *)
From S2P Require Import Prelude Json Schema Sql MasterTables JobGate Invariant AgentGate Text ReplyText.
From S2P Require Import Providers Jobs JobsProofs Completion Evidence StateMachine StateMachineProofs Events Agents LogReader.
From S2P Require Import Recovery Lifecycle LifecycleProofs PromptCases PromptRunner PromptStore PromptIntegration.
From S2P Require Import HealthCheck HealthCheckProofs PaneDiff Tmux AgentIo Tasks.

Definition CAPTURE_SEED_STABILITY_MS : Z := 500.
Definition CAPTURE_SEED_DEADLINE_MS : Z := 5000.
Definition ACK_BUSY_RETRY_ATTEMPTS : nat := 5.

Inductive AckBusyOutcome : Type :=
| MarkedBusy | AlreadyBusy | AlreadyIdle | AckPromptPending | AckTerminal | AckDeferred.
#[global] Instance AckBusyOutcome_eq_dec : EqDecision AckBusyOutcome.
Proof. solve_decision. Defined.

Section AckStatements.
Context {EXT : Externals}.

(** The statements run one after the other on the locked connection, in no
    transaction. *)
Definition ack_mark_busy_or_resolve_once (agent_id reason : string) : M CcbdError AckBusyOutcome :=
  current ← query_agent_row agent_id;
  outcome ←
    match current with
    | None => mret AckTerminal
    | Some a =>
        let state := a.(a_state) in
        if state == STATE_WAITING_FOR_ACK then
          now ← asks w_now;
          changes ← update_agent agent_id
            (λ b, (b.(a_state) == "WAITING_FOR_ACK") && (b.(a_state_version) =? a.(a_state_version)))
            (λ b, bump_version now (set_a_state "BUSY" b));
          if changes == 1%nat then
            insert_event_null "insert ACK busy state_change" agent_id "state_change"
              (json_object [("from", JString STATE_WAITING_FOR_ACK); ("to", JString STATE_BUSY);
                            ("reason", JString reason)]);;
            mret MarkedBusy
          else mret AckDeferred
        else mret (if state == STATE_BUSY then AlreadyBusy
                   else if state == STATE_IDLE then AlreadyIdle
                   else if state == STATE_PROMPT_PENDING then AckPromptPending
                   else AckTerminal)
    end;
  when (outcome is_in [AlreadyIdle; AckPromptPending]) wake_up;;
  mret outcome.

Definition emit_ack_busy_deferred (agent_id reason : string) : M CcbdError unit :=
  insert_event agent_id None "ack_busy_deferred" (json_to_string (json_object
    [("reason", JString reason); ("attempts", JNumber (Z.of_nat ACK_BUSY_RETRY_ATTEMPTS))]));;
  mret tt.

Definition safe_pre_send (reason : string) : bool :=
  reason is_in ["pane_unregistered_during_ack"; "reader_unregistered_during_ack"; "tmux_capture_failed_during_ack"].

(** What happens to the job the agent was given. *)
Definition settle_ack_job (agent_id reason job_id : string) (requeue_pre_send : bool) : M CcbdError unit :=
  job ← query_job_sync job_id;
  (match job with
   | Some job =>
       when ((job.(j_status) == "DISPATCHED") && (job.(j_agent_id) == agent_id))
         (if requeue_pre_send then requeue_job_state_conn_sync job_id Dispatched None reason
          else
            update_job job_id (λ j, j.(j_status) == "DISPATCHED") (set_j_error_reason (Some reason));;
            transit_job_state job_id Dispatched Failed reason)
   | None => mret tt
   end);;
  insert_event_null "insert ACK fallback job_resolution" agent_id "job_resolution"
    (json_object [("job_id", JString job_id);
                  ("job_resolution", JString (if requeue_pre_send then "REQUEUED" else "FAILED"));
                  ("reason", JString reason); ("source", JString "ack_stuck_before_busy")]);;
  mret tt.

Definition fallback_ack_to_stuck_tx (agent_id reason : string) : M CcbdError (nat * option string) :=
  transaction (
    current ← query_agent_row agent_id;
    match current with
    | None => mret (Rollback (0%nat, None))
    | Some a =>
    if a.(a_state) != STATE_WAITING_FOR_ACK then mret (Rollback (0%nat, None))
    else
    dispatched ← query_dispatched_job_for_agent_sync agent_id;
    let dispatched_job_id := j_id <$> dispatched in
    let requeue_pre_send := bool_decide (is_Some dispatched_job_id) && safe_pre_send reason in
    let to_state := if requeue_pre_send then STATE_IDLE else STATE_STUCK in
    now ← asks w_now;
    changes ← update_agent agent_id
      (λ b, (b.(a_state) == "WAITING_FOR_ACK") && (b.(a_state_version) =? a.(a_state_version)))
      (λ b, bump_version now (set_a_state to_state b));
    when (changes == 1%nat) (
      match dispatched_job_id with
      | Some job_id => settle_ack_job agent_id reason job_id requeue_pre_send
      | None => mret tt
      end;;
      insert_event_null "insert ACK fallback stuck state_change" agent_id "state_change"
        (json_object [("from", JString a.(a_state)); ("to", JString to_state); ("reason", JString reason);
                      ("job_id", json_opt JString dispatched_job_id);
                      ("job_resolution", JString (if requeue_pre_send then "REQUEUED"
                         else if bool_decide (is_Some dispatched_job_id) then "FAILED" else "NONE"))]);;
      mret tt);;
    mret (Commit (changes, if changes == 1%nat then dispatched_job_id else None))
    end).
Definition fallback_ack_to_stuck (agent_id reason : string) : M CcbdError nat :=
  '(changes, job) ← fallback_ack_to_stuck_tx agent_id reason;
  match job with Some job_id => notify_job_update job_id;; wake_up | None => mret tt end;;
  mret changes.

End AckStatements.

(** ** The task *)

(** One look at the screen: the time when the loop is entered again and when the
    screen has been captured, since the task began. *)
Record AckTurn : Type := MkAckTurn {
  ak_begin : Z;
  ak_now : Z
}.
Record AckLocals : Type := MkAckLocals {
  al_processed_len : nat;
  al_busy_marked : bool;
  al_last_meaningful_diff_at : option Z
}.
Definition ack_locals : AckLocals := MkAckLocals 0 false None.

(** What the task is started with; the matcher is the manifest's. *)
Record AckSeed : Type := MkAckSeed {
  as_agent_id : string;
  as_provider : string;
  as_baseline : string;
  as_mode : IdleDetectionMode;
  as_matcher : MarkerMatcher
}.

(** [Finished true]: the task panicked. *)
Inductive AckStep : Type :=
| GoesOn (l : AckLocals)
| Finished (panicked : bool).

Section AckTask.
Context {EXT : Externals} {PX : PromptExternals} {CC : CharClass} {KC : KbCodec} {RX : RegexCaptures}.
Context {T : Type} {TX : TmuxExec T}.
Variable server : TmuxServer.
Variable llm : string → string → string → Result LlmOutcome LlmError.
Variable faults : KbFaults.
(** [AH_PROMPT_TRANSIENT_UNKNOWN_STABLE_SCANS] *)
Variable env_threshold : option string.
Variable others : nat → WatchRuntime T → World → WatchRuntime T * World.
Variable sd : AckSeed.
#[local] Existing Instances W_ret W_bind.
Notation agent_id := sd.(as_agent_id).

Definition finish : W (T := T) AckStep := mret (Finished false).

Fixpoint ack_mark_busy_attempts (attempts : nat) (reason : string) : W (T := T) AckBusyOutcome :=
  match attempts with
  | O => stm others 320 (emit_ack_busy_deferred agent_id reason);; mret AckDeferred
  | S attempts' =>
      outcome ← stm others 321 (ack_mark_busy_or_resolve_once agent_id reason);
      if outcome != AckDeferred then mret outcome else ack_mark_busy_attempts attempts' reason
  end.
Definition ack_mark_busy_or_resolve (reason : string) : W AckBusyOutcome :=
  ack_mark_busy_attempts ACK_BUSY_RETRY_ATTEMPTS reason.

Definition fallback_ack_to_crashed (reason : string) : W (T := T) nat :=
  state ← stm others 322 (query_agent_state_sync agent_id);
  if match state with Some (state, _) => state != STATE_WAITING_FOR_ACK | None => true end then mret 0%nat
  else stm others 323 (mark_agent_crashed_with_reason agent_id None reason).

(** The agent's idle marker was seen: its task is over. *)
Definition idle_by_marker : W AckStep :=
  r ← w_try (stm others 324 (mark_agent_idle_matched agent_id));
  (match r with
   | Ok (changes, affected_job) =>
       if bool_decide (0 < changes)%nat then
         match affected_job with Some job_id => stm others 325 (notify_job_update job_id) | None => mret tt end;;
         stm others 326 wake_up
       else mret tt
   | Err _ => mret tt
   end);;
  modify_agents (λ a, set_at_timers (a.(at_timers) ∖ {[agent_id]}) a);;
  finish.

(** The scan of the prompts, and what is made of it. *)
Definition scan_env (rt : WatchRuntime T) : ScanEnv (T := TmuxTerminal T) :=
  MkScanEnv rt.(wr_scan).(sc_files)
    (MkRunState rt.(wr_terminal) rt.(wr_scan).(sc_sent) rt.(wr_scan).(sc_experience)) rt.(wr_scan).(sc_prompts).
Definition put_scan_env (x : ScanEnv (T := TmuxTerminal T)) (rt : WatchRuntime T) : WatchRuntime T :=
  set_wr_scan (MkAgentScanState x.(se_files) x.(se_run).(rs_sent) x.(se_run).(rs_experience) x.(se_prompts))
    (set_wr_terminal x.(se_run).(rs_term) rt).
Definition at_once {A} (m : M CcbdError A) : W (T := T) A := λ rt w, let '(r, w') := m w in (r, rt, w').
Definition ack_prompt_scan (pane : string) : W (Result PromptScanDisposition CcbdError) :=
  pause others 327;;
  rt ← get_wr;
  '(outcome, x) ← at_once (run_prompt_scan (λ _, tmux_prompt_io server pane) llm faults
     (MkPromptScanRequest agent_id sd.(as_provider) sd.(as_matcher) 3 AckVisualDiff) (scan_env rt));
  modify_wr (put_scan_env x);;
  match outcome with
  | Err e => mret (Err e)
  | Ok outcome =>
      pause others 328;;
      rt ← get_wr;
      '(disposition, prompts) ← at_once (apply_prompt_outcome env_threshold agent_id sd.(as_provider) outcome
         rt.(wr_scan).(sc_prompts));
      modify_wr (λ rt, set_wr_scan (MkAgentScanState rt.(wr_scan).(sc_files) rt.(wr_scan).(sc_sent)
                                      rt.(wr_scan).(sc_experience) prompts) rt);;
      mret disposition
  end.

(** The output the agent's screen has processed; the task keeps the screen it
    found when the turn began, should it be unregistered meanwhile. *)
Definition screen_output (found : string) : W (T := T) string :=
  rt ← get_wr; mret (default found (rt.(wr_agents).(at_parsers) !! agent_id)).
Definition feed_screen (delta : string) : W (T := T) unit :=
  modify_agents (λ a, set_at_parsers (alter (λ s, s +:+ delta) agent_id a.(at_parsers)) a).

(** ** One turn *)

Definition without_diff (now : Z) (l : AckLocals) : W (T := T) AckStep :=
  let rest (l : AckLocals) :=
    if match l.(al_last_meaningful_diff_at) with
       | Some last_change => CAPTURE_SEED_STABILITY_MS <=? duration_since now last_change
       | None => false
       end then finish else mret (GoesOn l) in
  if negb l.(al_busy_marked) && (CAPTURE_SEED_STABILITY_MS <=? now) then
    r ← w_try (ack_mark_busy_or_resolve "ACK_STABILITY_WINDOW");
    match r with
    | Ok MarkedBusy | Ok AlreadyBusy =>
        rest (MkAckLocals l.(al_processed_len) true l.(al_last_meaningful_diff_at))
    | Ok _ | Err _ => finish
    end
  else rest l.

(** The first difference: a prompt may wait; otherwise the agent works. *)
Definition work_seen (now : Z) (found : string) (l : AckLocals) : W AckStep :=
  r ← w_try (ack_mark_busy_or_resolve "ACK_VISUAL_DIFF");
  match r with
  | Ok MarkedBusy | Ok AlreadyBusy =>
      pause others 329;;
      modify_agents (λ a, set_at_panes (set_idle_scan_enabled agent_id true a.(at_panes)) a);;
      output ← screen_output found;
      if marker_scan sd.(as_matcher) (vt100_screen output) then idle_by_marker
      else mret (GoesOn (MkAckLocals l.(al_processed_len) true (Some now)))
  | Ok _ | Err _ => finish
  end.
Definition first_diff (now : Z) (pane found : string) (l : AckLocals) : W AckStep :=
  if is_prompt_handling_provider sd.(as_provider) then
    scan ← ack_prompt_scan pane;
    match scan with
    | Ok (ScanHandled _) => mret (GoesOn (MkAckLocals 0 l.(al_busy_marked) None))
    | Ok (ScanPending _ _) =>
        modify_agents (λ a, set_at_timers (a.(at_timers) ∖ {[agent_id]}) a);;
        stm others 330 wake_up;;
        finish
    | Ok (ScanDeferred _ _) | Ok (ScanNoActionNeeded _) | Err _ => work_seen now found l
    end
  else work_seen now found l.

(** What was added to the screen is given to the agent's parser.  It is cut at a
    byte, and cutting inside of a character panics. *)
Definition later_diff (now : Z) (capture found : string) (l : AckLocals) : W AckStep :=
  let l := MkAckLocals l.(al_processed_len) l.(al_busy_marked) (Some now) in
  let allow_direct_idle := match sd.(as_mode) with ObservedStability => false | LineEndRegex => true end in
  if negb (starts_with capture sd.(as_baseline)) && negb (contains capture sd.(as_baseline)) then
    if allow_direct_idle && marker_scan sd.(as_matcher) (vt100_screen capture) then idle_by_marker
    else mret (GoesOn l)
  else
  match strip_prefix capture sd.(as_baseline) with
  | None => w_try (stm others 331 (fallback_ack_to_stuck agent_id "capture_baseline_mismatch_during_ack"));; finish
  | Some suffix =>
      if bool_decide (String.length suffix ≤ l.(al_processed_len))%nat then mret (GoesOn l)
      else if negb (is_char_boundary suffix l.(al_processed_len)) then mret (Finished true)
      else
      let delta := str_drop l.(al_processed_len) suffix in
      let l := MkAckLocals (String.length suffix) l.(al_busy_marked) l.(al_last_meaningful_diff_at) in
      output ← screen_output found;
      feed_screen delta;;
      if allow_direct_idle && marker_scan sd.(as_matcher) (vt100_screen (output +:+ delta)) then idle_by_marker
      else mret (GoesOn l)
  end.

Definition ack_turn (turn : AckTurn) (l : AckLocals) : W AckStep :=
  if CAPTURE_SEED_DEADLINE_MS <=? turn.(ak_begin) then
    w_try (stm others 332 (fallback_ack_to_stuck agent_id "ack_deadline_timeout"));; finish
  else
  pause others 333;;
  rt ← get_wr;
  match pane_id agent_id rt.(wr_agents).(at_panes), rt.(wr_agents).(at_parsers) !! agent_id with
  | None, _ => w_try (fallback_ack_to_crashed "pane_unregistered_during_ack");; finish
  | _, None => w_try (fallback_ack_to_crashed "reader_unregistered_during_ack");; finish
  | Some pane, Some found =>
      captured ← w_try (tmux others 334 (capture_pane_sync server pane));
      match captured with
      | Err _ => w_try (stm others 335 (fallback_ack_to_stuck agent_id "tmux_capture_failed_during_ack"));; finish
      | Ok capture =>
          let now := turn.(ak_now) in
          if negb (is_meaningful_diff sd.(as_baseline) capture) then without_diff now l
          else if bool_decide (l.(al_last_meaningful_diff_at) = None) && negb l.(al_busy_marked)
          then first_diff now pane found l
          else later_diff now capture found l
      end
  end.

(** [None]: the turns given were not enough. *)
Fixpoint ack_loop (turns : list AckTurn) (l : AckLocals) : W (option bool) :=
  match turns with
  | [] => mret None
  | turn :: turns' =>
      step ← ack_turn turn l;
      match step with
      | Finished panicked => mret (Some panicked)
      | GoesOn l => ack_loop turns' l
      end
  end.
Definition run_capture_seed (turns : list AckTurn) : W (option bool) := ack_loop turns ack_locals.

End AckTask.

(** ** The statements settle the agent *)

Section AckSettled.
Context {EXT : Externals}.
Variable agent_id : string.
Notation not_waiting := (outside agent_id [STATE_WAITING_FOR_ACK]).
#[local] Existing Instances enters_not_preorder agents_kept_preorder.

(** The agent waits, or is seen in another state. *)
Lemma waiting_or_not w :
  (∃ a, w.(w_db).(agents) !! agent_id = Some a ∧ a.(a_state) = STATE_WAITING_FOR_ACK) ∨
  not_waiting w.(w_db) ∧ ∀ a, w.(w_db).(agents) !! agent_id = Some a → a.(a_state) ≠ STATE_WAITING_FOR_ACK.
Proof.
  destruct (agents (w_db w) !! agent_id) as [a|] eqn:Ha; [|right; split; [by apply no_agent_outside|done]].
  destruct (decide (a.(a_state) = STATE_WAITING_FOR_ACK)) as [Hs|Hs]; [left; by exists a|right].
  split; [|by intros ? [= <-]]. apply (in_state_outside _ _ a.(a_state)); [by exists a|set_solver].
Qed.

Lemma moved_not_waiting db st : in_state agent_id st db → st ≠ STATE_WAITING_FOR_ACK → not_waiting db.
Proof. intros Hin Hne. apply (in_state_outside _ _ _ _ Hin). set_solver. Qed.

Lemma busy_once_settles reason w : not_waiting (ack_mark_busy_or_resolve_once agent_id reason w).2.(w_db).
Proof.
  unfold ack_mark_busy_or_resolve_once, query_agent_row.
  destruct (waiting_or_not w) as [(a & Ha & Hs)|[Hn Hne]].
  - set (g := λ b : Agent, (b.(a_state) == "WAITING_FOR_ACK") && (b.(a_state_version) =? a.(a_state_version))).
    assert (Hg : g a = true) by (unfold g; rw Hs Z.eqb_refl; reflexivity).
    pose proof (update_agent_hit (E:=CcbdError) w agent_id g (λ b, bump_version w.(w_now) (set_a_state "BUSY" b)) a Ha Hg) as Hup.
    set (w1 := set_db _ w) in Hup.
    assert (Hev := λ p, insert_event_null_run w1 "insert ACK busy state_change" agent_id "state_change" p
      ltac:(cbn; rw lookup_insert_eq; by eexists)).
    step_pure. rw Ha. cbv zeta. rw Hs. change (STATE_WAITING_FOR_ACK == STATE_WAITING_FOR_ACK) with true. cbv iota.
    erewrite bind_ok; cycle 1.
    { step_pure. rw (bind_ok _ _ _ _ _ Hup). change (1%nat == 1%nat) with true. cbv iota.
      by rw (bind_ok _ _ _ _ _ (Hev _)). }
    apply (moved_not_waiting _ STATE_BUSY); [|done]. eexists. split; [apply lookup_insert_eq|done].
  - step_pure. destruct (agents (w_db w) !! agent_id) as [a|] eqn:Ha; [|exact Hn].
    cbv zeta. rw (bool_decide_false (a_state a = STATE_WAITING_FOR_ACK)); [by apply Hne|].
    step_pure. by destruct (_ is_in _).
Qed.

(** The job's part of the fallback succeeds and leaves the agents alone. *)
Lemma settle_job_run w reason j requeue :
  db_wf w.(w_db) → current_job agent_id w.(w_db) = Some j →
  ∃ w', settle_ack_job agent_id reason j.(j_id) requeue w = (Ok tt, w') ∧ w'.(w_db).(agents) = w.(w_db).(agents).
Proof.
  intros Hwf Hcur. destruct (current_job_row w agent_id j Hwf Hcur) as (Hj & Hag & Hst & _).
  assert (Hfk : is_Some (w.(w_db).(agents) !! agent_id)) by (rewrite -Hag; apply (wf_job_agent _ Hwf _ _ Hj)).
  unfold settle_ack_job, query_job_sync. step_pure. rw Hj Hst Hag.
  change ("DISPATCHED" == "DISPATCHED") with true. rw (bool_decide_true (agent_id = agent_id)) //. cbn [andb when].
  destruct requeue.
  - erewrite bind_ok; [|apply (requeue_job_state_run w _ j Dispatched None reason Hwf Hj Hst); constructor].
    eexists. split; [by erewrite bind_ok; [apply ret_run|apply insert_event_null_run]|]. done.
  - pose (j1 := set_j_error_reason (Some reason) j). eexists. split.
    + erewrite bind_ok; [|erewrite bind_ok; [|apply (update_job_hit _ _ _ _ j); [exact Hj|by rw Hst]]]; cycle 1.
      { apply (transit_job_state_commit _ _ j1); [|done|by rw /= Hag].
        split; [apply lookup_insert_eq|]. by repeat split; try constructor. }
      by erewrite bind_ok; [apply ret_run|apply insert_event_null_run].
    + done.
Qed.

Lemma fallback_tx_settles reason w :
  consistent w.(w_db) → not_waiting (fallback_ack_to_stuck_tx agent_id reason w).2.(w_db).
Proof.
  intros Hc. unfold fallback_ack_to_stuck_tx, query_agent_row.
  destruct (waiting_or_not w) as [(a & Ha & Hs)|[Hn Hne]]; cycle 1.
  { unfold transaction. step_pure. destruct (agents (w_db w) !! agent_id) as [a|] eqn:Ha; [|by destruct w].
    rw (bool_decide_false (a_state a = STATE_WAITING_FOR_ACK)); [by apply Hne|]. by destruct w. }
  set (g := λ b : Agent, (b.(a_state) == "WAITING_FOR_ACK") && (b.(a_state_version) =? a.(a_state_version))).
  assert (Hg : g a = true) by (unfold g; rw Hs Z.eqb_refl; reflexivity).
  set (requeue := bool_decide (is_Some (j_id <$> current_job agent_id w.(w_db))) && safe_pre_send reason).
  set (st := if requeue then STATE_IDLE else STATE_STUCK).
  set (f := λ b, bump_version w.(w_now) (set_a_state st b)).
  pose proof (update_agent_hit (E:=CcbdError) w agent_id g f a Ha Hg) as Hup. set (w1 := set_db _ w) in Hup.
  assert (Hc1 : consistent w1.(w_db)).
  { eapply (sound_step _ _ _ _ _ Hup Hc). Unshelve. unfold f, g, st. destruct requeue; eauto with respects. }
  assert (∃ w2, (match j_id <$> current_job agent_id w.(w_db) with
    | Some job_id => settle_ack_job agent_id reason job_id requeue | None => mret tt end) w1 = (Ok tt, w2) ∧
    w2.(w_db).(agents) = w1.(w_db).(agents)) as (w2 & Hset & Hags).
  { destruct (current_job agent_id (w_db w)) as [j|] eqn:Hcur; cbn [fmap option_fmap option_map]; [|by exists w1].
    apply settle_job_run; [apply Hc1|exact Hcur]. }
  assert (Hev := λ p, insert_event_null_run w2 "insert ACK fallback stuck state_change" agent_id "state_change" p
    ltac:(rw Hags /= lookup_insert_eq; by eexists)).
  unfold transaction, query_dispatched_job_for_agent_sync. step_pure. rw Ha. cbv zeta. rw Hs.
  change (STATE_WAITING_FOR_ACK != STATE_WAITING_FOR_ACK) with false. cbv iota. step_pure.
  fold (current_job agent_id w.(w_db)) requeue st f g.
  rw (bind_ok _ _ _ _ _ Hup). change (1%nat == 1%nat) with true. cbn [when].
  erewrite bind_ok; [|rw (bind_ok _ _ _ _ _ Hset) (bind_ok _ _ _ _ _ (Hev _)); reflexivity].
  apply (moved_not_waiting _ st); [|by unfold st; destruct requeue]. exists (f a).
  split; [by rw /= Hags /= lookup_insert_eq|by unfold f, st; destruct requeue].
Qed.

Lemma fallback_settles reason w :
  consistent w.(w_db) → not_waiting (fallback_ack_to_stuck agent_id reason w).2.(w_db).
Proof.
  intros Hc. pose proof (fallback_tx_settles reason w Hc) as Hn. unfold fallback_ack_to_stuck, mbind, M_bind.
  destruct (fallback_ack_to_stuck_tx agent_id reason w) as [[[changes [job|]]|e] w']; exact Hn.
Qed.


(** ** Other statements *)

#[local] Hint Resolve enters_not_gate enters_not_job enters_not_event enters_not_null enters_not_notify
  enters_not_fail_dispatched : respects.
#[local] Hint Extern 5 (respects (enters_not _ _) (update_agent _ _ _)) =>
  apply enters_not_update; intros ?; cbn; set_solver : respects.

Lemma sound_busy_once reason : respects sound (ack_mark_busy_or_resolve_once agent_id reason).
Proof. unfold ack_mark_busy_or_resolve_once, query_agent_row, wake_up. cbv zeta. solve_respects. Qed.
Lemma sound_busy_deferred reason : respects sound (emit_ack_busy_deferred agent_id reason).
Proof. unfold emit_ack_busy_deferred. solve_respects. Qed.
Lemma sound_ack_stuck reason : respects sound (fallback_ack_to_stuck agent_id reason).
Proof.
  unfold fallback_ack_to_stuck, fallback_ack_to_stuck_tx, settle_ack_job, query_agent_row, query_job_sync, wake_up.
  cbv zeta. solve_respects.
Qed.

Notation not_entered := (enters_not agent_id [STATE_WAITING_FOR_ACK]).
Lemma wake_enters_not : respects not_entered (wake_up : M CcbdError unit).
Proof. unfold wake_up. solve_respects. Qed.
Lemma job_news_enters_not job_id : respects not_entered (notify_job_update job_id : M CcbdError unit).
Proof. unfold notify_job_update. solve_respects. Qed.
Lemma matched_enters_not : respects not_entered (mark_agent_idle_matched agent_id).
Proof. apply enters_not_idle_matched; set_solver. Qed.
#[local] Hint Resolve wake_enters_not job_news_enters_not matched_enters_not : respects.
Lemma deferred_enters_not reason : respects not_entered (emit_ack_busy_deferred agent_id reason).
Proof.
  unfold emit_ack_busy_deferred, insert_event, insert_event_sync. solve_respects.
  apply enters_not_kept. intros w. unfold insert_event_row, agents_kept. by repeat case_match.
Qed.
Lemma crashed_enters_not reason : respects not_entered (mark_agent_crashed_with_reason agent_id None reason).
Proof.
  unfold mark_agent_crashed_with_reason, publish_end, mark_agent_crashed_sync, affected_job_id, query_agent_row,
    query_dispatched_job_for_agent_sync, capture_recovery_intent_for_crash, mark_dispatched_jobs_failed_for_agent_conn_sync,
    mark_dispatched_jobs_failed_for_agent_conn_collect_sync, query_dispatched_job_ids_for_agent_sync,
    query_cleanup_policy, query_agent_row, cleanup_agent_runtime, persist_agent_recovery_intent_sync.
  cbv beta zeta. solve_respects.
  apply enters_not_kept. intros w. unfold upsert_intent_row, agents_kept. by repeat case_match.
Qed.

Lemma crash_settles reason w :
  consistent w.(w_db) → not_waiting (mark_agent_crashed_with_reason agent_id None reason w).2.(w_db).
Proof.
  intros Hc. destruct (waiting_or_not w) as [(a & Ha & Hs)|[Hn _]]; [|by apply crashed_enters_not].
  destruct (crash_run w agent_id a None reason Hc Ha) as (w' & Hrun & _ & _ & Hags & _).
  { rw Hs. set_solver. }
  unfold mark_agent_crashed_with_reason, affected_job_id, query_dispatched_job_for_agent_sync. step_pure.
  rw (bind_ok _ _ _ _ _ Hrun). apply (moved_not_waiting _ "CRASHED"); [|done].
  exists (crashed_row (w_now w) None reason a). unfold publish_end, notify_job_update, wake_up.
  by destruct (j_id <$> _); cbn; rw Hags lookup_insert_eq.
Qed.

(** ** Prompts *)

Lemma parked_enters_not payload : respects not_entered (mark_prompt_pending_and_emit_unknown_sync agent_id payload).
Proof. unfold mark_prompt_pending_and_emit_unknown_sync. cbv zeta. solve_respects. Qed.
Lemma unknown_enters_not payload : respects not_entered (emit_unknown_prompt_detected agent_id payload).
Proof.
  unfold emit_unknown_prompt_detected. solve_respects. apply enters_not_kept, kept_insert_and_notify.
Qed.
#[local] Hint Resolve parked_enters_not unknown_enters_not : respects.
Lemma outcome_enters_not `{!PromptExternals} `{!CharClass} env provider outcome prompts :
  respects not_entered (apply_prompt_outcome env agent_id provider outcome prompts).
Proof. unfold apply_prompt_outcome, query_agent_state. cbv zeta. solve_respects. Qed.

(** An agent that waits is never parked at a prompt: the report is put off. *)
Lemma waiting_defers hash threshold prompts :
  report_deferral agent_id STATE_WAITING_FOR_ACK hash threshold prompts = (Some "active_dispatch_prompt_scan", prompts).
Proof. reflexivity. Qed.
Lemma tried_state w :
  (try_ (query_agent_state agent_id) : M CcbdError (Result string CcbdError)) w =
  (Ok (match w.(w_db).(agents) !! agent_id with Some a => Ok a.(a_state) | None => Err (AgentNotFound agent_id) end), w).
Proof. unfold try_, query_agent_state. step_pure. by destruct (agents (w_db w) !! agent_id). Qed.
Lemma tried_then {A B} (m : M CcbdError A) (k : Result A CcbdError → M CcbdError B) w :
  (∀ r w', ∃ b, (k r w').1 = Ok b) → ∃ b, ((try_ m ≫= k) w).1 = Ok b.
Proof. intros Hk. unfold mbind, M_bind, try_. destruct (m w) as [r w']. apply Hk. Qed.
(** The outcome is applied without an error of its own. *)
Lemma outcome_applied `{!PromptExternals} `{!CharClass} env provider outcome prompts w :
  ∃ r, (apply_prompt_outcome env agent_id provider outcome prompts w).1 = Ok r.
Proof.
  destruct outcome; unfold apply_prompt_outcome; try by eexists.
  all: rw (bind_ok _ _ _ _ _ (tried_state w)); destruct (agents (w_db w) !! agent_id); [|by eexists].
  all: destruct (report_deferral _ _ _ _ _) as [[]]; [by eexists|]; cbv zeta.
  all: try destruct (is_park_whitelisted _); apply tried_then; intros; by eexists.
Qed.
Lemma pending_settles `{!PromptExternals} `{!CharClass} env provider outcome prompts depth reason prompts' w w' :
  apply_prompt_outcome env agent_id provider outcome prompts w = (Ok (Ok (ScanPending depth reason), prompts'), w') →
  not_waiting w'.(w_db).
Proof.
  destruct (waiting_or_not w) as [(a & Ha & Hs)|[Hn _]].
  - destruct outcome; unfold apply_prompt_outcome; try done.
    { by destruct (bool_decide _). }
    all: by rw (bind_ok _ _ _ _ _ (tried_state w)) Ha Hs waiting_defers.
  - intros Hrun. pose proof (outcome_enters_not env provider outcome prompts w Hn) as Ho. by rw Hrun in Ho.
Qed.

(** The scan reads the agent's state and writes nothing in the tables. *)
Lemma scan_reads `{!PromptExternals} `{!CharClass} `{!KbCodec} {T} (pio : string → PromptIo T) llm faults request x w :
  request.(sr_agent_id) = agent_id → ∃ r, run_prompt_scan pio llm faults request x w = (Ok r, w).
Proof.
  intros Hid. unfold run_prompt_scan. rw Hid. destruct (load_or_bootstrap_kb _ _) as [[kb|e] files]; [|by eexists].
  rw (bind_ok _ _ _ _ _ (tried_state w)). step_pure. cbv zeta.
  destruct (agents (w_db w) !! agent_id); [|by eexists]. destruct (handle_prompt_chain _ _ _ _). by eexists.
Qed.

End AckSettled.

(** ** The task settles its agent *)

Section TaskSettles.
Context {EXT : Externals} {PX : PromptExternals} {CC : CharClass} {KC : KbCodec} {RX : RegexCaptures}.
Context {T : Type} {TX : TmuxExec T}.
Context (server : TmuxServer) (llm : string → string → string → Result LlmOutcome LlmError) (faults : KbFaults).
Context (env_threshold : option string).
Context (others : nat → WatchRuntime T → World → WatchRuntime T * World) (sd : AckSeed).
#[local] Existing Instances W_ret W_bind enters_not_preorder agents_kept_preorder.
Notation agent_id := sd.(as_agent_id).
Notation meets := (meets (T := T)).

Definition acknowledged (db : Db) : Prop := outside agent_id [STATE_WAITING_FOR_ACK] db.
(** The other tasks keep the tables sound, and none of them sends the agent
    another command. *)
Hypothesis others_sound : kept_by others consistent.
Hypothesis others_send_not : kept_by others acknowledged.

Definition settled (db : Db) : Prop := consistent db ∧ acknowledged db.
Lemma others_settled : kept_by others settled.
Proof. intros p rt w [Hc Ha]. split; [by apply others_sound|by apply others_send_not]. Qed.
Hint Resolve others_settled others_sound : core.

Lemma settled_stm {A} p (m : M CcbdError A) :
  respects sound m → respects (enters_not agent_id [STATE_WAITING_FOR_ACK]) m → meets settled (stm others p m) (λ _, settled).
Proof. intros Hs Hm. apply meets_stm; [done|]. intros w [Hc Ha]. split; [by apply Hs|by apply Hm]. Qed.
Lemma settles_stm {A} p (m : M CcbdError A) :
  respects sound m → (∀ w, consistent w.(w_db) → acknowledged (m w).2.(w_db)) → meets consistent (stm others p m) (λ _, settled).
Proof. intros Hs Hm. apply meets_stm; [done|]. intros w Hc. split; [by apply Hs|by apply Hm]. Qed.
Lemma settled_ret {A} (a : A) : meets settled (mret a) (λ _, settled).
Proof. by apply meets_ret. Qed.
(** A step that gives no error and keeps [I]. *)
Definition answered {A} (I : Db → Prop) (r : Result A CcbdError) (db : Db) : Prop :=
  match r with Ok _ => I db | Err _ => False end.
Lemma answered_bind {A B} I (m : W A) (f : A → W B) Q :
  meets I m (answered I) → (∀ a, meets I (f a) Q) → meets I (m ≫= f) Q.
Proof. intros Hm Hf. by eapply meets_bind. Qed.
Lemma answered_ret {A} I (a : A) : meets I (mret a) (answered I).
Proof. by apply meets_ret. Qed.
Lemma answered_away {A} I (m : W A) : (∀ rt w, ∃ a rt', m rt w = (Ok a, rt', w)) → meets I m (answered I).
Proof. intros Hm rt w Hw. by destruct (Hm rt w) as (a & rt' & ->). Qed.
Lemma answered_pause I p : kept_by others I → meets I (pause others p) (answered I).
Proof. intros HI rt w Hw. unfold pause. specialize (HI p rt w Hw). by destruct (others p rt w). Qed.
Lemma answered_wake p : meets settled (stm others p wake_up) (answered settled).
Proof. apply meets_stm; [done|]. by intros w Hw. Qed.
Lemma answered_news p job_id : meets settled (stm others p (notify_job_update job_id)) (answered settled).
Proof. apply meets_stm; [done|]. by intros w Hw. Qed.
#[local] Ltac away := apply answered_away; intros; by eexists _, _.

Lemma attempts_settle n reason :
  meets settled (ack_mark_busy_attempts others sd n reason) (λ _, settled).
Proof.
  induction n as [|n IH]; cbn [ack_mark_busy_attempts].
  - apply meets_then; [|intros; apply settled_ret]. apply settled_stm; [apply sound_busy_deferred|apply deferred_enters_not].
  - apply meets_then.
    + apply meets_stm; [done|]. intros w [Hc _]. split; [by apply sound_busy_once|apply busy_once_settles].
    + intros outcome. destruct (outcome != AckDeferred); [apply settled_ret|apply IH].
Qed.
Lemma busy_settles reason : meets consistent (ack_mark_busy_or_resolve others sd reason) (λ _, settled).
Proof.
  unfold ack_mark_busy_or_resolve. cbn [ack_mark_busy_attempts ACK_BUSY_RETRY_ATTEMPTS].
  eapply meets_bind; [apply settles_stm; [apply sound_busy_once|intros; apply busy_once_settles]|done|].
  intros outcome. destruct (outcome != AckDeferred); [apply settled_ret|apply (attempts_settle 4)].
Qed.
Lemma stuck_settles p reason : meets consistent (stm others p (fallback_ack_to_stuck agent_id reason)) (λ _, settled).
Proof. apply settles_stm; [apply sound_ack_stuck|intros; by apply fallback_settles]. Qed.
Lemma crashed_settles reason : meets consistent (fallback_ack_to_crashed others sd reason) (λ _, settled).
Proof.
  unfold fallback_ack_to_crashed.
  apply (meets_bind _ _ _ (λ r db, consistent db ∧ ∃ st, r = Ok st ∧
    st = (λ a, (a.(a_state), a.(a_state_version))) <$> db.(agents) !! agent_id)).
  { apply meets_stm; [done|]. intros w Hw. split; [exact Hw|]. by eexists. }
  { by intros e db (_ & st & [=] & _). }
  intros st. destruct (match st with Some (state, _) => _ | None => _ end) eqn:Hst.
  - apply meets_ret. intros db (Hc & st' & [= <-] & ->). split; [done|]. intros state Hin (a & Ha & Hs).
    apply list_elem_of_singleton in Hin as ->. rewrite Ha /= Hs in Hst. done.
  - apply (meets_weaken consistent _ _ (λ _, settled)); [|by intros ? []|done].
    apply settles_stm; [apply sound_crashed_with_reason|intros; by apply crash_settles].
Qed.

(** The task has returned with the agent settled, or it goes on; once the agent was
    marked busy it stays out of the waiting state. *)
Definition locals_ok (l : AckLocals) (db : Db) : Prop :=
  if l.(al_busy_marked) then acknowledged db else l.(al_last_meaningful_diff_at) = None.
Definition step_ok (r : Result AckStep CcbdError) (db : Db) : Prop :=
  consistent db ∧
  match r with Ok (GoesOn l) => locals_ok l db | Ok (Finished _) => acknowledged db | Err _ => False end.
Definition turn_ready (l : AckLocals) (db : Db) : Prop := consistent db ∧ locals_ok l db.
Lemma others_turn_ready l : kept_by others (turn_ready l).
Proof.
  intros p rt w [Hc Hl]. split; [by apply others_sound|]. revert Hl. unfold locals_ok.
  destruct (al_busy_marked l); [apply others_send_not|done].
Qed.

Lemma finish_ok : meets settled finish step_ok.
Proof. by apply meets_ret; intros db [? ?]. Qed.
Lemma goes_on_ok l : meets (turn_ready l) (mret (GoesOn l)) step_ok.
Proof. by apply meets_ret; intros db [? ?]. Qed.
Lemma tried_finish {A} I (m : W A) : meets I m (λ _, settled) → meets I (w_try m;; finish) step_ok.
Proof. intros Hm. eapply meets_tried; [exact Hm|]. intros r. apply finish_ok. Qed.

Lemma marker_ok : meets settled (idle_by_marker others sd) step_ok.
Proof.
  unfold idle_by_marker. eapply meets_tried.
  { apply settled_stm; [apply sound_idle_matched|apply matched_enters_not]. }
  intros r. apply answered_bind.
  - destruct r as [[changes affected]|e]; [|apply answered_ret].
    destruct (bool_decide _); [|apply answered_ret]. apply answered_bind; [|intros; apply answered_wake].
    destruct affected; [apply answered_news|apply answered_ret].
  - intros _. apply answered_bind; [away|]. intros _. apply finish_ok.
Qed.

Lemma rest_ok now l :
  meets (turn_ready l) (if match l.(al_last_meaningful_diff_at) with
    | Some last_change => CAPTURE_SEED_STABILITY_MS <=? duration_since now last_change
    | None => false end then finish else mret (GoesOn l)) step_ok.
Proof.
  destruct (al_last_meaningful_diff_at l) as [last|] eqn:Hl; [|apply goes_on_ok].
  destruct (_ <=? _); [|apply goes_on_ok]. apply meets_ret. intros db [Hc Ho]. split; [done|].
  revert Ho. unfold locals_ok. destruct (al_busy_marked l); [done|congruence].
Qed.
Lemma without_diff_ok now l : meets (turn_ready l) (without_diff others sd now l) step_ok.
Proof.
  unfold without_diff. cbv zeta. destruct (negb _ && _); [|apply rest_ok].
  apply (meets_weaken consistent _ _ step_ok); [|by intros ? []|done].
  eapply meets_tried; [apply busy_settles|]. intros [[]|e]; try apply finish_ok.
  all: apply (meets_weaken (turn_ready (MkAckLocals l.(al_processed_len) true l.(al_last_meaningful_diff_at))) _ _ step_ok);
    [apply rest_ok|by intros db []|done].
Qed.

Lemma screen_output_ok I found : meets I (screen_output sd found) (answered I).
Proof. unfold screen_output. apply answered_bind; [away|]. intros; apply answered_ret. Qed.
Lemma work_seen_ok now found l : meets consistent (work_seen others sd now found l) step_ok.
Proof.
  unfold work_seen. eapply meets_tried; [apply busy_settles|]. intros [[]|e]; try apply finish_ok.
  all: apply answered_bind; [by apply answered_pause|intros _]; apply answered_bind; [away|intros _].
  all: apply answered_bind; [apply screen_output_ok|intros output].
  all: destruct (marker_scan _ _); [apply marker_ok|by apply meets_ret].
Qed.

(** A scan that parks the agent finds it in no waiting state. *)
Definition scan_ok (r : Result (Result PromptScanDisposition CcbdError) CcbdError) (db : Db) : Prop :=
  consistent db ∧
  match r with Ok (Ok (ScanPending _ _)) => acknowledged db | Ok _ => True | Err _ => False end.
Lemma scan_answered pane : meets consistent (ack_prompt_scan server llm faults env_threshold others sd pane) scan_ok.
Proof.
  unfold ack_prompt_scan. apply answered_bind; [by apply answered_pause|intros _].
  apply answered_bind; [away|intros rt].
  apply answered_bind.
  { intros rt0 w Hc. unfold at_once.
    destruct (scan_reads agent_id (λ _, tmux_prompt_io server pane) llm faults
      (MkPromptScanRequest agent_id sd.(as_provider) sd.(as_matcher) 3 AckVisualDiff) (scan_env rt) w eq_refl) as [r ->].
    exact Hc. }
  intros [outcome x]. apply answered_bind; [away|intros _].
  destruct outcome as [outcome|e]; [|by apply meets_ret].
  apply answered_bind; [by apply answered_pause|intros _].
  apply answered_bind; [away|intros rt'].
  apply (meets_bind _ _ _ (λ r db, consistent db ∧ match r with
    | Ok (Ok (ScanPending _ _), _) => acknowledged db | Ok _ => True | Err _ => False end)).
  - intros rt0 w Hc. unfold at_once.
    pose proof (sound_apply_prompt_outcome env_threshold agent_id sd.(as_provider) outcome (sc_prompts (wr_scan rt')) w) as [_ Hs].
    destruct (outcome_applied agent_id env_threshold sd.(as_provider) outcome (sc_prompts (wr_scan rt')) w) as [r Hr].
    destruct (apply_prompt_outcome _ _ _ _ _ w) as [r' w'] eqn:Hrun. cbn in Hr, Hs |- *. subst r'.
    split; [by apply Hs|]. destruct r as [[[]|] prompts]; try done. exact (pending_settles _ _ _ _ _ _ _ _ _ _ Hrun).
  - by intros e db [].
  - intros [disposition prompts]. cbv beta iota.
    intros rt0 w Hw. exact Hw.
Qed.

Lemma first_diff_ok now pane found l :
  l.(al_busy_marked) = false →
  meets consistent (first_diff server llm faults env_threshold others sd now pane found l) step_ok.
Proof.
  intros Hl. unfold first_diff. destruct (is_prompt_handling_provider _); [|apply work_seen_ok].
  eapply meets_bind; [apply scan_answered|by intros e db []|]. intros [[]|e].
  all: try (apply (meets_weaken consistent _ _ step_ok); [apply work_seen_ok|by intros db []|done]).
  - apply meets_ret. intros db [Hc _]. split; [done|]. unfold locals_ok. cbn. by rewrite Hl.
  - apply (meets_weaken settled _ _ step_ok); [|done..].
    apply answered_bind; [away|intros _]. apply answered_bind; [apply answered_wake|]. intros _. apply finish_ok.
Qed.

Lemma later_diff_ok now capture found l :
  l.(al_busy_marked) = true → meets settled (later_diff others sd now capture found l) step_ok.
Proof.
  intros Hl. unfold later_diff. cbv zeta. cbn [al_busy_marked]. rewrite Hl.
  assert (Hgo : ∀ n last, meets settled (mret (GoesOn (MkAckLocals n true last))) step_ok) by (intros; by apply meets_ret).
  destruct (negb _ && _).
  - destruct (_ && _); [apply marker_ok|apply Hgo].
  - destruct (strip_prefix capture _) as [suffix|]; cycle 1.
    { apply (meets_weaken consistent _ _ step_ok); [|by intros db []|done]. apply tried_finish, stuck_settles. }
    destruct (bool_decide _); [apply Hgo|]. destruct (negb _); [by apply meets_ret; intros db []|].
    apply answered_bind; [apply screen_output_ok|intros output]. apply answered_bind; [away|intros _].
    destruct (_ && _); [apply marker_ok|apply Hgo].
Qed.

Lemma turn_ok turn l :
  meets (turn_ready l) (ack_turn server llm faults env_threshold others sd turn l) step_ok.
Proof.
  assert (Hcons : ∀ m : W AckStep, meets consistent m step_ok → meets (turn_ready l) m step_ok).
  { intros m Hm. apply (meets_weaken consistent _ _ step_ok); [done|by intros db []|done]. }
  unfold ack_turn. destruct (_ <=? _); [apply Hcons, tried_finish, stuck_settles|].
  apply answered_bind; [apply answered_pause, others_turn_ready|intros _].
  apply answered_bind; [away|intros rt].
  destruct (pane_id _ _) as [pane|]; [|apply Hcons, tried_finish, crashed_settles].
  destruct (at_parsers _ !! _) as [found|]; [|apply Hcons, tried_finish, crashed_settles].
  apply (meets_bind _ _ _ (answered (turn_ready l))); [|done|intros captured; cbn [answered]].
  { intros rt0 w Hw. unfold w_try, tmux, mbind, W_bind, pause. pose proof (others_turn_ready l 334%nat rt0 w Hw) as Ho.
    destruct (others 334%nat rt0 w) as [rt1 w1]. by destruct (capture_pane_sync server pane (wr_terminal rt1)). }
  destruct captured as [capture|e]; [|apply Hcons, tried_finish, stuck_settles]. cbv zeta.
  destruct (negb (is_meaningful_diff _ _)); [apply without_diff_ok|].
  destruct (bool_decide (al_last_meaningful_diff_at l = None)) eqn:Hlast; destruct (al_busy_marked l) eqn:Hbusy; cbn [negb andb].
  1, 3: apply (meets_weaken settled _ _ step_ok); [by apply later_diff_ok| |done]; intros db [Hc Ho]; split; [done|];
    by rewrite /locals_ok Hbusy in Ho.
  - by apply Hcons, first_diff_ok.
  - intros rt0 w [_ Ho]. rewrite /locals_ok Hbusy in Ho. apply bool_decide_eq_false in Hlast. done.
Qed.

(** A turn past the deadline ends the task. *)
Lemma past_deadline turn l rt w :
  CAPTURE_SEED_DEADLINE_MS ≤ turn.(ak_begin) →
  (ack_turn server llm faults env_threshold others sd turn l rt w).1.1 = Ok (Finished false).
Proof.
  intros Hd. unfold ack_turn. apply Z.leb_le in Hd. rewrite Hd. unfold mbind, W_bind, w_try.
  by destruct (stm others 332 _ rt w) as [[? ?] ?].
Qed.

(** C15: a command that was typed is settled.  Whatever the screen shows, the model
    answers, the terminal fails and the other tasks do, as long as the tables stay
    sound and no other task sends the agent a further command, the task that waits
    for the acknowledgement returns when its five seconds are over at the latest,
    and then the agent does not wait for an acknowledgement any more: it is busy,
    idle, parked at a prompt, stuck, crashed, or gone. *)
Theorem ack_settles (turns : list AckTurn) (rt : WatchRuntime T) (w : World) :
  consistent w.(w_db) →
  Exists (λ turn, CAPTURE_SEED_DEADLINE_MS ≤ turn.(ak_begin)) turns →
  (∃ panicked, (run_capture_seed server llm faults env_threshold others sd turns rt w).1.1 = Ok (Some panicked)) ∧
  outside agent_id [STATE_WAITING_FOR_ACK]
    (run_capture_seed server llm faults env_threshold others sd turns rt w).2.(w_db).
Proof.
  unfold run_capture_seed. intros Hc. assert (Hw : turn_ready ack_locals w.(w_db)) by (by split). clear Hc.
  revert rt w Hw. generalize ack_locals.
  induction turns as [|turn turns IH]; intros l rt w Hw Hd; [by apply Exists_nil in Hd|].
  cbn [ack_loop]. unfold mbind, W_bind.
  pose proof (turn_ok turn l rt w Hw) as Hturn. pose proof (past_deadline turn l rt w) as Hdead.
  destruct (ack_turn _ _ _ _ _ _ turn l rt w) as [[[[l'|panicked]|e] rt'] w']; cbn in Hturn, Hdead |- *.
  - apply IH; [exact Hturn|]. apply Exists_cons in Hd as [Hd|Hd]; [by specialize (Hdead Hd)|done].
  - split; [by exists panicked|apply Hturn].
  - by destruct Hturn.
Qed.

End TaskSettles.
