(* ===== verification/AgentSpawn.v ===== *)
(** * Spawning an agent ([src/src/rpc/handlers/agent.rs], [realign.rs])

    The request [agent.spawn] and the spawn that a realignment, a recovery or a
    revival asks for: a pipe, a pane, a process and its pidfd, a row in the
    database, and then the registries and tasks that follow the agent; what was
    begun is undone when a step fails. *)
From S2P Require Import Prelude Json Schema Sql MasterTables JobGate Text Sessions Completion Agents LogReader.
From S2P Require Import Gateway Providers Recovery Startup PromptCases PromptRunner Tmux AgentIo SessionHandlers Events Spawn Tasks.
From Stdlib Require Import Ascii String.

(** The typed fields of a request, as serde reads them; [overrides_of] is the
    value behind the JSON image of a [SandboxOverrides]. *)
Class SpawnParamsSerde := {
  parse_env : Value → Result (gmap string string) string;
  parse_hooks : Value → Result Value string;
  parse_strings : Value → Result (list string) string;
  parse_bundle : Value → Result (list string) string;
  parse_settings : Value → Result (list (string * Value)) string;
  parse_mcp : Value → Result Value string;
  parse_path : Value → Result (option string) string;
  parse_overrides : Value → Result Value string;
  overrides_of : Value → SandboxOverrides;
  default_overrides : Value;
  provider_debug : string → string
}.

Inductive AgentSpawnDbAction : Type :=
| InsertDefault
| ReplaceKilledAndRequeue (expected_hash : string) (captured_intent : option AgentRecoveryIntent).

(** A request that was read. *)
Record SpawnParams : Type := MkSpawnParams {
  sa_session_id : string;
  sa_agent_id : string;
  sa_provider : string;
  sa_manifest : ProviderManifest;
  sa_extensions : ExtensionConfig;
  sa_extra_env : gmap string string;
  sa_config_env : gmap string string;
  sa_credentials : option string;
  sa_overrides : Value;
  sa_hook_push : bool
}.

(** ** Environments *)

(** [inject_worker_identity] of [src/src/process_identity.rs] *)
Definition inject_worker_identity (session_id agent_id : string) (env : gmap string string) :
    gmap string string :=
  <["AH_AGENT_ID" := agent_id]> (<["AH_SESSION_ID" := session_id]> (<["AH_ROLE" := "worker"]> env)).

Definition bare_config_env (config_env agent_env : gmap string string) : gmap string string :=
  agent_env ∪ config_env.

Definition build_agent_spawn_env_vars_for_hook_push (state_dir session_id agent_id : string)
    (extra_env_vars : gmap string string) : gmap string string :=
  inject_worker_identity session_id agent_id
    (<["CCB_SOCKET" := path_join state_dir "ahd.sock"]> extra_env_vars).

Definition is_ccb_sandbox_home (path : string) : bool :=
  contains path "/.cache/ccb/sandboxes/" || contains path "/.cache/ah/sandboxes/".
Definition should_inject_is_sandbox (provider_name : string) (command : list string)
    (home_root : string) : bool :=
  (provider_name == "claude") && existsb (λ arg, arg == "--dangerously-skip-permissions") command &&
  is_ccb_sandbox_home home_root.
Definition inject_is_sandbox_env_if_needed (provider_name : string) (command : list string)
    (home_root : string) (env : gmap string string) : gmap string string :=
  if should_inject_is_sandbox provider_name command home_root then <["IS_SANDBOX" := "1"]> env else env.
Definition strip_claude_gateway_env (env : gmap string string) : gmap string string :=
  delete "AH_CLAUDE_GATEWAY_SANDBOX_ROOT" (delete "AH_CLAUDE_GATEWAY_HOST_UDS"
    (delete "ANTHROPIC_AUTH_TOKEN" (delete "CLAUDE_CODE_USE_GATEWAY" env))).

Section AgentSpawn.
Context {EXT : Externals} {GX : GatewayExternals} {SPEC : SpawnSpecSerde} {SERDE : SpawnParamsSerde}.
Context {T : Type} {TX : TmuxExec T}.
Variable cx : WatchCtx.
Variable others : nat → WatchRuntime T → World → WatchRuntime T * World.

#[local] Existing Instances W_ret W_bind.
#[local] Notation W := (W (T := T)).
#[local] Notation stm := (stm others).
#[local] Notation tmux := (tmux others).
#[local] Notation pause := (pause others).

(** ** Reading a request *)

(** [match params.get(key) { Some(value) => from_value(value)?, None => default }] *)
Definition optional_field {A} (params : Value) (key : string) (parse : Value → Result A string)
    (absent : A) : Result A CcbdError :=
  match value_get key params with
  | Some value =>
      match parse value with
      | Ok a => Ok a
      | Err err => Err (IpcInvalidRequest ("invalid " +:+ key +:+ ": " +:+ err))
      end
  | None => Ok absent
  end.

Definition extension_config_from_params (params : Value) : Result ExtensionConfig CcbdError :=
  match optional_field params "hooks" parse_hooks (JObject []) with Err e => Err e | Ok hooks =>
  match optional_field params "plugins" parse_strings [] with Err e => Err e | Ok plugins =>
  match optional_field params "skills" parse_strings [] with Err e => Err e | Ok skills =>
  match optional_field params "bundle" parse_bundle [] with Err e => Err e | Ok bundle =>
  match optional_field params "settings" parse_settings [] with Err e => Err e | Ok settings =>
  match optional_field params "mcp" parse_mcp (JArray []) with Err e => Err e | Ok mcp =>
  Ok (MkExtensionConfig hooks plugins skills bundle settings mcp None)
  end end end end end end.

Definition unknown_provider_error (provider : string) : CcbdError :=
  EnvironmentNotSupported ("unknown provider " +:+ provider_debug provider +:+
    "; valid providers: bash, codex, claude, antigravity").

(** The checks on an agent's id and provider. *)
Definition check_agent_id (agent_id : string) : Result unit CcbdError :=
  if starts_with agent_id "master:" then
    Err (IpcInvalidRequest "agent_id prefix 'master:' is reserved for master hook sentinels")
  else Ok tt.
Definition manifest_of (provider : string) : Result ProviderManifest CcbdError :=
  match try_get_manifest provider with
  | Some manifest => Ok manifest
  | None => Err (unknown_provider_error provider)
  end.

Definition hook_push_enabled_from_spawn_params (params : Value) : bool :=
  default false (value_get "hook_push_enabled" params ≫= as_bool).

Definition spawn_params (params : Value) : Result SpawnParams CcbdError :=
  match required_str params "session_id" with Err e => Err e | Ok session_id =>
  match required_str params "agent_id" with Err e => Err e | Ok agent_id =>
  match check_agent_id agent_id with Err e => Err e | Ok _ =>
  match required_str params "provider" with Err e => Err e | Ok provider =>
  match manifest_of provider with Err e => Err e | Ok manifest =>
  match extension_config_from_params params with Err e => Err e | Ok extensions =>
  match optional_field params "extra_env_vars" parse_env ∅ with Err e => Err e | Ok extra =>
  match optional_field params "config_env" parse_env ∅ with Err e => Err e | Ok config =>
  match optional_field params "claude_shared_credentials_dir" parse_path None with
  | Err e => Err e | Ok credentials =>
  match optional_field params "sandbox_overrides" parse_overrides default_overrides with
  | Err e => Err e | Ok overrides =>
  Ok (MkSpawnParams session_id agent_id provider manifest extensions extra config credentials overrides
        (hook_push_enabled_from_spawn_params params))
  end end end end end end end end end end.

(** ** Undoing *)

(** [if let Err(err) = m { cleanup; return Err(err) }] *)
Definition or_undo {A} (undo : W unit) (m : W A) : W A :=
  r ← w_try m;
  match r with
  | Ok a => mret a
  | Err e => undo;; w_throw e
  end.

Definition remove_fifo (fifo_path : string) : W unit :=
  modify_agents (λ a, set_at_fifos (a.(at_fifos) ∖ {[fifo_path]}) a).
Definition cleanup_spawn_resources (pane fifo_path : string) : W unit :=
  w_try (tmux 100 (kill_pane_sync cx.(mx_server) pane));; remove_fifo fifo_path.

(** ** The sandbox *)

Definition valid_id_charset (value : string) : bool :=
  negb (value == "") &&
  forallb (λ c, is_ascii_alphanumeric c || bool_decide (c = "_"%char) || bool_decide (c = "-"%char))
    (String.list_ascii_of_string value).

Definition resolve_sandbox_dir (session_id agent_id : string) : W string :=
  if negb (valid_id_charset session_id) then
    w_throw (IpcInvalidRequest ("invalid session_id for sandbox path: " +:+ session_id))
  else if negb (valid_id_charset agent_id) then
    w_throw (IpcInvalidRequest ("invalid agent_id for sandbox path: " +:+ agent_id))
  else
  let dir := path_join (path_join (path_join cx.(mx_state_dir) "sandboxes") session_id) agent_id in
  rt ← get_wr;
  match rt.(wr_host).(mh_sandbox_dir) dir with
  | Some err => w_throw (SandboxMountFailed ("create sandbox dir " +:+ dir +:+ ": " +:+ err))
  | None => mret dir
  end.

(** [SandboxDirGuard]: a failure removes the sandbox with its home. *)
Definition with_sandbox_guard {A} (session_id agent_id : string) (body : option string → W A) : W A :=
  if cx.(mx_env_state).(unsafe_no_sandbox) then body None
  else
  dir ← resolve_sandbox_dir session_id agent_id;
  or_undo (stm 101 (emit (RemoveSandboxDir session_id agent_id false))) (body (Some dir)).

(** ** The command *)

(** The environment of the process and the arguments that resume its conversation. *)
Definition spawn_home (p : SpawnParams) (is_recovery : bool) (agent_cwd : string)
    (extensions : ExtensionConfig) (credentials sandbox : option string) :
    Result (gmap string string * list string) CcbdError :=
  let name := p.(sa_manifest).(provider_name) in
  let env := build_agent_spawn_env_vars_for_hook_push cx.(mx_state_dir) p.(sa_session_id)
               p.(sa_agent_id) (bare_config_env p.(sa_config_env) p.(sa_extra_env)) in
  match sandbox, p.(sa_manifest).(requires_home_materialization) with
  | Some dir, true =>
      match cx.(mx_prepare).(sx_home_layout) name dir agent_cwd p.(sa_agent_id) extensions
              p.(sa_hook_push) credentials with
      | Err e => Err e
      | Ok home =>
          let env := home.(ho_extra_env) ∪ env in
          let env := if name == "claude" then strip_claude_gateway_env env else env in
          Ok (inject_is_sandbox_env_if_needed name p.(sa_manifest).(command) home.(ho_home_root) env,
              if is_recovery then cx.(mx_prepare).(sx_recovery_args) name home.(ho_home_root) else [])
      end
  | _, _ => Ok (env, if is_recovery then cx.(mx_prepare).(sx_recovery_args) name agent_cwd else [])
  end.

Definition spawn_command (p : SpawnParams) (is_recovery : bool) (session : SessionView)
    (env : gmap string string) (recovery_args : list string) : list string :=
  wrap_command_with_recovery_and_sandbox_overrides p.(sa_agent_id) session.(sv_project_id)
    cx.(mx_server).(ts_socket_name) cx.(mx_env_state) (MkRecoverySpawn is_recovery recovery_args)
    cx.(mx_daemon_unit) p.(sa_manifest) cx.(mx_prepare).(sx_host_env) env (overrides_of p.(sa_overrides))
    cx.(mx_bridge).

(** ** The pipe, the pane and the process *)

Definition fifo_path_of (agent_id : string) : string :=
  path_join (path_join cx.(mx_state_dir) "pipes") (agent_id +:+ ".fifo").

Definition make_fifo (fifo_path : string) : W unit :=
  rt ← get_wr;
  match rt.(wr_host).(mh_pipe_dir) with
  | Some err =>
      w_throw (EnvironmentNotSupported
        ("create fifo dir " +:+ path_join cx.(mx_state_dir) "pipes" +:+ ": " +:+ err))
  | None =>
      remove_fifo fifo_path;;
      match rt.(wr_host).(mh_mkfifo) with
      | Some err => w_throw (TmuxCommandFailed ("mkfifo " +:+ fifo_path) err (-1))
      | None =>
          modify_agents (λ a, set_at_fifos ({[fifo_path]} ∪ a.(at_fifos)) a);;
          match rt.(wr_host).(mh_fifo_open) with
          | Some err =>
              remove_fifo fifo_path;;
              w_throw (EnvironmentNotSupported ("open fifo " +:+ fifo_path +:+ ": " +:+ err))
          | None => mret tt
          end
      end
  end.

Definition start_pane (agent_id provider agent_cwd fifo_path : string) (cmd : list string) : W string :=
  or_undo (remove_fifo fifo_path)
    (tmux 102 (ensure_session_sync cx.(mx_server) (agent_session_name agent_id) agent_cwd));;
  pane ← or_undo (remove_fifo fifo_path)
    (tmux 103 (spawn_window_sync cx.(mx_server) (agent_session_name agent_id) agent_id agent_cwd cmd));
  w_try (tmux 104 (set_pane_title_sync cx.(mx_server) pane (agent_id +:+ " (" +:+ provider +:+ ")")));;
  mret pane.

(** The process id, with the pane piped to the pipe and the process's pidfd open. *)
Definition attach_pane (agent_id pane fifo_path : string) : W Z :=
  or_undo (cleanup_spawn_resources pane fifo_path) (
    pid ← tmux 105 (get_pane_pid_sync cx.(mx_server) pane);
    tmux 106 (pipe_pane_to_fifo_sync cx.(mx_server) pane fifo_path);;
    pause 107;;
    opened ← pidfd_open pid;
    w_of_result opened;;
    rt ← get_wr;
    match rt.(wr_host).(mh_try_clone) with
    | Some err =>
        w_throw (EnvironmentNotSupported ("clone agent pidfd for " +:+ agent_id +:+ ": " +:+ err))
    | None => mret pid
    end).

(** ** The row *)

Definition persist_agent_spawn_snapshot_after_success (spec : AgentSpawnSpec) (config_hash : string) :
    W bool :=
  r ← w_try (stm 108 (persist_agent_spawn_spec_sync spec config_hash));
  mret (negb (is_err r)).

Definition spawn_spec (p : SpawnParams) (extensions : ExtensionConfig) : AgentSpawnSpec :=
  MkSpawnSpec p.(sa_agent_id) p.(sa_provider) (bare_config_env p.(sa_config_env) p.(sa_extra_env))
    extensions.(ec_hooks) extensions.(ec_plugins) extensions.(ec_skills) extensions.(ec_bundle)
    extensions.(ec_settings) extensions.(ec_bundle_digest) p.(sa_overrides) p.(sa_hook_push).

Definition record_agent (p : SpawnParams) (db_action : AgentSpawnDbAction) (pid : Z)
    (pane fifo_path config_hash : string) (spec : AgentSpawnSpec) : W unit :=
  match db_action with
  | InsertDefault =>
      or_undo (cleanup_spawn_resources pane fifo_path)
        (stm 109 (insert_agent_sync p.(sa_agent_id) p.(sa_session_id) p.(sa_provider) "SPAWNING" (Some pid)));;
      stm 110 (update_agent_config_hash_sync p.(sa_agent_id) config_hash);;
      persist_agent_spawn_snapshot_after_success spec config_hash;;
      mret tt
  | ReplaceKilledAndRequeue expected_hash captured_intent =>
      or_undo (cleanup_spawn_resources pane fifo_path)
        (stm 111 (replace_killed_agent_and_requeue_job_sync p.(sa_session_id) spec expected_hash pid
                    captured_intent));;
      mret tt
  end.

(** ** What follows the agent *)

Definition follow_agent (p : SpawnParams) (pid : Z) (pane fifo_path : string) : W unit :=
  monitor_register p.(sa_agent_id);;
  modify_agents (λ a, set_at_parsers (<[p.(sa_agent_id) := EmptyString]> a.(at_parsers)) a);;
  modify_wr (add_task (AgentReader p.(sa_agent_id)));;
  modify_agents (λ a, set_at_panes (register_pane p.(sa_agent_id)
    (MkAgentIoEntry p.(sa_session_id) pane (Some pid) fifo_path cx.(mx_server).(ts_socket_name) false)
    a.(at_panes)) a);;
  modify_wr (add_task (AgentPidfdWatch p.(sa_agent_id) p.(sa_session_id) pid));;
  modify_wr (add_task (AgentInitProbe p.(sa_agent_id) pane p.(sa_provider))).

(** ** The whole spawn *)

Definition spawn_in_sandbox (p : SpawnParams) (is_recovery : bool) (db_action : AgentSpawnDbAction)
    (session : SessionView) (extensions : ExtensionConfig) (credentials sandbox : option string) :
    W Value :=
  let agent_cwd := session.(sv_absolute_path) in
  let fifo_path := fifo_path_of p.(sa_agent_id) in
  home ← w_of_result (spawn_home p is_recovery agent_cwd extensions credentials sandbox);
  let cmd := spawn_command p is_recovery session home.1 home.2 in
  make_fifo fifo_path;;
  pane ← start_pane p.(sa_agent_id) p.(sa_provider) agent_cwd fifo_path cmd;
  pid ← attach_pane p.(sa_agent_id) pane fifo_path;
  config_hash ← w_of_result (cx.(mx_prepare).(sx_config_hash) p.(sa_provider)
    (bare_config_env p.(sa_config_env) p.(sa_extra_env)) extensions);
  record_agent p db_action pid pane fifo_path config_hash (spawn_spec p extensions);;
  follow_agent p pid pane fifo_path;;
  mret (json_object [("state", JString "SPAWNING"); ("pid", JNumber pid); ("pane_id", JString pane)]).

Definition spawn_agent (p : SpawnParams) (is_recovery : bool) (db_action : AgentSpawnDbAction) :
    W Value :=
  existing ← stm 112 (query_agent_sync p.(sa_agent_id));
  if match existing with Some a => a.(a_state) != "KILLED" | None => false end then
    w_throw (AgentAlreadyExists p.(sa_agent_id))
  else
  session ← stm 113 (query_session_by_id_sync p.(sa_session_id));
  match session with
  | None => w_throw (DbConstraintViolation ("session not found: " +:+ p.(sa_session_id)))
  | Some session =>
      let agent_cwd := session.(sv_absolute_path) in
      credentials ← (if (p.(sa_manifest).(provider_name) == "claude") && bool_decide (p.(sa_credentials) = None)
                     then w_of_result (cx.(mx_shared_credentials) agent_cwd)
                     else mret p.(sa_credentials));
      extensions ← w_of_result (cx.(mx_prepare).(sx_bundles) agent_cwd p.(sa_manifest).(provider_name)
                                  p.(sa_extensions));
      with_sandbox_guard p.(sa_session_id) p.(sa_agent_id)
        (spawn_in_sandbox p is_recovery db_action session extensions credentials)
  end.

Definition handle_agent_spawn_with_db_action (params : Value) (is_recovery : bool)
    (db_action : AgentSpawnDbAction) : W Value :=
  p ← w_of_result (spawn_params params);
  spawn_agent p is_recovery db_action.
Definition handle_agent_spawn (params : Value) : W Value :=
  handle_agent_spawn_with_db_action params false InsertDefault.

(** ** Realignment *)

(** The agent of a realignment as a request; what is written to JSON there and
    read here is passed on. *)
Definition realign_params (session_id : string) (spec : AgentSpawnSpec) (credentials : option string)
    (config_env : gmap string string) : Result SpawnParams CcbdError :=
  match check_agent_id spec.(ss_agent_id) with Err e => Err e | Ok _ =>
  match manifest_of spec.(ss_provider) with Err e => Err e | Ok manifest =>
  Ok (MkSpawnParams session_id spec.(ss_agent_id) spec.(ss_provider) manifest
        (MkExtensionConfig spec.(ss_hooks) spec.(ss_plugins) spec.(ss_skills) spec.(ss_bundle)
           spec.(ss_settings) (JArray []) None)
        spec.(ss_env) config_env credentials spec.(ss_sandbox_overrides) spec.(ss_hook_push_enabled))
  end end.

Definition realign_spec (spec : AgentSpawnSpec) (config_env : gmap string string) : AgentSpawnSpec :=
  MkSpawnSpec spec.(ss_agent_id) spec.(ss_provider) (bare_config_env config_env spec.(ss_env))
    spec.(ss_hooks) spec.(ss_plugins) spec.(ss_skills) spec.(ss_bundle) spec.(ss_settings)
    spec.(ss_bundle_digest) spec.(ss_sandbox_overrides) spec.(ss_hook_push_enabled).

Definition persist_realign_snapshot_after_success (spec : AgentSpawnSpec) (expected_hash : string)
    (config_env : gmap string string) : M CcbdError unit :=
  persist_agent_spawn_spec_sync (realign_spec spec config_env) expected_hash;;
  clear_recovery_backoff_sync spec.(ss_agent_id).

Definition spawn_realign_agent (session_id : string) (spec : AgentSpawnSpec) (credentials : option string)
    (expected_hash : string) (killed_before_spawn is_recovery : bool) (config_env : gmap string string)
    (captured_intent : option AgentRecoveryIntent) : W unit :=
  let db_action :=
    match captured_intent with
    | Some _ => ReplaceKilledAndRequeue expected_hash captured_intent
    | None => InsertDefault
    end in
  p ← w_of_result (realign_params session_id spec credentials config_env);
  spawn_agent p is_recovery db_action;;
  (match captured_intent with
   | None => stm 114 (persist_realign_snapshot_after_success spec expected_hash config_env)
   | Some _ => mret tt
   end);;
  (if killed_before_spawn then
     stm 115 (insert_event spec.(ss_agent_id) None "agent_killed"
                (json_to_string (json_object [("reason", JString "DRIFT_REALIGN")])));; mret tt
   else mret tt);;
  stm 116 (insert_event spec.(ss_agent_id) None "agent_spawned" (json_to_string (json_object [
    ("reason", JString (if killed_before_spawn then "DRIFT_REALIGN" else "NEW"));
    ("is_recovery", JBool is_recovery)])));;
  mret tt.

End AgentSpawn.
