(* ===== verification/AgentRequests.v ===== *)
(** * Requests on agents ([src/src/rpc/handlers/agent.rs])

    [agent.kill], [agent.notify], [agent.send], [agent.read] and [agent.watch],
    and the task that follows an agent's process
    ([src/src/monitor/agent_watch.rs]). *)
From S2P Require Import Prelude Json Schema Sql MasterTables JobGate AgentGate Text ReplyText Sessions MasterRevival Jobs Completion.
From S2P Require Import Evidence StateMachine Agents LogReader Events Providers Recovery Lifecycle Startup PromptCases.
From S2P Require Import PromptRunner Tmux AgentIo SessionWatch SessionHandlers Spawn Tasks AgentSpawn.
From Stdlib Require Import Ascii String.

(** ** Integers in text *)

(** [s.parse::<i64>()], with the text of the error it answers. *)
Definition INVALID_DIGIT : string := "invalid digit found in string".
Fixpoint parse_i64_digits (bound : Z) (overflow : string) (acc : Z) (s : string) : Result Z string :=
  match s with
  | EmptyString => Ok acc
  | String b s' =>
      match digit_of b with
      | None => Err INVALID_DIGIT
      | Some d =>
          if bound <? acc * 10 + d then Err overflow
          else parse_i64_digits bound overflow (acc * 10 + d) s'
      end
  end.
Definition parse_i64_body (bound : Z) (overflow : string) (body : string) : Result Z string :=
  if body == "" then Err INVALID_DIGIT else parse_i64_digits bound overflow 0 body.
Definition parse_i64 (s : string) : Result Z string :=
  match s with
  | EmptyString => Err "cannot parse integer from empty string"
  | String "-" body =>
      match parse_i64_body (2 ^ 63) "number too small to fit in target type" body with
      | Ok n => Ok (- n)
      | Err e => Err e
      end
  | String "+" body => parse_i64_body i64_max "number too large to fit in target type" body
  | _ => parse_i64_body i64_max "number too large to fit in target type" s
  end.

Definition required_i64 (params : Value) (field : string) : Result Z CcbdError :=
  match value_get field params ≫= as_i64 with
  | Some n => Ok n
  | None => Err (IpcInvalidRequest ("missing or invalid field '" +:+ field +:+ "'"))
  end.

Definition should_press_enter_after_paste (provider text : string) : bool :=
  negb ((provider == "antigravity") && ends_with text (byte_str 10)).

(** ** Names of masters *)

Definition normalize_hook_event (event : string) : string := to_ascii_lowercase event.

Definition parse_master_agent_id (agent_id : string) : Result (option (string * Z)) CcbdError :=
  match strip_prefix agent_id "master:" with
  | None => Ok None
  | Some rest =>
      match rsplit_once ":" rest with
      | None => Err (IpcInvalidRequest ("invalid master agent_id sentinel: " +:+ agent_id))
      | Some (session_id, generation) =>
          if session_id == "" then
            Err (IpcInvalidRequest ("invalid master agent_id sentinel: " +:+ agent_id))
          else
          match parse_i64 generation with
          | Err err => Err (IpcInvalidRequest
                              ("invalid master generation in agent_id " +:+ agent_id +:+ ": " +:+ err))
          | Ok generation => Ok (Some (session_id, generation))
          end
      end
  end.

Definition event_json (e : Event) : Value :=
  json_object [("seq_id", JNumber e.(e_seq_id)); ("event_type", JString e.(e_event_type));
               ("payload", JString e.(e_payload)); ("created_at", JNumber e.(e_created_at))].
Definition events_answer (events : list Event) : Value :=
  json_object [("events", JArray (event_json <$> events)); ("is_truncated", JBool false)].

(** What a subscription to the outputs of agents answers. *)
Inductive Broadcast : Type :=
| Received (agent_id : string)
| Lagged
| Closed.

Section AgentRequests.
Context {EXT : Externals} {SPEC : SpawnSpecSerde}.
Context {T : Type} {TX : TmuxExec T}.
Variable cx : WatchCtx.
Variable others : nat → WatchRuntime T → World → WatchRuntime T * World.

#[local] Existing Instances W_ret W_bind.
#[local] Notation W := (W (T := T)).
#[local] Notation stm := (stm others).
#[local] Notation tmux := (tmux others).
#[local] Notation pause := (pause others).

Definition existing_agent (point : nat) (agent_id : string) : W Agent :=
  agent ← stm point (query_agent_sync agent_id);
  match agent with Some a => mret a | None => w_throw (AgentNotFound agent_id) end.

(** ** [agent.kill] *)

(** [libc::kill(pid as pid_t, SIGKILL)]; a failure is logged. *)
Definition handle_agent_kill (params : Value) : W Value :=
  agent_id ← w_of_result (required_str params "agent_id");
  agent ← existing_agent 120 agent_id;
  changes ← stm 121 (mark_agent_killed agent_id "SIGKILL_BY_DAEMON");
  if changes == 0%nat then mret (json_object [("state", JString agent.(a_state))])
  else
  (match agent.(a_pid) with
   | Some pid => modify_wr (add_signal (SignalPid (as_i32 pid)))
   | None => mret tt
   end);;
  stm 122 (emit (DeregisterGateway agent_id));;
  stm 123 (emit (RemoveSandboxDir agent.(a_session_id) agent_id false));;
  mret (json_object [("state", JString "KILLED")]).

(** ** [agent.notify] *)

Definition worker_answer (agent_id event provider : string) (event_id : option string)
    (fields : list (string * Value)) : Value :=
  json_object ([("agent_id", JString agent_id); ("event", JString event); ("role", JString "worker");
    ("provider", JString provider); ("event_id", json_opt JString event_id);
    ("accepted", JBool true)] ++ fields).

Definition handle_master_notify (agent_id session_id : string) (master_generation : Z) (event : string)
    (provider event_id : option string) : W Value :=
  st ← (if event == "userpromptsubmit" then mret ("BUSY", false)
        else if event == "stop" then mret ("IDLE", true)
        else w_throw (IpcInvalidRequest ("unsupported event for master agent.notify: " +:+ event)));
  transition ← stm 124 (apply_master_notify_event_sync session_id master_generation st.1 st.2);
  match transition with
  | None => w_throw (IpcInvalidRequest ("active session not found: " +:+ session_id))
  | Some t =>
      mret (json_object [("agent_id", JString agent_id); ("event", JString event);
        ("role", JString "master"); ("provider", JString (default "unknown" provider));
        ("event_id", json_opt JString event_id); ("session_id", JString session_id);
        ("request_id", json_opt JString t.(mn_request_id));
        ("master_generation", JNumber master_generation);
        ("current_master_generation", JNumber t.(mn_current_generation)); ("accepted", JBool true);
        ("transitioned", JBool t.(mn_transitioned));
        ("ignored_stale", JBool (negb (t.(mn_current_generation) =? master_generation)));
        ("previous_state", JString t.(mn_previous_state)); ("new_state", JString t.(mn_new_state))])
  end.

Definition handle_worker_notify (agent_id event : string) (provider event_id reply : option string) :
    W Value :=
  agent ← existing_agent 125 agent_id;
  if match provider with Some p => p != agent.(a_provider) | None => false end then
    w_throw (IpcInvalidRequest ("provider mismatch for agent " +:+ agent_id +:+ ": expected " +:+
      agent.(a_provider) +:+ ", got " +:+ default "" provider))
  else
  let provider := default agent.(a_provider) provider in
  if event != "stop" then
    mret (worker_answer agent_id event provider event_id
      [("unsupported", JBool true); ("transitioned", JBool false); ("changes", JNumber 0);
       ("affected_job_id", JNull)])
  else
  r ← stm 126 (mark_agent_idle_hook_event agent_id provider event event_id reply);
  let '(changes, affected_job_id) := r in
  (if bool_decide (0 < changes)%nat then
     (match affected_job_id with
      | Some job_id => stm 127 (notify_job_update job_id)
      | None => mret tt
      end);;
     stm 128 (emit (DropLogMonitor agent_id));;
     stm 129 wake_up
   else mret tt);;
  mret (worker_answer agent_id event provider event_id
    [("transitioned", JBool (bool_decide (0 < changes)%nat)); ("changes", JNumber (Z.of_nat changes));
     ("affected_job_id", json_opt JString affected_job_id)]).

Definition handle_agent_notify (params : Value) : W Value :=
  agent_id ← w_of_result (required_str params "agent_id");
  event ← w_of_result (required_str params "event");
  let event := normalize_hook_event event in
  let provider := canonicalize_provider_name <$> get_str "provider" params in
  let event_id := get_str "event_id" params in
  master ← w_of_result (parse_master_agent_id agent_id);
  match master with
  | Some (session_id, master_generation) =>
      handle_master_notify agent_id session_id master_generation event provider event_id
  | None => handle_worker_notify agent_id event provider event_id (get_str "reply" params)
  end.

(** ** [agent.send] *)

Definition send_answer (state : string) (seq_id : Z) : Value :=
  json_object [("state", JString state); ("seq_id", JNumber seq_id)].

(** The status a recorded command was left with. *)
Definition recorded_status (e : Event) (seq_id : Z) : Result string CcbdError :=
  match json_from_str e.(e_payload) with
  | None => Err (IpcInvalidRequest ("invalid command_received payload for seq_id=" +:+
                   i64_to_string seq_id +:+ ": " +:+ json_error_display e.(e_payload)))
  | Some payload => Ok (default "PENDING" (get_str "status" payload))
  end.
Definition recorded_answer (status state : string) (seq_id : Z) : Result Value CcbdError :=
  if status is_in ["SENT"; "PENDING"] then Ok (send_answer state seq_id)
  else if status == "FAILED" then
    Err (PtyIoError ("previous attempt seq_id=" +:+ i64_to_string seq_id +:+
                     " failed; retry with new request_id"))
  else Err (IpcInvalidRequest ("unknown command_received status: " +:+ status)).

(** A request seen before is answered from its record. *)
Definition repeated_send (agent_id : string) (request_id : option string) : W (option Value) :=
  match request_id with
  | None => mret None
  | Some request_id =>
      existing ← stm 130 (query_event_by_request_id_sync agent_id request_id);
      match existing with
      | None => mret None
      | Some existing =>
          status ← w_of_result (recorded_status existing existing.(e_seq_id));
          state ← stm 131 (query_agent_state_sync agent_id);
          match state with
          | None => w_throw (AgentNotFound agent_id)
          | Some (state, _) =>
              answer ← w_of_result (recorded_answer status state existing.(e_seq_id));
              mret (Some answer)
          end
      end
  end.

(** The agent is taken from IDLE to WAITING_FOR_ACK, at the version it was read. *)
Definition take_idle_agent (agent_id : string) : W Agent :=
  agent ← existing_agent 132 agent_id;
  cas_ok ← stm 133 (mark_agent_waiting_for_ack agent_id agent.(a_state_version));
  if (cas_ok : bool) then mret agent
  else
  current ← stm 134 (query_agent_state_sync agent_id);
  w_throw (AgentWrongState (from_option fst agent.(a_state) current)).

Definition command_payload (text status : string) : Value :=
  json_object [("cmd", JString text); ("status", JString status)].

(** The command is recorded before it is typed; [inr]: it was recorded before. *)
Definition record_command (agent_id : string) (request_id : option string) (text state : string) :
    W (Z + Value) :=
  r ← w_try (stm 135 (insert_event agent_id request_id "command_received"
                        (json_to_string (command_payload text "PENDING"))));
  match r with
  | Ok seq_id => mret (inl seq_id)
  | Err (DuplicateRequest existing_seq_id) =>
      match request_id with
      | None => w_throw (IpcInvalidRequest "duplicate request without request_id")
      | Some request_id =>
          existing ← stm 136 (query_event_by_request_id_sync agent_id request_id);
          match existing with
          | None => w_throw (DbConstraintViolation
                      ("duplicate event seq_id=" +:+ i64_to_string existing_seq_id +:+ " not found"))
          | Some existing =>
              status ← w_of_result (recorded_status existing existing_seq_id);
              if status == "FAILED" then
                w_throw (PtyIoError ("previous attempt seq_id=" +:+ i64_to_string existing_seq_id +:+
                                     " failed; retry with new request_id"))
              else
              answer ← w_of_result (recorded_answer status state existing.(e_seq_id));
              mret (inr answer)
          end
      end
  | Err err => w_throw err
  end.

Definition type_command (agent : Agent) (agent_id pane text : string) (seq_id : Z) : W Value :=
  capture_baseline ← w_try (tmux 137 (capture_pane_sync cx.(mx_server) pane));
  written ← w_try (tmux 138 (send_text_to_pane_with_options cx.(mx_server) cx.(mx_second_enter) agent_id
                     pane text (should_press_enter_after_paste agent.(a_provider) text)));
  stm 139 (record_send_progress_sync seq_id
    (command_payload text (if is_err written then "FAILED" else "SENT")) agent_id (negb (is_err written)));;
  match written with
  | Err e => w_throw (PtyIoError (error_to_string e))
  | Ok _ =>
      pause 140;;
      rt ← get_wr;
      if bool_decide (rt.(wr_agents).(at_parsers) !! agent_id = None) then
        w_throw (PtyIoError ("parser not in PARSER_REGISTRY for " +:+ agent_id))
      else
      modify_wr (add_task (AgentMarkerTimer agent_id));;
      modify_agents (λ a, set_at_timers ({[agent_id]} ∪ a.(at_timers)) a);;
      (match capture_baseline with
       | Ok baseline => modify_wr (add_task (AgentCaptureSeed agent_id baseline))
       | Err _ => mret tt
       end);;
      mret (send_answer STATE_WAITING_FOR_ACK seq_id)
  end.

Definition handle_agent_send (params : Value) : W Value :=
  agent_id ← w_of_result (required_str params "agent_id");
  text ← w_of_result (required_str params "text");
  let request_id := get_str "request_id" params in
  repeated ← repeated_send agent_id request_id;
  match repeated with
  | Some answer => mret answer
  | None =>
      agent ← take_idle_agent agent_id;
      pause 141;;
      modify_agents (λ a, set_at_panes (set_idle_scan_enabled agent_id false a.(at_panes)) a);;
      rt ← get_wr;
      match pane_id agent_id rt.(wr_agents).(at_panes) with
      | None => w_throw (PtyIoError ("tmux pane not registered for " +:+ agent_id))
      | Some pane =>
          recorded ← record_command agent_id request_id text agent.(a_state);
          match recorded with
          | inr answer => mret answer
          | inl seq_id => type_command agent agent_id pane text seq_id
          end
      end
  end.

(** ** [agent.read] and [agent.watch] *)

Definition handle_agent_read (params : Value) : W Value :=
  agent_id ← w_of_result (required_str params "agent_id");
  since_event_id ← w_of_result (required_i64 params "since_event_id");
  existing_agent 142 agent_id;;
  events ← stm 143 (query_events_since_sync agent_id since_event_id);
  mret (events_answer events).

(** The broadcasts until the timeout: [None] when it comes first. *)
Fixpoint watch_broadcasts (agent_id : string) (since_event_id : Z) (broadcasts : list Broadcast) :
    W (option Value) :=
  match broadcasts with
  | [] => mret None
  | Closed :: _ => w_throw (IpcInvalidRequest "agent output subscription closed")
  | b :: rest =>
      if match b with Received updated => updated == agent_id | _ => true end then
        events ← stm 144 (query_events_since_sync agent_id since_event_id);
        match events with
        | [] => watch_broadcasts agent_id since_event_id rest
        | _ => mret (Some (events_answer events))
        end
      else watch_broadcasts agent_id since_event_id rest
  end.
Definition handle_agent_watch (params : Value) (broadcasts : list Broadcast) : W Value :=
  agent_id ← w_of_result (required_str params "agent_id");
  since_event_id ← w_of_result (required_i64 params "since_event_id");
  existing_agent 145 agent_id;;
  events ← stm 146 (query_events_since_sync agent_id since_event_id);
  match events with
  | [] =>
      answer ← watch_broadcasts agent_id since_event_id broadcasts;
      mret (default (events_answer []) answer)
  | _ => mret (events_answer events)
  end.

(** ** The end of an agent's process *)

(** [cleanup] of [agent_watch.rs] *)
Definition cleanup_watched_agent (agent_id session_id : string) : W unit :=
  stm 147 (emit (DeregisterGateway agent_id));;
  stm 148 (emit (CleanupRuntime agent_id (Some session_id) CleanupDefault));;
  modify_wr (λ rt, set_wr_monitors (rt.(wr_monitors) ∖ {[agent_id]}) rt).

(** The task behind [AgentPidfdWatch], once its process is confirmed dead. *)
Definition agent_process_exited (agent_id session_id : string) (exit_code : option Z) : W unit :=
  state ← w_try (stm 149 (query_agent_state_sync agent_id));
  if match state with Ok (Some (state, _)) => state == STATE_PROMPT_PENDING | _ => false end then mret tt
  else
  w_try (stm 150 (mark_agent_crashed_with_exit agent_id exit_code));;
  modify_agents (λ a, set_at_timers (a.(at_timers) ∖ {[agent_id]}) a);;
  modify_agents (λ a, set_at_parsers (delete agent_id a.(at_parsers)) a);;
  cleanup_watched_agent agent_id session_id.

End AgentRequests.
