(* ===== verification/JobRequests.v ===== *)
(** * Requests on jobs and evidence ([src/src/rpc/handlers/jobs.rs], [evidence.rs])

    Submitting a job, waiting for it, cancelling it, and the records of evidence
    a job may need. *)
From S2P Require Import Prelude Json Schema Sql MasterTables JobGate AgentGate Text ReplyText Sessions Jobs Completion.
From S2P Require Import Evidence StateMachine Agents LogReader Providers Recovery Startup PromptCases.
From S2P Require Import PromptRunner Tmux AgentIo SessionWatch SessionHandlers Spawn Tasks AgentSpawn AgentRequests.

Section JobRequests.
Context {EXT : Externals}.
Context {T : Type} {TX : TmuxExec T}.
Variable cx : WatchCtx.
Variable others : nat → WatchRuntime T → World → WatchRuntime T * World.

#[local] Existing Instances W_ret W_bind.
#[local] Notation W := (W (T := T)).
#[local] Notation stm := (stm others).
#[local] Notation tmux := (tmux others).
#[local] Notation pause := (pause others).

(** [job_id]: ["job_"] and a fresh UUID. *)
Definition handle_job_submit (job_id : string) (params : Value) : W Value :=
  agent_id ← w_of_result (required_str params "agent_id");
  prompt_text ← w_of_result (required_str params "text");
  let request_id := get_str "request_id" params in
  agent ← existing_agent others 160 agent_id;
  if agent.(a_state) is_in ["CRASHED"; "KILLED"] then w_throw (AgentWrongState agent.(a_state))
  else
  returned_job_id ← stm 161 (insert_job job_id agent_id request_id prompt_text);
  stm 162 wake_up;;
  mret (json_object [("job_id", JString returned_job_id); ("status", JString "QUEUED")]).

Definition existing_job (point : nat) (job_id : string) : W Job :=
  job ← stm point (query_job_sync job_id);
  match job with
  | Some job => mret job
  | None => w_throw (IpcInvalidRequest ("job_id not found: " +:+ job_id))
  end.

(** ** [job.wait] *)

Definition terminal_status (status : string) : bool := status is_in ["COMPLETED"; "FAILED"; "CANCELLED"].
Definition job_answer (job : Job) : Value :=
  json_object [("job_id", JString job.(j_id)); ("status", JString job.(j_status));
    ("reply_text", json_opt JString job.(j_reply_text));
    ("error_reason", json_opt JString job.(j_error_reason))].
Definition terminal_job_response (point : nat) (job_id : string) : W (option Value) :=
  job ← existing_job point job_id;
  mret (if terminal_status job.(j_status) then Some (job_answer job) else None).

(** The updates until the timeout: [None] when it comes first. *)
Fixpoint wait_updates (job_id : string) (updates : list Broadcast) : W (option Value) :=
  match updates with
  | [] => mret None
  | Closed :: _ => w_throw (IpcInvalidRequest "job update subscription closed")
  | u :: rest =>
      if match u with Received updated => updated == job_id | _ => true end then
        answer ← terminal_job_response 163 job_id;
        match answer with Some v => mret (Some v) | None => wait_updates job_id rest end
      else wait_updates job_id rest
  end.
Definition handle_job_wait (params : Value) (updates : list Broadcast) : W Value :=
  job_id ← w_of_result (required_str params "job_id");
  first ← terminal_job_response 164 job_id;
  match first with
  | Some v => mret v
  | None =>
      answer ← wait_updates job_id updates;
      match answer with
      | Some v => mret v
      | None => w_throw (PtyIoError "Timeout waiting for job completion")
      end
  end.

(** ** [job.cancel] *)

Definition cancel_answer (job_id status : string) : Value :=
  json_object [("job_id", JString job_id); ("status", JString status)].

Fixpoint press_cancel_keys (pane : string) (keysyms : list string) : W unit :=
  match keysyms with
  | [] => mret tt
  | k :: rest => tmux 165 (send_keys_keysym_sync cx.(mx_server) pane k);; press_cancel_keys pane rest
  end.

Definition cancel_dispatched (job : Job) (job_id : string) : W Value :=
  stm 166 (request_dispatched_job_cancel job_id);;
  changes ← stm 167 (mark_dispatched_job_cancelled_if_agent_idle job_id);
  if bool_decide (0 < changes)%nat then mret (cancel_answer job_id "CANCELLED")
  else
  pause 168;;
  rt ← get_wr;
  match pane_id job.(j_agent_id) rt.(wr_agents).(at_panes) with
  | None => w_throw (PtyIoError ("tmux pane not registered for " +:+ job.(j_agent_id)))
  | Some pane =>
      agent ← existing_agent others 169 job.(j_agent_id);
      press_cancel_keys pane (cancel_keysyms_for_provider agent.(a_provider));;
      stm 170 (mark_dispatched_job_cancelled_if_agent_idle job_id);;
      modify_wr (add_task (CancelSettlement job_id));;
      mret (cancel_answer job_id "CANCEL_REQUESTED")
  end.

Definition handle_job_cancel (params : Value) : W Value :=
  job_id ← w_of_result (required_str params "job_id");
  job ← existing_job 171 job_id;
  if job.(j_status) == "QUEUED" then
    stm 172 (mark_queued_job_cancelled job_id);;
    mret (cancel_answer job_id "CANCELLED")
  else if job.(j_status) == "DISPATCHED" then cancel_dispatched job job_id
  else if terminal_status job.(j_status) then mret (cancel_answer job_id job.(j_status))
  else w_throw (IpcInvalidRequest ("job " +:+ job_id +:+ " is in unknown status " +:+ job.(j_status))).

(** The task behind [CancelSettlement], for as many looks as fit in its time. *)
Fixpoint cancel_settlement (polls : nat) (job_id : string) : W unit :=
  match polls with
  | O => mret tt
  | S polls =>
      r ← w_try (stm 173 (mark_dispatched_job_cancelled_if_agent_idle job_id));
      match r with
      | Ok changes => if bool_decide (0 < changes)%nat then mret tt else cancel_settlement polls job_id
      | Err _ => mret tt
      end
  end.

(** ** Evidence *)

(** [evidence_id]: a fresh identifier. *)
Definition handle_evidence_insert (evidence_id : string) (params : Value) : W Value :=
  agent_id ← w_of_result (required_str params "agent_id");
  job_id ← w_of_result (required_str params "job_id");
  evidence_type ← w_of_result (required_str params "evidence_type");
  subject_path ← w_of_result (required_str params "subject_path");
  let payload := default (JObject []) (value_get "payload" params) in
  recorded ← stm 174 (insert_evidence_record_sync evidence_id agent_id (Some job_id) evidence_type
                        (Some subject_path) payload);
  mret (json_object [("evidence_id", JString recorded); ("recorded", JBool true)]).

Definition handle_job_has_evidence (params : Value) : W Value :=
  job_id ← w_of_result (required_str params "job_id");
  evidence_type ← w_of_result (required_str params "evidence_type");
  subject_path ← w_of_result (required_str params "subject_path");
  has ← stm 175 (has_job_evidence_for_path_sync job_id evidence_type subject_path);
  mret (json_object [("has_evidence", JBool has)]).

Definition handle_job_mark_requires_evidence (params : Value) : W Value :=
  job_id ← w_of_result (required_str params "job_id");
  job ← existing_job 176 job_id;
  stm 177 (set_job_evidence_requirements job_id true job.(j_requires_test_evidence));;
  mret (json_object [("job_id", JString job_id); ("requires_physical_evidence", JBool true);
    ("requires_test_evidence", JBool job.(j_requires_test_evidence))]).

Definition handle_agent_assert_state (params : Value) : W Value :=
  agent_id ← w_of_result (required_str params "agent_id");
  state ← w_of_result (required_str params "state");
  evidence_id ← w_of_result (required_str params "evidence_id");
  if state != "IDLE" then w_throw (IpcInvalidRequest "assert_state only accepts state=IDLE")
  else
  stm 178 (assert_state_to_idle agent_id evidence_id);;
  mret (json_object [("state", JString "IDLE"); ("sub_state", JString "Asserted")]).

Definition handle_agent_discard_evidence (params : Value) : W Value :=
  evidence_id ← w_of_result (required_str params "evidence_id");
  stm 179 (discard_evidence_sync evidence_id);;
  mret (json_object [("status", JString "DISCARDED")]).

End JobRequests.
