(* ===== verification/MasterReaper.v ===== *)
(** * Replacing a master ([src/src/monitor/master_reaper.rs])

    The steps by which a dead master's replacement is started, watched and, when
    the revival fails, killed again.  They run in a task of the daemon: before
    each statement on the database and each call to the host the other tasks may
    have changed both. *)
From S2P Require Import Prelude Json Schema Sql MasterTables JobGate Invariant MasterSound AgentGate Text ReplyText.
From S2P Require Import Shell Providers Sessions Cutovers MasterRecovery MasterRevival Jobs Completion StateMachine.
From S2P Require Import Agents LogReader Recovery Lifecycle Startup PromptCases PromptRunner Tmux SessionWatch.
From S2P Require Import Gateway SessionHandlers Spawn Tasks AgentSpawn.
From Stdlib Require Import Ascii.

(** [Path::new(s)] of an absolute path *)
Definition abs_path (s : string) : Path := "/" :: filter (λ c, c ∉ [""; "."]) (split_on "/" s).

(** [Path::file_name] *)
Definition file_name (s : string) : option string :=
  name ← last (filter (λ c, c ∉ [""; "."]) (split_on "/" s));
  if name == ".." then None else Some name.

Definition master_command_uses_claude (master_cmd : string) : bool :=
  match head (split_whitespace master_cmd) ≫= file_name with
  | Some name => (name == "claude") || starts_with name "claude-"
  | None => false
  end.

Definition MASTER_REVIVE_CONTINUE_INSTRUCTION : string := "继续".

(** [inject_master_identity] of [src/src/process_identity.rs] *)
Definition inject_master_identity (session_id : string) (env : gmap string string) :
    gmap string string :=
  delete "AH_AGENT_ID" (<["AH_SESSION_ID" := session_id]> (<["AH_ROLE" := "master"]> env)).

Definition master_revival_redispatch_marker_path (state_dir session_id : string)
    (revived_generation : Z) : string :=
  path_join (path_join (path_join state_dir "master-revival") session_id)
    ("redispatch-generation-" +:+ i64_to_string revived_generation +:+ ".json").

(** ** Readiness checks *)

Inductive ReviveMasterReadinessCheck : Type :=
| AckCheck (log_root : Path) (c : LogCursorMap)
| ProbeCheck.

Definition mode_name (k : ReviveMasterReadinessCheck) : string :=
  match k with AckCheck _ _ => "ack" | ProbeCheck => "probe" end.
Definition ready_reason (k : ReviveMasterReadinessCheck) : string :=
  match k with AckCheck _ _ => "ack-assistant-progress" | ProbeCheck => "probe-ready" end.
Definition timeout_reason (k : ReviveMasterReadinessCheck) : string :=
  match k with AckCheck _ _ => "ack-timeout" | ProbeCheck => "probe-timeout" end.
Definition deadline_exhausted_reason (k : ReviveMasterReadinessCheck) : string :=
  match k with AckCheck _ _ => "ack-deadline-exhausted" | ProbeCheck => "probe-deadline-exhausted" end.

Inductive FailedReviveMasterReapTarget : Type :=
| RuntimeGeneration (master_pid generation : Z) (pane : string)
| ClaimedGeneration (generation : Z)
| SpawnedOrphanAfterFinalizeStale (master_pid generation : Z) (pane : string).

Record SpawnedRevivedMaster : Type := MkSpawnedRevivedMaster {
  sm_pane : string;
  sm_new_pid : Z;
  sm_sandbox_home : Path
}.

Section Reaper.
Context {EXT : Externals} {GX : GatewayExternals} {SPEC : SpawnSpecSerde} {SERDE : SpawnParamsSerde}.
Context {RX : RegexCaptures}.
Context {T : Type} {TX : TmuxExec T}.
Variable cx : WatchCtx.
Variable others : nat → WatchRuntime T → World → WatchRuntime T * World.

#[local] Existing Instances W_ret W_bind.
#[local] Notation W := (W (T := T)).
#[local] Notation stm := (stm others).
#[local] Notation tmux := (tmux others).
#[local] Notation pause := (pause others).

(** ** Killing a replacement *)

Definition sigkill_failed_revive_master_process (session_id : string) (master_pid generation : Z) :
    W unit :=
  let key := master_monitor_key session_id generation in
  registered ← monitor_contains key;
  rt ← get_wr;
  if (registered : bool) then
    modify_wr (add_signal (SignalHandle key));;
    match rt.(wr_host).(mh_sigkill_handle) key with Some e => w_throw e | None => mret tt end
  else if negb (fits_i32 master_pid) then
    w_throw (PtyIoError ("invalid failed revived master pid: " +:+ i64_to_string master_pid))
  else
    modify_wr (add_signal (SignalPid master_pid));;
    match rt.(wr_host).(mh_sigkill_pid) master_pid with
    | Some err => w_throw (PtyIoError ("kill(" +:+ i64_to_string master_pid +:+
                             ", SIGKILL) failed: " +:+ err))
    | None => mret tt
    end.

Definition reap_failed_revive_master_process_and_watch_best_effort (session_id : string)
    (master_pid generation : Z) : W unit :=
  w_try (sigkill_failed_revive_master_process session_id master_pid generation);;
  remove_master_monitor_key_if_generation_matches session_id generation;;
  mret tt.

Definition reap_failed_revive_master_runtime (session_id : string) (master_pid generation : Z)
    (pane : string) (fence_runtime_generation : bool) : W unit :=
  fenced ← (if fence_runtime_generation
            then w_try (stm 1 (master_runtime_generation_matches session_id master_pid generation))
            else mret (Ok true));
  match fenced with
  | Ok true =>
      reap_failed_revive_master_process_and_watch_best_effort session_id master_pid generation;;
      w_try (tmux 2 (kill_pane_if_owned_sync cx.(mx_server) pane master_pid));;
      mret tt
  | _ => mret tt
  end.

Definition query_session_master_runtime_for_generation (session_id : string) (generation : Z) :
    M CcbdError (option (Z * option string)) :=
  gets (λ db, (λ s, (s.(s_master_pid), s.(s_master_pane_id))) <$>
              session_where (λ s, s.(s_master_generation) =? generation) session_id db).

Definition reap_claimed_revive_master_after_error_best_effort (session_id : string)
    (claimed_generation : Z) : W unit :=
  runtime ← w_try (stm 3 (query_session_master_runtime_for_generation session_id claimed_generation));
  match runtime with
  | Err _ | Ok None => mret tt
  | Ok (Some (master_pid, pane_id)) =>
      match (match pane_id with Some p => pane_id_of p | None => Err TmuxNotFound end) with
      | Err _ =>
          reap_failed_revive_master_process_and_watch_best_effort session_id master_pid
            claimed_generation
      | Ok pane =>
          reap_failed_revive_master_runtime session_id master_pid claimed_generation pane true
      end
  end.

Definition reap_failed_revive_master (session_id : string) (target : FailedReviveMasterReapTarget) :
    W unit :=
  match target with
  | RuntimeGeneration master_pid generation pane =>
      reap_failed_revive_master_runtime session_id master_pid generation pane true
  | ClaimedGeneration generation =>
      reap_claimed_revive_master_after_error_best_effort session_id generation
  | SpawnedOrphanAfterFinalizeStale master_pid generation pane =>
      reap_failed_revive_master_runtime session_id master_pid generation pane false
  end.

(** ** Starting a replacement *)

Definition master_sandbox_home (session_id absolute_path : string) : Result Path CcbdError :=
  if cx.(mx_env_state).(unsafe_no_sandbox) then Ok (abs_path absolute_path)
  else cx.(mx_sandbox_home) session_id.

(** The environment of a replacement, before its sandbox's. *)
Definition revived_master_env (session_id : string) (redispatch_marker_path : option string) :
    gmap string string :=
  let env := inject_master_identity session_id {["AH_STATE_DIR" := cx.(mx_state_dir)]} in
  let env := <["AH_MASTER_ROLE" := "managed"]>
               (<["CCB_SOCKET" := path_join cx.(mx_state_dir) "ahd.sock"]> env) in
  match redispatch_marker_path with
  | Some marker_path => <["AH_REDISPATCH_MARKER" := marker_path]> env
  | None => env
  end.

(** The sandbox's part: the home and, for Claude, the shared credentials. *)
Definition revived_sandbox_env (home : Path) (master_cwd master_cmd : string) (env : gmap string string) :
    Result (gmap string string) CcbdError :=
  if cx.(mx_env_state).(unsafe_no_sandbox) then Ok env
  else
  let env := <["CLAUDE_CONFIG_DIR" := path_display (home ++ [".claude"])]>
               (<["HOME" := path_display home]> env) in
  if negb (master_command_uses_claude master_cmd) then Ok env
  else match cx.(mx_shared_credentials) master_cwd with
  | Err e => Err e
  | Ok None => Err (EnvironmentNotSupported
      "providers.claude.shared_credentials_dir is required for Claude master revive")
  | Ok (Some dir) =>
      match cx.(mx_valid_credentials) dir with
      | Err e => Err e
      | Ok dir => Ok (<["CLAUDE_SECURESTORAGE_CONFIG_DIR" := dir]> env)
      end
  end.

Definition build_master_revive_command (project_id master_cmd : string) (env : gmap string string) :
    list string :=
  master_command_with_env project_id master_cmd cx.(mx_env_state) cx.(mx_daemon_unit) env no_overrides
    cx.(mx_bridge).

Definition spawn_replacement_master_pane (session_id master_cmd : string)
    (redispatch_marker_path : option string) : W SpawnedRevivedMaster :=
  session ← stm 4 (query_session_by_id_sync session_id);
  match session with
  | None => w_throw (IpcInvalidRequest ("session not found: " +:+ session_id))
  | Some session =>
      let master_cwd := session.(sv_absolute_path) in
      let master_session := master_session_name session.(sv_project_id) in
      home ← w_of_result (master_sandbox_home session_id master_cwd);
      env ← w_of_result (revived_sandbox_env home master_cwd master_cmd
                           (revived_master_env session_id redispatch_marker_path));
      let tmux_cmd := build_master_revive_command session.(sv_project_id) master_cmd env in
      tmux 5 (ensure_session_sync cx.(mx_server) master_session master_cwd);;
      pane ← tmux 6 (spawn_window_sync cx.(mx_server) master_session
                       (sanitize_tmux_name session.(sv_project_id)) master_cwd tmux_cmd);
      w_try (tmux 7 (set_pane_title_sync cx.(mx_server) pane
        ("master (" +:+ default master_cmd (head (split_whitespace master_cmd)) +:+ ")")));;
      new_pid ← tmux 8 (get_pane_pid_sync cx.(mx_server) pane);
      mret (MkSpawnedRevivedMaster pane new_pid home)
  end.

Definition prepare_revive_master_readiness_check (master_cmd : string) (home : Path) :
    W ReviveMasterReadinessCheck :=
  if negb (master_command_uses_claude master_cmd) then mret ProbeCheck
  else
  let log_root := home ++ [".claude"; "projects"] in
  rt ← get_wr;
  match collect_provider_log_cursors "claude" log_root (rt.(wr_host).(mh_tree) log_root) with
  | Err err => w_throw (PtyIoError ("collect Claude revive readiness transcript cursors: " +:+ err))
  | Ok c => mret (AckCheck log_root c)
  end.

Definition register_revived_master_watch_and_prepare_readiness (session_id : string)
    (new_pid generation : Z) (master_cmd : string) (home : Path) (monitor_key : string) :
    W ReviveMasterReadinessCheck :=
  pause 9;;
  opened ← pidfd_open new_pid;
  w_of_result opened;;
  try_clone "failed to clone revived master pidfd: ";;
  monitor_register monitor_key;;
  readiness_check ← prepare_revive_master_readiness_check master_cmd home;
  modify_wr (add_task (MasterPidfdWatch session_id new_pid generation master_cmd));;
  mret readiness_check.

Definition inject_master_continue_instruction_best_effort (pane : string) : W unit :=
  w_try (tmux 10 (send_keys_literal_sync cx.(mx_server) pane MASTER_REVIVE_CONTINUE_INSTRUCTION);;
         tmux 11 (send_keys_keysym_sync cx.(mx_server) pane "Enter"));;
  mret tt.

Definition write_master_revival_redispatch_marker (session_id : string)
    (expected_pid observed_generation revived_generation : Z) (worker_ids_to_reap : list string) :
    W (Result string string) :=
  let marker_path :=
    master_revival_redispatch_marker_path cx.(mx_state_dir) session_id revived_generation in
  let body := json_to_string (json_object [
    ("session_id", JString session_id); ("expected_pid", JNumber expected_pid);
    ("observed_generation", JNumber observed_generation);
    ("revived_generation", JNumber revived_generation);
    ("worker_ids_to_reap", JArray (JString <$> worker_ids_to_reap));
    ("redispatch_required", JBool true); ("continue_required", JBool true);
    ("continue_instruction", JString MASTER_REVIVE_CONTINUE_INSTRUCTION);
    ("hint", JString "Master was revived after master death; workers were reaped; inspect ah ps/logs and re-dispatch missing work.")]) in
  rt ← get_wr;
  match rt.(wr_host).(mh_write) marker_path with
  | Some err => mret (Err err)
  | None => modify_wr (add_file marker_path body);; mret (Ok marker_path)
  end.

Definition spawn_master_confirm_timer (session_id : string) (expected_pid expected_generation : Z) :
    W unit :=
  modify_wr (add_task (MasterConfirmTimer session_id expected_pid expected_generation)).

(** ** The workers *)

Definition revive_reprovision_one_worker (session_id : string) (spec : AgentSpawnSpec)
    (credentials : option string) (expected_hash : string)
    (captured_intent : option AgentRecoveryIntent) : W unit :=
  spawn_realign_agent cx others session_id spec credentials expected_hash false true ∅ captured_intent.

Fixpoint collect_master_revive_recovery_intents_before_reprovision (agent_ids : list string) :
    M CcbdError (list AgentRecoveryIntent) :=
  match agent_ids with
  | [] => mret []
  | agent_id :: rest =>
      intent ← query_agent_recovery_intent_sync agent_id;
      intents ← collect_master_revive_recovery_intents_before_reprovision rest;
      mret (match intent with Some i => i :: intents | None => intents end)
  end.

Definition restore_killed_worker_spawn_spec (session_id : string) (stored : StoredAgentSpawnSpec) :
    M CcbdError unit :=
  row ← query_agent_sync stored.(st_spec).(ss_agent_id);
  when (bool_decide (row = None))
    (insert_agent_sync stored.(st_spec).(ss_agent_id) session_id stored.(st_spec).(ss_provider)
       "KILLED" None);;
  persist_agent_spawn_spec_sync stored.(st_spec) stored.(st_config_hash).

Fixpoint reprovision_workers (session_id : string) (shared : option string)
    (captured : list AgentRecoveryIntent) (stored_specs : list StoredAgentSpawnSpec) : W unit :=
  match stored_specs with
  | [] => mret tt
  | stored :: rest =>
      let spec := stored.(st_spec) in
      let credentials := if spec.(ss_provider) == "claude" then shared else None in
      let intent := List.find (λ i, i.(in_agent_id) == spec.(ss_agent_id)) captured in
      pause 12;;
      r ← w_try (revive_reprovision_one_worker session_id spec credentials stored.(st_config_hash) intent);
      (match r with
       | Ok _ => mret tt
       | Err _ => w_try (stm 13 (restore_killed_worker_spawn_spec session_id stored));; mret tt
       end);;
      reprovision_workers session_id shared captured rest
  end.

Definition reprovision_declared_workers_after_master_revive (session_id : string) :
    W (list AgentRecoveryIntent) :=
  stored_specs ← stm 14 (query_agent_spawn_specs_for_session_sync session_id);
  match stored_specs with
  | [] => mret []
  | _ =>
      session ← stm 15 (query_session_by_id_sync session_id);
      match session with
      | None => w_throw (IpcInvalidRequest ("session not found: " +:+ session_id))
      | Some session =>
          shared ← (if existsb (λ s, s.(st_spec).(ss_provider) == "claude") stored_specs
                    then w_of_result (cx.(mx_shared_credentials) session.(sv_absolute_path))
                    else mret None);
          captured ← stm 16 (collect_master_revive_recovery_intents_before_reprovision
                               ((λ s, s.(st_spec).(ss_agent_id)) <$> stored_specs));
          reprovision_workers session_id shared captured stored_specs;;
          mret captured
      end
  end.

End Reaper.
