(* ===== verification/MasterWatch.v ===== *)
(** * Watching masters ([src/src/monitor/master_watch.rs])

    What happens when a master's process ends: the death is classified, the
    session's workers are cleaned up within a recovery window, a replacement is
    claimed, started and verified, its workers are brought back, and the window
    is closed; and who notices a death: the watch of a pidfd, the startup and a
    patrol.  The lock of a session's spawns is not modelled: the other tasks run
    at every step, so what is shown does not depend on it. *)
From S2P Require Import Prelude Json Schema Sql MasterTables JobGate Invariant MasterSound AgentGate Text ReplyText.
From S2P Require Import Shell Providers Sessions Cutovers MasterRecovery MasterRevival Jobs Completion StateMachine.
From S2P Require Import Agents LogReader Recovery Lifecycle Startup PromptCases PromptRunner Tmux SessionWatch.
From S2P Require Import Gateway SessionHandlers Spawn Tasks AgentSpawn MasterReaper.

Inductive MasterDeathSource : Type := Pidfd | StartupRearmDead | Patrol.

Record ActiveMasterWatchRow : Type := MkActiveMasterWatchRow {
  aw_session_id : string;
  aw_master_pid : Z;
  aw_master_generation : Z;
  aw_master_pane_id : option string;
  aw_absolute_path : string;
  aw_master_cmd : option string
}.

(** [ReviveMasterReadinessProbeState] *)
Record ProbeState : Type := MkProbeState {
  pb_last_capture : option string;
  pb_steady_captures : nat
}.
Definition probe_start : ProbeState := MkProbeState None 0.

Definition observe_capture (capture : string) (p : ProbeState) : bool * ProbeState :=
  if trim capture == "" then (false, probe_start)
  else
  let p := if p.(pb_last_capture) == Some capture
           then MkProbeState p.(pb_last_capture) (S p.(pb_steady_captures))
           else MkProbeState (Some capture) 1 in
  (bool_decide (3 ≤ p.(pb_steady_captures))%nat, p).

Section MasterWatch.
Context {EXT : Externals} {GX : GatewayExternals} {SPEC : SpawnSpecSerde} {SERDE : SpawnParamsSerde}.
Context {RX : RegexCaptures}.
Context {T : Type} {TX : TmuxExec T}.
Variable cx : WatchCtx.
Variable others : nat → WatchRuntime T → World → WatchRuntime T * World.

#[local] Existing Instances W_ret W_bind.
#[local] Notation W := (W (T := T)).
#[local] Notation stm := (stm others).
#[local] Notation tmux := (tmux others).
#[local] Notation pause := (pause others).

Definition active_watch_row (db : Db) (s : Session) : option ActiveMasterWatchRow :=
  (λ p, MkActiveMasterWatchRow s.(s_id) s.(s_master_pid) s.(s_master_generation) s.(s_master_pane_id)
          p.(p_absolute_path) s.(s_master_cmd)) <$> db.(projects) !! s.(s_project_id).

Definition query_active_master_watch_rows : M CcbdError (list ActiveMasterWatchRow) :=
  gets (λ db, omap (active_watch_row db) (order_by session_created_le
    (filter (λ s, s.(s_status) = "ACTIVE" ∧ 0 < s.(s_master_pid)) (table_rows db.(sessions))))).

Definition resolve_master_cmd_for_watch (row : ActiveMasterWatchRow) : string :=
  match row.(aw_master_cmd) with
  | Some cmd => if trim cmd == "" then cx.(mx_project_cmd) row.(aw_absolute_path) else cmd
  | None => cx.(mx_project_cmd) row.(aw_absolute_path)
  end.

Definition readiness_timeout_secs : Z :=
  resolve_master_revive_readiness_timeout_secs cx.(mx_readiness_env).

(** Moving the window of a generation, now. *)
Definition mark_phase (point : nat) (session_id : string) (expected_generation : Z) (phase : string) :
    W bool :=
  now ← clock;
  stm point (mark_master_recovery_phase cx.(mx_defer_env) session_id expected_generation phase now).

(** ** Waiting for a replacement *)

Definition fail_readiness_then_cascade_and_reap (session_id : string)
    (window_expected_generation : Z) (window_failure_reason cascade_reason : string)
    (expected_pid runtime_expected_generation : Z) (pane : string) : W unit :=
  now ← clock;
  stm 20 (fail_master_recovery_readiness_sync session_id window_expected_generation
            window_failure_reason now);;
  rt ← get_wr;
  stm 21 (cascade_kill_session_agents_with_runner_sync rt.(wr_host).(mh_host) session_id cascade_reason
            cx.(mx_daemon_marker) rt.(wr_host).(mh_runner));;
  reap_failed_revive_master cx others session_id
    (RuntimeGeneration expected_pid runtime_expected_generation pane).

(** One look at the transcript: [Some] ends the wait. *)
Definition ack_poll (session_id : string) (expected_pid expected_generation : Z) (log_root : Path)
    (c : LogCursorMap) : W (option bool) :=
  matches ← stm 22 (master_runtime_matches session_id expected_pid expected_generation);
  alive ← master_is_alive expected_pid;
  if negb matches || negb alive then mret (Some false)
  else
  rt ← get_wr;
  match read_provider_assistant_progress_after_cursors "claude" log_root
          (rt.(wr_host).(mh_tree) log_root) c with
  | Err err => w_throw (PtyIoError ("read Claude revive readiness transcript: " +:+ err))
  | Ok true => mret (Some true)
  | Ok false => mret None
  end.

Fixpoint revive_master_readiness_ack (polls : nat) (session_id : string)
    (expected_pid expected_generation : Z) (log_root : Path) (c : LogCursorMap) : W bool :=
  r ← ack_poll session_id expected_pid expected_generation log_root c;
  match r, polls with
  | Some ready, _ => mret ready
  | None, O => mret false
  | None, S polls => revive_master_readiness_ack polls session_id expected_pid expected_generation
                       log_root c
  end.

Definition probe_poll (session_id : string) (expected_pid expected_generation : Z) (pane : string)
    (p : ProbeState) : W (option bool * ProbeState) :=
  matches ← stm 23 (master_runtime_matches session_id expected_pid expected_generation);
  alive ← master_is_alive expected_pid;
  if negb matches || negb alive then mret (Some false, p)
  else
  pid ← w_try (tmux 24 (get_pane_pid_sync cx.(mx_server) pane));
  match pid with
  | Ok pid =>
      if negb (pid =? expected_pid) then mret (Some false, p)
      else
      capture ← w_try (tmux 25 (capture_pane_sync cx.(mx_server) pane));
      match capture with
      | Ok capture =>
          let '(steady, p) := observe_capture capture p in
          mret (if (steady : bool) then (Some true, p) else (None, p))
      | Err _ => mret (None, p)
      end
  | Err _ => mret (Some false, p)
  end.

Fixpoint revive_master_readiness_probe (polls : nat) (session_id : string)
    (expected_pid expected_generation : Z) (pane : string) (p : ProbeState) : W bool :=
  r ← probe_poll session_id expected_pid expected_generation pane p;
  match r, polls with
  | (Some ready, _), _ => mret ready
  | (None, _), O => mret false
  | (None, p), S polls => revive_master_readiness_probe polls session_id expected_pid
                            expected_generation pane p
  end.

Definition revive_master_readiness_ready (check : ReviveMasterReadinessCheck) (session_id : string)
    (expected_pid expected_generation : Z) (pane : string) : W bool :=
  match check with
  | AckCheck log_root c =>
      revive_master_readiness_ack cx.(mx_patience) session_id expected_pid expected_generation log_root c
  | ProbeCheck =>
      revive_master_readiness_probe cx.(mx_patience) session_id expected_pid expected_generation pane
        probe_start
  end.

Fixpoint wait_for_recovered_workers_ready (polls : nat) (agent_ids : list string) : W bool :=
  match agent_ids with
  | [] => mret true
  | _ =>
      ready ← stm 26 (recovered_workers_ready_sync agent_ids);
      match (ready : bool), polls with
      | true, _ => mret true
      | false, O => mret false
      | false, S polls => wait_for_recovered_workers_ready polls agent_ids
      end
  end.

Definition recovered_worker_gate_ready (session_id : string) (recovered_worker_ids : list string) :
    W bool :=
  now ← clock;
  timeout ← stm 27 (master_recovery_effective_readiness_timeout session_id now readiness_timeout_secs);
  if Z.min (default 0 timeout) 30 <=? 0 then mret false
  else wait_for_recovered_workers_ready cx.(mx_patience) recovered_worker_ids.

Definition resume_master_recovery_readiness (session_id : string)
    (expected_pid runtime_expected_generation window_expected_generation : Z) (pane : string)
    (begin_readiness_token : option string) (readiness_check : ReviveMasterReadinessCheck) : W unit :=
  let fail reason cascade_reason :=
    fail_readiness_then_cascade_and_reap session_id window_expected_generation reason cascade_reason
      expected_pid runtime_expected_generation pane in
  (match begin_readiness_token with
   | Some readiness_token =>
       now ← clock;
       stm 28 (begin_master_recovery_readiness_wait_sync session_id window_expected_generation
                 (mode_name readiness_check) readiness_token now);;
       mret tt
   | None => mret tt
   end);;
  now ← clock;
  timeout ← stm 29 (master_recovery_effective_readiness_timeout session_id now readiness_timeout_secs);
  if match timeout with Some timeout => timeout <=? 0 | None => true end then
    fail (deadline_exhausted_reason readiness_check) "MASTER_REVIVE_READINESS_TIMEOUT"
  else
  ready ← revive_master_readiness_ready readiness_check session_id expected_pid
            runtime_expected_generation pane;
  if negb ready then fail (timeout_reason readiness_check) "MASTER_REVIVE_READINESS_TIMEOUT"
  else
  now ← clock;
  stm 30 (mark_master_recovery_ready_sync session_id window_expected_generation
            (ready_reason readiness_check) now);;
  mark_phase 31 session_id window_expected_generation "WORKERS_REPROVISIONING";;
  captured ← reprovision_declared_workers_after_master_revive cx others session_id;
  gate ← recovered_worker_gate_ready session_id (in_agent_id <$> captured);
  if negb gate then
    fail "worker-readiness-timeout" "MASTER_REVIVE_WORKER_READINESS_TIMEOUT"
  else
  now ← clock;
  stm 32 (complete_master_recovery_window_sync session_id window_expected_generation now);;
  mret tt.

(** ** Reviving *)

Definition clean_workers_after_master_death (session_id : string) (worker_ids_to_reap : list string)
    (classification : MasterDeathSessionActivity) : W unit :=
  rt ← get_wr;
  let daemon_marker :=
    if cx.(mx_env_state).(systemd_run_available) then Some cx.(mx_server).(ts_socket_name) else None in
  stm 33 (clean_worker_runtime_resources_with_runner_sync rt.(wr_host).(mh_host)
    rt.(wr_host).(mh_registries) session_id worker_ids_to_reap "MASTER_EXIT" daemon_marker
    (match classification with ActiveWork => true | IdleNoWork => false end)
    rt.(wr_host).(mh_runner));;
  mret tt.

Definition close_idle_master_death_without_revive (session_id : string) (expected_generation : Z) :
    W unit :=
  stm 34 (mark_session_closed_after_idle_master_death session_id);;
  mark_phase 35 session_id expected_generation "FAILED";;
  mret tt.

(** Between the two statements the task sleeps until the next retry. *)
Definition wait_for_master_revive_retry_backoff (session_id : string)
    (expected_pid expected_generation : Z) : W bool :=
  now ← clock;
  next_retry_at ← stm 36 (query_master_revive_next_retry_at session_id expected_pid expected_generation);
  match next_retry_at with
  | Some next_retry_at =>
      if now <? next_retry_at then
        decision ← stm 37 (classify_master_death session_id expected_pid expected_generation);
        match decision with
        | ReviveMaster => mret true
        | _ => mark_phase 38 session_id expected_generation "FAILED";; mret false
        end
      else mret true
  | None => mret true
  end.

Definition claim_master_revive_generation (session_id : string)
    (expected_pid expected_generation : Z) : W (option Z) :=
  outcome ← stm 39 (try_claim_master_transition session_id expected_pid expected_generation);
  match outcome with
  | Claimed => mret (Some (expected_generation + 1))
  | _ => mark_phase 40 session_id expected_generation "FAILED";; mret None
  end.

Definition record_master_revive_spawn_attempt (session_id : string)
    (expected_pid expected_generation claimed_generation : Z) : W bool :=
  now ← clock;
  decision ← stm 41 (record_master_revive_attempt session_id expected_pid claimed_generation now);
  match decision with
  | Spawn _ _ => mark_phase 42 session_id expected_generation "MASTER_SPAWNING";; mret true
  | Fused => mark_phase 43 session_id expected_generation "FUSED";; mret false
  | AttemptStale => mark_phase 44 session_id expected_generation "FAILED";; mret false
  end.

Definition write_redispatch_marker_for_master_revive (session_id : string)
    (expected_pid expected_generation claimed_generation : Z) (worker_ids_to_reap : list string) :
    W (option string) :=
  r ← write_master_revival_redispatch_marker cx session_id expected_pid expected_generation
        claimed_generation worker_ids_to_reap;
  mret (match r with Ok marker_path => Some marker_path | Err _ => None end).

(** The replacement is there: it is recorded, watched, told to go on, verified. *)
Definition finish_revival (session_id : string) (expected_generation claimed_generation : Z)
    (master_cmd : string) (spawned : SpawnedRevivedMaster) : W unit :=
  outcome ← stm 45 (complete_claimed_master_transition session_id claimed_generation
                      spawned.(sm_new_pid) spawned.(sm_pane));
  match outcome with
  | None =>
      reap_failed_revive_master cx others session_id
        (SpawnedOrphanAfterFinalizeStale spawned.(sm_new_pid) claimed_generation spawned.(sm_pane));;
      mark_phase 46 session_id expected_generation "FAILED";;
      mret tt
  | Some outcome =>
      mark_phase 47 session_id expected_generation "MASTER_RUNNING";;
      stm 48 (persist_revived_master_cmd session_id master_cmd);;
      readiness_check ← register_revived_master_watch_and_prepare_readiness others session_id
        spawned.(sm_new_pid) outcome.(ro_generation) master_cmd spawned.(sm_sandbox_home)
        outcome.(ro_monitor_key);
      inject_master_continue_instruction_best_effort cx others spawned.(sm_pane);;
      resume_master_recovery_readiness session_id spawned.(sm_new_pid) outcome.(ro_generation)
        expected_generation spawned.(sm_pane)
        (Some (session_id +:+ ":" +:+ i64_to_string outcome.(ro_generation))) readiness_check;;
      spawn_master_confirm_timer session_id spawned.(sm_new_pid) outcome.(ro_generation)
  end.

Definition start_replacement (session_id : string) (expected_pid expected_generation : Z)
    (master_cmd : string) (worker_ids_to_reap : list string) : W unit :=
  claimed ← claim_master_revive_generation session_id expected_pid expected_generation;
  match claimed with
  | None => mret tt
  | Some claimed_generation =>
      go_on ← record_master_revive_spawn_attempt session_id expected_pid expected_generation
                claimed_generation;
      if negb go_on then mret tt
      else
      marker ← write_redispatch_marker_for_master_revive session_id expected_pid expected_generation
                 claimed_generation worker_ids_to_reap;
      spawned ← spawn_replacement_master_pane cx others session_id master_cmd marker;
      finish_revival session_id expected_generation claimed_generation master_cmd spawned
  end.

Definition revive_master_after_exit_windowed (session_id : string)
    (expected_pid expected_generation : Z) (master_cmd : string) : W unit :=
  snapshot ← stm 49 (snapshot_master_death_session_activity session_id);
  now ← clock;
  stm 50 (begin_master_recovery_window_for_snapshot cx.(mx_defer_env) session_id expected_pid
            expected_generation snapshot.(sn_classification) now);;
  clean_workers_after_master_death session_id snapshot.(sn_worker_ids_to_reap)
    snapshot.(sn_classification);;
  match snapshot.(sn_classification) with
  | IdleNoWork => close_idle_master_death_without_revive session_id expected_generation
  | ActiveWork =>
      mark_phase 51 session_id expected_generation "WORKERS_REAPED";;
      go_on ← wait_for_master_revive_retry_backoff session_id expected_pid expected_generation;
      if negb go_on then mret tt
      else start_replacement session_id expected_pid expected_generation master_cmd
             snapshot.(sn_worker_ids_to_reap)
  end.

Definition revive_master_after_exit_locked (session_id : string)
    (expected_pid expected_generation : Z) (master_cmd : string) : W unit :=
  result ← w_try (revive_master_after_exit_windowed session_id expected_pid expected_generation
                    master_cmd);
  match result with
  | Err err =>
      w_try (mark_phase 52 session_id expected_generation "FAILED");;
      reap_failed_revive_master cx others session_id (ClaimedGeneration (expected_generation + 1));;
      w_throw err
  | Ok _ => mret tt
  end.

Definition handle_master_death_detected (session_id : string)
    (expected_pid expected_generation : Z) (master_cmd : string) : W unit :=
  decision ← stm 53 (classify_master_death session_id expected_pid expected_generation);
  match decision with
  | ReviveMaster =>
      revive_master_after_exit_locked session_id expected_pid expected_generation master_cmd
  | _ =>
      now ← clock;
      stm 54 (mark_master_recovery_non_revive_terminal cx.(mx_defer_env) session_id
                expected_generation now);;
      mret tt
  end.

(** The task behind [MasterPidfdWatch], once the process has ended. *)
Definition master_process_exited (session_id : string) (expected_pid expected_generation : Z)
    (master_cmd : string) : W unit :=
  w_try (handle_master_death_detected session_id expected_pid expected_generation master_cmd);;
  remove_master_monitor_key_if_generation_matches session_id expected_generation;;
  mret tt.

(** ** Noticing a death *)

Definition stored_master_pane_still_matches (row : ActiveMasterWatchRow) : W bool :=
  match row.(aw_master_pane_id) with
  | None => mret false
  | Some pane_id =>
      match pane_id_of pane_id with
      | Err _ => mret false
      | Ok pane =>
          pid ← w_try (tmux 55 (get_pane_pid_sync cx.(mx_server) pane));
          mret (match pid with Ok pid => pid =? row.(aw_master_pid) | Err _ => false end)
      end
  end.

Definition route_death (row : ActiveMasterWatchRow) (master_cmd : string) : W bool :=
  handle_master_death_detected row.(aw_session_id) row.(aw_master_pid) row.(aw_master_generation)
    master_cmd;;
  mret true.

(** A verification that was under way when the daemon stopped goes on. *)
Definition resume_verification (row : ActiveMasterWatchRow) (master_cmd : string) : W unit :=
  verifying ← stm 56 (master_recovery_verifying_window_expected_generation row.(aw_session_id));
  match verifying, row.(aw_master_pane_id) with
  | Some window_expected_generation, Some pane_id =>
      match pane_id_of pane_id with
      | Err _ => mret tt
      | Ok pane =>
          home ← w_of_result (master_sandbox_home cx row.(aw_session_id) row.(aw_absolute_path));
          readiness_check ← prepare_revive_master_readiness_check master_cmd home;
          resume_master_recovery_readiness row.(aw_session_id) row.(aw_master_pid)
            row.(aw_master_generation) window_expected_generation pane None readiness_check
      end
  | _, _ => mret tt
  end.

Definition arm_or_route_master_watch (row : ActiveMasterWatchRow) : W bool :=
  if row.(aw_master_pid) <=? 0 then mret false
  else
  let key := master_monitor_key row.(aw_session_id) row.(aw_master_generation) in
  watched ← monitor_contains key;
  if (watched : bool) then mret false
  else
  let master_cmd := resolve_master_cmd_for_watch row in
  if negb (fits_i32 row.(aw_master_pid)) then
    w_throw (PtyIoError ("invalid master pid: " +:+ i64_to_string row.(aw_master_pid)))
  else
  opened ← pidfd_open row.(aw_master_pid);
  match opened with
  | Err (AgentUnexpectedExit _) => route_death row master_cmd
  | Err _ => mret false
  | Ok _ =>
      matches ← stored_master_pane_still_matches row;
      if negb matches then route_death row master_cmd
      else
      try_clone "clone master pidfd for watcher: ";;
      monitor_register key;;
      modify_wr (add_task (MasterPidfdWatch row.(aw_session_id) row.(aw_master_pid)
                             row.(aw_master_generation) master_cmd));;
      resume_verification row master_cmd;;
      mret true
  end.

Fixpoint rearm_masters (rows : list ActiveMasterWatchRow) (armed : nat) : W nat :=
  match rows with
  | [] => mret armed
  | row :: rest =>
      r ← arm_or_route_master_watch row;
      rearm_masters rest (armed + Nat.b2n r)
  end.
Definition rearm_active_master_watches_on_startup : W nat :=
  rows ← stm 57 query_active_master_watch_rows;
  rearm_masters rows 0.

(** One master of a patrol, and whether a death was found. *)
Definition patrol_master (row : ActiveMasterWatchRow) : W bool :=
  let key := master_monitor_key row.(aw_session_id) row.(aw_master_generation) in
  pause 58;;
  watched ← monitor_contains key;
  routed ← (if (watched : bool) then mret false else arm_or_route_master_watch row);
  if (routed : bool) then
    watched ← monitor_contains key; mret (negb watched)
  else
  alive ← master_is_alive row.(aw_master_pid);
  if (alive : bool) then mret false
  else route_death row (resolve_master_cmd_for_watch row).

Fixpoint patrol_masters (rows : list ActiveMasterWatchRow) (detected : nat) : W nat :=
  match rows with
  | [] => mret detected
  | row :: rest =>
      r ← patrol_master row;
      patrol_masters rest (detected + Nat.b2n r)
  end.
Definition patrol_active_masters_once : W nat :=
  rows ← stm 59 query_active_master_watch_rows;
  patrol_masters rows 0.

End MasterWatch.
