(* ===== verification/OutboxProofs.v ===== *)
(** * The outbox delivers each record exactly once and loses none

    Consuming a record, journalling it, and scanning a directory. *)
From S2P Require Import Prelude Json Schema Sql MasterTables JobGate Invariant AgentGate Text Outbox.
From Stdlib Require Import Ascii.

(** ** Soundness of the consume boundary *)

Section ConsumeSound.
Context {EXT : Externals}.

Lemma sound_outbox_tables db x y z :
  sound db (set_outbox_consumed x (set_outbox_job_declarations y (set_outbox_apply_failures z db))).
Proof.
  split; [split; simpl; reflexivity|]. intros [Hwf Haud].
  split; [|by eapply audit_ok_proper]. by destruct Hwf; split.
Qed.

Lemma sound_insert_consumed {E} event_id kind :
  respects sound (insert_consumed event_id kind : M E nat).
Proof.
  intros w. unfold insert_consumed. destruct (_ !! _); [reflexivity|]. simpl.
  apply (sound_outbox_tables w.(w_db) _ _ _).
Qed.

Lemma sound_insert_declaration event_id row : respects sound (insert_declaration_row event_id row).
Proof.
  intros w. unfold insert_declaration_row. destruct (_ !! _); [reflexivity|]. simpl.
  apply (sound_outbox_tables w.(w_db) _ _ _).
Qed.
#[local] Hint Resolve sound_insert_consumed sound_insert_declaration : respects.

Lemma sound_consume_record record : respects sound (consume_record record).
Proof.
  unfold consume_record, apply_hook_event, apply_job_declaration_stub. solve_respects.
Qed.

End ConsumeSound.
#[export] Hint Resolve sound_consume_record : respects.

(** ** What consuming a record does *)

Section ConsumeContract.
Context {EXT : Externals}.

(** A declaration with no job can never be applied. *)
Definition malformed (r : OutboxRecord) : bool :=
  match r.(or_kind) with JobDone | JobFail => r.(or_job_id) == None | _ => false end.

(** The effect of a record can be applied in these tables. *)
Definition applicable (r : OutboxRecord) (db : Db) : Prop :=
  match r.(or_kind) with
  | HookEvent => is_Some (db.(agents) !! r.(or_agent_id))
  | JobDone | JobFail => is_Some r.(or_job_id) ∧ db.(outbox_job_declarations) !! r.(or_event_id) = None
  | Selfcheck => True
  end.
#[global] Instance applicable_dec r db : Decision (applicable r db).
Proof. unfold applicable. destruct r.(or_kind); apply _. Defined.

Definition hook_row (r : OutboxRecord) (now seq : Z) : Event :=
  MkEvent seq r.(or_agent_id) None "hook_event" (json_to_string (hook_event_payload r)) now.

Definition declaration_row (r : OutboxRecord) (job_id : string) (now : Z) : JobDeclaration :=
  MkJobDeclaration job_id (kind_as_str r.(or_kind)) r.(or_attempt_cookie) r.(or_reply_text)
    r.(or_reason) now.

(** The tables after the effect of a record. *)
Definition effect_db (r : OutboxRecord) (now : Z) (db : Db) : Db :=
  match r.(or_kind) with
  | HookEvent =>
      set_event_seq (db.(event_seq) + 1)
        (set_events (db.(events) ++ [hook_row r now (db.(event_seq) + 1)]) db)
  | JobDone | JobFail =>
      match r.(or_job_id) with
      | Some job_id =>
          set_outbox_job_declarations
            (<[r.(or_event_id) := declaration_row r job_id now]> db.(outbox_job_declarations)) db
      | None => db
      end
  | Selfcheck => db
  end.

Definition consumed_db (r : OutboxRecord) (now : Z) (db : Db) : Db :=
  effect_db r now
    (set_outbox_consumed (<[r.(or_event_id) := kind_as_str r.(or_kind)]> db.(outbox_consumed)) db).

Lemma set_db_same w w' :
  w'.(w_now) = w.(w_now) → w'.(w_out) = w.(w_out) → w'.(w_log_monitors) = w.(w_log_monitors) →
  w'.(w_pending_tasks) = w.(w_pending_tasks) → set_db w.(w_db) w' = w.
Proof. destruct w, w'; simpl. by intros -> -> -> ->. Qed.

Lemma consume_malformed r w :
  malformed r = true → ∃ msg, consume_record r w = (Err (CeMalformed msg), w).
Proof.
  intros Hm. unfold consume_record, malformed in *.
  destruct r.(or_kind); try done; rw Hm; by eexists.
Qed.

Lemma consume_guard r :
  match r.(or_kind) with JobDone | JobFail => true | _ => false end && (r.(or_job_id) == None) =
  malformed r.
Proof. unfold malformed. by destruct r.(or_kind). Qed.

Lemma consume_duplicate r w :
  malformed r = false → is_Some (w.(w_db).(outbox_consumed) !! r.(or_event_id)) →
  consume_record r w = (Ok Duplicate, w).
Proof.
  intros Hm [k Hk]. unfold consume_record. rw consume_guard Hm.
  unfold transaction, insert_consumed, mbind, M_bind. rw Hk /=. by rw set_db_same.
Qed.

(** A record that is not in the ledger: the ledger row, then the effect. *)
Lemma consume_new r w :
  malformed r = false → w.(w_db).(outbox_consumed) !! r.(or_event_id) = None →
  let ledger := <[r.(or_event_id) := kind_as_str r.(or_kind)]> w.(w_db).(outbox_consumed) in
  consume_record r w =
    match (match r.(or_kind) with
           | HookEvent => apply_hook_event r
           | JobDone | JobFail => apply_job_declaration_stub r
           | Selfcheck => mret tt
           end) (set_db (set_outbox_consumed ledger w.(w_db)) w) with
    | (Ok _, w') => (Ok FirstSeen, w')
    | (Err e, w') => (Err e, set_db w.(w_db) w')
    end.
Proof.
  intros Hm Hn ledger. unfold consume_record. rw consume_guard Hm.
  unfold transaction, insert_consumed, mbind, M_bind. rw Hn /=.
  destruct r.(or_kind); [destruct (apply_hook_event _ _) as [[?|?] ?]|..|done]; try done.
  all: by destruct (apply_job_declaration_stub _ _) as [[?|?] ?].
Qed.

Lemma applicable_not_malformed r db : applicable r db → malformed r = false.
Proof.
  unfold applicable, malformed. destruct r.(or_kind); try done; intros [[j ->] _]; done.
Qed.

Lemma consume_first r w :
  w.(w_db).(outbox_consumed) !! r.(or_event_id) = None → applicable r w.(w_db) →
  consume_record r w = (Ok FirstSeen, set_db (consumed_db r w.(w_now) w.(w_db)) w).
Proof.
  intros Hn Happ. rw (consume_new _ _ (applicable_not_malformed _ _ Happ) Hn).
  unfold applicable, consumed_db, effect_db, apply_hook_event, apply_job_declaration_stub,
    insert_declaration_row, insert_event_row, map_err, mbind, M_bind in *.
  destruct r.(or_kind) eqn:Hkind; simpl in *.
  - destruct Happ as [a ->]. done.
  - destruct Happ as [[j Hj] Hd]. by rw Hj /= Hd /declaration_row Hkind.
  - destruct Happ as [[j Hj] Hd]. by rw Hj /= Hd /declaration_row Hkind.
  - done.
Qed.

Lemma consume_rejected r w :
  malformed r = false → w.(w_db).(outbox_consumed) !! r.(or_event_id) = None →
  ¬ applicable r w.(w_db) → ∃ err, consume_record r w = (Err (CeDb err), w).
Proof.
  intros Hm Hn Hna. rw (consume_new _ _ Hm Hn).
  unfold applicable, malformed, apply_hook_event, apply_job_declaration_stub,
    insert_declaration_row, insert_event_row, map_err, mbind, M_bind in *.
  destruct r.(or_kind) eqn:Hkind; simpl in *; [| | |by destruct Hna].
  - apply eq_None_not_Some in Hna. rw Hna /=. eexists. by rw set_db_same.
  - destruct r.(or_job_id) as [j|] eqn:Hj; [|done].
    simpl. destruct (w.(w_db).(outbox_job_declarations) !! r.(or_event_id)) eqn:Hd;
      [|by destruct Hna; eauto]. eexists. by rw /= set_db_same.
  - destruct r.(or_job_id) as [j|] eqn:Hj; [|done].
    simpl. destruct (w.(w_db).(outbox_job_declarations) !! r.(or_event_id)) eqn:Hd;
      [|by destruct Hna; eauto]. eexists. by rw /= set_db_same.
Qed.

End ConsumeContract.

(** ** Delivery: at least once in, exactly once applied *)

Section Delivery.
Context {EXT : Externals}.

(** A sequence of deliveries, in any order and with any repetitions. *)
Fixpoint deliver (rs : list OutboxRecord) (w : World) : World :=
  match rs with
  | [] => w
  | r :: rs' => deliver rs' (consume_record r w).2
  end.

(** Every declaration sits under an event the ledger knows. *)
Definition ledger_covers (db : Db) : Prop :=
  ∀ id, is_Some (db.(outbox_job_declarations) !! id) → is_Some (db.(outbox_consumed) !! id).

(** The part of an event that comes from the record. *)
Definition event_key (e : Event) : string * string * string :=
  (e.(e_agent_id), e.(e_event_type), e.(e_payload)).

Definition hook_keys (rs : list OutboxRecord) : list (string * string * string) :=
  (λ r, event_key (hook_row r 0 0)) <$> filter (λ r, r.(or_kind) = HookEvent) rs.

(** What does not depend on earlier deliveries. *)
Definition deliverable (db : Db) (r : OutboxRecord) : Prop :=
  match r.(or_kind) with
  | HookEvent => is_Some (db.(agents) !! r.(or_agent_id))
  | JobDone | JobFail => is_Some r.(or_job_id)
  | Selfcheck => True
  end.
#[global] Instance deliverable_dec db r : Decision (deliverable db r).
Proof. unfold deliverable. destruct r.(or_kind); apply _. Defined.

Lemma deliverable_applicable db r :
  ledger_covers db → db.(outbox_consumed) !! r.(or_event_id) = None →
  applicable r db ↔ deliverable db r.
Proof.
  intros Hcov Hn. unfold applicable, deliverable.
  assert (db.(outbox_job_declarations) !! r.(or_event_id) = None).
  { apply eq_None_not_Some. intros Hd%Hcov. rw Hn in Hd. by destruct Hd. }
  by destruct r.(or_kind); intuition.
Qed.

(** One delivery: accepted, or without effect. *)
Lemma deliver_one r w :
  ledger_covers w.(w_db) →
  let accepted := w.(w_db).(outbox_consumed) !! r.(or_event_id) = None ∧ deliverable w.(w_db) r in
  (accepted ∧ consume_record r w = (Ok FirstSeen, set_db (consumed_db r w.(w_now) w.(w_db)) w)) ∨
  (¬ accepted ∧ (consume_record r w).2 = w).
Proof.
  intros Hcov accepted.
  destruct (malformed r) eqn:Hm.
  { right. destruct (consume_malformed r w Hm) as [msg ->]. split; [|done].
    intros [_ Hd]. unfold malformed, deliverable in *.
    destruct r.(or_kind); try done; apply bool_decide_eq_true in Hm; rw Hm in Hd; by destruct Hd. }
  destruct (w.(w_db).(outbox_consumed) !! r.(or_event_id)) as [k|] eqn:Hk.
  { right. rw (consume_duplicate r w Hm); [by rw Hk|]. split; [|done]. by intros [? _]. }
  destruct (decide (deliverable w.(w_db) r)) as [Hd|Hd].
  - left. split; [done|]. apply consume_first; [done|]. by apply deliverable_applicable.
  - right. destruct (consume_rejected r w Hm Hk) as [err ->]; [|split; [by intros []|done]].
    by rw deliverable_applicable.
Qed.

Lemma consumed_db_ledger r now db :
  (consumed_db r now db).(outbox_consumed) =
    <[r.(or_event_id) := kind_as_str r.(or_kind)]> db.(outbox_consumed).
Proof. unfold consumed_db, effect_db. by destruct r.(or_kind), r.(or_job_id). Qed.

Lemma consumed_db_agents r now db : (consumed_db r now db).(agents) = db.(agents).
Proof. unfold consumed_db, effect_db. by destruct r.(or_kind), r.(or_job_id). Qed.

Lemma consumed_db_covers r now db : ledger_covers db → ledger_covers (consumed_db r now db).
Proof.
  intros Hcov id. rw consumed_db_ledger lookup_insert_is_Some'.
  unfold consumed_db, effect_db.
  destruct r.(or_kind), r.(or_job_id); simpl; rw ?lookup_insert_is_Some'; intuition.
Qed.

Lemma consumed_db_events r now db :
  event_key <$> (consumed_db r now db).(events) = (event_key <$> db.(events)) ++ hook_keys [r].
Proof.
  unfold consumed_db, effect_db, hook_keys.
  destruct r.(or_kind) eqn:Hk; [by rw filter_cons_True //= fmap_app| | |].
  all: rw filter_cons_False; [by rw Hk|]; rw /= app_nil_r; by destruct r.(or_job_id).
Qed.

Lemma hook_keys_cons r rs : hook_keys (r :: rs) = hook_keys [r] ++ hook_keys rs.
Proof. unfold hook_keys. by rw (filter_app _ [r] rs) fmap_app. Qed.

(** The records accepted so far, applied one after the other. *)
Definition applied (now : Z) (rs : list OutboxRecord) (db : Db) : Db :=
  foldl (λ db r, consumed_db r now db) db rs.

Definition is_declaration (r : OutboxRecord) : Prop := r.(or_kind) = JobDone ∨ r.(or_kind) = JobFail.
#[global] Instance is_declaration_dec r : Decision (is_declaration r).
Proof. unfold is_declaration. apply _. Defined.

Lemma consumed_db_declared r now db job_id :
  is_declaration r → r.(or_job_id) = Some job_id →
  (consumed_db r now db).(outbox_job_declarations) =
    <[r.(or_event_id) := declaration_row r job_id now]> db.(outbox_job_declarations).
Proof. unfold consumed_db, effect_db. by intros [-> | ->] ->. Qed.
Lemma consumed_db_undeclared r now db id :
  r.(or_event_id) ≠ id ∨ ¬ is_declaration r →
  (consumed_db r now db).(outbox_job_declarations) !! id = db.(outbox_job_declarations) !! id.
Proof.
  unfold consumed_db, effect_db, is_declaration. intros Hn.
  destruct (or_kind r), (or_job_id r); cbn; try done.
  all: destruct Hn as [Hn|Hn]; [by rw lookup_insert_ne|by destruct Hn; auto].
Qed.
Lemma applied_undeclared now rs db id :
  (∀ r, r ∈ rs → r.(or_event_id) ≠ id ∨ ¬ is_declaration r) →
  (applied now rs db).(outbox_job_declarations) !! id = db.(outbox_job_declarations) !! id.
Proof.
  revert db. induction rs as [|r rs IH]; intros db Hn; [done|]. cbn. fold (applied now rs (consumed_db r now db)).
  rw IH; [|apply consumed_db_undeclared, Hn; left]. intros x Hx. apply Hn. by right.
Qed.
Lemma applied_declared now rs db r job_id :
  NoDup (or_event_id <$> rs) → r ∈ rs → is_declaration r → r.(or_job_id) = Some job_id →
  (applied now rs db).(outbox_job_declarations) !! r.(or_event_id) = Some (declaration_row r job_id now).
Proof.
  revert db. induction rs as [|x rs IH]; intros db Hnd Hin Hd Hj; [by apply elem_of_nil in Hin|].
  rw fmap_cons in Hnd. apply NoDup_cons in Hnd as [Hfresh Hnd]. cbn. fold (applied now rs (consumed_db x now db)).
  apply elem_of_cons in Hin as [->|Hin]; [|by apply IH].
  rw applied_undeclared; [|by rw (consumed_db_declared _ _ _ _ Hd Hj) lookup_insert_eq].
  intros y Hy. left. intros Heq. apply Hfresh. rw -Heq. apply list_elem_of_fmap. by exists y.
Qed.

(** The deliveries, by the records that were accepted. *)
Lemma deliver_applied rs w :
  ledger_covers w.(w_db) →
  ∃ accepted, accepted `sublist_of` rs ∧ NoDup (or_event_id <$> accepted) ∧
    (deliver rs w).(w_db) = applied w.(w_now) accepted w.(w_db) ∧
    (∀ id, is_Some ((deliver rs w).(w_db).(outbox_consumed) !! id) ↔
           is_Some (w.(w_db).(outbox_consumed) !! id) ∨ id ∈ or_event_id <$> accepted) ∧
    (∀ r, r ∈ accepted → w.(w_db).(outbox_consumed) !! r.(or_event_id) = None) ∧
    (∀ r, r ∈ accepted → deliverable w.(w_db) r) ∧
    (∀ r, r ∈ rs → deliverable w.(w_db) r → is_Some ((deliver rs w).(w_db).(outbox_consumed) !! r.(or_event_id))).
Proof.
  revert w. induction rs as [|r rs IH]; intros w Hcov.
  { exists []. simpl. split_and!; try done; [constructor|..].
    - intros id. rw elem_of_nil; tauto.
    - by intros r ?%elem_of_nil.
    - by intros r ?%elem_of_nil.
    - by intros r ?%elem_of_nil. }
  simpl. destruct (deliver_one r w Hcov) as [[[Hn Hd] Hrun]|[Hno ->]]; cycle 1.
  - destruct (IH w Hcov) as (acc & Hsub & Hnd & Hdb & Hled & Hfresh & Hok & Hall). exists acc.
    split; [by apply sublist_cons|]. split_and!; try done.
    intros r' [->|Hin]%elem_of_cons Hdel; [|by apply Hall]. apply Hled. left.
    destruct (w.(w_db).(outbox_consumed) !! r.(or_event_id)) eqn:Hk; [done|by destruct Hno].
  - rw Hrun. cbn [snd]. set (w1 := set_db _ w).
    destruct (IH w1) as (acc & Hsub & Hnd & Hdb & Hled & Hfresh & Hok & Hall).
    { by apply consumed_db_covers. }
    simpl in *. rw consumed_db_ledger in Hled. rw consumed_db_ledger in Hfresh.
    assert (Hnew : ∀ x, x ∈ acc → x.(or_event_id) ≠ r.(or_event_id)).
    { intros x Hx Heq. specialize (Hfresh x Hx). by rw Heq lookup_insert_eq in Hfresh. }
    exists (r :: acc). split_and!; [by apply sublist_skip| |by rw Hdb|..].
    + rw fmap_cons. apply NoDup_cons. split; [|done].
      intros (x & Heq & Hx)%list_elem_of_fmap. by apply (Hnew x Hx).
    + intros id. rw Hled lookup_insert_is_Some' fmap_cons elem_of_cons. intuition.
    + intros x [->|Hx]%elem_of_cons; [done|]. specialize (Hfresh x Hx).
      rw lookup_insert_ne in Hfresh; [by apply not_eq_sym, Hnew|done].
    + intros x [->|Hx]%elem_of_cons; [done|]. specialize (Hok x Hx).
      unfold deliverable in *. by rw consumed_db_agents in Hok.
    + intros x [->|Hx]%elem_of_cons Hdel.
      * apply Hled. left. rw lookup_insert_eq. by eexists.
      * apply Hall; [done|]. unfold deliverable in *. by rw consumed_db_agents.
Qed.
Lemma applied_events now rs db :
  event_key <$> (applied now rs db).(events) = (event_key <$> db.(events)) ++ hook_keys rs.
Proof.
  revert db. induction rs as [|r rs IH]; intros db; [unfold hook_keys; by rw app_nil_r|].
  change (applied now (r :: rs) db) with (applied now rs (consumed_db r now db)). rw IH consumed_db_events (hook_keys_cons r rs). by rw app_assoc.
Qed.

(** C17: delivery to the outbox is at least once, its effect exactly once.
    However records are repeated and interleaved, there is a subsequence of
    accepted deliveries, one per event id and none for an id already in the
    ledger, such that the database is the one in which exactly these were applied
    in order: the ledger grows by exactly their ids, the events appended are those
    of the accepted hook records, each accepted declaration of a job has its row
    with the job, kind, cookie, reply and reason of the record, and no other
    declaration changes.  Every record that can be delivered at all is in the
    ledger at the end. *)
Theorem outbox_exactly_once rs w :
  ledger_covers w.(w_db) →
  let db := w.(w_db) in
  let db' := (deliver rs w).(w_db) in
  ∃ accepted, accepted `sublist_of` rs ∧ NoDup (or_event_id <$> accepted) ∧
    db' = applied w.(w_now) accepted db ∧
    (∀ id, is_Some (db'.(outbox_consumed) !! id) ↔
           is_Some (db.(outbox_consumed) !! id) ∨ id ∈ or_event_id <$> accepted) ∧
    (∀ r, r ∈ accepted → db.(outbox_consumed) !! r.(or_event_id) = None) ∧
    event_key <$> db'.(events) = (event_key <$> db.(events)) ++ hook_keys accepted ∧
    (∀ r, r ∈ accepted → is_declaration r → ∃ job_id, r.(or_job_id) = Some job_id ∧
       db'.(outbox_job_declarations) !! r.(or_event_id) =
         Some (MkJobDeclaration job_id (kind_as_str r.(or_kind)) r.(or_attempt_cookie) r.(or_reply_text)
                 r.(or_reason) w.(w_now))) ∧
    (∀ id, (∀ r, r ∈ accepted → is_declaration r → r.(or_event_id) ≠ id) →
       db'.(outbox_job_declarations) !! id = db.(outbox_job_declarations) !! id) ∧
    (∀ r, r ∈ rs → deliverable db r → is_Some (db'.(outbox_consumed) !! r.(or_event_id))).
Proof.
  intros Hcov db db'. destruct (deliver_applied rs w Hcov) as (acc & Hsub & Hnd & Hdb & Hled & Hfresh & Hok & Hall).
  exists acc. subst db'. split_and!; try done; rw Hdb.
  - apply applied_events.
  - intros r Hr Hd. assert (is_Some r.(or_job_id)) as [job_id Hj].
    { specialize (Hok r Hr). revert Hok. unfold deliverable. by destruct Hd as [-> | ->]. }
    exists job_id. split; [done|]. by apply applied_declared.
  - intros id Hn. apply applied_undeclared. intros r Hr.
    destruct (decide (is_declaration r)) as [Hd|Hd]; [left; by apply Hn|by right].
Qed.

End Delivery.

(** ** Scanning a directory *)

Section ScanContract.
Context {EXT : Externals} {OUT : OutboxSerde} (fs : ScanFs).

(** A file of the directory as it was is still there, or was moved to [dead/]
    with its content, or held a record that is in the ledger. *)
Definition kept (d : OutboxDir) (db : Db) (name bytes : string) : Prop :=
  d.(od_files) !! name = Some bytes ∨ d.(od_dead) !! name = Some bytes ∨
  ∃ r, record_from_str bytes = Some r ∧ is_Some (db.(outbox_consumed) !! r.(or_event_id)).

Record scan_inv (orig : gmap string string) (d : OutboxDir) (db : Db) : Prop := {
  si_files : d.(od_files) ⊆ orig;
  si_kept name bytes : orig !! name = Some bytes → kept d db name bytes
}.

Definition ledger_grows (db db' : Db) : Prop :=
  ∀ id, is_Some (db.(outbox_consumed) !! id) → is_Some (db'.(outbox_consumed) !! id).

Lemma scan_inv_ledger orig d db db' :
  ledger_grows db db' → scan_inv orig d db → scan_inv orig d db'.
Proof.
  intros Hg [Hf Hk]. split; [done|]. intros name bytes Hn.
  destruct (Hk _ _ Hn) as [?|[?|(r & ? & ?)]]; [by left|by right; left|].
  right; right. exists r. split; [done|]. by apply Hg.
Qed.

Lemma scan_inv_quarantine orig d db name d' :
  quarantine fs name d = Some d' → scan_inv orig d db → scan_inv orig d' db.
Proof.
  unfold quarantine. destruct (fs.(quarantine_fails) name); [done|].
  destruct (d.(od_files) !! name) as [bytes|] eqn:Hb; [|done]. intros [= <-] [Hf Hk].
  split; [etrans; [apply delete_subseteq|done]|].
  intros n b Hn. unfold kept. simpl. destruct (decide (n = name)) as [->|Hne].
  - right; left. rw lookup_insert_eq. eapply lookup_weaken in Hb; [|exact Hf]. congruence.
  - rw lookup_delete_ne // lookup_insert_ne //. by apply Hk.
Qed.

Lemma scan_inv_reap orig d db name bytes r :
  orig !! name = Some bytes → record_from_str bytes = Some r →
  is_Some (db.(outbox_consumed) !! r.(or_event_id)) →
  scan_inv orig d db → scan_inv orig (reap fs name d) db.
Proof.
  intros Ho Hr Hl [Hf Hk]. unfold reap. destruct (fs.(reap_fails) name); [done|].
  split; [etrans; [apply delete_subseteq|done]|].
  intros n b Hn. unfold kept. simpl. destruct (decide (n = name)) as [->|Hne].
  - right; right. exists r. split; [congruence|done].
  - rw lookup_delete_ne //. by apply Hk.
Qed.

(** A parsed entry of the work list. *)
Definition parsed_from (orig : gmap string string) (x : string * OutboxRecord) : Prop :=
  ∃ bytes, orig !! x.1 = Some bytes ∧ record_from_str bytes = Some x.2.

Lemma ledger_grows_consume r w : ledger_grows w.(w_db) (consume_record r w).2.(w_db).
Proof.
  intros id Hid. destruct (malformed r) eqn:Hm.
  { by destruct (consume_malformed r w Hm) as [msg ->]. }
  destruct (w.(w_db).(outbox_consumed) !! r.(or_event_id)) as [k|] eqn:Hk.
  { by rw (consume_duplicate r w Hm); [by rw Hk|]. }
  destruct (decide (applicable r w.(w_db))) as [Ha|Ha].
  - rw consume_first //= consumed_db_ledger lookup_insert_is_Some'. by right.
  - by destruct (consume_rejected r w Hm Hk Ha) as [err ->].
Qed.

Lemma consume_ok_in_ledger r w o w' :
  consume_record r w = (Ok o, w') → is_Some (w'.(w_db).(outbox_consumed) !! r.(or_event_id)).
Proof.
  intros Hrun. destruct (malformed r) eqn:Hm.
  { destruct (consume_malformed r w Hm) as [msg Hc]. congruence. }
  destruct (w.(w_db).(outbox_consumed) !! r.(or_event_id)) as [k|] eqn:Hk.
  { rw (consume_duplicate r w Hm) in Hrun; [by rw Hk|]. injection Hrun as _ <-. by rw Hk. }
  destruct (decide (applicable r w.(w_db))) as [Ha|Ha].
  - rw consume_first // in Hrun. injection Hrun as _ <-.
    rw /= consumed_db_ledger lookup_insert_eq. by eexists.
  - destruct (consume_rejected r w Hm Hk Ha) as [err Hc]. congruence.
Qed.

Lemma replay_record_inv orig x d w :
  parsed_from orig x → scan_inv orig d w.(w_db) →
  let '(_, d', w') := replay_record fs x d w in
  scan_inv orig d' w'.(w_db) ∧ ledger_grows w.(w_db) w'.(w_db).
Proof.
  destruct x as [name r]. intros (bytes & Ho & Hp) Hinv. simpl in *.
  pose proof (ledger_grows_consume r w) as Hg.
  destruct (consume_record r w) as [[o|[err|msg]] w'] eqn:Hrun; simpl in Hg.
  - pose proof (consume_ok_in_ledger _ _ _ _ Hrun) as Hl.
    assert (Hinv' : scan_inv orig (reap fs name d) w'.(w_db)).
    { eapply scan_inv_reap; [done..|]. by eapply scan_inv_ledger. }
    destruct o; split; try done; by destruct Hinv'; split.
  - assert (Hinv' : scan_inv orig d w'.(w_db)) by (by eapply scan_inv_ledger).
    destruct (MAX_APPLY_ATTEMPTS <=? _); [|split; [by destruct Hinv'; split|done]].
    destruct (quarantine fs name d) as [d'|] eqn:Hq; [|split; [by destruct Hinv'; split|done]].
    eapply scan_inv_quarantine in Hinv'; [|exact Hq]. split; [by destruct Hinv'; split|done].
  - assert (Hinv' : scan_inv orig d w'.(w_db)) by (by eapply scan_inv_ledger).
    destruct (quarantine fs name d) as [d'|] eqn:Hq; [|done].
    split; [|done]. by eapply scan_inv_quarantine.
Qed.

Lemma replay_all_inv orig l report d w :
  Forall (parsed_from orig) l → scan_inv orig d w.(w_db) →
  let '(_, d', w') := replay_all fs l report d w in
  scan_inv orig d' w'.(w_db) ∧ ledger_grows w.(w_db) w'.(w_db).
Proof.
  revert report d w. induction l as [|x l IH]; intros report d w Hl Hinv; simpl;
    [by split; [|intros id]|].
  apply Forall_cons in Hl as [Hx Hl].
  pose proof (replay_record_inv orig x d w Hx Hinv) as Hstep.
  destruct (replay_record fs x d w) as [[[r|] d1] w1]; [|done]. destruct Hstep as [Hinv1 Hg1].
  specialize (IH (merge_report report r) d1 w1 Hl Hinv1).
  destruct (replay_all _ _ _ _ _) as [[? d2] w2]. destruct IH as [? Hg2].
  split; [done|]. intros id Hid. by apply Hg2, Hg1.
Qed.

Lemma scan_files_inv orig db files parsed report d :
  (∀ x, x ∈ files → orig !! x.1 = Some x.2) → Forall (parsed_from orig) parsed →
  scan_inv orig d db →
  let '(res, d') := scan_files fs files parsed report d in
  scan_inv orig d' db ∧
  match res with Ok (parsed', _) => Forall (parsed_from orig) parsed' | Err _ => True end.
Proof.
  revert parsed report d. induction files as [|[name bytes] files IH];
    intros parsed report d Hin Hp Hinv; simpl; [done|].
  assert (Hin' : ∀ x, x ∈ files → orig !! x.1 = Some x.2).
  { intros x Hx. by apply Hin, list_elem_of_further. }
  destruct (is_scannable_json name); [|by apply IH].
  destruct (if _ then _ else _) as [r|] eqn:Hr.
  - apply IH; [done| |done]. apply Forall_app_2; [done|]. apply Forall_singleton.
    exists bytes. split; [apply (Hin (name, bytes)), list_elem_of_here|].
    by destruct (fs.(read_fails) name).
  - destruct (quarantine fs name d) as [d'|] eqn:Hq; [|done].
    apply IH; [done..|]. by eapply scan_inv_quarantine.
Qed.

End ScanContract.

Section ScanProperties.
Context {EXT : Externals} {OUT : OutboxSerde} (fs : ScanFs).

(** C34: a scan loses no record.  Whatever calls fail on the way and however the
    scan ends, every file of the directory is afterwards still in place, or in
    [dead/] with the same content, or held a record whose event id is in the
    ledger; no file appears, and no ledger entry disappears. *)
Theorem scan_loses_nothing d w :
  listing_ok fs →
  let '(_, d', w') := cold_scan_dir fs d w in
  (∀ name bytes, d.(od_files) !! name = Some bytes → kept d' w'.(w_db) name bytes) ∧
  d'.(od_files) ⊆ d.(od_files) ∧ ledger_grows w.(w_db) w'.(w_db).
Proof.
  intros Hls. unfold cold_scan_dir.
  assert (Hinit : scan_inv d.(od_files) d w.(w_db)) by (split; [done|by left]).
  destruct fs.(read_dir_fails); [split; [apply Hinit|]; split; [done|by intros id]|].
  pose proof (scan_files_inv fs d.(od_files) w.(w_db) (fs.(read_dir) d.(od_files)) []
    empty_report d) as Hscan.
  destruct (scan_files _ _ _ _ _) as [[[parsed report]|e] d1].
  - destruct Hscan as [Hinv Hp]; [|done..|].
    { intros [n b]. rw (Hls d.(od_files)). apply elem_of_map_to_list. }
    pose proof (replay_all_inv fs d.(od_files) (order_by event_id_le parsed) report d1 w) as Hrep.
    destruct (replay_all _ _ _ _ _) as [[res d2] w2]. destruct Hrep as [[] ?]; [|done..].
    unfold order_by. by rw merge_sort_Permutation.
  - destruct Hscan as [[] _]; [|done..|split_and!; [done..|by intros id]].
    intros [n b]. rw (Hls d.(od_files)). apply elem_of_map_to_list.
Qed.

(** ** The report *)

Definition settled (r : ScanReport) : nat :=
  r.(sr_consumed) + r.(sr_duplicates) + r.(sr_quarantined) + r.(sr_retry_deferred).

Lemma scan_files_report files parsed report d parsed' report' d' :
  scan_files fs files parsed report d = (Ok (parsed', report'), d') →
  let n := length (filter (λ x : string * string, is_scannable_json x.1 = true) files) in
  report'.(sr_scanned) = (report.(sr_scanned) + n)%nat ∧
  (settled report' + length parsed' = settled report + length parsed + n)%nat.
Proof.
  revert parsed report d. induction files as [|[name bytes] files IH]; intros parsed report d; simpl.
  { intros [= <- <- _]. lia. }
  destruct (is_scannable_json name) eqn:Hs; cycle 1.
  { rw filter_cons_False; [by rw /= Hs|]. by apply IH. }
  rw filter_cons_True // length_cons.
  destruct (if _ then _ else _) as [r|].
  - intros [H1 H2]%IH. rw length_app /= in H2. unfold settled in *. simpl in *. lia.
  - destruct (quarantine fs name d) as [d1|]; [|done].
    intros [H1 H2]%IH. unfold settled in *. simpl in *. lia.
Qed.

Lemma replay_record_report x d w r d' w' :
  replay_record fs x d w = (Some r, d', w') → r.(sr_scanned) = 0%nat ∧ settled r = 1%nat.
Proof.
  destruct x as [name rec]. simpl.
  destruct (consume_record rec w) as [[[]|[]] w1]; try (by intros [= <- _ _]).
  - destruct (MAX_APPLY_ATTEMPTS <=? _); [|by intros [= <- _ _]].
    destruct (quarantine _ _ _); [|done]. by intros [= <- _ _].
  - destruct (quarantine _ _ _); [|done]. by intros [= <- _ _].
Qed.

Lemma replay_all_report l report d w report' d' w' :
  replay_all fs l report d w = (Ok report', d', w') →
  report'.(sr_scanned) = report.(sr_scanned) ∧
  settled report' = (settled report + length l)%nat.
Proof.
  revert report d w. induction l as [|x l IH]; intros report d w; simpl.
  { intros [= <- _ _]. lia. }
  destruct (replay_record fs x d w) as [[[r|] d1] w1] eqn:Hr; [|done].
  apply replay_record_report in Hr as [Hs Ht].
  intros [H1 H2]%IH. unfold settled in *. simpl in *. lia.
Qed.

(** The report of a scan that ends adds up.  It counts every [.json] file of
    the directory once, and each of them is consumed, a duplicate, quarantined
    or deferred. *)
Theorem scan_report_adds_up d w report d' w' :
  listing_ok fs → cold_scan_dir fs d w = (Ok report, d', w') →
  report.(sr_scanned) =
    length (filter (λ x : string * string, is_scannable_json x.1 = true) (map_to_list d.(od_files))) ∧
  report.(sr_scanned) = (report.(sr_consumed) + report.(sr_duplicates) +
                         report.(sr_quarantined) + report.(sr_retry_deferred))%nat.
Proof.
  intros Hls. unfold cold_scan_dir. destruct fs.(read_dir_fails); [done|].
  destruct (scan_files _ _ _ _ _) as [[[parsed r1]|e] d1] eqn:Hscan; [|done].
  apply scan_files_report in Hscan as [Hn Hset]. intros [Hn' Hset']%replay_all_report.
  unfold order_by in Hset'. rw merge_sort_Permutation in Hset'. rw (Hls d.(od_files)) in Hn Hset.
  unfold settled, empty_report in *. simpl in *. lia.
Qed.

End ScanProperties.

(** ** Journalling *)

Section JournalProperties.
Context {EXT : Externals} {OUT : OutboxSerde}.

Lemma list_ascii_app a b :
  String.list_ascii_of_string (a +:+ b) =
    String.list_ascii_of_string a ++ String.list_ascii_of_string b.
Proof. induction a as [|c a IH]; simpl; [done|]. by rw IH. Qed.

Lemma json_not_tmp id id' : record_json_filename id ≠ record_tmp_filename id'.
Proof.
  unfold record_json_filename, record_tmp_filename.
  intros Heq%(f_equal (λ s, last (String.list_ascii_of_string s))). simpl in Heq.
  rw !list_ascii_app !last_app /= in Heq. discriminate Heq.
Qed.

(** What journalling may change: the file [tmp], and [final] to [bytes]. *)
Definition journal_frame (final tmp bytes : string) (d d' : OutboxDir) : Prop :=
  (d'.(od_files) !! final = Some bytes ∨ d'.(od_files) !! final = d.(od_files) !! final) ∧
  (∀ name, name ≠ final → name ≠ tmp → d'.(od_files) !! name = d.(od_files) !! name) ∧
  d'.(od_dead) = d.(od_dead).

Lemma journal_frame_refl final tmp bytes d : journal_frame final tmp bytes d d.
Proof. by split; [right|]. Qed.

Lemma journal_frame_write final tmp bytes d d' x :
  final ≠ tmp → journal_frame final tmp bytes d d' →
  journal_frame final tmp bytes d (write_file tmp x d').
Proof.
  intros Hne (H1 & H2 & H3). split_and!; simpl; [by rw lookup_insert_ne| |done].
  intros n ??. rw lookup_insert_ne //. by apply H2.
Qed.

Lemma journal_frame_remove final tmp bytes d d' :
  final ≠ tmp → journal_frame final tmp bytes d d' →
  journal_frame final tmp bytes d (remove_file tmp d').
Proof.
  intros Hne (H1 & H2 & H3). split_and!; simpl; [by rw lookup_delete_ne| |done].
  intros n ??. rw lookup_delete_ne //. by apply H2.
Qed.

Lemma journal_frame_final final tmp bytes d d' :
  journal_frame final tmp bytes d d' →
  journal_frame final tmp bytes d (write_file final bytes d').
Proof.
  intros (H1 & H2 & H3). split_and!; simpl; [left; by rw lookup_insert_eq| |done].
  intros n ??. rw lookup_insert_ne //. by apply H2.
Qed.

Lemma journal_commit_frame fails partial final tmp bytes d :
  final ≠ tmp →
  journal_frame final tmp bytes d (journal_commit fails partial final tmp bytes d).2.
Proof.
  intros Hne. unfold journal_commit.
  repeat (destruct (fails _); simpl);
    auto using journal_frame_refl, journal_frame_write, journal_frame_remove, journal_frame_final.
Qed.

Lemma journal_commit_ok fails partial final tmp bytes d :
  final ≠ tmp →
  ((journal_commit fails partial final tmp bytes d).1 = true ↔
     ∀ s, s ∈ [CreateTmp; WriteAll; SyncFile; Rename; FsyncDir] → fails s = false) ∧
  ((journal_commit fails partial final tmp bytes d).1 = true →
     let d' := (journal_commit fails partial final tmp bytes d).2 in
     d'.(od_files) !! final = Some bytes ∧ d'.(od_files) !! tmp = None).
Proof.
  intros Hne. rw -Forall_forall !Forall_cons Forall_nil. unfold journal_commit.
  destruct (fails CreateTmp), (fails WriteAll), (fails SyncFile), (fails Rename), (fails FsyncDir);
    simpl; try (split; [intuition discriminate|discriminate]).
  split; [tauto|]. intros _.
  by rw lookup_insert_eq lookup_insert_ne // lookup_delete_eq.
Qed.

(** A record is under its [.json] name completely or not at all.  Whatever
    call fails, journalling leaves under the record's [.json] name either the
    whole record or what was there before, and every other file but the
    record's [.tmp] as it was; it answers [Ok] exactly when no call up to the
    directory [fsync] failed, and then the record is there and no [.tmp] is. *)
Theorem journal_all_or_nothing fails partial d r :
  let final := record_json_filename r.(or_event_id) in
  let tmp := record_tmp_filename r.(or_event_id) in
  let '(res, d') := journal_record fails partial d r in
  (d'.(od_files) !! final = Some (record_to_string r) ∨
   d'.(od_files) !! final = d.(od_files) !! final) ∧
  (∀ name, name ≠ final → name ≠ tmp → d'.(od_files) !! name = d.(od_files) !! name) ∧
  d'.(od_dead) = d.(od_dead) ∧
  (res = Ok final ↔ ∀ s, s ≠ RemoveTmp → fails s = false) ∧
  (res = Ok final ∨ res = Err tt) ∧
  (res = Ok final → d'.(od_files) !! final = Some (record_to_string r) ∧
                    d'.(od_files) !! tmp = None).
Proof.
  intros final tmp. pose proof (json_not_tmp r.(or_event_id) r.(or_event_id)) as Hne.
  fold final tmp in Hne. unfold journal_record. fold final tmp.
  destruct (fails CreateDirAll) eqn:H1.
  { split; [by right|]. split; [done|]. split; [done|]. split; [|by split; [right|]].
    split; [done|]. intros Hall. by rw Hall in H1. }
  pose proof (journal_commit_frame fails partial final tmp (record_to_string r) d Hne) as Hfr.
  destruct (journal_commit_ok fails partial final tmp (record_to_string r) d Hne) as [Hiff Hok].
  destruct (journal_commit _ _ _ _ _ _) as [[] d']; simpl in *.
  - destruct Hfr as (?&?&?). split; [done|]. split; [done|]. split; [done|].
    split; [|by split; [left|intros _; apply Hok]]. split; [intros _ s Hs|done].
    destruct s; try done; apply (proj1 Hiff eq_refl); rw !elem_of_cons; tauto.
  - assert (Hfr' : journal_frame final tmp (record_to_string r) d
      (if fails RemoveTmp then d' else remove_file tmp d')).
    { destruct (fails RemoveTmp); auto using journal_frame_remove. }
    destruct Hfr' as (?&?&?). split; [done|]. split; [done|]. split; [done|].
    split; [|by split; [right|]]. split; [done|]. intros Hall.
    discriminate (proj2 Hiff). intros s Hs. apply Hall. intros ->.
    rw !elem_of_cons elem_of_nil in Hs. intuition discriminate.
Qed.

(** The name a record is journalled under is one the scan reads. *)
Lemma chars_go_nonempty need acc s c :
  (need = 0%nat → acc = "") → c ∈ chars_go need acc s → c ≠ "".
Proof.
  revert need acc. induction s as [|b s IH]; intros need acc Hacc; simpl.
  - destruct acc; [by intros ?%elem_of_nil|]. by intros ->%list_elem_of_singleton.
  - destruct need as [|[|n]].
    + destruct (utf8_extra b) as [|n]; [|by apply IH].
      intros [->|Hin]%elem_of_cons; [done|]. by eapply IH in Hin.
    + intros [->|Hin]%elem_of_cons; [by destruct acc|]. by eapply IH in Hin.
    + by apply IH.
Qed.

Lemma sanitize_nonempty id : id ≠ "" → sanitize_path_component id ≠ "".
Proof.
  intros Hid. unfold sanitize_path_component.
  pose proof (concat_chars id) as Hc. pose proof (chars_go_nonempty 0 "" id) as Hne.
  fold (chars id) in Hne. destruct (chars id) as [|c l]; [by subst|].
  specialize (Hne c (λ _, eq_refl) (list_elem_of_here _ _)). simpl.
  unfold sanitize_char. destruct (_ || _); [done|]. by destruct c.
Qed.

Lemma json_name_scannable id : id ≠ "" → is_scannable_json (record_json_filename id) = true.
Proof.
  intros Hid%sanitize_nonempty. unfold is_scannable_json, record_json_filename, ends_with.
  rw str_length_app /=. set (s := sanitize_path_component id) in *.
  assert (0 < String.length s)%nat by (destruct s; simpl; [done|lia]).
  replace (String.length s + 5 - 5)%nat with (String.length s) by lia.
  rw str_drop_app !bool_decide_true //; lia.
Qed.

End JournalProperties.

(** ** From the journal to the ledger *)

Section EndToEnd.
Context {EXT : Externals} {OUT : OutboxSerde} (fs : ScanFs).

Definition no_faults : Prop :=
  fs.(read_dir_fails) = false ∧
  ∀ name, fs.(read_fails) name = false ∧ fs.(reap_fails) name = false ∧
          fs.(quarantine_fails) name = false.

(** What a replay keeps of the tables. *)
Definition replay_keeps (db db' : Db) : Prop :=
  db'.(agents) = db.(agents) ∧ (ledger_covers db → ledger_covers db') ∧ ledger_grows db db'.

#[global] Instance replay_keeps_trans : Transitive replay_keeps.
Proof.
  intros x y z (Ha & Hc & Hg) (Ha' & Hc' & Hg'). split; [congruence|].
  split; [by auto|]. intros id Hid. by apply Hg', Hg.
Qed.

Lemma consume_keeps r w :
  ledger_covers w.(w_db) → replay_keeps w.(w_db) (consume_record r w).2.(w_db).
Proof.
  intros Hcov. split; [|split; [intros _|apply ledger_grows_consume]].
  all: destruct (deliver_one r w Hcov) as [[_ ->]|[_ ->]]; try done.
  - apply consumed_db_agents.
  - by apply consumed_db_covers.
Qed.

Lemma quarantine_ok name d :
  no_faults → is_Some (d.(od_files) !! name) →
  ∃ d', quarantine fs name d = Some d' ∧ d'.(od_files) = delete name d.(od_files).
Proof.
  intros [_ Hf] [b Hb]. unfold quarantine. destruct (Hf name) as (_ & _ & ->).
  rw Hb. by eexists.
Qed.

Lemma replay_record_ok name r d w :
  no_faults → ledger_covers w.(w_db) → is_Some (d.(od_files) !! name) →
  ∃ rep d' w', replay_record fs (name, r) d w = (Some rep, d', w') ∧
    (∀ n, n ≠ name → d'.(od_files) !! n = d.(od_files) !! n) ∧
    replay_keeps w.(w_db) w'.(w_db) ∧
    (deliverable w.(w_db) r →
     d'.(od_files) !! name = None ∧ is_Some (w'.(w_db).(outbox_consumed) !! r.(or_event_id))).
Proof.
  intros Hnf Hcov Hin. destruct (proj2 Hnf name) as (_ & Hreap & _).
  pose proof (consume_keeps r w Hcov) as Hk. pose proof (deliver_one r w Hcov) as Hone.
  destruct (quarantine_ok name d Hnf Hin) as (dq & Hq & Hdq). simpl. unfold reap.
  destruct (consume_record r w) as [[o|[err|msg]] w'] eqn:Hrun; simpl in Hk; rw ?Hreap.
  - pose proof (consume_ok_in_ledger _ _ _ _ Hrun) as Hl.
    destruct o; eexists _, _, _; (split; [done|]); simpl; (split;
      [intros n ?; by rw lookup_delete_ne|split; [done|by rw lookup_delete_eq]]).
  - assert (Hnd : ¬ deliverable w.(w_db) r).
    { intros Hd. destruct Hone as [[_ ?]|[Hno _]]; [congruence|]. apply Hno. split; [|done].
      apply eq_None_not_Some. intros Hl. destruct (malformed r) eqn:Hm.
      - destruct (consume_malformed r w Hm) as [m Hm']. congruence.
      - rw consume_duplicate // in Hrun. }
    destruct (MAX_APPLY_ATTEMPTS <=? _); [rw Hq|]; eexists _, _, _; (split; [done|]); simpl;
      (split; [intros n ?; rw ?Hdq ?lookup_delete_ne //|by split]).
  - rw Hq. eexists _, _, _. split; [done|]. split; [intros n ?; by rw Hdq lookup_delete_ne|].
    split; [done|]. intros Hd. destruct (malformed r) eqn:Hm.
    { unfold malformed, deliverable in *. destruct r.(or_kind); try done;
        apply bool_decide_eq_true in Hm; rw Hm in Hd; by destruct Hd. }
    destruct (w.(w_db).(outbox_consumed) !! r.(or_event_id)) as [k|] eqn:Hk'.
    + rw (consume_duplicate r w Hm) in Hrun; [by rw Hk'|done].
    + rw consume_first // in Hrun. by apply deliverable_applicable.
Qed.

Lemma replay_all_ok l report d w :
  no_faults → ledger_covers w.(w_db) → NoDup l.*1 →
  (∀ x, x ∈ l → is_Some (d.(od_files) !! x.1)) →
  ∃ rep d' w', replay_all fs l report d w = (Ok rep, d', w') ∧
    (∀ n, n ∉ l.*1 → d'.(od_files) !! n = d.(od_files) !! n) ∧
    replay_keeps w.(w_db) w'.(w_db) ∧
    (∀ x, x ∈ l → deliverable w.(w_db) x.2 →
     d'.(od_files) !! x.1 = None ∧ is_Some (w'.(w_db).(outbox_consumed) !! x.2.(or_event_id))).
Proof.
  intros Hnf. revert report d w. induction l as [|[name r] l IH]; intros report d w Hcov Hnd Hin.
  { eexists _, _, _. split; [done|]. split; [done|]. split; [by split; [|split; [|intros id]]|].
    by intros x ?%elem_of_nil. }
  apply NoDup_cons in Hnd as [Hn Hnd].
  destruct (replay_record_ok name r d w Hnf Hcov (Hin (name, r) (list_elem_of_here _ _)))
    as (rep & d1 & w1 & Hrun & Hfr & Hk1 & Hdel1). cbn [replay_all]. rw Hrun.
  destruct (IH (merge_report report rep) d1 w1) as (rep2 & d2 & w2 & Hrun2 & Hfr2 & Hk2 & Hdel2);
    [by apply Hk1|done| |].
  { intros x Hx. rw Hfr; [|by apply Hin, list_elem_of_further].
    intros Heq. apply Hn, list_elem_of_fmap. by exists x. }
  exists rep2, d2, w2. split; [done|]. split; [|split; [by etrans|]].
  - intros n Hnot. apply not_elem_of_cons in Hnot as [??]. by rw Hfr2 // Hfr.
  - intros x [->|Hx]%elem_of_cons Hd.
    + destruct (Hdel1 Hd) as [Hf Hl]. split; [by rw Hfr2|]. by apply Hk2.
    + apply Hdel2; [done|]. unfold deliverable in *. by rw (proj1 Hk1).
Qed.

Lemma scan_files_ok files parsed report d :
  no_faults → NoDup ((parsed.*1) ++ (files.*1)) →
  (∀ x, x ∈ files → is_Some (d.(od_files) !! x.1)) →
  (∀ x, x ∈ parsed → is_Some (d.(od_files) !! x.1)) →
  ∃ parsed' rep d', scan_files fs files parsed report d = (Ok (parsed', rep), d') ∧
    NoDup parsed'.*1 ∧ (∀ x, x ∈ parsed' → is_Some (d'.(od_files) !! x.1)) ∧
    (∀ x, x ∈ parsed → x ∈ parsed') ∧
    (∀ name bytes r, (name, bytes) ∈ files → is_scannable_json name = true →
       record_from_str bytes = Some r → (name, r) ∈ parsed').
Proof.
  intros Hnf. revert parsed report d. induction files as [|[name bytes] files IH];
    intros parsed report d Hnd Hin Hpin.
  { rw /= app_nil_r in Hnd. eexists _, _, _. split; [done|]. split; [done|].
    split; [done|]. split; [done|]. by intros ??? ?%elem_of_nil. }
  assert (Hin' : ∀ x, x ∈ files → is_Some (d.(od_files) !! x.1)).
  { intros x Hx. by apply Hin, list_elem_of_further. }
  assert (Hnd' : NoDup ((parsed.*1) ++ (files.*1)) ∧ (name ∉ parsed.*1) ∧ (name ∉ files.*1)).
  { simpl in Hnd. rw -Permutation_middle NoDup_cons not_elem_of_app in Hnd. tauto. }
  destruct Hnd' as (Hnd' & Hnp & Hnfi). cbn [scan_files].
  destruct (is_scannable_json name) eqn:Hs; cycle 1.
  { destruct (IH parsed report d Hnd' Hin' Hpin) as (p & rep & d' & ? & ? & ? & ? & Hall).
    exists p, rep, d'. split_and!; try done.
    intros n b r [[= -> ->]|Hx]%elem_of_cons ??; [congruence|by eapply Hall]. }
  rw (proj1 (proj2 Hnf name)).
  destruct (record_from_str bytes) as [r|] eqn:Hr.
  - destruct (IH (parsed ++ [(name, r)]) (merge_report report (MkScanReport 1 0 0 0 0)) d)
      as (p & rep & d' & ? & ? & ? & Hsub & Hall); [|done| |].
    { rw fmap_app -app_assoc. exact Hnd. }
    { intros x [Hx| ->%list_elem_of_singleton]%elem_of_app; [by apply Hpin|].
      apply (Hin (name, bytes)), list_elem_of_here. }
    exists p, rep, d'. split_and!; try done.
    + intros x Hx. apply Hsub, elem_of_app. by left.
    + intros n b r' [[= -> ->]|Hx]%elem_of_cons ? Hr'; [|by eapply Hall].
      rw Hr in Hr'. injection Hr' as <-. apply Hsub, elem_of_app. right. by apply list_elem_of_singleton.
  - destruct (quarantine_ok name d Hnf (Hin (name, bytes) (list_elem_of_here _ _)))
      as (d1 & Hq & Hd1). rw Hq.
    destruct (IH parsed (merge_report (merge_report report (MkScanReport 1 0 0 0 0)) one_quarantined)
      d1 Hnd') as (p & rep & d' & ? & ? & ? & Hsub & Hall).
    { intros x Hx. rw Hd1 lookup_delete_ne; [|by apply Hin'].
      intros Heq. apply Hnfi, list_elem_of_fmap. by exists x. }
    { intros x Hx. rw Hd1 lookup_delete_ne; [|by apply Hpin].
      intros Heq. apply Hnp, list_elem_of_fmap. by exists x. }
    exists p, rep, d'. split_and!; try done.
    intros n b r' [[= -> ->]|Hx]%elem_of_cons ? Hr'; [congruence|by eapply Hall].
Qed.

(** What was journalled is delivered.  After journalling a record answered
    [Ok], a scan of the directory in which no call fails succeeds, whatever
    other files are there, puts the record's event id in the ledger and removes
    its file. *)
Theorem journalled_record_is_delivered fails partial d r d' w :
  record_wf r → r.(or_event_id) ≠ "" → listing_ok fs → no_faults → ledger_covers w.(w_db) →
  deliverable w.(w_db) r →
  journal_record fails partial d r = (Ok (record_json_filename r.(or_event_id)), d') →
  ∃ report d2 w2, cold_scan_dir fs d' w = (Ok report, d2, w2) ∧
    is_Some (w2.(w_db).(outbox_consumed) !! r.(or_event_id)) ∧
    d2.(od_files) !! record_json_filename r.(or_event_id) = None.
Proof.
  intros Hwf Hid Hls Hnf Hcov Hdel Hj. set (final := record_json_filename _) in *.
  assert (Hfile : d'.(od_files) !! final = Some (record_to_string r)).
  { unfold journal_record in Hj. destruct (fails CreateDirAll); [done|].
    destruct (journal_commit_ok fails partial final (record_tmp_filename r.(or_event_id))
      (record_to_string r) d (json_not_tmp _ _)) as [_ Hok]. fold final in Hj.
    destruct (journal_commit _ _ _ _ _ _) as [[] d1]; [|done]. injection Hj as <-.
    by apply Hok. }
  unfold cold_scan_dir. rw (proj1 Hnf).
  destruct (scan_files_ok (fs.(read_dir) d'.(od_files)) [] empty_report d' Hnf)
    as (p & rep & d1 & Hrun & Hnd & Hin & _ & Hall).
  { rw /= (Hls d'.(od_files)). apply NoDup_fst_map_to_list. }
  { intros [n b]. rw (Hls d'.(od_files)) elem_of_map_to_list. by eexists. }
  { by intros x ?%elem_of_nil. }
  rw Hrun. unfold order_by.
  destruct (replay_all_ok (merge_sort event_id_le p) rep d1 w Hnf Hcov)
    as (rep2 & d2 & w2 & Hrun2 & _ & _ & Hdone).
  { by rw merge_sort_Permutation. }
  { intros x. rw merge_sort_Permutation. apply Hin. }
  exists rep2, d2, w2. split; [done|]. apply and_comm.
  apply (Hdone (final, r)); [|done]. rw merge_sort_Permutation.
  apply (Hall _ (record_to_string r)).
  - by rw (Hls d'.(od_files)) elem_of_map_to_list.
  - by apply json_name_scannable.
  - by apply record_from_to.
Qed.

(** ** Records that cannot be applied *)

Definition attempts_of (id : string) (db : Db) : Z :=
  from_option f_attempts 0 (db.(outbox_apply_failures) !! id).

Definition set_failure (id : string) (f : ApplyFailure) (w : World) : World :=
  set_db (set_outbox_apply_failures (<[id := f]> w.(w_db).(outbox_apply_failures)) w.(w_db)) w.

(** A directory of one record. *)
Lemma scan_single d w name bytes r :
  listing_ok fs → no_faults → d.(od_files) = {[name := bytes]} → is_scannable_json name = true →
  record_from_str bytes = Some r →
  cold_scan_dir fs d w = replay_all fs [(name, r)] (MkScanReport 1 0 0 0 0) d w.
Proof.
  intros Hls Hnf Hd Hs Hr. unfold cold_scan_dir. rw (proj1 Hnf) Hd.
  pose proof (Hls {[name := bytes]}) as Hp. rw map_to_list_singleton in Hp.
  apply Permutation_singleton_r in Hp. rw Hp. simpl. by rw Hs (proj1 (proj2 Hnf name)) Hr.
Qed.

Lemma replay_rejected name r d w n :
  attempts_of r.(or_event_id) w.(w_db) + 1 = n → malformed r = false → w.(w_db).(outbox_consumed) !! r.(or_event_id) = None →
  ¬ applicable r w.(w_db) →
  ∃ w', (∃ msg, w' = set_failure r.(or_event_id) (MkApplyFailure n (Some msg) w.(w_now)) w) ∧
    replay_record fs (name, r) d w =
      (if MAX_APPLY_ATTEMPTS <=? n then
         match quarantine fs name d with
         | None => (None, d, w')
         | Some d' =>
             (Some one_quarantined, d', set_db (set_outbox_apply_failures
                (delete r.(or_event_id) w'.(w_db).(outbox_apply_failures)) w'.(w_db)) w')
         end
       else (Some one_deferred, d, w')).
Proof.
  intros <- Hm Hn Hna. destruct (consume_rejected r w Hm Hn Hna) as [err Hrun].
  eexists. split; [by exists (sql_error_display err)|]. unfold replay_record. rw Hrun.
  unfold bump_apply_failure, attempts_of, set_failure.
  by destruct (w.(w_db).(outbox_apply_failures) !! r.(or_event_id)).
Qed.

(** A record that cannot be applied is retried and then set aside, never
    dropped.  The hook record of an agent that does not exist, alone in its
    directory, is deferred by the first two scans and moved to [dead/] with its
    content by the third; none of the scans records an event or a ledger
    entry, and no failure count is left behind. *)
Theorem poison_record_set_aside d w r :
  let id := r.(or_event_id) in
  let final := record_json_filename id in
  record_wf r → id ≠ "" → r.(or_kind) = HookEvent → listing_ok fs → no_faults →
  w.(w_db).(agents) !! r.(or_agent_id) = None → w.(w_db).(outbox_consumed) !! id = None →
  w.(w_db).(outbox_apply_failures) !! id = None →
  d.(od_files) = {[final := record_to_string r]} →
  ∃ w1 w2 d3 w3,
    cold_scan_dir fs d w = (Ok (MkScanReport 1 0 0 0 1), d, w1) ∧
    cold_scan_dir fs d w1 = (Ok (MkScanReport 1 0 0 0 1), d, w2) ∧
    cold_scan_dir fs d w2 = (Ok (MkScanReport 1 0 0 1 0), d3, w3) ∧
    d3.(od_files) = ∅ ∧ d3.(od_dead) !! final = Some (record_to_string r) ∧
    w3 = w.
Proof.
  intros id final Hwf Hid Hk Hls Hnf Hag Hled Hfail Hd.
  assert (Hscan : ∀ w, cold_scan_dir fs d w =
    replay_all fs [(final, r)] (MkScanReport 1 0 0 0 0) d w).
  { intros w0. by eapply scan_single; [..|apply json_name_scannable|apply record_from_to]. }
  assert (Hm : malformed r = false) by (unfold malformed; by rw Hk).
  assert (Hna : ∀ w0, w0.(w_db).(agents) = w.(w_db).(agents) → ¬ applicable r w0.(w_db)).
  { intros w0 Heq. unfold applicable. rw Hk Heq Hag. by intros [? ?]. }
  assert (Hset : ∀ n m w0, attempts_of id
    (set_failure id (MkApplyFailure n m w.(w_now)) w0).(w_db) = n).
  { intros n m w0. unfold attempts_of. by rw /= lookup_insert_eq. }
  destruct (replay_rejected final r d w 1) as (w1 & [m1 Hw1] & H1); [|done..|by apply Hna|].
  { unfold attempts_of. fold id. by rw Hfail. }
  destruct (replay_rejected final r d w1 2) as (w2 & [m2 Hw2] & H2); [|done|..].
  { by rw Hw1 Hset. } { by rw Hw1. } { apply Hna. by rw Hw1. }
  destruct (replay_rejected final r d w2 3) as (w3 & [m3 Hw3] & H3); [|done|..].
  { rw Hw2 Hw1. by rw Hset. } { by rw Hw2 Hw1. } { apply Hna. by rw Hw2 Hw1. }
  destruct (quarantine_ok final d Hnf) as (d3 & Hq & Hfiles).
  { rw Hd lookup_singleton_eq. by eexists. }
  rw Hq in H3. eexists w1, w2, d3, _. rw !Hscan. cbn [replay_all]. rw H1 H2 H3.
  split; [done|]. split; [done|]. split; [done|].
  split; [by rw Hfiles Hd delete_singleton_eq|]. split.
  - unfold quarantine in Hq. rw (proj2 (proj2 (proj2 Hnf final))) Hd lookup_singleton_eq in Hq.
    injection Hq as <-. apply lookup_insert_eq.
  - rw Hw3 Hw2 Hw1. unfold set_failure. simpl. rw !insert_insert_eq delete_insert_id //.
    by destruct w as [[]].
Qed.

End EndToEnd.
