(* ===== verification/System.v ===== *)
(** * The daemon as a transition system

    Every entry point of the modelled components as a step of one system, in
    any order and with any arguments, interleaved with the clock and with the
    provider logs.  A step is one call: the
    connection is behind a mutex, and what an entry point writes it writes
    while holding it.  Some asynchronous entry points first read, on their own,
    the job they will report; that read writes nothing, and only the effects
    they publish depend on it.

    [quiet_step]: the steps that delete no row.  [step]: all of them. *)
From S2P Require Import Prelude Json Schema Sql MasterTables JobGate Invariant MasterSound AgentGate Text ReplyText Jobs.
From S2P Require Import Sessions Cutovers MasterRecovery MasterRevival Completion Evidence StateMachine.
From S2P Require Import Events Perception Agents Recovery Lifecycle Startup Outbox HealthCheck.
From S2P Require Import SessionWatch SessionHandlers OutboxProofs.
From S2P Require Import PromptCases PromptRunner PromptStore PromptIntegration.

Section System.
Context {EXT : Externals} {SPEC : SpawnSpecSerde} {OUT : OutboxSerde}.

(** ** Entry points that delete nothing *)

Inductive quiet_entry : ∀ A, M CcbdError A → Prop :=
(* jobs.rs *)
| q_insert_job id agent_id request_id prompt :
    quiet_entry _ (insert_job id agent_id request_id prompt)
| q_claim agent_id : quiet_entry _ (claim_next_job agent_id)
| q_dispatch agent_id from new_state kind payload :
    quiet_entry _ (dispatch_job_to_agent agent_id from new_state kind payload)
| q_completed job_id reply : quiet_entry _ (mark_job_completed job_id reply)
| q_failed job_id reason : quiet_entry _ (mark_job_failed job_id reason)
| q_cancel_queued job_id : quiet_entry _ (mark_queued_job_cancelled job_id)
| q_request_cancel job_id : quiet_entry _ (request_dispatched_job_cancel job_id)
| q_cancel_idle job_id : quiet_entry _ (mark_dispatched_job_cancelled_if_agent_idle job_id)
| q_force_cancel job_id now timeout :
    quiet_entry _ (force_cancel_pending_dispatched_job_conn_sync job_id now timeout)
| q_fail_agent agent_id reason :
    quiet_entry _ (mark_dispatched_jobs_failed_for_agent agent_id reason)
| q_requeue_io job_id agent_id attempt reason :
    quiet_entry _ (requeue_recovered_dispatch_io_failure job_id agent_id attempt reason)
| q_requeue_send job_id agent_id reason :
    quiet_entry _ (requeue_dispatched_job_before_send job_id agent_id reason)
| q_clear_marker job_id : quiet_entry _ (clear_recovered_dispatch_marker job_id)
| q_evidence_requirements job_id p t : quiet_entry _ (set_job_evidence_requirements job_id p t)
| q_seq_id job_id seq : quiet_entry _ (update_dispatched_seq_id job_id seq)
(* state_machine.rs, state_machine_assert.rs *)
| q_transit agent_id from to reason : quiet_entry _ (transit_agent_state agent_id from to reason)
| q_ack agent_id ver : quiet_entry _ (mark_agent_waiting_for_ack agent_id ver)
| q_prompt agent_id reason : quiet_entry _ (mark_agent_prompt_pending agent_id reason)
| q_intervention agent_id reason :
    quiet_entry _ (mark_agent_failed_from_intervention agent_id reason)
| q_marker agent_id : quiet_entry _ (mark_agent_idle_matched agent_id)
| q_log agent_id provider reply path off turn :
    quiet_entry _ (mark_agent_idle_log_event agent_id provider reply path off turn)
| q_hook agent_id provider event event_id reply :
    quiet_entry _ (mark_agent_idle_hook_event agent_id provider event event_id reply)
| q_stuck agent_id reason : quiet_entry _ (mark_agent_stuck agent_id reason)
| q_unknown evidence_id agent_id reason pane rules :
    quiet_entry _ (mark_agent_unknown evidence_id agent_id reason pane rules)
| q_assert_idle agent_id evidence_id : quiet_entry _ (assert_state_to_idle agent_id evidence_id)
(* evidence.rs *)
| q_evidence evidence_id agent_id job_id ty path payload :
    quiet_entry _ (insert_evidence_record_sync evidence_id agent_id job_id ty path payload)
| q_evidence_status evidence_id status l3 :
    quiet_entry _ (update_evidence_status_sync evidence_id status l3)
| q_discard evidence_id : quiet_entry _ (discard_evidence_sync evidence_id)
(* agents.rs, agents_lifecycle.rs *)
| q_agent_state agent_id state : quiet_entry _ (update_agent_state_sync agent_id state)
| q_config_hash agent_id hash : quiet_entry _ (update_agent_config_hash_sync agent_id hash)
| q_killed agent_id reason : quiet_entry _ (mark_agent_killed agent_id reason)
| q_master_death agent_id reason :
    quiet_entry _ (mark_agent_killed_for_master_death_sync agent_id reason)
| q_crashed agent_id exit_code : quiet_entry _ (mark_agent_crashed_with_exit agent_id exit_code)
| q_crashed_reason agent_id exit_code reason :
    quiet_entry _ (mark_agent_crashed_with_reason agent_id exit_code reason)
(* recovery.rs *)
| q_intent intent : quiet_entry _ (persist_agent_recovery_intent_sync intent)
| q_requeue_captured intent :
    quiet_entry _ (requeue_interrupted_job_from_captured_intent_standalone_sync intent)
| q_spec spec hash : quiet_entry _ (persist_agent_spawn_spec_sync spec hash)
| q_claim_recovery agent_id ver now : quiet_entry _ (try_claim_agent_recovery_sync agent_id ver now)
| q_backoff agent_id now : quiet_entry _ (record_recovery_failure_backoff_sync agent_id now)
| q_clear_backoff agent_id : quiet_entry _ (clear_recovery_backoff_sync agent_id)
| q_stable agent_id : quiet_entry _ (confirm_agent_stable_sync agent_id)
(* events.rs, perception *)
| q_event agent_id request_id ty payload :
    quiet_entry _ (insert_event agent_id request_id ty payload)
| q_health capture secs : quiet_entry _ (try_ (health_check_watcher_tick capture secs))
| q_event_notify agent_id request_id ty payload :
    quiet_entry _ (insert_event_and_notify agent_id request_id ty payload)
| q_perception agent_id from to reason version :
    quiet_entry _ (transit_agent_perception_state_sync agent_id from to reason version)
| q_perceived agent_id layer verdict epoch observed detail :
    quiet_entry _ (emit_perception_event_sync agent_id layer verdict epoch observed detail)
(* prompt_handler/integration.rs, resolve.rs *)
| q_prompt_outcome env agent_id provider outcome prompts :
    quiet_entry _ (apply_prompt_outcome env agent_id provider outcome prompts)
| q_unpark agent_id version outcome :
    quiet_entry _ (apply_prompt_pending_unpark_outcome_sync agent_id version outcome)
| q_resolved agent_id : quiet_entry _ (resolve_prompt_state_sync agent_id)
(* sessions.rs, rpc/handlers/sessions.rs *)
| q_create_session sid project path : quiet_entry _ (create_session_sync sid project path)
| q_insert_session sid project path : quiet_entry _ (insert_session_sync sid project path)
| q_master_pane sid pane : quiet_entry _ (set_session_master_pane_id_sync sid pane)
| q_master_notify sid gen st clear : quiet_entry _ (apply_master_notify_event_sync sid gen st clear)
| q_tell_begin sid request : quiet_entry _ (master_tell_begin_sync sid request)
| q_tell_failed sid request : quiet_entry _ (master_tell_failed_sync sid request)
| q_session_config sid hash : quiet_entry _ (update_session_config_hash_sync sid hash)
| q_session_cmd sid cmd : quiet_entry _ (update_session_master_cmd_sync sid cmd)
| q_terminal_session sid : quiet_entry _ (mark_terminal_session_killed sid)
| q_terminal_agents sid reason :
    quiet_entry _ (mark_terminal_session_agents_killed_db_only sid reason)
| q_rolled_back sid : quiet_entry _ (fail_rolled_back_session sid)
(* master_cutovers.rs *)
| q_cutover_claim id sid pid dir sock handoff :
    quiet_entry _ (claim_master_cutover id sid pid dir sock handoff)
| q_cutover_state id expected next : quiet_entry _ (update_master_cutover_state id expected next)
| q_cutover_spawn id expected next pid gen pane :
    quiet_entry _ (update_master_cutover_spawn_metadata id expected next pid gen pane)
| q_cutover_ack id mode : quiet_entry _ (mark_master_cutover_ack_ready id mode)
| q_cutover_release id expected : quiet_entry _ (release_master_cutover id expected)
(* master_recovery.rs *)
| q_window sid pid gen work now secs :
    quiet_entry _ (begin_master_recovery_window_sync sid pid gen work now secs)
| q_window_phase env sid gen phase now :
    quiet_entry _ (update_master_recovery_phase_sync env sid gen phase now)
| q_window_complete sid gen now : quiet_entry _ (complete_master_recovery_window_sync sid gen now)
| q_window_wait sid gen mode token now :
    quiet_entry _ (begin_master_recovery_readiness_wait_sync sid gen mode token now)
| q_window_ready sid gen reason now :
    quiet_entry _ (mark_master_recovery_ready_sync sid gen reason now)
| q_window_fail sid gen reason now :
    quiet_entry _ (fail_master_recovery_readiness_sync sid gen reason now)
| q_window_expire sid now : quiet_entry _ (expire_master_recovery_window_sync sid now)
| q_decide env sid now : quiet_entry _ (decide_anchor_cascade_sync env sid now)
(* master_revival.rs *)
| q_non_revive env sid gen now :
    quiet_entry _ (mark_master_recovery_non_revive_terminal env sid gen now)
| q_claim_master sid pid gen : quiet_entry _ (try_claim_master_transition sid pid gen)
| q_complete_master sid gen pid pane :
    quiet_entry _ (complete_claimed_master_transition sid gen pid pane)
| q_spawned_master sid pane pid : quiet_entry _ (record_spawned_master_runtime sid pane pid)
| q_spawned_claimed sid pane pid gen :
    quiet_entry _ (record_spawned_master_runtime_after_claim sid pane pid gen)
| q_revived_cmd sid cmd : quiet_entry _ (persist_revived_master_cmd sid cmd)
| q_closed_idle sid : quiet_entry _ (mark_session_closed_after_idle_master_death sid)
| q_intentional_kill sid : quiet_entry _ (mark_session_intentional_killed sid)
| q_fuse sid : quiet_entry _ (fuse_session_after_master_revive_exhausted sid)
| q_attempt sid pid gen now : quiet_entry _ (record_master_revive_attempt sid pid gen now)
| q_master_stable sid pid gen : quiet_entry _ (confirm_master_stable sid pid gen)
| q_shutdown : quiet_entry _ mark_all_sessions_intentional_shutdown
(* system.rs, system/startup.rs, session_watch.rs *)
| q_clean_workers host reg sid ids reason marker keep runner :
    quiet_entry _ (clean_worker_runtime_resources_with_runner_sync host reg sid ids reason marker
                     keep runner)
| q_cascade host sid reason marker runner :
    quiet_entry _ (cascade_kill_session_agents_with_runner_sync host sid reason marker runner)
| q_startup host dir marker runner now dry :
    quiet_entry _ (reconcile_startup_with_tmux_socket_sync_and_runner host dir marker runner now dry)
| q_watch host runner env sid turn : quiet_entry _ (watch_turn host runner env sid turn).

(** The clock, the broadcast queue, the log registry and the files an entry
    point reads may change in any way between two calls. *)
Inductive quiet_step : World → World → Prop :=
| quiet_call A (m : M CcbdError A) w : quiet_entry A m → quiet_step w (m w).2
| quiet_scan fs d w : quiet_step w (cold_scan_dir fs d w).2
| quiet_environment w w' : w'.(w_db) = w.(w_db) → quiet_step w w'.

(** ** Entry points that delete rows *)

Inductive deleting_entry : ∀ A, M CcbdError A → Prop :=
| d_insert_agent agent_id session_id provider state pid :
    deleting_entry _ (insert_agent_sync agent_id session_id provider state pid)
| d_delete_agent agent_id : deleting_entry _ (delete_agent_sync agent_id)
| d_replace_killed session_id spec hash pid intent :
    deleting_entry _ (replace_killed_agent_and_requeue_job_sync session_id spec hash pid intent).

(** A delivery's progress is written over the payload of its event. *)
Inductive step : World → World → Prop :=
| step_quiet w w' : quiet_step w w' → step w w'
| step_deleting A (m : M CcbdError A) w : deleting_entry A m → step w (m w).2
| step_progress seq payload agent_id ok w :
    step w (record_send_progress_sync seq payload agent_id ok w).2.

(** A fresh database. *)
Definition initial (w : World) : Prop :=
  let db := w.(w_db) in
  db.(agents) = ∅ ∧ db.(jobs) = ∅ ∧ db.(events) = [] ∧ db.(job_transitions) = [] ∧
  db.(evidence) = ∅ ∧ db.(recovery_intents) = ∅ ∧ db.(spawn_specs) = ∅ ∧
  master_of db = MkMasterTables ∅ ∅ ∅ ∅.

Definition reachable (w : World) : Prop := ∃ w0, initial w0 ∧ rtc step w0 w.

(** ** Quiet steps are sound *)

Lemma quiet_entry_sound A (m : M CcbdError A) : quiet_entry A m → respects sound m.
Proof.
  destruct 1; eauto using sound_clear_backoff, sound_watch_turn with respects. solve_respects.
Qed.

Lemma sound_failures t db : sound db (set_outbox_apply_failures t db).
Proof. apply (sound_outbox_tables db db.(outbox_consumed) db.(outbox_job_declarations) t). Qed.

Lemma sound_replay_record fs x d w :
  sound w.(w_db) (replay_record fs x d w).2.(w_db).
Proof.
  destruct x as [name r]. unfold replay_record.
  pose proof (sound_consume_record r w) as Hc.
  destruct (consume_record r w) as [[[]|[]] w']; simpl in *.
  - etrans; [exact Hc|apply sound_failures].
  - etrans; [exact Hc|apply sound_failures].
  - etrans; [exact Hc|]. destruct (MAX_APPLY_ATTEMPTS <=? _); [destruct (quarantine _ _ _)|];
      apply (sound_failures _ w'.(w_db)).
  - by destruct (quarantine _ _ _).
Qed.

Lemma sound_cold_scan fs d w : sound w.(w_db) (cold_scan_dir fs d w).2.(w_db).
Proof.
  unfold cold_scan_dir. destruct fs.(read_dir_fails); [reflexivity|].
  destruct (scan_files _ _ _ _ _) as [[[parsed report]|e] d1]; [|reflexivity].
  revert report d1 w. induction (order_by event_id_le parsed) as [|x l IH];
    intros report d1 w; simpl; [reflexivity|].
  pose proof (sound_replay_record fs x d1 w) as Hx.
  destruct (replay_record fs x d1 w) as [[[r|] d2] w2]; simpl in *; [|done].
  etrans; [exact Hx|apply IH].
Qed.

Lemma quiet_step_sound w w' : quiet_step w w' → sound w.(w_db) w'.(w_db).
Proof.
  intros [A m w0 Hm|fs d w0|w0 w0' Hdb].
  - by apply (quiet_entry_sound A m Hm).
  - apply sound_cold_scan.
  - rw Hdb. reflexivity.
Qed.

Lemma quiet_steps_evolve w w' : rtc quiet_step w w' → evolves w.(w_db) w'.(w_db).
Proof.
  induction 1 as [|x y z Hstep _ IH]; [reflexivity|].
  etrans; [apply (quiet_step_sound _ _ Hstep)|exact IH].
Qed.

(** ** All steps preserve consistency *)

Lemma deleting_entry_consistent A (m : M CcbdError A) : deleting_entry A m → preserves consistent m.
Proof.
  destruct 1; eauto using consistent_insert_agent_sync, consistent_delete_agent_sync,
    consistent_replace_killed.
Qed.

Lemma consistent_progress seq payload agent_id ok :
  preserves consistent (record_send_progress_sync seq payload agent_id ok).
Proof.
  intros w [Hwf Haud].
  change ((record_send_progress_sync seq payload agent_id ok w).2.(w_db)) with
    (set_events (set_event_payload seq (json_to_string payload) <$> w.(w_db).(events)) w.(w_db)).
  set (upd := set_event_payload seq (json_to_string payload)).
  assert (Hid : ∀ e, (upd e).(e_seq_id) = e.(e_seq_id) ∧ (upd e).(e_agent_id) = e.(e_agent_id)).
  { intros e. unfold upd, set_event_payload. by destruct (_ =? _). }
  assert (Hids : e_seq_id <$> (upd <$> w.(w_db).(events)) = e_seq_id <$> w.(w_db).(events)).
  { rw -list_fmap_compose. apply list_fmap_ext. intros i e _. apply Hid. }
  split; [|by eapply audit_ok_proper].
  destruct Hwf as [Hak Hjk Hvk Has Hja Hea Hau Hve Hin Hsp Hrq Hro Hjw Hso Hbo].
  split; cbn [events set_events agents jobs evidence sessions job_transitions recovery_intents
    spawn_specs event_seq]; rw ?Hids; try done.
  - intros e (e0 & -> & He)%list_elem_of_fmap. rw (proj2 (Hid e0)). by apply Hea.
  - intros e (e0 & -> & He)%list_elem_of_fmap. rw (proj1 (Hid e0)). by apply Hbo.
Qed.

Lemma step_consistent w w' : step w w' → consistent w.(w_db) → consistent w'.(w_db).
Proof.
  intros [w0 w0' Hq|A m w0 Hm|seq payload agent_id ok w0].
  - apply (quiet_step_sound _ _ Hq).
  - apply (deleting_entry_consistent A m Hm w0).
  - apply consistent_progress.
Qed.

(** ** All steps move the master's tables forward *)

Definition master_moves (db db' : Db) : Prop := master_evolves (master_of db) (master_of db').
#[global] Instance master_moves_preorder : PreOrder master_moves.
Proof. split; [by intros db|]. intros x y z Hxy Hyz. unfold master_moves in *. by etrans. Qed.

Lemma sound_moves {E A} (m : M E A) : respects sound m → respects master_moves m.
Proof. apply respects_weaken. intros x y [Hev _]. apply Hev. Qed.

Lemma moves_delete_agent id : respects master_moves (delete_agent_row id).
Proof.
  intros w. unfold delete_agent_row. destruct (agents _ !! _); [|reflexivity].
  by destruct (dangling_event_refs _); unfold master_moves.
Qed.

Lemma moves_insert_agent row : respects master_moves (insert_agent_row row).
Proof. apply sound_moves. eauto with respects. Qed.

Lemma moves_insert_agent_sync id sid prov st pid :
  respects master_moves (insert_agent_sync id sid prov st pid).
Proof.
  unfold insert_agent_sync, query_agent_row. solve_respects; eauto using moves_insert_agent,
    moves_delete_agent, sound_moves with respects.
Qed.

Lemma deleting_entry_moves A (m : M CcbdError A) : deleting_entry A m → respects master_moves m.
Proof.
  destruct 1.
  - apply moves_insert_agent_sync.
  - unfold delete_agent_sync. solve_respects; eauto using moves_delete_agent, sound_moves with respects.
  - unfold replace_killed_agent_and_requeue_job_sync, query_agent_row.
    solve_respects; eauto using moves_delete_agent, moves_insert_agent_sync, sound_moves,
      sound_clear_backoff with respects.
Qed.

Lemma step_moves w w' : step w w' → master_moves w.(w_db) w'.(w_db).
Proof.
  intros [w0 w0' Hq|A m w0 Hm|seq payload agent_id ok w0].
  - apply (quiet_step_sound _ _ Hq).
  - apply (deleting_entry_moves A m Hm w0).
  - by unfold master_moves.
Qed.

Lemma steps_move w w' : rtc step w w' → master_moves w.(w_db) w'.(w_db).
Proof.
  induction 1 as [|x y z Hstep _ IH]; [reflexivity|]. etrans; [by apply step_moves|exact IH].
Qed.

Lemma initial_consistent w : initial w → consistent w.(w_db).
Proof.
  intros (Ha & Hj & He & Ht & Hv & Hi & Hsp & _). split.
  - split; rw ?Ha ?Hj ?He ?Ht ?Hv ?Hi ?Hsp; try (intros *; rw lookup_empty); try done.
    all: try by intros [? ?].
    all: try by intros ? ?%elem_of_nil.
    all: try by intros ?%elem_of_nil.
    all: try by constructor.
  - intros id j. by rw Hj lookup_empty.
Qed.

Lemma initial_master w : initial w → master_ok (master_of w.(w_db)).
Proof. intros (_ & _ & _ & _ & _ & _ & _ & ->). split; intros *; simpl; rw lookup_empty //. Qed.

Lemma reachable_inv w : reachable w → consistent w.(w_db).
Proof.
  intros (w0 & Hi%initial_consistent & Hrtc). induction Hrtc as [|x y z Hstep _ IH]; [done|].
  apply IH. by eapply step_consistent.
Qed.

Lemma reachable_master w : reachable w → master_ok (master_of w.(w_db)).
Proof. intros (w0 & Hi%initial_master & Hrtc). by apply (mev_ok _ _ (steps_move _ _ Hrtc)). Qed.

(** ** Theorems *)

(** C4: in every reachable database the references hold and the rows agree: keys,
    foreign keys, one job per agent and request, one job per rowid, event ids
    strictly increasing, and the timestamps of every job fit its status; every
    session, cutover and recovery window has a status, state or phase of its
    vocabulary, a session has one active cutover at most, and no window stays
    open longer than the total it is allowed. *)
Theorem reachable_well_formed w :
  reachable w → db_wf w.(w_db) ∧ master_ok (master_of w.(w_db)).
Proof. intros Hr. split; [apply (reachable_inv w Hr)|by apply reachable_master]. Qed.

(** a session that ended stays ended.  Whatever is called, in any order, a
    session keeps its project, its master's generation never goes back, and once
    it is not active it is never active again. *)
Theorem ended_sessions_stay w w' sid s :
  rtc step w w' → w.(w_db).(sessions) !! sid = Some s →
  ∃ s', w'.(w_db).(sessions) !! sid = Some s' ∧ s'.(s_project_id) = s.(s_project_id) ∧
        s.(s_master_generation) ≤ s'.(s_master_generation) ∧
        (s.(s_status) ≠ "ACTIVE" → s'.(s_status) ≠ "ACTIVE").
Proof.
  intros Hsteps Hs. destruct (mev_sessions _ _ (steps_move _ _ Hsteps) sid s Hs) as (s' & Hs' & []).
  by exists s'.
Qed.

(** C1: the audit trail explains every job.  In every reachable database, the
    status changes recorded for a job, replayed from its creation, each start
    at the status the previous one ended at, each follow an edge of the
    transition table, and end at the status the job has. *)
Theorem audit_trail_replays w id j :
  reachable w → w.(w_db).(jobs) !! id = Some j →
  replay None (status_log id w.(w_db)) = Some (Some j.(j_status)).
Proof. intros Hr Hj. by apply (proj2 (reachable_inv w Hr)). Qed.

Lemma status_edge_terminal s s' :
  rtc status_edge s s' → s ∈ ["COMPLETED"; "CANCELLED"] → s' = s.
Proof.
  intros Hrtc Hs. destruct Hrtc as [|x y z (a & b & -> & -> & Hedge) _]; [done|].
  exfalso. rw !elem_of_cons elem_of_nil in Hs. destruct Hedge; simpl in Hs; intuition discriminate.
Qed.

(** C3: [COMPLETED] and [CANCELLED] are final.  No sequence of calls that deletes
    nothing, in any order, moves a job out of them, hands it to another agent
    or changes what was asked. *)
Theorem terminal_jobs_stay w w' id j :
  rtc quiet_step w w' → w.(w_db).(jobs) !! id = Some j →
  j.(j_status) ∈ ["COMPLETED"; "CANCELLED"] →
  ∃ j', w'.(w_db).(jobs) !! id = Some j' ∧ j'.(j_status) = j.(j_status) ∧
        j'.(j_agent_id) = j.(j_agent_id) ∧ j'.(j_prompt_text) = j.(j_prompt_text) ∧
        j'.(j_request_id) = j.(j_request_id).
Proof.
  intros Hq Hj Hs. destruct (ev_jobs _ _ (quiet_steps_evolve _ _ Hq) _ _ Hj) as (j' & Hj' & []).
  exists j'. split; [done|]. split; [by apply status_edge_terminal|]. done.
Qed.

(** A version fences a state.  Between a read of an agent and a later moment,
    with any calls that delete nothing in between, an unchanged
    [state_version] means an unchanged state; so an acknowledgement claimed
    with the version that was read takes the agent from the state that was
    read, and is refused if any call changed the state since. *)
Theorem version_fences_state w w' agent_id a :
  rtc quiet_step w w' → w.(w_db).(agents) !! agent_id = Some a →
  ∃ a', w'.(w_db).(agents) !! agent_id = Some a' ∧
    a.(a_state_version) ≤ a'.(a_state_version) ∧
    (a'.(a_state_version) = a.(a_state_version) → a'.(a_state) = a.(a_state)) ∧
    (a'.(a_state) ≠ a.(a_state) →
     mark_agent_waiting_for_ack_sync agent_id a.(a_state_version) w' = (Ok false, w')).
Proof.
  intros Hq Ha. destruct (ev_agents _ _ (quiet_steps_evolve _ _ Hq) _ _ Ha) as (a' & Ha' & []).
  exists a'. split; [done|]. split; [done|]. split; [done|]. intros Hne.
  apply (ack_refused _ _ _ _ Ha'). by intros ?%aev_state.
Qed.

(** The two logs are append-only.  Calls that delete nothing, and rewrite no
    event's payload, keep every event and every audit row where it is. *)
Theorem logs_append_only w w' :
  rtc quiet_step w w' →
  w.(w_db).(events) `prefix_of` w'.(w_db).(events) ∧
  w.(w_db).(job_transitions) `prefix_of` w'.(w_db).(job_transitions) ∧
  w.(w_db).(event_seq) ≤ w'.(w_db).(event_seq).
Proof. intros Hq. by destruct (quiet_steps_evolve _ _ Hq). Qed.

End System.
