(* ===== verification/MasterWatchProofs.v ===== *)
(** * What a master's death leads to

    However the other tasks interleave with the handling of a death, it starts at
    most one replacement, and only with a generation it claimed.  By itself, it
    settles the recovery window it opened. *)
From S2P Require Import Prelude Json Schema Sql MasterTables JobGate Invariant MasterSound AgentGate Text ReplyText.
From S2P Require Import Shell Providers Sessions Cutovers MasterRecovery MasterRevival Jobs Completion StateMachine.
From S2P Require Import Events Agents LogReader Recovery Lifecycle Startup PromptCases PromptRunner Tmux AgentIo SessionWatch.
From S2P Require Import Gateway SessionHandlers MasterProofs Spawn Tasks AgentSpawn System MasterReaper MasterWatch.

(** ** Starting a master *)

(** The window a command opens or takes over. *)
Definition window_target (c : TmuxCommand) : option string :=
  if c.(tc_args) !! 2%nat == Some "new-window" then c.(tc_args) !! 5%nat
  else if c.(tc_args) !! 2%nat == Some "rename-window" then c.(tc_args) !! 4%nat
  else None.
(** A window in the tmux session of a master: every master starts in one. *)
Definition starts_master (c : TmuxCommand) : bool :=
  match window_target c with Some target => starts_with target "master_" | None => false end.
Definition masters (cs : list TmuxCommand) : nat := length (filter (λ c, starts_master c = true) cs).

Lemma masters_app cs cs' : masters (cs ++ cs') = (masters cs + masters cs')%nat.
Proof. unfold masters. by rewrite filter_app length_app. Qed.
Lemma masters_one c : (masters [c] ≤ 1)%nat.
Proof. unfold masters. rewrite filter_cons. case_decide; cbn; lia. Qed.
Lemma masters_other c : starts_master c = false → masters [c] = 0%nat.
Proof. intros Hc. unfold masters. by rewrite filter_cons_False; [rewrite Hc|]. Qed.

Section Claims.
Context {EXT : Externals} {GX : GatewayExternals} {SPEC : SpawnSpecSerde} {SERDE : SpawnParamsSerde}.
Context {RX : RegexCaptures}.
Context {T : Type} {TX : TmuxExec T}.
Variables (cx : WatchCtx) (others : nat → WatchRuntime T → World → WatchRuntime T * World).
Hypothesis others_move : ∀ p rt w, master_moves w.(w_db) (others p rt w).2.(w_db).
Hypothesis others_trace : ∀ p rt w,
  tm_trace (wr_terminal (others p rt w).1) = tm_trace (wr_terminal rt).

#[local] Existing Instances W_ret W_bind.

(** Every run of [m] from [w] ends, with the commands it ran, as [Q] says. *)
Definition yields {A} (w : World) (m : W (T := T) A)
    (Q : Result A CcbdError → World → list TmuxCommand → Prop) : Prop :=
  ∀ rt, leads rt w m (λ r _ w' cs, Q r w' cs).

Lemma yields_bind {A B} w (m : W A) (f : A → W B) Q S :
  yields w m Q → (∀ e w1 cs, Q (Err e) w1 cs → S (Err e) w1 cs) →
  (∀ a w1 cs, Q (Ok a) w1 cs → yields w1 (f a) (λ r w2 cs', S r w2 (cs ++ cs'))) →
  yields w (m ≫= f) S.
Proof. intros Hm He Hf rt. eapply leads_bind; [apply Hm|eauto|]. intros a rt1 w1 cs HQ. by apply Hf. Qed.
Lemma yields_weaken {A} w (m : W A) Q S :
  yields w m Q → (∀ r w1 cs, Q r w1 cs → S r w1 cs) → yields w m S.
Proof. intros Hm HS rt. eapply leads_weaken; [apply Hm|eauto]. Qed.

(** A step that moves the master's tables forward and starts at most [n] masters. *)
Definition starting (n : nat) {A} (m : W (T := T) A) : Prop :=
  ∀ w, yields w m (λ _ w' cs, master_moves w.(w_db) w'.(w_db) ∧ (masters cs ≤ n)%nat).

Lemma starting_still {A} (m : W A) :
  (∀ rt w, tm_trace (wr_terminal (m rt w).1.2) = tm_trace (wr_terminal rt) ∧
     master_moves w.(w_db) (m rt w).2.(w_db)) → starting 0 m.
Proof.
  intros Hm w rt. destruct (Hm rt w) as [Ht Hr]. exists []. rewrite Ht app_nil_r. by split_and!.
Qed.
Lemma starting_ret {A} (a : A) : starting 0 (mret a).
Proof. apply starting_still. by intros. Qed.
Lemma starting_throw {A} e : starting 0 (w_throw e : W A).
Proof. apply starting_still. by intros. Qed.
Lemma starting_of_result {A} r : starting 0 (w_of_result r : W A).
Proof. apply starting_still. by intros. Qed.
Lemma starting_bind n k {A B} (m : W A) (f : A → W B) :
  starting n m → (∀ a, starting k (f a)) → starting (n + k) (m ≫= f).
Proof.
  intros Hm Hf w. eapply yields_bind; [apply Hm|intros e w1 cs []; split; [done|lia]|].
  intros a w1 cs [Hs Hq]. eapply yields_weaken; [apply Hf|]. intros r w2 cs' [Hs' Hq'].
  split; [by etrans|rewrite masters_app; lia].
Qed.
Lemma starting_more {A} n (m : W A) : starting 0 m → starting n m.
Proof.
  intros Hm w. eapply yields_weaken; [apply Hm|]. intros r w' cs [? ?]; split; [done|lia].
Qed.
Lemma calm_then {A B} n (m : W A) (f : A → W B) :
  starting 0 m → (∀ a, starting n (f a)) → starting n (m ≫= f).
Proof. apply starting_bind. Qed.
Lemma starting_try {A} n (m : W A) : starting n m → starting n (w_try m).
Proof.
  intros Hm w rt. destruct (Hm w rt) as (cs & Ht & HQ). exists cs. unfold w_try.
  by destruct (m rt w) as [[r rt'] w'].
Qed.
Lemma starting_pause p : starting 0 (pause others p).
Proof.
  apply starting_still. intros rt w. unfold pause.
  generalize (others_move p rt w) (others_trace p rt w). by destruct (others p rt w).
Qed.
Lemma starting_stm {A} p (m : M CcbdError A) : respects master_moves m → starting 0 (stm others p m).
Proof.
  intros Hm. apply calm_then; [apply starting_pause|]. intros _. apply starting_still. intros rt w.
  generalize (Hm w). by destruct (m w).
Qed.
Lemma starting_get : starting 0 get_wr.
Proof. apply starting_still. by intros. Qed.
Lemma starting_clock : starting 0 clock.
Proof. apply starting_still. by intros. Qed.
Lemma starting_modify f :
  (∀ rt : WatchRuntime T, wr_terminal (f rt) = wr_terminal rt) → starting 0 (modify_wr f).
Proof. intros Hf. apply starting_still. intros rt w. by rewrite /= Hf. Qed.
Lemma starting_tmux {A} n p (m : Tm (T := T) A) :
  appends m (λ _ cs, masters cs ≤ n)%nat → starting n (tmux others p m).
Proof.
  intros Hm. apply calm_then; [apply starting_pause|]. intros _ w rt.
  destruct (Hm rt.(wr_terminal)) as (cs & Ht & Hq). exists cs.
  destruct (m rt.(wr_terminal)) as [r t]; cbn in *. by split_and!.
Qed.

(** ** Commands *)

Notation few n m := (appends m (λ _ cs, masters cs ≤ n)%nat).

Lemma few_bind {A B} n (m : Tm (T := T) A) (f : A → Tm B) :
  few 0 m → (∀ a, few n (f a)) → few n (m ≫= f).
Proof.
  intros Hm Hf. eapply appends_bind; [exact Hm|cbn; intros; lia|]. intros a cs Hq.
  eapply appends_weaken; [apply Hf|]. intros r cs' Hq'. cbn in *. rewrite masters_app. lia.
Qed.
Lemma few_then {A B} n (m : Tm (T := T) A) (f : A → Tm B) :
  few n m → (∀ a, few 0 (f a)) → few n (m ≫= f).
Proof.
  intros Hm Hf. eapply appends_bind; [exact Hm|done|]. intros a cs Hq.
  eapply appends_weaken; [apply Hf|]. intros r cs' Hq'. cbn in *. rewrite masters_app. lia.
Qed.
Lemma few_try {A} n (m : Tm (T := T) A) : few n m → few n (tm_try m).
Proof. intros Hm. by eapply appends_try. Qed.
Lemma few_result {A} n (r : Result A CcbdError) : few n (tm_of_result (T := T) r).
Proof. apply appends_ret. unfold masters. cbn. lia. Qed.
Lemma few_ret {A} n (a : A) : few n (mret a : Tm (T := T) A).
Proof. apply few_result. Qed.
Lemma few_throw {A} n e : few n (tm_throw e : Tm (T := T) A).
Proof. apply (few_result n (Err e)). Qed.
Lemma few_command (c : TmuxCommand) : few 1 (run_command (T := T) c).
Proof. apply appends_run. intros _. apply masters_one. Qed.
Lemma few_other_command (c : TmuxCommand) : starts_master c = false → few 0 (run_command (T := T) c).
Proof. intros Hc. apply appends_run. intros _. by rewrite masters_other. Qed.

Create HintDb few discriminated.
#[local] Ltac few :=
  repeat first
    [ apply few_ret | apply few_result | apply few_throw | apply few_try
    | apply few_other_command; (done || by destruct (ts_scope_policy _))
    | apply few_then; [solve [auto with few]|intros ?]
    | apply few_bind; [|intros ?]
    | case_match ].

Lemma few_respawn pane cwd cmd : few 0 (respawn_pane_sync (T := T) cx.(mx_server) pane cwd cmd).
Proof. unfold respawn_pane_sync. few. Qed.
#[local] Hint Resolve few_respawn : few.

Lemma few_pane_pid pane : few 0 (get_pane_pid_sync (T := T) cx.(mx_server) pane).
Proof. unfold get_pane_pid_sync, tmux_output. few. Qed.
Lemma few_capture pane : few 0 (capture_pane_sync (T := T) cx.(mx_server) pane).
Proof. unfold capture_pane_sync, tmux_output. few. Qed.
Lemma few_keys pane text : few 0 (send_keys_literal_sync (T := T) cx.(mx_server) pane text).
Proof. unfold send_keys_literal_sync, tmux_run, tmux_output. few. Qed.
Lemma few_keysym pane key : few 0 (send_keys_keysym_sync (T := T) cx.(mx_server) pane key).
Proof. unfold send_keys_keysym_sync, tmux_run, tmux_output. few. Qed.
Lemma few_title pane title : few 0 (set_pane_title_sync (T := T) cx.(mx_server) pane title).
Proof. unfold set_pane_title_sync, tmux_run, tmux_output. few. Qed.
Lemma few_kill_owned pane pid : few 0 (kill_pane_if_owned_sync (T := T) cx.(mx_server) pane pid).
Proof.
  unfold kill_pane_if_owned_sync, target_has_expected_pid_sync, kill_pane_sync, get_pane_pid_sync,
    tmux_run, tmux_output. few.
Qed.
Lemma few_ensure name cwd : few 0 (ensure_session_sync (T := T) cx.(mx_server) name cwd).
Proof.
  unfold ensure_session_sync, ensure_session_with_window_size_sync, server_running_sync, tmux_succeeds,
    tmux_run, tmux_output. few.
Qed.
Lemma few_windows session : few 0 (reusable_initial_window_sync (T := T) cx.(mx_server) session).
Proof.
  unfold reusable_initial_window_sync, list_window_names_sync, list_panes_sync, tmux_output. few.
Qed.
Lemma few_remain pane : few 0 (set_remain_on_exit_sync (T := T) cx.(mx_server) pane).
Proof. unfold set_remain_on_exit_sync, tmux_run, tmux_output. few. Qed.
#[local] Hint Resolve few_windows few_remain : few.
Lemma few_spawn session window cwd cmd :
  few 1 (spawn_window_sync (T := T) cx.(mx_server) session window cwd cmd).
Proof.
  unfold spawn_window_sync. apply few_bind; [apply few_windows|intros [initial|]].
  - unfold respawn_initial_window_sync, tmux_run, tmux_output.
    do 3 (apply few_then; [|intros ?; few]). apply few_command.
  - apply few_then; [apply few_command|intros ?]. few.
Qed.
Lemma few_spawn_agent agent_id window cwd cmd :
  few 0 (spawn_window_sync (T := T) cx.(mx_server) (agent_session_name agent_id) window cwd cmd).
Proof.
  unfold spawn_window_sync, respawn_initial_window_sync, tmux_run, tmux_output. few.
Qed.

(** ** The parts of a revival *)

Create HintDb starting discriminated.
#[local] Hint Resolve starting_ret starting_throw starting_of_result starting_pause starting_get
  starting_clock : starting.
#[local] Hint Resolve few_pane_pid few_capture few_keys few_keysym few_title few_kill_owned few_ensure : few.

#[local] Ltac moves :=
  apply sound_moves;
  unfold query_session_master_runtime_for_generation, master_runtime_generation_matches,
    master_runtime_matches, query_master_revive_next_retry_at, query_session_by_id_sync,
    master_recovery_verifying_window_expected_generation, query_agent_spawn_specs_for_session_sync,
    query_active_master_watch_rows, master_recovery_effective_readiness_timeout,
    master_recovery_window_timing, query_agent_sync, query_agent_row, query_agent_recovery_intent_sync,
    persist_realign_snapshot_after_success, update_agent_config_hash_sync;
  solve_respects; eauto with respects.

#[local] Ltac calm :=
  cbv zeta;
  repeat first
    [ solve [eauto with starting]
    | apply starting_stm; solve [eauto with starting | moves]
    | apply starting_tmux; solve [auto with few]
    | apply starting_modify; done
    | apply starting_try
    | apply calm_then; [|intros ?]
    | match goal with |- starting _ (match ?x with _ => _ end) => destruct x end ].

Lemma starting_contains key : starting 0 (monitor_contains key).
Proof. unfold monitor_contains. calm. Qed.
Lemma starting_alive pid : starting 0 (master_is_alive pid).
Proof. unfold master_is_alive. calm. Qed.
Lemma starting_open pid : starting 0 (pidfd_open pid).
Proof. unfold pidfd_open. calm. Qed.
Lemma starting_clone what : starting 0 (try_clone what).
Proof. unfold try_clone. calm. Qed.
Lemma starting_register key : starting 0 (monitor_register key).
Proof. unfold monitor_register. calm. Qed.
#[local] Hint Resolve starting_contains starting_alive starting_open starting_clone starting_register : starting.
Lemma starting_remove sid g : starting 0 (remove_master_monitor_key_if_generation_matches sid g).
Proof. unfold remove_master_monitor_key_if_generation_matches. calm. Qed.
#[local] Hint Resolve starting_remove : starting.

Lemma starting_reap sid target : starting 0 (reap_failed_revive_master cx others sid target).
Proof.
  unfold reap_failed_revive_master, reap_failed_revive_master_runtime,
    reap_claimed_revive_master_after_error_best_effort, reap_failed_revive_master_runtime,
    reap_failed_revive_master_process_and_watch_best_effort, sigkill_failed_revive_master_process.
  calm.
Qed.
#[local] Hint Resolve starting_reap : starting.

Lemma starting_mark p sid g phase : starting 0 (mark_phase cx others p sid g phase).
Proof. unfold mark_phase, mark_master_recovery_phase. calm. Qed.
#[local] Hint Resolve starting_mark : starting.

Lemma starting_spawn sid cmd marker :
  starting 1 (spawn_replacement_master_pane cx others sid cmd marker).
Proof.
  unfold spawn_replacement_master_pane. apply calm_then; [calm|intros [session|]]; [|].
  - cbv zeta. do 3 (apply calm_then; [calm|intros ?]).
    apply (starting_bind 1 0); [apply starting_tmux; apply few_spawn|intros ?]. calm.
  - apply starting_more, starting_throw.
Qed.

Lemma starting_readiness_check cmd home :
  starting 0 (prepare_revive_master_readiness_check (T := T) cmd home).
Proof. unfold prepare_revive_master_readiness_check. calm. Qed.
#[local] Hint Resolve starting_readiness_check : starting.
Lemma starting_register_watch sid pid g cmd home key :
  starting 0 (register_revived_master_watch_and_prepare_readiness others sid pid g cmd home key).
Proof. unfold register_revived_master_watch_and_prepare_readiness. calm. Qed.
Lemma starting_instruct pane : starting 0 (inject_master_continue_instruction_best_effort cx others pane).
Proof. unfold inject_master_continue_instruction_best_effort. calm. Qed.
Lemma starting_marker sid pid g g' ids :
  starting 0 (write_redispatch_marker_for_master_revive cx sid pid g g' ids).
Proof.
  unfold write_redispatch_marker_for_master_revive, write_master_revival_redispatch_marker. calm.
Qed.
#[local] Hint Resolve starting_register_watch starting_instruct starting_marker : starting.

(** ** Bringing back a worker *)

Lemma starting_undo {A} n undo (m : W A) : starting 0 undo → starting n m → starting n (or_undo undo m).
Proof.
  intros Hu Hm. unfold or_undo. rewrite -(Nat.add_0_r n).
  apply starting_bind; [by apply starting_try|intros []; calm].
Qed.
Lemma starting_cleanup pane fifo : starting 0 (cleanup_spawn_resources cx others pane fifo).
Proof.
  unfold cleanup_spawn_resources, remove_fifo, modify_agents, kill_pane_sync, tmux_run, tmux_output.
  apply calm_then; [apply starting_try, starting_tmux; few|intros ?; calm].
Qed.
#[local] Hint Resolve starting_cleanup : starting.
Lemma starting_resolve sid id : starting 0 (resolve_sandbox_dir (T := T) cx sid id).
Proof. unfold resolve_sandbox_dir. calm. Qed.
Lemma starting_fifo path : starting 0 (make_fifo (T := T) cx path).
Proof. unfold make_fifo, remove_fifo, modify_agents. calm. Qed.
Lemma starting_pane id provider cwd fifo cmd : starting 0 (start_pane cx others id provider cwd fifo cmd).
Proof.
  unfold start_pane, remove_fifo, modify_agents.
  apply calm_then; [apply starting_undo; calm|intros _].
  apply calm_then; [apply starting_undo; [calm|apply starting_tmux, few_spawn_agent]|intros pane]. calm.
Qed.
Lemma starting_attach id pane fifo : starting 0 (attach_pane cx others id pane fifo).
Proof.
  unfold attach_pane, pipe_pane_to_fifo_sync, tmux_run, tmux_output. apply starting_undo; [calm|].
  apply calm_then; [calm|intros pid]. apply calm_then; [apply starting_tmux; few|intros _]. calm.
Qed.
#[local] Hint Resolve starting_resolve starting_fifo starting_pane starting_attach : starting.

Lemma moves_replace sid spec h pid i :
  respects master_moves (replace_killed_agent_and_requeue_job_sync sid spec h pid i).
Proof. apply deleting_entry_moves. constructor. Qed.
#[local] Hint Resolve moves_replace moves_insert_agent_sync : starting.
Lemma starting_record p action pid pane fifo h spec :
  starting 0 (record_agent cx others p action pid pane fifo h spec).
Proof.
  unfold record_agent, persist_agent_spawn_snapshot_after_success. destruct action.
  - apply calm_then; [apply starting_undo; calm|intros _]. calm.
  - apply calm_then; [apply starting_undo; calm|intros _]. calm.
Qed.
Lemma starting_follow p pid pane fifo : starting 0 (follow_agent (T := T) cx p pid pane fifo).
Proof. unfold follow_agent, modify_agents. calm. Qed.
#[local] Hint Resolve starting_record starting_follow : starting.
Lemma starting_in_sandbox p is_recovery action session ext c sandbox :
  starting 0 (spawn_in_sandbox cx others p is_recovery action session ext c sandbox).
Proof. unfold spawn_in_sandbox. calm. Qed.
#[local] Hint Resolve starting_in_sandbox : starting.
Lemma starting_guard {A} sid id (body : option string → W A) :
  (∀ sandbox, starting 0 (body sandbox)) → starting 0 (with_sandbox_guard cx others sid id body).
Proof.
  intros Hb. unfold with_sandbox_guard. destruct (unsafe_no_sandbox _); [apply Hb|].
  apply calm_then; [calm|intros dir]. apply starting_undo; [calm|apply Hb].
Qed.
Lemma starting_spawn_agent p is_recovery action : starting 0 (spawn_agent cx others p is_recovery action).
Proof.
  unfold spawn_agent. apply calm_then; [calm|intros existing].
  destruct (match existing with Some a => a.(a_state) != "KILLED" | None => false end); [calm|].
  apply calm_then; [calm|intros [session|]]; [|calm]. cbv zeta.
  do 2 (apply calm_then; [calm|intros ?]). apply starting_guard. calm.
Qed.
#[local] Hint Resolve starting_spawn_agent : starting.
Lemma starting_worker sid spec c h i : starting 0 (revive_reprovision_one_worker cx others sid spec c h i).
Proof. unfold revive_reprovision_one_worker, spawn_realign_agent. calm. Qed.
#[local] Hint Resolve starting_worker : starting.

(** ** The rest of a revival *)


Lemma moves_restore sid stored : respects master_moves (restore_killed_worker_spawn_spec sid stored).
Proof.
  unfold restore_killed_worker_spawn_spec. apply respects_bind; [typeclasses eauto|moves|intros row].
  apply respects_bind; [typeclasses eauto|unfold when; destruct (bool_decide _)|intros _; moves].
  - apply moves_insert_agent_sync.
  - moves.
Qed.
Lemma sound_collect_intents ids :
  respects sound (collect_master_revive_recovery_intents_before_reprovision ids).
Proof.
  induction ids as [|id ids IH]; cbn [collect_master_revive_recovery_intents_before_reprovision];
    unfold query_agent_recovery_intent_sync;
    solve_respects; eauto with respects.
Qed.
#[local] Hint Resolve moves_restore : starting.
#[local] Hint Resolve sound_collect_intents : respects.

Lemma starting_reprovision_workers sid shared captured specs :
  starting 0 (reprovision_workers cx others sid shared captured specs).
Proof.
  induction specs as [|stored specs IH]; cbn [reprovision_workers]; [apply starting_ret|]. cbv zeta.
  apply calm_then; [calm|intros _]. apply calm_then; [apply starting_try, starting_worker|intros r].
  apply calm_then; [destruct r; calm|intros _; exact IH].
Qed.
#[local] Hint Resolve starting_reprovision_workers : starting.
Lemma starting_reprovision sid :
  starting 0 (reprovision_declared_workers_after_master_revive cx others sid).
Proof. unfold reprovision_declared_workers_after_master_revive. calm. Qed.
#[local] Hint Resolve starting_reprovision : starting.

Lemma starting_fail sid wg reason cascade pid g pane :
  starting 0 (fail_readiness_then_cascade_and_reap cx others sid wg reason cascade pid g pane).
Proof. unfold fail_readiness_then_cascade_and_reap. calm. Qed.
Lemma starting_ack polls sid pid g root c :
  starting 0 (revive_master_readiness_ack others polls sid pid g root c).
Proof.
  induction polls as [|polls IH]; cbn [revive_master_readiness_ack]; unfold ack_poll at 1; calm.
Qed.
Lemma starting_probe_poll sid pid g pane p : starting 0 (probe_poll cx others sid pid g pane p).
Proof. unfold probe_poll. calm. Qed.
#[local] Hint Resolve starting_probe_poll : starting.
Lemma starting_probe polls sid pid g pane p :
  starting 0 (revive_master_readiness_probe cx others polls sid pid g pane p).
Proof.
  revert p. induction polls as [|polls IH]; intros p; cbn [revive_master_readiness_probe]; calm.
Qed.
Lemma sound_workers_ready ids : respects sound (recovered_workers_ready_sync ids).
Proof.
  induction ids as [|id ids IH]; cbn [recovered_workers_ready_sync]; solve_respects; eauto with respects.
Qed.
#[local] Hint Resolve sound_workers_ready : respects.
Lemma starting_workers_wait polls ids :
  starting 0 (wait_for_recovered_workers_ready others polls ids).
Proof.
  induction polls as [|polls IH]; destruct ids; cbn [wait_for_recovered_workers_ready]; calm.
Qed.
#[local] Hint Resolve starting_fail starting_ack starting_probe starting_workers_wait : starting.
Lemma starting_gate sid ids : starting 0 (recovered_worker_gate_ready cx others sid ids).
Proof. unfold recovered_worker_gate_ready. calm. Qed.
Lemma starting_ready check sid pid g pane :
  starting 0 (revive_master_readiness_ready cx others check sid pid g pane).
Proof. unfold revive_master_readiness_ready. calm. Qed.
#[local] Hint Resolve starting_gate starting_ready : starting.
Lemma starting_resume sid pid g wg pane token check :
  starting 0 (resume_master_recovery_readiness cx others sid pid g wg pane token check).
Proof. unfold resume_master_recovery_readiness. calm. Qed.
#[local] Hint Resolve starting_resume : starting.
Lemma starting_finish sid g g' cmd spawned :
  starting 0 (finish_revival cx others sid g g' cmd spawned).
Proof. unfold finish_revival, spawn_master_confirm_timer. calm. Qed.
#[local] Hint Resolve starting_finish : starting.

(** ** Claiming a generation *)

Lemma starting_clean sid ids c : starting 0 (clean_workers_after_master_death cx others sid ids c).
Proof. unfold clean_workers_after_master_death. calm. Qed.
Lemma starting_close sid g : starting 0 (close_idle_master_death_without_revive cx others sid g).
Proof. unfold close_idle_master_death_without_revive. calm. Qed.
Lemma starting_backoff sid pid g : starting 0 (wait_for_master_revive_retry_backoff cx others sid pid g).
Proof. unfold wait_for_master_revive_retry_backoff. calm. Qed.
Lemma starting_attempt sid pid g g' :
  starting 0 (record_master_revive_spawn_attempt cx others sid pid g g').
Proof. unfold record_master_revive_spawn_attempt. calm. Qed.
#[local] Hint Resolve starting_clean starting_close starting_backoff starting_attempt : starting.

(** On the way from [w] to [w'] the generation was claimed. *)
Definition claimed (sid : string) (pid g : Z) (w w' : World) : Prop :=
  ∃ w1 w2, master_moves w.(w_db) w1.(w_db) ∧
    try_claim_master_transition sid pid g w1 = (Ok Claimed, w2) ∧ master_moves w2.(w_db) w'.(w_db).

Lemma claimed_extend sid pid g w0 w w' w3 :
  master_moves w0.(w_db) w.(w_db) → claimed sid pid g w w' → master_moves w'.(w_db) w3.(w_db) →
  claimed sid pid g w0 w3.
Proof.
  intros H0 (w1 & w2 & H1 & Hc & H2) H3. exists w1, w2. split_and!; [by etrans|done|by etrans].
Qed.

Lemma claimed_for_good sid pid pid' g w1 w2 w3 :
  try_claim_master_transition sid pid g w1 = (Ok Claimed, w2) → master_moves w2.(w_db) w3.(w_db) →
  try_claim_master_transition sid pid' g w3 = (Ok TransitionStale, w3).
Proof.
  intros Hc Hm. rewrite claim_run.
  rewrite (guarded_out sid g w3 (master_is pid' g)) //.
  - intros s. by apply (claimed_generation_left sid pid g w1 w2 w3 s).
  - by intros s (_ & _ & ?)%master_is_spec.
Qed.

(** A step that starts a master only with a claim, and then at most one. *)
Definition licensed (sid : string) (pid g : Z) {A} (m : W (T := T) A) : Prop :=
  ∀ w, yields w m (λ _ w' cs, master_moves w.(w_db) w'.(w_db) ∧
    (masters cs = 0%nat ∨ (masters cs = 1%nat ∧ claimed sid pid g w w'))).

Lemma licensed_calm sid pid g {A} (m : W A) : starting 0 m → licensed sid pid g m.
Proof.
  intros Hm w. eapply yields_weaken; [apply Hm|]. intros r w' cs [? ?]. split; [done|left; lia].
Qed.
Lemma licensed_then sid pid g {A B} (m : W A) (f : A → W B) :
  starting 0 m → (∀ a, licensed sid pid g (f a)) → licensed sid pid g (m ≫= f).
Proof.
  intros Hm Hf w. eapply yields_bind; [apply Hm|intros e w1 cs [? ?]; split; [done|left; lia]|].
  intros a w1 cs [Hs Hn]. eapply yields_weaken; [apply Hf|]. intros r w2 cs' [Hs' Hor].
  split; [by etrans|]. rewrite masters_app. replace (masters cs) with 0%nat by lia.
  destruct Hor as [?|[? Hc]]; [by left|right; split; [done|]].
  by eapply claimed_extend; [exact Hs|exact Hc|].
Qed.
Lemma licensed_before sid pid g {A B} (m : W A) (f : A → W B) :
  licensed sid pid g m → (∀ a, starting 0 (f a)) → licensed sid pid g (m ≫= f).
Proof.
  intros Hm Hf w. eapply yields_bind; [apply Hm|by intros e w1 cs|].
  intros a w1 cs [Hs Hor]. eapply yields_weaken; [apply Hf|]. intros r w2 cs' [Hs' Hn].
  split; [by etrans|]. rewrite masters_app. replace (masters cs') with 0%nat by lia.
  rewrite Nat.add_0_r. destruct Hor as [?|[? Hc]]; [by left|right; split; [done|]].
  by eapply claimed_extend; [|exact Hc|exact Hs'].
Qed.
Lemma licensed_try sid pid g {A} (m : W A) : licensed sid pid g m → licensed sid pid g (w_try m).
Proof.
  intros Hm w rt. destruct (Hm w rt) as (cs & Ht & HQ). exists cs. unfold w_try.
  by destruct (m rt w) as [[r rt'] w'].
Qed.

Lemma yields_stm {A} w p (m : M CcbdError A) Q :
  (∀ w1, master_moves w.(w_db) w1.(w_db) → Q (m w1).1 (m w1).2 []) → yields w (stm others p m) Q.
Proof.
  intros Hm rt. exists []. rewrite app_nil_r. unfold stm, mbind, W_bind, pause.
  generalize (others_move p rt w) (others_trace p rt w).
  destruct (others p rt w) as [rt1 w1]; cbn. intros Hw Ht. generalize (Hm w1 Hw). by destruct (m w1).
Qed.
Lemma claim_moves sid pid g : respects master_moves (try_claim_master_transition sid pid g).
Proof. moves. Qed.

(** A claim that was granted licenses one start. *)
Lemma claim_grants sid pid g w :
  yields w (claim_master_revive_generation cx others sid pid g) (λ r w' cs,
    master_moves w.(w_db) w'.(w_db) ∧ (masters cs ≤ 0)%nat ∧
    ∀ g', r = Ok (Some g') → claimed sid pid g w w').
Proof.
  unfold claim_master_revive_generation. eapply yields_bind.
  - apply (yields_stm w 39 _ (λ r w' cs, master_moves w.(w_db) w'.(w_db) ∧ masters cs = 0%nat ∧
      (r = Ok Claimed → claimed sid pid g w w'))).
    intros w1 Hm. pose proof (claim_moves sid pid g w1) as Hm2.
    destruct (try_claim_master_transition sid pid g w1) as [r w2] eqn:Hc; cbn in *.
    split_and!; [by etrans|done|]. intros ->. by exists w1, w2.
  - intros e w1 cs (? & ? & _). split_and!; [done|lia|by intros].
  - intros a w1 cs (Hm & Hn & Hc).
    assert (Hrefused : yields w1 (mark_phase cx others 40 sid g "FAILED";; mret (None : option Z))
      (λ r w2 cs', master_moves w.(w_db) w2.(w_db) ∧ (masters (cs ++ cs') ≤ 0)%nat ∧
        ∀ g', r = Ok (Some g') → claimed sid pid g w w2)).
    { eapply yields_bind; [apply starting_mark| |].
      - intros e w2 cs' [? ?]. split_and!; [by etrans|rewrite masters_app; lia|by intros].
      - intros b w2 cs' [? ?] rt. exists []. rewrite !app_nil_r.
        split_and!; [done|by etrans|rewrite masters_app; lia|by intros]. }
    destruct a; [|exact Hrefused|exact Hrefused].
    intros rt. exists []. rewrite !app_nil_r. split_and!; [done|done|lia|]. intros _ _. by apply Hc.
Qed.

Lemma licensed_start sid pid g cmd ids :
  licensed sid pid g (start_replacement cx others sid pid g cmd ids).
Proof.
  intros w. unfold start_replacement. eapply yields_bind; [apply claim_grants| |].
  - intros e w1 cs (? & ? & _). split; [done|left; lia].
  - intros [g'|] w1 cs (Hm & Hn & Hc); cycle 1.
    { intros rt. exists []. rewrite !app_nil_r. split_and!; [done|done|left; lia]. }
    assert (Hgo : starting 1 (go_on ← record_master_revive_spawn_attempt cx others sid pid g g';
      if negb go_on then mret tt
      else marker ← write_redispatch_marker_for_master_revive cx sid pid g g' ids;
           spawned ← spawn_replacement_master_pane cx others sid cmd marker;
           finish_revival cx others sid g g' cmd spawned)).
    { apply calm_then; [calm|intros go_on]. destruct (negb go_on); [apply starting_more; calm|].
      apply calm_then; [calm|intros marker].
      apply (starting_bind 1 0); [apply starting_spawn|intros spawned; calm]. }
    eapply yields_weaken; [apply Hgo|]. intros r w2 cs' [Hm' Hn']. split; [by etrans|].
    rewrite masters_app. destruct (masters cs') as [|[|]] eqn:Hcs; [left; lia| |lia].
    right. split; [lia|]. by eapply claimed_extend; [|apply (Hc g')|exact Hm'].
Qed.

Lemma licensed_death sid pid g cmd :
  licensed sid pid g (handle_master_death_detected cx others sid pid g cmd).
Proof.
  unfold handle_master_death_detected, revive_master_after_exit_locked,
    revive_master_after_exit_windowed.
  apply licensed_then; [calm|]. intros [| |]; [|apply licensed_calm; calm..].
  apply licensed_before; [|intros []; [apply starting_ret|calm]].
  apply licensed_try. apply licensed_then; [calm|intros snapshot].
  do 3 (apply licensed_then; [calm|intros ?]).
  destruct (sn_classification snapshot); [|apply licensed_calm; calm].
  do 2 (apply licensed_then; [calm|intros ?]).
  case_match; [apply licensed_calm; calm|apply licensed_start].
Qed.


End Claims.

(** ** Settling the window *)

Definition session_over (sid : string) (db : Db) : Prop :=
  ∀ s, db.(sessions) !! sid = Some s → s.(s_status) ≠ "ACTIVE".
(** The death at generation [g] is not pending: the session ended, or its window
    is at another generation or in a terminal phase. *)
Definition death_settled (sid : string) (g : Z) (db : Db) : Prop :=
  session_over sid db ∨
  ∀ r, db.(recovery_windows) !! sid = Some r → r.(m_expected_generation) = g →
    is_terminal_phase r.(m_phase) = true.

Section Settling.
Context {EXT : Externals} {GX : GatewayExternals} {SPEC : SpawnSpecSerde} {SERDE : SpawnParamsSerde}.
Context {RX : RegexCaptures}.
Context {T : Type} {TX : TmuxExec T}.
Variables (cx : WatchCtx) (others : nat → WatchRuntime T → World → WatchRuntime T * World).
Variables (sid : string) (g : Z).
Hypothesis others_settled : ∀ p rt w,
  death_settled sid g w.(w_db) → death_settled sid g (others p rt w).2.(w_db).

#[local] Existing Instances W_ret W_bind.

(** From worlds in [P], the runs of [m] that succeed end in [Q]. *)
Definition hoare {A} (P : Db → Prop) (m : W (T := T) A) (Q : A → Db → Prop) : Prop :=
  ∀ rt w, P w.(w_db) → match m rt w with (Ok a, _, w') => Q a w'.(w_db) | _ => True end.
Notation anything := (λ _ : Db, True).
Notation done_ := (death_settled sid g).

Lemma hoare_bind {A B} P R Q (m : W A) (f : A → W B) :
  hoare P m R → (∀ a, hoare (R a) (f a) Q) → hoare P (m ≫= f) Q.
Proof.
  intros Hm Hf rt w HP. generalize (Hm rt w HP). unfold mbind, W_bind.
  destruct (m rt w) as [[[a|] rt1] w1]; [|done]. apply Hf.
Qed.
Lemma hoare_any {A} P (m : W A) : hoare P m (λ _, anything).
Proof. intros rt w _. by destruct (m rt w) as [[[] ?] ?]. Qed.
Lemma hoare_ret {A} P (a : A) : hoare P (mret a) (λ _, P).
Proof. by intros rt w. Qed.
Lemma hoare_throw {A} P e Q : hoare P (w_throw e : W A) Q.
Proof. by intros rt w. Qed.
(** What comes first does not matter. *)
Lemma hoare_last {A B} P Q (m : W A) (f : A → W B) :
  (∀ a, hoare anything (f a) Q) → hoare P (m ≫= f) Q.
Proof. intros Hf. eapply hoare_bind; [apply hoare_any|exact Hf]. Qed.

Definition stays {A} (m : W (T := T) A) : Prop :=
  ∀ rt w, done_ w.(w_db) → done_ (m rt w).2.(w_db).
Lemma stays_bind {A B} (m : W A) (f : A → W B) :
  stays m → (∀ a, stays (f a)) → stays (m ≫= f).
Proof.
  intros Hm Hf rt w Hw. generalize (Hm rt w Hw). unfold mbind, W_bind.
  destruct (m rt w) as [[[a|] rt1] w1]; [|done]. apply Hf.
Qed.
Lemma stays_same {A} (m : W A) : (∀ rt w, (m rt w).2 = w) → stays m.
Proof. intros Hm rt w Hw. by rewrite Hm. Qed.
Lemma stays_pause p : stays (pause others p).
Proof.
  intros rt w Hw. unfold pause. generalize (others_settled p rt w Hw). by destruct (others p rt w).
Qed.
Lemma stays_gets {A} p (f : Db → A) : stays (stm others p (gets f)).
Proof. apply stays_bind; [apply stays_pause|intros _]. by apply stays_same. Qed.
Lemma stays_tmux {A} p (m : Tm (T := T) A) : stays (tmux others p m).
Proof.
  apply stays_bind; [apply stays_pause|intros _]. apply stays_same. intros rt w. by destruct (m _).
Qed.
Lemma stays_try {A} (m : W A) : stays m → stays (w_try m).
Proof. intros Hm rt w Hw. generalize (Hm rt w Hw). unfold w_try. by destruct (m rt w) as [[]]. Qed.
Lemma hoare_stays {A B} Q (m : W A) (f : A → W B) :
  stays m → (∀ a, hoare done_ (f a) Q) → hoare done_ (m ≫= f) Q.
Proof.
  intros Hm. apply hoare_bind. intros rt w Hw. generalize (Hm rt w Hw).
  by destruct (m rt w) as [[[]]].
Qed.

Lemma stays_reap target : stays (reap_failed_revive_master cx others sid target).
Proof.
  unfold reap_failed_revive_master, reap_failed_revive_master_runtime,
    reap_claimed_revive_master_after_error_best_effort, reap_failed_revive_master_runtime,
    reap_failed_revive_master_process_and_watch_best_effort, sigkill_failed_revive_master_process,
    remove_master_monitor_key_if_generation_matches, monitor_contains,
    master_runtime_generation_matches, query_session_master_runtime_for_generation.
  repeat first
    [ apply stays_gets | apply stays_tmux | apply stays_try | apply stays_bind; [|intros ?]
    | case_match | by apply stays_same ].
Qed.

(** A statement whose own success settles the window. *)
Lemma hoare_stm {A} P p (m : M CcbdError A) Q :
  (∀ w a w', m w = (Ok a, w') → Q a w'.(w_db)) → hoare P (stm others p m) Q.
Proof.
  intros Hm. apply hoare_last. intros _ rt w _. destruct (m w) as [[a|e] w'] eqn:He; [|done].
  by apply (Hm w a w').
Qed.

Lemma update_window_done guard f w a w' :
  update_window sid guard f w = (Ok a, w') →
  (∀ r, r.(m_expected_generation) = g → guard r = true) →
  (∀ r, (f r).(m_expected_generation) = r.(m_expected_generation)) →
  (∀ r, is_terminal_phase (f r).(m_phase) = true) → done_ w'.(w_db).
Proof.
  unfold update_window. intros Hu Hg Hf Ht. right. intros r.
  destruct (recovery_windows _ !! sid) as [r0|] eqn:Hr0; [|injection Hu as _ <-; by rewrite Hr0].
  destruct (guard r0) eqn:Hg0; [destruct (_ is_in _); [|done]|]; injection Hu as _ <-.
  - cbn [w_db set_db recovery_windows set_recovery_windows]. rewrite lookup_insert_eq.
    intros [= <-] _. apply Ht.
  - rewrite Hr0. intros [= <-] Hgen. by rewrite Hg in Hg0.
Qed.

Lemma map_err_inv {E E' A} (f : E → E') (m : M E A) w a w' :
  map_err f m w = (Ok a, w') → m w = (Ok a, w').
Proof. unfold map_err. destruct (m w) as [[]]; [|done]. by intros [= -> ->]. Qed.
Lemma bind_ok_inv {E A B} (m : M E A) (f : A → M E B) w b w' :
  (m ≫= f) w = (Ok b, w') → ∃ a w1, m w = (Ok a, w1) ∧ f a w1 = (Ok b, w').
Proof. unfold mbind, M_bind. destruct (m w) as [[a|] w1]; [|done]. eauto. Qed.

Lemma complete_done P p now :
  hoare P (stm others p (complete_master_recovery_window_sync sid g now)) (λ _, done_).
Proof.
  apply hoare_stm. intros w a w' (n & w1 & Hu%map_err_inv & [= _ <-])%bind_ok_inv.
  eapply update_window_done; [exact Hu|cbn; intros; by apply Z.eqb_eq|done|done].
Qed.

(** Marking a terminal phase never fails. *)
Lemma phase_run env phase now w :
  is_terminal_phase phase = true →
  ∃ b w', mark_master_recovery_phase env sid g phase now w = (Ok b, w') ∧ done_ w'.(w_db).
Proof.
  intros Hp. unfold mark_master_recovery_phase, update_master_recovery_phase_sync, query_window_in_tx.
  destruct (w.(w_db).(recovery_windows) !! sid) as [r|] eqn:Hr.
  2: { exists false, w. split; [|right; by rewrite Hr].
       apply transaction_ok. rewrite bind_gets. cbv beta. by rewrite Hr. }
  destruct (Z.eq_dec r.(m_expected_generation) g) as [Hg|Hg].
  - eexists (1%nat == 1%nat), _. split.
    + apply transaction_ok. rewrite bind_gets. cbv beta. rewrite Hr. cbn [fmap option_fmap option_map].
      cbv zeta. cbn [window_view mw_expected_generation]. rewrite (proj2 (Z.eqb_eq _ _) Hg). cbn [negb].
      erewrite bind_ok; [reflexivity|]. apply map_err_ok, update_window_hit; [exact Hr|by apply Z.eqb_eq|].
      cbn. revert Hp. unfold is_terminal_phase. rewrite !bool_decide_eq_true. set_solver.
    + right. intros r'. unfold put_window. cbn [w_db set_db recovery_windows set_recovery_windows].
      rewrite lookup_insert_eq. by intros [= <-] _.
  - exists false, w. split; [|right; rewrite Hr; by intros ? [= <-]].
    apply transaction_ok. rewrite bind_gets. cbv beta. rewrite Hr. cbn [fmap option_fmap option_map].
    cbn [window_view mw_expected_generation]. by rewrite (proj2 (Z.eqb_neq _ _) Hg).
Qed.

Lemma mark_run p phase rt w :
  is_terminal_phase phase = true →
  ∃ b rt' w', mark_phase cx others p sid g phase rt w = (Ok b, rt', w') ∧ done_ w'.(w_db).
Proof.
  intros Hp. unfold mark_phase, stm, mbind, W_bind, clock, pause.
  destruct (others p rt w) as [rt1 w1].
  destruct (phase_run cx.(mx_defer_env) phase w.(w_now) w1 Hp) as (b & w2 & Hm & Hd).
  exists b, rt1, w2. by rewrite Hm.
Qed.
Lemma mark_done P p phase :
  is_terminal_phase phase = true → hoare P (mark_phase cx others p sid g phase) (λ _, done_).
Proof.
  intros Hp rt w _. by destruct (mark_run p phase rt w Hp) as (b & rt' & w' & -> & Hd).
Qed.
Lemma mark_ret {A} P p phase (a : A) Q :
  is_terminal_phase phase = true → (∀ db, done_ db → Q a db) →
  hoare P (mark_phase cx others p sid g phase;; mret a) Q.
Proof.
  intros Hp HQ. eapply hoare_bind; [by apply mark_done|]. intros _ rt w Hw. by apply HQ.
Qed.

(** The cascade leaves no active session. *)
Lemma cascade_done host reason marker runner w a w' :
  cascade_kill_session_agents_with_runner_sync host sid reason marker runner w = (Ok a, w') →
  session_over sid w'.(w_db).
Proof.
  unfold cascade_kill_session_agents_with_runner_sync.
  intros (n & w1 & Hu & Hrest)%bind_ok_inv.
  assert (Hw1 : session_over sid w1.(w_db)).
  { rewrite update_session_run in Hu.
    destruct (session_where _ sid w.(w_db)) as [s|] eqn:Hs; injection Hu as _ <-.
    - intros s'. rewrite put_session_lookup. by intros [= <-].
    - intros s Hs' Hact. unfold session_where in Hs. rewrite Hs' in Hs. cbn in Hs.
      by rewrite (bool_decide_true _ Hact) in Hs. }
  destruct (w1.(w_db).(sessions) !! sid) as [s|] eqn:Hs.
  - match type of Hrest with ?m w1 = _ => assert (respects master_moves m) as Hm end.
    { apply sound_moves. unfold stop_agent_scopes_with_runner, stop_session_anchor_with_runner.
      solve_respects; eauto using sound_cascade_kill with respects. }
    specialize (Hm w1). rewrite Hrest in Hm.
    destruct (mev_sessions _ _ Hm sid s Hs) as (s2 & Hs2 & Hev). intros s'.
    change (sessions (w_db w') !! sid = Some s2) in Hs2. cbn. rewrite Hs2. intros [= <-].
    by apply (sev_ended _ _ Hev), Hw1.
  - revert Hrest Hu. rewrite update_session_run.
    destruct (session_where _ sid w.(w_db)) as [s|] eqn:Hsw; intros Hrest [= <- <-].
    { by rewrite put_session_lookup in Hs. }
    revert Hrest. rewrite (bind_ok _ _ _ tt w) //. cbv beta. rewrite bind_gets. cbv beta. rewrite Hs.
    cbn. by intros [= _ <-].
Qed.

Lemma fail_done P wg reason cascade pid rg pane :
  hoare P (fail_readiness_then_cascade_and_reap cx others sid wg reason cascade pid rg pane)
    (λ _, done_).
Proof.
  unfold fail_readiness_then_cascade_and_reap. do 3 (apply hoare_last; intros ?).
  apply hoare_bind with (R := λ _, done_);
    [apply hoare_stm; intros w n w' Hc; left; exact (cascade_done _ _ _ _ _ _ _ Hc)|].
  intros n rt w Hw. generalize (stays_reap (RuntimeGeneration pid rg pane) rt w Hw).
  by destruct (reap_failed_revive_master _ _ _ _ rt w) as [[[]]].
Qed.

Lemma resume_done P pid rg pane token check :
  hoare P (resume_master_recovery_readiness cx others sid pid rg g pane token check) (λ _, done_).
Proof.
  unfold resume_master_recovery_readiness. cbv zeta. do 3 (apply hoare_last; intros ?).
  case_match; [apply fail_done|]. apply hoare_last; intros ready.
  destruct (negb ready); [apply fail_done|]. do 4 (apply hoare_last; intros ?).
  apply hoare_last; intros gate. destruct (negb gate); [apply fail_done|].
  apply hoare_last; intros now. eapply hoare_bind; [apply complete_done|].
  intros b. apply hoare_ret.
Qed.

Lemma finish_done P g' cmd spawned :
  hoare P (finish_revival cx others sid g g' cmd spawned) (λ _, done_).
Proof.
  unfold finish_revival. apply hoare_last. intros [outcome|].
  - do 4 (apply hoare_last; intros ?). eapply hoare_bind; [apply resume_done|]. by intros [] rt w.
  - apply hoare_last. intros _. by apply mark_ret.
Qed.

Lemma start_done P pid cmd ids :
  hoare P (start_replacement cx others sid pid g cmd ids) (λ _, done_).
Proof.
  unfold start_replacement, claim_master_revive_generation, record_master_revive_spawn_attempt.
  eapply hoare_bind with (R := λ c db, match c with None => done_ db | Some _ => True end).
  { apply hoare_last. intros []; [by intros rt w|by apply mark_ret..]. }
  intros [g'|]; [|by intros rt w].
  eapply hoare_bind with (R := λ b db, b = false → done_ db).
  { do 2 (apply hoare_last; intros ?). case_match; [|by apply mark_ret..].
    apply hoare_last. intros _. by intros rt w. }
  intros []; cbn [negb]; [|by intros rt w Hw; apply Hw].
  do 2 (apply hoare_last; intros ?). apply finish_done.
Qed.

Lemma windowed_done P pid cmd :
  hoare P (revive_master_after_exit_windowed cx others sid pid g cmd) (λ _, done_).
Proof.
  unfold revive_master_after_exit_windowed, wait_for_master_revive_retry_backoff.
  apply hoare_last; intros snapshot. do 3 (apply hoare_last; intros ?).
  destruct (sn_classification snapshot).
  2: { unfold close_idle_master_death_without_revive. apply hoare_last. intros _. by apply mark_ret. }
  apply hoare_last; intros _. eapply hoare_bind with (R := λ b db, b = false → done_ db).
  { do 2 (apply hoare_last; intros ?). repeat case_match; [apply hoare_last; intros []|..];
      first [by apply mark_ret | by intros rt w]. }
  intros []; cbn [negb]; [apply start_done|by intros rt w Hw; apply Hw].
Qed.

(** C13: no death of a master is left pending.  Whatever the other tasks do, short
    of reopening it themselves, and whatever became of the replacement, when
    [revive_master_after_exit_locked] returns, with an answer or an error, the
    session has ended, or its recovery window is in a terminal phase or was
    opened by another death. *)
Theorem revival_settles pid cmd rt w :
  let '(r, rt', w') := revive_master_after_exit_locked cx others sid pid g cmd rt w in
  death_settled sid g w'.(w_db).
Proof.
  unfold revive_master_after_exit_locked, mbind, W_bind, w_try.
  generalize (windowed_done anything pid cmd rt w I).
  destruct (revive_master_after_exit_windowed _ _ _ _ _ _ rt w) as [[[u|err] rt1] w1]; [done|].
  intros _. destruct (mark_run 52 "FAILED" rt1 w1 eq_refl) as (b & rt2 & w2 & -> & Hd).
  generalize (stays_reap (ClaimedGeneration (g + 1)) rt2 w2 Hd).
  by destruct (reap_failed_revive_master _ _ _ _ rt2 w2) as [[[]]].
Qed.

End Settling.

(** ** What the revival does not do *)

Section Lapses.
Context {EXT : Externals} {GX : GatewayExternals} {SPEC : SpawnSpecSerde} {SERDE : SpawnParamsSerde}.
Context {RX : RegexCaptures}.
Context {T : Type} {TX : TmuxExec T}.
Variables (cx : WatchCtx) (others : nat → WatchRuntime T → World → WatchRuntime T * World).

#[local] Existing Instances W_ret W_bind.

(** Once the workers are being brought back, a timeout no longer fails the
    window: [resume_master_recovery_readiness] records neither phase nor reason. *)
Lemma worker_timeout_leaves_window sid g reason now w r :
  w.(w_db).(recovery_windows) !! sid = Some r → r.(m_phase) = "WORKERS_REPROVISIONING" →
  fail_master_recovery_readiness_sync sid g reason now w = (Ok false, w).
Proof.
  intros Hr Hp. unfold fail_master_recovery_readiness_sync.
  rewrite (bind_ok _ _ _ 0%nat w) //. apply map_err_ok. unfold update_window.
  by rewrite Hr Hp andb_false_r.
Qed.

Lemma w_bind_ok {A B} (m : W (T := T) A) (f : A → W B) rt w a rt' w' :
  m rt w = (Ok a, rt', w') → (m ≫= f) rt w = f a rt' w'.
Proof. intros Hm. unfold mbind, W_bind. by rewrite Hm. Qed.

Lemma kill_by_pid sid pid g (rt : WatchRuntime T) w :
  fits_i32 pid = true → master_monitor_key sid g ∉ rt.(wr_monitors) →
  ∃ rt', reap_failed_revive_master_process_and_watch_best_effort sid pid g rt w = (Ok tt, rt', w) ∧
    wr_signals rt' = wr_signals rt ++ [SignalPid pid].
Proof.
  intros Hp Hk. unfold reap_failed_revive_master_process_and_watch_best_effort,
    sigkill_failed_revive_master_process, remove_master_monitor_key_if_generation_matches,
    monitor_contains, get_wr, w_try, mbind, W_bind. cbn.
  rewrite (bool_decide_false _ Hk) Hp. cbn. destruct (mh_sigkill_pid _ _); by eexists.
Qed.

(** The row of a claimed generation still has the dead master's process: a
    revival that fails before its replacement is recorded sends SIGKILL to that
    process id, whose process ended. *)
Lemma failed_claim_signals_dead_pid sid pid g w w1 (rt : WatchRuntime T) :
  try_claim_master_transition sid pid g w = (Ok Claimed, w1) → fits_i32 pid = true →
  master_monitor_key sid (g + 1) ∉ rt.(wr_monitors) →
  (∀ p rt w, others p rt w = (rt, w)) →
  let '(_, rt', _) := reap_failed_revive_master cx others sid (ClaimedGeneration (g + 1)) rt w1 in
  wr_signals rt' = wr_signals rt ++ [SignalPid pid].
Proof.
  intros Hc Hpid Hkey Ho. rewrite claim_run in Hc.
  destruct (session_where _ sid w.(w_db)) as [s|] eqn:Hs; [|done]. injection Hc as <-.
  apply session_where_Some in Hs as [Hs (Hst & Hp & Hg)%master_is_spec].
  set (w1 := put_session sid (next_generation s) w).
  assert (Hstm : ∀ A n (f : Db → A), w_try (stm others n (gets f)) rt w1 = (Ok (Ok (f w1.(w_db))), rt, w1))
    by (intros; unfold w_try, stm, pause, mbind, W_bind; by rewrite Ho).
  assert (Hgen : (next_generation s).(s_master_generation) =? g + 1 = true)
    by (cbn; apply Z.eqb_eq; lia).
  destruct (kill_by_pid sid pid (g + 1) rt w1 Hpid Hkey) as (rt' & Hkill & Hsig).
  cbn [reap_failed_revive_master]. unfold reap_claimed_revive_master_after_error_best_effort.
  rewrite (w_bind_ok _ _ _ _ _ _ _ (Hstm _ _ _)). unfold session_where, w1. rewrite put_session_lookup.
  cbn [mbind option_bind]. fold w1. cbn [from_option]. rewrite Hgen. cbn. rewrite Hp.
  destruct (match s.(s_master_pane_id) with Some p => pane_id_of p | None => Err TmuxNotFound end);
    [|by rewrite Hkill].
  rewrite (w_bind_ok _ _ _ _ _ _ _ (Hstm _ _ _)). unfold session_where, w1. rewrite put_session_lookup.
  fold w1. cbn [mbind option_bind]. rewrite Hgen. cbn. rewrite Hp Z.eqb_refl. cbn.
  rewrite (w_bind_ok _ _ _ _ _ _ _ Hkill). unfold w_try, tmux, pause, mbind, W_bind. rewrite Ho. cbn.
  by destruct (kill_pane_if_owned_sync _ _ _ _).
Qed.

(** Any failure to open a pidfd, a full descriptor table too, is taken by the
    patrol for the death of a master that is being watched. *)
Lemma patrol_trusts_pidfd row e rt w rt1 w1 :
  others 58 rt w = (rt1, w1) →
  master_monitor_key row.(aw_session_id) row.(aw_master_generation) ∈ rt1.(wr_monitors) →
  rt1.(wr_host).(mh_pidfd_open) row.(aw_master_pid) = Err e →
  patrol_master cx others row rt w =
  route_death cx others row (resolve_master_cmd_for_watch cx row) rt1 w1.
Proof.
  intros Ho Hk He. unfold patrol_master, monitor_contains, master_is_alive, get_wr, pause, mbind, W_bind.
  rewrite Ho. cbn. rewrite (bool_decide_true _ Hk). cbn. unfold master_process_is_alive.
  by rewrite He andb_false_r.
Qed.

End Lapses.
