(* ===== verification/RequestProofs.v ===== *)
(** * What the requests on agents promise

    A command of [agent.send] is typed at most once however often its request is
    repeated, and only into an agent that was taken for it and after it was
    recorded.  A waiter of [job.wait] is answered with the job as it was at its
    last look, and an update that follows the end of the job wakes it. *)
From S2P Require Import Prelude Json Schema Sql MasterTables JobGate Invariant AgentGate Text ReplyText Jobs Completion.
From S2P Require Import Evidence StateMachine Agents Events EventsProofs LogReader Providers Sessions Recovery Lifecycle Startup.
From S2P Require Import PromptCases PromptRunner Tmux AgentIo SessionHandlers Gateway Spawn Tasks AgentSpawn AgentRequests JobRequests.

(** ** Recorded requests *)

Definition request_ids (db : Db) : list (string * option string) :=
  (λ e, (e.(e_agent_id), e.(e_request_id))) <$> db.(events).
Definition requests_kept : relation Db := λ db db', request_ids db `prefix_of` request_ids db'.
Definition recorded (agent_id request_id : string) (db : Db) : Prop :=
  (agent_id, Some request_id) ∈ request_ids db.

#[global] Instance requests_kept_preorder : PreOrder requests_kept.
Proof. unfold requests_kept. split; [by intros db|]. intros x y z Hxy Hyz. by etrans. Qed.

Lemma evolves_requests db db' : evolves db db' → requests_kept db db'.
Proof.
  intros Hev. destruct (ev_events _ _ Hev) as [k Hk]. unfold requests_kept, request_ids.
  rewrite Hk fmap_app. by apply prefix_app_r.
Qed.
Lemma sound_requests {E A} (m : M E A) : respects sound m → respects requests_kept m.
Proof. apply respects_weaken. intros x y [Hev _]. by apply evolves_requests. Qed.
Lemma recorded_kept agent_id rq db db' :
  requests_kept db db' → recorded agent_id rq db → recorded agent_id rq db'.
Proof. intros [k Hk] Hr. unfold recorded. rewrite Hk elem_of_app. by left. Qed.
Lemma recorded_found agent_id rq db : recorded agent_id rq db → is_Some (event_by_request agent_id rq db).
Proof.
  intros (e & [= Ha Hr] & He)%list_elem_of_fmap. rewrite event_by_request_find.
  destruct (filter _ _) as [|e' l] eqn:Hf; [|by eexists]. exfalso.
  assert (Hin : e ∈ filter (λ e, has_request agent_id rq e = true) db.(events)).
  { apply list_elem_of_filter. unfold has_request. by rewrite -Ha -Hr !bool_decide_true. }
  rewrite Hf in Hin. by apply elem_of_nil in Hin.
Qed.
Lemma insert_event_records {EXT : Externals} agent_id rq ty payload w seq w' :
  insert_event_sync agent_id (Some rq) ty payload w = (Ok seq, w') → recorded agent_id rq w'.(w_db).
Proof.
  unfold insert_event_sync, mbind, M_bind, try_. rewrite insert_row_run.
  destruct (event_idempotency_taken _ _ _); [by unfold gets; cbn; destruct (event_by_request _ _ _)|].
  destruct (agents _ !! _); [|done]. cbv zeta. intros [= _ <-]. unfold recorded, request_ids. cbn.
  rewrite fmap_app. set_solver.
Qed.
Lemma kept_progress {EXT : Externals} seq payload agent_id ok :
  respects requests_kept (record_send_progress_sync seq payload agent_id ok).
Proof.
  intros w.
  change ((record_send_progress_sync seq payload agent_id ok w).2.(w_db))
    with (set_events (set_event_payload seq (json_to_string payload) <$> w.(w_db).(events)) w.(w_db)).
  enough (request_ids w.(w_db) = request_ids (set_events
    (set_event_payload seq (json_to_string payload) <$> w.(w_db).(events)) w.(w_db))) as Heq.
  { unfold requests_kept. by rewrite -Heq. }
  unfold request_ids. cbn. rewrite -list_fmap_compose. apply list_fmap_ext.
  intros i e _. cbn. unfold set_event_payload. by destruct (_ =? _).
Qed.

(** ** Sending a command *)

(** A command that puts keys or text into a pane, or a text into a buffer for it. *)
Definition types (c : TmuxCommand) : bool :=
  match c.(tc_args) !! 2%nat with
  | Some word => word is_in ["send-keys"; "load-buffer"; "paste-buffer"]
  | None => false
  end.
Notation silent := (Forall (λ c, types c = false)).

Section Send.
Context {EXT : Externals}.
Context {T : Type} {TX : TmuxExec T}.
Variables (cx : WatchCtx) (others : nat → WatchRuntime T → World → WatchRuntime T * World).
Hypothesis others_keep : ∀ p rt w, requests_kept w.(w_db) (others p rt w).2.(w_db).
Hypothesis others_trace : ∀ p rt w,
  tm_trace (wr_terminal (others p rt w).1) = tm_trace (wr_terminal rt).

#[local] Existing Instances W_ret W_bind.

Definition kept_by : relation (WatchRuntime T * World) :=
  λ x y, requests_kept x.2.(w_db) y.2.(w_db).
#[local] Instance kept_by_preorder : PreOrder kept_by.
Proof. unfold kept_by. split; [by intros []|]. intros x y z Hxy Hyz. by etrans. Qed.

Notation calm m := (steady kept_by (λ c, types c = false) m).

Lemma kept_pause p : calm (pause others p).
Proof. by apply steady_pause. Qed.
Lemma kept_stm {A} p (m : M CcbdError A) : respects requests_kept m → calm (stm others p m).
Proof. intros Hm. apply steady_stm; [apply _|done..|]. intros rt w. apply Hm. Qed.
Lemma kept_tmux {A} p (m : Tm (T := T) A) :
  appends m (λ _ cs, silent cs) → calm (tmux others p m).
Proof. intros Hm. apply steady_tmux; [apply _|done|done| |done]. intros t rt w. unfold kept_by. reflexivity. Qed.
Lemma kept_modify (f : WatchRuntime T → WatchRuntime T) :
  (∀ rt, wr_terminal (f rt) = wr_terminal rt) → calm (modify_wr f).
Proof. intros Hf. apply steady_modify. intros rt w. split; [apply Hf|]. unfold kept_by. reflexivity. Qed.

#[local] Ltac calm :=
  cbv zeta;
  repeat first
    [ apply steady_ret, _ | apply steady_throw, _ | apply steady_of_result, _ | apply steady_get, _
    | apply kept_pause
    | apply kept_stm; solve [apply kept_progress | apply sound_requests; solve_respects; eauto with respects]
    | apply kept_modify; done
    | apply steady_try
    | apply steady_bind; [apply _| |intros ?]
    | match goal with |- steady _ _ (match ?x with _ => _ end) => destruct x end ].

Lemma calm_existing p agent_id : calm (existing_agent others p agent_id).
Proof. unfold existing_agent, query_agent_sync, query_agent_row. calm. Qed.
Lemma calm_repeated agent_id rq : calm (repeated_send others agent_id rq).
Proof. unfold repeated_send, query_event_by_request_id_sync, query_agent_state_sync. calm. Qed.

(** The agent was taken from IDLE for the command, and then the command recorded. *)
Definition taken_and_recorded (agent_id : string) (request_id : option string) (text : string)
    (w w' : World) : Prop :=
  ∃ version w1 w2 w3 seq_id w4,
    requests_kept w.(w_db) w1.(w_db) ∧
    mark_agent_waiting_for_ack agent_id version w1 = (Ok true, w2) ∧
    requests_kept w2.(w_db) w3.(w_db) ∧
    insert_event agent_id request_id "command_received"
      (json_to_string (command_payload text "PENDING")) w3 = (Ok seq_id, w4) ∧
    requests_kept w4.(w_db) w'.(w_db).

(** Besides looking, the commands are those of one typing of the text. *)
Definition typed_once (agent_id text : string) (cs : list TmuxCommand) : Prop :=
  ∃ looks typed rest pane press t r t',
    cs = looks ++ typed ++ rest ∧ silent looks ∧ silent rest ∧
    send_text_to_pane_with_options (T := T) cx.(mx_server) cx.(mx_second_enter) agent_id pane text press t =
      (r, t') ∧ t'.(tm_trace) = t.(tm_trace) ++ typed.

Lemma kept_terminal t (rt : WatchRuntime T) w : kept_by (rt, w) (set_wr_terminal t rt, w).
Proof. unfold kept_by. reflexivity. Qed.

(** What a part of the request leaves: nothing typed, and [P] of its answer. *)
Notation part w P := (λ r _ w' cs, requests_kept w.(w_db) w'.(w_db) ∧ silent cs ∧ P r w').

Lemma part_steady {A} rt w (m : W (T := T) A) : calm m → leads rt w m (part w (λ _ _, True)).
Proof. intros Hm. eapply leads_weaken; [apply Hm|]. by intros r rt1 w1 cs [HS ?]. Qed.
Lemma part_bind {A B} rt w (m : W (T := T) A) (f : A → W (T := T) B) P Q :
  leads rt w m (part w P) → (∀ e w1, P (Err e) w1 → Q (Err e) w1) →
  (∀ a rt1 w1, requests_kept w.(w_db) w1.(w_db) → P (Ok a) w1 → leads rt1 w1 (f a) (part w1 Q)) →
  leads rt w (m ≫= f) (part w Q).
Proof.
  intros Hm He Hf. eapply leads_bind; [exact Hm|naive_solver|]. intros a rt1 w1 cs (HS & Hq & HP).
  eapply leads_weaken; [by apply Hf|]. intros r rt2 w2 cs' (HS' & Hq' & HQ).
  split_and!; [by etrans|by apply Forall_app|done].
Qed.
Lemma part_stm {A} rt w p (m : M CcbdError A) :
  respects requests_kept m → leads rt w (stm others p m)
    (part w (λ r w', ∃ w1, requests_kept w.(w_db) w1.(w_db) ∧ m w1 = (r, w'))).
Proof.
  intros Hm. eapply leads_weaken; [by apply (leads_stm others kept_by)|].
  intros r rt1 w2 cs (-> & w1 & HS & Hrun). split_and!; [|done|by exists w1].
  etrans; [exact HS|]. generalize (Hm w1). by rewrite Hrun.
Qed.

Lemma part_result {A} rt w (r : Result A CcbdError) (P : Result A CcbdError → World → Prop) :
  P r w → leads rt w (w_of_result (T := T) r) (part w P).
Proof. intros HP. by apply leads_silent. Qed.
Lemma part_ret {A} rt w (a : A) (P : Result A CcbdError → World → Prop) :
  P (Ok a) w → leads (T := T) rt w (mret a) (part w P).
Proof. apply (part_result _ _ (Ok a)). Qed.
Lemma part_throw {A} rt w e (P : Result A CcbdError → World → Prop) :
  P (Err e) w → leads (T := T) rt w (w_throw e) (part w P).
Proof. apply (part_result _ _ (Err e)). Qed.

Lemma part_try {A} rt w (m : W (T := T) A) :
  leads rt w m (part w (λ _ _, True)) → leads rt w (w_try m) (part w (λ _ _, True)).
Proof. intros Hm. by eapply leads_try. Qed.

Lemma part_tried {A B} rt w (m : W (T := T) A) (f : Result A CcbdError → W (T := T) B) P Q :
  leads rt w m (part w P) →
  (∀ x rt1 w1, requests_kept w.(w_db) w1.(w_db) → P x w1 → leads rt1 w1 (f x) (part w1 Q)) →
  leads rt w (w_try m ≫= f) (part w Q).
Proof.
  intros Hm Hf. eapply leads_tried; [exact Hm|]. intros x rt1 w1 cs (HS & Hq & HP).
  eapply leads_weaken; [by apply Hf|]. intros r rt2 w2 cs' (HS' & Hq' & HQ).
  split_and!; [by etrans|by apply Forall_app|done].
Qed.

Lemma take_idle_leads rt w agent_id :
  leads rt w (take_idle_agent others agent_id) (part w (λ r w',
    ∀ a, r = Ok a → ∃ w1, requests_kept w.(w_db) w1.(w_db) ∧
      mark_agent_waiting_for_ack agent_id a.(a_state_version) w1 = (Ok true, w'))).
Proof.
  unfold take_idle_agent.
  eapply part_bind; [apply part_steady, calm_existing|by intros|]. intros a rt1 w1 HS _.
  eapply part_bind; [apply part_stm, sound_requests; eauto with respects|by intros|].
  intros [] rt3 w3 HS3 (w2 & HS2 & Hcas).
  - apply part_ret. intros ? [= <-]. exists w2. split; [by etrans|done].
  - eapply part_bind; [by apply part_stm, sound_requests, respects_gets, _|by intros|].
    intros current rt4 w4 _ _. by apply part_throw.
Qed.

Lemma command_leads rt w agent_id rq text state :
  leads rt w (record_command others agent_id rq text state) (part w (λ r w',
    ∀ seq_id, r = Ok (inl seq_id) → ∃ w1, requests_kept w.(w_db) w1.(w_db) ∧
      insert_event agent_id rq "command_received"
        (json_to_string (command_payload text "PENDING")) w1 = (Ok seq_id, w'))).
Proof.
  unfold record_command. set (insertion := insert_event _ _ _ _).
  eapply part_tried; [apply part_stm, sound_requests, sound_insert_event|].
  intros x rt1 w1 HS (w2 & HS2 & Hrun).
  destruct x as [seq|[]]; try by (by apply part_throw).
  - apply part_ret. intros ? [= <-]. eauto.
  - destruct rq as [rq|]; [|by apply part_throw].
    eapply part_bind; [by apply part_stm, sound_requests, respects_gets, _|by intros|].
    intros [e|] rt3 w3 _ _; [|by apply part_throw].
    eapply part_bind; [by eapply (part_result _ _ _ (λ _ _, True))|by intros|]. intros status rt4 w4 _ _.
    destruct (status == "FAILED"); [by apply part_throw|].
    eapply part_bind; [by eapply (part_result _ _ _ (λ _ _, True))|by intros|]. intros v rt5 w5 _ _.
    by apply part_ret.
Qed.

Lemma typing_appends second agent_id pane text press :
  appends (T := T) (send_text_to_pane_with_options cx.(mx_server) second agent_id pane text press)
    (λ _ cs, Forall (λ _, True) cs).
Proof.
  unfold send_text_to_pane_with_options, send_slash_command_keystroke, send_enter_sync,
    send_keys_keysym_sync, load_buffer_sync, paste_buffer_sync, delete_buffer_sync, tmux_run, tmux_output.
  destruct (is_single_line_slash_command text); [|only_allowed].
  apply only_bind; [|intros _; only_allowed].
  induction (chars text) as [|c l IH]; cbn [type_chars]; [apply only_ret|].
  unfold send_keys_literal_sync, tmux_run, tmux_output in *. apply only_bind; [only_allowed|by intros].
Qed.
Lemma calm_capture p pane : calm (tmux others p (capture_pane_sync cx.(mx_server) pane)).
Proof. apply kept_tmux. unfold capture_pane_sync, tmux_output. only_allowed. Qed.

Lemma type_leads rt w a agent_id pane text seq :
  leads rt w (type_command cx others a agent_id pane text seq) (λ _ _ w' cs,
    requests_kept w.(w_db) w'.(w_db) ∧ (silent cs ∨ typed_once agent_id text cs)).
Proof.
  unfold type_command. set (press := should_press_enter_after_paste _ _).
  eapply leads_steady; [apply steady_try, calm_capture|by eauto|].
  intros baseline rt1 w1 looks HS Hq.
  eapply leads_tried; [apply (leads_tmux others kept_by);
    [done|done|apply kept_terminal|apply typing_appends]|].
  intros x rt2 w2 typed (_ & HS2 & t & t' & Hrun & Htr).
  eapply leads_weaken; [apply part_steady; calm|].
  intros r rt3 w3 rest (HS3 & Hrest & _). split; [etrans; [exact HS|]; by etrans|]. right.
  by exists looks, typed, rest, pane, press, t, x, t'.
Qed.

Lemma silent_typed agent_id text cs cs' :
  silent cs → typed_once agent_id text cs' → typed_once agent_id text (cs ++ cs').
Proof.
  intros Hq (looks & typed & rest & pane & press & t & x & t' & -> & Hl & H).
  exists (cs ++ looks), typed, rest, pane, press, t, x, t'.
  split_and!; [by rewrite !app_assoc|by apply Forall_app|apply H..].
Qed.
Lemma typed_silent agent_id text cs cs' :
  typed_once agent_id text cs → silent cs' → typed_once agent_id text (cs ++ cs').
Proof.
  intros (looks & typed & rest & pane & press & t & x & t' & -> & Hl & Hr & H) Hq.
  exists looks, typed, (rest ++ cs'), pane, press, t, x, t'.
  split_and!; [by rewrite -!app_assoc|done|by apply Forall_app|apply H..].
Qed.

(** Nothing is typed, or the command once, and then [G] holds. *)
Notation sends agent_id text w G := (λ _ _ w' cs, requests_kept w.(w_db) w'.(w_db) ∧
  (silent cs ∨ G w' ∧ typed_once agent_id text cs)).

Lemma sends_part {A} rt w (m : W (T := T) A) agent_id text P G :
  leads rt w m (part w P) → leads rt w m (sends agent_id text w G).
Proof. intros Hm. eapply leads_weaken; [exact Hm|]. intros r rt1 w1 cs (? & ? & _). eauto. Qed.
Lemma sends_calm {A} rt w (m : W (T := T) A) agent_id text G :
  calm m → leads rt w m (sends agent_id text w G).
Proof. intros Hm. by eapply sends_part, part_steady. Qed.
Lemma sends_after {A B} rt w (m : W (T := T) A) (f : A → W (T := T) B) agent_id text P G :
  leads rt w m (part w P) →
  (∀ a rt1 w1, requests_kept w.(w_db) w1.(w_db) → P (Ok a) w1 →
     leads rt1 w1 (f a) (sends agent_id text w1 G)) →
  leads rt w (m ≫= f) (sends agent_id text w G).
Proof.
  intros Hm Hf. eapply leads_bind; [exact Hm|naive_solver|]. intros a rt1 w1 cs (HS & Hq & HP).
  eapply leads_weaken; [by apply Hf|]. intros r rt2 w2 cs' (HS' & [Hs|[HG Ht]]); (split; [by etrans|]).
  - left. by apply Forall_app.
  - right. split; [done|]. by apply silent_typed.
Qed.

Lemma send_leads rt w params agent_id text :
  required_str params "agent_id" = Ok agent_id → required_str params "text" = Ok text →
  leads rt w (handle_agent_send cx others params)
    (sends agent_id text w (taken_and_recorded agent_id (get_str "request_id" params) text w)).
Proof.
  intros Hid Htext. unfold handle_agent_send. rewrite Hid Htext. cbv zeta. do 2 apply leads_ok.
  eapply sends_after; [apply part_steady, calm_repeated|]. intros [answer|] rt1 w1 HS1 _.
  { apply sends_calm, steady_ret, _. }
  eapply sends_after; [apply take_idle_leads|]. intros a rt3 w3 HS3 Ha.
  destruct (Ha a eq_refl) as (w2 & HS2 & Hcas).
  eapply sends_after; [apply part_steady, kept_pause|]. intros _ rt4 w4 HS4 _.
  eapply sends_after; [apply part_steady, kept_modify; done|]. intros _ rt5 w5 HS5 _.
  eapply sends_after; [apply part_steady, steady_get, _|]. intros rt' rt6 w6 HS6 _.
  destruct (pane_id _ _) as [pane|]; [|apply sends_calm, steady_throw, _].
  eapply sends_after; [apply command_leads|]. intros [seq|answer] rt7 w7 HS7 Hrec.
  2:{ apply sends_calm, steady_ret, _. }
  destruct (Hrec seq eq_refl) as (w8 & HS8 & Hrun).
  eapply leads_weaken; [apply type_leads|]. intros r rt9 w9 cs (HS9 & Hs). split; [done|].
  destruct Hs as [?|?]; [by left|right]. split; [|done].
  exists a.(a_state_version), w2, w3, w8, seq, w7. split_and!; [by etrans|done| |done..].
  do 3 (etrans; [eassumption|]). exact HS8.
Qed.

(** A request that was recorded types nothing. *)
Lemma recorded_send rt w params agent_id request_id :
  required_str params "agent_id" = Ok agent_id → get_str "request_id" params = Some request_id →
  recorded agent_id request_id w.(w_db) →
  leads rt w (handle_agent_send cx others params) (part w (λ _ _, True)).
Proof.
  intros Hid Hrq Hrec. unfold handle_agent_send. rewrite Hid Hrq. apply leads_ok. cbv zeta.
  eapply part_bind; [by apply (part_result _ _ _ (λ _ _, True))|done|]. intros text rt1 w1 HS1 _.
  eapply (part_bind _ _ _ _ (λ r _, r ≠ Ok None)); [|done|].
  { unfold repeated_send.
    eapply part_bind; [by apply part_stm, sound_requests, respects_gets, _|done|].
    intros e rt2 w2 HS2 (w3 & HS3 & [= <- <-]).
    destruct (recorded_found agent_id request_id w3.(w_db)) as [e He].
    { eapply recorded_kept; [exact HS3|]. by eapply recorded_kept. }
    rewrite He.
    eapply part_bind; [by apply (part_result _ _ _ (λ _ _, True))|done|]. intros status rt4 w4 _ _.
    eapply part_bind; [by apply part_stm, sound_requests, respects_gets, _|done|].
    intros [[state v]|] rt5 w5 _ _; [|by apply part_throw].
    eapply part_bind; [by apply (part_result _ _ _ (λ _ _, True))|done|]. intros answer rt6 w6 _ _.
    by apply part_ret. }
  intros [answer|] rt2 w2 _ Hn; [by apply part_ret|done].
Qed.

(** The requests one after the other, whatever each is answered. *)
Fixpoint send_all (requests : list Value) : W (T := T) unit :=
  match requests with
  | [] => mret tt
  | params :: rest => w_try (handle_agent_send cx others params);; send_all rest
  end.

Lemma taken_earlier agent_id rq text w0 w w' w1 :
  requests_kept w0.(w_db) w.(w_db) → requests_kept w'.(w_db) w1.(w_db) →
  taken_and_recorded agent_id rq text w w' → taken_and_recorded agent_id rq text w0 w1.
Proof.
  intros H0 H1 (version & w2 & w3 & w4 & seq & w5 & HS2 & Hcas & HS4 & Hrun & HS5).
  exists version, w2, w3, w4, seq, w5. split_and!; [by etrans|done..|by etrans].
Qed.
Lemma taken_recorded agent_id request_id text w w' :
  taken_and_recorded agent_id (Some request_id) text w w' → recorded agent_id request_id w'.(w_db).
Proof.
  intros (version & w1 & w2 & w3 & seq & w4 & _ & _ & _ & Hrun & HS). eapply recorded_kept; [exact HS|].
  unfold insert_event, mbind, M_bind in Hrun. cbn [String.eqb bool_decide andb] in Hrun.
  destruct (insert_event_sync _ _ _ _ w3) as [[seq'|e] w5] eqn:Hs; [|done].
  injection Hrun as <- <-. by eapply insert_event_records.
Qed.

Section Repeated.
Context (agent_id request_id : string).

(** A request of this agent with this id. *)
Definition is_repeat (params : Value) : Prop :=
  required_str params "agent_id" = Ok agent_id ∧ get_str "request_id" params = Some request_id.

Lemma send_all_recorded requests rt w :
  Forall is_repeat requests → recorded agent_id request_id w.(w_db) →
  leads rt w (send_all requests) (part w (λ _ _, True)).
Proof.
  intros Hall. induction Hall as [|params rest [Hid Hrq] _ IH] in rt, w |- *; cbn [send_all]; intros Hrec.
  { by apply part_ret. }
  eapply part_bind; [by eapply part_try, recorded_send|done|].
  intros r rt1 w1 HS _. apply IH. by eapply recorded_kept.
Qed.

(** What the requests of a list may have typed. *)
Definition one_of (requests : list Value) (w w' : World) (cs : list TmuxCommand) : Prop :=
  silent cs ∨ ∃ params text, params ∈ requests ∧ required_str params "text" = Ok text ∧
    taken_and_recorded agent_id (Some request_id) text w w' ∧ typed_once agent_id text cs.

Lemma send_all_leads requests rt w :
  Forall is_repeat requests →
  leads rt w (send_all requests) (λ _ _ w' cs, requests_kept w.(w_db) w'.(w_db) ∧ one_of requests w w' cs).
Proof.
  intros Hall. induction Hall as [|params rest [Hid Hrq] Hrest IH] in rt, w |- *; cbn [send_all].
  { apply leads_silent; [done|]. split; [reflexivity|by left]. }
  eapply (leads_bind _ _ _ _ (λ _ _ w1 cs, requests_kept w.(w_db) w1.(w_db) ∧ one_of [params] w w1 cs)).
  - eapply leads_try; [|by intros r rt1 w1 cs H; exact H].
    destruct (required_str params "text") as [text|e] eqn:Htext.
    + eapply leads_weaken; [by apply send_leads|]. rewrite Hrq. intros r rt1 w1 cs (HS & [?|[? ?]]).
      * split; [done|by left].
      * split; [done|right]. exists params, text. split_and!; [set_solver|done..].
    + unfold handle_agent_send. rewrite Hid Htext. apply leads_silent; [done|]. split; [reflexivity|by left].
  - intros e rt1 w1 cs (HS & [?|(p & text & Hp & ?)]); (split; [done|]); [by left|right].
    exists p, text. split; [set_solver|done].
  - intros _ rt1 w1 cs (HS & [Hq|(p & text & ->%list_elem_of_singleton & Htext & Htk & Hty)]).
    + eapply leads_weaken; [apply IH|].
      intros r rt2 w2 cs' (HS' & [Hq'|(p & text & Hp & Htext & Htk & Hty)]); (split; [by etrans|]).
      * left. by apply Forall_app.
      * right. exists p, text. split_and!; [set_solver|done| |by apply silent_typed].
        by eapply taken_earlier; [exact HS|reflexivity|].
    + eapply leads_weaken; [apply send_all_recorded; [done|by eapply taken_recorded]|].
      intros r rt2 w2 cs' (HS' & Hq' & _). split; [by etrans|right].
      exists params, text. split_and!; [set_solver|done| |by apply typed_silent].
      by eapply taken_earlier; [reflexivity|exact HS'|].
Qed.


End Repeated.

End Send.

(** ** Waiting for a job *)

#[local] Instance Broadcast_eq_dec : EqDecision Broadcast.
Proof. solve_decision. Defined.

Section Waiting.
Context {EXT : Externals}.
Context {T : Type} {TX : TmuxExec T}.
Variables (others : nat → WatchRuntime T → World → WatchRuntime T * World) (job_id : string).

#[local] Existing Instances W_ret W_bind.

(** What a look at the job says: not found, its end, or nothing yet. *)
Definition job_seen (db : Db) : Result (option Value) CcbdError :=
  match db.(jobs) !! job_id with
  | None => Err (IpcInvalidRequest ("job_id not found: " +:+ job_id))
  | Some job => Ok (if terminal_status job.(j_status) then Some (job_answer job) else None)
  end.

(** An update after which the waiter looks at the job again. *)
Definition wakes (u : Broadcast) : bool :=
  match u with Received updated => updated == job_id | Lagged => true | Closed => false end.
(** Such an update comes before the end of the subscription. *)
Fixpoint woken (updates : list Broadcast) : bool :=
  match updates with
  | [] | Closed :: _ => false
  | u :: rest => wakes u || woken rest
  end.

Lemma look_run p rt w :
  terminal_job_response others p job_id rt w =
    let '(rt', w') := others p rt w in (job_seen w'.(w_db), rt', w').
Proof.
  unfold terminal_job_response, existing_job, stm, pause, mbind, W_bind, job_seen. cbn.
  destruct (others p rt w) as [rt' w']. cbn. by destruct (jobs (w_db w') !! job_id).
Qed.

(** The answer, from the job as the last look saw it. *)
Definition wait_verdict (updates : list Broadcast) (db : Db) : Result Value CcbdError :=
  match job_seen db with
  | Err e => Err e
  | Ok (Some answer) => Ok answer
  | Ok None =>
      Err (if bool_decide (Closed ∈ updates) then IpcInvalidRequest "job update subscription closed"
           else PtyIoError "Timeout waiting for job completion")
  end.
Definition ended (db : Db) : Prop := ∃ answer, job_seen db = Ok (Some answer).

(** The updates, after a look that saw the job unfinished. *)
Lemma updates_run updates rt w :
  job_seen w.(w_db) = Ok None →
  let '(r, rt', w') := wait_updates others job_id updates rt w in
  match r with
  | Ok (Some answer) => job_seen w'.(w_db) = Ok (Some answer)
  | Ok None => job_seen w'.(w_db) = Ok None ∧ Closed ∉ updates
  | Err e => job_seen w'.(w_db) = Err e ∨ (job_seen w'.(w_db) = Ok None ∧
      e = IpcInvalidRequest "job update subscription closed" ∧ Closed ∈ updates)
  end ∧
  ((∀ rt w, ended (others 163 rt w).2.(w_db)) → woken updates = true → ∃ answer, r = Ok (Some answer)).
Proof.
  induction updates as [|u updates IH] in rt, w |- *; intros Hw; cbn [wait_updates].
  { cbn. split; [split; [done|set_solver]|done]. }
  destruct (decide (u = Closed)) as [->|Hu].
  { cbn. split; [right; split_and!; [done..|set_solver]|done]. }
  replace (match u with Closed => _ | _ => _ end) with
    (if wakes u then answer ← terminal_job_response others 163 job_id;
       match answer with Some v => mret (Some v) | None => wait_updates others job_id updates end
     else wait_updates others job_id updates) by (by destruct u).
  replace (woken (u :: updates)) with (wakes u || woken updates) by (by destruct u).
  destruct (wakes u); cbn [orb].
  - unfold mbind, W_bind. rewrite look_run. generalize (λ H : ∀ rt w, ended (others 163 rt w).2.(w_db), H rt w).
    destruct (others 163 rt w) as [rt1 w1]. cbn [snd]. intros Hended.
    destruct (job_seen w1.(w_db)) as [[v|]|e] eqn:Hseen.
    + split; [done|by exists v].
    + specialize (IH rt1 w1 Hseen). destruct (wait_updates _ _ _ _ _) as [[r rt2] w2].
      destruct IH as [IH _]. split; [|intros He; by destruct (Hended He) as [? ?]; congruence].
      destruct r as [[v|]|e]; [done| |]; set_solver.
    + split; [by left|]. intros He. destruct (Hended He) as [? ?]. congruence.
  - specialize (IH rt w Hw). destruct (wait_updates _ _ _ _ _) as [[r rt2] w2]. destruct IH as [IH IH'].
    split; [|done]. destruct r as [[v|]|e]; [done| |]; set_solver.
Qed.


End Waiting.
