(* ===== verification/SpawnProofs.v ===== *)
(** * What a spawn promises

    An agent's spawn registers the agent, its pane and the tasks that follow it,
    or it leaves nothing of them behind. *)
From S2P Require Import Prelude Json Schema Sql MasterTables JobGate Invariant AgentGate Text Sessions Completion Agents AgentsProofs.
From S2P Require Import LogReader Gateway Providers Recovery Startup PromptCases PromptRunner Tmux AgentIo SessionHandlers Events.
From S2P Require Import Spawn Tasks AgentSpawn.

(** ** Panes in commands *)

(** The pane a command gives its title to, and the pane it kills. *)
Definition names_pane (c : TmuxCommand) : option string :=
  if c.(tc_args) !! 2%nat == Some "select-pane" then c.(tc_args) !! 4%nat else None.
Definition kills_pane (c : TmuxCommand) : option string :=
  if c.(tc_args) !! 2%nat == Some "kill-pane" then c.(tc_args) !! 4%nat else None.

Definition named (pane : string) (cs : list TmuxCommand) : Prop := Some pane ∈ names_pane <$> cs.
Definition killed (pane : string) (cs : list TmuxCommand) : Prop := Some pane ∈ kills_pane <$> cs.
Notation unnamed := (Forall (λ c, names_pane c = None)).

Lemma unnamed_named pane cs : unnamed cs → ¬ named pane cs.
Proof.
  intros Hu (c & Hc & Hin)%list_elem_of_fmap. rewrite Forall_forall in Hu. specialize (Hu c Hin). congruence.
Qed.
Lemma named_app pane cs cs' : named pane (cs ++ cs') ↔ named pane cs ∨ named pane cs'.
Proof. unfold named. by rewrite fmap_app elem_of_app. Qed.
Lemma killed_app pane cs cs' : killed pane (cs ++ cs') ↔ killed pane cs ∨ killed pane cs'.
Proof. unfold killed. by rewrite fmap_app elem_of_app. Qed.

(** ** Statements that fail *)

Section Failures.
Context {EXT : Externals} {SPEC : SpawnSpecSerde}.

Lemma insert_agent_failed id sid provider state pid w e w' :
  is_Some (w.(w_db).(sessions) !! sid) →
  insert_agent_sync id sid provider state pid w = (Err e, w') → w'.(w_db) = w.(w_db).
Proof.
  intros Hs Hrun. pose proof (insert_agent_functional id sid provider state pid w) as H. cbv zeta in H.
  unfold insert_agent_outcome in H. cbn [new_agent a_id a_session_id] in H.
  rewrite (bool_decide_true _ Hs) in H.
  repeat case_match; destruct H as (w1 & Hrun' & Hdb & _); congruence.
Qed.
Lemma replace_killed_failed sid spec h pid i w e w' :
  replace_killed_agent_and_requeue_job_sync sid spec h pid i w = (Err e, w') → w'.(w_db) = w.(w_db).
Proof.
  unfold replace_killed_agent_and_requeue_job_sync, transaction at 1, mbind at 1, M_bind at 1.
  destruct ((_ : M CcbdError _) w) as [[[n|n]|e'] w1]; [by case_bool_decide..|]. by intros [= _ <-].
Qed.

End Failures.

(** ** The parts of a spawn *)

Section Spawning.
Context {EXT : Externals} {GX : GatewayExternals} {SPEC : SpawnSpecSerde} {SERDE : SpawnParamsSerde}.
Context {T : Type} {TX : TmuxExec T}.
Variables (cx : WatchCtx) (others : nat → WatchRuntime T → World → WatchRuntime T * World).
Variables (R : relation Db) (agent_id : string).
Context `{!PreOrder R}.

(** What the daemon holds of the agent, and whether its pipe is there. *)
Definition held (rt : WatchRuntime T) : option AgentIoEntry * option string * bool * bool * list DaemonTask :=
  (rt.(wr_agents).(at_panes) !! agent_id, rt.(wr_agents).(at_parsers) !! agent_id,
   bool_decide (agent_id ∈ rt.(wr_agents).(at_timers)), bool_decide (agent_id ∈ rt.(wr_monitors)),
   rt.(wr_tasks)).
Definition fifo : string := fifo_path_of cx agent_id.
Definition piped (rt : WatchRuntime T) : bool := bool_decide (fifo ∈ rt.(wr_agents).(at_fifos)).

Hypothesis others_rel : ∀ p rt w, R w.(w_db) (others p rt w).2.(w_db).
Hypothesis others_held : ∀ p rt w, held (others p rt w).1 = held rt.
Hypothesis others_piped : ∀ p rt w, piped (others p rt w).1 = piped rt.
Hypothesis others_trace : ∀ p rt w,
  tm_trace (wr_terminal (others p rt w).1) = tm_trace (wr_terminal rt).
Hypothesis sessions_stay : ∀ db db' sid,
  R db db' → is_Some (db.(sessions) !! sid) → is_Some (db'.(sessions) !! sid).

#[local] Existing Instances W_ret W_bind.

Record unchanged (x y : WatchRuntime T * World) : Prop := {
  un_rel : R x.2.(w_db) y.2.(w_db);
  un_held : held y.1 = held x.1
}.
#[local] Instance unchanged_preorder : PreOrder unchanged.
Proof. split; [by intros []|]. intros x y z [Hxy ?] [Hyz ?]. split; [by etrans|congruence]. Qed.
Definition same_pipe : relation (WatchRuntime T * World) :=
  λ x y, unchanged x y ∧ piped y.1 = piped x.1.
#[local] Instance same_pipe_preorder : PreOrder same_pipe.
Proof. split; [by intros x|]. intros x y z [Hxy ?] [Hyz ?]. split; [by etrans|congruence]. Qed.

Notation calm m := (steady same_pipe (λ c, names_pane c = None) m).

Lemma others_same p rt w : same_pipe (rt, w) (others p rt w).
Proof. split; [split; [apply others_rel|apply others_held]|apply others_piped]. Qed.
Lemma terminal_same t rt w : same_pipe (rt, w) (set_wr_terminal t rt, w).
Proof. by split. Qed.

Lemma unmoved_pause p : calm (pause others p).
Proof. apply steady_pause; [exact others_same|done]. Qed.
Lemma unmoved_stm {A} p (m : M CcbdError A) : (∀ w, (m w).2.(w_db) = w.(w_db)) → calm (stm others p m).
Proof.
  intros Hm. apply steady_stm; [apply _|exact others_same|done|].
  intros rt w. split; [split|done]; cbn; [by rewrite Hm|done].
Qed.
Lemma unmoved_tmux {A} p (m : Tm (T := T) A) : appends m (λ _ cs, unnamed cs) → calm (tmux others p m).
Proof. intros Hm. by apply steady_tmux; [apply _|exact others_same|done|exact terminal_same|]. Qed.

#[local] Ltac calm :=
  cbv zeta;
  repeat first
    [ apply steady_ret, _ | apply steady_throw, _ | apply steady_of_result, _ | apply steady_get, _
    | apply unmoved_pause | apply unmoved_stm; done
    | apply steady_try | apply steady_bind; [apply _| |intros ?]
    | match goal with |- steady _ _ (match ?x with _ => _ end) => destruct x end ].

Lemma leads_or_undo {A} rt w undo (m : W (T := T) A) Q S :
  leads rt w m Q → (∀ a rt1 w1 cs, Q (Ok a) rt1 w1 cs → S (Ok a) rt1 w1 cs) →
  (∀ e rt1 w1 cs, Q (Err e) rt1 w1 cs →
     leads rt1 w1 undo (λ _ rt2 w2 cs', ∀ e', S (Err e') rt2 w2 (cs ++ cs'))) →
  leads rt w (or_undo undo m) S.
Proof.
  intros Hm Hok Herr. unfold or_undo.
  eapply leads_tried; [exact Hm|]. intros [a|e] rt1 w1 cs HQ.
  - apply leads_silent; [done|]. rewrite app_nil_r. by apply Hok.
  - eapply leads_bind; [by apply (Herr e)|naive_solver|].
    intros [] rt2 w2 cs' HS. apply leads_silent; [done|]. rewrite app_nil_r. apply HS.
Qed.

(** *** The pipe *)

Lemma remove_fifo_leads rt w :
  leads rt w (remove_fifo fifo) (λ _ rt' w' cs,
    unchanged (rt, w) (rt', w') ∧ piped rt' = false ∧ cs = []).
Proof.
  apply leads_silent; [done|]. split_and!; [by split|apply bool_decide_false; set_solver|done].
Qed.

Lemma make_fifo_leads rt w :
  leads rt w (make_fifo cx fifo) (λ r rt' w' cs, unchanged (rt, w) (rt', w') ∧ cs = [] ∧
    match r with Ok _ => piped rt' = true | Err _ => piped rt' = true → piped rt = true end).
Proof.
  unfold make_fifo. unfold get_wr, mbind, W_bind, leads. cbn.
  destruct (mh_pipe_dir _).
  { exists []. rewrite app_nil_r. split_and!; [done|by split|done|by cbn]. }
  destruct (mh_mkfifo _); cbn.
  { exists []. rewrite app_nil_r. split_and!; [done|by split|done|].
    intros H%bool_decide_eq_true. set_solver. }
  destruct (mh_fifo_open _); cbn; exists []; rewrite app_nil_r; (split_and!; [done|by split|done|]).
  - intros H%bool_decide_eq_true. set_solver.
  - apply bool_decide_true. set_solver.
Qed.

(** *** The pane *)

Lemma cleanup_leads rt w pane :
  leads rt w (cleanup_spawn_resources cx others pane fifo) (λ _ rt' w' cs,
    unchanged (rt, w) (rt', w') ∧ piped rt' = false ∧ unnamed cs ∧ killed pane cs).
Proof.
  unfold cleanup_spawn_resources.
  eapply leads_tried; [apply (leads_tmux others same_pipe); [exact others_same|done|exact terminal_same|
    apply (appends_tmux cx.(mx_server))]|].
  intros x rt1 w1 cs (-> & [HS _] & _). eapply leads_weaken; [apply remove_fifo_leads|].
  intros r rt2 w2 cs' (HS' & Hp & ->). rewrite app_nil_r.
  split_and!; [by etrans|done|by constructor|unfold killed; cbn; set_solver].
Qed.

Lemma unnamed_ensure name cwd : appends (T := T) (ensure_session_sync cx.(mx_server) name cwd) (λ _ cs, unnamed cs).
Proof.
  unfold ensure_session_sync, ensure_session_with_window_size_sync, server_running_sync, tmux_succeeds,
    tmux_run, tmux_output. only_allowed.
Qed.
Lemma unnamed_spawn session window cwd cmd :
  appends (T := T) (spawn_window_sync cx.(mx_server) session window cwd cmd) (λ _ cs, unnamed cs).
Proof.
  unfold spawn_window_sync, respawn_initial_window_sync, reusable_initial_window_sync,
    list_window_names_sync, list_panes_sync, set_remain_on_exit_sync, respawn_pane_sync, tmux_run, tmux_output.
  only_allowed.
Qed.

(** A step that is undone by removing the pipe. *)
Lemma undo_fifo_leads {A} rt w (m : W (T := T) A) :
  calm m → leads rt w (or_undo (remove_fifo fifo) m) (λ r rt' w' cs,
    unchanged (rt, w) (rt', w') ∧ unnamed cs ∧
    match r with Ok _ => piped rt' = piped rt | Err _ => piped rt' = false end).
Proof.
  intros Hm. eapply leads_or_undo; [apply Hm|by intros a rt1 w1 cs [[? ?] ?]|].
  intros e rt1 w1 cs [[HS _] Hq]. eapply leads_weaken; [apply remove_fifo_leads|].
  intros r rt2 w2 cs' (HS' & Hp & ->) e'. rewrite app_nil_r. split_and!; [by etrans|done..].
Qed.

Lemma start_pane_leads rt w provider cwd cmd :
  leads rt w (start_pane cx others agent_id provider cwd fifo cmd) (λ r rt' w' cs,
    unchanged (rt, w) (rt', w') ∧
    match r with
    | Ok pane => piped rt' = piped rt ∧ ∀ q, named q cs → q = pane
    | Err _ => piped rt' = false ∧ unnamed cs
    end).
Proof.
  unfold start_pane.
  eapply leads_bind; [apply undo_fifo_leads, unmoved_tmux, unnamed_ensure|by intros e rt1 w1 cs (? & ? & ?)|].
  intros _ rt1 w1 cs1 (HS1 & Hq1 & Hp1).
  eapply leads_bind; [apply undo_fifo_leads, unmoved_tmux, unnamed_spawn| |].
  { intros e rt2 w2 cs2 (HS2 & Hq2 & Hp2). split_and!; [by etrans|done|by apply Forall_app]. }
  intros pane rt2 w2 cs2 (HS2 & Hq2 & Hp2).
  eapply leads_tried; [apply (leads_tmux others same_pipe); [exact others_same|done|exact terminal_same|
    apply (appends_tmux cx.(mx_server))]|].
  intros x rt3 w3 cs3 (-> & [HS3 Hp3] & _). apply leads_silent; [done|].
  split; [do 2 (etrans; [eassumption|]); exact HS3|]. split.
  { cbn [fst] in *. change (piped rt3 = piped rt). congruence. }
  intros q. rewrite !named_app. intros [H|[H|[H|H]]]; try by apply unnamed_named in H.
  change (Some q ∈ [Some pane]) in H. by apply list_elem_of_singleton in H as [= ->].
Qed.

(** A step that is undone by killing the pane. *)
Lemma undo_pane_leads {A} rt w pane (m : W (T := T) A) (P : World → Prop) :
  leads rt w m (λ r rt' w' cs, held rt' = held rt ∧ piped rt' = piped rt ∧ unnamed cs ∧
    match r with Ok _ => P w' | Err _ => R w.(w_db) w'.(w_db) end) →
  leads rt w (or_undo (cleanup_spawn_resources cx others pane fifo) m) (λ r rt' w' cs,
    held rt' = held rt ∧ unnamed cs ∧
    match r with
    | Ok _ => piped rt' = piped rt ∧ P w'
    | Err _ => R w.(w_db) w'.(w_db) ∧ piped rt' = false ∧ killed pane cs
    end).
Proof.
  intros Hm. eapply leads_or_undo; [exact Hm|by intros a rt1 w1 cs (? & ? & ? & ?)|].
  intros e rt1 w1 cs (Hh & Hp & Hq & HR). eapply leads_weaken; [apply cleanup_leads|].
  intros r rt2 w2 cs' ([HR' Hh'] & Hp' & Hq' & Hk) e'. cbn in *.
  split_and!; [congruence|by apply Forall_app|by etrans|done|]. rewrite killed_app. by right.
Qed.
Lemma undo_calm_leads {A} rt w pane (m : W (T := T) A) :
  calm m → leads rt w (or_undo (cleanup_spawn_resources cx others pane fifo) m) (λ r rt' w' cs,
    held rt' = held rt ∧ unnamed cs ∧
    match r with
    | Ok _ => piped rt' = piped rt ∧ R w.(w_db) w'.(w_db)
    | Err _ => R w.(w_db) w'.(w_db) ∧ piped rt' = false ∧ killed pane cs
    end).
Proof.
  intros Hm. apply (undo_pane_leads _ _ _ _ (λ w', R w.(w_db) w'.(w_db))).
  eapply leads_weaken; [apply Hm|]. intros r rt1 w1 cs [[[HR Hh] Hp] Hq]. by destruct r; split_and!.
Qed.

Lemma calm_attach pane :
  calm (pid ← tmux others 105 (get_pane_pid_sync cx.(mx_server) pane);
    tmux others 106 (pipe_pane_to_fifo_sync cx.(mx_server) pane fifo);;
    pause others 107;;
    opened ← pidfd_open pid;
    w_of_result opened;;
    rt ← get_wr;
    match rt.(wr_host).(mh_try_clone) with
    | Some err =>
        w_throw (EnvironmentNotSupported ("clone agent pidfd for " +:+ agent_id +:+ ": " +:+ err))
    | None => mret pid
    end).
Proof.
  unfold get_pane_pid_sync, pipe_pane_to_fifo_sync, tmux_run, tmux_output, pidfd_open.
  apply steady_bind; [apply _|apply unmoved_tmux; only_allowed|intros pid].
  apply steady_bind; [apply _|apply unmoved_tmux; only_allowed|intros _]. calm.
Qed.

(** *** The row *)

(** The row written for the spawn, with the other tasks' moves in between. *)
Definition row_recorded (p : SpawnParams) (db_action : AgentSpawnDbAction) (pid : Z) (config_hash : string)
    (spec : AgentSpawnSpec) (w w' : World) : Prop :=
  match db_action with
  | InsertDefault => ∃ w1 w2 w3 w4 w5 stored,
      R w.(w_db) w1.(w_db) ∧
      insert_agent_sync p.(sa_agent_id) p.(sa_session_id) p.(sa_provider) "SPAWNING" (Some pid) w1 = (Ok tt, w2) ∧
      R w2.(w_db) w3.(w_db) ∧
      update_agent_config_hash_sync p.(sa_agent_id) config_hash w3 = (Ok tt, w4) ∧
      R w4.(w_db) w5.(w_db) ∧
      persist_agent_spawn_spec_sync spec config_hash w5 = (stored, w')
  | ReplaceKilledAndRequeue expected_hash captured_intent => ∃ w1 requeued,
      R w.(w_db) w1.(w_db) ∧
      replace_killed_agent_and_requeue_job_sync p.(sa_session_id) spec expected_hash pid captured_intent w1 =
        (Ok requeued, w')
  end.

Lemma update_hash_ok id h w : ∃ w', update_agent_config_hash_sync id h w = (Ok tt, w').
Proof.
  unfold update_agent_config_hash_sync, update_agent, mbind, M_bind, asks.
  destruct (update_row _ _ _ _) as [t n]. by eexists.
Qed.

Lemma stm_leads {A} rt w p (m : M CcbdError A) :
  leads rt w (stm others p m) (λ r rt' w' cs, held rt' = held rt ∧ piped rt' = piped rt ∧ unnamed cs ∧
    ∃ w1, R w.(w_db) w1.(w_db) ∧ m w1 = (r, w')).
Proof.
  eapply leads_weaken; [apply (leads_stm others same_pipe); [exact others_same|done]|].
  intros r rt1 w1 cs (-> & w2 & [[HR Hh] Hp] & Hrun). split_and!; [done..|]. by exists w2.
Qed.

Lemma persist_leads rt w spec h :
  leads rt w (persist_agent_spawn_snapshot_after_success others spec h) (λ r rt' w' cs,
    (∃ b, r = Ok b) ∧ held rt' = held rt ∧ piped rt' = piped rt ∧ unnamed cs ∧
    ∃ w1 stored, R w.(w_db) w1.(w_db) ∧ persist_agent_spawn_spec_sync spec h w1 = (stored, w')).
Proof.
  unfold persist_agent_spawn_snapshot_after_success. eapply leads_tried; [apply stm_leads|].
  intros x rt1 w1 cs (Hh & Hp & Hq & w2 & HR & Hrun). apply leads_silent; [done|]. rewrite app_nil_r.
  split_and!; [by eexists|done..|by exists w2, x].
Qed.

Lemma record_leads rt w p db_action pid pane h spec :
  p.(sa_agent_id) = agent_id → is_Some (w.(w_db).(sessions) !! p.(sa_session_id)) →
  leads rt w (record_agent cx others p db_action pid pane fifo h spec) (λ r rt' w' cs,
    held rt' = held rt ∧ unnamed cs ∧
    match r with
    | Ok _ => piped rt' = piped rt ∧ row_recorded p db_action pid h spec w w'
    | Err _ => R w.(w_db) w'.(w_db) ∧ piped rt' = false ∧ killed pane cs
    end).
Proof.
  intros Hid Hs. unfold record_agent. destruct db_action as [|expected intent].
  - eapply leads_bind.
    { eapply (undo_pane_leads _ _ _ _ (λ w', ∃ w1, R w.(w_db) w1.(w_db) ∧
        insert_agent_sync p.(sa_agent_id) p.(sa_session_id) p.(sa_provider) "SPAWNING" (Some pid) w1 = (Ok tt, w'))).
      eapply leads_weaken; [apply stm_leads|]. intros r rt1 w2 cs (Hh & Hp & Hq & w1 & HR & Hrun).
      split_and!; [done..|]. destruct r as [[]|e]; [by exists w1|].
      rewrite -> (insert_agent_failed _ _ _ _ _ _ _ _ (sessions_stay _ _ _ HR Hs) Hrun). done. }
    { by intros e rt1 w2 cs (? & ? & ?). }
    intros [] rt1 w2 cs (Hh & Hq & Hp & w1 & HR & Hins).
    eapply leads_bind; [apply stm_leads| |].
    { intros e rt2 w4 cs2 (_ & _ & _ & w3 & _ & Hrun). by destruct (update_hash_ok p.(sa_agent_id) h w3) as [? ?]; congruence. }
    intros [] rt2 w4 cs2 (Hh2 & Hp2 & Hq2 & w3 & HR3 & Hupd).
    eapply leads_bind; [apply persist_leads|by intros e ? ? ? ([] & _)|].
    intros b rt3 w6 cs3 (_ & Hh3 & Hp3 & Hq3 & w5 & stored & HR5 & Hrun). apply leads_silent; [done|].
    split; [cbn in *; congruence|]. split; [rewrite app_nil_r; by repeat (apply Forall_app; split)|].
    split; [cbn in *; congruence|]. by exists w1, w2, w3, w4, w5, stored.
  - eapply leads_bind.
    { eapply (undo_pane_leads _ _ _ _ (λ w', ∃ w1 n, R w.(w_db) w1.(w_db) ∧
        replace_killed_agent_and_requeue_job_sync p.(sa_session_id) spec expected pid intent w1 = (Ok n, w'))).
      eapply leads_weaken; [apply stm_leads|]. intros r rt1 w2 cs (Hh & Hp & Hq & w1 & HR & Hrun).
      split_and!; [done..|]. destruct r as [n|e]; [by exists w1, n|].
      by rewrite -> (replace_killed_failed _ _ _ _ _ _ _ _ Hrun). }
    { by intros e rt1 w2 cs (? & ? & ?). }
    intros n rt1 w2 cs (Hh & Hq & Hp & w1 & m & HR & Hrun). apply leads_silent; [done|].
    rewrite app_nil_r. split_and!; [done..|]. split; [done|]. by exists w1, m.
Qed.

(** *** What follows the agent *)

Definition followed (p : SpawnParams) (pid : Z) (pane : string) (rt rt' : WatchRuntime T) : Prop :=
  rt'.(wr_agents).(at_panes) !! agent_id =
    Some (MkAgentIoEntry p.(sa_session_id) pane (Some pid) fifo cx.(mx_server).(ts_socket_name) false) ∧
  rt'.(wr_agents).(at_parsers) !! agent_id = Some EmptyString ∧ agent_id ∈ rt'.(wr_monitors) ∧ piped rt' = true ∧
  rt'.(wr_tasks) = rt.(wr_tasks) ++
    [AgentReader agent_id; AgentPidfdWatch agent_id p.(sa_session_id) pid;
     AgentInitProbe agent_id pane p.(sa_provider)].

Lemma follow_leads rt w p pid pane :
  p.(sa_agent_id) = agent_id → piped rt = true →
  leads rt w (follow_agent (T := T) cx p pid pane fifo) (λ r rt' w' cs,
    r = Ok tt ∧ w' = w ∧ cs = [] ∧ followed p pid pane rt rt').
Proof.
  intros Hid Hp. apply leads_silent; [done|]. split_and!; [done..|].
  unfold followed, follow_agent. rewrite Hid. cbn. split_and!.
  - apply lookup_insert_eq.
  - apply lookup_insert_eq.
  - set_solver.
  - exact Hp.
  - change ((((wr_tasks rt ++ [AgentReader agent_id]) ++ [AgentPidfdWatch agent_id p.(sa_session_id) pid]) ++
      [AgentInitProbe agent_id pane p.(sa_provider)]) = wr_tasks rt ++ [AgentReader agent_id;
      AgentPidfdWatch agent_id p.(sa_session_id) pid; AgentInitProbe agent_id pane p.(sa_provider)]).
    by rewrite -!app_assoc.
Qed.

(** ** The whole spawn *)

Definition nothing_left (rt : WatchRuntime T) (w : World) (rt' : WatchRuntime T) (w' : World)
    (cs : list TmuxCommand) : Prop :=
  R w.(w_db) w'.(w_db) ∧ held rt' = held rt ∧ (piped rt' = true → piped rt = true) ∧
  ∀ pane, named pane cs → killed pane cs.
Definition spawned (p : SpawnParams) (db_action : AgentSpawnDbAction) (answer : Value)
    (rt : WatchRuntime T) (w : World) (rt' : WatchRuntime T) (w' : World) : Prop :=
  ∃ pid pane config_hash spec,
    answer = json_object [("state", JString "SPAWNING"); ("pid", JNumber pid); ("pane_id", JString pane)] ∧
    row_recorded p db_action pid config_hash spec w w' ∧ followed p pid pane rt rt'.
(** The failure that is not undone: the hash of the configuration could not be
    computed.  Nothing was written or registered, and one pane was started. *)
Definition pane_abandoned (rt : WatchRuntime T) (w : World) (rt' : WatchRuntime T) (w' : World)
    (cs : list TmuxCommand) : Prop :=
  (∃ provider env extensions e, cx.(mx_prepare).(sx_config_hash) provider env extensions = Err e) ∧
  R w.(w_db) w'.(w_db) ∧ held rt' = held rt ∧ ∃ pane, ∀ q, named q cs → q = pane.
Notation all_or_nothing p db_action rt w := (λ r rt' w' cs,
  match r with
  | Ok answer => spawned p db_action answer rt w rt' w'
  | Err _ => nothing_left rt w rt' w' cs ∨ pane_abandoned rt w rt' w' cs
  end).

Lemma nothing_refl rt w : nothing_left rt w rt w [].
Proof. split_and!; [done..|]. by intros q H%elem_of_nil. Qed.
(** A pane named first and killed then. *)
Lemma killed_after pane cs cs' :
  (∀ q, named q cs → q = pane) → unnamed cs' → killed pane cs' → ∀ q, named q (cs ++ cs') → killed q (cs ++ cs').
Proof.
  intros Hn Hq Hk q. rewrite named_app killed_app. intros [->%Hn|H]; [by right|by apply unnamed_named in H].
Qed.
Lemma named_still pane cs cs' :
  (∀ q, named q cs → q = pane) → unnamed cs' → ∀ q, named q (cs ++ cs') → q = pane.
Proof. intros Hn Hq q. rewrite named_app. intros [H|H]; [by apply Hn|by apply unnamed_named in H]. Qed.

Lemma row_earlier p db_action pid h spec w w1 w' :
  R w.(w_db) w1.(w_db) → row_recorded p db_action pid h spec w1 w' → row_recorded p db_action pid h spec w w'.
Proof.
  intros HR. destruct db_action; cbn.
  - intros (w2 & w3 & w4 & w5 & w6 & stored & HR2 & H). exists w2, w3, w4, w5, w6, stored. split; [by etrans|done].
  - intros (w2 & n & HR2 & H). exists w2, n. split; [by etrans|done].
Qed.
Lemma followed_earlier p pid pane rt rt1 rt' :
  held rt1 = held rt → followed p pid pane rt1 rt' → followed p pid pane rt rt'.
Proof. unfold held, followed. intros [= _ _ _ _ ->]. done. Qed.

Lemma in_sandbox_leads rt w p is_recovery db_action session extensions credentials sandbox :
  p.(sa_agent_id) = agent_id → is_Some (w.(w_db).(sessions) !! p.(sa_session_id)) →
  leads rt w (spawn_in_sandbox cx others p is_recovery db_action session extensions credentials sandbox)
    (all_or_nothing p db_action rt w).
Proof.
  intros Hid Hs. unfold spawn_in_sandbox. cbv zeta. rewrite Hid. fold fifo.
  destruct (spawn_home _ _ _ _ _ _ _) as [home|e]; [apply leads_ok|].
  2:{ apply leads_silent; [done|]. left. apply nothing_refl. }
  eapply leads_bind; [apply make_fifo_leads| |].
  { intros e rt1 w1 cs ([HR Hh] & -> & Hp). left. split_and!; [done..|]. by intros q H%elem_of_nil. }
  intros _ rt1 w1 cs1 ([HR1 Hh1] & -> & Hp1).
  eapply leads_bind; [apply start_pane_leads| |].
  { intros e rt2 w2 cs2 ([HR2 Hh2] & Hp2 & Hq2). cbn in *. left. split_and!; [by etrans|congruence|congruence|].
    by intros q H%unnamed_named. }
  intros pane rt2 w2 cs2 ([HR2 Hh2] & Hp2 & Hn2).
  eapply leads_bind; [apply undo_calm_leads, calm_attach| |].
  { intros e rt3 w3 cs3 (Hh3 & Hq3 & HR3 & Hp3 & Hk3). cbn in *. left.
    split_and!; [etrans; [exact HR1|]; by etrans|congruence|congruence|]. by apply (killed_after pane). }
  intros pid rt3 w3 cs3 (Hh3 & Hq3 & Hp3 & HR3).
  assert (R w.(w_db) w3.(w_db)) as HR by (etrans; [exact HR1|]; by etrans).
  destruct (sx_config_hash _ _ _ _) as [h|e] eqn:Hash; [apply leads_ok|].
  2:{ apply leads_silent; [done|]. right. split; [eauto|]. cbn in *. split_and!; [done|by rewrite Hh3 Hh2|].
      exists pane. rewrite app_nil_r. by apply named_still. }
  cbn [un_rel fst snd] in *.
  eapply leads_bind; [apply record_leads; [done|by eapply sessions_stay]| |].
  { intros e rt4 w4 cs4 (Hh4 & Hq4 & HR4 & Hp4 & Hk4). left.
    split_and!; [by etrans|congruence|congruence|]. cbn [app]. rewrite app_assoc.
    apply (killed_after pane); [by apply named_still|done..]. }
  intros _ rt4 w4 cs4 (Hh4 & Hq4 & Hp4 & Hrow).
  eapply leads_bind; [apply follow_leads; [done|congruence]|by intros e ? ? ? (? & _)|].
  intros _ rt5 w5 cs5 (_ & -> & -> & Hf). apply leads_silent; [done|].
  exists pid, pane, h, (spawn_spec p extensions). split_and!; [done|by eapply row_earlier|].
  eapply followed_earlier; [|exact Hf]. congruence.
Qed.

Lemma nothing_before rt w rt1 w1 cs rt2 w2 cs' :
  same_pipe (rt, w) (rt1, w1) → unnamed cs → nothing_left rt1 w1 rt2 w2 cs' →
  nothing_left rt w rt2 w2 (cs ++ cs').
Proof.
  intros [[HR Hh] Hp] Hq (HR' & Hh' & Hp' & Hn). cbn in *. split_and!; [by etrans|congruence|intros H%Hp'; congruence|].
  intros q. rewrite named_app killed_app. intros [H|H]; [by apply unnamed_named in H|right; by apply Hn].
Qed.
Lemma nothing_after rt w rt1 w1 cs rt2 w2 cs' :
  nothing_left rt w rt1 w1 cs → same_pipe (rt1, w1) (rt2, w2) → unnamed cs' →
  nothing_left rt w rt2 w2 (cs ++ cs').
Proof.
  intros (HR & Hh & Hp & Hn) [[HR' Hh'] Hp'] Hq. cbn in *. split_and!; [by etrans|congruence|intros H; apply Hp; congruence|].
  intros q. rewrite named_app killed_app. intros [H|H]; [left; by apply Hn|by apply unnamed_named in H].
Qed.
Definition failed_so rt w rt' w' cs : Prop := nothing_left rt w rt' w' cs ∨ pane_abandoned rt w rt' w' cs.
Lemma failed_before rt w rt1 w1 cs rt2 w2 cs' :
  same_pipe (rt, w) (rt1, w1) → unnamed cs → failed_so rt1 w1 rt2 w2 cs' → failed_so rt w rt2 w2 (cs ++ cs').
Proof.
  intros HS Hq [Hn|(Hh & HR & Hheld & pane & Hp)]; [left; by eapply nothing_before|right].
  destruct HS as [[HR1 Hh1] _]. cbn in *. split_and!; [done|by etrans|congruence|]. exists pane.
  intros q. rewrite named_app. intros [H|H]; [by apply unnamed_named in H|by apply Hp].
Qed.
Lemma failed_after rt w rt1 w1 cs rt2 w2 cs' :
  failed_so rt w rt1 w1 cs → same_pipe (rt1, w1) (rt2, w2) → unnamed cs' → failed_so rt w rt2 w2 (cs ++ cs').
Proof.
  intros [Hn|(Hh & HR & Hheld & pane & Hp)] HS Hq; [left; by eapply nothing_after|right].
  destruct HS as [[HR1 Hh1] _]. cbn in *. split_and!; [done|by etrans|congruence|]. exists pane. by apply named_still.
Qed.
Lemma spawned_before p db_action v rt w rt1 w1 rt2 w2 :
  same_pipe (rt, w) (rt1, w1) → spawned p db_action v rt1 w1 rt2 w2 → spawned p db_action v rt w rt2 w2.
Proof.
  intros [[HR Hh] _] (pid & pane & h & spec & Hv & Hrow & Hf). exists pid, pane, h, spec.
  split_and!; [done|by eapply row_earlier|by eapply followed_earlier].
Qed.

(** A part before the spawn leaves it as it is. *)
Lemma before_spawn {A} rt w (m : W (T := T) A) (f : A → W (T := T) Value) p db_action P :
  leads rt w m (λ r rt1 w1 cs, same_pipe (rt, w) (rt1, w1) ∧ unnamed cs ∧ P r w1) →
  (∀ a rt1 w1, P (Ok a) w1 → leads rt1 w1 (f a) (all_or_nothing p db_action rt1 w1)) →
  leads rt w (m ≫= f) (all_or_nothing p db_action rt w).
Proof.
  intros Hm Hf. eapply leads_bind; [exact Hm| |].
  - intros e rt1 w1 cs (HS & Hq & _). rewrite -(app_nil_r cs).
    eapply failed_before; [done..|left; apply nothing_refl].
  - intros a rt1 w1 cs (HS & Hq & HP). eapply leads_weaken; [by apply Hf|].
    intros [v|e] rt2 w2 cs' H; [by eapply spawned_before|by eapply failed_before].
Qed.
Lemma calm_before_spawn {A} rt w (m : W (T := T) A) (f : A → W (T := T) Value) p db_action :
  calm m → (∀ a rt1 w1, leads rt1 w1 (f a) (all_or_nothing p db_action rt1 w1)) →
  leads rt w (m ≫= f) (all_or_nothing p db_action rt w).
Proof.
  intros Hm Hf. eapply (before_spawn _ _ _ _ _ _ (λ _ _, True)); [|by intros].
  eapply leads_weaken; [apply Hm|]. by intros r rt1 w1 cs [? ?].
Qed.

Lemma guarded_leads rt w p db_action body :
  is_Some (w.(w_db).(sessions) !! p.(sa_session_id)) →
  (∀ sandbox rt1 w1, is_Some (w1.(w_db).(sessions) !! p.(sa_session_id)) →
     leads rt1 w1 (body sandbox) (all_or_nothing p db_action rt1 w1)) →
  leads rt w (with_sandbox_guard cx others p.(sa_session_id) agent_id body) (all_or_nothing p db_action rt w).
Proof.
  intros Hs Hbody. unfold with_sandbox_guard. destruct (unsafe_no_sandbox _); [by apply Hbody|].
  eapply (before_spawn _ _ _ _ _ _ (λ _ w1, is_Some (w1.(w_db).(sessions) !! p.(sa_session_id)))).
  { assert (calm (resolve_sandbox_dir (T := T) cx p.(sa_session_id) agent_id)) as Hc.
    { unfold resolve_sandbox_dir. calm. }
    eapply leads_weaken; [apply Hc|]. intros r rt1 w1 cs [HS Hq]. split_and!; [done..|].
    eapply sessions_stay; [apply HS|done]. }
  intros dir rt1 w1 Hs1. eapply leads_or_undo; [by apply Hbody|done|].
  intros e rt2 w2 cs Hn. change (failed_so rt1 w1 rt2 w2 cs) in Hn.
  assert (calm (stm others 101 (emit (RemoveSandboxDir p.(sa_session_id) agent_id false)))) as Hc by calm.
  eapply leads_weaken; [apply Hc|]. intros r rt3 w3 cs' [HS Hq] e'. exact (failed_after _ _ _ _ _ _ _ _ Hn HS Hq).
Qed.

(** The session was there when the spawn looked for it. *)
Lemma found_leads rt w sid :
  leads rt w (stm others 113 (query_session_by_id_sync sid)) (λ r rt1 w1 cs,
    same_pipe (rt, w) (rt1, w1) ∧ unnamed cs ∧ ∀ s, r = Ok (Some s) → is_Some (w1.(w_db).(sessions) !! sid)).
Proof.
  eapply leads_weaken; [apply (leads_stm others same_pipe); [exact others_same|done]|].
  intros r rt1 w1 cs (-> & w2 & HS & [= <- <-]). split_and!; [done..|].
  intros s [= Hs]. apply bind_Some in Hs as (x & Hx & _). by exists x.
Qed.

Lemma spawn_agent_leads rt w p is_recovery db_action :
  p.(sa_agent_id) = agent_id →
  leads rt w (spawn_agent cx others p is_recovery db_action) (all_or_nothing p db_action rt w).
Proof.
  intros Hid. unfold spawn_agent.
  apply calm_before_spawn; [calm|]. intros existing rt1 w1.
  destruct (match existing with Some a => _ | None => false end).
  { apply leads_silent; [done|left; apply nothing_refl]. }
  eapply before_spawn; [apply found_leads|]. intros [session|] rt2 w2 Hs.
  2:{ apply leads_silent; [done|left; apply nothing_refl]. }
  specialize (Hs session eq_refl). cbv zeta. rewrite Hid.
  eapply (before_spawn _ _ _ _ _ _ (λ _ w1, is_Some (w1.(w_db).(sessions) !! p.(sa_session_id)))).
  { apply leads_silent; [by destruct (_ && _)|]. by destruct (_ && _). }
  intros credentials rt3 w3 Hs3.
  eapply (before_spawn _ _ _ _ _ _ (λ _ w1, is_Some (w1.(w_db).(sessions) !! p.(sa_session_id)))).
  { by apply leads_silent. }
  intros extensions rt4 w4 Hs4. apply guarded_leads; [done|]. intros sandbox rt5 w5 Hs5.
  by apply in_sandbox_leads.
Qed.

(** C11: A spawn is done wholly or not at all, with one exception.  Whatever the
    other tasks do between its steps, as long as they run no commands of their own
    and leave this agent's entries and pipe alone and delete no session (they may
    move the tables as [R] says), an [agent.spawn] request that is answered has
    written the agent's row in one of the two ways asked for, registered its pane,
    process, screen and pipe and started the three tasks that follow it.  A
    request that fails has written nothing to the database and changed nothing
    that is held of the agent; and no new pipe is left, and every pane it had
    started and named was killed, unless the hash of the configuration could not
    be computed: then at most one pane is left. *)
Theorem spawn_all_or_nothing params p is_recovery db_action rt w :
  spawn_params params = Ok p → p.(sa_agent_id) = agent_id →
  leads rt w (handle_agent_spawn_with_db_action cx others params is_recovery db_action)
    (λ r rt' w' cs,
      match r with
      | Ok answer => spawned p db_action answer rt w rt' w'
      | Err _ => nothing_left rt w rt' w' cs ∨ pane_abandoned rt w rt' w' cs
      end).
Proof.
  intros Hp Hid. unfold handle_agent_spawn_with_db_action. rewrite Hp. by apply leads_ok, spawn_agent_leads.
Qed.

End Spawning.
