(* ===== verification/Witnesses.v ===== *)
(** * Concrete runs

    Reference instances of the two serializers, a small daemon built by running
    entry points from a fresh database, and every theorem that has hypotheses
    applied to it. *)
From S2P Require Import Prelude Json Schema Sql Instances MasterTables JobGate Invariant AgentGate Text Sessions.
From S2P Require Import ReplyText Jobs Completion Evidence StateMachine Agents Recovery Lifecycle.
From S2P Require Import Outbox JobsProofs StateMachineProofs ReplyTextProofs.
From S2P Require Import AgentsProofs LifecycleProofs OutboxProofs System.

(** ** Serializers *)

Definition opt_value {A} (f : A → Value) (x : option A) : Value :=
  JArray (match x with None => [] | Some a => [f a] end).
Definition value_opt {A} (f : Value → A) (v : Value) : option A :=
  match v with JArray [x] => Some (f x) | _ => None end.
Definition value_str (v : Value) : string := match v with JString s => s | _ => "" end.
Definition value_num (v : Value) : Z := match v with JNumber n => n | _ => 0 end.

Lemma value_opt_value {A} (f : A → Value) g (x : option A) :
  (∀ a, g (f a) = a) → value_opt g (opt_value f x) = x.
Proof. intros Hg. unfold value_opt, opt_value. destruct x; [by rw Hg|done]. Qed.

#[global] Arguments opt_value : simpl never.
#[global] Arguments value_opt : simpl never.

Definition kind_of_str (s : string) : OutboxKind :=
  if s == "hook_event" then HookEvent else if s == "job_done" then JobDone
  else if s == "job_fail" then JobFail else Selfcheck.

Definition record_value (r : OutboxRecord) : Value :=
  JArray [JString r.(or_event_id); JString (kind_as_str r.(or_kind)); JString r.(or_agent_id);
          opt_value JString r.(or_provider); opt_value JString r.(or_event);
          opt_value JString r.(or_attempt_cookie); opt_value JString r.(or_job_id);
          opt_value JString r.(or_reply_text); opt_value JString r.(or_reason);
          opt_value JNumber r.(or_hook_fired_at); opt_value id r.(or_payload)].

Definition value_record (v : Value) : option OutboxRecord :=
  match v with
  | JArray [i; k; a; p; e; c; j; t; r; h; q] =>
      Some (MkOutboxRecord (value_str i) (kind_of_str (value_str k)) (value_str a)
        (value_opt value_str p) (value_opt value_str e) (value_opt value_str c)
        (value_opt value_str j) (value_opt value_str t) (value_opt value_str r)
        (value_opt value_num h) (value_opt id q))
  | _ => None
  end.

#[global] Program Instance ref_outbox_serde : OutboxSerde := {|
  record_to_string r := ref_print (record_value r);
  record_from_str s := ref_parse s ≫= value_record
|}.
Next Obligation.
  intros r _. simpl. rw ref_parse_print /=. rw !value_opt_value //. destruct r as [? []]; done.
Qed.

Definition spec_value (s : AgentSpawnSpec) : Value :=
  JArray [JString s.(ss_agent_id); JString s.(ss_provider);
          JArray ((λ kv : string * string, JArray [JString kv.1; JString kv.2])
                    <$> map_to_list s.(ss_env));
          s.(ss_hooks); JArray (JString <$> s.(ss_plugins)); JArray (JString <$> s.(ss_skills));
          JArray (JString <$> s.(ss_bundle)); JObject s.(ss_settings);
          opt_value id s.(ss_bundle_digest); s.(ss_sandbox_overrides);
          JBool s.(ss_hook_push_enabled)].

Definition value_list {A} (f : Value → A) (v : Value) : list A :=
  match v with JArray l => f <$> l | _ => [] end.
Definition value_pair (v : Value) : string * string :=
  match v with JArray [k; x] => (value_str k, value_str x) | _ => ("", "") end.

Definition value_spec (v : Value) : option AgentSpawnSpec :=
  match v with
  | JArray [i; p; e; h; pl; sk; b; JObject st; d; o; JBool hp] =>
      Some (MkSpawnSpec (value_str i) (value_str p) (list_to_map (value_list value_pair e)) h
        (value_list value_str pl) (value_list value_str sk) (value_list value_str b) st
        (value_opt id d) o hp)
  | _ => None
  end.

Lemma fmap_retract {A B} (f : A → B) (g : B → A) (l : list A) :
  (∀ a, g (f a) = a) → g <$> (f <$> l) = l.
Proof. intros Hg. induction l as [|x l IH]; [done|]. by rw !fmap_cons Hg IH. Qed.

Definition parse_spec (s : string) : option AgentSpawnSpec := v ← ref_parse s; value_spec v.

#[global] Program Instance ref_spec_serde : SpawnSpecSerde := {|
  spec_to_string s := ref_print (spec_value s);
  spec_from_str s :=
    match parse_spec s with Some x => Ok x | None => Err "invalid spec" end;
  spec_valid _ := True
|}.
Next Obligation.
  intros s _. unfold parse_spec. rw ref_parse_print /=. rw !fmap_retract //.
  - by intros [].
  - rw list_to_map_to_list value_opt_value //. by destruct s.
Qed.

(** ** A small daemon *)

Definition w_fresh : World := world_at empty_db 1000.
Definition w_start : World := (create_session_sync "s1" "p1" "/repo" w_fresh).2.
(** An idle agent, a second one, and two queued jobs of the first. *)
Definition w_agent : World := (insert_agent_sync "a1" "s1" "claude" "IDLE" (Some 7) w_start).2.
Definition w_agents : World := (insert_agent_sync "a2" "s1" "codex" "IDLE" None w_agent).2.
Definition w_queued1 : World := (insert_job "j1" "a1" (Some "r1") "build it" w_agents).2.
Definition w_queued : World := (insert_job "j2" "a1" None "test it" w_queued1).2.
(** The first job dispatched; its agent waits, then works. *)
Definition dispatch_a1 : M CcbdError (option DispatchedJob) :=
  dispatch_job_to_agent "a1" ["IDLE"] "WAITING_FOR_ACK" "state_change"
    (json_object [("from", JString "IDLE"); ("to", JString "WAITING_FOR_ACK")]).
Definition w_dispatched : World := (dispatch_a1 w_queued).2.
Definition w_busy : World :=
  (transit_agent_state "a1" ["WAITING_FOR_ACK"] "BUSY" None w_dispatched).2.
Definition w_completed : World := (mark_job_completed "j1" "done" w_busy).2.
Definition w_crashed : World := (mark_agent_crashed_with_exit "a1" (Some 9) w_busy).2.

Lemma step_entry {A} (m : M CcbdError A) w w0 :
  quiet_entry A m → reachable w → w0 = (m w).2 → reachable w0.
Proof.
  intros Hm (wi & Hi & Hrtc) ->. exists wi. split; [done|]. eapply rtc_r; [done|].
  by apply step_quiet, quiet_call.
Qed.

Lemma step_delete {A} (m : M CcbdError A) w w0 :
  deleting_entry A m → reachable w → w0 = (m w).2 → reachable w0.
Proof.
  intros Hm (wi & Hi & Hrtc) ->. exists wi. split; [done|]. eapply rtc_r; [done|].
  by apply step_deleting.
Qed.

Lemma reachable_agents : reachable w_agents.
Proof.
  eapply step_delete; [apply d_insert_agent| |reflexivity].
  eapply step_delete; [apply d_insert_agent| |reflexivity].
  eapply step_entry; [apply q_create_session| |reflexivity]. by exists w_fresh.
Qed.

Lemma reachable_queued : reachable w_queued.
Proof.
  eapply step_entry; [apply q_insert_job| |reflexivity].
  eapply step_entry; [apply q_insert_job| |reflexivity]. apply reachable_agents.
Qed.

Lemma reachable_dispatched : reachable w_dispatched.
Proof. eapply step_entry; [apply q_dispatch|apply reachable_queued|reflexivity]. Qed.

Lemma reachable_busy : reachable w_busy.
Proof. eapply step_entry; [apply q_transit|apply reachable_dispatched|reflexivity]. Qed.

Lemma consistent_of w : reachable w → consistent w.(w_db).
Proof. apply reachable_inv. Qed.

Lemma wf_of w : reachable w → db_wf w.(w_db).
Proof. apply reachable_inv. Qed.

Lemma evolves_after {E A} (m : M E A) w w' :
  respects sound m → w' = (m w).2 → evolves w.(w_db) w'.(w_db).
Proof. intros Hm ->. apply (sound_evolves m Hm). Qed.

Lemma consistent_after {E A} (m : M E A) w w' :
  respects sound m → w' = (m w).2 → consistent w.(w_db) → consistent w'.(w_db).
Proof. intros Hm ->. apply (sound_consistent m Hm). Qed.

(** The rows of a world, by name. *)
Definition no_agent : Agent := MkAgent "" "" "" "" 0 None None None 0 None None 0 None false 0.
Definition no_job : Job :=
  MkJob "" 0 "" None "" None "" None 0 None None None false false false.
Definition agent_of (w : World) (id : string) : Agent := default no_agent (w.(w_db).(agents) !! id).
Definition job_of (w : World) (id : string) : Job := default no_job (w.(w_db).(jobs) !! id).

(** What the runs end at. *)
Example small_daemon_runs :
  (j_status (job_of w_queued "j2"), j_status (job_of w_dispatched "j1"),
   a_state (agent_of w_dispatched "a1"), a_state (agent_of w_busy "a1"),
   j_status (job_of w_completed "j1"), a_state (agent_of w_crashed "a1"),
   j_status (job_of w_crashed "j1")) =
  ("QUEUED", "DISPATCHED", "WAITING_FOR_ACK", "BUSY", "COMPLETED", "CRASHED", "FAILED").
Proof. vm_compute. reflexivity. Qed.

(** ** Agents *)

Definition w_acked : World := (mark_agent_waiting_for_ack_sync "a1" 1 w_agents).2.
Definition w_idle_again : World := (transit_agent_state "a1" [] "IDLE" None w_acked).2.

Lemma stale_ack_version_loses_witness :
  mark_agent_waiting_for_ack_sync "a1" 1 w_agents = (Ok true, w_acked) ∧
  mark_agent_waiting_for_ack_sync "a1" 1 w_idle_again = (Ok false, w_idle_again).
Proof.
  assert (Hrun : mark_agent_waiting_for_ack_sync "a1" 1 w_agents = (Ok true, w_acked)).
  { vm_compute. reflexivity. }
  split; [exact Hrun|].
  apply (stale_ack_version_loses "a1" 1 w_agents w_acked w_idle_again Hrun).
  apply (evolves_after (transit_agent_state "a1" [] "IDLE" None) w_acked);
    [apply sound_transit_agent_state|reflexivity].
Defined.

(** ** Jobs *)

Lemma dispatch_takes_oldest_atomically_witness :
  dispatch_post w_queued "a1" (agent_of w_queued "a1") "BUSY" "state_change"
    (dispatch_job_to_agent_sync "a1" ["IDLE"] "BUSY" "state_change" JNull w_queued).
Proof.
  apply (dispatch_takes_oldest_atomically w_queued "a1" (agent_of w_queued "a1") ["IDLE"] "BUSY"
    "state_change" JNull).
  - apply wf_of, reachable_queued.
  - vm_compute. reflexivity.
  - right. vm_compute. constructor.
Defined.

Definition w_submitted : World := (insert_job_sync "j1" "a1" (Some "r1") "build it" w_agents).2.
Definition w_resubmitted : World := (insert_job_sync "j2" "a1" None "test it" w_submitted).2.

Lemma insert_job_idempotent_witness :
  insert_job_sync "j9" "a1" (Some "r1") "again" w_resubmitted = (Ok "j1", w_resubmitted).
Proof.
  apply (insert_job_idempotent w_agents "j1" "a1" "r1" "build it" "j1" w_submitted w_resubmitted
    "j9" "again").
  - apply wf_of, reachable_agents.
  - vm_compute. reflexivity.
  - apply (evolves_after (insert_job_sync "j2" "a1" None "test it") w_submitted);
      [apply sound_insert_job_sync|reflexivity].
  - apply (consistent_after (insert_job_sync "j2" "a1" None "test it") w_submitted);
      [apply sound_insert_job_sync|reflexivity|].
    apply (consistent_after (insert_job_sync "j1" "a1" (Some "r1") "build it") w_agents);
      [apply sound_insert_job_sync|reflexivity|apply consistent_of, reachable_agents].
  - vm_compute. reflexivity.
Defined.

Lemma fail_agent_jobs_exact_witness :
  ∃ ids w', mark_dispatched_jobs_failed_for_agent_collect_sync "a1" "gone" w_busy =
      (Ok (length ids, ids), w') ∧ agent_jobs "a1" "DISPATCHED" w'.(w_db) = [].
Proof.
  destruct (fail_agent_jobs_exact w_busy "a1" "gone" (consistent_of _ reachable_busy))
    as (ids & w' & Hrun & Hnone & _).
  exists ids, w'. split; [exact Hrun|exact Hnone].
Defined.

Lemma cancel_takeover_after_timeout_witness :
  ∃ w1, request_dispatched_job_cancel_sync "j1" w_busy = (Ok 1%nat, w1) ∧
    ∃ w2 j2, force_cancel_pending_dispatched_job_conn_sync "j1" 1030 30 w1 = (Ok true, w2) ∧
      w2.(w_db).(jobs) !! "j1" = Some j2 ∧ j2.(j_status) = "CANCELLED".
Proof.
  destruct (cancel_takeover_after_timeout w_busy "j1" (job_of w_busy "j1") 1030 30)
    as (w1 & Hreq & Hforce & _).
  - apply wf_of, reachable_busy.
  - vm_compute. reflexivity.
  - vm_compute. reflexivity.
  - vm_compute. reflexivity.
  - exists w1. split; [exact Hreq|]. apply Hforce. vm_compute. discriminate.
Defined.

Definition dispatch_raw : M CcbdError (option DispatchedJob) :=
  dispatch_job_to_agent_sync "a1" ["IDLE"] "WAITING_FOR_ACK" "state_change" JNull.
Definition dispatched_a1 : DispatchedJob :=
  match (dispatch_raw w_queued).1 with Ok (Some d) => d | _ => MkDispatchedJob no_job 0 JNull end.

Lemma dispatch_then_requeue_restores_witness :
  ∃ j w2, w_queued.(w_db).(jobs) !! dispatched_a1.(dj_job).(j_id) = Some j ∧
    requeue_dispatched_job_before_send_sync dispatched_a1.(dj_job).(j_id) "a1" "pane gone"
      (dispatch_raw w_queued).2 = (Ok 1%nat, w2).
Proof.
  destruct (dispatch_then_requeue_restores w_queued "a1" (agent_of w_queued "a1") "state_change"
    JNull "pane gone" dispatched_a1 (dispatch_raw w_queued).2) as (j & w2 & Hj & Hrun & _).
  - apply consistent_of, reachable_queued.
  - vm_compute. reflexivity.
  - vm_compute. reflexivity.
  - vm_compute. reflexivity.
  - exists j, w2. split; [exact Hj|exact Hrun].
Defined.

Lemma requeued_attempt_roundtrip_witness :
  recovery_requeued_attempt (Some (recovery_requeued_error_reason 3)) = Some 3.
Proof. apply requeued_attempt_roundtrip. lia. Defined.

Lemma transit_job_state_exact_witness :
  ∃ w', transit_job_state "j1" Dispatched Completed "completed" w_busy = (Ok tt, w') ∧
    ∃ details, transit_job_state "j1" Queued Completed "completed" w_busy =
      (Err (DbConstraintViolation details), w_busy).
Proof.
  pose proof (wf_of _ reachable_busy) as Hwf.
  destruct (transit_job_state_exact w_busy "j1" Dispatched Completed "completed" Hwf)
    as [(j & _ & Hrun)|[Hno _]].
  - eexists. split; [exact Hrun|].
    destruct (transit_job_state_exact w_busy "j1" Queued Completed "completed" Hwf)
      as [(k & (Hk & Hst & _) & _)|[_ Herr]]; [|exact Herr].
    exfalso. vm_compute in Hk. injection Hk as <-. discriminate Hst.
  - exfalso. apply (Hno (job_of w_busy "j1")). split; [vm_compute; reflexivity|].
    split; [vm_compute; reflexivity|]. split; [constructor|discriminate].
Defined.

(** ** Terminal text *)

Definition screen : string :=
  String (Ascii.ascii_of_nat 27) "[1m> build  it" +:+ String (Ascii.ascii_of_nat 27) "[0m done".

Lemma strip_ansi_clean_witness : strip_ansi_escapes screen = "> build  it done".
Proof.
  destruct (strip_ansi_clean screen) as (_ & _ & _ & Hidem).
  - unfold whole_text. apply (bool_decide_unpack _). vm_compute. exact I.
  - rewrite <- Hidem. vm_compute. reflexivity.
Defined.

Lemma prompt_cut_is_boundary_witness :
  ∃ pre suf, chars "> build  it done" = pre ++ suf ∧ concat_str suf = " done".
Proof.
  destruct (prompt_cut_is_boundary "> build  it done" "build it" 11) as (pre & suf & Hch & _ & Hd).
  - vm_compute. reflexivity.
  - exists pre, suf. split; [exact Hch|]. rewrite <- Hd. vm_compute. reflexivity.
Defined.

Lemma echoed_prompt_found_witness : is_Some (prompt_match_end_byte ("> " +:+ "build it" +:+ " done") "build it").
Proof.
  apply (echoed_prompt_found "> " "build it" " done").
  1,2,3: unfold whole_text; apply (bool_decide_unpack _); vm_compute; exact I.
  - vm_compute. eexists. split; reflexivity.
  - vm_compute. eexists. split; reflexivity.
Defined.

(** ** Completion signals *)

Lemma signals_respect_evidence_witness :
  signal_post w_busy "a1" ms_changes
    (run_signal (SigHook "a1" "claude" "stop" None (Some "all done") None) w_busy).
Proof.
  apply (signals_respect_evidence (SigHook "a1" "claude" "stop" None (Some "all done") None) w_busy).
  apply wf_of, reachable_busy.
Defined.

Lemma log_line_completes_job_witness :
  ∃ w', mark_agent_idle_log_event_outcome_sync "a1" "claude" (Some "all done") "/log" 0 None w_busy =
    (Ok (MkMarkerMatchedSyncOutcome 1 None None), w').
Proof.
  destruct (log_line_completes_job w_busy "a1" (agent_of w_busy "a1") (job_of w_busy "j1") "claude"
    "all done" "/log" 0 None) as (w' & Hrun & _).
  - apply wf_of, reachable_busy.
  - vm_compute. reflexivity.
  - left. vm_compute. reflexivity.
  - vm_compute. reflexivity.
  - split; vm_compute; discriminate.
  - discriminate.
  - exists w'. exact Hrun.
Defined.

(** The pane of the agent shows the marker of another job. *)
Definition w_foreign : World :=
  (insert_event_null "insert output" "a1" "output_chunk"
     (json_object [("text", JString (AH_IDLE_MARKER +:+ "j7>>>"))]) w_busy).2.

Example foreign_marker_seen :
  latest_marker "a1" (job_of w_foreign "j1").(j_dispatched_at_seq_id) w_foreign.(w_db) = Some "j7".
Proof. vm_compute. reflexivity. Qed.

Lemma foreign_marker_ignored_witness :
  ∃ o w', mark_agent_idle_matched_outcome_sync "a1" w_foreign = (Ok o, w') ∧
    o.(ms_changes) = 0%nat ∧ w'.(w_db).(jobs) = w_foreign.(w_db).(jobs).
Proof.
  destruct (foreign_marker_ignored w_foreign "a1" (agent_of w_foreign "a1") (job_of w_foreign "j1")
    "j7") as (o & w' & Hrun & Hn & Hj & _).
  - vm_compute. reflexivity.
  - vm_compute. reflexivity.
  - vm_compute. reflexivity.
  - vm_compute. discriminate.
  - exists o, w'. split; [exact Hrun|]. split; [exact Hn|exact Hj].
Defined.

Lemma stuck_fails_current_job_witness :
  ∃ o w', mark_agent_stuck_outcome_sync "a1" "no output" w_busy = (Ok o, w') ∧
    o.(so_changes) = 1%nat ∧
    w'.(w_db).(jobs) =
      <["j1" := failed_row 1000 "no output" (job_of w_busy "j1")]> w_busy.(w_db).(jobs).
Proof.
  pose proof (stuck_fails_current_job w_busy "a1" "no output" (wf_of _ reachable_busy)) as Hst.
  assert (Ha : w_busy.(w_db).(agents) !! "a1" = Some (agent_of w_busy "a1"))
    by (vm_compute; reflexivity).
  assert (Hb : (a_state (agent_of w_busy "a1") == STATE_BUSY) ||
               (a_state (agent_of w_busy "a1") == STATE_WAITING_FOR_ACK) = true)
    by (vm_compute; reflexivity).
  assert (Hc : current_job "a1" w_busy.(w_db) = Some (job_of w_busy "j1"))
    by (vm_compute; reflexivity).
  rw Ha Hb Hc in Hst. destruct Hst as (w' & Hrun & _ & Hj). eexists _, w'.
  split; [exact Hrun|]. split; [reflexivity|]. exact Hj.
Defined.

(** A reply that announces further work defers the completion. *)
Definition deferral : M CcbdError (option string) :=
  handle_completion_deferral_sync "a1" "j1" "I will report back when the build is complete" "BUSY" 3.
Definition w_deferred : World := (deferral w_busy).2.

Lemma deferral_nudges_once_witness :
  ∃ w3, handle_completion_deferral_sync "a1" "j1" "I will report back when the build is complete"
          "BUSY" 4 w_deferred = (Ok None, w3).
Proof.
  apply (deferral_nudges_once w_busy "a1" "j1" "I will report back when the build is complete" "BUSY"
    3 (Some DEFERRED_NUDGE) w_deferred w_deferred).
  - vm_compute. reflexivity.
  - reflexivity.
  - vm_compute. eexists. reflexivity.
Defined.

(** ** Crashes and recovery *)

Definition ref_intent : AgentRecoveryIntent :=
  MkIntent "a1" "s1" "claude" "BUSY" 4 (Some "j1") (Some "DISPATCHED")
    (Some (MkCapturedJob "j1" (Some "r1") "build it" false true false)) Revive "CRASHED".

Lemma intent_roundtrip_witness :
  ∃ w', persist_agent_recovery_intent_sync ref_intent w_busy = (Ok tt, w') ∧
        query_agent_recovery_intent_sync "a1" w' = (Ok (Some ref_intent), w').
Proof.
  apply (intent_roundtrip w_busy ref_intent).
  - by intros c [= <-].
  - vm_compute. eexists. reflexivity.
Defined.

Lemma busy_not_gone : a_state (agent_of w_busy "a1") ∉ ["CRASHED"; "KILLED"; "PROMPT_PENDING"].
Proof. apply (bool_decide_unpack _). vm_compute. exact I. Qed.

Lemma crash_captures_intent_witness :
  ∃ w' i, mark_agent_crashed_sync "a1" (Some 9) "AGENT_UNEXPECTED_EXIT" w_busy = (Ok 1%nat, w') ∧
    query_agent_recovery_intent_sync "a1" w' = (Ok (Some i), w').
Proof.
  destruct (crash_captures_intent w_busy "a1" (agent_of w_busy "a1") (Some 9) "AGENT_UNEXPECTED_EXIT")
    as (w' & i & Hrun & _ & _ & Hq & _).
  - apply consistent_of, reachable_busy.
  - vm_compute. reflexivity.
  - apply busy_not_gone.
  - exists w', i. split; [exact Hrun|exact Hq].
Defined.

Definition w_crash : World :=
  (mark_agent_crashed_sync "a1" (Some 9) "AGENT_UNEXPECTED_EXIT" w_busy).2.
Definition crash_intent : AgentRecoveryIntent :=
  match (query_agent_recovery_intent_sync "a1" w_crash).1 with Ok (Some i) => i | _ => ref_intent end.

Lemma crash_then_requeue_witness :
  ∃ w2 j2, requeue_interrupted_job_from_captured_intent_standalone_sync crash_intent w_crash =
      (Ok 1%nat, w2) ∧ w2.(w_db).(jobs) !! "j1" = Some j2 ∧ j2.(j_status) = "QUEUED".
Proof.
  destruct (crash_then_requeue w_busy "a1" (agent_of w_busy "a1") (job_of w_busy "j1") (Some 9)
    "AGENT_UNEXPECTED_EXIT" w_crash crash_intent) as (w2 & j2 & Hrun & Hj & Hs & _).
  - apply consistent_of, reachable_busy.
  - vm_compute. reflexivity.
  - apply busy_not_gone.
  - vm_compute. reflexivity.
  - vm_compute. reflexivity.
  - vm_compute. reflexivity.
  - exists w2, j2. split; [exact Hrun|]. split; [exact Hj|exact Hs].
Defined.

Lemma unknown_then_assert_recovers_witness :
  ∃ w1 w2 seq a2,
    mark_agent_unknown_sync "evi_1" "a1" "PROBE_FAILED" [] JNull w_busy = (Ok 1%nat, w1) ∧
    assert_state_to_idle_sync "a1" "evi_1" w1 = (Ok seq, w2) ∧
    w2.(w_db).(agents) !! "a1" = Some a2 ∧ a2.(a_state) = STATE_IDLE.
Proof.
  destruct (unknown_then_assert_recovers w_busy "evi_1" "a1" (agent_of w_busy "a1") "PROBE_FAILED" []
    JNull) as (w1 & w2 & a1 & a2 & v1 & v2 & seq & H1 & _ & _ & _ & _ & _ & H2 & Ha & Hs & _).
  - apply consistent_of, reachable_busy.
  - vm_compute. reflexivity.
  - vm_compute. reflexivity.
  - vm_compute. reflexivity.
  - exists w1, w2, seq, a2. split; [exact H1|]. split; [exact H2|]. split; [exact Ha|exact Hs].
Defined.

(** The slot of the crashed agent is taken over once the agent is killed. *)
Definition spec_of (id : string) (prov : string) : AgentSpawnSpec :=
  MkSpawnSpec id prov {["LANG" := "C"]} JNull ["p"] [] [] [("model", JString "m")] None JNull true.
Definition w_killed : World := (mark_agent_killed_sync "a1" "recovery" w_busy).2.
Definition captured_j1 : CapturedInterruptedJob :=
  MkCapturedJob "j1" (Some "r1") "build it" false true false.

Lemma spawn_spec_latest_witness :
  ∃ w', persist_specs [(spec_of "a1" "claude", "h1"); (spec_of "a1" "codex", "h2")] w_busy =
      (Ok tt, w') ∧
    query_agent_spawn_spec_sync "a1" w' =
      (Ok (Some (MkStoredSpec (spec_of "a1" "codex") "h2" 2 1000)), w').
Proof.
  apply (spawn_spec_latest w_busy "a1" [(spec_of "a1" "claude", "h1")] (spec_of "a1" "codex") "h2").
  - vm_compute. eexists. reflexivity.
  - vm_compute. reflexivity.
  - repeat constructor.
  - exact I.
Defined.

Lemma replacement_restores_job_witness :
  ∃ w' rowid,
    replace_killed_agent_and_requeue_job_sync "s1" (spec_of "a1" "claude") "h1" 42 (Some ref_intent)
      w_killed = (Ok 1%nat, w') ∧
    w'.(w_db).(jobs) !! "j1" = Some (restored_job 1000 rowid "a1" captured_j1).
Proof.
  destruct (replacement_restores_job w_killed "s1" (spec_of "a1" "claude") "h1" 42 ref_intent
    captured_j1 (agent_of w_killed "a1")) as (w' & rowid & Hrun & _ & _ & Hj & _).
  - vm_compute. reflexivity.
  - vm_compute. reflexivity.
  - vm_compute. reflexivity.
  - vm_compute. eexists. reflexivity.
  - vm_compute. reflexivity.
  - reflexivity.
  - reflexivity.
  - reflexivity.
  - reflexivity.
  - intros j Hj. vm_compute in Hj. injection Hj as <-. reflexivity.
  - exact I.
  - exists w', rowid. split; [exact Hrun|exact Hj].
Defined.

Lemma recovery_gives_up_witness :
  ∃ w' b, record_failures "a1" [1; 2; 3; 4; 5] w_crash = (Ok tt, w') ∧
    w'.(w_db).(agents) !! "a1" = Some b ∧ b.(a_retry_exhausted) = true.
Proof.
  destruct (recovery_gives_up "a1" [1; 2; 3; 4] 5 w_crash (agent_of w_crash "a1"))
    as (w' & b & Hrun & Hb & _ & _ & Hex).
  - vm_compute. reflexivity.
  - vm_compute. reflexivity.
  - exists w', b. split; [exact Hrun|]. split; [exact Hb|]. apply Hex. vm_compute. discriminate.
Defined.

Definition crash_version : Z := (agent_of w_crash "a1").(a_state_version).
Definition w_claimed : World := (try_claim_agent_recovery_sync "a1" crash_version 1000 w_crash).2.

Lemma recovery_claim_exclusive_witness :
  try_claim_agent_recovery_sync "a1" crash_version 1001 w_claimed = (Ok false, w_claimed).
Proof.
  apply (recovery_claim_exclusive "a1" crash_version 1000 w_crash w_claimed w_claimed).
  - vm_compute. reflexivity.
  - reflexivity.
Defined.

(** ** The outbox *)

Definition hook_record (event_id agent_id : string) : OutboxRecord :=
  MkOutboxRecord event_id HookEvent agent_id (Some "claude") (Some "stop") None None None None None
    None.
Definition done_record : OutboxRecord :=
  MkOutboxRecord "e2" JobDone "a1" None None None (Some "j1") (Some "done") None None None.

Lemma no_declarations w :
  w.(w_db).(outbox_job_declarations) = ∅ → ledger_covers w.(w_db).
Proof. intros He id. rw He lookup_empty. by intros [? ?]. Qed.

Lemma covers_agents : ledger_covers w_agents.(w_db).
Proof. apply no_declarations. vm_compute. reflexivity. Qed.

Lemma outbox_exactly_once_witness :
  let rs := [hook_record "e1" "a1"; done_record; hook_record "e1" "a1"; done_record;
             hook_record "e3" "nobody"] in
  let db' := (deliver rs w_agents).(w_db) in
  ∃ accepted, accepted `sublist_of` rs ∧ NoDup (or_event_id <$> accepted) ∧
    db' = applied w_agents.(w_now) accepted w_agents.(w_db) ∧
    event_key <$> db'.(events) = (event_key <$> w_agents.(w_db).(events)) ++ hook_keys accepted.
Proof.
  destruct (outbox_exactly_once [hook_record "e1" "a1"; done_record; hook_record "e1" "a1";
    done_record; hook_record "e3" "nobody"] w_agents covers_agents)
    as (accepted & Hsub & Hnd & Hdb & _ & _ & Hev & _).
  exists accepted. split; [exact Hsub|]. split; [exact Hnd|]. split; [exact Hdb|exact Hev].
Defined.

Definition ref_fs : ScanFs :=
  MkScanFs false map_to_list (λ _, false) (λ _, false) (λ _, false).

Lemma ref_listing : listing_ok ref_fs.
Proof. by intros files. Qed.

Lemma ref_no_faults : no_faults ref_fs.
Proof. by split. Qed.

(** A directory with a record, a file that does not parse and a foreign file. *)
Definition ref_dir : OutboxDir :=
  MkOutboxDir (<["e1.json" := record_to_string (hook_record "e1" "a1")]>
              (<["bad.json" := "{"]> {["note.txt" := "x"]})) ∅.

Lemma scan_loses_nothing_witness :
  kept (cold_scan_dir ref_fs ref_dir w_agents).1.2 (cold_scan_dir ref_fs ref_dir w_agents).2.(w_db)
    "bad.json" "{".
Proof.
  pose proof (scan_loses_nothing ref_fs ref_dir w_agents ref_listing) as Hscan.
  destruct (cold_scan_dir ref_fs ref_dir w_agents) as [[res d'] w'].
  apply (proj1 Hscan). vm_compute. reflexivity.
Defined.

Lemma scan_report_adds_up_witness :
  ∃ report d' w', cold_scan_dir ref_fs ref_dir w_agents = (Ok report, d', w') ∧
    report.(sr_scanned) = 2%nat ∧
    (report.(sr_consumed) + report.(sr_duplicates) + report.(sr_quarantined) +
     report.(sr_retry_deferred) = 2)%nat.
Proof.
  assert (Hrun : cold_scan_dir ref_fs ref_dir w_agents =
    (Ok (MkScanReport 2 1 0 1 0), (cold_scan_dir ref_fs ref_dir w_agents).1.2,
     (cold_scan_dir ref_fs ref_dir w_agents).2)) by (vm_compute; reflexivity).
  destruct (scan_report_adds_up ref_fs ref_dir w_agents _ _ _ ref_listing Hrun) as [_ Hsum].
  eexists _, _, _. split; [exact Hrun|]. split; [reflexivity|]. symmetry. exact Hsum.
Defined.

Lemma journalled_record_is_delivered_witness :
  ∃ report d2 w2,
    cold_scan_dir ref_fs (journal_record (λ _, false) "" ref_dir (hook_record "e5" "a1")).2 w_agents =
      (Ok report, d2, w2) ∧
    is_Some (w2.(w_db).(outbox_consumed) !! "e5") ∧ d2.(od_files) !! "e5.json" = None.
Proof.
  apply (journalled_record_is_delivered ref_fs (λ _, false) "" ref_dir (hook_record "e5" "a1")
    (journal_record (λ _, false) "" ref_dir (hook_record "e5" "a1")).2 w_agents).
  - by split.
  - discriminate.
  - apply ref_listing.
  - apply ref_no_faults.
  - apply covers_agents.
  - vm_compute. eexists. reflexivity.
  - reflexivity.
Defined.

Lemma poison_record_set_aside_witness :
  let d := MkOutboxDir {["e9.json" := record_to_string (hook_record "e9" "nobody")]} ∅ in
  ∃ w1 w2 d3 w3,
    cold_scan_dir ref_fs d w_agents = (Ok (MkScanReport 1 0 0 0 1), d, w1) ∧
    cold_scan_dir ref_fs d w1 = (Ok (MkScanReport 1 0 0 0 1), d, w2) ∧
    cold_scan_dir ref_fs d w2 = (Ok (MkScanReport 1 0 0 1 0), d3, w3) ∧
    d3.(od_files) = ∅.
Proof.
  destruct (poison_record_set_aside ref_fs
    (MkOutboxDir {["e9.json" := record_to_string (hook_record "e9" "nobody")]} ∅) w_agents
    (hook_record "e9" "nobody")) as (w1 & w2 & d3 & w3 & H1 & H2 & H3 & Hf & _).
  - by split.
  - discriminate.
  - reflexivity.
  - apply ref_listing.
  - apply ref_no_faults.
  - vm_compute. reflexivity.
  - vm_compute. reflexivity.
  - vm_compute. reflexivity.
  - reflexivity.
  - exists w1, w2, d3, w3. split; [exact H1|]. split; [exact H2|]. split; [exact H3|exact Hf].
Defined.

(** ** The system *)

Lemma reachable_well_formed_witness : db_wf w_busy.(w_db).
Proof. apply (reachable_well_formed w_busy), reachable_busy. Defined.

Lemma audit_trail_replays_witness :
  replay None (status_log "j1" w_busy.(w_db)) = Some (Some "DISPATCHED").
Proof.
  apply (audit_trail_replays w_busy "j1" (job_of w_busy "j1") reachable_busy).
  vm_compute. reflexivity.
Defined.

Lemma quiet_of {A} (m : M CcbdError A) w w' :
  quiet_entry A m → w' = (m w).2 → rtc quiet_step w w'.
Proof. intros Hm ->. apply rtc_once. by apply quiet_call. Qed.

Definition w_failed : World := (mark_job_failed "j1" "too late" w_completed).2.

Lemma terminal_jobs_stay_witness :
  ∃ j', w_failed.(w_db).(jobs) !! "j1" = Some j' ∧ j'.(j_status) = "COMPLETED".
Proof.
  destruct (terminal_jobs_stay w_completed w_failed "j1" (job_of w_completed "j1"))
    as (j' & Hj & Hs & _).
  - eapply quiet_of; [apply q_failed|reflexivity].
  - vm_compute. reflexivity.
  - apply (bool_decide_unpack _). vm_compute. exact I.
  - exists j'. split; [exact Hj|]. rw Hs. vm_compute. reflexivity.
Defined.

Lemma version_fences_state_witness :
  ∃ a', w_busy.(w_db).(agents) !! "a1" = Some a' ∧
    ((agent_of w_dispatched "a1").(a_state_version) ≤ a'.(a_state_version)).
Proof.
  destruct (version_fences_state w_dispatched w_busy "a1" (agent_of w_dispatched "a1"))
    as (a' & Ha & Hv & _).
  - eapply quiet_of; [apply q_transit|reflexivity].
  - vm_compute. reflexivity.
  - exists a'. split; [exact Ha|exact Hv].
Defined.

Lemma logs_append_only_witness :
  w_dispatched.(w_db).(events) `prefix_of` w_busy.(w_db).(events).
Proof.
  apply (logs_append_only w_dispatched w_busy).
  eapply quiet_of; [apply q_transit|reflexivity].
Defined.
