(* ===== verification/MasterWitnesses.v ===== *)
(** * Concrete runs: sessions, masters, events, startup

    The daemon of [Witnesses] with a master, and the theorems on the session
    side applied to it. *)
From S2P Require Import Prelude Json Schema Sql Instances MasterTables JobGate Invariant MasterSound AgentGate.
From S2P Require Import Text Sessions Cutovers MasterRecovery MasterRevival ReplyText Jobs StateMachine.
From S2P Require Import Events Perception Agents Recovery Lifecycle Startup LifecycleProofs MasterProofs.
From S2P Require Import EventsProofs StartupProofs SessionWatch SessionHandlers System Witnesses.

Definition session_of (w : World) (id : string) : Session :=
  default (new_session 0 "" "" 0) (w.(w_db).(sessions) !! id).

Lemma master_of_reachable w : reachable w → master_ok (master_of w.(w_db)).
Proof. apply reachable_master. Qed.

(** The session's master runs; its agent works. *)
Definition w_master : World := (record_spawned_master_runtime "s1" "%1" 500 w_busy).2.

Lemma reachable_master_world : reachable w_master.
Proof. eapply step_entry; [apply q_spawned_master|apply reachable_busy|reflexivity]. Qed.

(** ** Cutovers *)

Definition w_cutover : World := (claim_master_cutover "c1" "s1" (Some 500) "/d" "/s" "/h" w_master).2.

Lemma reachable_cutover : reachable w_cutover.
Proof. eapply step_entry; [apply q_cutover_claim|apply reachable_master_world|reflexivity]. Qed.

Lemma get_active_cutover_is_holder_witness :
  ∃ c, get_active_master_cutover "s1" w_cutover = (Ok (Some c), w_cutover) ∧ c.(mc_id) = "c1".
Proof.
  eexists. split.
  - rewrite (get_active_cutover_is_holder w_cutover "s1");
      [apply master_of_reachable, reachable_cutover|].
    vm_compute. reflexivity.
  - vm_compute. reflexivity.
Defined.

Definition cutover_story : list CutoverOp :=
  [OpClaim "c1" "s1" (Some 500) "/d" "/s" "/h"; OpClaim "c2" "s1" (Some 500) "/d" "/s" "/h";
   OpState "c1" "PREPARING" "FAILED"; OpClaim "c2" "s1" (Some 500) "/d" "/s" "/h"].

Example cutover_story_answers :
  (run_cutovers cutover_story w_master).1.*2 =
  [Ok (ReplyClaim CutoverClaimed); Ok (ReplyClaim AlreadyActive); Ok (ReplyUpdate Updated);
   Ok (ReplyClaim CutoverClaimed)].
Proof. vm_compute. reflexivity. Qed.


Lemma cutover_exclusive_witness :
  let w2 := (run_cutovers [OpState "c9" "PREPARING" "SPAWNING"; OpAck "c9" "ack"] w_cutover).2 in
  claim_master_cutover "c2" "s1" None "/d" "/s" "/h" w2 = (Ok AlreadyActive, w2).
Proof.
  apply (cutover_exclusive w_master w_cutover "c1" "s1" (Some 500) "/d" "/s" "/h"
    [OpState "c9" "PREPARING" "SPAWNING"; OpAck "c9" "ack"]).
  - apply master_of_reachable, reachable_master_world.
  - vm_compute. reflexivity.
  - repeat constructor; discriminate.
Defined.

(** ** Masters *)

Definition w_claimed_master : World := (try_claim_master_transition "s1" 500 1 w_master).2.

Lemma master_generation_fence_witness :
  try_claim_master_transition "s1" 500 1 w_claimed_master = (Ok TransitionStale, w_claimed_master).
Proof.
  destruct (master_generation_fence "s1" 500 1 w_master w_claimed_master w_claimed_master)
    as [Hclaim _].
  - vm_compute. reflexivity.
  - reflexivity.
  - exact (Hclaim 500).
Defined.

Lemma revive_attempts_terminate_witness :
  ∃ w', revive_loop "s1" 500 1 [10; 20; 30; 40; 50] w_master =
      (Ok [Spawn 1 11; Spawn 2 22; Spawn 3 34; Spawn 4 48; Fused], w').
Proof.
  destruct (revive_attempts_terminate "s1" 500 1 (session_of w_master "s1") [10; 20; 30; 40; 50]
    w_master) as (w' & Hrun & _).
  - vm_compute. reflexivity.
  - vm_compute. reflexivity.
  - vm_compute. split; [discriminate|reflexivity].
  - vm_compute. discriminate.
  - exists w'. rewrite Hrun. vm_compute. reflexivity.
Defined.

(** The master died with work under way: the cascade is deferred, then not. *)
Definition w_deferred_cascade : World := (decide_anchor_cascade_sync None "s1" 2000 w_master).2.

Lemma reachable_deferred_cascade : reachable w_deferred_cascade.
Proof. eapply step_entry; [apply q_decide|apply reachable_master_world|reflexivity]. Qed.

Definition window_of (w : World) (id : string) : WindowRow :=
  default (fresh_window "" 0 0 false 0 0) (w.(w_db).(recovery_windows) !! id).

Lemma deferral_bounded_witness :
  ∃ r, w_deferred_cascade.(w_db).(recovery_windows) !! "s1" = Some r ∧ r.(m_defer_until) = 2090.
Proof.
  destruct (deferral_bounded None "s1" 2000 w_master w_deferred_cascade 2090 "DETECTED")
    as (r & Hr & _ & _ & _ & Hd & _).
  - apply master_of_reachable, reachable_master_world.
  - vm_compute. reflexivity.
  - exists r. split; [exact Hr|exact Hd].
Defined.

Lemma expired_window_is_final_witness :
  ∃ w1, decide_anchor_cascade_sync None "s1" 2301 w_deferred_cascade =
          (Ok (CascadeNow "MASTER_REVIVE_WINDOW_EXPIRED"), w1) ∧
    s_status <$> w1.(w_db).(sessions) !! "s1" = Some "FAILED".
Proof.
  destruct (expired_window_is_final None "s1" 2301 w_deferred_cascade
    (session_of w_deferred_cascade "s1") (window_of w_deferred_cascade "s1")) as (w1 & Hrun & Hs & _).
  - apply master_of_reachable, reachable_deferred_cascade.
  - vm_compute. reflexivity.
  - vm_compute. reflexivity.
  - vm_compute. reflexivity.
  - vm_compute. reflexivity.
  - vm_compute. reflexivity.
  - exists w1. split; [exact Hrun|exact Hs].
Defined.

Lemma readiness_wait_fits_window_witness :
  ∃ t, master_recovery_effective_readiness_timeout "s1" 2000 30 w_deferred_cascade =
         (Ok (Some t), w_deferred_cascade) ∧ t ≤ 60.
Proof.
  pose proof (readiness_wait_fits_window "s1" 2000 30 w_deferred_cascade
    (master_of_reachable _ reachable_deferred_cascade)) as Hwait.
  assert (Hr : w_deferred_cascade.(w_db).(recovery_windows) !! "s1" =
    Some (window_of w_deferred_cascade "s1")) by (vm_compute; reflexivity).
  rewrite Hr in Hwait. destruct Hwait as (t & Hrun & Ht & _). exists t. split; [exact Hrun|exact Ht].
Defined.

Lemma shutdown_functional_witness :
  ∃ n w', mark_all_sessions_intentional_shutdown w_busy = (Ok n, w') ∧
    w'.(w_db).(jobs) = w_busy.(w_db).(jobs).
Proof.
  destruct (shutdown_functional w_busy) as (n & w' & Hrun & _ & _ & Hj).
  - apply (wf_agent_key _ (wf_of _ reachable_busy)).
  - exists n, w'. split; [exact Hrun|exact Hj].
Defined.

(** ** Events *)

Lemma polling_sees_each_event_once_witness :
  poll "a1" 0 [w_queued; w_busy] = (query_events_since_sync "a1" 0 w_busy).1.
Proof.
  apply (polling_sees_each_event_once "a1" 0 w_queued [w_queued; w_busy] w_busy).
  - apply dev_next with w_busy.
    + apply wf_of, reachable_queued.
    + apply quiet_steps_evolve. apply rtc_l with w_dispatched.
      * apply (quiet_call _ dispatch_a1 w_queued), q_dispatch.
      * eapply quiet_of; [apply q_transit|reflexivity].
    + apply dev_one, wf_of, reachable_busy.
  - reflexivity.
Defined.

Definition w_requested : World := (insert_event_sync "a1" (Some "q1") "command_received" "{}" w_agents).2.

Lemma duplicate_event_names_first_witness :
  ∃ seq, insert_event_sync "a1" (Some "q1") "command_received" "other" w_requested =
           (Err (DuplicateRequest seq), w_requested).
Proof.
  exists (event_seq w_requested.(w_db)).
  apply (duplicate_event_names_first "a1" "q1" "command_received" "{}" _ w_agents w_requested).
  - vm_compute. reflexivity.
  - reflexivity.
Defined.

Definition w_perceived : World :=
  (emit_perception_event_sync "a1" LayerLog VUnknown 3 1000 (JBool true) w_busy).2.

Lemma perception_roundtrip_witness :
  query_perception_events_sync "a1" w_perceived =
  (Ok [MkPerceptionEvent "a1" LayerLog VUnknown 3 1000 (JBool true)], w_perceived).
Proof.
  apply (perception_roundtrip "a1" LayerLog VUnknown 3 1000 (JBool true) [] w_busy
    (event_seq w_perceived.(w_db)) w_perceived).
  - apply consistent_of, reachable_busy.
  - vm_compute. split; discriminate.
  - vm_compute. split; discriminate.
  - exact I.
  - vm_compute. reflexivity.
  - vm_compute. reflexivity.
Defined.

(** ** Ending sessions *)

Definition ref_runner : SystemctlRunner := MkRunner (Ok []) (λ _, Ok tt).
Definition ref_host : Host :=
  MkHost (λ _, Dead) (λ _, false) (λ _, Ok tt) (λ _, None) (Ok 0%nat).

Lemma cascade_ends_session_witness :
  ∃ w', cascade_kill_session_agents_with_runner_sync ref_host "s1" "gone" None ref_runner w_busy =
          (Ok 2%nat, w') ∧ j_status <$> w'.(w_db).(jobs) !! "j1" = Some "FAILED".
Proof.
  destruct (cascade_ends_session ref_host "s1" "gone" None ref_runner w_busy (session_of w_busy "s1"))
    as (w' & Hrun & Hend).
  - apply consistent_of, reachable_busy.
  - apply master_of_reachable, reachable_busy.
  - vm_compute. reflexivity.
  - exists w'. split; [exact Hrun|]. rewrite (se_jobs _ _ _ _ Hend). vm_compute. reflexivity.
Defined.

Lemma startup_crashes_the_lost_witness :
  a_state <$> (reconcile_active_agents_to_crashed_sync ref_host (Some "/d") w_busy).2.(w_db).(agents)
    !! "a1" = Some "CRASHED".
Proof.
  destruct (startup_crashes_the_lost ref_host "/d" w_busy) as (_ & Hag & _).
  - apply consistent_of, reachable_busy.
  - rewrite Hag. vm_compute. reflexivity.
Defined.

Definition lost_anchor : WatchTurn :=
  MkWatchTurn (ProbeOutput "inactive") (λ _, ProbeOutput "failed") 2000 (λ _, false).

Lemma anchor_loss_ends_session_witness :
  ∃ stop w', watch_turn ref_host ref_runner None "s1" lost_anchor w_agents = (Ok stop, w').
Proof.
  pose proof (anchor_loss_ends_session ref_host ref_runner None "s1" lost_anchor w_agents
    (session_of w_agents "s1") (consistent_of _ reachable_agents)
    (master_of_reachable _ reachable_agents) ltac:(vm_compute; reflexivity)) as Hturn.
  assert (Ht : inactive_thrice lost_anchor = true) by (vm_compute; reflexivity).
  rewrite Ht in Hturn. destruct Hturn as (stop & w' & Hrun & _). exists stop, w'. exact Hrun.
Defined.

(** Nothing is under way in [w_agents], so that watch ends with the session. *)
Example lost_anchor_cascades :
  let '(r, w') := watch_turn ref_host ref_runner None "s1" lost_anchor w_agents in
  (r, a_state <$> w'.(w_db).(agents) !! "a1") = (Ok true, Some "KILLED").
Proof. vm_compute. reflexivity. Qed.

Definition ref_runtime : Runtime :=
  MkRuntime (MkEnvState true true false) "ahd-0" (λ _, None) (λ _ _, true).

Lemma session_kill_ends_session_witness :
  ∃ answer w', handle_session_kill ref_host ref_runner ref_runtime
      (json_object [("session_id", JString "s1")]) w_busy = (Ok answer, w') ∧
    value_get "killed_agents" answer = Some (JNumber 2).
Proof.
  pose proof (session_kill_ends_session ref_host ref_runner ref_runtime
    (json_object [("session_id", JString "s1")]) w_busy (consistent_of _ reachable_busy)
    (master_of_reachable _ reachable_busy)) as Hkill.
  change (required_str (json_object [("session_id", JString "s1")]) "session_id") with
    (Ok "s1" : Result string CcbdError) in Hkill.
  assert (Hs : bool_decide (is_Some (w_busy.(w_db).(sessions) !! "s1")) = true)
    by (vm_compute; reflexivity).
  cbv beta iota in Hkill. rewrite Hs in Hkill. destruct Hkill as (answer & w' & Hrun & _ & Hn).
  exists answer, w'. split; [exact Hrun|]. rewrite Hn. vm_compute. reflexivity.
Defined.

Definition w_session_killed : World := (mark_session_intentional_killed "s1" w_busy).2.

Lemma ended_sessions_stay_witness :
  ∃ s', (record_spawned_master_runtime "s1" "%9" 900 w_session_killed).2.(w_db).(sessions) !! "s1" =
          Some s' ∧ s'.(s_status) ≠ "ACTIVE".
Proof.
  destruct (ended_sessions_stay w_session_killed
    (record_spawned_master_runtime "s1" "%9" 900 w_session_killed).2 "s1"
    (session_of w_session_killed "s1")) as (s' & Hs & _ & _ & Hend).
  - apply rtc_once, step_quiet, quiet_call, q_spawned_master.
  - vm_compute. reflexivity.
  - exists s'. split; [exact Hs|]. apply Hend. vm_compute. discriminate.
Defined.
