(* ===== verification/GatewayWitnesses.v ===== *)
(** * Concrete runs: the gateway, spawning, the health check

    Reference instances of the external functions the gateway uses, and its
    theorems applied to concrete tokens, requests, files and callers. *)
From S2P Require Import Prelude Json Schema Sql Instances MasterTables JobGate Invariant AgentGate Text Base64.
From S2P Require Import Gateway TokenRefresh GatewayHttp Credentials Shell Providers Jobs.
From S2P Require Import StateMachine Events Agents HealthCheck HealthCheckProofs Startup SessionHandlers Spawn.
From S2P Require Import System Witnesses.
From Stdlib Require Import Ascii.

(** ** External code *)

(** A parser of flat objects: string literals and natural numbers. *)
Fixpoint span_digits (s : string) : string * string :=
  match s with
  | EmptyString => (EmptyString, EmptyString)
  | String b s' =>
      match digit_of b with
      | Some _ => let p := span_digits s' in (String b p.1, p.2)
      | None => (EmptyString, s)
      end
  end.
Definition read_value (s : string) : option (Value * string) :=
  match s with
  | EmptyString => None
  | String c s' =>
      if (nat_of_ascii c =? 34)%nat then
        match read_string s' with Some (x, rest) => Some (JString x, rest) | None => None end
      else let p := span_digits s in
           match p.1, parse_digits 0 p.1 with String _ _, Some n => Some (JNumber n, p.2) | _, _ => None end
  end.
Definition read_member (s : string) : option (string * Value * string) :=
  match s with
  | String _ s' =>
      match read_string s' with
      | Some (k, String ":" rest) =>
          match read_value rest with Some (v, rest') => Some (k, v, rest') | None => None end
      | _ => None
      end
  | EmptyString => None
  end.
Fixpoint read_members (fuel : nat) (s : string) : option (list (string * Value)) :=
  match fuel with
  | O => None
  | S fuel =>
      match read_member s with
      | Some (k, v, String "," rest) => match read_members fuel rest with Some fs => Some ((k, v) :: fs) | None => None end
      | Some (k, v, String "}" EmptyString) => Some [(k, v)]
      | _ => None
      end
  end.
Definition ref_from_slice (b : Bytes) : option Value :=
  match valid_utf8 b, of_bytes b with
  | true, String "{" s => json_object <$> read_members (String.length s) s
  | _, _ => None
  end.

Lemma read_string_app x v rest t :
  read_string x = Some (v, rest) → read_string (x +:+ t) = Some (v, rest +:+ t).
Proof.
  revert v. induction x as [x IH] using (induction_ltof1 _ String.length). intros v.
  destruct x as [|c x]; [done|]. change (String c x +:+ t) with (String c (x +:+ t)). rw !read_string_cons.
  destruct (nat_of_ascii c =? 34)%nat; [by intros [= <- <-]|].
  destruct (nat_of_ascii c =? 92)%nat.
  - destruct x as [|e x]; [done|]. change (String e x +:+ t) with (String e (x +:+ t)). cbv iota.
    destruct (unescape e); [|done]. destruct (read_string x) as [[v' r']|] eqn:Hx; [|done].
    intros [= <- <-]. rw (IH x _ v' Hx) //. unfold ltof. simpl. lia.
  - destruct (nat_of_ascii c <? 32)%nat; [done|]. destruct (read_string x) as [[v' r']|] eqn:Hx; [|done].
    intros [= <- <-]. rw (IH x _ v' Hx) //. unfold ltof. simpl. lia.
Qed.

Lemma read_quoted body v t : reads_literal body v → read_string (body +:+ byte_str 34 +:+ t) = Some (v, t).
Proof. intros H. rw -string_app_assoc. by apply (read_string_app _ v "" t) in H. Qed.

Definition value_ends (t : string) : Prop := match t with EmptyString => True | String b _ => digit_of b = None end.

Lemma span_digits_app a d n t : parse_digits a d = Some n → value_ends t → span_digits (d +:+ t) = (d, t).
Proof.
  revert a. induction d as [|b d IH]; intros a Hp Ht.
  - destruct t as [|b t]; [done|]. simpl in *. by rw Ht.
  - cbn [parse_digits] in Hp. change (String b d +:+ t) with (String b (d +:+ t)). cbn [span_digits].
    destruct (digit_of b); [|done]. by rw (IH _ Hp Ht).
Qed.

Lemma read_decimal n t : 0 ≤ n < 2 ^ 64 → value_ends t → read_value (decimal n +:+ t) = Some (JNumber n, t).
Proof.
  intros Hn Ht. unfold decimal.
  destruct (parse_decimal_go 20 n "") as (b & s & k & Hbs & Hd & Hp);
    [change (10 ^ Z.of_nat 20) with 100000000000000000000; lia|lia|].
  specialize (Hp 0) as [Hp _]. change (parse_digits (0 * 10 ^ k + n) "") with (Some (0 * 10 ^ k + n)) in Hp.
  rw Z.mul_0_l Z.add_0_l Hbs in Hp. rw Hbs.
  pose proof (span_digits_app 0 (String b s) n t Hp Ht) as Hs.
  unfold read_value. change (String b s +:+ t) with (String b (s +:+ t)) in *. cbv iota.
  destruct (nat_of_ascii b =? 34)%nat eqn:Hq.
  - apply Nat.eqb_eq in Hq. exfalso. apply Hd. unfold digit_of. by rw Hq.
  - rw Hs. cbn [fst snd]. by rw Hp.
Qed.

Lemma read_value_text text v t : reads_value text v → value_ends t → read_value (text +:+ t) = Some (v, t).
Proof.
  intros [(body & x & -> & Hx & ->)|(n & Hn & -> & ->)] Ht; [|by apply read_decimal].
  unfold quoted. rw !string_app_assoc. change (byte_str 34 +:+ body +:+ byte_str 34 +:+ t)
    with (String (ascii_of_nat 34) (body +:+ byte_str 34 +:+ t)). cbn [read_value].
  change (nat_of_ascii (ascii_of_nat 34) =? 34)%nat with true. cbv iota. by rw (read_quoted _ _ _ Hx).
Qed.

Lemma read_member_text m k v t :
  reads_member m (k, v) → value_ends t → read_member (member_text m +:+ t) = Some (k, v, t).
Proof.
  intros [Hk Hv] Ht. unfold member_text, quoted. rw !string_app_assoc.
  change (read_member (byte_str 34 +:+ m.1 +:+ byte_str 34 +:+ ":" +:+ m.2 +:+ t)) with
    (match read_string (m.1 +:+ byte_str 34 +:+ ":" +:+ m.2 +:+ t) with
     | Some (k, String ":" rest) => match read_value rest with Some (v, rest') => Some (k, v, rest') | None => None end
     | _ => None end).
  rw (read_quoted _ _ _ Hk). change (":" +:+ m.2 +:+ t) with (String ":" (m.2 +:+ t)). cbv iota.
  by rw (read_value_text _ _ _ Hv Ht).
Qed.

Lemma read_members_text fuel ms fields :
  Forall2 reads_member ms fields → ms ≠ [] → (length ms ≤ fuel)%nat →
  read_members fuel (join "," (member_text <$> ms) +:+ "}") = Some fields.
Proof.
  intros Hms. revert fuel. induction Hms as [|m [k v] ms fields Hm Hms IH]; intros [|fuel] Hne Hf; [done..|simpl in Hf; lia|].
  destruct ms as [|m' ms].
  - apply Forall2_nil_inv_l in Hms as ->. cbn [fmap list_fmap join]. cbn [read_members].
    pose proof (read_member_text m k v "}" Hm eq_refl) as Hr. by rewrite Hr.
  - change (join "," (member_text <$> m :: m' :: ms)) with (member_text m +:+ "," +:+ join "," (member_text <$> m' :: ms)).
    rewrite (string_app_assoc (member_text m)).
    set (more := join "," (member_text <$> m' :: ms) +:+ "}") in *.
    change (("," +:+ join "," (member_text <$> m' :: ms)) +:+ "}") with (String "," more). cbn [read_members].
    pose proof (read_member_text m k v (String "," more) Hm eq_refl) as Hr. rewrite Hr. cbv iota.
    pose proof (IH fuel ltac:(done) ltac:(simpl in *; lia)) as Hi. by rewrite Hi.
Qed.

(** Every member takes more than one character. *)
Lemma members_length ms : (length ms ≤ String.length (join "," (member_text <$> ms) +:+ "}"))%nat.
Proof.
  assert (Hm : ∀ m, (2 ≤ String.length (member_text m))%nat).
  { intros m. unfold member_text, quoted. rw !str_length_app. simpl. lia. }
  rw str_length_app. induction ms as [|m [|m' ms] IH]; [simpl; lia| |].
  - specialize (Hm m). cbn [fmap list_fmap join]. simpl in *. lia.
  - change (join "," (member_text <$> m :: m' :: ms)) with (member_text m +:+ "," +:+ join "," (member_text <$> m' :: ms)).
    rw !str_length_app. specialize (Hm m). change (length (m :: m' :: ms)) with (S (length (m' :: ms))).
    simpl (String.length ",") in *. simpl (String.length "}") in *. lia.
Qed.



#[global] Instance ref_gateway_externals : GatewayExternals := {|
  json_from_slice := ref_from_slice;
  json_slice_error _ := "expected value";
  json_to_vec_pretty := ref_print;
  early_eof := "early eof"
|}.

(** The reference parser reads flat objects as the standard says. *)
Lemma ref_reads_objects : reads_objects.
Proof.
  intros ms fields Hne Hms _ Hu. change (ref_from_slice (as_bytes (object_text ms)) = Some (json_object fields)).
  unfold ref_from_slice. rw Hu of_as_bytes. unfold object_text.
  change ("{" +:+ join "," (member_text <$> ms) +:+ "}") with (String "{" (join "," (member_text <$> ms) +:+ "}")).
  cbv iota. by rw (read_members_text _ _ _ Hms Hne (members_length ms)).
Qed.

#[global] Instance ref_pretty : PrettyJson.
Proof. intros v _. apply ref_parse_print. Qed.

(** ** Identity *)

(** The escapes, and the segments of a token. *)
Example jwt_header_text :
  fake_worker_jwt "w1" =
    "eyJhbGciOiJub25lIiwidHlwIjoiSldUIn0." +:+
    "eyJleHAiOjMyNTAzNjgwMDAwLCJzdWIiOiJhaC13b3JrZXItc2Vzc2lvbiIsIndvcmtlcl9pZCI6IncxIn0.".
Proof. vm_compute. reflexivity. Qed.

Definition w1_request (channel : string) : GatewayRequest :=
  MkGatewayRequest channel "POST" "/v1/messages"
    [("Host", "localhost"); ("Authorization", "Bearer " +:+ fake_worker_jwt "w1")] [].

Lemma w1_clean : json_clean "w1".
Proof.
  change (Forall json_char ["w"; "1"]).
  repeat apply Forall_cons_2; try apply Forall_nil_2; right;
    (split; [apply Forall_cons_2; [apply (bool_decide_unpack _); vm_compute; exact I|apply Forall_nil_2]|reflexivity]).
Qed.

Lemma worker_token_opens_own_channel_witness :
  validate_worker_identity (w1_request "w1") = Ok (fake_worker_jwt "w1") ∧
  ∃ e, validate_worker_identity (w1_request "w2") = Err e ∧ e.(ge_status) = 403.
Proof.
  split.
  - destruct (worker_token_opens_own_channel (w1_request "w1") "w1" ref_reads_objects) as [H _];
      [discriminate|exact w1_clean|vm_compute; reflexivity|]. rewrite H. reflexivity.
  - destruct (worker_token_opens_own_channel (w1_request "w2") "w1" ref_reads_objects) as [H _];
      [discriminate|exact w1_clean|vm_compute; reflexivity|]. rewrite H. eexists. split; reflexivity.
Defined.

(** A name with quotes, a backslash and the three control characters is read back;
    one with another control character, which [json_escape] leaves as it is, is
    not: its worker is refused on its own socket. *)
Definition named (name : string) : option string :=
  match fake_jwt_worker_id (fake_worker_jwt name) with Ok x => Some x | Err _ => None end.
Example escaped_name_is_read :
  let name := "w" +:+ byte_str 34 +:+ byte_str 92 +:+ byte_str 10 +:+ byte_str 13 +:+ byte_str 9 in
  named name = Some name.
Proof. vm_compute. reflexivity. Qed.
Example control_name_is_lost : named ("w" +:+ byte_str 1) = None.
Proof. vm_compute. reflexivity. Qed.

(** ** Callers *)

Definition seed : TokenSet := MkTokenSet "at0" "rt0" 0.
Definition grant : UpstreamResult TokenSet := Ok (MkTokenSet "at1" "rt1" (secs 7200)).
Definition net0 : Net := (MkShared (new_core seed) None (secs 3600) 0 [], ∅).

(** [n] steps of caller [i]. *)
Fixpoint run_caller_n (n : nat) (i : nat) (net : Net) : Net :=
  match n with
  | O => net
  | S n => match net.2 !! i with
           | Some ph => match thread_step i grant ph net.1 with
                        | Some (ph', s') => run_caller_n n i (s', <[i := ph']> net.2)
                        | None => net
                        end
           | None => net
           end
  end.

Lemma run_caller_reachable n i net : net_reachable seed net → net_reachable seed (run_caller_n n i net).
Proof.
  revert net. induction n as [|n IH]; intros [s ts] Hr; simpl; [done|].
  destruct (ts !! i) as [ph|] eqn:Hi; [|done].
  destruct (thread_step i grant ph s) as [[ph' s']|] eqn:Hs; [|done]. apply IH.
  destruct Hr as (n0 & H0 & Hrtc). exists n0. split; [done|]. eapply rtc_r; [done|].
  by eapply run_caller.
Qed.

Lemma new_caller_reachable i s ts :
  net_reachable seed (s, ts) → ts !! i = None → net_reachable seed (s, <[i := FastCheck]> ts).
Proof.
  intros (n0 & H0 & Hrtc) Hi. exists n0. split; [done|]. eapply rtc_r; [done|]. by constructor.
Qed.

(** The first caller is inside the refresh, the second waits for the lock. *)
Definition two_callers : Net := (net0.1, <[1%nat := FastCheck]> {[0%nat := FastCheck]}).
Definition net_refreshing : Net := run_caller_n 3 1 (run_caller_n 6 0 two_callers).
Definition net_refreshed : Net := run_caller_n 5 0 net_refreshing.

Lemma two_callers_reachable : net_reachable seed two_callers.
Proof.
  apply new_caller_reachable; [|done]. apply (new_caller_reachable 0 net0.1 ∅); [|done].
  exists net0. split; [by exists (secs 3600), 0|done].
Qed.

Lemma net_refreshing_reachable : net_reachable seed net_refreshing.
Proof. apply run_caller_reachable, run_caller_reachable, two_callers_reachable. Qed.

Example refreshing_phases :
  (net_refreshing.2 !! 0%nat, net_refreshing.2 !! 1%nat, net_refreshing.1.(sh_log)) =
    (Some InCall, Some AwaitLock, [CallStarted 0 "rt0"]).
Proof. vm_compute. reflexivity. Qed.

Lemma refresh_is_single_flight_witness :
  net_refreshed.2 !! 0%nat = Some (Returned (Ok "at1")) ∧
  net_refreshed.1.(sh_log) = [CallStarted 0 "rt0"; CallAnswered 0 grant] ∧
  log_chained seed net_refreshed.1.(sh_log) ∧ issued seed net_refreshed.1.(sh_log) "at1".
Proof.
  assert (Hr : net_reachable seed (net_refreshed.1, net_refreshed.2)).
  { change (net_reachable seed (run_caller_n 5 0 net_refreshing)).
    apply run_caller_reachable, net_refreshing_reachable. }
  destruct (refresh_is_single_flight seed _ _ Hr) as (_ & Hc & _ & _ & Hi).
  split; [vm_compute; reflexivity|]. split; [vm_compute; reflexivity|]. split; [exact Hc|].
  apply (Hi 0%nat). vm_compute. reflexivity.
Defined.

Lemma callers_return_witness :
  ∃ s' ts' r, rtc (any_caller_step grant) (net_refreshing.1, net_refreshing.2) (s', ts') ∧
    ts' !! 1%nat = Some (Returned r).
Proof.
  destruct (callers_return seed net_refreshing.1 net_refreshing.2 1 AwaitLock) as [_ H].
  - exact net_refreshing_reachable.
  - vm_compute. reflexivity.
  - exact (H grant).
Defined.

(** ** HTTP *)

Definition a_request : GatewayRequest :=
  MkGatewayRequest "w1" "POST" "/v1/messages"
    [("host", "localhost:1"); ("content-length", "2")] [104; 105].

Lemma a_request_wf : request_wf a_request.
Proof.
  split.
  - split; [done|]. by repeat constructor.
  - split; [done|]. by repeat constructor.
  - repeat constructor; try done.
  - repeat constructor; done.
  - by right.
  - by vm_compute.
  - by vm_compute.
Qed.

Lemma reader_complete_witness :
  read_http_request (MkStream (render_request a_request ++ [1; 2; 3]) None) "w1" =
    (Ok a_request, [1; 2; 3]).
Proof. exact (reader_complete a_request [1; 2; 3] None a_request_wf). Defined.

(** ** Credentials *)

Definition old_file : Value :=
  json_object [("claudeAiOauth", json_object [("refreshToken", JString "rt0"); ("scope", JString "x")])].
Definition cred_fs : HostFs :=
  MkHostFs (Some "/h/c.json") None (Ok (ref_print old_file)) (Some "/h/.c.json.tmp.1") None None None.
Definition grant_body : string :=
  ref_print (json_object [("access_token", JString "at1"); ("refresh_token", JString "rt1");
                          ("expires_in", JNumber 60)]).

Lemma refreshed_credential_survives_witness :
  ∃ c, refresh "/h/c.json" cred_fs (secs 100) (UreqResponse (Ok grant_body)) =
         Some (Ok (MkTokenSet "at1" "rt1" (secs 160)), Some c) ∧
       read_seed_credentials "/h/c.json" (Ok c) = Ok (MkTokenSet "at1" "rt1" (secs 160)).
Proof.
  eexists. split; [vm_compute; reflexivity|].
  eapply (refreshed_credential_survives "/h/c.json" cred_fs (secs 100) (UreqResponse (Ok grant_body))
            (MkTokenSet "at1" "rt1" (secs 160)) (Some _)).
  - vm_compute. reflexivity.
  - vm_compute. split; congruence.
  - intros old value [= <-] Hv. vm_compute in Hv. injection Hv as <-. by repeat split.
Defined.

(** ** Spawning *)

Definition sandboxed : EnvState := MkEnvState true false true.

Lemma spawned_scope_is_found_witness :
  ∃ opts, wrap_command_with_recovery_and_sandbox_overrides "a1" "p1" "m" sandboxed
            (MkRecoverySpawn false []) (Some "ahd.service") bash_manifest (λ _, None) ∅ no_overrides
            (Ok "/ah") =
    "systemd-run" :: opts ++
      ["--"; "env"; "PS1=$ "; "bash"; "--noprofile"; "--norc"; "-i"].
Proof.
  destruct (spawned_scope_is_found "a1" "p1" "m" sandboxed (MkRecoverySpawn false [])
              (Some "ahd.service") bash_manifest (λ _, None) ∅ no_overrides (Ok "/ah") eq_refl)
    as (opts & H & _).
  exists opts. rewrite H. do 2 f_equal.
Defined.

(** ** The health check *)

(** Output with the marker, then output that only looks like it. *)
Definition chunk (text : string) : string := ref_print (json_object [("text", JString text)]).
Definition w_output : World := (insert_event "a1" None "output_chunk" (chunk "working") w_busy).2.

Lemma reachable_output : reachable w_output.
Proof. eapply step_entry; [apply q_event|apply reachable_busy|reflexivity]. Qed.

Lemma last_progress_exact_witness :
  query_last_progress "a1" w_output = (Ok (Some 1000, None), w_output).
Proof.
  rewrite (last_progress_exact w_output "a1" (wf_of _ reachable_output)). vm_compute. reflexivity.
Defined.

(** The agent has been silent for an hour, and its screen shows nothing. *)
Definition an_hour_later (w : World) : World := MkWorld w.(w_db) 4600 [] ∅ (λ _ _ _, None).
Definition w_silent : World := an_hour_later w_output.
Definition blank_screen (id : string) : option string := Some "".

Lemma output_providers :
  forallb (λ ia, is_valid_provider ia.2.(a_provider)) (map_to_list w_output.(w_db).(agents)) = true.
Proof. vm_compute. reflexivity. Qed.

Lemma later_captured w :
  forallb (λ ia, is_valid_provider ia.2.(a_provider)) (map_to_list w.(w_db).(agents)) = true →
  all_captured blank_screen (an_hour_later w).(w_db).
Proof.
  intros Hall id a Ha _. split; [|by eexists]. rewrite forallb_forall in Hall.
  apply elem_of_map_to_list, list_elem_of_In in Ha. specialize (Hall _ Ha).
  by apply bool_decide_eq_true in Hall.
Qed.

Lemma later_wf w : db_wf w.(w_db) → db_wf (an_hour_later w).(w_db).
Proof. done. Qed.

Lemma captured_agents_only_alerted_witness :
  ∃ w', health_check_watcher_tick blank_screen 330 w_silent = (Ok tt, w') ∧
    w'.(w_db).(agents) = w_silent.(w_db).(agents) ∧ w'.(w_db).(jobs) = w_silent.(w_db).(jobs).
Proof.
  destruct (captured_agents_only_alerted blank_screen 330 w_silent
              (later_wf w_output (wf_of _ reachable_output))
              (later_captured w_output output_providers)) as (w' & Hrun & Hl).
  exists w'. split; [exact Hrun|]. split; [exact (ol_agents _ _ Hl)|exact (ol_jobs _ _ Hl)].
Defined.

(** The agent observed after that hour, with its pane and without. *)
Definition silent_observation (captured : bool) : HealthCheckObservation :=
  MkObservation "a1" "claude" "BUSY" "" captured (Some 1000) None (Some 1000) 4600.

Definition frames (w : World) : list (string * option string) :=
  omap (λ e, match e with SendEventFrame f => Some (f.(fr_kind), f.(fr_job_id)) | _ => None end)
    w.(w_out).

Example silent_alert :
  frames (escalate_health_stuck (silent_observation true) 330 w_silent).2 = [("alert", Some "j1")].
Proof. vm_compute. reflexivity. Qed.

(** Without its pane the agent is marked.  The job is failed first and looked up
    afterwards, so the second frame and the event of the health check name no
    job, while the first frame does. *)
Example lost_pane_frames :
  frames (escalate_health_stuck (silent_observation false) 330 w_silent).2 =
    [("stuck", Some "j1"); ("stuck", None)].
Proof. vm_compute. reflexivity. Qed.
