(* ===== verification/DispatchWitnesses.v ===== *)
(** * Concrete runs of the dispatcher, the log monitor and the prompt store

    Reference instances of the interfaces these components use and a witness of
    every theorem about them that has hypotheses, on the small daemon of the
    other concrete runs. *)
From S2P Require Import Prelude Json Schema Sql Instances MasterTables JobGate Invariant AgentGate Text Base64.
From S2P Require Import Sessions ReplyText Jobs Completion Evidence StateMachine Agents Recovery Lifecycle.
From S2P Require Import JobsProofs StateMachineProofs HealthCheck LogReader LogReaderProofs LogMonitor.
From S2P Require Import PromptCases PromptRunner PromptStore PromptIntegration Tmux AgentIo.
From S2P Require Import Orchestrator OrchestratorProofs OrchestratorRecovery System Witnesses.
From Stdlib Require Import Ascii.
From Stdlib Require QArith_base.

(** ** Instances *)

Definition action_value (a : PromptAction) : Value :=
  match a with Key s => JArray [JString s] | Literal s => JString s end.
Definition value_action (v : Value) : PromptAction :=
  match v with JArray [JString s] => Key s | v => Literal (value_str v) end.
Lemma value_action_value a : value_action (action_value a) = a.
Proof. by destruct a. Qed.

#[global] Program Instance ref_prompt_externals : PromptExternals := {|
  regex_error _ _ := None;
  regex_find _ _ _ := None;
  regex_replace_all _ _ s := s;
  regex_escape s := s;
  sha256_hex s := ref_print (JNumber (ref_hash s));
  vt100_screen s := s;
  str_debug s := s;
  actions_to_string l := ref_print (JArray (action_value <$> l));
  actions_from_str s := value_list value_action <$> ref_parse s;
  actions_error _ := "expected value"
|}.
Next Obligation. intros l. simpl. rw ref_parse_print /=. by rw fmap_retract; [apply value_action_value|]. Qed.

#[global] Instance ref_char_class : CharClass := {|
  is_alphanumeric c := match c with String a EmptyString => is_alnum a | _ => true end |}.
#[global] Instance ref_captures : RegexCaptures := {| regex_captures _ _ := [] |}.

Definition ratio_value (q : QArith_base.Q) : Value :=
  JArray [JNumber (QArith_base.Qnum q); JNumber (Z.pos (QArith_base.Qden q))].
Definition value_ratio (v : Value) : QArith_base.Q :=
  match v with
  | JArray [n; d] => QArith_base.Qmake (value_num n) (Z.to_pos (value_num d))
  | _ => QArith_base.Qmake 0 1
  end.
Lemma value_ratio_value q : value_ratio (ratio_value q) = q.
Proof. by destruct q. Qed.

Definition case_value (c : PromptCase) : Value :=
  JArray [JString c.(pc_id); opt_value JString c.(pc_provider); JString c.(pc_pattern);
          JArray (action_value <$> c.(pc_action)); JString c.(pc_category);
          opt_value JString c.(pc_description); opt_value ratio_value c.(pc_confidence_threshold);
          JNumber c.(pc_used_count); opt_value JString c.(pc_created_at);
          opt_value JString c.(pc_last_used_at); opt_value JString c.(pc_created_by);
          JArray (JString <$> c.(pc_regex_flags)); opt_value JString c.(pc_trigger_state)].
Definition value_case (v : Value) : PromptCase :=
  match v with
  | JArray [i; p; r; a; g; d; t; u; ca; lu; cb; f; s] =>
      MkPromptCase (value_str i) (value_opt value_str p) (value_str r) (value_list value_action a)
        (value_str g) (value_opt value_str d) (value_opt value_ratio t) (value_num u)
        (value_opt value_str ca) (value_opt value_str lu) (value_opt value_str cb)
        (value_list value_str f) (value_opt value_str s)
  | _ => MkPromptCase "" None "" [] "" None None 0 None None None [] None
  end.
Lemma value_case_value c : value_case (case_value c) = c.
Proof.
  cbn. rw !value_opt_value //; [apply value_ratio_value|].
  rw !fmap_retract //; [apply value_action_value|]. by destruct c.
Qed.

Definition kb_value (kb : PromptKb) : Value :=
  JArray [JString kb.(kb_version); JArray (case_value <$> kb.(kb_cases))].
Definition value_kb (v : Value) : option PromptKb :=
  match v with
  | JArray [n; cs] => Some (MkPromptKb (value_str n) (value_list value_case cs))
  | _ => None
  end.

(** The text before the line break. *)
Fixpoint first_line (s : string) : string :=
  match s with
  | EmptyString => ""
  | String c s' => if bool_decide (c = Ascii.ascii_of_nat 10) then "" else String c (first_line s')
  end.
Lemma first_line_pos p : first_line (pos_string p +:+ byte_str 10) = pos_string p.
Proof.
  induction p as [p IH|p IH|]; [| |done];
    [change (String "1"%char (first_line (pos_string p +:+ byte_str 10)) = String "1"%char (pos_string p))
    |change (String "0"%char (first_line (pos_string p +:+ byte_str 10)) = String "0"%char (pos_string p))];
    by rw IH.
Qed.

#[global] Program Instance ref_kb_codec : KbCodec := {|
  kb_to_string kb := ref_print (kb_value kb);
  kb_from_str s := ref_parse (first_line s) ≫= value_kb;
  kb_json_error _ := "expected value"
|}.
Next Obligation.
  intros kb. simpl. unfold ref_print. rw first_line_pos. fold (ref_print (kb_value kb)).
  rw ref_parse_print /=. rw fmap_retract; [apply value_case_value|]. by destruct kb.
Qed.

(** A tmux with one pane, whose state is what was typed into its input line. *)
#[global] Instance ref_tmux : TmuxExec string := λ c typed,
  match drop 2 c.(tc_args) with
  | ["send-keys"; _; _; "-l"; text] => (Ran true (Some 0) "" "", typed +:+ text)
  | "send-keys" :: _ => (Ran true (Some 0) "" "", "")
  | "list-panes" :: _ => (Ran true (Some 0) "%1" "", typed)
  | "capture-pane" :: _ => 
      (Ran true (Some 0) ("Opus 4" +:+ byte_str 10 +:+ CLAUDE_PROMPT +:+ " " +:+ typed) "", typed)
  | _ => (Ran true (Some 0) "" "", typed)
  end.

(** ** Transcripts *)

Definition turn_end : Value :=
  json_object [("type", JString "event_msg");
               ("payload", json_object [("type", JString "task_complete");
                                        ("last_agent_message", JString "all done")])].
Definition end_line : Bytes := as_bytes (ref_print turn_end) ++ [NEWLINE].
Definition log_root : Path := ["/"; "logs"].
Definition log_path : Path := ["/"; "logs"; "rollout-1.jsonl"].
Definition log_tree (b : Bytes) : option FsNode :=
  Some (FsDir (Ok [("rollout-1.jsonl", FsFile (Ok (length b)) (Ok b))])).
Definition nothing_read : LogReadState := MkLogReadState ∅ ∅.

Lemma log_snapshot b : snapshot "codex" log_root (log_tree b) [(log_path, b)].
Proof.
  split; [repeat constructor; set_solver|]. exists [MkLogFile log_path (Ok (length b)) (Ok b)].
  split; [reflexivity|by repeat constructor].
Qed.

Definition once_read : LogReadState :=
  match read_provider_log_tail_with_state "codex" log_root (log_tree end_line) nothing_read with
  | Ok (_, s) => s
  | Err _ => nothing_read
  end.

Example transcript_reads :
  read_provider_log_tail_with_state "codex" log_root (log_tree end_line) nothing_read =
    Ok ([MkLogCompletion (TurnComplete None (Some "all done")) log_path
          (length end_line)], once_read).
Proof. vm_compute. reflexivity. Qed.

Lemma transcript_grows x :
  StronglySorted grows [[(log_path, end_line)]; [(log_path, end_line ++ x)]].
Proof.
  constructor; [repeat constructor|]. constructor; [|constructor].
  intros p c H. apply list_elem_of_singleton in H as [= -> ->].
  split; [right; apply last_snoc|]. exists x. by apply list_elem_of_singleton.
Qed.

Lemma log_not_truncated (l : list (list (Path * Bytes))) : Forall (not_truncated nothing_read) l.
Proof. apply Forall_forall. intros x _ p b _. unfold cursor. cbn. rw lookup_empty. apply Nat.le_0_l. Qed.

Lemma tailing_is_reading_once_witness :
  ∃ many once s',
    polls "codex" log_root nothing_read [log_tree end_line; log_tree (end_line ++ end_line)] =
      Ok (many, s') ∧
    read_provider_log_tail_with_state "codex" log_root (log_tree (end_line ++ end_line)) nothing_read =
      Ok (once, s') ∧ at_path log_path many = at_path log_path once.
Proof.
  destruct (tailing_is_reading_once "codex" log_root nothing_read [log_tree end_line]
    [[(log_path, end_line)]] (log_tree (end_line ++ end_line)) [(log_path, end_line ++ end_line)])
    as (many & once & s' & Hp & Hr & Hat).
  - constructor; [apply log_snapshot|]. constructor; [apply log_snapshot|constructor].
  - reflexivity.
  - apply transcript_grows.
  - apply log_not_truncated.
  - exists many, once, s'. split; [exact Hp|]. split; [exact Hr|apply Hat].
Defined.

Lemma transcript_completes_job_witness :
  ∃ m' w', log_monitor_turn "a1" "codex" log_root (log_tree end_line) 1000 1001
      (MkMonitoring nothing_read 2000) (MkLogMonitors ∅ []) w_busy = (Ok (None, m'), w') ∧
    w'.(w_db).(jobs) !! "j1" =
      Some (resolved_row 1000 false "all done" (job_of w_busy "j1")).
Proof.
  destruct (transcript_completes_job w_busy "a1" (agent_of w_busy "a1") (job_of w_busy "j1") "codex"
    log_root (log_tree end_line) 1000 1001 (MkMonitoring nothing_read 2000) (MkLogMonitors ∅ [])
    None "all done" log_path (length end_line) [] once_read) as (m' & w' & Hrun & _ & Hjobs & _).
  - apply wf_of, reachable_busy.
  - vm_compute. reflexivity.
  - left. vm_compute. reflexivity.
  - vm_compute. reflexivity.
  - split; vm_compute; discriminate.
  - discriminate.
  - reflexivity.
  - apply transcript_reads.
  - exists m', w'. split; [exact Hrun|]. rewrite Hjobs. vm_compute. reflexivity.
Defined.

(** ** Known prompts *)

Lemma kb_file_is_whole_witness :
  let fs := (load_or_bootstrap_kb (MkKbFaults (λ c, if bool_decide (c = TmpRename) then Some "denied" else None) "")
               (MkKbFiles None None)).2 in
  whole fs ∧ fs.(kf_file) = None.
Proof.
  set (flt := MkKbFaults (λ c, if bool_decide (c = TmpRename) then Some "denied" else None) "").
  destruct (kb_file_is_whole flt (MkKbFiles None None) None) as [Hw _].
  - intros raw H. discriminate H.
  - split; [exact Hw|vm_compute; reflexivity].
Defined.

(** ** Typing and dispatching *)

Definition server : TmuxServer := MkTmuxServer "ccbd" NoScope.

Lemma prompt_is_pasted_once_witness :
  let '(r, t') := send_text_to_pane_with_options server true "a1" "%1" "build it" true (MkTmuxTerminal "" []) in
  ∃ n, t'.(tm_trace) = [load_cmd server (buffer_name_of "a1") "build it"; paste_cmd server "%1" (buffer_name_of "a1");
       delete_cmd server (buffer_name_of "a1")] ++ take n (enters server true true "%1") ∧
     (r = Ok tt → take n (enters server true true "%1") = enters server true true "%1").
Proof.
  pose proof (prompt_is_pasted_once server true "a1" "%1" "build it" true (MkTmuxTerminal "" [])
    ltac:(vm_compute; reflexivity)) as H. cbv zeta in H.
  destruct (send_text_to_pane_with_options _ _ _ _ _ _ _) as [r t'].
  destruct (load_buffer_sync _ _ _ _) as [loaded t1] eqn:Hload.
  assert (loaded = Ok tt) as -> by (apply (f_equal fst) in Hload; vm_compute in Hload; symmetry; exact Hload).
  destruct (paste_buffer_sync _ _ _ t1) as [pasted t2] eqn:Hpaste. cbn [fst] in H.
  assert (pasted = Ok tt) as ->.
  { apply (f_equal snd) in Hload. cbn [snd] in Hload. rewrite -Hload in Hpaste.
    apply (f_equal fst) in Hpaste. vm_compute in Hpaste. symmetry. exact Hpaste. }
  exact H.
Defined.

Definition context : Ctx :=
  MkCtx server false (λ _ _, None) (λ _, ReadDirNotFound) (λ _, None) (λ _ _ _, Err MissingKey) None false
    kb_no_faults 3.
Definition runtime (agent_id : string) : DaemonRuntime string :=
  MkDaemonRuntime {[agent_id := MkAgentIoEntry "s1" "%1" (Some 7) "/fifo" "ccbd" true]} {[agent_id]}
    (MkLogMonitors ∅ []) (MkScanEnv (MkKbFiles None None) (MkRunState (MkTmuxTerminal "" []) [] []) ∅) [].

(** A shell with two queued jobs, and other tasks that submit one more at every
    step. *)
Definition w_shell : World := (insert_agent_sync "b1" "s1" "bash" "IDLE" (Some 8) w_agents).2.
Definition w_shell1 : World := (insert_job "k1" "b1" None "make" w_shell).2.
Definition w_shell2 : World := (insert_job "k2" "b1" None "make test" w_shell1).2.
Definition submitting (p : nat) (rt : DaemonRuntime string) (w : World) : DaemonRuntime string * World :=
  (rt, (insert_job (ref_print (JNumber (Z.of_nat p))) "b1" None "more" w).2).

Lemma reachable_shell : reachable w_shell2.
Proof.
  eapply step_entry; [apply q_insert_job| |reflexivity].
  eapply step_entry; [apply q_insert_job| |reflexivity].
  eapply step_delete; [apply d_insert_agent|apply reachable_agents|reflexivity].
Qed.

Definition shell_turn : Result bool HealthStop * DaemonRuntime string * World :=
  dispatch_turn context submitting "b1" (runtime "b1") w_shell2.
Example shell_turn_pastes : pasted (tm_trace (rt_terminal shell_turn.1.2)) = ["make"].
Proof. vm_compute. reflexivity. Qed.


(** A tmux that is gone. *)
Definition gone_tmux : TmuxExec string := λ c t, (Ran false (Some 1) "" "no server running", t).
Definition gone_error : CcbdError :=
  match (send_text_to_pane_with_options (TX := gone_tmux) server false "a1" "%1" "build it" true
           (MkTmuxTerminal "" [])).1 with Err e => e | Ok _ => PtyIoError "" end.
Lemma failed_send_fails_job_witness :
  ∃ rt' w', send_prompt (TX := gone_tmux) context alone (agent_of w_dispatched "a1") (job_of w_dispatched "j1") "%1" None
      (runtime "a1") w_dispatched = (Ok tt, rt', w') ∧ WakeUp ∈ w'.(w_out).
Proof.
  destruct (failed_send_fails_job (TX := gone_tmux) context (runtime "a1") w_dispatched (agent_of w_dispatched "a1")
    (agent_of w_dispatched "a1") (job_of w_dispatched "j1") (job_of w_dispatched "j1") "%1" None gone_error)
    as (rt' & w' & Hrun & _ & _ & _ & _ & _ & Hw).
  - apply consistent_of, reachable_dispatched.
  - vm_compute. reflexivity.
  - vm_compute. reflexivity.
  - vm_compute. reflexivity.
  - vm_compute. reflexivity.
  - vm_compute. reflexivity.
  - vm_compute. reflexivity.
  - exists rt', w'. split; [exact Hrun|exact Hw].
Defined.

(** ** Recovery *)

Definition no_respawn (_ : string) (_ : AgentSpawnSpec) (_ : string) : R (T := string) unit :=
  λ rt w, (Ok tt, rt, w).

(** The crashed agent has no spec to be revived from: it stays as it is. *)
Lemma recovery_touches_only_due_agents_witness :
  ∃ r rt' w', recover_candidate alone (λ _, false) no_respawn 5000 (agent_of w_crash "a1")
      (runtime "a1") w_crash = (r, rt', w') ∧
    (untouched w_crash w' ∨ due 5000 (agent_of w_crash "a1") (agent_of w_crash "a1") w_crash).
Proof.
  apply (recovery_touches_only_due_agents (λ _, false) no_respawn 5000 (agent_of w_crash "a1") (agent_of w_crash "a1")
    (runtime "a1") w_crash). vm_compute. reflexivity.
Defined.
