(* ===== verification/WatchWitnesses.v ===== *)
(** * Concrete runs of the supervision and of requests

    The death of the small daemon's master, handled to the end, a command sent
    twice, agents spawned, a job waited for and screens that stand still; the
    theorems applied to these runs, and runs that show where requests and the
    tasks behind them fall short. *)
From S2P Require Import Prelude Json Schema Sql Instances MasterTables JobGate Invariant MasterSound AgentGate Text.
From S2P Require Import Shell Providers Sessions Cutovers MasterRecovery MasterRevival Jobs Completion Evidence StateMachine.
From S2P Require Import Agents Events LogReader Recovery Lifecycle Startup HealthCheck HealthCheckProofs PromptCases PromptRunner.
From S2P Require Import PromptStore PaneDiff Tmux AgentIo SessionWatch.
From S2P Require Import Gateway SessionHandlers Spawn Tasks InitProbe AgentSpawn AgentRequests JobRequests RequestProofs SpawnProofs AckTasks.
From S2P Require Import MasterReaper MasterWatch System MasterWatchProofs.
From S2P Require Import Witnesses MasterWitnesses GatewayWitnesses DispatchWitnesses.

(** A tmux whose panes run process 501 and show a shell. *)
#[local] Instance pane_501 : TmuxExec nat := λ c n,
  match drop 2 c.(tc_args) with
  | "new-window" :: _ => (Ran true (Some 0) "%2" "", n)
  | ["display-message"; _; _; _; "#{pane_pid}"] => (Ran true (Some 0) "501" "", n)
  | "capture-pane" :: _ => (Ran true (Some 0) "$ " "", n)
  | _ => (Ran true (Some 0) "" "", n)
  end.

#[local] Instance ref_spawn_params : SpawnParamsSerde := {|
  parse_env _ := Ok ∅;
  parse_hooks v := Ok v;
  parse_strings v := match v with JArray l => Ok (value_str <$> l) | _ => Err "expected a sequence" end;
  parse_bundle v := match v with JArray l => Ok (value_str <$> l) | v => Ok [value_str v] end;
  parse_settings _ := Ok [];
  parse_mcp v := Ok v;
  parse_path v := match v with JString s => Ok (Some s) | _ => Ok None end;
  parse_overrides v := Ok v;
  overrides_of _ := no_overrides;
  default_overrides := JObject [];
  provider_debug s := s |}.

Definition preparation : SpawnPreparation :=
  MkSpawnPreparation (λ _ _ e, Ok e) (λ _ _ _ _ _ _ _, Ok (MkHomeOverrides "/home" ∅)) (λ _ _, [])
    (λ _ _ _, Ok "h1") (λ _, None).
Definition ctx_with (env : EnvState) (cmd : string) (credentials : option string) : WatchCtx :=
  MkWatchCtx server "/state" env None None (Ok "/bin/ah") (λ _, Ok ["/"; "home"]) (λ _, cmd)
    (λ _, Ok credentials) (λ d, Ok d) preparation true None None 5.
Definition watch_ctx : WatchCtx := ctx_with (MkEnvState false true false) "bash" None.
Definition watch_host : MasterHost :=
  MkMasterHost (λ _, Ok tt) None (λ _, None) (λ _, None) (λ _, None) (λ _, None) (λ _, None) None None None
    ref_host (MkRegistries ∅ ∅ ∅ ∅) ref_runner.
Definition no_scan : AgentScanState := MkAgentScanState (MkKbFiles None None) [] [] ∅.
Definition watching : WatchRuntime nat :=
  MkWatchRuntime (MkTmuxTerminal 0%nat []) ∅ (MkAgentTables ∅ ∅ ∅ ∅) no_scan watch_host [] [] [].
(** The other tasks submit a job at every step. *)
Definition busy_others (p : nat) (rt : WatchRuntime nat) (w : World) : WatchRuntime nat * World :=
  (rt, (insert_job (ref_print (JNumber (Z.of_nat p))) "a1" None "more" w).2).
Definition death : Result unit CcbdError * WatchRuntime nat * World :=
  handle_master_death_detected watch_ctx busy_others "s1" 500 1 "bash" watching w_master.

Example death_starts_one : masters (tm_trace (wr_terminal death.1.2)) = 1%nat.
Proof. vm_compute. reflexivity. Qed.
Example death_completes :
  (m_phase (window_of death.2 "s1"), s_master_pid (session_of death.2 "s1"),
   s_master_generation (session_of death.2 "s1"), wr_tasks death.1.2) =
  ("COMPLETED", 501, 2, [MasterPidfdWatch "s1" 501 2 "bash"; MasterConfirmTimer "s1" 501 2]).
Proof. vm_compute. reflexivity. Qed.

(** Sandboxed and behind the gateway. *)
Definition claude_ctx : WatchCtx := ctx_with (MkEnvState true false true) "claude" (Some "/creds").
Example claude_death_starts_one :
  masters (tm_trace (wr_terminal (handle_master_death_detected claude_ctx busy_others
    "s1" 500 1 "claude" watching w_master).1.2)) = 1%nat.
Proof. vm_compute. reflexivity. Qed.

Lemma others_submit_moves p rt w : master_moves w.(w_db) (busy_others p rt w).2.(w_db).
Proof. apply sound_moves, sound_insert_job. Qed.


(** Jobs submitted meanwhile touch neither the session nor its window. *)
Definition same_master (db db' : Db) : Prop := master_of db' = master_of db.
#[local] Instance same_master_preorder : PreOrder same_master.
Proof. split; [by intros db|]. intros x y z Hxy Hyz. unfold same_master in *. by rewrite Hyz. Qed.
Lemma same_record id from to kind fields reason :
  respects same_master (record_job_transition_conn_sync id from to kind fields reason).
Proof.
  unfold record_job_transition_conn_sync, query_job_sync. solve_respects.
  all: intros w; unfold insert_job_transition_row, same_master; by repeat case_match.
Qed.
Lemma same_insert_job id agent_id request_id prompt :
  respects same_master (insert_job id agent_id request_id prompt).
Proof.
  unfold insert_job, insert_job_sync. solve_respects; eauto using same_record with respects.
  all: intros w; unfold insert_job_row, same_master; by repeat case_match.
Qed.
Lemma others_submit_settled p rt w :
  death_settled "s1" 1 w.(w_db) → death_settled "s1" 1 (busy_others p rt w).2.(w_db).
Proof.
  generalize (same_insert_job (ref_print (JNumber (Z.of_nat p))) "a1" None "more" w).
  unfold death_settled, session_over, busy_others. cbn [snd]. by intros [= _ -> _ ->].
Qed.

Lemma revival_settles_witness :
  ∃ r rt' w', revive_master_after_exit_locked watch_ctx busy_others "s1" 500 1 "bash" watching w_master
    = (r, rt', w') ∧ death_settled "s1" 1 w'.(w_db).
Proof.
  generalize (revival_settles watch_ctx busy_others "s1" 1 others_submit_settled 500 "bash"
    watching w_master).
  destruct (revive_master_after_exit_locked _ _ _ _ _ _ _ _) as [[r rt'] w']. by exists r, rt', w'.
Defined.

(** A worker that has a specification is spawned again; it does not become ready,
    and the window is left where it was when the session ended. *)
Definition worker_spec : AgentSpawnSpec :=
  MkSpawnSpec "a1" "codex" ∅ (JObject []) [] [] [] [] None (JObject []) false.
Definition w_specified : World := (persist_agent_spawn_spec_sync worker_spec "h1" w_master).2.
Definition quiet_others (p : nat) (rt : WatchRuntime nat) (w : World) : WatchRuntime nat * World := (rt, w).
Definition slow_worker : Result unit CcbdError * WatchRuntime nat * World :=
  handle_master_death_detected watch_ctx quiet_others "s1" 500 1 "bash" watching w_specified.
Example slow_worker_left :
  (slow_worker.1.1, masters (tm_trace (wr_terminal slow_worker.1.2)),
   s_status (session_of slow_worker.2 "s1"), m_phase (window_of slow_worker.2 "s1")) =
  (Ok tt, 1%nat, "KILLED", "WORKERS_REPROVISIONING").
Proof. vm_compute. reflexivity. Qed.
Example slow_worker_respawned :
  AgentPidfdWatch "a1" "s1" 501 ∈ wr_tasks slow_worker.1.2.
Proof. vm_compute. set_solver. Qed.

(** ** A command sent twice *)

Definition send_request (text : string) : Value :=
  json_object [("agent_id", JString "a1"); ("text", JString text); ("request_id", JString "q1")].
Definition with_pane : WatchRuntime nat :=
  set_wr_agents (MkAgentTables {["a1" := MkAgentIoEntry "s1" "%1" (Some 7) "/fifo" "ah" true]} {["a1" := ""]} ∅ ∅) watching.
Definition sent_twice : Result unit CcbdError * WatchRuntime nat * World :=
  send_all watch_ctx busy_others [send_request "build it"; send_request "build it again"] with_pane w_agents.

Example sent_once : omap tc_stdin (tm_trace (wr_terminal sent_twice.1.2)) = ["build it"].
Proof. vm_compute. reflexivity. Qed.

Lemma typed_something : ∃ c, types c = true ∧ c ∈ tm_trace (wr_terminal sent_twice.1.2).
Proof.
  assert (existsb types (tm_trace (wr_terminal sent_twice.1.2)) = true) as H by (vm_compute; reflexivity).
  apply existsb_exists in H as (c & Hin & Hc). exists c. split; [exact Hc|]. apply list_elem_of_In. exact Hin.
Qed.
Lemma busy_keep_requests p rt w : requests_kept w.(w_db) (busy_others p rt w).2.(w_db).
Proof. apply sound_requests, sound_insert_job. Qed.

Lemma both_repeat : Forall (is_repeat "a1" "q1") [send_request "build it"; send_request "build it again"].
Proof. by repeat constructor. Qed.


(** The agent is taken before its pane is looked up: without one the request
    fails, and the agent is left waiting for the acknowledgement of a command
    that was neither recorded nor typed. *)
Definition send_without_pane : Result Value CcbdError * WatchRuntime nat * World :=
  handle_agent_send watch_ctx quiet_others (send_request "build it") watching w_agents.
Example send_without_pane_keeps_agent :
  (send_without_pane.1.1, a_state (agent_of send_without_pane.2 "a1"),
   event_by_request "a1" "q1" send_without_pane.2.(w_db),
   tm_trace (wr_terminal send_without_pane.1.2)) =
  (Err (PtyIoError "tmux pane not registered for a1"), "WAITING_FOR_ACK", None, []).
Proof. vm_compute. reflexivity. Qed.

(** ** Agents spawned *)

Definition spawn_request (agent_id : string) : Value :=
  json_object [("session_id", JString "s1"); ("agent_id", JString agent_id); ("provider", JString "bash")].
Definition spawn_run (cx : WatchCtx) (rt : WatchRuntime nat) (agent_id : string) (w : World) :
    Result Value CcbdError * WatchRuntime nat * World :=
  handle_agent_spawn cx busy_others (spawn_request agent_id) rt w.
Definition spawned_a9 := spawn_run watch_ctx watching "a9" w_agents.

Example a9_spawned :
  (a_state (agent_of spawned_a9.2 "a9"), a_pid (agent_of spawned_a9.2 "a9"), wr_tasks spawned_a9.1.2) =
  ("SPAWNING", Some 501,
   [AgentReader "a9"; AgentPidfdWatch "a9" "s1" 501; AgentInitProbe "a9" "%2" "bash"]).
Proof. vm_compute. reflexivity. Qed.

Definition same_sessions (db db' : Db) : Prop := db'.(sessions) = db.(sessions).
#[local] Instance same_sessions_preorder : PreOrder same_sessions.
Proof. split; [by intros db|]. intros x y z Hxy Hyz. unfold same_sessions in *. by rewrite Hyz. Qed.
Lemma busy_keep_sessions p rt w : same_sessions w.(w_db) (busy_others p rt w).2.(w_db).
Proof.
  generalize (same_insert_job (ref_print (JNumber (Z.of_nat p))) "a1" None "more" w).
  unfold same_sessions, busy_others. cbn [snd]. by intros [= _ -> _ _].
Qed.

Definition a9_params : SpawnParams :=
  match spawn_params (spawn_request "a9") with
  | Ok p => p
  | Err _ => MkSpawnParams "" "" "" bash_manifest (MkExtensionConfig JNull [] [] [] [] JNull None) ∅ ∅ None JNull false
  end.
Lemma a9_read : spawn_params (spawn_request "a9") = Ok a9_params.
Proof. vm_compute. reflexivity. Qed.
Lemma a9_answered : ∃ answer, spawned_a9.1.1 = Ok answer.
Proof. vm_compute. by eexists. Qed.
Lemma same_sessions_stay db db' sid :
  same_sessions db db' → is_Some (db.(sessions) !! sid) → is_Some (db'.(sessions) !! sid).
Proof. unfold same_sessions. by intros ->. Qed.

Lemma spawn_all_or_nothing_witness :
  ∃ answer rt' w', spawned_a9 = (Ok answer, rt', w') ∧
    spawned watch_ctx same_sessions "a9" a9_params InsertDefault answer watching w_agents rt' w'.
Proof.
  pose proof (spawn_all_or_nothing watch_ctx busy_others same_sessions "a9" busy_keep_sessions
    (λ _ _ _, eq_refl) (λ _ _ _, eq_refl) (λ _ _ _, eq_refl) same_sessions_stay
    (spawn_request "a9") a9_params false InsertDefault watching w_agents a9_read eq_refl) as H.
  unfold leads in H. fold (handle_agent_spawn watch_ctx busy_others (spawn_request "a9")) in H.
  fold (spawn_run watch_ctx watching "a9" w_agents) in H. fold spawned_a9 in H. revert H.
  generalize a9_answered. destruct spawned_a9 as [[r rt'] w']. cbn [fst snd].
  intros [answer ->] (cs & _ & Hs). by exists answer, rt', w'.
Defined.

(** A spawn that cannot open the pidfd of its process: the pane is killed, the
    pipe is gone, the database is as it was; but the sandbox with its home, which
    the killed agent of this id had left, is removed with it. *)
Definition no_pidfd : WatchRuntime nat :=
  MkWatchRuntime (MkTmuxTerminal 0%nat []) ∅ (MkAgentTables ∅ ∅ ∅ ∅) no_scan
    (MkMasterHost (λ _, Err (EnvironmentNotSupported "EMFILE")) None (λ _, None) (λ _, None) (λ _, None)
       (λ _, None) (λ _, None) None None None ref_host (MkRegistries ∅ ∅ ∅ ∅) ref_runner) [] [] [].
Definition failed_respawn : Result Value CcbdError * WatchRuntime nat * World :=
  handle_agent_spawn (ctx_with (MkEnvState true false true) "bash" None) quiet_others (spawn_request "a1")
    no_pidfd w_killed.
Definition removes_a1 (e : Effect) : bool :=
  match e with RemoveSandboxDir sid id _ => (sid == "s1") && (id == "a1") | _ => false end.
Example failed_respawn_removes_sandbox :
  (is_err failed_respawn.1.1, bool_decide (Some "%2" ∈ kills_pane <$> tm_trace (wr_terminal failed_respawn.1.2)),
   bool_decide (at_fifos (wr_agents failed_respawn.1.2) = ∅),
   existsb removes_a1 failed_respawn.2.(w_out)) =
  (true, true, true, true).
Proof. vm_compute. reflexivity. Qed.

(** A configuration whose hash cannot be computed fails the spawn after the pane
    was started: nothing undoes the pane and the pipe. *)
Definition no_hash : SpawnPreparation :=
  MkSpawnPreparation (λ _ _ e, Ok e) (λ _ _ _ _ _ _ _, Ok (MkHomeOverrides "/home" ∅)) (λ _ _, [])
    (λ _ _ _, Err (PtyIoError "json")) (λ _, None).
Definition no_hash_ctx : WatchCtx :=
  MkWatchCtx server "/state" (MkEnvState false true false) None None (Ok "/bin/ah") (λ _, Ok ["/"; "home"])
    (λ _, "bash") (λ _, Ok None) (λ d, Ok d) no_hash true None None 5.
Definition unhashed : Result Value CcbdError * WatchRuntime nat * World :=
  spawn_run no_hash_ctx watching "a9" w_agents.
Example failed_hash_leaves_pane :
  (is_err unhashed.1.1, bool_decide (Some "%2" ∈ names_pane <$> tm_trace (wr_terminal unhashed.1.2)),
   bool_decide (Some "%2" ∈ kills_pane <$> tm_trace (wr_terminal unhashed.1.2)),
   bool_decide (fifo no_hash_ctx "a9" ∈ at_fifos (wr_agents unhashed.1.2))) = (true, true, false, true).
Proof. vm_compute. reflexivity. Qed.

(** ** A job waited for *)

Definition finishing_others (p : nat) (rt : WatchRuntime nat) (w : World) : WatchRuntime nat * World :=
  if (p =? 163)%nat then (rt, w_completed) else (rt, w).
Definition wait_request : Value := json_object [("job_id", JString "j1")].
Lemma j1_seen : ∃ seen, job_seen "j1" w_busy.(w_db) = Ok seen.
Proof. vm_compute. by eexists. Qed.
Lemma j1_ends rt w : ended "j1" (finishing_others 163 rt w).2.(w_db).
Proof. vm_compute. by eexists. Qed.

(** A job that is dispatched between the look of [job.cancel] and its update runs
    on although the answer is that it was cancelled. *)
Definition dispatching_others (p : nat) (rt : WatchRuntime nat) (w : World) : WatchRuntime nat * World :=
  if (p =? 172)%nat then (rt, (dispatch_a1 w).2) else (rt, w).
Definition cancelled_late : Result Value CcbdError * WatchRuntime nat * World :=
  handle_job_cancel watch_ctx dispatching_others wait_request watching w_queued.
Example cancelled_job_runs_on :
  (cancelled_late.1.1, j_status (job_of cancelled_late.2 "j1"),
   j_cancel_requested (job_of cancelled_late.2 "j1")) =
  (Ok (cancel_answer "j1" "CANCELLED"), "DISPATCHED", false).
Proof. vm_compute. reflexivity. Qed.

(** ** Agents whose process exited *)

(** The watch of a process knows its agent's id only: when the agent was spawned
    again meanwhile, the end of the old process crashes the new agent. *)
Definition w_again : World := (insert_agent_sync "a1" "s1" "codex" "IDLE" (Some 501) w_killed).2.
Example late_watch_crashes_successor :
  (a_state (agent_of w_again "a1"), a_pid (agent_of w_again "a1"),
   a_state (agent_of (agent_process_exited quiet_others "a1" "s1" None watching w_again).2 "a1")) =
  ("IDLE", Some 501, "CRASHED").
Proof. vm_compute. reflexivity. Qed.

(** An exit while a prompt waits for an answer is dropped with its watch. *)
Definition w_parked : World := (mark_agent_prompt_pending "a1" "PROMPT" w_agents).2.
Example exit_while_parked_is_dropped :
  (a_state (agent_of w_parked "a1"),
   a_state (agent_of (agent_process_exited quiet_others "a1" "s1" (Some 1) watching w_parked).2 "a1")) =
  ("PROMPT_PENDING", "PROMPT_PENDING").
Proof. vm_compute. reflexivity. Qed.

(** ** Screens that stand still *)

Definition pane_seen (text : string) : PaneDiffObservation := MkPaneDiffObservation "a1" text None (Some "bash").
Definition pane_tick (now : Z) (text : string) : PaneTick := MkPaneTick now (λ _, false) [pane_seen text].
Definition pane_ticks : list PaneTick := [pane_tick 0 "compiling"; pane_tick 30000 "linking"; pane_tick 60000 "linking"].
Definition after_ticks (ticks : list PaneTick) : DiffStates := default ∅ (watch_ticks 300000 2 ticks ∅).
Definition last_tick : DiffStates * PaneDiffTickResult :=
  default (∅, MkPaneDiffTickResult [] []) (process_pane_diff_observations 330000 300000 2 (λ _, false)
    [pane_seen "linking"] (after_ticks pane_ticks)).
Definition linking_stuck : StuckSignal := MkStuckSignal "a1" ["hash"] 300.

Lemma stuck_means_still_witness :
  ∃ before first after text, pane_ticks = before ++ first :: after ∧
    Forall (seen_as "a1" text) (first :: after ++ [pane_tick 330000 "linking"]) ∧
    300000 ≤ 330000 - first.(pk_now) ∧ 300 = (330000 - first.(pk_now)) / 1000.
Proof.
  apply (stuck_means_still 300000 2 pane_ticks (pane_tick 330000 "linking") (after_ticks pane_ticks)
    last_tick.1 last_tick.2 linking_stuck).
  - lia.
  - repeat constructor; cbn; set_solver.
  - vm_compute. reflexivity.
  - vm_compute. reflexivity.
  - vm_compute. by left.
Defined.

Definition watched_world : World := w_busy.
Definition provider_known (a : Agent) : bool :=
  negb ((a.(a_state) == "BUSY") || (a.(a_state) == "STUCK")) || bool_decide (is_Some (try_get_manifest a.(a_provider))).
Lemma watchable_checked w : forallb provider_known (table_rows w.(w_db).(agents)) = true → watchable w.
Proof.
  intros Hall id a Ha Hs. rewrite forallb_forall in Hall.
  specialize (Hall a). rewrite -list_elem_of_In elem_of_table_rows in Hall.
  specialize (Hall (ex_intro _ id Ha)). unfold provider_known in Hall.
  apply orb_true_iff in Hall as [Hn|Hk]; [|by apply bool_decide_eq_true in Hk].
  apply negb_true_iff, orb_false_iff in Hn as [H1 H2]. apply bool_decide_eq_false in H1, H2. by destruct Hs.
Qed.
Lemma pane_diff_only_alerts_witness :
  ∃ states' w' agents_seen result,
    pane_diff_watcher_tick (λ _, Some "linking") 330000 300000 2 (λ _, false) (after_ticks pane_ticks) watched_world
      = (Ok states', w') ∧
    query_ui_completion_recapture_agents watched_world = (Ok agents_seen, watched_world) ∧
    process_pane_diff_observations 330000 300000 2 (λ _, false)
      (omap (observe_agent (λ _, Some "linking")) agents_seen) (after_ticks pane_ticks) = Some (states', result) ∧
    only_logs watched_world w' ∧
    length w'.(w_db).(events) = (length watched_world.(w_db).(events) +
      length result.(pt_stuck_signals) + length result.(pt_ui_completed))%nat.
Proof.
  apply pane_diff_only_alerts; [apply wf_of, reachable_busy|].
  apply watchable_checked. vm_compute. reflexivity.
Defined.
Example pane_alerted :
  length (w_db (pane_diff_watcher_tick (λ _, Some "linking") 330000 300000 2 (λ _, false)
    (after_ticks pane_ticks) watched_world).2).(events) = S (length watched_world.(w_db).(events)).
Proof. vm_compute. reflexivity. Qed.

(** A [Regex] that knows the clock at the end of a line: a screen whose line ends
    in two of them differs from itself at every turn and is never reported. *)
Definition is_clock (s : string) : bool :=
  match String.list_ascii_of_string s with
  | [sp; a; b; c1; c; d; c2; e; f] =>
      let code := Ascii.nat_of_ascii in
      (code sp =? 32)%nat && (code c1 =? 58)%nat && (code c2 =? 58)%nat &&
      forallb (λ x, (48 <=? code x)%nat && (code x <=? 57)%nat) [a; b; c; d; e; f]
  | _ => false
  end.
Definition drop_clock (s : string) : string :=
  let n := (String.length s - 9)%nat in
  if is_clock (String.substring n 9 s) then String.substring 0 n s else s.
Definition clock_regex : PromptExternals :=
  Build_PromptExternals regex_error regex_find
    (λ pattern by_ s, if contains pattern ":\d+" then drop_clock s else s)
    regex_escape sha256_hex vt100_screen str_debug actions_to_string actions_from_str actions_error actions_from_to.
Definition two_clocks : string := "build 00:00:01 00:00:02".
Example two_clocks_unsettled : ¬ settled_text (PX := clock_regex) two_clocks.
Proof. vm_compute. discriminate. Qed.
Definition clock_ticks : list PaneTick := (λ k, pane_tick (30000 * Z.of_nat k) two_clocks) <$> seq 0 100.
Example two_clocks_never_reported :
  pt_stuck_signals (default (∅, MkPaneDiffTickResult [] []) (process_pane_diff_observations (PX := clock_regex)
    3000000 300000 2 (λ _, false) [pane_seen two_clocks]
    (default ∅ (watch_ticks (PX := clock_regex) 300000 2 clock_ticks ∅)))).2 = [].
Proof. vm_compute. reflexivity. Qed.

(** ** An agent that starts *)

Definition w_starting : World := (insert_agent_sync "a9" "s1" "bash" "SPAWNING" (Some 501) w_agents).2.
Lemma reachable_starting : reachable w_starting.
Proof. eapply step_delete; [apply d_insert_agent|apply reachable_agents|reflexivity]. Qed.
Definition a9_probe : InitProbe :=
  MkInitProbe "a9" "%2" "bash" (from_manifest bash_manifest) ProbeBash 30000 STABLE_UNKNOWN_STARTUP_GRACE "evi9".
Definition look (elapsed : Z) : ProbeTurn := MkProbeTurn elapsed elapsed (Ok []).
Definition looks : list ProbeTurn := look <$> [0; 200; 10400; 10900; 30000].
Definition no_llm (_ _ _ : string) : Result LlmOutcome LlmError := Err MissingKey.
Definition probed (tx : TmuxExec nat) : Result bool CcbdError * WatchRuntime nat * World :=
  run_init_probe_task (TX := tx) server no_llm kb_no_faults quiet_others a9_probe looks watching w_starting.

(** A shell that shows its prompt is ready at the second look. *)
Example shell_is_ready :
  ((probed pane_501).1.1, a_state (agent_of (probed pane_501).2 "a9"),
   length (tm_trace (wr_terminal (probed pane_501).1.2))) = (Ok true, "IDLE", 2%nat).
Proof. vm_compute. reflexivity. Qed.
(** A screen nobody knows: a person is asked, and nobody comes. *)
Definition pane_loading : TmuxExec nat := λ c n, (Ran true (Some 0) "loading" "", n).
Example unknown_screen_fails :
  ((probed pane_loading).1.1, a_state (agent_of (probed pane_loading).2 "a9"),
   e_event_type <$> last (w_db (probed pane_loading).2).(events)) =
  (Ok true, "FAILED", Some "state_change").
Proof. vm_compute. reflexivity. Qed.

Lemma a9_ready : probe_ready a9_probe w_starting.(w_db).
Proof.
  split; [apply consistent_of, reachable_starting|]. split; [vm_compute; reflexivity|].
  intros _. vm_compute. reflexivity.
Qed.
Lemma looks_have_no_rules : ¬ Exists rules_fail looks.
Proof.
  intros Hf. apply Exists_exists in Hf as (turn & Hin & Hf).
  assert (turn.(pn_rules) = Ok []) as Hr by (by apply list_elem_of_fmap in Hin as (k & -> & _)).
  unfold rules_fail in Hf. rewrite Hr in Hf. by destruct Hf as (capture & e & [=]).
Qed.
Lemma init_probe_settles_witness :
  (probed pane_501).1.1 ≠ Ok false ∧ outside "a9" [STATE_SPAWNING; STATE_SPAWNING_INTERVENTION] (probed pane_501).2.(w_db).
Proof.
  destruct (init_probe_settles server no_llm kb_no_faults quiet_others a9_probe (λ _ _ _ H, H) (λ _ _ _ H, H)
    (λ _ _ _ H, H) looks watching w_starting a9_ready) as [Hret [Hend|[_ Hf]]].
  - do 4 apply Exists_cons_tl. apply Exists_cons_hd. vm_compute. discriminate.
  - split; [exact Hret|exact Hend].
  - by destruct looks_have_no_rules.
Defined.
(** One rule that does not compile ends the task at its first look: nothing gives
    the agent up any more. *)
Definition bad_regex : PromptExternals :=
  Build_PromptExternals (λ _ _, Some "unclosed group") regex_find regex_replace_all
    regex_escape sha256_hex vt100_screen str_debug actions_to_string actions_from_str actions_error actions_from_to.
Definition bad_rule : LearnedRule := MkLearnedRule "r1" (RegexFingerprint "(") [] None.
Definition ruled_looks : list ProbeTurn := (λ k, MkProbeTurn k k (Ok [bad_rule])) <$> [0; 200; 10400; 10900; 30000].
Example bad_rule_ends_probe :
  let x := run_init_probe_task (PX := bad_regex) (TX := pane_501) server no_llm kb_no_faults quiet_others a9_probe
    ruled_looks watching w_starting in
  (is_err x.1.1, a_state (agent_of x.2 "a9")) = (true, "SPAWNING").
Proof. vm_compute. reflexivity. Qed.

(** ** A command that was typed *)

Definition w_sent : World :=
  (dispatch_job_to_agent "b1" ["IDLE"] "WAITING_FOR_ACK" "state_change"
    (json_object [("from", JString "IDLE"); ("to", JString "WAITING_FOR_ACK")]) w_shell2).2.
Lemma reachable_sent : reachable w_sent.
Proof. eapply step_entry; [apply q_dispatch|apply reachable_shell|reflexivity]. Qed.
Definition b1_seed : AckSeed :=
  MkAckSeed "b1" "bash" "$ " bash_manifest.(idle_detection_mode) (from_manifest bash_manifest).
Definition b1_watching : WatchRuntime nat :=
  set_wr_agents (MkAgentTables {["b1" := MkAgentIoEntry "s1" "%1" (Some 8) "/fifo" "ah" false]} {["b1" := ""]} ∅ ∅) watching.
(** A pane that shows one screen after the other; the last one stays. *)
Definition showing (screens : list string) : TmuxExec nat := λ c n,
  match drop 2 c.(tc_args) with
  | "capture-pane" :: _ => (Ran true (Some 0) (default (default "" (last screens)) (screens !! n)) "", S n)
  | _ => (Ran true (Some 0) "" "", n)
  end.
Definition glimpse (k : Z) : AckTurn := MkAckTurn k (k + 5).
Definition glimpses : list AckTurn := glimpse <$> [50; 100; 150; 600; 5000].
Definition acked (tx : TmuxExec nat) : Result (option bool) CcbdError * WatchRuntime nat * World :=
  run_capture_seed (TX := tx) server no_llm kb_no_faults None quiet_others b1_seed glimpses b1_watching w_sent.
Definition ack_seen (tx : TmuxExec nat) : Result (option bool) CcbdError * string * string :=
  ((acked tx).1.1, a_state (agent_of (acked tx).2 "b1"), j_status (job_of (acked tx).2 "k1")).

(** A screen that stands still for half a second is taken for one of an agent at work. *)
Example still_screen_is_busy : ack_seen (showing ["$ "]) = (Ok (Some false), "BUSY", "DISPATCHED").
Proof. vm_compute. reflexivity. Qed.
(** The screen cannot be captured after the command was typed: the command is
    queued again, although it was typed already, and will be typed twice. *)
Definition no_tmux : TmuxExec nat := λ c n, (Ran false (Some 1) "" "no server", n).
Example typed_command_is_requeued : ack_seen no_tmux = (Ok (Some false), "IDLE", "QUEUED").
Proof. vm_compute. reflexivity. Qed.
(** What was added is cut at the byte the last screen ended: here inside of the
    second byte of a letter, and the task panics. *)
Example cut_inside_letter_panics :
  ack_seen (showing ["$ make: building the tool"; "$ make: building the tool, ab"; "$ make: building the tool, aé"]) =
  (Ok (Some true), "BUSY", "DISPATCHED").
Proof. vm_compute. reflexivity. Qed.

Lemma ack_settles_witness :
  (∃ panicked, (acked no_tmux).1.1 = Ok (Some panicked)) ∧ outside "b1" [STATE_WAITING_FOR_ACK] (acked no_tmux).2.(w_db).
Proof.
  assert (Hd : Exists (λ turn, CAPTURE_SEED_DEADLINE_MS ≤ turn.(ak_begin)) glimpses).
  { do 4 apply Exists_cons_tl. apply Exists_cons_hd. vm_compute. discriminate. }
  pose proof (ack_settles (TX := no_tmux) server no_llm kb_no_faults None quiet_others b1_seed (λ _ _ _ H, H)
    (λ _ _ _ H, H) glimpses b1_watching w_sent (consistent_of _ reachable_sent) Hd) as H.
  exact H.
Defined.
